(* ===== verification/_CoqProject ===== *)
-Q . S2P
Prelude.v
FixedPoint.v
Calendar.v
CalendarFacts.v
ClockTime.v
ClockTimeFacts.v
TimeOps.v
TimeFacts.v
Double.v
Lists.v
NtpTypes.v
RecvBuff.v
RecvBuffFacts.v
PrioQueue.v
Systime.v
SystimeFacts.v
Text.v
TextFacts.v
Decimal.v
DecimalFacts.v
Lines.v
LinesFacts.v
FileGen.v
FileGenFacts.v
Parse.v
ParseFormats.v
RawDcf.v
ParseFacts.v
ParseSafety.v
RawDcfFacts.v
AuthKeys.v
AuthFacts.v
KeyFile.v
KeyFileFacts.v
Monitor.v
MonitorFacts.v
Stats.v
StatsFacts.v
Restrict.v
RestrictFacts.v
State.v
ProtoBase.v
LoopFilter.v
Refclock.v
Peer.v
Sample.v
LoopFacts.v
PeerFacts.v
FreshFacts.v
Select.v
SelectFacts.v
Filter.v
RefclockPoll.v
FilterFacts.v
Transmit.v
Timer.v
Receive.v
EngineFacts.v
RefclockFacts.v
ReceiveFacts.v
TransmitFacts.v
WireFacts.v
TimerFacts.v
LeapTimer.v
Control.v
ControlVars.v
ControlOps.v
ControlMain.v
ControlSample.v
ControlFacts.v
ControlSafety.v
Query.v
QueryFacts.v
QueryServer.v
Request.v
RequestFacts.v
ControlFindings.v
Findings.v
