(* ===== verification/Prelude.v ===== *)
(** * Verification of ntpd, the NTP version 4 daemon

    This library models the core of the daemon in ntpd/ and of the library
    libntp/ it is built on, as executable functions on explicit state, and
    proves the properties that make it correct.  File and function names
    below are those of the repository.

    ** The program

    A datagram arrives at a local endpoint and goes through [receive]: access
    control and rate limiting, authentication, the search for the
    association, and the action for the pair of association and packet mode;
    [process_packet] turns four timestamps into a sample of offset, delay
    and dispersion, [clock_filter] takes the best of the last eight,
    [clock_select] finds the majority of the associations that agree and
    elects a system peer, [clock_update] hands the combined offset to the
    discipline, [local_clock], which steps or slews the system clock.  Once
    a second [timer] adjusts the clock and polls the associations whose time
    has come ([transmit]), reference clocks among them.  The parts share the
    peer table, the key store, the restriction lists and the monitor's list
    of recent sources.  Between the sockets and the engine packets wait in a
    pool of receive buffers.  Two protocols manage the daemon: mode 6, text
    in fragments, which ntpq speaks, and mode 7, arrays of structures.
    Serial reference clocks send telegrams, which a parser of their own
    collects and converts.

    ** The files

    Data and libraries:
    - Prelude: C integers of fixed width as [Z] with their conversions, the
      record update notation, shared tactics and the hint database [ntp].
    - FixedPoint, Double: the [l_fp] timestamps of include/ntp_fp.h on two
      words, and C doubles as IEEE binary64 numbers.
    - Calendar, CalendarFacts: libntp/ntp_calendar.c, both the 64-bit and
      the 32-bit implementations.
    - ClockTime, ClockTimeFacts: libntp/clocktime.c.
    - TimeOps, TimeFacts: include/timespecops.h and timevalops.h, written
      once over the unit.
    - Systime, SystimeFacts: libntp/systime.c, reading, slewing and stepping
      the clock.
    - Text, TextFacts: strings, the conversions of [snprintf] in use, and
      atoint.c, atouint.c, hextoint.c, octtoint.c, numtoa.c, socktoa.c and
      statestr.c of libntp/.
    - Decimal, DecimalFacts: dolfptoa.c, dofptoa.c, atolfp.c, mstolfp.c and
      hextolfp.c of libntp/, numbers with a fraction as text.
    - Lines, LinesFacts: lines of text files and the numbers in them, as
      [fgets], [sscanf] and [atoi] read them.
    - Lists: the intrusive lists of include/ntp_lists.h, as lists of
      pointers; NtpTypes: addresses, packets and constants of include/.
    - RecvBuff, RecvBuffFacts: libntp/recvbuff.c with the FIFO of
      include/ntp_lists.h on explicit pointers, [read_network_packet],
      [read_refclock_packet] and the loop of ntpd.c over received packets.
    - PrioQueue: ntpd/ntp_prio_q.c and the orders of ntpsim.c.

    Serial clocks:
    - Parse, ParseFacts: libparse/parse.c, the telegram buffers and the
      conversion to a time stamp over a table of formats; the class
      [FormatOk] is what the parser asks of a format.
    - ParseFormats, ParseSafety: the formats of libparse/clk_*.c, and that
      they are [FormatOk].
    - RawDcf, RawDcfFacts: libparse/clk_rawdcf.c, the decoder of DCF77
      pulses.

    Stores:
    - AuthKeys, AuthFacts: libntp/authkeys.c and a_md5encrypt.c, the
      symmetric keys with their hash table, list, cache and heap.
    - KeyFile, KeyFileFacts: libntp/authreadkeys.c, the file of the keys.
    - Monitor, MonitorFacts: ntpd/ntp_monitor.c.
    - Restrict, RestrictFacts: ntpd/ntp_restrict.c.

    The engine:
    - State: [struct peer], [struct refclockproc] and the globals of the
      daemon; ProtoBase: the environment and the helpers of ntp_proto.c,
      ntp_control.c (events) and ntp_util.c (leap month).
    - Peer, PeerFacts: ntpd/ntp_peer.c.
    - Select, SelectFacts: [clock_select], [clock_combine], [clock_update].
    - LoopFilter, LoopFacts: ntpd/ntp_loopfilter.c.
    - Filter, FilterFacts: [clock_filter].
    - Refclock, RefclockPoll, RefclockFacts: the interface to reference
      clocks, ntpd/ntp_refclock.c.
    - Transmit, TransmitFacts, WireFacts: [transmit], [peer_xmit],
      [fast_xmit], [pool_xmit], and the shape of what they send.
    - Timer, TimerFacts: ntpd/ntp_timer.c.
    - Receive, ReceiveFacts: [receive], [process_packet].
    - EngineFacts: the frame lemmas all of these share; Sample: a concrete
      environment and state the closed instances evaluate on; Findings:
      behaviours of the code that differ from what its comments say.

    Files:
    - FileGen, FileGenFacts: ntpd/ntp_filegen.c on a file system of names,
      files and their lines.
    - Stats, StatsFacts: of ntpd/ntp_util.c the statistics records, the leap
      second file and [ntpd_time_stepped]; LeapTimer: the leap second file
      as the event timer reads it.

    Management:
    - Control, ControlVars, ControlOps, ControlMain: ntpd/ntp_control.c, the
      assembly of a response, the variables, the handlers (with
      libntp/decodenetnum.c), the lists and the dispatch; ControlFacts, ControlSafety: their theorems;
      ControlSample: a state to evaluate on; ControlFindings: defects.
    - Query, QueryFacts, QueryServer: the protocol side of ntpq/ntpq.c, alone
      and against the server.
    - Request, RequestFacts: ntpd/ntp_request.c.

    ** How the code is modelled

    A C integer is a [Z] and every assignment goes through the conversion of
    its width; unsigned arithmetic wraps.  Structures are records, pointers
    to peers, endpoints, keys, restriction and monitor entries are integers
    into heaps ([gmap]), so that aliasing and reuse of freed structures are
    those of the code.  A procedure is a function from state to state; one
    that can fail returns an [option], [None] standing for a null or stale
    dereference, a failed assertion or a loop that does not end, so that a
    theorem that it returns [Some] is a safety and termination theorem.
    Effects outside the state (packets sent, the clock stepped or slewed,
    events reported, the program exiting) are appended to the output [out]
    in order.  After an [Exit] the rest of a run is moot.

    The build is the one with HAVE_INT64, LP64 integers, REFCLOCK and the
    resolver in a worker, without AUTOKEY, KERNEL_PLL, LOCKCLOCK, SIGND and
    DEBUG, SAVECONFIG and time stamps from the kernel; the structures of
    mode 7 have the layout of a 64-bit little-endian machine.  Log text is
    left out; the engine reports an event as an output, and the trap messages
    of an event are a function of the mode 6 server.  The engine does not
    call the statistics records, which are operations of their own.

    What lies outside is a parameter: the message digest (class [Digest], with
    [DigestLaws] for its length and its values), the interfaces and their socket
    options, the random numbers, the system clock, the reference clock
    drivers and the management protocols (class [Env], with [EnvLaws]: the
    socket options and the drivers leave the tables of associations alone),
    the files and the interface scan of the timer ([TimerEnv], [TimerLaws]),
    what the mode 6 server asks of other parts ([CtlEnv]), the text
    of an IPv6 address ([NetText]), what the process may do with files
    ([Permissions]) and the answers of the user to the
    prompts of ntpq ([Prompt]).  What the system returns to
    Systime, RecvBuff and Query is an argument of the operations.
    No law is assumed where a theorem does not name its class; Sample and
    the Facts files give instances.

    Loops that are not structural carry a fuel that is proved enough or
    covers the loop by its bound in the code: 32 rounds for the bits of an
    [u_int] in the monitor's table size, one round per candidate in the
    intersection and cluster loops, two rounds of [findpeer], the length of
    the list for walks over lists, the length of the packet plus one for the
    scan of extension fields, 60 slots of the sample ring, the number of
    samples for the trimming, the length of a request plus one for its
    items, 64 draws of a nonce's salt, the number of buffers for walks
    over the buffer lists and the length of the queue for the main loop,
    65536 items of a mode 7 request, which a counter of 16 bits cannot
    exceed, the length of the buffer plus one for a number in a telegram, the
    length of a file for its lines.  [name_loop] has a fuel that is not
    enough, which is the point of [filegen_config_loops].

    ** What is proved

    - Packets: no packet moves the clock or an association's samples unless
      it passed the freshness and authentication tests of the association it
      is for ([receive_gates_clock]); denied sources get nothing done
      ([denied_packet_dropped]); the scan for the MAC stays inside the
      packet; an honest exchange is accepted.
    - Associations: list, hash tables, counters, free list and endpoint
      lists stay consistent under every operation; lookups and mobilization
      behave as specified; the timer's walks are safe although they free
      structures ([timer_total]).
    - Selection: the intersection interval is inside all but a minority of
      the correctness intervals; the system peer is fit; the cluster
      algorithm ends with enough survivors; the filter picks the best
      sample.
    - Discipline: [local_clock] implements the documented state machine;
      frequency and poll interval stay in bounds; a leap second is inserted
      once.
    - Stores: the key store refines a map; MACs made are MACs accepted; the
      most specific restriction applies; rate limits hold; invariants of the
      restriction and monitor lists.
    - Reference clocks: the sample ring is a bounded queue, the median
      filter keeps the samples around the median, fudge factors read back,
      a timecode is dated in the nearest year.
    - Arithmetic: timestamps are 64-bit integers under their macros; the
      calendar conversions are inverse to each other and equal their
      reference definitions; readings of the clock do not go back.
    - Buffers: the linked buffers refine a stack, a queue and the buffers in
      hand; packets are delivered in order, each once; a purge can lose
      packets.
    - Mode 6: what the server puts in a response is what the client returns
      whatever the order of the fragments, and the variables it writes are
      the ones the client parses; writing needs the control key; nonces are
      accepted from the address they were given to; requests are parsed in
      bounded steps.
    - Mode 7: a protected request needs the request key and a fresh time
      stamp; the items of a listing are packed in order; the requests that
      check their items before using them fail.
    - Serial clocks: no input makes the parser leave its buffers
      ([parse_input_safe]); its dates are those of the calendar; a minute of
      DCF77 is decoded to the time it stands for, and one wrong pulse in it
      is found out; a failed conversion is taken all the same.
    - Numbers: a decimal text and the timestamp it is read to print the same.
    - Files: a statistics record is one line of the file of its day, week,
      month or year, and tells its time; no file is lost; the key file and
      the leap second file are read as they are written; a file name with a
      directory hangs the daemon, and a step of the clock does not flush the
      monitor.
    - Simulator: the queues sort, the order of the events is too coarse.
    - Findings: closed theorems that exhibit, on concrete states, what the
      code does against its intent.

    ** Not modelled

    The configuration parser and its application (ntp_config.c,
    ntp_scanner.c, ntp_parser.c); sockets and interfaces (ntp_io.c beyond
    [select_peerinterface] and the two readers); of mode 7 the handlers that
    only format counters, the system flags, rereading the keys and the interface
    requests; Autokey (ntp_crypto.c); the drivers (refclock_*.c) and of
    libparse/ the SEL 240x and Trimble TSIP telegrams; of ntp_util.c the
    frequency file and the raw and Autokey records; the utmp records after a step; the command interpreter and the tables of
    ntpq; and the other programs (ntpdc, ntpdate, sntp, util) with the
    vendored libraries. *)

From Stdlib Require Export ZArith Lia Bool List.
Export ListNotations.

Declare Scope ntp_scope.
Delimit Scope ntp_scope with ntp.
#[global] Open Scope Z_scope.

(** ** Fixed-width C integers

    A C integer is a [Z]; every assignment to a [w]-bit object goes through
    the conversion of that width.  Signed conversions wrap in two's
    complement, as every compiler the program targets does. *)

Definition wrap (w x : Z) : Z := x mod 2 ^ w.
Definition swrap (w x : Z) : Z := (x + 2 ^ (w - 1)) mod 2 ^ w - 2 ^ (w - 1).

Definition u8 (x : Z) : Z := wrap 8 x.
Definition u16 (x : Z) : Z := wrap 16 x.
Definition u32 (x : Z) : Z := wrap 32 x.
Definition u64 (x : Z) : Z := wrap 64 x.
Definition s8 (x : Z) : Z := swrap 8 x.
Definition s32 (x : Z) : Z := swrap 32 x.
Definition s64 (x : Z) : Z := swrap 64 x.

Definition is_u8 (x : Z) : Prop := 0 <= x < 2 ^ 8.
Definition is_u16 (x : Z) : Prop := 0 <= x < 2 ^ 16.
Definition is_u32 (x : Z) : Prop := 0 <= x < 2 ^ 32.
Definition is_s32 (x : Z) : Prop := - 2 ^ 31 <= x < 2 ^ 31.
Definition is_s64 (x : Z) : Prop := - 2 ^ 63 <= x < 2 ^ 63.

(** C truth values. *)
Definition truth (b : bool) : Z := if b then 1 else 0.
Definition nonzero (x : Z) : bool := negb (x =? 0).

(** C's [/] and [%] truncate towards zero. *)
Notation "x /c y" := (Z.quot x y) (at level 40, left associativity) : ntp_scope.
Notation "x %c y" := (Z.rem x y) (at level 40, left associativity) : ntp_scope.
Notation "x .& y" := (Z.land x y) (at level 40, left associativity) : ntp_scope.
Notation "x .| y" := (Z.lor x y) (at level 50, left associativity) : ntp_scope.
#[global] Open Scope ntp_scope.

(** ** Automation *)

Ltac unfold_ranges :=
  unfold is_u8, is_u16, is_u32, is_s32, is_s64 in *;
  change (2 ^ 8) with 256 in *; change (2 ^ 16) with 65536 in *;
  change (2 ^ 31) with 2147483648 in *; change (2 ^ 32) with 4294967296 in *;
  change (2 ^ 63) with 9223372036854775808 in *;
  change (2 ^ 64) with 18446744073709551616 in *.

Ltac unfold_widths :=
  unfold u8, u16, u32, u64, s8, s32, s64, wrap, swrap in *;
  change (2 ^ (8 - 1)) with 128 in *; change (2 ^ (32 - 1)) with 2147483648 in *;
  change (2 ^ (64 - 1)) with 9223372036854775808 in *;
  unfold_ranges.

(** [lia] after posing the defining equations of every division. *)
Ltac divlia := Z.to_euclidean_division_equations; lia.

(** Splits on every boolean comparison of the goal. *)
Ltac case_cmp :=
  repeat match goal with
  | |- context [?a <? ?b] => destruct (Z.ltb_spec a b)
  | |- context [?a <=? ?b] => destruct (Z.leb_spec a b)
  | |- context [?a =? ?b] => destruct (Z.eqb_spec a b)
  end.

(** [Some x = Some y -> ...], without reducing [x]. *)
Ltac some_inj :=
  match goal with
  | |- Some ?x = Some ?y -> _ =>
      let E := fresh in intros E; assert (y = x) as -> by congruence; clear E
  end.

Create HintDb ntp.
Create Rewrite HintDb ntp.

(** ** Lemmas on the widths *)

Lemma u8_small x : is_u8 x -> u8 x = x.
Proof. intros H. apply Z.mod_small, H. Qed.
Lemma u16_small x : is_u16 x -> u16 x = x.
Proof. intros H. apply Z.mod_small, H. Qed.
Lemma u32_small x : is_u32 x -> u32 x = x.
Proof. intros H. apply Z.mod_small, H. Qed.

Lemma swrap_small w x :
  0 < w -> - 2 ^ (w - 1) <= x < 2 ^ (w - 1) -> swrap w x = x.
Proof.
  intros Hw H. unfold swrap.
  assert (2 ^ w = 2 * 2 ^ (w - 1)) by
    (rewrite <- Z.pow_succ_r by lia; f_equal; lia).
  rewrite Z.mod_small; lia.
Qed.

Lemma s32_small x : is_s32 x -> s32 x = x.
Proof. intros H. apply swrap_small; [lia | exact H]. Qed.
Lemma s64_small x : is_s64 x -> s64 x = x.
Proof. intros H. apply swrap_small; [lia | exact H]. Qed.

Lemma s32_range x : is_s32 (s32 x).
Proof. unfold_widths. divlia. Qed.
Lemma u32_range x : is_u32 (u32 x).
Proof. unfold_widths. divlia. Qed.
Lemma u16_range x : is_u16 (u16 x).
Proof. unfold_widths. divlia. Qed.
Lemma u8_range x : is_u8 (u8 x).
Proof. unfold_widths. divlia. Qed.

(** Two conversions of congruent numbers agree. *)
Lemma u32_cong x y : (x - y) mod 2 ^ 32 = 0 -> u32 x = u32 y.
Proof. intros H. unfold_widths. divlia. Qed.

Lemma s32_of_u32 x : s32 (u32 x) = s32 x.
Proof. unfold_widths. divlia. Qed.
Lemma u32_of_s32 x : u32 (s32 x) = u32 x.
Proof. unfold_widths. divlia. Qed.

#[export] Hint Resolve s32_range u32_range u16_range u8_range : ntp.
#[export] Hint Rewrite s32_of_u32 u32_of_s32 : ntp.

(** Rewrites away the conversions whose argument [lia] can place in range. *)
Ltac drop_wraps :=
  repeat match goal with
  | |- context [s32 ?x] => rewrite (s32_small x) by (unfold_ranges; lia)
  | |- context [s64 ?x] => rewrite (s64_small x) by (unfold_ranges; lia)
  | |- context [u32 ?x] => rewrite (u32_small x) by (unfold_ranges; lia)
  | |- context [u16 ?x] => rewrite (u16_small x) by (unfold_ranges; lia)
  | |- context [u8 ?x] => rewrite (u8_small x) by (unfold_ranges; lia)
  end.

(** C's floor-division idiom: truncate, then correct a negative remainder. *)
Lemma floor_div_idiom a b :
  0 < b ->
  (if a %c b <? 0 then (a /c b - 1, a %c b + b) else (a /c b, a %c b)) = (a / b, a mod b).
Proof.
  intros Hb. pose proof (Z.quot_rem' a b).
  pose proof (Z.rem_bound_abs a b ltac:(lia)).
  destruct (Z.ltb_spec (a %c b) 0); f_equal;
    solve [ eapply Z.div_unique with (r := a %c b); lia
          | eapply Z.div_unique with (r := a %c b + b); lia
          | eapply Z.mod_unique with (q := a /c b); lia
          | eapply Z.mod_unique with (q := a /c b - 1); lia ].
Qed.

(** ** Exhaustive checks over an interval *)

Fixpoint zrange (lo : Z) (n : nat) : list Z :=
  match n with O => [] | S n => lo :: zrange (lo + 1) n end.

Lemma zrange_In lo n x : lo <= x < lo + Z.of_nat n -> In x (zrange lo n).
Proof.
  revert lo. induction n as [|n IH]; intros lo H; cbn [zrange]; [lia|].
  destruct (Z.eq_dec lo x) as [->|Hne]; [now left | right; apply IH; lia].
Qed.

(** A boolean property checked on every point of [lo, lo + n). *)
Lemma forall_range (P : Z -> bool) lo n :
  forallb P (zrange lo n) = true -> forall x, lo <= x < lo + Z.of_nat n -> P x = true.
Proof. intros H x Hx. rewrite forallb_forall in H. apply H, zrange_In, Hx. Qed.

(** The floor-division idiom as the code writes it on [int32] variables. *)
Lemma floor_div_s32 a b :
  is_s32 a -> 2 <= b < 2 ^ 31 ->
  (if a %c b <? 0 then (s32 (a /c b - 1), s32 (a %c b + b)) else (a /c b, a %c b))
  = (a / b, a mod b).
Proof.
  intros Ha Hb. rewrite <- (floor_div_idiom a b) by lia.
  destruct (Z.ltb_spec (a %c b) 0); [| reflexivity].
  pose proof (Z.rem_bound_abs a b ltac:(lia)). unfold_ranges.
  assert (- 1073741824 <= a /c b <= 1073741824).
  { pose proof (Z.quot_rem' a b). nia. }
  now rewrite !s32_small by (unfold_ranges; lia).
Qed.

(** ** Bit operations as arithmetic *)

(** Joining a low part of [n] bits with a multiple of [2^n]. *)
Lemma lor_low_high n a b :
  0 <= n -> 0 <= a < 2 ^ n -> a .| (b * 2 ^ n) = a + b * 2 ^ n.
Proof.
  intros Hn Ha.
  assert (D : a .& (b * 2 ^ n) = 0).
  { apply Z.bits_inj'. intros i Hi. rewrite Z.land_spec, Z.mul_pow2_bits, Z.bits_0 by lia.
    destruct (Z.ltb_spec i n).
    - rewrite (Z.testbit_neg_r b) by lia. apply andb_false_r.
    - destruct (Z.eq_dec a 0) as [-> |]; [now rewrite Z.bits_0 |].
      rewrite (Z.bits_above_log2 a); [reflexivity | lia |].
      apply Z.lt_le_trans with n; [apply Z.log2_lt_pow2 |]; lia. }
  rewrite Z.add_nocarry_lxor, Z.lxor_lor by exact D. reflexivity.
Qed.

Lemma lor_high_low n a b :
  0 <= n -> 0 <= a < 2 ^ n -> (b * 2 ^ n) .| a = b * 2 ^ n + a.
Proof. intros. rewrite Z.lor_comm, lor_low_high by auto. lia. Qed.

Lemma land_ones_mod n a : 0 <= n -> a .& (2 ^ n - 1) = a mod 2 ^ n.
Proof. intros. rewrite <- Z.land_ones, Z.ones_equiv by lia. reflexivity. Qed.

(** The remainder of an opposite. *)
Lemma mod_opp_cases x c : 0 < c -> (- x) mod c = if x mod c =? 0 then 0 else c - x mod c.
Proof.
  intros Hc. destruct (Z.eqb_spec (x mod c) 0).
  - now apply Z.mod_opp_l_z; [lia |].
  - now apply Z.mod_opp_l_nz; [lia |].
Qed.

(** Ranges of [|] and [&]. *)
Lemma lor_range n a b : 0 <= n -> 0 <= a < 2 ^ n -> 0 <= b < 2 ^ n -> 0 <= a .| b < 2 ^ n.
Proof.
  intros Hn Ha Hb. assert (E : (a .| b) mod 2 ^ n = a .| b).
  { rewrite <- Z.land_ones, Z.land_lor_distr_l, !Z.land_ones by lia. now rewrite !Z.mod_small. }
  rewrite <- E. apply Z.mod_pos_bound. lia.
Qed.

Lemma land_range_l n a b : 0 <= n -> 0 <= a < 2 ^ n -> 0 <= a .& b < 2 ^ n.
Proof.
  intros Hn Ha. assert (E : (a .& b) mod 2 ^ n = a .& b).
  { rewrite <- Z.land_ones by lia. rewrite (Z.land_comm a b), <- Z.land_assoc, Z.land_ones by lia.
    now rewrite (Z.mod_small a). }
  rewrite <- E. apply Z.mod_pos_bound. lia.
Qed.
