(* ===== verification/FixedPoint.v ===== *)
(** * Long fixed-point timestamps: include/ntp_fp.h

    The [M_*] macros work on a pair of 32-bit words (integral part,
    fraction); the [L_*] macros are the same operations on [l_fp].  The
    specification is arithmetic modulo [2^64] on [lfp_val]. *)

From S2P Require Import Prelude.

(** ** Word-pair macros *)

(** A pair (integral word, fraction word), both [u_int32]. *)
Record l_fp := mk_lfp { l_ui : Z; l_uf : Z }.

Definition l_i (v : l_fp) : Z := s32 (l_ui v).

Definition M_NEG (v : l_fp) : l_fp :=
  let v_f := u32 (u32 (Z.lnot (l_uf v)) + 1) in
  mk_lfp (u32 (Z.lnot (l_ui v) + truth (v_f =? 0))) v_f.

Definition M_ADD (r a : l_fp) : l_fp :=
  let add_t := l_uf r in
  let r_f := u32 (l_uf r + l_uf a) in
  mk_lfp (u32 (l_ui r + (l_ui a + truth (r_f <? add_t)))) r_f.

Definition M_SUB (r a : l_fp) : l_fp :=
  let sub_t := l_uf r in
  let r_f := u32 (l_uf r - l_uf a) in
  mk_lfp (u32 (l_ui r - (l_ui a + truth (sub_t <? r_f)))) r_f.

Definition M_RSHIFTU (v : l_fp) : l_fp :=
  mk_lfp (Z.shiftr (l_ui v) 1)
         (Z.shiftr (l_uf v) 1 .| u32 (Z.shiftl (l_ui v) 31)).

Definition M_RSHIFT (v : l_fp) : l_fp :=
  mk_lfp (Z.shiftr (l_ui v) 1 .| (l_ui v .& 0x80000000))
         (Z.shiftr (l_uf v) 1 .| u32 (Z.shiftl (l_ui v) 31)).

Definition M_LSHIFT (v : l_fp) : l_fp :=
  mk_lfp (u32 (Z.shiftl (l_ui v) 1) .| Z.shiftr (l_uf v) 31)
         (u32 (Z.shiftl (l_uf v) 1)).

Definition M_ISNEG (v_i : Z) : bool := nonzero (v_i .& 0x80000000).

Definition M_ISGT (a b : l_fp) : bool :=
  (s32 (l_ui b) <? s32 (l_ui a)) ||
  ((l_ui a =? l_ui b) && (l_uf b <? l_uf a)).
Definition M_ISGTU (a b : l_fp) : bool :=
  (l_ui b <? l_ui a) || ((l_ui a =? l_ui b) && (l_uf b <? l_uf a)).
Definition M_ISHIS (a b : l_fp) : bool :=
  (l_ui b <? l_ui a) || ((l_ui a =? l_ui b) && (l_uf b <=? l_uf a)).
Definition M_ISGEQ (a b : l_fp) : bool :=
  (0x80000000 <? u32 (u32 (l_ui a - l_ui b) + 0x80000000)) ||
  ((l_ui a =? l_ui b) && (l_uf b <=? l_uf a)).
Definition M_ISEQU (a b : l_fp) : bool :=
  (l_ui a =? l_ui b) && (l_uf a =? l_uf b).

(** ** The [l_fp] operations *)

Definition L_ADD : l_fp -> l_fp -> l_fp := M_ADD.
Definition L_SUB : l_fp -> l_fp -> l_fp := M_SUB.
Definition L_NEG : l_fp -> l_fp := M_NEG.
Definition L_ADDUF (r : l_fp) (uf : Z) : l_fp := M_ADD r (mk_lfp 0 uf).
Definition L_SUBUF (r : l_fp) (uf : Z) : l_fp := M_SUB r (mk_lfp 0 uf).
Definition L_RSHIFT : l_fp -> l_fp := M_RSHIFT.
Definition L_RSHIFTU : l_fp -> l_fp := M_RSHIFTU.
Definition L_LSHIFT : l_fp -> l_fp := M_LSHIFT.
Definition L_CLR : l_fp := mk_lfp 0 0.
Definition L_ISNEG (v : l_fp) : bool := M_ISNEG (l_ui v).
Definition L_ISZERO (v : l_fp) : bool := (l_ui v .| l_uf v) =? 0.
Definition L_ISGT : l_fp -> l_fp -> bool := M_ISGT.
Definition L_ISGTU : l_fp -> l_fp -> bool := M_ISGTU.
Definition L_ISHIS : l_fp -> l_fp -> bool := M_ISHIS.
Definition L_ISGEQ : l_fp -> l_fp -> bool := M_ISGEQ.
Definition L_ISEQU : l_fp -> l_fp -> bool := M_ISEQU.

(** ** Specification: two's-complement arithmetic modulo [2^64] *)

Definition lfp_wf (v : l_fp) : Prop := is_u32 (l_ui v) /\ is_u32 (l_uf v).

(** The unsigned and the signed reading of the 64 bits. *)
Definition lfp_val (v : l_fp) : Z := l_ui v * 2 ^ 32 + l_uf v.
Definition lfp_sval (v : l_fp) : Z := s64 (lfp_val v).

(** The timestamp whose 64 bits are [x]. *)
Definition lfp_of (x : Z) : l_fp := mk_lfp (u64 x / 2 ^ 32) (u64 x mod 2 ^ 32).

Ltac lfp_crush :=
  unfold lfp_wf, lfp_val, truth in *; cbn [l_ui l_uf] in *;
  unfold_widths; unfold Z.lnot, Z.pred in *; case_cmp; divlia.

Lemma lfp_of_wf x : lfp_wf (lfp_of x).
Proof. unfold lfp_of. lfp_crush. Qed.

Lemma lfp_val_of x : lfp_val (lfp_of x) = u64 x.
Proof. unfold lfp_of. lfp_crush. Qed.

Lemma lfp_of_val v : lfp_wf v -> lfp_of (lfp_val v) = v.
Proof.
  destruct v as [i f]; intros H; unfold lfp_of; f_equal; lfp_crush.
Qed.

Lemma lfp_ext a b : lfp_wf a -> lfp_wf b -> lfp_val a = lfp_val b -> a = b.
Proof. intros Ha Hb E. rewrite <- (lfp_of_val a), <- (lfp_of_val b), E; auto. Qed.

Lemma M_ADD_wf r a : lfp_wf (M_ADD r a).
Proof. split; apply u32_range. Qed.
Lemma M_SUB_wf r a : lfp_wf (M_SUB r a).
Proof. split; apply u32_range. Qed.
Lemma M_NEG_wf v : lfp_wf (M_NEG v).
Proof. split; apply u32_range. Qed.

#[export] Hint Resolve lfp_of_wf M_ADD_wf M_SUB_wf M_NEG_wf : ntp.

Lemma lfp_val_add r a :
  lfp_wf r -> lfp_wf a -> lfp_val (M_ADD r a) = u64 (lfp_val r + lfp_val a).
Proof. destruct r, a; intros Hr Ha; unfold M_ADD; lfp_crush. Qed.

Lemma lfp_val_sub r a :
  lfp_wf r -> lfp_wf a -> lfp_val (M_SUB r a) = u64 (lfp_val r - lfp_val a).
Proof. destruct r, a; intros Hr Ha; unfold M_SUB; lfp_crush. Qed.

Lemma lfp_val_neg v : lfp_wf v -> lfp_val (M_NEG v) = u64 (- lfp_val v).
Proof. destruct v; intros Hv; unfold M_NEG; lfp_crush. Qed.

#[export] Hint Rewrite lfp_val_add lfp_val_sub lfp_val_neg using auto with ntp : ntp.

(** The sign test reads bit 31 of the integral word. *)
Lemma M_ISNEG_spec i : is_u32 i -> M_ISNEG i = (2 ^ 31 <=? i).
Proof.
  intros H. unfold M_ISNEG, nonzero.
  assert (Hb : i .& 0x80000000 = Z.b2z (Z.testbit i 31) * 2 ^ 31).
  { apply Z.bits_inj'. intros n Hn. rewrite Z.land_spec, Z.mul_pow2_bits by lia.
    change 0x80000000 with (2 ^ 31). rewrite Z.pow2_bits_eqb by lia.
    destruct (Z.eqb_spec 31 n) as [<- | Hne].
    - rewrite andb_true_r, Z.sub_diag. now destruct (Z.testbit i 31).
    - rewrite andb_false_r. symmetry.
      destruct (Z.testbit i 31); cbn [Z.b2z].
      + destruct (Z.ltb_spec n 31); [apply Z.testbit_neg_r; lia|].
        apply Z.bits_above_log2; cbn; lia.
      + apply Z.bits_0. }
  assert (Ht : Z.b2z (Z.testbit i 31) = i / 2 ^ 31 mod 2)
    by (rewrite Z.testbit_spec' by lia; reflexivity).
  rewrite Hb, Ht. unfold_ranges. case_cmp; cbn; divlia.
Qed.

Lemma L_ISZERO_spec v : lfp_wf v -> L_ISZERO v = (lfp_val v =? 0).
Proof.
  intros [[Hi _] [Hf _]]. unfold L_ISZERO, lfp_val.
  destruct (Z.eqb_spec (l_ui v .| l_uf v) 0) as [E | E].
  - apply Z.lor_eq_0_iff in E as [-> ->]. reflexivity.
  - symmetry. apply Z.eqb_neq. intros C. apply E, Z.lor_eq_0_iff. lia.
Qed.

Lemma L_ISEQU_spec a b : lfp_wf a -> lfp_wf b -> L_ISEQU a b = true <-> a = b.
Proof.
  intros Ha Hb. unfold L_ISEQU, M_ISEQU. rewrite andb_true_iff, !Z.eqb_eq.
  destruct a, b; cbn. split; [intros [-> ->] | intros [= -> ->]]; auto.
Qed.

(** [L_ADD], [L_SUB] and [L_NEG], coded word by word with a hand-made
    carry, are addition, subtraction and negation of the 64-bit numbers
    modulo [2^64]. *)
Theorem lfp_arith_correct a b :
  lfp_wf a -> lfp_wf b ->
  L_ADD a b = lfp_of (lfp_val a + lfp_val b) /\
  L_SUB a b = lfp_of (lfp_val a - lfp_val b) /\
  L_NEG a = lfp_of (- lfp_val a).
Proof.
  intros Ha Hb. unfold L_ADD, L_SUB, L_NEG.
  split; [|split]; (apply lfp_ext; auto with ntp);
    rewrite lfp_val_of; autorewrite with ntp; auto.
Qed.

Lemma lfp_arith_correct_witness :
  let a := mk_lfp 1 0xffffffff in let b := mk_lfp 0xfffffffe 1 in
  lfp_wf a /\ lfp_wf b /\ L_ADD a b = mk_lfp 0 0.
Proof.
  assert (Ha : lfp_wf (mk_lfp 1 0xffffffff)) by (unfold lfp_wf; unfold_ranges; cbn; lia).
  assert (Hb : lfp_wf (mk_lfp 0xfffffffe 1)) by (unfold lfp_wf; unfold_ranges; cbn; lia).
  split; [exact Ha | split; [exact Hb |]].
  rewrite (proj1 (lfp_arith_correct _ _ Ha Hb)). reflexivity.
Defined.

(** [L_ISGT] is the signed order of the 64-bit numbers and [L_ISGTU]
    and [L_ISHIS] are the unsigned orders. *)
Theorem lfp_order_correct a b :
  lfp_wf a -> lfp_wf b ->
  L_ISGT a b = (lfp_sval b <? lfp_sval a) /\
  L_ISGTU a b = (lfp_val b <? lfp_val a) /\
  L_ISHIS a b = (lfp_val b <=? lfp_val a).
Proof.
  destruct a as [ai af], b as [bi bf]. intros Ha Hb.
  unfold L_ISGT, L_ISGTU, L_ISHIS, M_ISGT, M_ISGTU, M_ISHIS, lfp_sval, lfp_wf, lfp_val in *.
  cbn [l_ui l_uf] in *. unfold_widths.
  repeat split; case_cmp; cbn [orb andb]; divlia.
Qed.

Lemma lfp_order_correct_witness :
  let a := mk_lfp 0xffffffff 0 in let b := mk_lfp 1 0 in
  lfp_wf a /\ lfp_wf b /\ L_ISGT a b = false /\ L_ISGTU a b = true.
Proof.
  assert (Ha : lfp_wf (mk_lfp 0xffffffff 0)) by (unfold lfp_wf; unfold_ranges; cbn; lia).
  assert (Hb : lfp_wf (mk_lfp 1 0)) by (unfold lfp_wf; unfold_ranges; cbn; lia).
  cbv zeta. destruct (lfp_order_correct _ _ Ha Hb) as (-> & -> & _).
  split; [exact Ha | split; [exact Hb |]]. split; reflexivity.
Defined.

(** The comment on [M_ISGEQ] promises a signed [>=]; the macro computes
    the circular order instead, and the two disagree on well-formed
    timestamps whose integral parts are more than [2^31] apart. *)
Theorem lfp_isgeq_not_signed :
  exists a b, lfp_wf a /\ lfp_wf b /\
    lfp_sval b <= lfp_sval a /\ L_ISGEQ a b = false.
Proof.
  exists (mk_lfp 0x7fffffff 0), (mk_lfp 0x80000000 0).
  repeat split; vm_compute; congruence.
Qed.
