(* ===== verification/Calendar.v ===== *)
(** * Calendar arithmetic: libntp/ntp_calendar.c and include/ntp_calendar.h

    Every function of ntp_calendar.c (the build-date string scan apart),
    [int32] arithmetic written with its wrap-around.  Where the source has
    a second implementation for compilers without 64-bit integers both
    branches are modelled: the [HAVE_INT64] one carries the source's name,
    the other one the suffix [_noint64].  Pointers that may be NULL are
    [option]s; [now] is what the installed time function returns. *)

From S2P Require Import Prelude FixedPoint.

(** ** Constants (ntp_calendar.h, ntp_unixtime.h) *)

Definition SECSPERMIN : Z := 60.
Definition MINSPERHR : Z := 60.
Definition SECSPERDAY : Z := 86400.
Definition DAYSPERYEAR : Z := 365.
Definition DAY_NTP_STARTS : Z := 693596.
Definition DAY_UNIX_STARTS : Z := 719163.
Definition GREGORIAN_NORMAL_LEAP_CYCLE_DAYS : Z := 1461.
Definition GREGORIAN_NORMAL_CENTURY_DAYS : Z := 36524.
Definition GREGORIAN_CYCLE_DAYS : Z := 146097.
Definition GREGORIAN_CYCLE_WEEKS : Z := 20871.
Definition JAN_1970 : Z := 2208988800.

Definition is_leapyear (y : Z) : bool :=
  negb (nonzero (y %c 4)) && negb (negb (nonzero (y %c 100)) && nonzero (y %c 400)).

(** ** Data *)

(** [struct calendar] *)
Record calendar := mk_calendar {
  jd_year : Z; jd_yearday : Z; jd_month : Z; jd_monthday : Z;
  jd_hour : Z; jd_minute : Z; jd_second : Z; jd_weekday : Z }.

(** [struct isodate] *)
Record isodate := mk_isodate {
  id_year : Z; id_week : Z; id_weekday : Z;
  id_hour : Z; id_minute : Z; id_second : Z }.

(** The fields of [struct tm] the code touches. *)
Record tm := mk_tm {
  tm_sec : Z; tm_min : Z; tm_hour : Z; tm_mday : Z; tm_mon : Z;
  tm_year : Z; tm_wday : Z; tm_yday : Z }.

(** [ntpcal_split] *)
Record ntpcal_split := mk_split { sp_hi : Z; sp_lo : Z }.

(** [vint64], represented by its unsigned quad scalar [Q_s]; the other
    views of the union are projections of it. *)
Definition vint64 : Type := Z.
Definition q_s (v : vint64) : Z := s64 v.
Definition D_s_lo (v : vint64) : Z := v mod 2 ^ 32.
Definition D_s_hi (v : vint64) : Z := v / 2 ^ 32.
Definition W_s_ll (v : vint64) : Z := D_s_lo v mod 2 ^ 16.
Definition W_s_lh (v : vint64) : Z := D_s_lo v / 2 ^ 16.
Definition of_q_s (x : Z) : vint64 := u64 x.
Definition of_D_s (hi lo : Z) : vint64 := hi * 2 ^ 32 + lo.

Definition of_lfp (v : l_fp) : vint64 := of_D_s (l_ui v) (l_uf v).

(** ** Tables *)

Definition shift_month_table : list Z :=
  [0; 31; 61; 92; 122; 153; 184; 214; 245; 275; 306; 337; 366].

Definition real_month_table (leap : bool) : list Z :=
  if leap
  then [0; 31; 60; 91; 121; 152; 182; 213; 244; 274; 305; 335; 366]
  else [0; 31; 59; 90; 120; 151; 181; 212; 243; 273; 304; 334; 365].

Definition tab (t : list Z) (i : Z) : Z := nth (Z.to_nat i) t 0.

(** ** The replaceable time function *)

(** Returns the old function and the new one; NULL restores [time]. *)
Definition ntpcal_set_timefunc {F : Type} (time systime_func : F) (nfunc : option F) : F * F :=
  (systime_func, match nfunc with None => time | Some f => f end).

(** ** [time_t] and [vint64] *)

Definition time_to_vint64 (tt : Z) : vint64 := of_q_s tt.

(** The branch for a 64-bit [time_t] without 64-bit [vint64] scalars. *)
Definition time_to_vint64_noint64 (tt : Z) : vint64 :=
  if tt <? 0 then
    let tt := s64 (- tt) in
    of_lfp (M_NEG (mk_lfp (u32 (Z.shiftr tt 32)) (u32 tt)))
  else of_D_s (u32 (Z.shiftr tt 32)) (u32 tt).

Definition vint64_to_time (tv : vint64) : Z := q_s tv.

(** ** Periodic extension *)

Definition ntpcal_periodic_extend (pivot value cycle : Z) : Z :=
  let '(cycle, neg, cpl) :=
    if cycle <? 0 then (s32 (- cycle), true, true) else (cycle, false, false) in
  if 1 <? cycle then
    let '(diff, cpl) :=
      if pivot <=? value then (u32 (u32 value - u32 pivot), cpl)
      else (u32 (u32 pivot - u32 value), negb cpl) in
    let diff := diff %c u32 cycle in
    if nonzero diff then
      let diff := if cpl then u32 (cycle - diff) else diff in
      let diff := if neg then u32 (u32 (Z.lnot diff) + 1) else diff in
      s32 (pivot + diff)
    else pivot
  else pivot.

Definition pivot_or_now (pivot : option Z) (now : Z) : Z :=
  match pivot with Some p => p | None => now end.

Definition ntpcal_ntp_to_time (ntp : Z) (pivot : option Z) (now : Z) : vint64 :=
  let res := of_q_s (pivot_or_now pivot now) in
  let res := u64 (res - 0x80000000) in
  let ntp := u32 (ntp - JAN_1970) in
  let ntp := u32 (ntp - D_s_lo res) in
  u64 (res + ntp).

Definition ntpcal_ntp_to_time_noint64 (ntp : Z) (pivot : option Z) (now : Z) : vint64 :=
  let tmp := pivot_or_now pivot now in
  let res := time_to_vint64_noint64 tmp in
  let res := M_SUB (mk_lfp (D_s_hi res) (D_s_lo res)) (mk_lfp 0 0x80000000) in
  let ntp := u32 (ntp - JAN_1970) in
  let ntp := u32 (ntp - l_uf res) in
  of_lfp (M_ADD res (mk_lfp 0 ntp)).

Definition ntpcal_ntp_to_ntp (ntp : Z) (pivot : option Z) (now : Z) : vint64 :=
  let res := of_q_s (pivot_or_now pivot now) in
  let res := u64 (res - 0x80000000) in
  let res := u64 (res + JAN_1970) in
  let ntp := u32 (ntp - D_s_lo res) in
  u64 (res + ntp).

Definition ntpcal_ntp_to_ntp_noint64 (ntp : Z) (pivot : option Z) (now : Z) : vint64 :=
  let tmp := pivot_or_now pivot now in
  let res := time_to_vint64_noint64 tmp in
  let res := M_SUB (mk_lfp (D_s_hi res) (D_s_lo res)) (mk_lfp 0 0x80000000) in
  let res := M_ADD res (mk_lfp 0 JAN_1970) in
  let ntp := u32 (ntp - l_uf res) in
  of_lfp (M_ADD res (mk_lfp 0 ntp)).

(** ** Splitting *)

Definition ntpcal_daysplit (ts : vint64) : ntpcal_split :=
  let hi := s32 (q_s ts /c SECSPERDAY) in
  let lo := s32 (q_s ts %c SECSPERDAY) in
  if lo <? 0 then mk_split (s32 (hi - 1)) (s32 (lo + SECSPERDAY)) else mk_split hi lo.

(** Division by 86400 = 675 * 128 with 32-bit operations only. *)
Definition ntpcal_daysplit_noint64 (ts : vint64) : ntpcal_split :=
  let isneg := M_ISNEG (D_s_hi ts) in
  let op := mk_lfp (D_s_hi ts) (D_s_lo ts) in
  let op := if isneg then M_NEG op else op in
  let r := l_uf op .& 127 in
  let lo := Z.shiftr (l_uf op) 7 .| u32 (Z.shiftl (l_ui op) 25) in
  let hi := Z.shiftr (l_ui op) 7 in
  let W_lh := Z.shiftr lo 16 in
  let W_ll := u16 lo in
  let a := if 675 <? hi then hi %c 675 else hi in
  let '(a, q) :=
    if nonzero a then
      let a := u32 (Z.shiftl a 16) .| W_lh in
      let q := a /c 675 in
      let a := a %c 675 in
      let a := u32 (Z.shiftl a 16) .| W_ll in
      (a, u32 (Z.shiftl q 16) .| (a /c 675))
    else (lo, lo /c 675) in
  let a := a %c 675 in
  let r := r .| u32 (Z.shiftl a 7) in
  let '(q, r) :=
    if isneg then
      if nonzero r then (u32 (Z.lnot q), u32 (SECSPERDAY - r))
      else (u32 (u32 (Z.lnot q) + 1), r)
    else (q, r) in
  mk_split (s32 q) (s32 r).

(** [split[0..2]] = hours, minutes, seconds; the result is the day excess. *)
Definition priv_timesplit (ts : Z) : (Z * Z * Z) * Z :=
  let '(days, ts) :=
    if (ts <? 0) || (SECSPERDAY <=? ts) then
      let days := ts /c SECSPERDAY in
      let ts := ts %c SECSPERDAY in
      if ts <? 0 then (s32 (days - 1), s32 (ts + SECSPERDAY)) else (days, ts)
    else (0, ts) in
  let s2 := u8 (ts %c SECSPERMIN) in
  let ts := ts /c SECSPERMIN in
  let s1 := u8 (ts %c MINSPERHR) in
  let s0 := u8 (ts /c MINSPERHR) in
  ((s0, s1, s2), days).

(** The split and the value stored through [isleapyear]. *)
Definition ntpcal_split_eradays (days : Z) : ntpcal_split * Z :=
  let n400 := days /c GREGORIAN_CYCLE_DAYS in
  let yday := days %c GREGORIAN_CYCLE_DAYS in
  let '(n400, yday) :=
    if yday <? 0 then (s32 (n400 - 1), s32 (yday + GREGORIAN_CYCLE_DAYS)) else (n400, yday) in
  let n100 := yday /c GREGORIAN_NORMAL_CENTURY_DAYS in
  let yday := yday %c GREGORIAN_NORMAL_CENTURY_DAYS in
  let n004 := yday /c GREGORIAN_NORMAL_LEAP_CYCLE_DAYS in
  let yday := yday %c GREGORIAN_NORMAL_LEAP_CYCLE_DAYS in
  let n001 := yday /c DAYSPERYEAR in
  let yday := yday %c DAYSPERYEAR in
  let '(n001, yday, isleapyear) :=
    if 3 <? (n001 .| n100) then (s32 (n001 - 1), s32 (yday + DAYSPERYEAR), 1)
    else (n001, yday, truth ((n001 =? 3) && (negb (n004 =? 24) || (n100 =? 3)))) in
  (mk_split (s32 (((4 * n400 + n100) * 25 + n004) * 4 + n001)) yday, isleapyear).

Definition ntpcal_split_yeardays (eyd isleapyear : Z) : ntpcal_split :=
  let lt := real_month_table (nonzero isleapyear) in
  if (0 <=? eyd) && (eyd <? tab lt 12) then
    let hi := Z.shiftr eyd 5 in
    let hi := if tab lt (hi + 1) <=? eyd then hi + 1 else hi in
    mk_split hi (eyd - tab lt hi)
  else mk_split (-1) (-1).

Definition ntpcal_rd_to_date (jd : calendar) (rd : Z) : calendar * Z :=
  let weekday := u8 (rd %c 7) in
  let weekday := if 7 <=? weekday then u8 (weekday + 7) else weekday in
  let '(split, leaps) := ntpcal_split_eradays (s32 (rd - 1)) in
  let year := u16 (u16 (sp_hi split) + 1) in
  let '(year, retv) :=
    if negb (year =? s32 (sp_hi split + 1)) then (0, -1) else (year, leaps) in
  let yearday := u16 (u16 (sp_lo split) + 1) in
  let split := ntpcal_split_yeardays (sp_lo split) leaps in
  let month := u8 (u8 (sp_hi split) + 1) in
  let monthday := u8 (u8 (sp_lo split) + 1) in
  (mk_calendar year yearday month monthday (jd_hour jd) (jd_minute jd) (jd_second jd) weekday,
   if nonzero retv then retv else leaps).

Definition ntpcal_rd_to_tm (utm : tm) (rd : Z) : tm * Z :=
  let wday := rd %c 7 in
  let wday := if wday <? 0 then wday + 7 else wday in
  let '(split, leaps) := ntpcal_split_eradays (s32 (rd - 1)) in
  let year := s32 (sp_hi split - 1899) in
  let yday := sp_lo split in
  let split := ntpcal_split_yeardays (sp_lo split) leaps in
  (mk_tm (tm_sec utm) (tm_min utm) (tm_hour utm) (sp_lo split + 1) (sp_hi split)
         year wday yday, leaps).

Definition ntpcal_daysec_to_date (jd : calendar) (sec : Z) : calendar * Z :=
  let '((h, m, s), days) := priv_timesplit sec in
  (mk_calendar (jd_year jd) (jd_yearday jd) (jd_month jd) (jd_monthday jd)
               (u8 h) (u8 m) (u8 s) (jd_weekday jd), days).

Definition ntpcal_daysec_to_tm (utm : tm) (sec : Z) : tm * Z :=
  let '((h, m, s), days) := priv_timesplit sec in
  (mk_tm s m h (tm_mday utm) (tm_mon utm) (tm_year utm) (tm_wday utm) (tm_yday utm), days).

Definition ntpcal_daysplit_to_date (jd : calendar) (ds : ntpcal_split) (dof : Z) : calendar * Z :=
  let '(jd, d) := ntpcal_daysec_to_date jd (sp_lo ds) in
  let dof := s32 (dof + d) in
  ntpcal_rd_to_date jd (s32 (sp_hi ds + dof)).

Definition ntpcal_daysplit_to_tm (utm : tm) (ds : ntpcal_split) (dof : Z) : tm * Z :=
  let '(utm, d) := ntpcal_daysec_to_tm utm (sp_lo ds) in
  let dof := s32 (dof + d) in
  ntpcal_rd_to_tm utm (s32 (sp_hi ds + dof)).

Definition ntpcal_time_to_date (jd : calendar) (ts : vint64) : calendar * Z :=
  let ds := ntpcal_daysplit ts in
  let '(jd, d) := ntpcal_daysec_to_date jd (sp_lo ds) in
  let hi := s32 (sp_hi ds + d) in
  let hi := s32 (hi + DAY_UNIX_STARTS) in
  ntpcal_rd_to_date jd hi.

(** ** Merging *)

Definition ntpcal_dayjoin (days secs : Z) : vint64 :=
  let res := days in
  let res := s64 (res * SECSPERDAY) in
  let res := s64 (res + secs) in
  of_q_s res.

(** [days * 86400 + secs] with 16/32-bit products and shifts. *)
Definition ntpcal_dayjoin_noint64 (days secs : Z) : vint64 :=
  let isneg := days <? 0 in
  let days := if isneg then s32 (- days) else days in
  let lo := u32 ((days .& 0xFFFF) * 675) in
  let p1 := u32 (Z.shiftr days 16 * 675) in
  let p2 := Z.shiftr p1 16 in
  let p1 := u32 (Z.shiftl p1 16) in
  let res := M_ADD (mk_lfp 0 lo) (mk_lfp p2 p1) in
  let res := mk_lfp (u32 (Z.shiftl (l_ui res) 7) .| Z.shiftr (l_uf res) 25)
                    (u32 (Z.shiftl (l_uf res) 7)) in
  let res := if isneg then M_NEG res else res in
  let p := if secs <? 0 then M_NEG (mk_lfp 0 (u32 (- secs))) else mk_lfp 0 (u32 secs) in
  of_lfp (M_ADD res p).

Definition ntpcal_days_in_years (years : Z) : Z :=
  let cycle := years /c 400 in
  let years := years %c 400 in
  let '(cycle, years) :=
    if years <? 0 then (s32 (cycle - 1), s32 (years + 400)) else (cycle, years) in
  s32 (cycle * GREGORIAN_CYCLE_DAYS + years * DAYSPERYEAR + years /c 4 - years /c 100).

Definition ntpcal_days_in_months (m : Z) : ntpcal_split :=
  let '(hi, lo) :=
    if (m <? 0) || (12 <=? m) then
      let hi := m /c 12 in
      let lo := m %c 12 in
      if lo <? 0 then (s32 (hi - 1), s32 (lo + 12)) else (hi, lo)
    else (0, m) in
  let '(hi, lo) := if lo <? 2 then (hi, s32 (lo + 10)) else (s32 (hi + 1), s32 (lo - 2)) in
  mk_split hi (s32 (tab shift_month_table lo - 306)).

Definition ntpcal_edate_to_eradays (years mons mdays : Z) : Z :=
  let res :=
    if nonzero mons then
      let tmp := ntpcal_days_in_months mons in
      s32 (ntpcal_days_in_years (s32 (years + sp_hi tmp)) + sp_lo tmp)
    else ntpcal_days_in_years years in
  s32 (res + mdays).

Definition ntpcal_edate_to_yeardays (years mons mdays : Z) : Z :=
  if (0 <=? mons) && (mons <? 12) then
    let years := s32 (years + 1) in
    s32 (mdays + tab (real_month_table (is_leapyear years)) mons)
  else
    let tmp := ntpcal_days_in_months mons in
    s32 (mdays + (sp_lo tmp + ntpcal_days_in_years (s32 (years + sp_hi tmp))
                  - ntpcal_days_in_years years)).

Definition ntpcal_etime_to_seconds (hours minutes seconds : Z) : Z :=
  s32 ((hours * MINSPERHR + minutes) * SECSPERMIN + seconds).

Definition ntpcal_tm_to_rd (utm : tm) : Z :=
  s32 (ntpcal_edate_to_eradays (s32 (tm_year utm + 1899)) (tm_mon utm) (s32 (tm_mday utm - 1)) + 1).

Definition ntpcal_date_to_rd (jd : calendar) : Z :=
  s32 (ntpcal_edate_to_eradays (jd_year jd - 1) (jd_month jd - 1) (jd_monthday jd - 1) + 1).

Definition ntpcal_year_to_ystart (year : Z) : Z :=
  s32 (ntpcal_days_in_years (s32 (year - 1)) + 1).

Definition ntpcal_rd_to_ystart (rd : Z) : Z :=
  s32 (rd - sp_lo (fst (ntpcal_split_eradays (s32 (rd - 1))))).

Definition ntpcal_rd_to_mstart (rd : Z) : Z :=
  let '(split, leaps) := ntpcal_split_eradays (s32 (rd - 1)) in
  let split := ntpcal_split_yeardays (sp_lo split) leaps in
  s32 (rd - sp_lo split).

Definition ntpcal_date_to_daysec (jd : calendar) : Z :=
  ntpcal_etime_to_seconds (jd_hour jd) (jd_minute jd) (jd_second jd).

Definition ntpcal_tm_to_daysec (utm : tm) : Z :=
  ntpcal_etime_to_seconds (tm_hour utm) (tm_min utm) (tm_sec utm).

Definition ntpcal_date_to_time (jd : calendar) : Z :=
  let days := s32 (ntpcal_date_to_rd jd - DAY_UNIX_STARTS) in
  let secs := ntpcal_date_to_daysec jd in
  vint64_to_time (ntpcal_dayjoin days secs).

Definition ntpcal_ntp_to_date (jd : calendar) (ntp : Z) (piv : option Z) (now : Z) : calendar * Z :=
  let vl := ntpcal_ntp_to_ntp ntp piv now in
  let ds := ntpcal_daysplit vl in
  let '(jd, d) := ntpcal_daysec_to_date jd (sp_lo ds) in
  let hi := s32 (sp_hi ds + d) in
  ntpcal_rd_to_date jd (s32 (hi + DAY_NTP_STARTS)).

Definition ntpcal_date_to_ntp (jd : calendar) : Z :=
  D_s_lo (ntpcal_dayjoin (s32 (ntpcal_date_to_rd jd - DAY_NTP_STARTS)) (ntpcal_date_to_daysec jd)).

(** ** Day-of-week *)

Definition ntpcal_weekday_gt (rdn dow : Z) : Z := ntpcal_periodic_extend (s32 (rdn + 1)) dow 7.
Definition ntpcal_weekday_ge (rdn dow : Z) : Z := ntpcal_periodic_extend rdn dow 7.
Definition ntpcal_weekday_close (rdn dow : Z) : Z := ntpcal_periodic_extend (s32 (rdn - 3)) dow 7.
Definition ntpcal_weekday_le (rdn dow : Z) : Z := ntpcal_periodic_extend rdn dow (-7).
Definition ntpcal_weekday_lt (rdn dow : Z) : Z := ntpcal_periodic_extend (s32 (rdn - 1)) dow (-7).

(** ** ISO 8601 weeks *)

Definition isocal_weeks_in_years (years : Z) : Z :=
  let bctab := [449; 157; 889; 597] in
  let cycle := years /c 400 in
  let years := years %c 400 in
  let '(cycle, years) :=
    if years <? 0 then (s32 (cycle - 1), s32 (years + 400)) else (cycle, years) in
  let cents := years /c 100 in
  let years := years %c 100 in
  let weeks := s32 (years * 53431 + tab bctab cents) /c 1024 in
  s32 (cycle * GREGORIAN_CYCLE_WEEKS + cents * 5218 - truth (1 <? cents) + weeks).

Definition isocal_split_eraweeks (weeks : Z) : ntpcal_split :=
  let bctab := [85; 131; 17; 62] in
  let hi := weeks /c GREGORIAN_CYCLE_WEEKS in
  let lo := weeks %c GREGORIAN_CYCLE_WEEKS in
  let '(hi, lo) :=
    if lo <? 0 then (s32 (hi - 1), s32 (lo + GREGORIAN_CYCLE_WEEKS)) else (hi, lo) in
  let hi := s32 (hi * 400) in
  let lo := s32 (lo + truth (10435 <=? lo)) in
  let cents := lo /c 5218 in
  let lo := lo %c 5218 in
  let lo := s32 (lo * 157 + tab bctab cents) in
  let hi := s32 (hi + (cents * 100 + lo /c 8192)) in
  let lo := (lo %c 8192) /c 157 in
  mk_split hi lo.

(** The ISO date and the return value (TRUE when the year fits). *)
Definition isocal_ntp_to_date (ntp : Z) (piv : option Z) (now : Z) : isodate * bool :=
  let vl := ntpcal_ntp_to_ntp ntp piv now in
  let ds := ntpcal_daysplit vl in
  let '((h, m, s), d) := priv_timesplit (sp_lo ds) in
  let hi := s32 (sp_hi ds + d) in
  let lo := s32 (hi + DAY_NTP_STARTS - 1) in
  let '(hi, lo) :=
    if lo %c 7 <? 0 then (s32 (lo /c 7 - 1), s32 (lo %c 7 + 7)) else (lo /c 7, lo %c 7) in
  let weekday := u8 (u8 lo + 1) in
  let ds := isocal_split_eraweeks hi in
  (mk_isodate (u16 (u16 (sp_hi ds) + 1)) (u8 (u8 (sp_lo ds) + 1)) weekday (u8 h) (u8 m) (u8 s),
   (0 <=? sp_hi ds) && (sp_hi ds <? 0xFFFF)).

Definition isocal_date_to_ntp (id : isodate) : Z :=
  let weeks := s32 (isocal_weeks_in_years (id_year id - 1) + id_week id - 1) in
  let days := s32 (weeks * 7 + id_weekday id) in
  let secs := ntpcal_etime_to_seconds (id_hour id) (id_minute id) (id_second id) in
  D_s_lo (ntpcal_dayjoin (s32 (days - DAY_NTP_STARTS)) secs).
