(* ===== verification/CalendarFacts.v ===== *)
(** * Correctness of the calendar functions

    The reference is the proleptic Gregorian calendar written with floor
    division ([greg_days], [leap]) and the ISO 8601 rule that a year starts
    on the Monday closest to January 1st. *)

From S2P Require Import Prelude FixedPoint Calendar.

Ltac unfold_cal :=
  unfold SECSPERMIN, MINSPERHR, SECSPERDAY, DAYSPERYEAR, DAY_NTP_STARTS, DAY_UNIX_STARTS,
    GREGORIAN_NORMAL_LEAP_CYCLE_DAYS, GREGORIAN_NORMAL_CENTURY_DAYS, GREGORIAN_CYCLE_DAYS,
    GREGORIAN_CYCLE_WEEKS, JAN_1970 in *.

(** Evaluates the table accesses at literal indices. *)
Ltac eval_tabs :=
  repeat match goal with
  | |- context [tab ?t ?i] =>
      let v := eval vm_compute in (tab t i) in change (tab t i) with v
  | H : context [tab ?t ?i] |- _ =>
      let v := eval vm_compute in (tab t i) in change (tab t i) with v in H
  end; drop_wraps.

(** ** The reference calendar *)

(** Days in the first [y] years of the era. *)
Definition greg_days (y : Z) : Z := 365 * y + y / 4 - y / 100 + y / 400.

Definition leap (y : Z) : bool :=
  (y mod 4 =? 0) && (negb (y mod 100 =? 0) || (y mod 400 =? 0)).

(** Days of year [y] before its month [m] (elapsed months, 0..12). *)
Definition month_start (y m : Z) : Z := tab (real_month_table (leap y)) m.

Lemma greg_days_step y : greg_days (y + 1) = greg_days y + 365 + truth (leap (y + 1)).
Proof.
  unfold greg_days, leap, truth. case_cmp; cbn [andb orb negb]; divlia.
Qed.

Lemma greg_days_mono a b : a < b -> greg_days (a + 1) <= greg_days b.
Proof. intros H. unfold greg_days. divlia. Qed.

(** A day count lies in exactly one year. *)
Lemma greg_year_unique d a b :
  greg_days a <= d < greg_days (a + 1) -> greg_days b <= d < greg_days (b + 1) -> a = b.
Proof.
  intros Ha Hb. destruct (Z.lt_trichotomy a b) as [H | [H | H]]; [| exact H |];
    apply greg_days_mono in H; lia.
Qed.

Lemma is_leapyear_spec y : is_leapyear y = leap y.
Proof.
  unfold is_leapyear, leap, nonzero. rewrite !negb_involutive.
  case_cmp; cbn [andb orb negb]; divlia.
Qed.

Lemma days_in_years_spec years :
  - 5879000 <= years <= 5879000 -> ntpcal_days_in_years years = greg_days years.
Proof.
  intros H. unfold ntpcal_days_in_years, greg_days. unfold_cal.
  destruct (Z.ltb_spec (years %c 400) 0); unfold_widths; divlia.
Qed.

(** The overflow test of the last day of a leap cycle. *)
Lemma cycle_overflow a b :
  0 <= a <= 4 -> 0 <= b <= 4 -> (3 <? (a .| b)) = ((a =? 4) || (b =? 4)).
Proof.
  intros Ha Hb.
  assert (Hc : forallb (fun a => forallb (fun b =>
      Bool.eqb (3 <? (a .| b)) ((a =? 4) || (b =? 4))) (zrange 0 5)) (zrange 0 5) = true)
    by reflexivity.
  apply eqb_prop. rewrite forallb_forall in Hc.
  specialize (Hc a (zrange_In 0 5 a ltac:(cbn; lia))). rewrite forallb_forall in Hc.
  apply Hc, zrange_In. cbn; lia.
Qed.

(** [greg_days] and [leap] on a year in cycle coordinates. *)
Lemma greg_days_cycles n400 n100 n004 n001 :
  0 <= n100 <= 3 -> 0 <= n004 <= 24 -> 0 <= n001 <= 3 ->
  let y := ((4 * n400 + n100) * 25 + n004) * 4 + n001 in
  greg_days y = 146097 * n400 + 36524 * n100 + 1461 * n004 + 365 * n001 /\
  leap (y + 1) = ((n001 =? 3) && (negb (n004 =? 24) || (n100 =? 3))).
Proof.
  intros H1 H2 H3 y. unfold greg_days, leap. subst y. split; [divlia|].
  case_cmp; cbn [andb orb negb]; divlia.
Qed.

(** The split of a day number into elapsed years and days of the year. *)
Lemma split_eradays_spec days :
  is_s32 days ->
  let '(s, isleap) := ntpcal_split_eradays days in
  greg_days (sp_hi s) <= days < greg_days (sp_hi s + 1) /\
  sp_lo s = days - greg_days (sp_hi s) /\
  isleap = truth (leap (sp_hi s + 1)).
Proof.
  intros H. unfold ntpcal_split_eradays. unfold_cal.
  rewrite floor_div_s32 by (unfold_ranges; lia).
  set (n400 := days / 146097). set (d := days mod 146097).
  assert (Hd : days = 146097 * n400 + d /\ 0 <= d < 146097) by (unfold n400, d; divlia).
  assert (Hn : - 20000 <= n400 <= 20000) by (unfold_ranges; lia).
  clearbody n400 d. destruct Hd as [-> Hd]. clear H.
  set (n100 := d /c 36524). set (d1 := d %c 36524).
  assert (Hc : d = 36524 * n100 + d1 /\ 0 <= d1 < 36524) by (unfold n100, d1; divlia).
  clearbody n100 d1.
  set (n004 := d1 /c 1461). set (d2 := d1 %c 1461).
  assert (Hq : d1 = 1461 * n004 + d2 /\ 0 <= d2 < 1461) by (unfold n004, d2; divlia).
  clearbody n004 d2.
  set (n001 := d2 /c 365). set (d3 := d2 %c 365).
  assert (Hy : d2 = 365 * n001 + d3 /\ 0 <= d3 < 365) by (unfold n001, d3; divlia).
  clearbody n001 d3.
  rewrite cycle_overflow by lia.
  destruct ((n001 =? 4) || (n100 =? 4)) eqn:E; cbn [sp_hi sp_lo].
  - rewrite (s32_small (n001 - 1)), (s32_small (d3 + 365)) by (unfold_ranges; lia).
    rewrite greg_days_step.
    destruct (Z.eqb_spec n001 4); [| destruct (Z.eqb_spec n100 4); [|discriminate]].
    + destruct (greg_days_cycles n400 n100 n004 (n001 - 1)) as [G L]; try lia.
      rewrite s32_small by (unfold_ranges; lia). rewrite G, L. subst n001.
      assert (negb (n004 =? 24) || (n100 =? 3) = true) as -> by (case_cmp; cbn; lia).
      change (4 - 1 =? 3) with true. cbn [truth andb]. lia.
    + destruct (greg_days_cycles n400 3 24 3) as [G L]; try lia.
      assert (n004 = 0 /\ n001 = 0) as [-> ->] by lia. subst n100.
      replace (((4 * n400 + 4) * 25 + 0) * 4 + (0 - 1)) with (((4 * n400 + 3) * 25 + 24) * 4 + 3) by lia.
      rewrite s32_small by (unfold_ranges; lia). rewrite G, L. cbn [truth andb orb negb Z.eqb Pos.eqb]. lia.
  - apply orb_false_iff in E as [E1 E2]. apply Z.eqb_neq in E1, E2.
    destruct (greg_days_cycles n400 n100 n004 n001) as [G L]; try lia.
    rewrite s32_small by (unfold_ranges; lia).
    rewrite greg_days_step, G, L. unfold truth. case_cmp; cbn [andb orb negb]; lia.
Qed.

(** ** Months *)

Lemma split_yeardays_spec (b : bool) eyd :
  0 <= eyd < tab (real_month_table b) 12 ->
  let s := ntpcal_split_yeardays eyd (truth b) in
  0 <= sp_hi s < 12 /\
  tab (real_month_table b) (sp_hi s) <= eyd < tab (real_month_table b) (sp_hi s + 1) /\
  sp_lo s = eyd - tab (real_month_table b) (sp_hi s).
Proof.
  intros H.
  pose (P := fun b e => let s := ntpcal_split_yeardays e (truth b) in
    let t := tab (real_month_table b) in
    (0 <=? sp_hi s) && (sp_hi s <? 12) && (t (sp_hi s) <=? e) && (e <? t (sp_hi s + 1)) &&
    (sp_lo s =? e - t (sp_hi s))).
  assert (HP : P b eyd = true).
  { destruct b; cbn in H; revert eyd H;
      [apply (forall_range (P true) 0 366) | apply (forall_range (P false) 0 365)];
      vm_compute; reflexivity. }
  unfold P in HP. rewrite !andb_true_iff, Z.ltb_lt, !Z.leb_le, Z.ltb_lt, Z.eqb_eq in HP.
  cbv zeta. lia.
Qed.

(** Month starts increase, and the table of a year ends at its length. *)
Lemma month_start_mono y m m' : 0 <= m -> m < m' <= 12 -> month_start y m + 28 <= month_start y m'.
Proof.
  intros Hm Hm'. unfold month_start.
  assert (C : forallb (fun b => forallb (fun m => forallb (fun m' =>
     implb (m <? m') (tab (real_month_table b) m + 28 <=? tab (real_month_table b) m'))
     (zrange 0 13)) (zrange 0 13)) [true; false] = true) by reflexivity.
  rewrite forallb_forall in C. specialize (C (leap y)).
  rewrite forallb_forall in C.
  specialize (C ltac:(destruct (leap y); cbn; auto) m (zrange_In 0 13 m ltac:(cbn; lia))).
  rewrite forallb_forall in C. specialize (C m' (zrange_In 0 13 m' ltac:(cbn; lia))).
  destruct (Z.ltb_spec m m'); [| lia]. apply Z.leb_le, C.
Qed.

Lemma month_start_0 y : month_start y 0 = 0.
Proof. unfold month_start. now destruct (leap y). Qed.

Lemma month_start_12 y : month_start y 12 = 365 + truth (leap y).
Proof. unfold month_start. now destruct (leap y). Qed.

(** The shifted-month trick: no leap information is needed when the year
    is taken to start in March. *)
Lemma days_in_months_spec y m :
  is_s32 m ->
  let s := ntpcal_days_in_months m in
  m / 12 <= sp_hi s <= m / 12 + 1 /\ -306 <= sp_lo s <= 60 /\
  greg_days (y + sp_hi s) + sp_lo s
  = greg_days (y + m / 12) + month_start (y + m / 12 + 1) (m mod 12).
Proof.
  intros H. unfold ntpcal_days_in_months.
  assert (E : (if (m <? 0) || (12 <=? m)
               then if m %c 12 <? 0 then (s32 (m /c 12 - 1), s32 (m %c 12 + 12)) else (m /c 12, m %c 12)
               else (0, m)) = (m / 12, m mod 12)).
  { rewrite floor_div_s32 by (unfold_ranges; lia).
    case_cmp; cbn [orb]; try reflexivity. f_equal; divlia. }
  rewrite E. clear E.
  assert (Hq : - 178956971 <= m / 12 <= 178956971) by (unfold_ranges; divlia).
  pose proof (Z.mod_pos_bound m 12 ltac:(lia)) as Hr.
  set (q := m / 12) in *. set (r := m mod 12) in *. clearbody q r.
  pose proof (greg_days_step (y + q)) as G.
  unfold month_start. set (L := leap (y + q + 1)) in *. clearbody L.
  destruct (Z.ltb_spec r 2); cbn [sp_hi sp_lo].
  - rewrite (s32_small (r + 10)) by (unfold_ranges; lia).
    set (g := greg_days (y + q)) in *. clearbody g. clear G.
    assert (r = 0 \/ r = 1) as [-> | ->] by lia; destruct L; eval_tabs; lia.
  - rewrite (s32_small (r - 2)), (s32_small (q + 1)) by (unfold_ranges; lia).
    rewrite Z.add_assoc, G. set (g := greg_days (y + q)) in *. clearbody g. clear G.
    assert (r = 2 \/ r = 3 \/ r = 4 \/ r = 5 \/ r = 6 \/ r = 7 \/ r = 8 \/ r = 9 \/ r = 10 \/ r = 11)
      as C by lia.
    repeat destruct C as [-> | C]; try subst r; destruct L; eval_tabs; cbn [truth]; lia.
Qed.

Lemma edate_to_eradays_spec years mons mdays :
  Z.abs years <= 5000000 -> Z.abs mons <= 1000000 -> Z.abs mdays <= 100000000 ->
  ntpcal_edate_to_eradays years mons mdays
  = greg_days (years + mons / 12) + month_start (years + mons / 12 + 1) (mons mod 12) + mdays.
Proof.
  intros Hy Hm Hd. unfold ntpcal_edate_to_eradays, nonzero.
  destruct (Z.eqb_spec mons 0) as [-> | Hne]; cbn [negb].
  - change (0 / 12) with 0. change (0 mod 12) with 0.
    rewrite month_start_0, !Z.add_0_r, days_in_years_spec by lia.
    rewrite s32_small; [reflexivity | unfold greg_days; unfold_ranges; divlia].
  - destruct (days_in_months_spec years mons) as (Hh & Hl & E); [unfold_ranges; lia|].
    cbv zeta in E.
    set (s := ntpcal_days_in_months mons) in *. clearbody s.
    assert (Z.abs (mons / 12) <= 83334) by divlia.
    rewrite (s32_small (years + _)) by (unfold_ranges; lia).
    rewrite days_in_years_spec by lia.
    assert (Hg : Z.abs (greg_days (years + sp_hi s)) <= 1900000000)
      by (unfold greg_days; divlia).
    drop_wraps. lia.
Qed.

(** ** Dates *)

(** The rata die of a civil date; [1 <= m <= 12], [1 <= d]. *)
Definition civil_rd (y m d : Z) : Z := greg_days (y - 1) + month_start y (m - 1) + d.

Definition month_len (y m : Z) : Z := month_start y m - month_start y (m - 1).

(** A date that exists in the calendar and fits [struct calendar]. *)
Definition valid_date (jd : calendar) : Prop :=
  1 <= jd_year jd < 65536 /\ 1 <= jd_month jd <= 12 /\
  1 <= jd_monthday jd <= month_len (jd_year jd) (jd_month jd).

Lemma month_len_bound y m : 1 <= m <= 12 -> 28 <= month_len y m <= 31.
Proof.
  intros H. unfold month_len, month_start.
  assert (C : m = 1 \/ m = 2 \/ m = 3 \/ m = 4 \/ m = 5 \/ m = 6 \/ m = 7 \/ m = 8 \/ m = 9 \/
    m = 10 \/ m = 11 \/ m = 12) by lia.
  repeat destruct C as [-> | C]; try subst m; destruct (leap y); vm_compute; intuition congruence.
Qed.

Lemma date_to_rd_spec jd :
  is_u16 (jd_year jd) -> 1 <= jd_month jd <= 12 -> is_u8 (jd_monthday jd) ->
  ntpcal_date_to_rd jd = civil_rd (jd_year jd) (jd_month jd) (jd_monthday jd).
Proof.
  intros Hy Hm Hd. unfold ntpcal_date_to_rd, civil_rd. unfold_ranges.
  rewrite edate_to_eradays_spec by lia.
  replace ((jd_month jd - 1) / 12) with 0 by divlia.
  replace ((jd_month jd - 1) mod 12) with (jd_month jd - 1) by divlia.
  rewrite Z.add_0_r, Z.sub_add, s32_small; [lia|].
  assert (0 <= month_start (jd_year jd) (jd_month jd - 1) <= 400).
  { destruct (Z.eq_dec (jd_month jd) 1) as [-> |]; [rewrite month_start_0; lia|].
    pose proof (month_start_mono (jd_year jd) 0 (jd_month jd - 1)).
    pose proof (month_start_mono (jd_year jd) (jd_month jd - 1) 12).
    rewrite month_start_0, month_start_12 in *. unfold truth in *.
    destruct (leap (jd_year jd)); lia. }
  unfold greg_days. unfold_ranges. divlia.
Qed.

(** The months of a year do not overlap. *)
Lemma month_unique y d m m' :
  1 <= m <= 12 -> 1 <= m' <= 12 ->
  month_start y (m - 1) < d <= month_start y m ->
  month_start y (m' - 1) < d <= month_start y m' -> m = m'.
Proof.
  intros Hm Hm' H H'. destruct (Z.lt_trichotomy m m') as [L | [L | L]]; [| exact L |];
    exfalso.
  - destruct (Z.eq_dec m (m' - 1)) as [-> |]; [lia|].
    pose proof (month_start_mono y m (m' - 1)). lia.
  - destruct (Z.eq_dec m' (m - 1)) as [-> |]; [lia|].
    pose proof (month_start_mono y m' (m - 1)). lia.
Qed.

(** What [ntpcal_rd_to_date] computes, as long as the year fits. *)
Lemma rd_to_date_spec jd rd :
  1 <= rd <= greg_days 65535 ->
  let '(d, ret) := ntpcal_rd_to_date jd rd in
  valid_date d /\ civil_rd (jd_year d) (jd_month d) (jd_monthday d) = rd /\
  jd_yearday d = rd - greg_days (jd_year d - 1) /\ jd_weekday d = rd mod 7 /\
  (jd_hour d, jd_minute d, jd_second d) = (jd_hour jd, jd_minute jd, jd_second jd) /\
  ret = truth (leap (jd_year d)).
Proof.
  intros H. assert (Hg : greg_days 65535 = 23936166) by reflexivity.
  unfold ntpcal_rd_to_date.
  pose proof (split_eradays_spec (s32 (rd - 1)) (s32_range _)) as S.
  rewrite s32_small in * by (unfold_ranges; lia).
  destruct (ntpcal_split_eradays (rd - 1)) as [[hi lo] lp]. cbn [sp_hi sp_lo] in *.
  destruct S as (Hy & Hlo & ->).
  assert (Hhi : 0 <= hi < 65535).
  { split; [destruct (Z.ltb_spec hi 0) | destruct (Z.ltb_spec hi 65535)]; try lia;
      exfalso; unfold greg_days in *; divlia. }
  rewrite (u16_small hi), (u16_small (hi + 1)), (s32_small (hi + 1)) by (unfold_ranges; lia).
  rewrite Z.eqb_refl. cbn [negb].
  pose proof (greg_days_step hi) as G.
  destruct (split_yeardays_spec (leap (hi + 1)) lo) as (M1 & M2 & M3).
  { fold (month_start (hi + 1) 12). rewrite month_start_12. lia. }
  set (s := ntpcal_split_yeardays lo (truth (leap (hi + 1)))) in *. clearbody s.
  destruct s as [mo dy]. cbn [sp_hi sp_lo jd_year jd_yearday jd_month jd_monthday jd_weekday
    jd_hour jd_minute jd_second] in *.
  fold (month_start (hi + 1) mo) in M2, M3. fold (month_start (hi + 1) (mo + 1)) in M2.
  pose proof (month_len_bound (hi + 1) (mo + 1) ltac:(lia)) as ML. unfold month_len in ML.
  rewrite Z.add_simpl_r in ML.
  assert (Hlo' : 0 <= lo <= 365) by (unfold truth in *; destruct (leap (hi + 1)); lia).
  rewrite !(u16_small lo), !(u16_small (lo + 1)), !(u8_small mo), !(u8_small dy),
    !(u8_small (mo + 1)), !(u8_small (dy + 1)) by (unfold_ranges; lia).
  unfold valid_date, civil_rd, month_len.
  cbn [sp_hi sp_lo jd_year jd_yearday jd_month jd_monthday jd_weekday
    jd_hour jd_minute jd_second].
  rewrite !Z.add_simpl_r. repeat split; try lia.
  - rewrite Z.rem_mod_nonneg by lia. rewrite u8_small by (unfold_ranges; divlia).
    destruct (Z.leb_spec 7 (rd mod 7)); [exfalso; divlia | reflexivity].
  - unfold nonzero. now destruct (leap (hi + 1)).
Qed.

(** A date lies in its year. *)
Lemma civil_rd_in_year y m d :
  1 <= m <= 12 -> 1 <= d <= month_len y m -> greg_days (y - 1) < civil_rd y m d <= greg_days y.
Proof.
  unfold civil_rd, month_len. intros Hm Hd.
  pose proof (greg_days_step (y - 1)) as G. rewrite Z.sub_add in G.
  pose proof (month_start_12 y). pose proof (month_start_0 y).
  pose proof (month_start_mono y 0 (m - 1)). pose proof (month_start_mono y m 12).
  destruct (Z.eq_dec m 1); destruct (Z.eq_dec m 12); subst; rewrite ?Z.sub_diag in *; lia.
Qed.

(** Two dates with the same rata die are the same date. *)
Lemma civil_rd_inj y m d y' m' d' :
  1 <= m <= 12 -> 1 <= d <= month_len y m ->
  1 <= m' <= 12 -> 1 <= d' <= month_len y' m' ->
  civil_rd y m d = civil_rd y' m' d' -> (y, m, d) = (y', m', d').
Proof.
  intros Hm Hd Hm' Hd' E.
  pose proof (civil_rd_in_year y m d Hm Hd). pose proof (civil_rd_in_year y' m' d' Hm' Hd').
  assert (y - 1 = y' - 1).
  { apply (greg_year_unique (civil_rd y m d - 1)); rewrite Z.sub_add; lia. }
  assert (y = y') as <- by lia. unfold civil_rd, month_len in *.
  assert (m = m') as <- by (apply (month_unique y (month_start y (m - 1) + d)); lia).
  f_equal. lia.
Qed.

(** Converting a day number to a date and back is the identity for
    every day from 0001-01-01 to the last one whose year fits 16 bits. *)
Theorem rd_date_rd jd rd :
  1 <= rd <= greg_days 65535 ->
  ntpcal_date_to_rd (fst (ntpcal_rd_to_date jd rd)) = rd.
Proof.
  intros H. pose proof (rd_to_date_spec jd rd H) as S.
  destruct (ntpcal_rd_to_date jd rd) as [d ret]. cbn [fst].
  destruct S as (V & E & _). destruct V as (Hy & Hm & Hd).
  pose proof (month_len_bound (jd_year d) (jd_month d) Hm).
  rewrite date_to_rd_spec by (unfold_ranges; lia). exact E.
Qed.

Lemma rd_date_rd_witness :
  let jd := mk_calendar 0 0 0 0 0 0 0 0 in
  1 <= 730179 <= greg_days 65535 /\
  ntpcal_date_to_rd (fst (ntpcal_rd_to_date jd 730179)) = 730179.
Proof.
  cbv zeta. assert (H : 1 <= 730179 <= greg_days 65535) by (vm_compute; split; congruence).
  split; [exact H | apply (rd_date_rd _ _ H)].
Defined.

(** Converting a date that exists to its day number and back gives the
    same year, month and day, keeps the time of day, and fills in the day
    of the year, the weekday and the leap-year return value. *)
Theorem date_rd_date jd :
  valid_date jd ->
  let rd := ntpcal_date_to_rd jd in
  ntpcal_rd_to_date jd rd =
  (mk_calendar (jd_year jd) (month_start (jd_year jd) (jd_month jd - 1) + jd_monthday jd)
     (jd_month jd) (jd_monthday jd) (jd_hour jd) (jd_minute jd) (jd_second jd) (rd mod 7),
   truth (leap (jd_year jd))).
Proof.
  intros (Hy & Hm & Hd) rd.
  pose proof (month_len_bound (jd_year jd) (jd_month jd) Hm) as ML.
  assert (Erd : rd = civil_rd (jd_year jd) (jd_month jd) (jd_monthday jd))
    by (apply date_to_rd_spec; unfold_ranges; lia).
  assert (Hrd : 1 <= rd <= greg_days 65535).
  { pose proof (civil_rd_in_year _ _ _ Hm Hd).
    assert (0 <= greg_days (jd_year jd - 1)) by (unfold greg_days; divlia).
    assert (greg_days (jd_year jd) <= greg_days 65535) by (unfold greg_days; divlia).
    lia. }
  pose proof (rd_to_date_spec jd rd Hrd) as S.
  destruct (ntpcal_rd_to_date jd rd) as [d ret].
  destruct S as (V & E & Hyd & Hw & Ht & ->). destruct V as (Vy & Vm & Vd).
  rewrite Erd in E. apply civil_rd_inj in E; auto. injection E as Ey Em Ed.
  destruct d as [y yd m dd h mi s w]; cbn [jd_year jd_yearday jd_month jd_monthday jd_weekday
    jd_hour jd_minute jd_second] in *. injection Ht as -> -> ->. subst y m dd w yd.
  f_equal. f_equal. rewrite Erd. unfold civil_rd. lia.
Qed.

Lemma date_rd_date_witness :
  let jd := mk_calendar 2000 0 2 29 12 34 56 0 in
  valid_date jd /\
  ntpcal_rd_to_date jd (ntpcal_date_to_rd jd) = (mk_calendar 2000 60 2 29 12 34 56 2, 1).
Proof.
  cbv zeta. assert (V : valid_date (mk_calendar 2000 0 2 29 12 34 56 0))
    by (unfold valid_date; cbn [jd_year jd_month jd_monthday];
        change (month_len 2000 2) with 29; lia).
  split; [exact V |]. rewrite (date_rd_date _ V). reflexivity.
Defined.

(** ** Seconds, days and eras *)

Lemma daysplit_spec ts :
  0 <= ts < 2 ^ 64 ->
  ntpcal_daysplit ts = mk_split (s32 (q_s ts / 86400)) (q_s ts mod 86400).
Proof.
  intros H. unfold ntpcal_daysplit. unfold_cal.
  pose proof (Z.rem_bound_abs (q_s ts) 86400 ltac:(lia)).
  rewrite (s32_small (_ %c _)) by (unfold_ranges; lia).
  pose proof (floor_div_idiom (q_s ts) 86400 ltac:(lia)) as F.
  destruct (Z.ltb_spec (q_s ts %c 86400) 0) as [L | L]; injection F as <- <-;
    rewrite ?(s32_small (_ + _)) by (unfold_ranges; lia); [| reflexivity].
  f_equal. unfold_widths. divlia.
Qed.

Lemma of_lfp_val v : of_lfp v = lfp_val v.
Proof. reflexivity. Qed.

Lemma D_s_join ts : lfp_val (mk_lfp (D_s_hi ts) (D_s_lo ts)) = ts.
Proof. unfold lfp_val, D_s_hi, D_s_lo. cbn [l_ui l_uf]. divlia. Qed.

Lemma D_s_wf ts : 0 <= ts < 2 ^ 64 -> lfp_wf (mk_lfp (D_s_hi ts) (D_s_lo ts)).
Proof. intros H. unfold lfp_wf, D_s_hi, D_s_lo. cbn [l_ui l_uf]. unfold_ranges. divlia. Qed.

(** The magnitude the 32-bit branch divides. *)
Lemma daysplit_magnitude ts :
  0 <= ts < 2 ^ 64 ->
  let isneg := M_ISNEG (D_s_hi ts) in
  let op := mk_lfp (D_s_hi ts) (D_s_lo ts) in
  let v := if isneg then M_NEG op else op in
  isneg = (q_s ts <? 0) /\ lfp_wf v /\ lfp_val v = Z.abs (q_s ts).
Proof.
  intros H isneg op v. pose proof (D_s_wf ts H) as W. pose proof (D_s_join ts) as J.
  assert (E : isneg = (q_s ts <? 0)).
  { unfold isneg. rewrite M_ISNEG_spec by apply W. unfold q_s, D_s_hi. unfold_widths.
    case_cmp; divlia. }
  split; [exact E |]. unfold v. rewrite E.
  destruct (Z.ltb_spec (q_s ts) 0) as [L | L].
  - split; [apply M_NEG_wf |]. unfold op. rewrite lfp_val_neg by exact W. rewrite J.
    unfold q_s in *. unfold_widths. divlia.
  - split; [exact W |]. unfold op. rewrite J. unfold q_s in *. unfold_widths. divlia.
Qed.

(** The schoolbook division by 675 with 16-bit digits, modulo [2^32]. *)
Lemma div675 hi lo :
  0 <= hi < 2 ^ 25 -> 0 <= lo < 2 ^ 32 ->
  let a := if 675 <? hi then hi %c 675 else hi in
  let '(a, q) :=
    if nonzero a then
      let a := u32 (Z.shiftl a 16) .| Z.shiftr lo 16 in
      let q := a /c 675 in
      let a := a %c 675 in
      let a := u32 (Z.shiftl a 16) .| u16 lo in
      (a, u32 (Z.shiftl q 16) .| (a /c 675))
    else (lo, lo /c 675) in
  a %c 675 = (hi * 2 ^ 32 + lo) mod 675 /\ q = u32 ((hi * 2 ^ 32 + lo) / 675).
Proof.
  intros Hhi Hlo a0.
  assert (Ha0 : exists k, hi = 675 * k + a0 /\ 0 <= a0 <= 675 /\ 0 <= k).
  { unfold a0. destruct (Z.ltb_spec 675 hi).
    - exists (hi / 675). rewrite Z.rem_mod_nonneg by lia. divlia.
    - exists 0. lia. }
  clearbody a0. destruct Ha0 as (k & -> & Ha & Hk). unfold nonzero.
  destruct (Z.eqb_spec a0 0) as [-> | Hn]; cbn [negb].
  - unfold_widths. split; divlia.
  - cbv zeta. rewrite !Z.shiftl_mul_pow2, !Z.shiftr_div_pow2 by lia.
    rewrite (u32_small (a0 * 2 ^ 16)) by (unfold_ranges; lia).
    rewrite (lor_high_low 16) by divlia.
    set (a1 := a0 * 2 ^ 16 + lo / 2 ^ 16).
    assert (Ha1 : 0 <= a1 < 2 ^ 32) by (unfold a1; unfold_ranges; divlia).
    rewrite (Z.rem_mod_nonneg a1), (Z.quot_div_nonneg a1) by lia.
    rewrite (u32_small (a1 mod 675 * 2 ^ 16)) by (unfold_ranges; divlia).
    rewrite (lor_high_low 16) by (unfold_widths; divlia).
    set (a2 := a1 mod 675 * 2 ^ 16 + u16 lo).
    assert (Ha2 : 0 <= a2 /\ 0 <= a2 / 675 < 2 ^ 16) by (unfold a2; unfold_widths; divlia).
    rewrite Z.rem_mod_nonneg, Z.quot_div_nonneg by lia.
    assert (E : u32 (a1 / 675 * 2 ^ 16) = (a1 / 675 mod 2 ^ 16) * 2 ^ 16) by (unfold_widths; divlia).
    rewrite E, (lor_high_low 16) by lia.
    unfold a2, a1 in *. unfold_widths. split; divlia.
Qed.

(** The implementation of [ntpcal_daysplit] for compilers without 64-bit
    integers computes the same split as the 64-bit one, on every input. *)
Theorem daysplit_noint64_equiv ts :
  0 <= ts < 2 ^ 64 -> ntpcal_daysplit_noint64 ts = ntpcal_daysplit ts.
Proof.
  intros H. rewrite daysplit_spec by exact H. unfold ntpcal_daysplit_noint64.
  destruct (daysplit_magnitude ts H) as (En & W & V). cbv zeta in W, V. rewrite En in *.
  set (op := if q_s ts <? 0 then _ else _) in *. clearbody op. clear En.
  destruct W as [Wi Wf]. unfold lfp_val in V. unfold_ranges.
  set (lo := Z.shiftr (l_uf op) 7 .| u32 (Z.shiftl (l_ui op) 25)).
  set (hi := Z.shiftr (l_ui op) 7).
  assert (Hlo : lo = l_uf op / 2 ^ 7 + l_ui op mod 2 ^ 7 * 2 ^ 25).
  { unfold lo. rewrite Z.shiftl_mul_pow2, Z.shiftr_div_pow2 by lia.
    replace (u32 (l_ui op * 2 ^ 25)) with ((l_ui op mod 2 ^ 7) * 2 ^ 25) by (unfold_widths; divlia).
    rewrite (lor_low_high 25); divlia. }
  assert (Hhi : hi = l_ui op / 2 ^ 7) by (unfold hi; now rewrite Z.shiftr_div_pow2).
  clearbody lo hi. pose proof (div675 hi lo ltac:(divlia) ltac:(divlia)) as D.
  cbv zeta in D |- *.
  set (p := if nonzero _ then _ else _) in *. destruct p as [a q]. destruct D as [-> ->].
  rewrite (land_ones_mod 7), Z.shiftl_mul_pow2 by lia.
  set (x := hi * 2 ^ 32 + lo). set (r := l_uf op mod 2 ^ 7).
  assert (Hx : Z.abs (q_s ts) = 128 * x + r /\ 0 <= r < 128) by (unfold x, r; divlia).
  rewrite (u32_small (x mod 675 * 2 ^ 7)) by (unfold_ranges; divlia).
  rewrite (lor_low_high 7) by lia.
  clearbody x r. clear - Hx. unfold nonzero, Z.lnot, SECSPERDAY, Z.pred.
  destruct Hx as [Hx Hr]. set (t := q_s ts) in *. clearbody t.
  destruct (Z.ltb_spec t 0); [destruct (Z.eqb_spec (r + x mod 675 * 2 ^ 7) 0) |]; cbn [negb];
    f_equal; unfold_widths; divlia.
Qed.

Lemma daysplit_noint64_equiv_witness :
  0 <= u64 (-1) < 2 ^ 64 /\ ntpcal_daysplit_noint64 (u64 (-1)) = mk_split (-1) 86399.
Proof.
  assert (H : 0 <= u64 (-1) < 2 ^ 64) by (vm_compute; split; congruence).
  split; [exact H | rewrite (daysplit_noint64_equiv _ H); reflexivity].
Defined.

Lemma dayjoin_spec days secs :
  is_s32 days -> is_s32 secs -> ntpcal_dayjoin days secs = u64 (days * 86400 + secs).
Proof.
  intros Hd Hs. unfold ntpcal_dayjoin, of_q_s. unfold_cal. unfold_ranges.
  rewrite (s64_small (days * 86400)) by (unfold_ranges; lia).
  now rewrite s64_small by (unfold_ranges; lia).
Qed.

(** [days * 86400] of a magnitude, as the 32-bit code assembles it. *)
Lemma mul86400 d :
  0 <= d < 2 ^ 31 ->
  let lo := u32 ((d .& 0xFFFF) * 675) in
  let p1 := u32 (Z.shiftr d 16 * 675) in
  let r := M_ADD (mk_lfp 0 lo) (mk_lfp (Z.shiftr p1 16) (u32 (Z.shiftl p1 16))) in
  let v := mk_lfp (u32 (Z.shiftl (l_ui r) 7) .| Z.shiftr (l_uf r) 25) (u32 (Z.shiftl (l_uf r) 7)) in
  lfp_wf v /\ lfp_val v = d * 86400.
Proof.
  intros H lo p1 r v.
  assert (Hlo : lo = (d mod 2 ^ 16) * 675).
  { unfold lo. rewrite (land_ones_mod 16) by lia. apply u32_small. unfold_ranges. divlia. }
  assert (Hp : p1 = d / 2 ^ 16 * 675).
  { unfold p1. rewrite Z.shiftr_div_pow2 by lia. apply u32_small. unfold_ranges. divlia. }
  assert (Hr : lfp_wf r /\ lfp_val r = d * 675).
  { split; [apply M_ADD_wf |]. unfold r.
    rewrite lfp_val_add; unfold lfp_wf, lfp_val; cbn [l_ui l_uf];
      rewrite ?Z.shiftl_mul_pow2, ?Z.shiftr_div_pow2 by lia; unfold_widths; divlia. }
  clearbody r. destruct r as [ri rf], Hr as [[Wi Wf] V]. cbn [l_ui l_uf] in *.
  unfold lfp_val in V. cbn [l_ui l_uf] in V.
  assert (Ev : v = mk_lfp (ri * 2 ^ 7 + rf / 2 ^ 25) ((rf mod 2 ^ 25) * 2 ^ 7)).
  { unfold v. rewrite !Z.shiftl_mul_pow2, Z.shiftr_div_pow2 by lia.
    rewrite (u32_small (ri * 2 ^ 7)), (lor_high_low 7) by (unfold_ranges; divlia).
    f_equal. unfold_widths. divlia. }
  rewrite Ev. unfold lfp_wf, lfp_val. cbn [l_ui l_uf]. unfold_ranges. divlia.
Qed.

(** The implementation of [ntpcal_dayjoin] for compilers without 64-bit
    integers is exact for every day number but [INT32_MIN], whose negation
    does not exist. *)
Theorem dayjoin_noint64_equiv days secs :
  - 2 ^ 31 < days < 2 ^ 31 -> is_s32 secs ->
  ntpcal_dayjoin_noint64 days secs = ntpcal_dayjoin days secs.
Proof.
  intros Hd Hs. rewrite dayjoin_spec by (unfold_ranges; auto; lia).
  unfold ntpcal_dayjoin_noint64.
  assert (Ed : (if days <? 0 then s32 (- days) else days) = Z.abs days).
  { destruct (Z.ltb_spec days 0); [rewrite s32_small by (unfold_ranges; lia) |]; lia. }
  rewrite Ed. destruct (mul86400 (Z.abs days) ltac:(lia)) as [W V]. cbv zeta in W, V |- *.
  set (v := mk_lfp (_ .| _) _) in *. clearbody v. rewrite of_lfp_val.
  assert (Wv : lfp_wf (if days <? 0 then M_NEG v else v)) by (destruct (days <? 0); auto with ntp).
  rewrite lfp_val_add; [| exact Wv |].
  2: { unfold_ranges. destruct (secs <? 0); [apply M_NEG_wf |]. split; [cbn; unfold_ranges; lia |].
       apply u32_range. }
  assert (Vs : lfp_val (if secs <? 0 then M_NEG (mk_lfp 0 (u32 (- secs))) else mk_lfp 0 (u32 secs)) = u64 secs).
  { unfold_ranges. destruct (Z.ltb_spec secs 0).
    - rewrite lfp_val_neg by (split; [cbn; unfold_ranges; lia | apply u32_range]).
      unfold lfp_val; cbn [l_ui l_uf]. unfold_widths. divlia.
    - unfold lfp_val; cbn [l_ui l_uf]. unfold_widths. divlia. }
  rewrite Vs. unfold_ranges. destruct (Z.ltb_spec days 0).
  - rewrite lfp_val_neg, V by exact W. unfold_widths. divlia.
  - rewrite V. unfold_widths. divlia.
Qed.

Lemma dayjoin_noint64_equiv_witness :
  (- 2 ^ 31 < -25567 < 2 ^ 31 /\ is_s32 (-1)) /\
  ntpcal_dayjoin_noint64 (-25567) (-1) = u64 (-2208988801).
Proof.
  assert (H : - 2 ^ 31 < -25567 < 2 ^ 31) by lia.
  assert (Hs : is_s32 (-1)) by (unfold_ranges; lia).
  split; [split; [exact H | exact Hs] |].
  rewrite (dayjoin_noint64_equiv _ _ H Hs). reflexivity.
Defined.

(** [days]/[seconds] survive the join and the split: for a day number
    and a time of day, splitting the joined second count gives both back. *)
Theorem daysplit_dayjoin days secs :
  is_s32 days -> 0 <= secs < 86400 ->
  ntpcal_daysplit (ntpcal_dayjoin days secs) = mk_split days secs.
Proof.
  intros Hd Hs. rewrite dayjoin_spec by (unfold_ranges; lia).
  rewrite daysplit_spec by (unfold_widths; divlia).
  assert (E : q_s (u64 (days * 86400 + secs)) = days * 86400 + secs)
    by (unfold q_s; unfold_widths; divlia).
  rewrite E. replace ((days * 86400 + secs) / 86400) with days by divlia.
  replace ((days * 86400 + secs) mod 86400) with secs by divlia.
  now rewrite s32_small.
Qed.

Lemma daysplit_dayjoin_witness :
  (is_s32 (-3) /\ 0 <= 86399 < 86400) /\
  ntpcal_daysplit (ntpcal_dayjoin (-3) 86399) = mk_split (-3) 86399.
Proof.
  assert (H : is_s32 (-3)) by (unfold_ranges; lia).
  assert (Hs : 0 <= 86399 < 86400) by lia.
  split; [split; [exact H | exact Hs] | apply (daysplit_dayjoin _ _ H Hs)].
Defined.

(** ** Era unfolding *)

Lemma time_to_vint64_equiv tt : is_s64 tt -> time_to_vint64_noint64 tt = time_to_vint64 tt.
Proof.
  intros H. unfold time_to_vint64_noint64, time_to_vint64, of_q_s. unfold_ranges.
  destruct (Z.ltb_spec tt 0).
  - rewrite of_lfp_val, lfp_val_neg by (split; apply u32_range).
    unfold lfp_val. cbn [l_ui l_uf]. rewrite Z.shiftr_div_pow2 by lia. unfold_widths. divlia.
  - unfold of_D_s. rewrite Z.shiftr_div_pow2 by lia. unfold_widths. divlia.
Qed.

Lemma ntp_to_time_equiv ntp p now :
  is_u32 ntp -> is_s64 p ->
  ntpcal_ntp_to_time_noint64 ntp (Some p) now = ntpcal_ntp_to_time ntp (Some p) now /\
  ntpcal_ntp_to_ntp_noint64 ntp (Some p) now = ntpcal_ntp_to_ntp ntp (Some p) now.
Proof.
  intros Hn Hp.
  unfold ntpcal_ntp_to_time_noint64, ntpcal_ntp_to_time, ntpcal_ntp_to_ntp_noint64,
    ntpcal_ntp_to_ntp. cbn [pivot_or_now]. rewrite time_to_vint64_equiv by exact Hp.
  unfold time_to_vint64. set (v := of_q_s p).
  assert (Hv : 0 <= v < 2 ^ 64) by (unfold v, of_q_s; unfold_widths; divlia).
  clearbody v.
  assert (W1 : forall x, is_u32 x -> lfp_wf (mk_lfp 0 x))
    by (intros x Hx; split; [cbn; unfold_ranges; lia | exact Hx]).
  assert (Hlo : forall w, lfp_wf w -> l_uf w = D_s_lo (lfp_val w)).
  { intros [i f] [Wi Wf]. unfold D_s_lo, lfp_val. cbn [l_ui l_uf] in *. unfold_ranges. divlia. }
  set (w := M_SUB (mk_lfp (D_s_hi v) (D_s_lo v)) (mk_lfp 0 0x80000000)).
  assert (Ew : lfp_val w = u64 (v - 0x80000000)).
  { unfold w. rewrite lfp_val_sub, D_s_join by (try apply D_s_wf; try apply W1; auto; unfold_ranges; lia).
    reflexivity. }
  assert (Ww : lfp_wf w) by apply M_SUB_wf. clearbody w.
  assert (Wj : lfp_wf (mk_lfp 0 JAN_1970)) by (apply W1; unfold_cal; unfold_ranges; lia).
  assert (Ej : lfp_val (M_ADD w (mk_lfp 0 JAN_1970)) = u64 (u64 (v - 0x80000000) + JAN_1970))
    by (rewrite lfp_val_add, Ew by auto; reflexivity).
  split; rewrite of_lfp_val, lfp_val_add by (auto with ntp; apply W1, u32_range);
    rewrite Hlo, ?Ej, ?Ew by auto with ntp; unfold lfp_val; cbn [l_ui l_uf];
    rewrite Z.mul_0_l, Z.add_0_l; reflexivity.
Qed.

(** The unfolded second in the UNIX scale. *)
Lemma ntp_to_time_spec ntp p now :
  is_u32 ntp -> Z.abs p < 2 ^ 62 ->
  let u := q_s (ntpcal_ntp_to_time ntp (Some p) now) in
  p - 2 ^ 31 <= u < p + 2 ^ 31 /\ (u + JAN_1970) mod 2 ^ 32 = ntp.
Proof.
  intros Hn Hp. unfold ntpcal_ntp_to_time, q_s, D_s_lo, of_q_s, pivot_or_now. unfold_cal.
  unfold_widths. divlia.
Qed.

(** The unfolded second in the NTP scale. *)
Lemma ntp_to_ntp_spec ntp p now :
  is_u32 ntp -> Z.abs p < 2 ^ 62 ->
  let n := q_s (ntpcal_ntp_to_ntp ntp (Some p) now) in
  p + JAN_1970 - 2 ^ 31 <= n < p + JAN_1970 + 2 ^ 31 /\ n mod 2 ^ 32 = ntp.
Proof.
  intros Hn Hp. unfold ntpcal_ntp_to_ntp, q_s, D_s_lo, of_q_s, pivot_or_now. unfold_cal.
  unfold_widths. divlia.
Qed.

(** Unfolding a 32-bit NTP second around a pivot gives the one time in
    the 2^32-second window centred on the pivot that has these low bits;
    the UNIX-scale and the NTP-scale result differ by exactly the epoch
    difference, and the code without 64-bit integers computes the same. *)
Theorem ntp_era_unfolding ntp p now :
  is_u32 ntp -> Z.abs p < 2 ^ 62 ->
  let u := q_s (ntpcal_ntp_to_time ntp (Some p) now) in
  let n := q_s (ntpcal_ntp_to_ntp ntp (Some p) now) in
  p - 2 ^ 31 <= u < p + 2 ^ 31 /\ (u + JAN_1970) mod 2 ^ 32 = ntp /\ n = u + JAN_1970 /\
  ntpcal_ntp_to_time_noint64 ntp (Some p) now = ntpcal_ntp_to_time ntp (Some p) now /\
  ntpcal_ntp_to_ntp_noint64 ntp (Some p) now = ntpcal_ntp_to_ntp ntp (Some p) now.
Proof.
  intros Hn Hp u n.
  destruct (ntp_to_time_equiv ntp p now Hn) as [E1 E2]; [unfold_ranges; lia |].
  destruct (ntp_to_time_spec ntp p now Hn Hp) as [U1 U2].
  destruct (ntp_to_ntp_spec ntp p now Hn Hp) as [N1 N2].
  fold u in U1, U2. fold n in N1, N2.
  repeat split; auto; try lia. clear - U1 U2 N1 N2. unfold_ranges. divlia.
Qed.

Lemma ntp_era_unfolding_witness :
  (is_u32 0 /\ Z.abs 2085978496 < 2 ^ 62) /\
  q_s (ntpcal_ntp_to_time 0 (Some 2085978496) 0) = 2085978496.
Proof.
  assert (H1 : is_u32 0) by (unfold_ranges; lia).
  assert (H2 : Z.abs 2085978496 < 2 ^ 62) by (vm_compute; reflexivity).
  split; [split; [exact H1 | exact H2] |].
  destruct (ntp_era_unfolding 0 2085978496 0 H1 H2) as (_ & _ & E & _).
  vm_compute in E. vm_compute. reflexivity.
Defined.

(** ** Periodic extension and weekdays *)

(** The unsigned absolute difference reduced modulo the cycle. *)
Lemma periodic_diff pivot value c :
  is_s32 pivot -> is_s32 value -> 1 < c < 2 ^ 31 ->
  (if pivot <=? value then u32 (u32 value - u32 pivot) else u32 (u32 pivot - u32 value)) %c u32 c
  = Z.abs (value - pivot) mod c.
Proof.
  intros Hp Hv Hc.
  assert (U : forall a b, is_s32 a -> is_s32 b -> b <= a -> u32 (u32 a - u32 b) = a - b)
    by (intros; unfold_widths; divlia).
  rewrite (u32_small c) by (unfold_ranges; lia).
  destruct (Z.leb_spec pivot value); rewrite U by (auto; lia);
    rewrite Z.rem_mod_nonneg by lia; f_equal; lia.
Qed.

Lemma periodic_extend_pos pivot value c :
  is_s32 pivot -> is_s32 value -> 1 < c < 2 ^ 31 ->
  ntpcal_periodic_extend pivot value c = s32 (pivot + (value - pivot) mod c).
Proof.
  intros Hp Hv Hc. unfold ntpcal_periodic_extend, nonzero.
  replace (c <? 0) with false by (symmetry; apply Z.ltb_ge; lia).
  replace (1 <? c) with true by (symmetry; apply Z.ltb_lt; lia).
  assert (Hs : s32 pivot = pivot) by now apply s32_small.
  pose proof (periodic_diff pivot value c Hp Hv Hc) as D.
  pose proof (Z.mod_pos_bound (pivot - value) c ltac:(lia)).
  pose proof (mod_opp_cases (pivot - value) c ltac:(lia)) as M. rewrite Z.opp_sub_distr in M.
  replace (- pivot + value) with (value - pivot) in M by lia.
  destruct (Z.leb_spec pivot value); rewrite D; clear D; cbn [negb].
  - rewrite Z.abs_eq by lia.
    destruct (Z.eqb_spec ((value - pivot) mod c) 0) as [E0 | E0]; cbn [negb]; [| reflexivity].
    now rewrite E0, Z.add_0_r.
  - rewrite Z.abs_neq by lia. replace (- (value - pivot)) with (pivot - value) by lia.
    rewrite M. destruct (Z.eqb_spec ((pivot - value) mod c) 0); cbn [negb].
    + now rewrite Z.add_0_r.
    + now rewrite u32_small by (unfold_ranges; lia).
Qed.

(** [~d + 1] added in unsigned arithmetic subtracts. *)
Lemma s32_add_neg p d : 0 < d < 2 ^ 31 -> s32 (p + u32 (u32 (Z.lnot d) + 1)) = s32 (p - d).
Proof.
  intros H. replace (u32 (u32 (Z.lnot d) + 1)) with (2 ^ 32 - d)
    by (unfold Z.lnot, Z.pred; unfold_widths; divlia).
  unfold_widths. divlia.
Qed.

Lemma periodic_extend_neg pivot value c :
  is_s32 pivot -> is_s32 value -> 1 < c < 2 ^ 31 ->
  ntpcal_periodic_extend pivot value (- c) = s32 (pivot - (pivot - value) mod c).
Proof.
  intros Hp Hv Hc. unfold ntpcal_periodic_extend, nonzero.
  replace (- c <? 0) with true by (symmetry; apply Z.ltb_lt; lia).
  rewrite Z.opp_involutive, (s32_small c) by (unfold_ranges; lia).
  replace (1 <? c) with true by (symmetry; apply Z.ltb_lt; lia).
  assert (Hs : s32 pivot = pivot) by now apply s32_small.
  pose proof (periodic_diff pivot value c Hp Hv Hc) as D.
  pose proof (Z.mod_pos_bound (pivot - value) c ltac:(lia)).
  pose proof (Z.mod_pos_bound (value - pivot) c ltac:(lia)).
  pose proof (mod_opp_cases (value - pivot) c ltac:(lia)) as M. rewrite Z.opp_sub_distr in M.
  replace (- value + pivot) with (pivot - value) in M by lia.
  destruct (Z.leb_spec pivot value); rewrite D; clear D; cbn [negb].
  - rewrite Z.abs_eq by lia. rewrite M.
    destruct (Z.eqb_spec ((value - pivot) mod c) 0); cbn [negb].
    + now rewrite Z.sub_0_r.
    + rewrite (u32_small (c - _)) by (unfold_ranges; lia). now rewrite s32_add_neg by lia.
  - rewrite Z.abs_neq by lia. replace (- (value - pivot)) with (pivot - value) by lia.
    destruct (Z.eqb_spec ((pivot - value) mod c) 0) as [E0 | E0]; cbn [negb].
    + now rewrite E0, Z.sub_0_r.
    + now rewrite s32_add_neg by lia.
Qed.

(** [ntpcal_periodic_extend] returns the value congruent to [value] in
    the window that starts at [pivot] and extends upwards for a positive
    cycle and downwards for a negative one, as its comment specifies, for
    all 32-bit operands whose window stays in 32 bits. *)
Theorem periodic_extend_correct pivot value c :
  is_s32 pivot -> is_s32 value -> 1 < c < 2 ^ 31 -> - 2 ^ 31 <= pivot - c -> pivot + c <= 2 ^ 31 ->
  (let up := ntpcal_periodic_extend pivot value c in
   pivot <= up < pivot + c /\ up mod c = value mod c) /\
  (let down := ntpcal_periodic_extend pivot value (- c) in
   pivot - c < down <= pivot /\ down mod c = value mod c).
Proof.
  intros Hp Hv Hc Ho Ho'. cbv zeta.
  rewrite periodic_extend_pos, periodic_extend_neg by auto.
  pose proof (Z.mod_pos_bound (value - pivot) c ltac:(lia)).
  pose proof (Z.mod_pos_bound (pivot - value) c ltac:(lia)).
  rewrite !s32_small by (unfold_ranges; lia).
  repeat split; try lia.
  - rewrite Z.add_mod_idemp_r by lia. f_equal. lia.
  - rewrite Zminus_mod_idemp_r. f_equal. lia.
Qed.

Lemma periodic_extend_correct_witness :
  (is_s32 1950 /\ is_s32 13 /\ 1 < 100 < 2 ^ 31 /\ - 2 ^ 31 <= 1950 - 100 /\ 1950 + 100 <= 2 ^ 31) /\
  ntpcal_periodic_extend 1950 13 100 mod 100 = 13.
Proof.
  assert (H1 : is_s32 1950) by (unfold_ranges; lia).
  assert (H2 : is_s32 13) by (unfold_ranges; lia).
  assert (H3 : 1 < 100 < 2 ^ 31) by lia.
  assert (H4 : - 2 ^ 31 <= 1950 - 100) by lia. assert (H5 : 1950 + 100 <= 2 ^ 31) by lia.
  split; [repeat split; first [apply H1 | apply H2 | lia] |].
  rewrite (proj2 (proj1 (periodic_extend_correct 1950 13 100 H1 H2 H3 H4 H5))). reflexivity.
Defined.

(** ** ISO weeks *)

Lemma floor_cycle years :
  is_s32 years ->
  (if years %c 400 <? 0 then (s32 (years /c 400 - 1), s32 (years %c 400 + 400))
   else (years /c 400, years %c 400)) = (years / 400, years mod 400).
Proof. intros H. apply floor_div_s32; [exact H | lia]. Qed.

(** The week count repeats with the 400-year cycle. *)
Lemma weeks_in_years_cycle years :
  Z.abs years <= 5000000 ->
  isocal_weeks_in_years years
  = years / 400 * GREGORIAN_CYCLE_WEEKS + isocal_weeks_in_years (years mod 400).
Proof.
  intros H. unfold isocal_weeks_in_years.
  rewrite !floor_cycle by (unfold_ranges; divlia).
  replace (years mod 400 / 400) with 0 by divlia. rewrite Z.mod_mod by lia. rewrite Z.mul_0_l.
  assert (Hq : Z.abs (years / 400) <= 12501) by divlia.
  pose proof (Z.mod_pos_bound years 400 ltac:(lia)).
  set (q := years / 400) in *. set (r := years mod 400) in *. clearbody q r.
  set (b := tab _ (r /c 100)).
  assert (Hb : 0 <= b <= 889).
  { unfold b. assert (C : r /c 100 = 0 \/ r /c 100 = 1 \/ r /c 100 = 2 \/ r /c 100 = 3) by divlia.
    repeat destruct C as [-> | C]; try rewrite C; vm_compute; split; congruence. }
  clearbody b. assert (Hc : 0 <= r /c 100 <= 3 /\ 0 <= r %c 100 < 100) by divlia.
  set (c := r /c 100) in *. set (m := r %c 100) in *. clearbody c m. unfold_cal.
  rewrite (s32_small (m * 53431 + b)) by (unfold_ranges; lia).
  assert (0 <= truth (1 <? c) <= 1) by (unfold truth; destruct (1 <? c); lia).
  assert (0 <= (m * 53431 + b) /c 1024 <= 10000) by divlia.
  rewrite !s32_small by (unfold_ranges; lia). lia.
Qed.

Lemma greg_days_cycle y : greg_days y = y / 400 * 146097 + greg_days (y mod 400).
Proof. unfold greg_days. divlia. Qed.

(** The facts about one year of the cycle the interpolation rests on. *)
Definition iso_century_base (c : Z) : Z := tab [0; 5218; 10435; 15653; 20871] c.
Definition iso_offset (c : Z) : Z := tab [85; 131; 17; 62] c.
Definition iso_year_ok (r : Z) : bool :=
  let c := r / 100 in let y := r mod 100 in
  let w := isocal_weeks_in_years r in let w' := isocal_weeks_in_years (r + 1) in
  let b := iso_century_base c in
  (greg_days r - 3 <=? 7 * w) && (7 * w <=? greg_days r + 3) &&
  (b <=? w) && (w <? w') && (w' <=? iso_century_base (c + 1)) &&
  (8192 * y <=? 157 * (w - b) + iso_offset c) && (157 * (w - b) + iso_offset c <? 8192 * y + 157) &&
  (157 * (w' - 1 - b) + iso_offset c <? 8192 * (y + 1)).

Lemma iso_years_ok r : 0 <= r < 400 -> iso_year_ok r = true.
Proof. apply (forall_range iso_year_ok 0 400). vm_compute. reflexivity. Qed.

(** The Monday that starts ISO year [y + 1] is the one closest to January 1st. *)
Lemma weeks_in_years_closest y :
  Z.abs y <= 5000000 -> greg_days y - 3 <= 7 * isocal_weeks_in_years y <= greg_days y + 3.
Proof.
  intros H. rewrite weeks_in_years_cycle, greg_days_cycle by exact H.
  pose proof (iso_years_ok (y mod 400) ltac:(divlia)) as O. unfold iso_year_ok in O.
  rewrite !andb_true_iff, !Z.leb_le in O. unfold_cal. lia.
Qed.

(** Some step of an increasing sequence contains a given point. *)
Lemma sequence_step (W : Z -> Z) w n :
  W 0 <= w < W (Z.of_nat n) -> exists r, 0 <= r < Z.of_nat n /\ W r <= w < W (r + 1).
Proof.
  induction n as [|n IH]; intros H; [cbn in H; lia |].
  destruct (Z.ltb_spec w (W (Z.of_nat n))).
  - destruct IH as (r & Hr & Hw); [lia |]. exists r. lia.
  - exists (Z.of_nat n). rewrite Nat2Z.inj_succ in H. unfold Z.succ in H. lia.
Qed.

Lemma split_eraweeks_in_cycle q r w :
  Z.abs q <= 12500 -> 0 <= r < 400 ->
  isocal_weeks_in_years r <= w < isocal_weeks_in_years (r + 1) ->
  isocal_split_eraweeks (q * 20871 + w) = mk_split (400 * q + r) (w - isocal_weeks_in_years r).
Proof.
  intros Hq Hr Hw. pose proof (iso_years_ok r Hr) as O. unfold iso_year_ok in O.
  rewrite !andb_true_iff, !Z.leb_le, !Z.ltb_lt in O.
  set (W := isocal_weeks_in_years r) in *. set (W' := isocal_weeks_in_years (r + 1)) in *.
  clearbody W W'.
  assert (Hc : 0 <= r / 100 <= 3) by divlia.
  assert (Ey : r = 100 * (r / 100) + r mod 100 /\ 0 <= r mod 100 < 100) by divlia.
  set (c := r / 100) in *. set (y := r mod 100) in *. clearbody c y.
  assert (Hcy : 0 <= w < 20871 /\ w + truth (10435 <=? w) = 5218 * c + (w - iso_century_base c) /\
    0 <= w - iso_century_base c < 5218 /\ 0 <= iso_offset c <= 131 /\
    tab [85; 131; 17; 62] c = iso_offset c).
  { assert (C : c = 0 \/ c = 1 \/ c = 2 \/ c = 3) by lia.
    repeat destruct C as [-> | C]; try subst c; unfold iso_century_base, iso_offset in *;
      change (0 + 1) with 1 in *; change (1 + 1) with 2 in *; change (2 + 1) with 3 in *;
      change (3 + 1) with 4 in *; eval_tabs; unfold truth;
      destruct (Z.leb_spec 10435 w); lia. }
  unfold isocal_split_eraweeks. unfold_cal.
  rewrite floor_div_s32 by (unfold_ranges; lia).
  destruct Hcy as (Hw2 & Hsh & Hin & Ho & Et).
  replace ((q * 20871 + w) / 20871) with q by divlia.
  replace ((q * 20871 + w) mod 20871) with w by divlia.
  rewrite Hsh. rewrite !(s32_small (5218 * c + _)) by (unfold_ranges; lia).
  set (k := w - iso_century_base c) in *.
  replace ((5218 * c + k) /c 5218) with c by divlia.
  replace ((5218 * c + k) %c 5218) with k by divlia.
  rewrite Et, (s32_small (k * 157 + _)) by (unfold_ranges; lia).
  assert (Hk : k = W - iso_century_base c + (w - W)) by (unfold k; lia).
  replace ((k * 157 + iso_offset c) /c 8192) with y by divlia.
  rewrite !s32_small by (rewrite ?s32_small; unfold_ranges; lia).
  f_equal; [lia |]. divlia.
Qed.

Lemma split_eraweeks_spec w :
  Z.abs w <= 250000000 ->
  let s := isocal_split_eraweeks w in
  Z.abs (sp_hi s) <= 4799999 /\
  isocal_weeks_in_years (sp_hi s) <= w < isocal_weeks_in_years (sp_hi s + 1) /\
  sp_lo s = w - isocal_weeks_in_years (sp_hi s).
Proof.
  intros H. set (q := w / 20871). set (r := w mod 20871).
  assert (Hw : w = q * 20871 + r /\ 0 <= r < 20871) by (unfold q, r; divlia).
  clearbody q r. destruct Hw as [-> Hr].
  assert (W0 : isocal_weeks_in_years 0 = 0) by reflexivity.
  assert (W400 : isocal_weeks_in_years 400 = 20871) by reflexivity.
  destruct (sequence_step isocal_weeks_in_years r 400) as (y & Hy & Hs); [cbn; lia |].
  cbv zeta. rewrite (split_eraweeks_in_cycle q y r) by (auto; cbn in Hy; lia).
  cbn [sp_hi sp_lo]. cbn in Hy. split; [lia |].
  rewrite (weeks_in_years_cycle (400 * q + y)), (weeks_in_years_cycle (400 * q + y + 1)) by lia.
  replace ((400 * q + y) / 400) with q by divlia.
  replace ((400 * q + y) mod 400) with y by divlia. unfold_cal.
  destruct (Z.eq_dec y 399) as [-> |].
  - replace ((400 * q + 399 + 1) / 400) with (q + 1) by divlia.
    replace ((400 * q + 399 + 1) mod 400) with 0 by divlia. rewrite W0.
    change (399 + 1) with 400 in Hs. rewrite W400 in Hs. lia.
  - replace ((400 * q + y + 1) / 400) with q by divlia.
    replace ((400 * q + y + 1) mod 400) with (y + 1) by divlia. lia.
Qed.

(** The interpolated ISO calendar is the ISO 8601 calendar: the week
    count of [y] years ends at the Monday closest to January 1st, and
    splitting a week number finds the ISO year that contains it and the
    elapsed weeks of that year. *)
Theorem iso_calendar_correct y w :
  Z.abs y <= 5000000 -> Z.abs w <= 250000000 ->
  ntpcal_weekday_close (ntpcal_year_to_ystart (y + 1)) 1 = 7 * isocal_weeks_in_years y + 1 /\
  (let s := isocal_split_eraweeks w in
   isocal_weeks_in_years (sp_hi s) <= w < isocal_weeks_in_years (sp_hi s + 1) /\
   sp_lo s = w - isocal_weeks_in_years (sp_hi s)).
Proof.
  intros Hy Hw. split; [| apply (split_eraweeks_spec w Hw)].
  unfold ntpcal_year_to_ystart, ntpcal_weekday_close. rewrite Z.add_simpl_r.
  rewrite (s32_small y), days_in_years_spec by (unfold_ranges; lia).
  pose proof (weeks_in_years_closest y Hy) as C.
  assert (Hg : Z.abs (greg_days y) <= 1900000000) by (unfold greg_days; divlia).
  rewrite (s32_small (greg_days y + 1)), (s32_small (greg_days y + 1 - 3)) by (unfold_ranges; lia).
  rewrite periodic_extend_pos by (unfold_ranges; lia).
  set (k := isocal_weeks_in_years y) in *. set (g := greg_days y) in *. clearbody k g.
  replace ((1 - (g + 1 - 3)) mod 7) with (7 * k + 1 - (g + 1 - 3)) by divlia.
  rewrite s32_small; [lia | unfold_ranges; lia].
Qed.

Lemma iso_calendar_correct_witness :
  (Z.abs 2012 <= 5000000 /\ Z.abs 105000 <= 250000000) /\
  ntpcal_weekday_close (ntpcal_year_to_ystart (2012 + 1)) 1 = 734868.
Proof.
  assert (H1 : Z.abs 2012 <= 5000000) by (cbn; lia).
  assert (H2 : Z.abs 105000 <= 250000000) by (cbn; lia).
  split; [split; [exact H1 | exact H2] |].
  rewrite (proj1 (iso_calendar_correct 2012 105000 H1 H2)). reflexivity.
Defined.

(** ** Time stamps and dates *)

Lemma timesplit_spec ts :
  is_s32 ts ->
  priv_timesplit ts =
  ((ts mod 86400 / 3600, ts mod 86400 / 60 mod 60, ts mod 86400 mod 60), ts / 86400).
Proof.
  intros H. unfold priv_timesplit. unfold_cal.
  rewrite floor_div_s32 by (unfold_ranges; lia).
  assert (E : (if (ts <? 0) || (86400 <=? ts) then (ts / 86400, ts mod 86400) else (0, ts))
              = (ts / 86400, ts mod 86400)).
  { destruct (Z.ltb_spec ts 0), (Z.leb_spec 86400 ts); cbn [orb]; try reflexivity.
    f_equal; divlia. }
  rewrite E. clear E. pose proof (Z.mod_pos_bound ts 86400 ltac:(lia)).
  set (d := ts mod 86400) in *. clearbody d.
  replace (d %c 60) with (d mod 60) by divlia.
  replace (d /c 60 %c 60) with (d / 60 mod 60) by divlia.
  replace (d /c 60 /c 60) with (d / 3600) by divlia.
  now rewrite !u8_small by (unfold_ranges; divlia).
Qed.

Lemma hms_join sec :
  0 <= sec < 86400 ->
  0 <= sec / 3600 < 24 /\ 0 <= sec / 60 mod 60 < 60 /\ 0 <= sec mod 60 < 60 /\
  (sec / 3600 * 60 + sec / 60 mod 60) * 60 + sec mod 60 = sec.
Proof. intros H. divlia. Qed.

(** A second count joined from a date and a time of day. *)
Lemma date_to_time_join jd rd sec :
  1 <= rd <= greg_days 65535 -> 0 <= sec < 86400 ->
  let '(d, days) := ntpcal_daysec_to_date jd sec in
  days = 0 /\
  ntpcal_date_to_rd (fst (ntpcal_rd_to_date d rd)) = rd /\
  ntpcal_date_to_daysec (fst (ntpcal_rd_to_date d rd)) = sec.
Proof.
  intros Hr Hs. unfold ntpcal_daysec_to_date. rewrite timesplit_spec by (unfold_ranges; lia).
  split; [divlia |]. pose proof (rd_to_date_spec) as S.
  set (d := mk_calendar _ _ _ _ _ _ _ _). specialize (S d rd Hr).
  destruct (ntpcal_rd_to_date d rd) as [d' ret]. cbn [fst].
  destruct S as (V & E & _ & _ & Ht & _). destruct V as (Hy & Hm & Hd).
  pose proof (month_len_bound (jd_year d') (jd_month d') Hm).
  split; [rewrite date_to_rd_spec by (unfold_ranges; lia); exact E |].
  unfold ntpcal_date_to_daysec, ntpcal_etime_to_seconds. injection Ht as -> -> ->.
  unfold d; cbn [jd_hour jd_minute jd_second]. unfold_cal.
  rewrite (Z.mod_small sec) by lia. destruct (hms_join sec Hs) as (B1 & B2 & B3 & J).
  rewrite !u8_small by (unfold_ranges; lia). rewrite s32_small by (unfold_ranges; lia). exact J.
Qed.

(** A UNIX time converted to a calendar date and back is unchanged, for
    every second of the years 1 to 65535. *)
Theorem time_date_time jd ts :
  0 <= ts < 2 ^ 64 -> 1 <= q_s ts / 86400 + DAY_UNIX_STARTS <= greg_days 65535 ->
  ntpcal_date_to_time (fst (ntpcal_time_to_date jd ts)) = q_s ts.
Proof.
  intros Ht Hr. unfold ntpcal_time_to_date, ntpcal_date_to_time.
  assert (Hg : greg_days 65535 = 23936166) by reflexivity.
  rewrite daysplit_spec by exact Ht. cbn [sp_hi sp_lo]. unfold_cal.
  rewrite (s32_small (q_s ts / 86400)) by (unfold_ranges; lia).
  pose proof (date_to_time_join jd _ (q_s ts mod 86400) Hr ltac:(divlia)) as J.
  destruct (ntpcal_daysec_to_date jd (q_s ts mod 86400)) as [d days].
  destruct J as (-> & J1 & J2). rewrite Z.add_0_r.
  rewrite (s32_small (q_s ts / 86400)), (s32_small (_ + 719163)) by (unfold_ranges; lia).
  rewrite J1, J2. unfold vint64_to_time.
  rewrite dayjoin_spec by (unfold_widths; divlia). unfold q_s.
  rewrite s32_small by (unfold_ranges; unfold q_s in *; lia).
  unfold q_s in *. unfold_widths. divlia.
Qed.

Lemma time_date_time_witness :
  let jd := mk_calendar 0 0 0 0 0 0 0 0 in
  (0 <= 1375000000 < 2 ^ 64 /\ 1 <= q_s 1375000000 / 86400 + DAY_UNIX_STARTS <= greg_days 65535) /\
  ntpcal_date_to_time (fst (ntpcal_time_to_date jd 1375000000)) = 1375000000.
Proof.
  cbv zeta. assert (H1 : 0 <= 1375000000 < 2 ^ 64) by lia.
  assert (H2 : 1 <= q_s 1375000000 / 86400 + DAY_UNIX_STARTS <= greg_days 65535)
    by (vm_compute; split; congruence).
  split; [split; [exact H1 | exact H2] |]. rewrite (time_date_time _ _ H1 H2). reflexivity.
Defined.

(** The unfolded NTP second and its day number, for a pivot of a date that fits. *)
Lemma ntp_to_ntp_day ntp p now :
  is_u32 ntp -> -58000000000 <= p <= 2000000000000 ->
  let vl := ntpcal_ntp_to_ntp ntp (Some p) now in
  let n := q_s vl in
  0 <= vl < 2 ^ 64 /\ 1 <= n / 86400 + DAY_NTP_STARTS <= 23900000 /\ n mod 2 ^ 32 = ntp.
Proof.
  intros Hn Hp vl n.
  destruct (ntp_to_ntp_spec ntp p now Hn) as [W M]; [unfold_ranges; lia |].
  fold vl in W, M. fold n in W, M. unfold_cal.
  repeat split; try exact M; try (clear - W Hp; divlia).
  all: unfold vl, ntpcal_ntp_to_ntp; unfold_widths; divlia.
Qed.

Lemma ntp_join n : is_s32 (n / 86400) -> D_s_lo (ntpcal_dayjoin (n / 86400) (n mod 86400)) = n mod 2 ^ 32.
Proof.
  intros H. rewrite dayjoin_spec by (unfold_ranges; divlia).
  unfold D_s_lo. unfold_widths. divlia.
Qed.

(** An NTP second, unfolded around a pivot and converted to a Gregorian
    date, converts back to the same 32-bit NTP second. *)
Theorem ntp_date_ntp jd ntp p now :
  is_u32 ntp -> -58000000000 <= p <= 2000000000000 ->
  ntpcal_date_to_ntp (fst (ntpcal_ntp_to_date jd ntp (Some p) now)) = ntp.
Proof.
  intros Hn Hp. destruct (ntp_to_ntp_day ntp p now Hn Hp) as (Hv & Hr & M).
  unfold ntpcal_ntp_to_date, ntpcal_date_to_ntp. set (vl := ntpcal_ntp_to_ntp ntp (Some p) now) in *.
  assert (Hg : greg_days 65535 = 23936166) by reflexivity.
  rewrite daysplit_spec by exact Hv. cbn [sp_hi sp_lo]. set (n := q_s vl) in *. unfold_cal.
  rewrite (s32_small (n / 86400)) by (unfold_ranges; lia).
  assert (Hr' : 1 <= n / 86400 + 693596 <= greg_days 65535) by lia.
  pose proof (date_to_time_join jd _ (n mod 86400) Hr' ltac:(divlia)) as J.
  destruct (ntpcal_daysec_to_date jd (n mod 86400)) as [d days].
  destruct J as (-> & J1 & J2). rewrite Z.add_0_r.
  rewrite (s32_small (n / 86400)), (s32_small (_ + 693596)) by (unfold_ranges; lia).
  rewrite J1, J2, Z.add_simpl_r, s32_small, ntp_join by (unfold_ranges; lia). exact M.
Qed.

Lemma ntp_date_ntp_witness :
  let jd := mk_calendar 0 0 0 0 0 0 0 0 in
  (is_u32 5 /\ -58000000000 <= 2085978496 <= 2000000000000) /\
  ntpcal_date_to_ntp (fst (ntpcal_ntp_to_date jd 5 (Some 2085978496) 0)) = 5.
Proof.
  cbv zeta. assert (H1 : is_u32 5) by (unfold_ranges; lia).
  assert (H2 : -58000000000 <= 2085978496 <= 2000000000000) by lia.
  split; [split; [exact H1 | exact H2] |]. apply (ntp_date_ntp _ _ _ _ H1 H2).
Defined.

Lemma greg_days_sign y : 4 <= greg_days (y + 1) -> 0 <= y.
Proof. intros H. unfold greg_days in H. divlia. Qed.
Lemma greg_days_small y : greg_days y < 23910000 -> y < 65535.
Proof. intros H. unfold greg_days in H. divlia. Qed.

(** An NTP second, unfolded around a pivot and converted to an ISO 8601
    week date, converts back to the same 32-bit NTP second, and the
    conversion reports that the year fits. *)
Theorem ntp_iso_ntp ntp p now :
  is_u32 ntp -> -58000000000 <= p <= 2000000000000 ->
  let '(id, ok) := isocal_ntp_to_date ntp (Some p) now in
  ok = true /\ isocal_date_to_ntp id = ntp.
Proof.
  intros Hn Hp. destruct (ntp_to_ntp_day ntp p now Hn Hp) as (Hv & Hr & M).
  unfold isocal_ntp_to_date, isocal_date_to_ntp. set (vl := ntpcal_ntp_to_ntp ntp (Some p) now) in *.
  assert (Hg : greg_days 65535 = 23936166) by reflexivity.
  rewrite daysplit_spec by exact Hv. cbn [sp_hi sp_lo]. set (n := q_s vl) in *. unfold_cal.
  rewrite (s32_small (n / 86400)) by (unfold_ranges; lia).
  rewrite timesplit_spec by (unfold_ranges; divlia). rewrite Z.mod_mod by lia.
  replace (n mod 86400 / 86400) with 0 by divlia. rewrite Z.add_0_r.
  rewrite (s32_small (n / 86400)), (s32_small (n / 86400 + 693596 - 1)) by (unfold_ranges; lia).
  set (d := n / 86400 + 693596 - 1) in *. rewrite floor_div_s32 by (unfold_ranges; lia).
  destruct (split_eraweeks_spec (d / 7)) as (B & W & L); [divlia |].
  cbv zeta in B, W, L. set (s := isocal_split_eraweeks (d / 7)) in *. clearbody s.
  destruct (hms_join (n mod 86400) ltac:(divlia)) as (B1 & B2 & B3 & J).
  pose proof (weeks_in_years_closest (sp_hi s) ltac:(lia)).
  pose proof (weeks_in_years_closest (sp_hi s + 1) ltac:(lia)).
  assert (O1 : 0 <= sp_hi s) by (apply greg_days_sign; divlia).
  assert (O2 : sp_hi s < 65535) by (apply greg_days_small; divlia).
  split; [apply andb_true_iff; split; [apply Z.leb_le | apply Z.ltb_lt]; lia |].
  pose proof (greg_days_step (sp_hi s)).
  assert (0 <= truth (leap (sp_hi s + 1)) <= 1) by (unfold truth; destruct (leap (sp_hi s + 1)); lia).
  cbn [id_year id_week id_weekday id_hour id_minute id_second].
  rewrite !(u16_small (sp_hi s)), !(u16_small (sp_hi s + 1)) by (unfold_ranges; lia).
  rewrite !(u8_small (sp_lo s)), !(u8_small (sp_lo s + 1)) by (unfold_ranges; lia).
  rewrite !(u8_small (d mod 7)), !(u8_small (d mod 7 + 1)) by (unfold_ranges; divlia).
  rewrite !u8_small by (unfold_ranges; lia). rewrite Z.add_simpl_r, L.
  unfold ntpcal_etime_to_seconds. unfold_cal. rewrite J, (s32_small (n mod 86400)) by (unfold_ranges; divlia).
  set (k := isocal_weeks_in_years (sp_hi s)) in *. clearbody k.
  replace (k + (d / 7 - k + 1) - 1) with (d / 7) by lia.
  rewrite (s32_small (d / 7)) by (unfold_ranges; divlia).
  replace (d / 7 * 7 + (d mod 7 + 1)) with (d + 1) by divlia.
  rewrite (s32_small (d + 1)) by (unfold_ranges; lia).
  replace (d + 1 - 693596) with (n / 86400) by (unfold d; lia).
  rewrite s32_small, ntp_join by (unfold_ranges; lia). exact M.
Qed.

Lemma ntp_iso_ntp_witness :
  (is_u32 3584000000 /\ -58000000000 <= 1375000000 <= 2000000000000) /\
  let '(id, ok) := isocal_ntp_to_date 3584000000 (Some 1375000000) 0 in
  ok = true /\ isocal_date_to_ntp id = 3584000000.
Proof.
  assert (H1 : is_u32 3584000000) by (unfold_ranges; lia).
  assert (H2 : -58000000000 <= 1375000000 <= 2000000000000) by lia.
  split; [split; [exact H1 | exact H2] |]. apply (ntp_iso_ntp _ _ 0 H1 H2).
Defined.
