(* ===== verification/ClockTime.v ===== *)
(** * The date of a timecode: libntp/clocktime.c

    A radio clock sends the day of the year and the time of day, without the
    year; [clocktime] finds the year that brings it closest to the time of
    reception. *)

From S2P Require Import Prelude Calendar.

Definition CLOSETIME : Z := 4 * 60 * 60.
Definition NEARTIME : Z := 182 * SECSPERDAY.

(** [now] is [time(NULL)], the pivot of the unfolding. *)
Definition ntp_to_year (now ntp : Z) : Z :=
  let t := ntpcal_ntp_to_ntp ntp None now in
  let s := ntpcal_daysplit t in
  let s := fst (ntpcal_split_eradays (s32 (sp_hi s + DAY_NTP_STARTS - 1))) in
  s32 (sp_hi s + 1).

Definition year_to_ntp (year : Z) : Z :=
  let days := u32 (ntpcal_days_in_years (s32 (year - 1)) - DAY_NTP_STARTS + 1) in
  u32 (days * SECSPERDAY).

(** The offset into the year, which may be negative. *)
Definition year_offset (yday hour minute second tzoff : Z) : Z :=
  s32 (second + SECSPERMIN * (minute + MINSPERHR * (hour + tzoff + 24 * (yday - 1)))).

(** The distance of two timestamps on the circle of 32 bits. *)
Definition abs_diff (test rec_ui : Z) : Z :=
  let diff := u32 (test - rec_ui) in
  if 0x80000000 <=? diff then u32 (Z.lnot diff + 1) else diff.

(** One round of the search for the best year. *)
Definition closer (tmp rec_ui : Z) (best ystt : Z) : Z :=
  if abs_diff (u32 (ystt + tmp)) rec_ui <? abs_diff (u32 (best + tmp)) rec_ui then ystt else best.

(** Whether the time is close, the year start to cache and the timestamp. *)
Definition clocktime (now yday hour minute second tzoff rec_ui yearstart : Z) : bool * Z * Z :=
  let tmp := year_offset yday hour minute second tzoff in
  let test := u32 (u32 yearstart + tmp) in
  if nonzero yearstart && (abs_diff test rec_ui <? NEARTIME) then
    (abs_diff test rec_ui <? CLOSETIME, yearstart, test)
  else
    let y := ntp_to_year now (u32 (rec_ui - tmp)) in
    let ystt idx := year_to_ntp (s32 (y + idx - 1)) in
    let best := fold_left (closer tmp rec_ui) [ystt 0; ystt 1; ystt 2] (ystt 1) in
    let test := u32 (best + tmp) in
    (abs_diff test rec_ui <? CLOSETIME, best, test).
