(* ===== verification/ClockTimeFacts.v ===== *)
(** * The date of a timecode: the year found is the nearest *)

From S2P Require Import Prelude FixedPoint Calendar CalendarFacts ClockTime.

(** The start of a year, in seconds of the NTP scale, without wrap-around. *)
Definition ysec (y : Z) : Z := (greg_days (y - 1) - 693595) * 86400.

Lemma ysec_step y : ysec y + 365 * 86400 <= ysec (y + 1) <= ysec y + 366 * 86400.
Proof.
  unfold ysec. replace (y + 1 - 1) with (y - 1 + 1) by lia. rewrite greg_days_step.
  unfold truth. destruct (leap _); lia.
Qed.

Lemma ysec_mono y k : 0 <= k -> ysec y + k * (365 * 86400) <= ysec (y + k) <= ysec y + k * (366 * 86400).
Proof.
  intros Hk. pattern k. apply natlike_ind; [cbv beta; replace (y + 0) with y by lia; lia | | exact Hk].
  intros x Hx IH. cbv beta in *. pose proof (ysec_step (y + x)). replace (y + Z.succ x) with (y + x + 1) by lia. lia.
Qed.

Lemma year_to_ntp_spec y : - 5000000 <= y <= 5000000 -> year_to_ntp y = ysec y mod 2 ^ 32.
Proof.
  intros Hy. unfold year_to_ntp, ysec. rewrite s32_small by (unfold_ranges; lia). rewrite days_in_years_spec by lia.
  set (g := greg_days (y - 1)). clearbody g. unfold_cal. unfold_widths. divlia.
Qed.

(** The year that contains a second. *)
Lemma ntp_to_year_spec now x :
  is_u32 x -> -58000000000 <= now <= 2000000000000 ->
  exists n, n mod 2 ^ 32 = x /\ let y := ntp_to_year now x in -5000000 <= y - 1000 /\ y + 1000 <= 5000000 /\ ysec y <= n < ysec (y + 1).
Proof.
  intros Hx Hn. unfold ntp_to_year.
  change (ntpcal_ntp_to_ntp x None now) with (ntpcal_ntp_to_ntp x (Some now) now).
  destruct (ntp_to_ntp_day x now now Hx Hn) as (Hv & Hr & M). set (vl := ntpcal_ntp_to_ntp x (Some now) now) in *.
  rewrite daysplit_spec by exact Hv. cbn [sp_hi]. exists (q_s vl). split; [exact M |]. cbv zeta.
  unfold_cal. rewrite (s32_small (q_s vl / 86400)) by (unfold_ranges; lia).
  rewrite (s32_small (_ - 1)) by (unfold_ranges; lia).
  set (d := q_s vl / 86400 + 693596 - 1) in *.
  pose proof (split_eradays_spec d ltac:(unfold_ranges; lia)) as S.
  destruct (ntpcal_split_eradays d) as [sp lf]. cbn [fst]. destruct S as (S & _ & _). set (y := sp_hi sp) in *. clearbody y.
  assert (-2 <= y < 65535) by (unfold greg_days in S; divlia).
  rewrite s32_small by (unfold_ranges; lia). unfold ysec.
  replace (y + 1 - 1) with y by lia. replace (y + 1 + 1 - 1) with (y + 1) by lia. divlia.
Qed.

(** The distance of two timestamps that are less than half an era apart. *)
Lemma abs_diff_spec a b z : (a - b - z) mod 2 ^ 32 = 0 -> Z.abs z <= 2 ^ 31 -> abs_diff a b = Z.abs z.
Proof.
  intros E Hz. unfold abs_diff. assert (Eu : u32 (a - b) = z mod 2 ^ 32).
  { unfold u32, wrap. replace (a - b) with (z + (a - b - z)) by lia. rewrite Zplus_mod, E, Z.add_0_r. now apply Z.mod_mod. }
  rewrite Eu. clear E Eu. destruct (Z.le_gt_cases 0 z) as [Hs | Hs].
  - rewrite Z.mod_small by lia. destruct (Z.leb_spec 0x80000000 z); [| lia].
    replace z with (2 ^ 31) by lia. reflexivity.
  - replace (z mod 2 ^ 32) with (z + 2 ^ 32) by (apply Z.mod_unique_pos with (-1); lia).
    rewrite (proj2 (Z.leb_le _ _)) by lia. unfold u32, wrap.
    replace (Z.lnot (z + 2 ^ 32) + 1) with (- z + (-1) * 2 ^ 32) by (unfold Z.lnot; lia).
    rewrite Z.mod_add by lia. rewrite Z.mod_small by lia. lia.
Qed.

Section Search.
Variables (tmp rec_ui n y : Z).
Hypothesis Hrec : n mod 2 ^ 32 = (rec_ui - tmp) mod 2 ^ 32.
Hypothesis Hy : -5000000 <= y - 1000 /\ y + 1000 <= 5000000.
Hypothesis Hn : ysec y <= n < ysec (y + 1).

(** How far the timecode read in the year [y + k] is from the reception. *)
Lemma year_distance k :
  -65 <= k <= 65 -> abs_diff (u32 (year_to_ntp (y + k) + tmp)) rec_ui = Z.abs (ysec (y + k) - n).
Proof.
  intros Hk. rewrite year_to_ntp_spec by lia. apply abs_diff_spec; [unfold_widths; divlia |].
  destruct (Z.le_ge_cases 0 k) as [Hs | Hs].
  - pose proof (ysec_mono y k Hs). pose proof (ysec_step y). lia.
  - pose proof (ysec_mono (y + k) (- k) ltac:(lia)) as M. replace (y + k + - k) with y in M by lia. pose proof (ysec_step y). lia.
Qed.

(** The search over three years finds the nearest of all. *)
Lemma search_best :
  exists k, (k = 0 \/ k = 1) /\
    fold_left (closer tmp rec_ui) [year_to_ntp (y - 1); year_to_ntp y; year_to_ntp (y + 1)] (year_to_ntp y) = year_to_ntp (y + k) /\
    Z.abs (ysec (y + k) - n) <= 183 * 86400 /\
    forall j, -65 <= j <= 65 -> Z.abs (ysec (y + k) - n) <= Z.abs (ysec (y + j) - n).
Proof.
  pose proof (year_distance (-1) ltac:(lia)) as D0. pose proof (year_distance 0 ltac:(lia)) as D1.
  pose proof (year_distance 1 ltac:(lia)) as D2. replace (y + 0) with y in D1 by lia. change (y + -1) with (y - 1) in D0.
  pose proof (ysec_step y) as S0. pose proof (ysec_step (y - 1)) as S1. replace (y - 1 + 1) with y in S1 by lia.
  assert (Hall : forall j, -65 <= j <= 65 -> Z.min (n - ysec y) (ysec (y + 1) - n) <= Z.abs (ysec (y + j) - n)).
  { intros j Hj. destruct (Z.le_gt_cases j 0) as [H0 | H0].
    - pose proof (ysec_mono (y + j) (- j) ltac:(lia)) as M. replace (y + j + - j) with y in M by lia. lia.
    - pose proof (ysec_mono (y + 1) (j - 1) ltac:(lia)) as M. replace (y + 1 + (j - 1)) with (y + j) in M by lia. lia. }
  cbn [fold_left]. unfold closer at 3. rewrite D0, D1.
  replace (Z.abs (ysec (y - 1) - n) <? Z.abs (ysec y - n)) with false by (symmetry; apply Z.ltb_ge; lia).
  unfold closer at 2. rewrite D1, Z.ltb_irrefl. unfold closer. rewrite D1, D2.
  destruct (Z.ltb_spec (Z.abs (ysec (y + 1) - n)) (Z.abs (ysec y - n))).
  - exists 1. split; [now right |]. split; [reflexivity |]. split; [lia |]. intros j Hj. specialize (Hall j Hj). lia.
  - exists 0. rewrite Z.add_0_r. split; [now left |]. split; [reflexivity |]. split; [lia |]. intros j Hj. specialize (Hall j Hj). lia.
Qed.
End Search.

(** The year of a timecode.  Whatever the time fields, [clocktime] dates
    the timecode within half a year of its reception, reports it as close
    exactly when it is within four hours, and the year start it caches is
    the one the timestamp was computed from; without a cached year the year
    chosen is the nearest of all within sixty years. *)
Theorem clocktime_nearest (now yday hour minute second tzoff rec_ui yearstart : Z) :
  is_u32 rec_ui -> -58000000000 <= now <= 2000000000000 ->
  let tmp := year_offset yday hour minute second tzoff in
  let '(close, ys, ts) := clocktime now yday hour minute second tzoff rec_ui yearstart in
  ts = u32 (u32 ys + tmp) /\ abs_diff ts rec_ui <= 183 * 86400 /\ close = (abs_diff ts rec_ui <? CLOSETIME) /\
  (yearstart = 0 -> exists y, ys = year_to_ntp y /\
     forall j, -60 <= j <= 60 -> abs_diff ts rec_ui <= abs_diff (u32 (year_to_ntp (y + j) + tmp)) rec_ui).
Proof.
  intros Hr Hw. cbv zeta. unfold clocktime. set (tmp := year_offset yday hour minute second tzoff). clearbody tmp.
  destruct (nonzero yearstart && _) eqn:En.
  { apply andb_true_iff in En as [Ez En]. apply Z.ltb_lt in En. change NEARTIME with (182 * 86400) in En.
    split; [reflexivity |]. split; [lia |]. split; [reflexivity |]. intros ->. discriminate. }
  clear En. destruct (ntp_to_year_spec now (u32 (rec_ui - tmp))) as (n & M & Y1 & Y2 & Hn); [unfold_widths; unfold_ranges; divlia | exact Hw |].
  cbv zeta in Y1, Y2, Hn. set (y := ntp_to_year now (u32 (rec_ui - tmp))) in *. clearbody y.
  rewrite !s32_small by (unfold_ranges; lia). replace (y + 0 - 1) with (y - 1) by lia. replace (y + 1 - 1) with y by lia.
  replace (y + 2 - 1) with (y + 1) by lia.
  assert (Hrec : n mod 2 ^ 32 = (rec_ui - tmp) mod 2 ^ 32) by (rewrite M; unfold_widths; divlia).
  destruct (search_best tmp rec_ui n y Hrec (conj Y1 Y2) Hn) as (k & Hk & -> & B1 & B2).
  pose proof (year_distance tmp rec_ui n y Hrec (conj Y1 Y2) Hn) as D.
  assert (Eu : u32 (year_to_ntp (y + k)) = year_to_ntp (y + k)) by (unfold year_to_ntp; unfold_widths; divlia).
  rewrite Eu, D by lia. split; [reflexivity |]. split; [exact B1 |]. split; [reflexivity |].
  intros _. exists (y + k). split; [reflexivity |]. intros j Hj.
  replace (y + k + j) with (y + (k + j)) by lia. rewrite D by lia. apply B2. lia.
Qed.

Lemma clocktime_nearest_witness :
  is_u32 3592000000 /\
  let '(close, ys, ts) := clocktime 1383000000 302 1 46 40 0 3592000000 0 in
  abs_diff ts 3592000000 <= 183 * 86400 /\ close = true.
Proof.
  assert (H : is_u32 3592000000) by (unfold_ranges; lia). split; [exact H |].
  pose proof (clocktime_nearest 1383000000 302 1 46 40 0 3592000000 0 H ltac:(lia)) as W. cbv zeta in W.
  destruct (clocktime 1383000000 302 1 46 40 0 3592000000 0) as [[close ys] ts] eqn:E.
  destruct W as (_ & D & C & _). split; [exact D |]. vm_compute in E. injection E as <- _ _. reflexivity.
Defined.
