(* ===== verification/TimeOps.v ===== *)
(** * Operations on system times: include/timespecops.h and timevalops.h

    [struct timespec] and [struct timeval] differ in their unit only, and so
    do the two headers; an operation is written once over the unit, with its
    two instances beside it.  [long] and [time_t] have 64 bits. *)

From S2P Require Import Prelude FixedPoint Calendar.

Definition NANOSECONDS : Z := 1000000000.
Definition MICROSECONDS : Z := 1000000.

(** [tv_frac] is [tv_nsec] or [tv_usec]. *)
Record tstamp := mk_ts { tv_sec : Z; tv_frac : Z }.

Section Unit.
Variable unit : Z.

(** [do ... while] loops; three rounds are enough after the division. *)
Fixpoint borrow (fuel : nat) (x : tstamp) : tstamp :=
  match fuel with
  | O => x
  | S fuel => if tv_frac x <? 0 then borrow fuel (mk_ts (s64 (tv_sec x - 1)) (s64 (tv_frac x + unit))) else x
  end.
Fixpoint carry (fuel : nat) (x : tstamp) : tstamp :=
  match fuel with
  | O => x
  | S fuel => if unit <=? tv_frac x then carry fuel (mk_ts (s64 (tv_sec x + 1)) (s64 (tv_frac x - unit))) else x
  end.

Definition normalize (x : tstamp) : tstamp :=
  let x := if (tv_frac x <? -3 * unit) || (3 * unit <? tv_frac x) then
             let z := tv_frac x /c unit in mk_ts (s64 (tv_sec x + z)) (s64 (tv_frac x - z * unit))
           else x in
  if tv_frac x <? 0 then borrow 3 x else if unit <=? tv_frac x then carry 3 x else x.

Definition add_ts (a b : tstamp) : tstamp := normalize (mk_ts (s64 (tv_sec a + tv_sec b)) (s64 (tv_frac a + tv_frac b))).
Definition add_ts_frac (a : tstamp) (b : Z) : tstamp := normalize (mk_ts (tv_sec a) (s64 (tv_frac a + b))).
Definition sub_ts (a b : tstamp) : tstamp := normalize (mk_ts (s64 (tv_sec a - tv_sec b)) (s64 (tv_frac a - tv_frac b))).
Definition sub_ts_frac (a : tstamp) (b : Z) : tstamp := normalize (mk_ts (tv_sec a) (s64 (tv_frac a - b))).
Definition neg_ts (a : tstamp) : tstamp := normalize (mk_ts (s64 (- tv_sec a)) (s64 (- tv_frac a))).
Definition abs_ts (a : tstamp) : tstamp :=
  let c := normalize a in
  if tv_sec c <? 0 then
    if nonzero (tv_frac c) then mk_ts (s64 (- tv_sec c - 1)) (s64 (unit - tv_frac c)) else mk_ts (s64 (- tv_sec c)) (tv_frac c)
  else c.

Definition cmp3 (a b : Z) : Z := (if b <? a then 1 else 0) - (if a <? b then 1 else 0).
Definition cmp_ts (a b : tstamp) : Z :=
  let r := cmp3 (tv_sec a) (tv_sec b) in if 0 =? r then cmp3 (tv_frac a) (tv_frac b) else r.
Definition cmp_ts_denorm (a b : tstamp) : Z := cmp_ts (normalize a) (normalize b).
Definition test_ts (a : tstamp) : Z :=
  let r := cmp3 (tv_sec a) 0 in if r =? 0 then (if 0 <? tv_frac a then 1 else 0) else r.
Definition test_ts_denorm (a : tstamp) : Z := test_ts (normalize a).

(** The fraction of a timestamp in units, and back, rounded to nearest. *)
Definition frac_to_unit (tsf : Z) : Z := s32 (Z.shiftr (u64 (u64 (tsf * unit) + 0x80000000)) 32).
Definition unit_to_frac (tvu : Z) : Z := u32 (u64 (u64 (Z.shiftl (u64 tvu) 32) + unit / 2) / unit).

Definition ts_intv_to_lfp (x : tstamp) : l_fp :=
  let v := normalize x in mk_lfp (u32 (s32 (tv_sec v))) (unit_to_frac (tv_frac v)).
Definition ts_stamp_to_lfp (x : tstamp) : l_fp :=
  let y := ts_intv_to_lfp x in mk_lfp (u32 (l_ui y + JAN_1970)) (l_uf y).

Definition lfp_intv_to_ts (x : l_fp) : tstamp :=
  let neg := L_ISNEG x in
  let absx := if neg then L_NEG x else x in
  let out := mk_ts (s32 (l_ui absx)) (frac_to_unit (l_uf absx)) in
  if neg then normalize (mk_ts (- tv_sec out) (- tv_frac out)) else out.
Definition lfp_uintv_to_ts (x : l_fp) : tstamp := mk_ts (l_ui x) (frac_to_unit (l_uf x)).

(** Around the pivot [p], or the time [now]. *)
Definition lfp_stamp_to_ts (x : l_fp) (p : option Z) (now : Z) : tstamp :=
  mk_ts (q_s (ntpcal_ntp_to_time (l_ui x) p now)) (frac_to_unit (l_uf x)).
End Unit.

(** ** timespecops.h *)

Definition normalize_tspec : tstamp -> tstamp := normalize NANOSECONDS.
Definition add_tspec : tstamp -> tstamp -> tstamp := add_ts NANOSECONDS.
Definition add_tspec_ns : tstamp -> Z -> tstamp := add_ts_frac NANOSECONDS.
Definition sub_tspec : tstamp -> tstamp -> tstamp := sub_ts NANOSECONDS.
Definition sub_tspec_ns : tstamp -> Z -> tstamp := sub_ts_frac NANOSECONDS.
Definition neg_tspec : tstamp -> tstamp := neg_ts NANOSECONDS.
Definition abs_tspec : tstamp -> tstamp := abs_ts NANOSECONDS.
Definition cmp_tspec : tstamp -> tstamp -> Z := cmp_ts.
Definition cmp_tspec_denorm : tstamp -> tstamp -> Z := cmp_ts_denorm NANOSECONDS.
Definition test_tspec : tstamp -> Z := test_ts.
Definition test_tspec_denorm : tstamp -> Z := test_ts_denorm NANOSECONDS.
Definition FTOTVN : Z -> Z := frac_to_unit NANOSECONDS.
Definition TVNTOF : Z -> Z := unit_to_frac NANOSECONDS.
Definition tspec_intv_to_lfp : tstamp -> l_fp := ts_intv_to_lfp NANOSECONDS.
Definition tspec_stamp_to_lfp : tstamp -> l_fp := ts_stamp_to_lfp NANOSECONDS.
Definition lfp_intv_to_tspec : l_fp -> tstamp := lfp_intv_to_ts NANOSECONDS.
Definition lfp_uintv_to_tspec : l_fp -> tstamp := lfp_uintv_to_ts NANOSECONDS.
Definition lfp_stamp_to_tspec : l_fp -> option Z -> Z -> tstamp := lfp_stamp_to_ts NANOSECONDS.

(** ** timevalops.h: the conversion of a timestamp normalizes here *)

Definition normalize_tval : tstamp -> tstamp := normalize MICROSECONDS.
Definition add_tval : tstamp -> tstamp -> tstamp := add_ts MICROSECONDS.
Definition add_tval_us : tstamp -> Z -> tstamp := add_ts_frac MICROSECONDS.
Definition sub_tval : tstamp -> tstamp -> tstamp := sub_ts MICROSECONDS.
Definition sub_tval_us : tstamp -> Z -> tstamp := sub_ts_frac MICROSECONDS.
Definition neg_tval : tstamp -> tstamp := neg_ts MICROSECONDS.
Definition abs_tval : tstamp -> tstamp := abs_ts MICROSECONDS.
Definition cmp_tval : tstamp -> tstamp -> Z := cmp_ts.
Definition cmp_tval_denorm : tstamp -> tstamp -> Z := cmp_ts_denorm MICROSECONDS.
Definition test_tval : tstamp -> Z := test_ts.
Definition test_tval_denorm : tstamp -> Z := test_ts_denorm MICROSECONDS.
Definition TSFTOTVU : Z -> Z := frac_to_unit MICROSECONDS.
Definition TVUTOTSF : Z -> Z := unit_to_frac MICROSECONDS.
Definition tval_intv_to_lfp : tstamp -> l_fp := ts_intv_to_lfp MICROSECONDS.
Definition tval_stamp_to_lfp : tstamp -> l_fp := ts_stamp_to_lfp MICROSECONDS.
Definition lfp_intv_to_tval : l_fp -> tstamp := lfp_intv_to_ts MICROSECONDS.
Definition lfp_uintv_to_tval : l_fp -> tstamp := lfp_uintv_to_ts MICROSECONDS.
Definition lfp_stamp_to_tval (x : l_fp) (p : option Z) (now : Z) : tstamp :=
  normalize_tval (lfp_stamp_to_ts MICROSECONDS x p now).

(** The macros over [struct timeval] of timevalops.h. *)
Definition TVTOTS (tv : tstamp) : l_fp := mk_lfp (u32 (tv_sec tv)) (TVUTOTSF (tv_frac tv)).
Definition sTVTOTS (tv : tstamp) : l_fp :=
  if (tv_sec tv <? 0) || (tv_frac tv <? 0) then
    L_NEG (mk_lfp (u32 (- u32 (tv_sec tv))) (TVUTOTSF (s64 (- tv_frac tv))))
  else mk_lfp (u32 (tv_sec tv)) (TVUTOTSF (tv_frac tv)).
Definition TSTOTV (ts : l_fp) : tstamp :=
  let tv := mk_ts (l_ui ts) (TSFTOTVU (l_uf ts)) in
  if tv_frac tv =? 1000000 then mk_ts (s64 (tv_sec tv + 1)) 0 else tv.
