(* ===== verification/TimeFacts.v ===== *)
(** * Operations on system times: exact arithmetic and round trips *)

From S2P Require Import Prelude FixedPoint Calendar CalendarFacts TimeOps.

(** The time in units, and the nominal range of the fraction. *)
Definition ts_val (unit : Z) (x : tstamp) : Z := tv_sec x * unit + tv_frac x.
Definition normal (unit : Z) (x : tstamp) : Prop := 0 <= tv_frac x < unit.

(** Operands whose sums do not overflow. *)
Definition modest (x : tstamp) : Prop := Z.abs (tv_sec x) <= 2 ^ 60 /\ Z.abs (tv_frac x) <= 2 ^ 60.

Definition time_unit (unit : Z) : Prop := unit = NANOSECONDS \/ unit = MICROSECONDS.

(** The one normal representation of a value. *)
Definition ts_of (unit v : Z) : tstamp := mk_ts (v / unit) (v mod unit).

Lemma normal_unique unit x : 0 < unit -> normal unit x -> x = ts_of unit (ts_val unit x).
Proof.
  intros Hu Hn. unfold ts_of, ts_val, normal in *. destruct x as [s f]. cbn in *.
  f_equal; [rewrite Z.div_add_l, Z.div_small by lia | rewrite Z.add_comm, Z.mod_add, Z.mod_small by lia]; lia.
Qed.

Lemma ts_of_val unit v : 0 < unit -> ts_val unit (ts_of unit v) = v /\ normal unit (ts_of unit v).
Proof.
  intros Hu. unfold ts_of, ts_val, normal. cbn. pose proof (Z.div_mod v unit ltac:(lia)).
  pose proof (Z.mod_pos_bound v unit Hu). lia.
Qed.

Section Unit.
Variable unit : Z.
Hypothesis Hunit : time_unit unit.

Lemma unit_range : 1000000 <= unit <= 1000000000.
Proof. destruct Hunit as [-> | ->]; unfold NANOSECONDS, MICROSECONDS; lia. Qed.

(** Both units are numerals, which keeps the arithmetic linear. *)
Ltac unit_cases := destruct Hunit as [-> | ->]; unfold NANOSECONDS, MICROSECONDS in *.

(** Few rounds of the loops. *)
Lemma borrow_spec fuel x :
  (fuel <= 3)%nat -> Z.abs (tv_sec x) <= 2 ^ 62 + 2 ^ 61 - Z.of_nat fuel -> - unit * Z.of_nat fuel <= tv_frac x < unit ->
  borrow unit fuel x = ts_of unit (ts_val unit x).
Proof.
  pose proof unit_range as Hu. revert x. induction fuel as [|fuel IH]; intros x H3 Hs Hf; cbn [borrow].
  { apply normal_unique; [lia |]. unfold normal. lia. }
  destruct (Z.ltb_spec (tv_frac x) 0) as [H0 | H0]; [| apply normal_unique; [lia | unfold normal; lia]].
  unit_cases; (rewrite !s64_small by (unfold_ranges; lia); rewrite IH; cbn [tv_sec tv_frac]; [unfold ts_val; cbn [tv_sec tv_frac]; f_equal; lia | lia ..]).
Qed.

Lemma carry_spec fuel x :
  (fuel <= 3)%nat -> Z.abs (tv_sec x) <= 2 ^ 62 + 2 ^ 61 - Z.of_nat fuel -> 0 <= tv_frac x < unit * (Z.of_nat fuel + 1) ->
  carry unit fuel x = ts_of unit (ts_val unit x).
Proof.
  pose proof unit_range as Hu. revert x. induction fuel as [|fuel IH]; intros x H3 Hs Hf; cbn [carry].
  { apply normal_unique; [lia |]. unfold normal. lia. }
  destruct (Z.leb_spec unit (tv_frac x)) as [H0 | H0]; [| apply normal_unique; [lia | unfold normal; lia]].
  unit_cases; (rewrite !s64_small by (unfold_ranges; lia); rewrite IH; cbn [tv_sec tv_frac]; [unfold ts_val; cbn [tv_sec tv_frac]; f_equal; lia | lia ..]).
Qed.

(** Normalization: the division, and at most three rounds, give the normal
    representation of the same time. *)
Lemma normalize_spec x :
  Z.abs (tv_sec x) <= 2 ^ 62 -> Z.abs (tv_frac x) <= 2 ^ 62 -> normalize unit x = ts_of unit (ts_val unit x).
Proof.
  intros Hs Hf. pose proof unit_range as Hu. unfold normalize.
  set (x1 := if _ || _ then _ else x).
  assert (F : ts_val unit x1 = ts_val unit x /\ Z.abs (tv_sec x1) <= 2 ^ 62 + 2 ^ 61 - 3 /\ -3 * unit <= tv_frac x1 <= 3 * unit).
  { unfold x1. destruct (Z.ltb_spec (tv_frac x) (-3 * unit)); cbn [orb].
    2: destruct (Z.ltb_spec (3 * unit) (tv_frac x)); cbn [orb]; [| split; [reflexivity | lia]].
    all: pose proof (Z.quot_rem (tv_frac x) unit ltac:(lia)) as Q; pose proof (Z.rem_bound_abs (tv_frac x) unit ltac:(lia)) as R;
      set (z := tv_frac x /c unit) in *; set (r := Z.rem (tv_frac x) unit) in *; clearbody z r;
      assert (Z.abs z <= 2 ^ 43) by nia; replace (tv_frac x - z * unit) with r by nia;
      rewrite !s64_small by (unfold_ranges; lia); unfold ts_val; cbn [tv_sec tv_frac]; (split; [nia | lia]). }
  clearbody x1. destruct F as (<- & F2 & F3).
  destruct (Z.ltb_spec (tv_frac x1) 0); [apply borrow_spec; cbn; lia |].
  destruct (Z.leb_spec unit (tv_frac x1)); [apply carry_spec; cbn; lia |].
  apply normal_unique; [lia | unfold normal; lia].
Qed.

Lemma ts_of_bounds v : Z.abs v <= 2 ^ 62 * unit -> Z.abs (v / unit) <= 2 ^ 62 + 1 /\ 0 <= v mod unit < unit.
Proof. intros Hv. pose proof unit_range. unit_cases; divlia. Qed.

Lemma normalize_normal x : normal unit x -> normalize unit x = x.
Proof.
  intros Hn. pose proof unit_range. unfold normal, normalize in *.
  destruct (Z.ltb_spec (tv_frac x) (-3 * unit)), (Z.ltb_spec (3 * unit) (tv_frac x)); cbn [orb]; try lia.
  destruct (Z.ltb_spec (tv_frac x) 0), (Z.leb_spec unit (tv_frac x)); lia || reflexivity.
Qed.

Lemma modest_normalize x : modest x -> normalize unit x = ts_of unit (ts_val unit x).
Proof. intros [? ?]. apply normalize_spec; lia. Qed.

(** Sign of a difference, and of its parts. *)
Lemma cmp_ts_of a b : cmp_ts (ts_of unit a) (ts_of unit b) = cmp3 a b.
Proof.
  pose proof unit_range. unfold cmp_ts, ts_of, cmp3. cbn [tv_sec tv_frac].
  unit_cases; repeat match goal with |- context [?x <? ?y] => destruct (Z.ltb_spec x y) end; cbn; divlia.
Qed.

Lemma test_ts_of a : test_ts (ts_of unit a) = cmp3 a 0.
Proof.
  pose proof unit_range. unfold test_ts, ts_of, cmp3. cbn [tv_sec tv_frac].
  unit_cases; repeat match goal with |- context [?x <? ?y] => destruct (Z.ltb_spec x y) end; cbn; divlia.
Qed.

Lemma abs_ts_spec x : modest x -> abs_ts unit x = ts_of unit (Z.abs (ts_val unit x)).
Proof.
  intros M. unfold abs_ts. rewrite (modest_normalize x M). pose proof unit_range. destruct M as [M1 M2].
  set (v := ts_val unit x). assert (Hv : Z.abs v <= 2 ^ 61 * unit) by (unfold v, ts_val; unit_cases; lia). clearbody v.
  unfold ts_of, nonzero. cbn [tv_sec tv_frac].
  destruct (Z.ltb_spec (v / unit) 0); [destruct (Z.eqb_spec (v mod unit) 0); cbn [negb] |].
  all: unit_cases; rewrite ?s64_small by (unfold_ranges; divlia); f_equal; divlia.
Qed.

(** The fraction of a timestamp holds the unit: 2^32 is more than 10^9. *)
Lemma frac_roundtrip n : 0 <= n < unit -> is_u32 (unit_to_frac unit n) /\ frac_to_unit unit (unit_to_frac unit n) = n.
Proof.
  intros Hn. unfold frac_to_unit, unit_to_frac. rewrite Z.shiftl_mul_pow2, Z.shiftr_div_pow2 by lia.
  unit_cases; unfold_widths; unfold_ranges; split; divlia.
Qed.
End Unit.

(** Arithmetic on system times is exact: for operands that need not be
    normalised (and whose sums do not overflow), addition, subtraction,
    negation and absolute value give the one normalised representation of the
    result, and the comparisons order the times as numbers. *)
Theorem time_arithmetic unit a b :
  time_unit unit -> modest a -> modest b ->
  let va := ts_val unit a in let vb := ts_val unit b in
  add_ts unit a b = ts_of unit (va + vb) /\ sub_ts unit a b = ts_of unit (va - vb) /\
  add_ts_frac unit a (tv_frac b) = ts_of unit (va + tv_frac b) /\
  sub_ts_frac unit a (tv_frac b) = ts_of unit (va - tv_frac b) /\
  neg_ts unit a = ts_of unit (- va) /\ abs_ts unit a = ts_of unit (Z.abs va) /\
  cmp_ts_denorm unit a b = cmp3 va vb /\ test_ts_denorm unit a = cmp3 va 0.
Proof.
  intros Hu Ma Mb va vb. unfold cmp_ts_denorm, test_ts_denorm.
  rewrite !modest_normalize, cmp_ts_of, test_ts_of, abs_ts_spec by assumption.
  unfold add_ts, sub_ts, add_ts_frac, sub_ts_frac, neg_ts. destruct Ma as [? ?], Mb as [? ?].
  rewrite !s64_small by (unfold_ranges; lia). rewrite !normalize_spec by (assumption || (cbn [tv_sec tv_frac]; lia)).
  unfold va, vb, ts_val. cbn [tv_sec tv_frac]. repeat split; f_equal; lia.
Qed.

Lemma time_arithmetic_witness :
  (time_unit NANOSECONDS /\ modest (mk_ts 1 999999999) /\ modest (mk_ts (-3) 4000000001)) /\
  add_tspec (mk_ts 1 999999999) (mk_ts (-3) 4000000001) = mk_ts 3 0.
Proof.
  assert (M1 : time_unit NANOSECONDS) by (left; reflexivity).
  assert (M2 : modest (mk_ts 1 999999999)) by (split; cbn; lia).
  assert (M3 : modest (mk_ts (-3) 4000000001)) by (split; cbn; lia).
  split; [split; [exact M1 | split; [exact M2 | exact M3]] |].
  exact (proj1 (time_arithmetic NANOSECONDS _ _ M1 M2 M3)).
Defined.

(** A normal time through a timestamp and back, before normalization. *)
Lemma stamp_back unit x p now :
  time_unit unit -> normal unit x -> Z.abs p < 2 ^ 62 -> p - 2 ^ 31 <= tv_sec x < p + 2 ^ 31 ->
  lfp_stamp_to_ts unit (ts_stamp_to_lfp unit x) (Some p) now = x.
Proof.
  intros Hu Hn Hp Hs. pose proof (unit_range unit Hu) as Hr.
  unfold lfp_stamp_to_ts, ts_stamp_to_lfp, ts_intv_to_lfp. rewrite normalize_normal by assumption. cbn [l_ui l_uf].
  rewrite (proj2 (frac_roundtrip unit Hu _ Hn)). set (n := u32 _).
  assert (Hn32 : is_u32 n) by (unfold n; unfold_widths; unfold_ranges; divlia).
  destruct (ntp_to_time_spec n p now Hn32 Hp) as [U1 U2]. destruct x as [s f]. f_equal. cbn [tv_sec] in *.
  set (u := q_s _) in *. clearbody u. unfold n in U2. clear - Hs U1 U2. unfold JAN_1970 in *. unfold_widths. unfold_ranges. divlia.
Qed.

(** A normalised time within 68 years of the pivot survives the
    conversion to an NTP timestamp and back, in nanoseconds as in
    microseconds and in every NTP era. *)
Theorem stamp_roundtrip x p now :
  Z.abs p < 2 ^ 62 -> p - 2 ^ 31 <= tv_sec x < p + 2 ^ 31 ->
  (normal NANOSECONDS x -> lfp_stamp_to_tspec (tspec_stamp_to_lfp x) (Some p) now = x) /\
  (normal MICROSECONDS x -> lfp_stamp_to_tval (tval_stamp_to_lfp x) (Some p) now = x).
Proof.
  intros Hp Hs. split; intros Hn.
  - apply stamp_back; auto. now left.
  - assert (Hu : time_unit MICROSECONDS) by now right. unfold lfp_stamp_to_tval, tval_stamp_to_lfp, normalize_tval.
    rewrite stamp_back by assumption. now apply normalize_normal.
Qed.

Lemma stamp_roundtrip_witness :
  (Z.abs 2085978496 < 2 ^ 62 /\ normal NANOSECONDS (mk_ts 2085978500 123456789)) /\
  lfp_stamp_to_tspec (tspec_stamp_to_lfp (mk_ts 2085978500 123456789)) (Some 2085978496) 0 = mk_ts 2085978500 123456789.
Proof.
  assert (H1 : Z.abs 2085978496 < 2 ^ 62) by (vm_compute; reflexivity).
  assert (H2 : 2085978496 - 2 ^ 31 <= 2085978500 < 2085978496 + 2 ^ 31) by lia.
  assert (H3 : normal NANOSECONDS (mk_ts 2085978500 123456789)) by (unfold normal, NANOSECONDS; cbn; lia).
  split; [split; [exact H1 | exact H3] |].
  exact (proj1 (stamp_roundtrip (mk_ts 2085978500 123456789) 2085978496 0 H1 H2) H3).
Defined.

(** The last fraction of a second rounds up to a whole one, which the
    conversion to [timespec] leaves unnormalised. *)
Example stamp_not_normal :
  tv_frac (lfp_stamp_to_tspec (mk_lfp JAN_1970 0xffffffff) (Some 0) 0) = NANOSECONDS /\
  lfp_stamp_to_tval (mk_lfp JAN_1970 0xffffffff) (Some 0) 0 = mk_ts 1 0.
Proof. vm_compute. split; reflexivity. Qed.
