(* ===== verification/Double.v ===== *)
(** * C doubles: IEEE 754 binary64

    The protocol core computes offsets, delays and distances in [double].
    A double is the standard library's [spec_float] with the binary64
    parameters: every operation rounds to nearest even, and comparisons
    with a NaN are false, as in C.  The file also has the conversions of
    include/ntp_fp.h and the macros of include/ntp.h on doubles, and the
    order facts the selection algorithm rests on. *)

From Stdlib Require Import SpecFloat.
From S2P Require Import Prelude FixedPoint.

Definition double : Type := spec_float.

Definition dadd : double -> double -> double := SFadd 53 1024.
Definition dsub : double -> double -> double := SFsub 53 1024.
Definition dmul : double -> double -> double := SFmul 53 1024.
Definition ddiv : double -> double -> double := SFdiv 53 1024.
Definition dsqrt : double -> double := SFsqrt 53 1024.
Definition dabs : double -> double := SFabs.
Definition dneg : double -> double := SFopp.

(** [a < b], [a <= b], [a == b] *)
Definition dlt : double -> double -> bool := SFltb.
Definition dle : double -> double -> bool := SFleb.
Definition deq : double -> double -> bool := SFeqb.

(** Conversion of an integer, and [ldexp]. *)
Definition dofZ (z : Z) : double := binary_normalize 53 1024 z 0 false.
Definition dldexp (d : double) (e : Z) : double := SFldexp 53 1024 d e.

(** A rational literal [n / 10^k] of the source. *)
Definition dlit (n k : Z) : double := ddiv (dofZ n) (dofZ (10 ^ k)).

(** The value [(integer)d], truncated towards zero. *)
Definition dtrunc (d : double) : Z :=
  match d with
  | S754_finite s m e =>
      let v := if 0 <=? e then Zpos m * 2 ^ e else Zpos m / 2 ^ (- e) in
      if s then - v else v
  | _ => 0
  end.

Notation "a +d b" := (dadd a b) (at level 50, left associativity) : ntp_scope.
Notation "a -d b" := (dsub a b) (at level 50, left associativity) : ntp_scope.
Notation "a *d b" := (dmul a b) (at level 40, left associativity) : ntp_scope.
Notation "a /d b" := (ddiv a b) (at level 40, left associativity) : ntp_scope.
Notation "a <d b" := (dlt a b) (at level 70) : ntp_scope.
Notation "a <=d b" := (dle a b) (at level 70) : ntp_scope.

(** [max(a, b)] of ntp.h. *)
Definition dmax (a b : double) : double := if b <d a then a else b.

(** ** Macros on doubles (ntp.h) *)

Definition SQUARE (x : double) : double := x *d x.
Definition SQRT (x : double) : double := dsqrt x.
Definition DIFF (x y : double) : double := SQUARE (x -d y).
Definition LOGTOD (a : Z) : double := dldexp (dofZ 1) a.
Definition ULOGTOD (a : Z) : double := dldexp (dofZ 1) a.

(** ** Conversions (ntp_fp.h) *)

(** [double] of an [s_fp]/[u_fp] word. *)
Definition FPTOD (r : Z) : double := dofZ r /d dofZ 65536.
Definition DTOFP (r : double) : Z := s32 (dtrunc (r *d dofZ 65536)).
Definition DTOUFP (r : double) : Z := u32 (dtrunc (r *d dofZ 65536)).

Definition M_LFPTOD (v : l_fp) : double :=
  let q_tmp := u64 (Z.shiftl (l_ui v) 32 + l_uf v) in
  let isneg := M_ISNEG (l_ui v) in
  let q_tmp := if isneg then u64 (Z.lnot q_tmp + 1) else q_tmp in
  let d_tmp := dldexp (dofZ q_tmp) (-32) in
  if isneg then dneg d_tmp else d_tmp.
Definition LFPTOD : l_fp -> double := M_LFPTOD.

Definition M_DTOLFP (d : double) : l_fp :=
  let isneg := d <d dofZ 0 in
  let d_tmp := if isneg then dneg d else d in
  let q_tmp := u64 (dtrunc (dldexp d_tmp 32)) in
  let q_tmp := if isneg then u64 (Z.lnot q_tmp + 1) else q_tmp in
  mk_lfp (u32 (Z.shiftr q_tmp 32)) (u32 q_tmp).
Definition DTOLFP : double -> l_fp := M_DTOLFP.

(** ** The order of doubles

    [SFcompare] orders numbers by sign, exponent and mantissa, so it is a
    total preorder away from NaN whatever the representation. *)

Definition is_num (d : double) : bool := match d with S754_nan => false | _ => true end.

(** A key in a linear order that realises [SFcompare]. *)
Definition dkey (d : double) : Z * Z * Z :=
  match d with
  | S754_nan => (3, 0, 0)
  | S754_infinity true => (-2, 0, 0)
  | S754_finite true m e => (-1, - e, - Zpos m)
  | S754_zero _ => (0, 0, 0)
  | S754_finite false m e => (1, e, Zpos m)
  | S754_infinity false => (2, 0, 0)
  end.

Definition key_lt (a b : Z * Z * Z) : Prop :=
  let '(a1, a2, a3) := a in let '(b1, b2, b3) := b in
  a1 < b1 \/ (a1 = b1 /\ (a2 < b2 \/ (a2 = b2 /\ a3 < b3))).

Lemma dlt_key a b : is_num a = true -> is_num b = true ->
  (a <d b) = true <-> key_lt (dkey a) (dkey b).
Proof.
  intros Ha Hb. unfold dlt, SFltb, key_lt.
  destruct a as [[]|[]| |[] m e], b as [[]|[]| |[] m' e']; try discriminate; cbn;
    try (split; [discriminate || reflexivity || lia | lia || reflexivity]);
    try (split; [intros _; lia | reflexivity]).
  - destruct (Z.compare_spec e e'); subst; [| split; [discriminate | lia] | split; [lia | reflexivity]].
    change (Pos.compare_cont Eq m m') with (Pos.compare m m').
    destruct (Pos.compare_spec m m'); cbn; split; try discriminate; try lia; reflexivity.
  - destruct (Z.compare_spec e e'); subst; [| split; [lia | reflexivity] | split; [discriminate | lia]].
    change (Pos.compare_cont Eq m m') with (Pos.compare m m').
    destruct (Pos.compare_spec m m'); cbn; split; try discriminate; try lia; reflexivity.
Qed.

Lemma dlt_num a b : (a <d b) = true -> is_num a = true /\ is_num b = true.
Proof. unfold dlt, SFltb. now destruct a as [[]|[]| |[]], b as [[]|[]| |[]]. Qed.

Lemma key_lt_trans a b c : key_lt a b -> key_lt b c -> key_lt a c.
Proof. destruct a as [[? ?] ?], b as [[? ?] ?], c as [[? ?] ?]. unfold key_lt. lia. Qed.

Lemma dlt_trans a b c : (a <d b) = true -> (b <d c) = true -> (a <d c) = true.
Proof.
  intros H1 H2. destruct (dlt_num _ _ H1), (dlt_num _ _ H2).
  apply dlt_key in H1, H2; auto. apply dlt_key; eauto using key_lt_trans.
Qed.

Lemma dlt_irrefl a : (a <d a) = false.
Proof.
  destruct (a <d a) eqn:E; [| reflexivity]. destruct (dlt_num _ _ E).
  apply dlt_key in E; auto. destruct (dkey a) as [[? ?] ?]. cbn in E. lia.
Qed.

Lemma dlt_asym a b : (a <d b) = true -> (b <d a) = false.
Proof.
  intros H. destruct (b <d a) eqn:E; [| reflexivity].
  pose proof (dlt_trans _ _ _ H E) as C. now rewrite dlt_irrefl in C.
Qed.

(** On numbers, [a <= b] is the negation of [b < a]. *)
Lemma dle_not_gt a b : is_num a = true -> is_num b = true -> (a <=d b) = negb (b <d a).
Proof.
  intros Ha Hb. unfold dle, dlt, SFleb, SFltb.
  destruct a as [[]|[]| |[] m e], b as [[]|[]| |[] m' e']; try discriminate; cbn; try reflexivity;
    rewrite (Z.compare_antisym e e'); destruct (Z.compare_spec e e'); cbn; try reflexivity;
    change (Pos.compare_cont Eq ?x ?y) with (Pos.compare x y);
    rewrite (Pos.compare_antisym m m'); destruct (Pos.compare m m'); reflexivity.
Qed.

(** [a <= b < c] and [a < b <= c] in the form the scans use. *)
Lemma dlt_cotrans a b c :
  is_num b = true -> (a <d c) = true -> (a <d b) = true \/ (b <d c) = true.
Proof.
  intros Hb H. destruct (dlt_num _ _ H) as [Ha Hc].
  apply dlt_key in H; auto. rewrite !dlt_key by auto.
  destruct (dkey a) as [[? ?] ?], (dkey b) as [[? ?] ?], (dkey c) as [[? ?] ?].
  unfold key_lt in *. lia.
Qed.

(** [a] is not above [b]. *)
Definition le_d (a b : double) : Prop := (b <d a) = false.

Lemma le_d_trans a b c : is_num b = true -> le_d a b -> le_d b c -> le_d a c.
Proof.
  unfold le_d. intros Hb H1 H2. destruct (c <d a) eqn:E; [| reflexivity].
  destruct (dlt_cotrans c b a Hb E); congruence.
Qed.

Lemma lt_le_d a b : (a <d b) = true -> le_d a b.
Proof. apply dlt_asym. Qed.
