(* ===== verification/Lists.v ===== *)
(** * Linked lists and hash chains: include/ntp_lists.h

    The daemon links its structures intrusively.  A singly or doubly linked
    list is the list of the pointers it links, in order; a hash table is a
    finite map from bucket numbers to chains.  [indexed] is the contract
    between a table and the list of live structures that the key store, the
    monitor and the peer table each maintain. *)

From S2P Require Import Prelude.
From stdpp Require Import base gmap list.
#[local] Open Scope Z_scope.

(** ** The macros *)

(** [UNLINK_SLIST], [UNLINK_DLIST]: the first link to [p] goes. *)
Fixpoint UNLINK (p : Z) (l : list Z) : list Z :=
  match l with
  | [] => []
  | q :: l => if q =? p then l else q :: UNLINK p l
  end.

(** [LINK_SORT_SLIST]: before the first entry [beforecur] holds of. *)
Fixpoint LINK_SORT (beforecur : Z -> bool) (p : Z) (l : list Z) : list Z :=
  match l with
  | [] => [p]
  | q :: l => if beforecur q then p :: q :: l else q :: LINK_SORT beforecur p l
  end.

(** A search loop over a chain. *)
Fixpoint chain_find (test : Z -> bool) (l : list Z) : option Z :=
  match l with
  | [] => None
  | p :: l => if test p then Some p else chain_find test l
  end.

(** Hash tables of chains. *)
Abbreviation htable := (gmap Z (list Z)).
Definition bucket (t : htable) (h : Z) : list Z := default [] (t !! h).
Definition LINK_BUCKET (h p : Z) (t : htable) : htable := <[h := p :: bucket t h]> t.
Definition UNLINK_BUCKET (h p : Z) (t : htable) : htable := <[h := UNLINK p (bucket t h)]> t.

(** ** Lemmas on the macros *)

Lemma UNLINK_notin p l : p ∉ l -> UNLINK p l = l.
Proof.
  induction l as [|q l IH]; intros H; cbn; [done |].
  destruct (Z.eqb_spec q p) as [-> |]; [set_solver | f_equal; apply IH; set_solver].
Qed.

Lemma UNLINK_sub p q l : q ∈ UNLINK p l -> q ∈ l.
Proof.
  induction l as [|r l IH]; cbn; [done |].
  destruct (r =? p); rewrite ?elem_of_cons; tauto.
Qed.

Lemma UNLINK_elem p q l : NoDup l -> q ∈ UNLINK p l <-> q ∈ l /\ q <> p.
Proof.
  induction l as [|r l IH]; intros H; cbn; [set_solver |].
  apply NoDup_cons in H as [Hr Hl].
  destruct (Z.eqb_spec r p) as [-> |]; rewrite !elem_of_cons; [| rewrite IH by done];
    split; intros; destruct_and?; destruct_or?; subst; naive_solver.
Qed.

Lemma UNLINK_NoDup p l : NoDup l -> NoDup (UNLINK p l).
Proof.
  induction l as [|q l IH]; intros H; cbn; [done |].
  apply NoDup_cons in H as [Hq Hl]. destruct (q =? p); [done |].
  apply NoDup_cons. split; [| auto]. intros HH. apply Hq. eapply UNLINK_sub; eauto.
Qed.

Lemma UNLINK_length p l : p ∈ l -> S (length (UNLINK p l)) = length l.
Proof.
  induction l as [|q l IH]; intros H; cbn; [set_solver |].
  destruct (Z.eqb_spec q p) as [-> | Hne]; [done |]. cbn. f_equal. apply IH. set_solver.
Qed.

Lemma UNLINK_perm p l : p ∈ l -> Permutation l (p :: UNLINK p l).
Proof.
  induction l as [|q l IH]; intros H; [set_solver |]. cbn.
  destruct (Z.eqb_spec q p) as [-> |]; [done |]. rewrite perm_swap. f_equiv. apply IH. set_solver.
Qed.

Lemma UNLINK_filter p l : NoDup l -> UNLINK p l = filter (fun q => q <> p) l.
Proof.
  induction l as [|q l IH]; intros H; cbn [UNLINK]; [done |].
  apply NoDup_cons in H as [Hq Hl]. rewrite filter_cons.
  destruct (Z.eqb_spec q p) as [-> | Hne].
  - rewrite decide_False by naive_solver. rewrite <- IH by done. now rewrite UNLINK_notin.
  - rewrite decide_True by done. f_equal. auto.
Qed.

Lemma LINK_SORT_Permutation b p l : Permutation (LINK_SORT b p l) (p :: l).
Proof.
  induction l as [|q l IH]; cbn; [done |]. destruct (b q); [done |].
  rewrite IH. apply perm_swap.
Qed.

Lemma chain_find_Some t l p : chain_find t l = Some p -> p ∈ l /\ t p = true.
Proof.
  induction l as [|q l IH]; cbn; [done |].
  destruct (t q) eqn:E; [intros [= ->]; set_solver |]. intros H. apply IH in H. set_solver.
Qed.

Lemma chain_find_None t l : chain_find t l = None <-> (forall p, p ∈ l -> t p = false).
Proof.
  induction l as [|q l IH]; cbn; [set_solver |].
  destruct (t q) eqn:E.
  - split; [done |]. intros H. specialize (H q ltac:(set_solver)). congruence.
  - rewrite IH. set_solver.
Qed.

(** A chain in which at most one structure passes the test. *)
Lemma chain_find_unique t l p :
  p ∈ l -> t p = true -> (forall q, q ∈ l -> t q = true -> q = p) -> chain_find t l = Some p.
Proof.
  intros Hp Ht Hu. destruct (chain_find t l) as [q|] eqn:E.
  - apply chain_find_Some in E as [? ?]. f_equal. auto.
  - rewrite chain_find_None in E. rewrite E in Ht by done. done.
Qed.

Lemma chain_find_ext t t' l :
  (forall p, p ∈ l -> t p = t' p) -> chain_find t l = chain_find t' l.
Proof.
  induction l as [|q l IH]; intros H; cbn; [done |].
  rewrite (H q) by set_solver. destruct (t' q); [done |]. apply IH. set_solver.
Qed.

(** ** Pointers of a fresh chunk *)

Lemma zrange_elem lo n p : p ∈ zrange lo n <-> lo <= p < lo + Z.of_nat n.
Proof.
  revert lo. induction n as [|n IH]; intros lo; cbn [zrange]; [set_solver by lia |].
  rewrite elem_of_cons, IH. lia.
Qed.

Lemma zrange_NoDup lo n : NoDup (zrange lo n).
Proof.
  revert lo. induction n as [|n IH]; intros lo; cbn [zrange]; constructor; [| apply IH].
  rewrite zrange_elem. lia.
Qed.

Lemma zrange_length lo n : length (zrange lo n) = n.
Proof. revert lo. induction n; intros; cbn; auto. Qed.

Lemma fold_cons_rev {A} (l acc : list A) : fold_left (fun l p => p :: l) l acc = reverse l ++ acc.
Proof.
  revert acc. induction l as [|x l IH]; intros acc; cbn [fold_left]; [done |].
  now rewrite IH, reverse_cons, <- app_assoc.
Qed.

Lemma fold_insert_lookup_all {A} (x : A) l (m : gmap Z A) p :
  fold_left (fun m q => <[q := x]> m) l m !! p = if decide (p ∈ l) then Some x else m !! p.
Proof.
  revert m. induction l as [|q l IH]; intros m; cbn; [now rewrite decide_False by set_solver |].
  rewrite IH. destruct (decide (p ∈ l)) as [Hin|Hin].
  - now rewrite decide_True by set_solver.
  - destruct (decide (q = p)) as [-> | Hne].
    + now rewrite lookup_insert_eq, decide_True by set_solver.
    + now rewrite lookup_insert_ne, decide_False by set_solver.
Qed.

Lemma fold_insert_lookup {A} (x : A) l (m : gmap Z A) p :
  p ∉ l -> fold_left (fun m q => <[q := x]> m) l m !! p = m !! p.
Proof. intros Hp. now rewrite fold_insert_lookup_all, decide_False. Qed.

(** ** Hash tables *)

Lemma bucket_insert_eq (t : htable) h l : bucket (<[h := l]> t) h = l.
Proof. unfold bucket. now rewrite lookup_insert_eq. Qed.
Lemma bucket_insert_ne (t : htable) h h' l : h <> h' -> bucket (<[h := l]> t) h' = bucket t h'.
Proof. intros. unfold bucket. now rewrite lookup_insert_ne. Qed.
Lemma bucket_empty h : bucket ∅ h = [].
Proof. unfold bucket. now rewrite lookup_empty. Qed.
#[export] Hint Rewrite bucket_insert_eq bucket_empty : ntp.

(** Every live structure is on the chain of its hash and on no other, and
    nothing else is on a chain. *)
Definition indexed (hash : Z -> Z) (live : list Z) (t : htable) : Prop :=
  forall h, NoDup (bucket t h) /\ forall p, p ∈ bucket t h <-> p ∈ live /\ hash p = h.

Section Indexed.
Context (hash : Z -> Z).

Lemma indexed_empty : indexed hash [] ∅.
Proof. intros h. rewrite bucket_empty. split; [constructor | set_solver]. Qed.

Lemma indexed_link live t p :
  indexed hash live t -> p ∉ live -> indexed hash (p :: live) (LINK_BUCKET (hash p) p t).
Proof.
  intros H Hp h. specialize (H h) as [Hn Hi]. unfold LINK_BUCKET.
  destruct (decide (hash p = h)) as [<- | Hne].
  - rewrite bucket_insert_eq. split.
    + apply NoDup_cons. split; [rewrite Hi; tauto | done].
    + intros q. rewrite !elem_of_cons, Hi. naive_solver.
  - rewrite bucket_insert_ne by done. split; [done |].
    intros q. rewrite elem_of_cons, Hi. naive_solver.
Qed.

Lemma indexed_unlink live t p :
  NoDup live -> indexed hash live t ->
  indexed hash (UNLINK p live) (UNLINK_BUCKET (hash p) p t).
Proof.
  intros Hl H h. specialize (H h) as [Hn Hi]. unfold UNLINK_BUCKET.
  destruct (decide (hash p = h)) as [<- | Hne].
  - rewrite bucket_insert_eq. split; [now apply UNLINK_NoDup |].
    intros q. rewrite !UNLINK_elem, Hi by done. tauto.
  - rewrite bucket_insert_ne by done. split; [done |].
    intros q. rewrite UNLINK_elem, Hi by done. naive_solver.
Qed.

(** Only membership of the live list matters, and only the hashes of live structures. *)
Lemma indexed_proper hash' live live' t :
  (forall p, p ∈ live <-> p ∈ live') -> (forall p, p ∈ live -> hash p = hash' p) ->
  indexed hash live t -> indexed hash' live' t.
Proof.
  intros Hl Hh H h. destruct (H h) as [Hn Hi]. split; [done |].
  intros p. rewrite Hi, <- Hl. naive_solver.
Qed.

(** A search on the chain of [h] finds the one live structure that passes
    a test only structures of that hash pass. *)
Lemma indexed_find live t test h p :
  indexed hash live t -> p ∈ live -> test p = true -> hash p = h ->
  (forall q, q ∈ live -> test q = true -> q = p) ->
  chain_find test (bucket t h) = Some p.
Proof.
  intros H Hp Ht Hh Hu. destruct (H h) as [_ Hi].
  apply chain_find_unique; [now apply Hi | done |].
  intros q Hq. apply Hi in Hq as [? ?]. auto.
Qed.

Lemma indexed_find_live live t test h p :
  indexed hash live t -> chain_find test (bucket t h) = Some p ->
  p ∈ live /\ hash p = h /\ test p = true.
Proof.
  intros H E. apply chain_find_Some in E as [E ?]. destruct (H h) as [_ Hi].
  apply Hi in E. tauto.
Qed.

(** Rebuilding a table by linking every live structure, as the resize does. *)
Lemma indexed_rebuild_app done_ live t :
  NoDup (done_ ++ live) -> indexed hash done_ t ->
  indexed hash (done_ ++ live) (fold_left (fun t p => LINK_BUCKET (hash p) p t) live t).
Proof.
  revert done_ t. induction live as [|p live IH]; intros d t Hn H; cbn.
  { now rewrite app_nil_r. }
  apply (indexed_proper hash ((p :: d) ++ live)); [set_solver | done |].
  apply (IH (p :: d)).
  - revert Hn. now rewrite <- Permutation_middle.
  - apply indexed_link; [done |]. apply NoDup_app in Hn. set_solver.
Qed.

Lemma indexed_rebuild live :
  NoDup live -> indexed hash live (fold_left (fun t p => LINK_BUCKET (hash p) p t) live ∅).
Proof. intros H. apply (indexed_rebuild_app [] live); [done | apply indexed_empty]. Qed.
End Indexed.
