(* ===== verification/NtpTypes.v ===== *)
(** * Wire data and constants: include/ntp.h, ntp_net.h, recvbuff.h

    Socket addresses, local endpoints, the packet header, the receive
    buffer and the constants of ntp.h, together with the field-update
    notation [r <| f := v |>] the stateful components use.  Packet words
    are held in host byte order. *)

From S2P Require Import Prelude FixedPoint Double.
From stdpp Require Import base gmap list.
#[local] Open Scope Z_scope.

(** ** Field update: [r <| f := v |>] *)

Class Eta (R : Type) := eta : R -> R.
Class Setter {R T : Type} (f : R -> T) := setter : T -> R -> R.
Arguments setter {R T} f {_} _ _.

Ltac derive_setter :=
  match goal with
  | |- @Setter ?R ?T ?f =>
      let e := constr:(_ : Eta R) in
      let e := eval hnf in e in
      let v := fresh "v" in
      let r := fresh "r" in
      refine (fun (v : T) (r : R) => _);
      let t := eval cbv beta in (e r) in
      let t' := eval pattern (f r) in t in
      match t' with ?g _ => let u := eval cbv beta in (g v) in exact u end
  end.
#[export] Hint Extern 1 (Setter _) => derive_setter : typeclass_instances.
Notation "r <| f := v |>" := (setter f v r) (at level 1, left associativity).

(** ** Addresses, endpoints, packets *)

(** What identifies a [sockaddr_u]: family, address, scope and port. *)
Record sockaddr := mk_sockaddr { sa_family : Z; sa_addr : Z; sa_scope : Z; sa_port : Z }.

Definition AF_INET : Z := 2.
Definition AF_INET6 : Z := 10.

Definition SOCK_EQ (a b : sockaddr) : bool :=
  if negb (sa_family a =? sa_family b) then false
  else if sa_family a =? AF_INET then sa_addr a =? sa_addr b
  else (sa_addr a =? sa_addr b) && (sa_scope a =? sa_scope b).

Definition ADDR_PORT_EQ (a b : sockaddr) : bool :=
  if negb (sa_port a =? sa_port b) then false else SOCK_EQ a b.

(** Address classification. *)
Definition IS_IPV4 (a : sockaddr) : bool := sa_family a =? AF_INET.
Definition IS_IPV6 (a : sockaddr) : bool := sa_family a =? AF_INET6.
Definition IS_MCAST (a : sockaddr) : bool :=
  if IS_IPV4 a then sa_addr a .& 0xf0000000 =? 0xe0000000
  else Z.shiftr (sa_addr a) 120 =? 0xff.
Definition SOCK_UNSPEC (a : sockaddr) : bool := sa_addr a =? 0.
Definition ISREFCLOCKADR (a : sockaddr) : bool :=
  IS_IPV4 a && (sa_addr a .& 0xffff0000 =? 0x7f7f0000).
Definition ISBADADR (a : sockaddr) : bool :=
  IS_IPV4 a && (sa_addr a .& 0xff000000 =? 0x7f000001 .& 0xff000000)
  && negb (sa_addr a =? 0x7f000001).
Definition SET_HOSTMASK (family : Z) : sockaddr :=
  mk_sockaddr family (if family =? AF_INET6 then 2 ^ 128 - 1 else 0xffffffff) 0 0.

(** Network byte order: the [n] bytes of an integer, most significant first. *)
Fixpoint be_bytes (n : nat) (x : Z) : list Z :=
  match n with
  | O => []
  | S n => (Z.shiftr x (8 * Z.of_nat n) .& 255) :: be_bytes n x
  end.
Definition be_val (bs : list Z) : Z := fold_left (fun a b => a * 256 + b) bs 0.
Definition be32 : Z -> list Z := be_bytes 4.

(** [sock_hash] (libntp/socktoa.c): the family, low byte first, then the address. *)
Definition sock_hash (a : sockaddr) : Z :=
  let fam := [sa_family a .& 255; Z.shiftr (sa_family a) 8 .& 255] in
  let addr := if IS_IPV4 a then be_bytes 4 (sa_addr a)
              else if IS_IPV6 a then be_bytes 16 (sa_addr a) else [] in
  u16 (fold_left (fun h b => u32 (37 * h + b)) (fam ++ addr) 0 .& 65535).

Record endpt := mk_endpt {
  ep_fd : Z; ep_bfd : Z; ep_sin : sockaddr; ep_family : Z; ep_flags : Z; ep_addr_refid : Z;
  ep_ignore_packets : bool; ep_peers : list Z; ep_peercnt : Z }.
#[export] Instance eta_endpt : Eta endpt := fun r =>
  mk_endpt (ep_fd r) (ep_bfd r) (ep_sin r) (ep_family r) (ep_flags r) (ep_addr_refid r)
    (ep_ignore_packets r) (ep_peers r) (ep_peercnt r).
Definition zero_endpt : endpt := mk_endpt 0 0 (mk_sockaddr 0 0 0 0) 0 0 0 false [] 0.

Record pkt := mk_pkt {
  pk_li_vn_mode : Z; pk_stratum : Z; pk_ppoll : Z; pk_precision : Z;
  pk_rootdelay : Z; pk_rootdisp : Z; pk_refid : Z;
  pk_reftime : l_fp; pk_org : l_fp; pk_rec : l_fp; pk_xmt : l_fp }.
#[export] Instance eta_pkt : Eta pkt := fun r =>
  mk_pkt (pk_li_vn_mode r) (pk_stratum r) (pk_ppoll r) (pk_precision r)
    (pk_rootdelay r) (pk_rootdisp r) (pk_refid r)
    (pk_reftime r) (pk_org r) (pk_rec r) (pk_xmt r).

(** The header as it lies in a datagram, in network byte order. *)
Definition lfp_bytes (v : l_fp) : list Z := be32 (l_ui v) ++ be32 (l_uf v).
Definition pkt_bytes (p : pkt) : list Z :=
  [u8 (pk_li_vn_mode p); u8 (pk_stratum p); u8 (pk_ppoll p); u8 (pk_precision p)]
  ++ be32 (pk_rootdelay p) ++ be32 (pk_rootdisp p) ++ be32 (pk_refid p)
  ++ lfp_bytes (pk_reftime p) ++ lfp_bytes (pk_org p) ++ lfp_bytes (pk_rec p)
  ++ lfp_bytes (pk_xmt p).

Definition byte_at (bs : list Z) (off : nat) : Z := nth off bs 0.
Definition word_at (bs : list Z) (off : nat) : Z := be_val (take 4 (drop off bs)).
Definition lfp_at (bs : list Z) (off : nat) : l_fp := mk_lfp (word_at bs off) (word_at bs (off + 4)).
Definition pkt_of_bytes (bs : list Z) : pkt :=
  mk_pkt (byte_at bs 0) (byte_at bs 1) (byte_at bs 2) (s8 (byte_at bs 3))
    (word_at bs 4) (word_at bs 8) (word_at bs 12)
    (lfp_at bs 16) (lfp_at bs 24) (lfp_at bs 32) (lfp_at bs 40).

(** The receive buffer; [rb_bytes] is [recv_buffer], at least as long as
    [rb_length]. *)
Record recvbuf := mk_recvbuf {
  rb_srcadr : sockaddr; rb_dstadr : Z; rb_fd : Z; rb_time : l_fp; rb_length : Z;
  rb_bytes : list Z }.
#[export] Instance eta_recvbuf : Eta recvbuf := fun r =>
  mk_recvbuf (rb_srcadr r) (rb_dstadr r) (rb_fd r) (rb_time r) (rb_length r) (rb_bytes r).
Definition rb_pkt (r : recvbuf) : pkt := pkt_of_bytes (rb_bytes r).

Definition PKT_MODE (li_vn_mode : Z) : Z := u8 (li_vn_mode .& 0x7).
Definition PKT_VERSION (li_vn_mode : Z) : Z := u8 (Z.shiftr li_vn_mode 3 .& 0x7).
Definition PKT_LEAP (li_vn_mode : Z) : Z := u8 (Z.shiftr li_vn_mode 6 .& 0x3).
Definition VN_MODE (v m : Z) : Z := Z.shiftl (v .& 7) 3 .| (m .& 0x7).
Definition PKT_LI_VN_MODE (l v m : Z) : Z := Z.shiftl (l .& 3) 6 .| VN_MODE v m.
Definition STRATUM_UNSPEC : Z := 16.
Definition STRATUM_PKT_UNSPEC : Z := 0.
Definition STRATUM_REFCLOCK : Z := 0.
Definition PKT_TO_STRATUM (s : Z) : Z := u8 (if s =? 0 then STRATUM_UNSPEC else s).
Definition STRATUM_TO_PKT (s : Z) : Z := u8 (if s =? STRATUM_UNSPEC then 0 else s).

(** ** Constants of ntp.h *)

Definition NTP_PORT : Z := 123.
Definition NTP_VERSION : Z := 4.
Definition NTP_OLDVERSION : Z := 1.
Definition NTP_UNREACH : Z := 10.
Definition NTP_MINPOLL : Z := 3.
Definition NTP_MINDPOLL : Z := 6.
Definition NTP_MAXDPOLL : Z := 10.
Definition NTP_MAXPOLL : Z := 17.
Definition NTP_RETRY : Z := 3.
Definition NTP_IBURST : Z := 6.
Definition RESP_DELAY : Z := 1.
Definition NTP_SHIFT : Z := 8.
Definition NTP_HASH_MASK : Z := 127.
Definition MAXDISPERSE : double := dofZ 16.
Definition NTP_FWEIGHT : double := dlit 5 1.
Definition CLOCK_SGATE : double := dofZ 3.
Definition LEN_PKT_NOMAC : Z := 48.
Definition MIN_MAC_LEN : Z := 4.
Definition MAX_MAC_LEN : Z := 24.

Definition LEAP_NOWARNING : Z := 0.
Definition LEAP_ADDSECOND : Z := 1.
Definition LEAP_NOTINSYNC : Z := 3.

Definition MODE_UNSPEC : Z := 0.
Definition MODE_ACTIVE : Z := 1.
Definition MODE_PASSIVE : Z := 2.
Definition MODE_CLIENT : Z := 3.
Definition MODE_SERVER : Z := 4.
Definition MODE_BROADCAST : Z := 5.
Definition MODE_CONTROL : Z := 6.
Definition MODE_PRIVATE : Z := 7.
Definition MODE_BCLIENT : Z := 6.

Definition FLAG_CONFIG : Z := 0x0001.
Definition FLAG_PREEMPT : Z := 0x0002.
Definition FLAG_AUTHENTIC : Z := 0x0004.
Definition FLAG_REFCLOCK : Z := 0x0008.
Definition FLAG_BC_VOL : Z := 0x0010.
Definition FLAG_PREFER : Z := 0x0020.
Definition FLAG_BURST : Z := 0x0040.
Definition FLAG_PPS : Z := 0x0080.
Definition FLAG_IBURST : Z := 0x0100.
Definition FLAG_NOSELECT : Z := 0x0200.
Definition FLAG_TRUE : Z := 0x0400.
Definition FLAG_XLEAVE : Z := 0x1000.
Definition FLAG_XB : Z := 0x2000.
Definition FLAG_XBOGUS : Z := 0x4000.

Definition TEST1 : Z := 0x0001.
Definition TEST2 : Z := 0x0002.
Definition TEST3 : Z := 0x0004.
Definition TEST5 : Z := 0x0010.
Definition TEST6 : Z := 0x0020.
Definition TEST7 : Z := 0x0040.
Definition PKT_TEST_MASK : Z := 0x01ff.
Definition TEST10 : Z := 0x0200.
Definition TEST11 : Z := 0x0400.
Definition TEST12 : Z := 0x0800.
Definition TEST13 : Z := 0x1000.
Definition PEER_TEST_MASK : Z := 0x1e00.

Definition MDF_UCAST : Z := 0x01.
Definition MDF_MCAST : Z := 0x02.
Definition MDF_BCAST : Z := 0x04.
Definition MDF_POOL : Z := 0x08.
Definition MDF_ACAST : Z := 0x10.
Definition MDF_BCLNT : Z := 0x20.
Definition MDF_UCLNT : Z := 0x40.
Definition MDF_TXONLY_MASK : Z := 0x1e.
Definition MDF_SOLICIT_MASK : Z := 0x18.

Definition INT_MCASTOPEN : Z := 0x040.
Definition INT_WILDCARD : Z := 0x080.
Definition INT_MCASTIF : Z := 0x100.

Definition RES_IGNORE : Z := 0x0001.
Definition RES_DONTSERVE : Z := 0x0002.
Definition RES_DONTTRUST : Z := 0x0004.
Definition RES_VERSION : Z := 0x0008.
Definition RES_NOPEER : Z := 0x0010.
Definition RES_LIMITED : Z := 0x0020.
Definition RES_NOQUERY : Z := 0x0040.
Definition RES_NOMODIFY : Z := 0x0080.
Definition RES_KOD : Z := 0x0400.
Definition RES_MSSNTP : Z := 0x0800.
Definition RES_FLAKE : Z := 0x1000.

Definition RESM_INTERFACE : Z := 0x1000.
Definition RESM_NTPONLY : Z := 0x2000.
Definition RESTRICT_FLAGS : Z := 1.
Definition RESTRICT_UNFLAG : Z := 2.
Definition RESTRICT_REMOVE : Z := 3.
Definition RESTRICT_REMOVEIF : Z := 4.

Definition MON_OFF : Z := 0x00.
Definition MON_ON : Z := 0x01.
Definition MON_RES : Z := 0x02.

Definition AM_ERR : Z := -1.
Definition AM_NOMATCH : Z := 0.
Definition AM_PROCPKT : Z := 1.
Definition AM_FXMIT : Z := 3.
Definition AM_MANYCAST : Z := 4.
Definition AM_NEWPASS : Z := 5.
Definition AM_NEWBCL : Z := 6.

Definition CTL_PST_SEL_REJECT : Z := 0.
Definition CTL_PST_SEL_SANE : Z := 1.
Definition CTL_PST_SEL_SELCAND : Z := 3.
Definition CTL_PST_SEL_SYNCCAND : Z := 4.
Definition CTL_PST_SEL_EXCESS : Z := 5.
Definition CTL_PST_SEL_SYSPEER : Z := 6.
Definition CTL_PST_SEL_PPS : Z := 7.

Definition REFCLK_LOCALCLOCK : Z := 1.
Definition REFCLK_ACTS : Z := 18.
Definition REFCLK_ATOM_PPS : Z := 22.

(** Does [x] have a bit of [m] set, and [x &= ~m]. *)
Definition has (x m : Z) : bool := nonzero (x .& m).
Definition clr (x m : Z) : Z := Z.land x (Z.lnot m).

(** A one-bit mask tests that bit. *)
Lemma has_bit x n : 0 <= n -> has x (2 ^ n) = Z.testbit x n.
Proof.
  intros Hn. unfold has, nonzero.
  assert (E : x .& 2 ^ n = if Z.testbit x n then 2 ^ n else 0).
  { apply Z.bits_inj'. intros i Hi. rewrite Z.land_spec, Z.pow2_bits_eqb by lia.
    destruct (Z.eqb_spec n i) as [-> | Hne].
    - rewrite andb_true_r. destruct (Z.testbit x i) eqn:E; [| now rewrite Z.bits_0].
      now rewrite Z.pow2_bits_true.
    - rewrite andb_false_r. destruct (Z.testbit x n); [now rewrite Z.pow2_bits_false by lia |].
      now rewrite Z.bits_0. }
  rewrite E. destruct (Z.testbit x n); [| done].
  destruct (Z.eqb_spec (2 ^ n) 0) as [H |]; [| done]. pose proof (Z.pow_pos_nonneg 2 n). lia.
Qed.

(** Bits of [x &= ~m] in a [w]-bit object. *)
Lemma clr_bit x m w n : 0 <= n < w ->
  Z.testbit (wrap w (clr x m)) n = Z.testbit x n && negb (Z.testbit m n).
Proof.
  intros H. unfold wrap, clr. rewrite Z.mod_pow2_bits_low by lia.
  now rewrite Z.land_spec, Z.lnot_spec by lia.
Qed.

(** ** The header codec *)

Definition pkt_wf (p : pkt) : Prop :=
  is_u8 (pk_li_vn_mode p) /\ is_u8 (pk_stratum p) /\ is_u8 (pk_ppoll p) /\
  - 128 <= pk_precision p < 128 /\
  is_u32 (pk_rootdelay p) /\ is_u32 (pk_rootdisp p) /\ is_u32 (pk_refid p) /\
  lfp_wf (pk_reftime p) /\ lfp_wf (pk_org p) /\ lfp_wf (pk_rec p) /\ lfp_wf (pk_xmt p).

Lemma be_val_be32 x : is_u32 x -> be_val (be32 x) = x.
Proof.
  intros H. unfold be_val, be32, be_bytes. cbn [fold_left Z.of_nat Z.mul Pos.of_succ_nat Pos.succ].
  change 255 with (2 ^ 8 - 1). rewrite !land_ones_mod, !Z.shiftr_div_pow2 by lia.
  unfold_ranges. cbn. divlia.
Qed.

Lemma s8_u8 x : - 128 <= x < 128 -> s8 (u8 x) = x.
Proof. intros H. unfold_widths. divlia. Qed.

(** The packet header codec is a round trip: a header written to a
    datagram in network byte order, whatever follows it, reads back as the
    same header. *)
Theorem pkt_roundtrip (p : pkt) (rest : list Z) :
  pkt_wf p -> pkt_of_bytes (pkt_bytes p ++ rest) = p.
Proof.
  destruct p as [lvm st pp pr rdl rds rid [r0 r1] [o0 o1] [c0 c1] [x0 x1]].
  unfold pkt_wf, lfp_wf. cbn. intros H. destruct_and?.
  unfold pkt_of_bytes, word_at, lfp_at, word_at, pkt_bytes, byte_at.
  cbn [app nth]. rewrite !u8_small, s8_u8 by done.
  f_equal; repeat f_equal; try (etransitivity; [| apply be_val_be32; eassumption]; reflexivity).
Qed.

Lemma pkt_roundtrip_witness :
  let p := mk_pkt 0x24 2 6 (-20) 0x1234 0x5678 0x7f000001 (mk_lfp 1 2) (mk_lfp 3 4)
             (mk_lfp 5 6) (mk_lfp 7 8) in
  pkt_of_bytes (pkt_bytes p ++ [1; 2]) = p.
Proof. cbv zeta. apply pkt_roundtrip. repeat split; cbn; lia. Defined.
