(* ===== verification/RecvBuff.v ===== *)
(** * The receive buffers (libntp/recvbuff.c, the FIFO of include/ntp_lists.h)

    The pool of buffers between the sockets and the main loop: the free list,
    the queue of received packets with its indirect tail pointer, and the
    routines of ntpd/ntp_io.c, ntpd/ntp_refclock.c and ntpd/ntpd.c that move
    a buffer between them.  The two lists share the [link] field of the
    buffers, so the store and the pointers are explicit; [None] is a read
    through a null or wild pointer, a failed assertion or an [abort()].  The
    build is one without DEBUG, so that an unlinked buffer keeps its link, and
    without time stamps from the kernel. *)

From S2P Require Import Prelude FixedPoint Double NtpTypes.
From stdpp Require Import base gmap list.
#[local] Open Scope Z_scope.

(** ** Data *)

(** What a buffer's [receiver] points to: the protocol's [receive] or the
    routine of a reference clock driver. *)
Inductive callback := CbReceive | CbClock (driver : Z).

(** [struct recvbuf]: [rb] holds what a datagram fills in. *)
Record buf := mk_buf { link : option Z; rb : recvbuf; recv_peer : Z; receiver : option callback; used : Z }.
#[export] Instance eta_buf : Eta buf := fun r => mk_buf (link r) (rb r) (recv_peer r) (receiver r) (used r).

(** The anchor of a FIFO.  [pptail] is the address of the pointer to the last
    entry, which is in the anchor or in the entry before. *)
Inductive pslot := Phead | Nextlink (p : Z).
#[export] Instance slot_eq_dec : EqDecision pslot.
Proof. solve_decision. Defined.
Record fifo := mk_fifo { phead : option Z; pptail : option pslot }.

(** The statics of recvbuff.c; [brk] is where the next allocation starts. *)
Record pool := mk_pool {
  bufs : gmap Z buf; brk : Z; full_recv_fifo : fifo; free_recv_list : option Z;
  full_recvbufs : Z; free_recvbufs : Z; total_recvbufs : Z; lowater_adds : Z; buffer_shortfall : Z }.
#[export] Instance eta_pool : Eta pool := fun r =>
  mk_pool (bufs r) (brk r) (full_recv_fifo r) (free_recv_list r) (full_recvbufs r) (free_recvbufs r)
    (total_recvbufs r) (lowater_adds r) (buffer_shortfall r).

Definition RX_BUFF_SIZE : Z := 1000.
Definition RECV_INIT : Z := 10.
Definition RECV_INC : Z := 5.

Definition empty_rb : recvbuf :=
  mk_recvbuf (mk_sockaddr 0 0 0 0) 0 0 L_CLR 0 (repeat 0 (Z.to_nat RX_BUFF_SIZE)).
Definition zero_buf : buf := mk_buf None empty_rb 0 None 0.

(** A store to a field of the buffer at [p]. *)
Definition upd_buf (p : Z) (f : buf -> buf) (s : pool) : option pool :=
  b ← bufs s !! p; Some (s <| bufs := <[p := f b]> (bufs s) |>).
Definition set_link (p : Z) (v : option Z) : pool -> option pool := upd_buf p (fun b => b <| link := v |>).
Definition link_of (p : Z) (s : pool) : option (option Z) := link <$> bufs s !! p.

(** The pointer a slot holds, and a store to it. *)
Definition slot_val (x : pslot) (s : pool) : option (option Z) :=
  match x with Phead => Some (phead (full_recv_fifo s)) | Nextlink p => link_of p s end.
Definition set_slot (x : pslot) (v : option Z) (s : pool) : option pool :=
  match x with
  | Phead => Some (s <| full_recv_fifo := mk_fifo v (pptail (full_recv_fifo s)) |>)
  | Nextlink p => set_link p v s
  end.
Definition set_tail (x : option pslot) (s : pool) : pool :=
  s <| full_recv_fifo := mk_fifo (phead (full_recv_fifo s)) x |>.

(** ** The macros of ntp_lists.h *)

(** [LINK_SLIST] and [UNLINK_HEAD_SLIST] on the free list. *)
Definition LINK_SLIST (p : Z) (s : pool) : option pool :=
  s ← set_link p (free_recv_list s) s; Some (s <| free_recv_list := Some p |>).
Definition UNLINK_HEAD_SLIST (s : pool) : option (option Z * pool) :=
  match free_recv_list s with
  | None => Some (None, s)
  | Some p => l ← link_of p s; Some (Some p, s <| free_recv_list := l |>)
  end.

Definition LINK_FIFO (p : Z) (s : pool) : option pool :=
  s ← set_link p None s;
  match pptail (full_recv_fifo s) with
  | Some x =>
      v ← slot_val x s; q ← v; s ← set_link q (Some p) s;
      v ← slot_val x s; q ← v; Some (set_tail (Some (Nextlink q)) s)
  | None => Some (s <| full_recv_fifo := mk_fifo (Some p) (Some Phead) |>)
  end.

(** The tail pointer once [p] has left the slot [x], which now holds [v]. *)
Definition fix_tail (p : Z) (v : option Z) (s : pool) : pool :=
  match v with
  | None => set_tail None s
  | Some _ => if bool_decide (pptail (full_recv_fifo s) = Some (Nextlink p)) then set_tail (Some Phead) s else s
  end.

Definition UNLINK_FIFO (s : pool) : option (option Z * pool) :=
  match phead (full_recv_fifo s) with
  | None => Some (None, s)
  | Some p => v ← link_of p s; s ← set_slot Phead v s; Some (Some p, fix_tail p v s)
  end.

(** The search of [UNLINK_MID_FIFO]: [None] is a null [*ppentry], [Some None]
    the end of the list. *)
Fixpoint find_slot (fuel : nat) (p : Z) (x : pslot) (s : pool) : option (option pslot) :=
  v ← slot_val x s; q ← v;
  if q =? p then Some (Some x)
  else l ← link_of q s;
       match l, fuel with
       | None, _ => Some None
       | Some _, S fuel => find_slot fuel p (Nextlink q) s
       | Some _, O => None
       end.

Definition UNLINK_MID_FIFO (p : Z) (s : pool) : option (option Z * pool) :=
  found ← find_slot (size (bufs s)) p Phead s;
  match found with
  | None => Some (None, s)
  | Some x => v ← link_of p s; s ← set_slot x v s; Some (Some p, fix_tail p v s)
  end.

(** ** recvbuff.c *)

(** [create_buffers]: one allocation, linked entry after entry. *)
Fixpoint link_buffers (n : nat) (s : pool) : option pool :=
  match n with
  | O => Some s
  | S n =>
      let p := brk s in
      s ← LINK_SLIST p (s <| bufs := <[p := zero_buf]> (bufs s) |> <| brk := p + 1 |>);
      link_buffers n (s <| free_recvbufs := u64 (free_recvbufs s + 1) |> <| total_recvbufs := u64 (total_recvbufs s + 1) |>)
  end.
Definition create_buffers (nbufs : Z) (s : pool) : option pool :=
  let abuf := s32 (nbufs + buffer_shortfall s) in
  s ← link_buffers (Z.to_nat abuf) (s <| buffer_shortfall := 0 |>);
  Some (s <| lowater_adds := u64 (lowater_adds s + 1) |>).

Definition init_recvbuff (nbufs : Z) (s : pool) : option pool :=
  create_buffers nbufs
    (s <| free_recvbufs := 0 |> <| total_recvbufs := 0 |> <| full_recvbufs := 0 |> <| lowater_adds := 0 |>).

(** The statics at the start of the program. *)
Definition boot : pool := mk_pool ∅ 1 (mk_fifo None None) None 0 0 0 0 0.

Definition freerecvbuf (p : option Z) (s : pool) : option pool :=
  match p with
  | None => Some s
  | Some p =>
      s ← upd_buf p (fun b => b <| used := s32 (used b - 1) |>) s;
      s ← LINK_SLIST p s; Some (s <| free_recvbufs := u64 (free_recvbufs s + 1) |>)
  end.

Definition add_full_recv_buffer (p : option Z) (s : pool) : option pool :=
  match p with
  | None => Some s
  | Some p => s ← LINK_FIFO p s; Some (s <| full_recvbufs := u64 (full_recvbufs s + 1) |>)
  end.

Definition get_free_recv_buffer (s : pool) : option (option Z * pool) :=
  '(p, s) ← UNLINK_HEAD_SLIST s;
  match p with
  | Some p =>
      s ← upd_buf p (fun _ => zero_buf <| used := 1 |>) (s <| free_recvbufs := u64 (free_recvbufs s - 1) |>);
      Some (Some p, s)
  | None => Some (None, s <| buffer_shortfall := u64 (buffer_shortfall s + 1) |>)
  end.

(** [get_full_recv_buffer]; [sigio] is [HAVE_SIGNALED_IO]. *)
Definition get_full_recv_buffer (sigio : bool) (s : pool) : option (option Z * pool) :=
  s ← (if sigio && (bool_decide (free_recv_list s = None) || (0 <? buffer_shortfall s)) then create_buffers RECV_INC s
       else Some s);
  '(p, s) ← UNLINK_FIFO s;
  Some (p, match p with Some _ => s <| full_recvbufs := u64 (full_recvbufs s - 1) |> | None => s end).

(** [purge_recv_buffers_for_fd]: the loop reads the link before it unlinks. *)
Fixpoint purge_loop (fuel : nat) (fd : Z) (p : option Z) (s : pool) : option pool :=
  match p with
  | None => Some s
  | Some p =>
      b ← bufs s !! p;
      s ← (if rb_fd (rb b) =? fd then
             '(u, s) ← UNLINK_MID_FIFO p s;
             if bool_decide (u = Some p) then freerecvbuf (Some p) (s <| full_recvbufs := u64 (full_recvbufs s - 1) |>)
             else None
           else Some s);
      match fuel with S fuel => purge_loop fuel fd (link b) s | O => None end
  end.
Definition purge_recv_buffers_for_fd (fd : Z) (s : pool) : option pool :=
  purge_loop (size (bufs s)) fd (phead (full_recv_fifo s)) s.

Definition has_full_recv_buffer (s : pool) : bool := negb (bool_decide (phead (full_recv_fifo s) = None)).

(** ** Input: ntp_io.c, ntp_refclock.c *)

(** What a read returns: the data with where it came from, or an error. *)
Inductive received := Data (from : sockaddr) (data : list Z) | Failed.

(** The counters of ntp_io.c; [if_received] counts by endpoint and
    [rio_received] by reference clock. *)
Record io := mk_io {
  io_pool : pool; packets_received : Z; packets_dropped : Z; packets_ignored : Z;
  if_received : gmap Z Z; rio_received : gmap Z Z }.
#[export] Instance eta_io : Eta io := fun r =>
  mk_io (io_pool r) (packets_received r) (packets_dropped r) (packets_ignored r) (if_received r) (rio_received r).

Definition bump (k : Z) (m : gmap Z Z) : gmap Z Z := <[k := u64 (default 0 (m !! k) + 1)]> m.
Definition data_len (r : received) : Z := match r with Data _ d => Z.of_nat (length d) | Failed => -1 end.

(** The data as a read of at most [n] octets leaves it in a cleared buffer. *)
Definition read_into (n : Z) (d : list Z) : list Z :=
  take (Z.to_nat n) d ++ drop (length (take (Z.to_nat n) d)) (rb_bytes empty_rb).

(** The buffer a datagram makes. *)
Definition network_rb (fd itf : Z) (ts : l_fp) (from : sockaddr) (d : list Z) : recvbuf :=
  mk_recvbuf from itf fd ts (Z.min RX_BUFF_SIZE (Z.of_nat (length d))) (read_into RX_BUFF_SIZE d).

(** [read_network_packet] on the endpoint [itf]; [ignore] is its
    [ignore_packets] and [got] what [recvfrom] returns. *)
Definition read_network_packet (fd itf : Z) (ignore : bool) (ts : l_fp) (got : received) (w : io) : option (Z * io) :=
  '(p, s) ← get_free_recv_buffer (io_pool w);
  let buflen := Z.min RX_BUFF_SIZE (data_len got) in
  match p, ignore with
  | None, _ | _, true =>
      s ← freerecvbuf p s;
      let w := w <| io_pool := s |> in
      Some (buflen, if ignore then w <| packets_ignored := u64 (packets_ignored w + 1) |>
                    else w <| packets_dropped := u64 (packets_dropped w + 1) |>)
  | Some p, false =>
      match got with
      | Failed | Data _ [] => s ← freerecvbuf (Some p) s; Some (buflen, w <| io_pool := s |>)
      | Data from d =>
          s ← upd_buf p (fun b => b <| rb := network_rb fd itf ts from d |> <| receiver := Some CbReceive |>) s;
          s ← add_full_recv_buffer (Some p) s;
          Some (buflen, w <| io_pool := s |> <| if_received := bump itf (if_received w) |>
                          <| packets_received := u64 (packets_received w + 1) |>)
      end
  end.

(** [struct refclockio]: [io_input] tells whether the driver consumes the
    data at once. *)
Record refclockio := mk_rio {
  rio_id : Z; srcclock : Z; datalen : Z; rio_fd : Z; clock_recv : option callback; io_input : option (recvbuf -> bool) }.

Definition indicate_refclock_packet (rp : refclockio) (p : Z) (s : pool) : option (bool * pool) :=
  b ← bufs s !! p;
  if match io_input rp with Some f => f (rb b) | None => false end
  then s ← freerecvbuf (Some p) s; Some (true, s)
  else s ← add_full_recv_buffer (Some p) s; Some (false, s).

Definition clock_rb (fd : Z) (n : Z) (ts : l_fp) (d : list Z) : recvbuf :=
  mk_recvbuf (mk_sockaddr 0 0 0 0) 0 fd ts (Z.min n (Z.of_nat (length d))) (read_into n d).

(** [read_refclock_packet]; [got] is the first read that is not interrupted. *)
Definition read_refclock_packet (fd : Z) (rp : refclockio) (ts : l_fp) (got : received) (w : io) : option (Z * io) :=
  '(p, s) ← get_free_recv_buffer (io_pool w);
  match p with
  | None => Some (Z.min RX_BUFF_SIZE (data_len got), w <| io_pool := s |> <| packets_dropped := u64 (packets_dropped w + 1) |>)
  | Some p =>
      let i := if (datalen rp =? 0) || (RX_BUFF_SIZE <? datalen rp) then RX_BUFF_SIZE else datalen rp in
      let buflen := Z.min i (data_len got) in
      match got with
      | Failed | Data _ [] => s ← freerecvbuf (Some p) s; Some (buflen, w <| io_pool := s |>)
      | Data _ d =>
          s ← upd_buf p (fun b => b <| rb := clock_rb fd i ts d |> <| recv_peer := srcclock rp |>
                                    <| receiver := clock_recv rp |>) s;
          '(consumed, s) ← indicate_refclock_packet rp p s;
          let w := w <| io_pool := s |> in
          Some (buflen, if (consumed : bool) then w
                        else w <| rio_received := bump (rio_id rp) (rio_received w) |>
                               <| packets_received := u64 (packets_received w + 1) |>)
      end
  end.

(** ** The main loop: ntpd.c *)

Section MainLoop.
Context {W : Type} (sigio : bool) (call : callback -> recvbuf -> W -> W) (timer : W -> W).

(** The loop over the received packets.  [alarms] tells, turn by turn,
    whether the alarm has gone off; [was] is [was_alarmed]. *)
Fixpoint received_loop (fuel : nat) (alarms : list bool) (was : bool) (s : pool) (w : W) : option (bool * pool * W) :=
  '(p, s) ← get_full_recv_buffer sigio s;
  match p, fuel with
  | None, _ => Some (was, s, w)
  | Some _, O => None
  | Some p, S fuel =>
      let w := if was || hd false alarms then timer w else w in
      b ← bufs s !! p; cb ← receiver b;
      let w := call cb (rb b) w in
      s ← freerecvbuf (Some p) s;
      received_loop fuel (tl alarms) false s w
  end.
End MainLoop.
