(* ===== verification/RecvBuffFacts.v ===== *)
(** * The receive buffers: facts about RecvBuff.v

    The store of linked buffers refines an abstract pool: a stack of free
    buffers, a queue of packets and the buffers in the hands of a routine.
    On top of it, packets read from the network are handed to their receivers
    in the order of their arrival, each once. *)

From S2P Require Import Prelude FixedPoint Double NtpTypes RecvBuff.
From stdpp Require Import base gmap list.
#[local] Open Scope Z_scope.

(** ** Linked lists in the store *)

Fixpoint chain (m : gmap Z buf) (h : option Z) (l : list Z) : Prop :=
  match l with
  | [] => h = None
  | p :: l => h = Some p /\ exists b, m !! p = Some b /\ chain m (link b) l
  end.

(** The slot that points to the last entry of [l], whose first entry [x]
    points to. *)
Fixpoint last_slot (x : pslot) (l : list Z) : pslot :=
  match l with p :: ((_ :: _) as l) => last_slot (Nextlink p) l | _ => x end.
Definition tail_slot (l : list Z) : option pslot :=
  match l with [] => None | _ => Some (last_slot Phead l) end.

Lemma chain_insert m h l p b : p ∉ l -> chain m h l -> chain (<[p := b]> m) h l.
Proof.
  revert h. induction l as [|q l IH]; intros h Hp; cbn; [done |].
  rewrite not_elem_of_cons in Hp. destruct Hp as [? ?]. intros (-> & b0 & E & C). split; [done |].
  exists b0. rewrite lookup_insert_ne by done. auto.
Qed.

(** A store that leaves the link of a buffer alone leaves the lists alone. *)
Lemma chain_same_link m h l p b b' : m !! p = Some b -> link b' = link b -> chain m h l -> chain (<[p := b']> m) h l.
Proof.
  intros Ep El. revert h. induction l as [|q l IH]; intros h; cbn; [done |].
  intros (-> & b0 & E & C). split; [done |]. destruct (decide (q = p)) as [-> | Hn].
  - exists b'. rewrite lookup_insert_eq. split; [done |]. rewrite El. apply IH. congruence.
  - exists b0. rewrite lookup_insert_ne by done. auto.
Qed.

Lemma chain_lookup m h l p : chain m h l -> p ∈ l -> exists b, m !! p = Some b.
Proof.
  revert h. induction l as [|q l IH]; intros h; cbn; [set_solver |].
  intros (_ & b & E & C) [-> | H]%elem_of_cons; eauto.
Qed.

Lemma chain_snoc m h l q b p b' :
  chain m h (l ++ [q]) -> q ∉ l -> m !! q = Some b -> p ∉ l ++ [q] -> m !! p = Some b' -> link b' = None ->
  chain (<[q := b <| link := Some p |>]> m) h (l ++ [q; p]).
Proof.
  intros C Hq Eq Hp Ep El. revert h C. induction l as [|x l IH]; intros h; cbn.
  - intros (-> & b0 & E & _). split; [done |]. rewrite lookup_insert_eq. eexists. split; [done |]. split; [done |].
    exists b'. rewrite lookup_insert_ne by set_solver. auto.
  - intros (-> & b0 & E & C). split; [done |]. exists b0. rewrite lookup_insert_ne by set_solver.
    split; [done |]. apply IH; set_solver.
Qed.

Lemma last_slot_snoc x l q p : last_slot x (l ++ [q; p]) = Nextlink q.
Proof. revert x. induction l as [|y [|z l] IH]; intros x; cbn; [done | done |]. apply (IH (Nextlink y)). Qed.

Lemma last_slot_in x l p : last_slot x (l ++ [p]) = x \/ exists q, last_slot x (l ++ [p]) = Nextlink q /\ q ∈ l.
Proof.
  destruct l as [|y l] using rev_ind; [now left |]. right. exists y. rewrite <- app_assoc. cbn.
  rewrite last_slot_snoc. split; [done | set_solver].
Qed.

Lemma last_slot_val s x h l p :
  slot_val x s = Some h -> chain (bufs s) h (l ++ [p]) -> slot_val (last_slot x (l ++ [p])) s = Some (Some p).
Proof.
  revert x h. induction l as [|y l IH]; intros x h Ex C; cbn in C.
  - destruct C as (-> & _). exact Ex.
  - destruct C as (-> & b & E & C). destruct l as [|z l].
    + cbn in C |- *. destruct C as (C & _). unfold link_of. now rewrite E, <- C.
    + apply (IH (Nextlink y) (link b)); [| done]. cbn. unfold link_of. now rewrite E.
Qed.

(** ** The abstract pool *)

Abbreviation entry := (recvbuf * Z * option callback)%type.
Definition entry_of (b : buf) : entry := (rb b, recv_peer b, receiver b).
Definition blank : entry := entry_of zero_buf.

Record apool := mk_apool { a_free : list Z; a_queue : list (Z * entry); a_held : gmap Z entry }.

(** What a routine does with the pool. *)
Inductive pool_op := GetFree | Fill (p : Z) (e : entry) | AddFull (p : Z) | GetFull | Release (p : Z).

Definition fill (e : entry) (b : buf) : buf :=
  let '(r, pr, cb) := e in b <| rb := r |> <| recv_peer := pr |> <| receiver := cb |>.
Definition run_pool_op (sigio : bool) (o : pool_op) (s : pool) : option (option Z * pool) :=
  match o with
  | GetFree => get_free_recv_buffer s
  | Fill p e => s ← upd_buf p (fill e) s; Some (None, s)
  | AddFull p => s ← add_full_recv_buffer (Some p) s; Some (None, s)
  | GetFull => get_full_recv_buffer sigio s
  | Release p => s ← freerecvbuf (Some p) s; Some (None, s)
  end.

(** The operations keep to the buffers they hold. *)
Definition legal (a : apool) (o : pool_op) : Prop :=
  match o with GetFree | GetFull => True | Fill p _ | AddFull p | Release p => is_Some (a_held a !! p) end.

Inductive astep : apool -> pool_op -> option Z -> apool -> Prop :=
| A_take p fr q h : astep (mk_apool (p :: fr) q h) GetFree (Some p) (mk_apool fr q (<[p := blank]> h))
| A_out q h : astep (mk_apool [] q h) GetFree None (mk_apool [] q h)
| A_fill p e fr q h : astep (mk_apool fr q h) (Fill p e) None (mk_apool fr q (<[p := e]> h))
| A_add p e fr q h : h !! p = Some e -> astep (mk_apool fr q h) (AddFull p) None (mk_apool fr (q ++ [(p, e)]) (delete p h))
| A_get p e more fr q h : astep (mk_apool fr ((p, e) :: q) h) GetFull (Some p) (mk_apool (more ++ fr) q (<[p := e]> h))
| A_idle more fr h : astep (mk_apool fr [] h) GetFull None (mk_apool (more ++ fr) [] h)
| A_release p fr q h : astep (mk_apool fr q h) (Release p) None (mk_apool (p :: fr) q (delete p h)).

(** ** The relation *)

Definition holds_entry (s : pool) (n : Z) (p : Z) (e : entry) : Prop :=
  exists b, bufs s !! p = Some b /\ used b = n /\ entry_of b = e.

Record rel (s : pool) (a : apool) : Prop := {
  r_free : chain (bufs s) (free_recv_list s) (a_free a);
  r_full : chain (bufs s) (phead (full_recv_fifo s)) (a_queue a).*1;
  r_tail : pptail (full_recv_fifo s) = tail_slot (a_queue a).*1;
  r_nodup : NoDup (a_free a ++ (a_queue a).*1);
  r_apart : forall p, p ∈ a_free a ++ (a_queue a).*1 -> a_held a !! p = None;
  r_all : forall p b, bufs s !! p = Some b -> p < brk s /\ (p ∈ a_free a ++ (a_queue a).*1 \/ is_Some (a_held a !! p));
  r_unused : forall p b, p ∈ a_free a -> bufs s !! p = Some b -> used b = 0;
  r_queue : forall p e, (p, e) ∈ a_queue a -> holds_entry s 1 p e;
  r_held : forall p e, a_held a !! p = Some e -> holds_entry s 1 p e;
  r_nfree : free_recvbufs s = u64 (Z.of_nat (length (a_free a)));
  r_nfull : full_recvbufs s = u64 (Z.of_nat (length (a_queue a)));
  r_total : total_recvbufs s = u64 (Z.of_nat (size (bufs s))) }.

(** ** The operations *)

Lemma u64_step x d : u64 (u64 x + d) = u64 (x + d).
Proof. unfold u64, wrap. now rewrite Zplus_mod_idemp_l. Qed.
Lemma u64_back x d : u64 (u64 x - d) = u64 (x - d).
Proof. unfold u64, wrap. now rewrite Zminus_mod_idemp_l. Qed.

Lemma size_insert_in (m : gmap Z buf) p b b' : m !! p = Some b -> size (<[p := b']> m) = size m.
Proof. intros E. now rewrite map_size_insert_Some. Qed.

Lemma has_insert_ne s n p e q b : p <> q -> holds_entry s n p e -> holds_entry ((s <| bufs := <[q := b]> (bufs s) |>) : pool) n p e.
Proof. intros Hn (b0 & E & ?). exists b0. cbn. rewrite lookup_insert_ne by done. auto. Qed.

Lemma queue_fst (q : list (Z * entry)) p : p ∈ q.*1 <-> exists e, (p, e) ∈ q.
Proof.
  rewrite list_elem_of_fmap. split; [intros ([p' e] & -> & H); eauto | intros [e H]; exists (p, e); auto].
Qed.

(** A buffer in one part is in no other. *)
Lemma held_apart s a p e : rel s a -> a_held a !! p = Some e -> (p ∉ a_free a) /\ (p ∉ (a_queue a).*1).
Proof.
  intros R H. split; intros Hp; pose proof (r_apart _ _ R p ltac:(set_solver)); congruence.
Qed.

Lemma get_free_spec s a :
  rel s a -> exists r s' a', get_free_recv_buffer s = Some (r, s') /\ astep a GetFree r a' /\ rel s' a'.
Proof.
  intros R. destruct a as [fr q h]. pose proof (r_free _ _ R) as C. cbn in C.
  unfold get_free_recv_buffer, UNLINK_HEAD_SLIST. destruct fr as [|p fr].
  - cbn in C. rewrite C. cbn. do 3 eexists. split; [done |]. split; [constructor |]. destruct R. now constructor.
  - destruct C as (Ef & b & E & C). rewrite Ef. cbn. unfold link_of. rewrite E. cbn. unfold upd_buf. cbn. rewrite E. cbn.
    do 3 eexists. split; [done |]. split; [constructor |].
    pose proof (r_nodup _ _ R) as N. cbn in N. apply NoDup_cons in N as [Np N].
    assert (Hh : h !! p = None) by (apply (r_apart _ _ R); cbn; set_solver).
    destruct R as [_ R2 R3 _ R5 R6 R7 R8 R9 R10 R11 R12]; cbn in *. constructor; cbn; try done.
    + apply chain_insert; [set_solver | done].
    + apply chain_insert; [set_solver | done].
    + intros x Hx. rewrite lookup_insert_ne by set_solver. apply R5. set_solver.
    + intros x b1 Hx. destruct (decide (x = p)) as [-> | Hn].
      * split; [eapply R6; eauto |]. right. rewrite lookup_insert_eq. eauto.
      * rewrite lookup_insert_ne in Hx by done. rewrite (lookup_insert_ne h) by done.
        destruct (R6 x b1 Hx) as [? [?|?]]; split; auto. left. set_solver.
    + intros x b1 Hx. rewrite lookup_insert_ne by set_solver. apply R7. set_solver.
    + intros x e Hx. apply (has_insert_ne s); [| auto]. intros ->. apply Np. rewrite elem_of_app, queue_fst. eauto.
    + intros x e. destruct (decide (x = p)) as [-> | Hn].
      * rewrite lookup_insert_eq. intros [= <-]. eexists. cbn. rewrite lookup_insert_eq. done.
      * rewrite lookup_insert_ne by done. intros Hx. apply (has_insert_ne s); auto.
    + rewrite R10, u64_back. f_equal. lia.
    + rewrite size_insert_in with (b := b) by done. done.
Qed.

(** A store to the contents of a held buffer. *)
Lemma store_spec s a p e0 e f :
  rel s a -> a_held a !! p = Some e0 ->
  (forall b, entry_of b = e0 -> link (f b) = link b /\ used (f b) = used b /\ entry_of (f b) = e) ->
  exists s', upd_buf p f s = Some s' /\ rel s' (mk_apool (a_free a) (a_queue a) (<[p := e]> (a_held a))).
Proof.
  intros R H Hf. destruct (held_apart _ _ _ _ R H) as [N1 N2]. destruct (r_held _ _ R p e0 H) as (b & E & U & K). destruct (Hf b K) as (L & U' & K').
  destruct a as [fr q h]. unfold upd_buf. rewrite E. cbn. eexists. split; [done |].
  destruct R as [R1 R2 R3 R4 R5 R6 R7 R8 R9 R10 R11 R12]; cbn in *. constructor; cbn; try done.
  - exact (chain_same_link _ _ _ _ _ _ E L R1).
  - exact (chain_same_link _ _ _ _ _ _ E L R2).
  - intros x Hx. rewrite lookup_insert_ne by set_solver. auto.
  - intros x b1 Hx. destruct (decide (x = p)) as [-> | Hn].
    + split; [eapply R6; eauto |]. right. rewrite lookup_insert_eq. eauto.
    + rewrite lookup_insert_ne in Hx by done. rewrite (lookup_insert_ne h) by done. eauto.
  - intros x b1 Hx. rewrite lookup_insert_ne by set_solver. now apply R7.
  - intros x e1 Hx. apply (has_insert_ne s); [| auto]. intros ->. apply N2. rewrite queue_fst. eauto.
  - intros x e1. destruct (decide (x = p)) as [-> | Hn].
    + rewrite lookup_insert_eq. intros [= <-]. exists (f b). cbn. rewrite lookup_insert_eq.
      split; [done |]. split; [congruence | done].
    + rewrite lookup_insert_ne by done. intros Hx. apply (has_insert_ne s); auto.
  - rewrite size_insert_in with (b := b) by done. done.
Qed.

Lemma fill_spec s a p e :
  rel s a -> is_Some (a_held a !! p) ->
  exists s' a', upd_buf p (fill e) s = Some s' /\ astep a (Fill p e) None a' /\ rel s' a'.
Proof.
  intros R [e0 H]. destruct (store_spec s a p e0 e (fill e) R H) as (s' & E & R').
  { intros b _. destruct e as [[? ?] ?]. done. }
  destruct a as [fr q h]. do 2 eexists. split; [exact E |]. split; [constructor | exact R'].
Qed.

Lemma release_spec s a p :
  rel s a -> is_Some (a_held a !! p) ->
  exists s' a', freerecvbuf (Some p) s = Some s' /\ astep a (Release p) None a' /\ rel s' a'.
Proof.
  intros R [e0 H]. destruct (held_apart _ _ _ _ R H) as [N1 N2]. destruct (r_held _ _ R p e0 H) as (b & E & U & _).
  destruct a as [fr q h]. unfold freerecvbuf, LINK_SLIST, set_link, upd_buf. rewrite E. cbn. rewrite lookup_insert_eq. cbn.
  do 2 eexists. split; [done |]. split; [constructor |]. rewrite insert_insert_eq.
  destruct R as [R1 R2 R3 R4 R5 R6 R7 R8 R9 R10 R11 R12]; cbn in *. constructor; cbn; try done.
  - split; [done |]. eexists. rewrite lookup_insert_eq. split; [done |]. now apply chain_insert.
  - now apply chain_insert.
  - apply NoDup_cons. split; [set_solver | done].
  - intros x Hx. destruct (decide (x = p)) as [-> | Hn]; [apply lookup_delete_eq |].
    rewrite lookup_delete_ne by done. apply R5. set_solver.
  - intros x b1 Hx. destruct (decide (x = p)) as [-> | Hn].
    + split; [eapply R6; eauto |]. left. set_solver.
    + rewrite lookup_insert_ne in Hx by done. rewrite lookup_delete_ne by done.
      destruct (R6 x b1 Hx) as [? [?|?]]; split; auto. left. set_solver.
  - intros x b1 Hx. destruct (decide (x = p)) as [-> | Hn].
    + rewrite lookup_insert_eq. intros [= <-]. cbn. now rewrite U.
    + rewrite lookup_insert_ne by done. apply R7. set_solver.
  - intros x e1 Hx. apply (has_insert_ne s); [| auto]. intros ->. apply N2. rewrite queue_fst. eauto.
  - intros x e1 Hx. apply lookup_delete_Some in Hx as [? Hx]. apply (has_insert_ne s); auto.
  - rewrite R10, u64_step. f_equal. lia.
  - rewrite size_insert_in with (b := b) by done. done.
Qed.

(** ** The queue *)

(** What a buffer is without its link: list operations keep it. *)
Definition strip (b : buf) : buf := b <| link := None |>.
Definition relinked (m m' : gmap Z buf) : Prop := strip <$> m' = strip <$> m.

Lemma relinked_lookup m m' p b' :
  relinked m m' -> m' !! p = Some b' -> exists b, m !! p = Some b /\ used b' = used b /\ entry_of b' = entry_of b.
Proof.
  intros Hr E. assert (K : strip <$> m !! p = Some (strip b')).
  { rewrite <- lookup_fmap. unfold relinked in Hr. rewrite <- Hr, lookup_fmap, E. done. }
  destruct (m !! p) as [b|]; [| done]. cbn in K. injection K as E1 E2 E3 E4. exists b. unfold entry_of. split; [done |].
  split; congruence.
Qed.

Lemma relinked_sym m m' : relinked m m' -> relinked m' m.
Proof. unfold relinked. congruence. Qed.

Lemma relinked_insert m p b v : m !! p = Some b -> relinked m (<[p := b <| link := v |>]> m).
Proof.
  intros E. unfold relinked. rewrite fmap_insert. apply insert_id. rewrite lookup_fmap, E. done.
Qed.

Lemma relinked_trans m1 m2 m3 : relinked m1 m2 -> relinked m2 m3 -> relinked m1 m3.
Proof. unfold relinked. congruence. Qed.

Lemma relinked_has s s' n p e : relinked (bufs s) (bufs s') -> holds_entry s n p e -> holds_entry s' n p e.
Proof.
  intros Hr (b & E & U & K). destruct (relinked_lookup _ _ _ _ (relinked_sym _ _ Hr) E) as (b' & E' & U' & K').
  exists b'. split; [done |]. split; congruence.
Qed.

Lemma relinked_size m m' : relinked m m' -> size m' = size m.
Proof. intros Hr. apply (f_equal size) in Hr. now rewrite !map_size_fmap in Hr. Qed.

Lemma chain_ext m m' h l : (forall q, q ∈ l -> m' !! q = m !! q) -> chain m h l -> chain m' h l.
Proof.
  revert h. induction l as [|x l IH]; intros h K; cbn; [done |]. intros (-> & b & E & C). split; [done |].
  exists b. rewrite K by set_solver. split; [done |]. apply IH; [| done]. intros q Hq. apply K. set_solver.
Qed.

Lemma slot_val_other x q b s : x <> Nextlink q -> slot_val x ((s <| bufs := <[q := b]> (bufs s) |>) : pool) = slot_val x s.
Proof.
  destruct x as [|r]; cbn; [done |]. intros Hn. unfold link_of. cbn. rewrite lookup_insert_ne; [done | congruence].
Qed.

Lemma LINK_FIFO_spec s l p b :
  chain (bufs s) (phead (full_recv_fifo s)) l -> pptail (full_recv_fifo s) = tail_slot l -> NoDup l -> p ∉ l ->
  bufs s !! p = Some b ->
  exists m f, LINK_FIFO p s = Some (s <| bufs := m |> <| full_recv_fifo := f |>) /\
    chain m (phead f) (l ++ [p]) /\ pptail f = tail_slot (l ++ [p]) /\ relinked (bufs s) m /\
    (forall q, q ∉ l ++ [p] -> m !! q = bufs s !! q).
Proof.
  intros C T N Hp E. unfold LINK_FIFO, set_link, upd_buf. rewrite E. cbn. set (m1 := <[p := b <| link := None |>]> (bufs s)).
  assert (R1 : relinked (bufs s) m1) by now apply relinked_insert.
  assert (K1 : forall q, q <> p -> m1 !! q = bufs s !! q) by (intros q Hq; unfold m1; now rewrite lookup_insert_ne).
  assert (E1 : m1 !! p = Some (b <| link := None |>)) by apply lookup_insert_eq.
  destruct l as [|x l0 _] using rev_ind.
  - rewrite T. cbn. exists m1, (mk_fifo (Some p) (Some Phead)). split; [done |]. split; [cbn; eauto |].
    split; [done |]. split; [done |]. intros q Hq. apply K1. set_solver.
  - assert (C1 : chain m1 (phead (full_recv_fifo s)) (l0 ++ [x])) by (apply chain_insert; [set_solver | done]).
    assert (Ex : tail_slot (l0 ++ [x]) = Some (last_slot Phead (l0 ++ [x]))) by (unfold tail_slot; destruct l0; done).
    rewrite T, Ex. cbn. set (s1 := s <| bufs := m1 |>). set (y := last_slot Phead (l0 ++ [x])).
    assert (Hv : slot_val y s1 = Some (Some x)) by exact (last_slot_val s1 Phead _ l0 x eq_refl C1).
    change (s <| bufs := m1 |>) with s1. rewrite Hv. cbn.
    destruct (chain_lookup _ _ _ x C1 ltac:(set_solver)) as [bx Ebx]. rewrite Ebx. cbn.
    apply NoDup_app in N as (N0 & Nx & _). assert (Hx : x ∉ l0) by (intros Hx; exact (Nx x Hx ltac:(set_solver))).
    assert (Hy : y <> Nextlink x).
    { destruct (last_slot_in Phead l0 x) as [K | (q & K & Hq)]; fold y in K; rewrite K; [done |]. intros [= ->]. done. }
    rewrite (slot_val_other y x _ s1 Hy), Hv. cbn.
    exists (<[x := bx <| link := Some p |>]> m1), (mk_fifo (phead (full_recv_fifo s)) (Some (Nextlink x))).
    split; [done |]. rewrite <- app_assoc. cbn [app].
    split; [exact (chain_snoc _ _ _ _ _ _ _ C1 Hx Ebx Hp E1 eq_refl) |].
    split; [unfold tail_slot; cbn; destruct l0; cbn; [done |]; f_equal; symmetry; apply (last_slot_snoc Phead (_ :: _)) |].
    split; [eapply relinked_trans; [exact R1 | now apply relinked_insert] |].
    intros q Hq. rewrite lookup_insert_ne by set_solver. apply K1. set_solver.
Qed.

Lemma add_spec s a p :
  rel s a -> is_Some (a_held a !! p) ->
  exists s' a', add_full_recv_buffer (Some p) s = Some s' /\ astep a (AddFull p) None a' /\ rel s' a'.
Proof.
  intros R [e H]. destruct (held_apart _ _ _ _ R H) as [N1 N2]. destruct (r_held _ _ R p e H) as (b & E & U & K).
  pose proof (r_nodup _ _ R) as N. apply NoDup_app in N as (Nf & Nfq & Nq).
  destruct (LINK_FIFO_spec s _ p b (r_full _ _ R) (r_tail _ _ R) Nq N2 E) as (m & f & EL & C & T & Hr & Hm).
  destruct a as [fr q h]. unfold add_full_recv_buffer. rewrite EL. cbn. do 2 eexists. split; [done |].
  split; [exact (A_add p e fr q h H) |]. cbn in *.
  assert (Q : (q ++ [(p, e)]).*1 = q.*1 ++ [p]) by now rewrite fmap_app.
  destruct R as [R1 R2 R3 R4 R5 R6 R7 R8 R9 R10 R11 R12]; cbn in *. constructor; cbn; rewrite ?Q; try done.
  - eapply chain_ext; [| exact R1]. intros x Hx. apply Hm. set_solver.
  - rewrite app_assoc. apply NoDup_app. split; [done |]. split; [| apply NoDup_singleton].
    intros x Hx ->%list_elem_of_singleton. apply elem_of_app in Hx as [?|?]; done.
  - intros x Hx. destruct (decide (x = p)) as [-> | Hn]; [apply lookup_delete_eq |].
    rewrite lookup_delete_ne by done. apply R5. set_solver.
  - intros x b1 Hx. destruct (relinked_lookup _ _ _ _ Hr Hx) as (b0 & E0 & _). destruct (R6 x b0 E0) as [? K0].
    split; [done |]. destruct (decide (x = p)) as [-> | Hn]; [left; set_solver |]. rewrite lookup_delete_ne by done.
    destruct K0; [left; set_solver | now right].
  - intros x b1 Hx Eb. destruct (relinked_lookup _ _ _ _ Hr Eb) as (b0 & E0 & -> & _). eauto.
  - intros x e1 [Hx | Hx]%elem_of_app; [eapply (relinked_has s); [exact Hr | auto] |].
    apply list_elem_of_singleton in Hx as [= -> ->]. eapply (relinked_has s); [exact Hr | now exists b].
  - intros x e1 Hx. apply lookup_delete_Some in Hx as [? Hx]. eapply (relinked_has s); [exact Hr | auto].
  - rewrite R11, u64_step, length_app. f_equal. cbn. lia.
  - rewrite R12. now rewrite (relinked_size _ _ Hr).
Qed.

Lemma last_slot_not x y l : y ∉ l -> x <> Nextlink y -> last_slot x l <> Nextlink y.
Proof.
  revert x. induction l as [|z [|t l] IH]; intros x Hy Hx; cbn; [done | done |].
  apply (IH (Nextlink z)); [set_solver |]. intros [= ->]. set_solver.
Qed.

(** The head leaves a queue of at least one buffer. *)
Lemma UNLINK_FIFO_spec s p l :
  chain (bufs s) (phead (full_recv_fifo s)) (p :: l) -> pptail (full_recv_fifo s) = tail_slot (p :: l) -> p ∉ l ->
  exists f, UNLINK_FIFO s = Some (Some p, s <| full_recv_fifo := f |>) /\
    chain (bufs s) (phead f) l /\ pptail f = tail_slot l.
Proof.
  intros (Eh & b & E & C) T Hp. unfold UNLINK_FIFO. rewrite Eh. unfold link_of. rewrite E. cbn.
  destruct l as [|q l]; cbn in C.
  - rewrite C. exists (mk_fifo None None). done.
  - destruct C as (El & b' & E' & C). rewrite El. cbn. rewrite T. cbn.
    case_bool_decide as D; (eexists; split; [reflexivity |]; cbn; split; [eauto |]).
    + destruct l as [|z l]; [done |]. exfalso. injection D as D.
      apply (last_slot_not (Nextlink q) p (z :: l)) in D; [done | set_solver |]. intros [= ->]. set_solver.
    + destruct l as [|z l]; [cbn in D; congruence | reflexivity].
Qed.

Lemma link_buffers_spec n : forall s a, rel s a ->
  exists s' more, link_buffers n s = Some s' /\ rel s' (mk_apool (more ++ a_free a) (a_queue a) (a_held a)) /\ length more = n.
Proof.
  induction n as [|n IH]; intros s a R; [exists s, []; now destruct a |].
  cbn [link_buffers]. unfold LINK_SLIST, set_link, upd_buf. cbn. rewrite lookup_insert_eq. cbn. rewrite insert_insert_eq.
  set (p := brk s). assert (Hn : bufs s !! p = None).
  { destruct (bufs s !! p) eqn:E; [| done]. apply (r_all _ _ R) in E. lia. }
  assert (Hf : (p ∉ a_free a) /\ (p ∉ (a_queue a).*1)).
  { split; intros H; [destruct (chain_lookup _ _ _ p (r_free _ _ R) H) | destruct (chain_lookup _ _ _ p (r_full _ _ R) H)]; congruence. }
  assert (Hh : a_held a !! p = None).
  { destruct (a_held a !! p) eqn:E; [| done]. apply (r_held _ _ R) in E as (? & ? & _). congruence. }
  match goal with |- exists s' more, link_buffers n ?x = _ /\ _ => set (s1 := x) end.
  destruct (IH s1 (mk_apool (p :: a_free a) (a_queue a) (a_held a))) as (s' & more & E & R' & L); cycle 1.
  { exists s', (more ++ [p]). cbn in R'. rewrite <- app_assoc. split; [exact E |]. split; [exact R' |].
    rewrite length_app. cbn. lia. }
  destruct Hf as [Hf Hq]. destruct R as [R1 R2 R3 R4 R5 R6 R7 R8 R9 R10 R11 R12]; constructor; cbn; try done.
  - split; [done |]. eexists. rewrite lookup_insert_eq. split; [done |]. now apply chain_insert.
  - now apply chain_insert.
  - apply NoDup_cons. split; [set_solver | done].
  - intros x Hx. apply elem_of_cons in Hx as [-> | Hx]; auto.
  - intros x b1 Hx. destruct (decide (x = p)) as [-> | Hx']; [split; [lia | left; set_solver] |].
    rewrite lookup_insert_ne in Hx by done. destruct (R6 x b1 Hx) as [? [?|?]]; (split; [lia |]); [left; set_solver | now right].
  - intros x b1 Hx. destruct (decide (x = p)) as [-> | Hx']; [rewrite lookup_insert_eq; now intros [= <-] |].
    rewrite lookup_insert_ne by done. apply R7. set_solver.
  - intros x e Hx. destruct (R8 x e Hx) as (b & Eb & ?). exists b. cbn. rewrite lookup_insert_ne by congruence. auto.
  - intros x e Hx. destruct (R9 x e Hx) as (b & Eb & ?). exists b. cbn. rewrite lookup_insert_ne by congruence. auto.
  - rewrite R10, u64_step. f_equal. lia.
  - rewrite R12, u64_step, map_size_insert_None by done. f_equal. lia.
Qed.

Lemma create_spec n s a : rel s a ->
  exists s' more, create_buffers n s = Some s' /\ rel s' (mk_apool (more ++ a_free a) (a_queue a) (a_held a)) /\
    length more = Z.to_nat (s32 (n + buffer_shortfall s)) /\ buffer_shortfall s' = 0.
Proof.
  intros R. unfold create_buffers.
  destruct (link_buffers_spec (Z.to_nat (s32 (n + buffer_shortfall s))) (s <| buffer_shortfall := 0 |>) a) as (s' & more & E & R' & L).
  { destruct R. now constructor. }
  rewrite E. cbn. eexists _, more. split; [done |]. split; [destruct R'; now constructor |]. split; [done |]. cbn.
  clear R R'. revert E. generalize (Z.to_nat (s32 (n + buffer_shortfall s))). intros k.
  assert (B : buffer_shortfall (s <| buffer_shortfall := 0 |>) = 0) by done. revert B.
  generalize (s <| buffer_shortfall := 0 |>). clear. induction k as [|k IH]; intros s B; cbn [link_buffers]; [now intros [= <-] |].
  unfold LINK_SLIST, set_link, upd_buf. cbn. rewrite lookup_insert_eq. cbn. apply IH. exact B.
Qed.

Lemma get_full_spec sigio s a : rel s a ->
  exists r s' a', get_full_recv_buffer sigio s = Some (r, s') /\ astep a GetFull r a' /\ rel s' a'.
Proof.
  intros R. unfold get_full_recv_buffer.
  assert (H : exists s1 more, (if sigio && (bool_decide (free_recv_list s = None) || (0 <? buffer_shortfall s))
                               then create_buffers RECV_INC s else Some s) = Some s1 /\
                              rel s1 (mk_apool (more ++ a_free a) (a_queue a) (a_held a))).
  { destruct (sigio && _); [destruct (create_spec RECV_INC s a R) as (s1 & more & ? & ? & _); eauto |].
    exists s, []. now destruct a. }
  destruct H as (s1 & more & -> & R1). clear R. destruct a as [fr q h]. cbn in *.
  destruct q as [|[p e] q].
  - pose proof (r_full _ _ R1) as C. cbn in C. unfold UNLINK_FIFO. rewrite C. cbn. do 3 eexists.
    split; [done |]. split; [apply A_idle |]. exact R1.
  - pose proof (r_nodup _ _ R1) as N. cbn in N. apply NoDup_app in N as (Nf & Nfq & Nq).
    apply NoDup_cons in Nq as [Np Nq].
    destruct (UNLINK_FIFO_spec s1 p q.*1 (r_full _ _ R1) (r_tail _ _ R1) Np) as (f & -> & C & T).
    cbn. do 3 eexists. split; [done |]. split; [apply A_get |].
    assert (Hq : holds_entry s1 1 p e) by (apply (r_queue _ _ R1); cbn; set_solver).
    destruct R1 as [R1 _ _ R4 R5 R6 R7 R8 R9 R10 R11 R12]; cbn in *. constructor; cbn; try done.
    + apply NoDup_app. split; [done |]. split; [| done]. intros x Hx Hx'. apply (Nfq x Hx). set_solver.
    + intros x Hx. rewrite lookup_insert_ne; [apply R5; set_solver |]. intros <-.
      apply elem_of_app in Hx as [Hx | Hx]; [apply (Nfq p Hx); set_solver | done].
    + intros x b Hx. destruct (R6 x b Hx) as [? K]. split; [done |]. destruct (decide (x = p)) as [-> | Hn].
      * right. rewrite lookup_insert_eq. eauto.
      * rewrite lookup_insert_ne by done. destruct K; [left; set_solver | now right].
    + intros x e1 Hx. apply R8. set_solver.
    + intros x e1. destruct (decide (x = p)) as [-> | Hn]; [rewrite lookup_insert_eq; now intros [= <-] |].
      rewrite lookup_insert_ne by done. apply R9.
    + rewrite R11, u64_back. f_equal. lia.
Qed.

(** C17: every operation of the pool does what the abstract pool of free
    buffers, queued packets and held buffers does, for an operation on a
    buffer in hand; it reads through no null pointer, loses no buffer and
    keeps the counters. *)
Theorem recvbuff_refines sigio s a o :
  rel s a -> legal a o ->
  exists r s' a', run_pool_op sigio o s = Some (r, s') /\ astep a o r a' /\ rel s' a'.
Proof.
  intros R L. destruct o as [|p e|p| |p]; cbn [legal] in L; cbn [run_pool_op].
  - now apply get_free_spec.
  - destruct (fill_spec s a p e R L) as (s' & a' & -> & ? & ?). cbn. eauto 6.
  - destruct (add_spec s a p R L) as (s' & a' & -> & ? & ?). cbn. eauto 6.
  - now apply get_full_spec.
  - destruct (release_spec s a p R L) as (s' & a' & -> & ? & ?). cbn. eauto 6.
Qed.

(** ** From the sockets to the receivers *)

(** A packet as it arrives, the buffer it makes, and reading a burst. *)
Record arrival := mk_arrival { ar_fd : Z; ar_itf : Z; ar_ts : l_fp; ar_from : sockaddr; ar_data : list Z }.
Definition ar_rb (x : arrival) : recvbuf := network_rb (ar_fd x) (ar_itf x) (ar_ts x) (ar_from x) (ar_data x).
Definition ar_entry (x : arrival) : entry := (ar_rb x, 0, Some CbReceive).
Fixpoint read_burst (l : list arrival) (w : io) : option io :=
  match l with
  | [] => Some w
  | x :: l => '(_, w) ← read_network_packet (ar_fd x) (ar_itf x) false (ar_ts x) (Data (ar_from x) (ar_data x)) w; read_burst l w
  end.

Lemma read_packet_queued x p fr q w :
  rel (io_pool w) (mk_apool (p :: fr) q ∅) -> ar_data x <> [] ->
  exists n w', read_network_packet (ar_fd x) (ar_itf x) false (ar_ts x) (Data (ar_from x) (ar_data x)) w = Some (n, w') /\
    rel (io_pool w') (mk_apool fr (q ++ [(p, ar_entry x)]) ∅) /\ packets_dropped w' = packets_dropped w.
Proof.
  intros R D. unfold read_network_packet.
  destruct (get_free_spec _ _ R) as (r & s1 & a1 & -> & St & R1). inversion St; subst; clear St. cbn [mbind option_bind].
  destruct (ar_data x) as [|d ds] eqn:Ed; [done |].
  match goal with |- context [upd_buf p ?g s1] => set (f := g) end.
  destruct (store_spec s1 _ p blank (ar_entry x) f R1 (lookup_insert_eq _ _ _)) as (s2 & E2 & R2).
  { intros b Hb. pose proof (f_equal (fun e : entry => e.1.2) Hb) as Hp. cbn in Hp.
    unfold f, ar_entry, ar_rb, entry_of. rewrite Ed. cbn. rewrite Hp. done. }
  rewrite E2. cbn [mbind option_bind]. cbn in R2. rewrite insert_insert_eq in R2.
  destruct (add_spec s2 _ p R2) as (s3 & a3 & -> & St & R3); [cbn; rewrite lookup_insert_eq; eauto |].
  inversion St as [| | |? e ? ? ? He| | |]; subst; clear St. cbn in He. rewrite lookup_insert_eq in He. injection He as <-.
  cbn. do 2 eexists. split; [done |]. split; [| done]. cbn. now rewrite delete_insert_eq, delete_empty in R3.
Qed.

Lemma read_packet_dropped x q w :
  rel (io_pool w) (mk_apool [] q ∅) ->
  exists n w', read_network_packet (ar_fd x) (ar_itf x) false (ar_ts x) (Data (ar_from x) (ar_data x)) w = Some (n, w') /\
    rel (io_pool w') (mk_apool [] q ∅) /\ packets_dropped w' = u64 (packets_dropped w + 1).
Proof.
  intros R. unfold read_network_packet.
  destruct (get_free_spec _ _ R) as (r & s1 & a1 & -> & St & R1). inversion St; subst; clear St. cbn. eauto.
Qed.

(** A burst is queued in order for as long as there are free buffers. *)
Lemma read_burst_spec l : forall fr q w,
  rel (io_pool w) (mk_apool fr q ∅) -> Forall (fun x => ar_data x <> []) l ->
  exists w' k, read_burst l w = Some w' /\
    (k.*2 = ar_entry <$> take (length fr) l) /\ rel (io_pool w') (mk_apool (drop (length l) fr) (q ++ k) ∅) /\
    u64 (packets_dropped w') = u64 (packets_dropped w + Z.of_nat (length l - length fr)).
Proof.
  induction l as [|x l IH]; intros fr q w R D.
  - exists w, []. cbn. rewrite take_nil, app_nil_r. split; [done |]. split; [done |]. split; [done |]. f_equal. lia.
  - apply Forall_cons in D as [Dx D]. cbn [read_burst]. destruct fr as [|p fr].
    + destruct (read_packet_dropped x q w R) as (n & w1 & -> & R1 & P1). cbn.
      destruct (IH [] q w1 R1 D) as (w2 & k & -> & K & R2 & P2). exists w2, k. split; [done |]. cbn in *.
      rewrite drop_nil in R2. split; [done |]. split; [done |]. rewrite P2, P1. unfold u64, wrap.
      rewrite Zplus_mod_idemp_l. f_equal. lia.
    + destruct (read_packet_queued x p fr q w R Dx) as (n & w1 & -> & R1 & P1). cbn.
      destruct (IH fr _ w1 R1 D) as (w2 & k & -> & K & R2 & P2). exists w2, ((p, ar_entry x) :: k). split; [done |].
      cbn. rewrite K. split; [done |]. rewrite <- app_assoc in R2. split; [exact R2 |]. rewrite P2, P1. done.
Qed.

(** What the main loop is to do with the queued packets: each to its receiver,
    after the timer if the alarm has gone off. *)
Section Deliver.
Context {W : Type} (call : callback -> recvbuf -> W -> W) (timer : W -> W).

Fixpoint deliver (alarms : list bool) (was : bool) (es : list (callback * recvbuf)) (w : W) : bool * W :=
  match es with
  | [] => (was, w)
  | (cb, r) :: es => deliver (tl alarms) false es (call cb r (if was || hd false alarms then timer w else w))
  end.

Definition entry_packet (x : Z * entry) : option (callback * recvbuf) :=
  let '(_, (r, _, cb)) := x in cb ← cb; Some (cb, r).

Lemma drain_spec sigio q : forall fuel es fr s alarms was w,
  rel s (mk_apool fr q ∅) -> entry_packet <$> q = Some <$> es -> (length q <= fuel)%nat ->
  exists s' fr', received_loop sigio call timer fuel alarms was s w =
                   Some ((deliver alarms was es w).1, s', (deliver alarms was es w).2) /\
    rel s' (mk_apool fr' [] ∅).
Proof.
  induction q as [|[p [[r pr] cb]] q IH]; intros fuel es fr s alarms was w R He Hf.
  - destruct es; [| done]. destruct (get_full_spec sigio s _ R) as (x & s1 & a1 & E & St & R1).
    inversion St; subst; clear St. exists s1. eexists. split; [| exact R1].
    destruct fuel; cbn [received_loop]; rewrite E; done.
  - destruct es as [|[cb' r'] es]; [done |]. cbn in He. destruct cb as [cb|]; [| done].
    injection He as -> -> He. destruct fuel as [|fuel]; [cbn in Hf; lia |].
    destruct (get_full_spec sigio s _ R) as (x & s1 & a1 & E & St & R1).
    inversion St; subst; clear St. cbn [received_loop]. rewrite E. cbn [mbind option_bind].
    destruct (r_held _ _ R1 p (r', pr, Some cb') (lookup_insert_eq _ _ _)) as (b & Eb & U & K).
    rewrite Eb. cbn [mbind option_bind]. unfold entry_of in K. injection K as K1 K2 K3.
    rewrite K3. cbn [mbind option_bind].
    destruct (release_spec s1 _ p R1) as (s2 & a2 & -> & St & R2); [cbn; rewrite lookup_insert_eq; eauto |].
    inversion St; subst; clear St. cbn [mbind option_bind]. rewrite delete_insert_eq, delete_empty in R2.
    apply (IH fuel es _ s2 _ _ _ R2 He). cbn in Hf. lia.
Qed.
End Deliver.

(** C6: packets read from the network while the pool is idle reach [receive]
    in the order of their arrival, each once, for as many as there are free
    buffers; the others are dropped and counted.  The loop ends after as many
    turns as there are packets, the timer runs before the packet at which the
    alarm is seen, and every buffer is free again. *)
Theorem packets_delivered {W} sigio call (timer : W -> W) fr w l alarms was x fuel :
  rel (io_pool w) (mk_apool fr [] ∅) -> Forall (fun y => ar_data y <> []) l -> (length fr <= fuel)%nat ->
  exists w1 s2 fr2, read_burst l w = Some w1 /\
    u64 (packets_dropped w1) = u64 (packets_dropped w + Z.of_nat (length l - length fr)) /\
    (let d := deliver call timer alarms was (map (fun y => (CbReceive, ar_rb y)) (take (length fr) l)) x in
     received_loop sigio call timer fuel alarms was (io_pool w1) x = Some (d.1, s2, d.2)) /\
    rel s2 (mk_apool fr2 [] ∅) /\ Permutation fr2 (map_to_list (bufs s2)).*1.
Proof.
  intros R D Hf. destruct (read_burst_spec l fr [] w R D) as (w1 & k & E & K & R1 & P). cbn in R1.
  set (es := map (fun y => (CbReceive, ar_rb y)) (take (length fr) l)).
  assert (He : entry_packet <$> k = Some <$> es).
  { replace (entry_packet <$> k) with ((fun e : entry => entry_packet (0, e)) <$> k.*2).
    - rewrite K. unfold es. rewrite <- !list_fmap_compose. done.
    - rewrite <- list_fmap_compose. apply list_fmap_ext. intros i [? [[? ?] ?]] _. done. }
  assert (Hk : (length k <= fuel)%nat).
  { apply (f_equal length) in K. rewrite !length_fmap, length_take in K. lia. }
  destruct (drain_spec call timer sigio k fuel es _ _ alarms was x R1 He Hk) as (s2 & fr2 & E2 & R2).
  exists w1, s2, fr2. split; [done |]. split; [done |]. split; [exact E2 |]. split; [exact R2 |].
  pose proof (r_nodup _ _ R2) as N. cbn in N. rewrite app_nil_r in N.
  apply NoDup_Permutation; [done | apply NoDup_fst_map_to_list |]. intros p. rewrite list_elem_of_fmap. split.
  - intros Hp. destruct (chain_lookup _ _ _ p (r_free _ _ R2) Hp) as [b Eb]. exists (p, b).
    split; [done |]. now apply elem_of_map_to_list.
  - intros ([p' b] & -> & Hb). apply elem_of_map_to_list in Hb. destruct (r_all _ _ R2 p' b Hb) as [_ K2]. cbn in K2.
    rewrite app_nil_r, lookup_empty in K2. destruct K2 as [? | [? ?]]; done.
Qed.

(** ** The pool at the start *)

Lemma boot_rel : rel boot (mk_apool [] [] ∅).
Proof. constructor; cbn; try done; try (intros; exfalso; set_solver); apply NoDup_nil_2. Qed.

Lemma init_spec n : is_s32 n -> exists s fr, init_recvbuff n boot = Some s /\ rel s (mk_apool fr [] ∅) /\ length fr = Z.to_nat n.
Proof.
  intros Hn. destruct (create_spec n boot _ boot_rel) as (s & more & E & R & L & _). exists s, more.
  cbn in R, L. rewrite app_nil_r in R. rewrite Z.add_0_r, s32_small in L by done. split; [exact E |]. done.
Qed.

(** ** Purging a descriptor *)

Lemma queue_size s a : rel s a -> (length (a_queue a) <= size (bufs s))%nat.
Proof.
  intros R. pose proof (r_nodup _ _ R) as N. apply NoDup_app in N as (_ & _ & N).
  rewrite <- (length_fmap fst), <- (size_list_to_set (C := gset Z)) by done. rewrite <- size_dom. apply subseteq_size.
  intros p Hp. apply elem_of_list_to_set in Hp. apply elem_of_dom. exact (chain_lookup _ _ _ p (r_full _ _ R) Hp).
Qed.

Lemma find_slot_spec s p l : forall fuel x h t,
  chain (bufs s) h (l ++ p :: t) -> slot_val x s = Some h -> p ∉ l -> (length l <= fuel)%nat ->
  find_slot fuel p x s = Some (Some (last_slot x (l ++ [p]))).
Proof.
  induction l as [|y l IH]; intros fuel x h t C Ex Hp Hf; cbn in C; destruct C as (-> & b & E & C).
  - destruct fuel; cbn; rewrite Ex; cbn; now rewrite Z.eqb_refl.
  - destruct fuel as [|fuel]; [cbn in Hf; lia |]. cbn [find_slot]. rewrite Ex. cbn [mbind option_bind].
    rewrite (proj2 (Z.eqb_neq y p)) by set_solver. unfold link_of. rewrite E. cbn [fmap option_fmap option_map mbind option_bind].
    assert (El : exists z, link b = Some z) by (destruct l; cbn in C; destruct C as (-> & _); eauto). destruct El as [z El].
    rewrite El. replace (last_slot x ((y :: l) ++ [p])) with (last_slot (Nextlink y) (l ++ [p])) by (destruct l; done).
    apply (IH fuel (Nextlink y) (link b) t C); [| set_solver | cbn in Hf; lia].
    cbn. unfold link_of. now rewrite E.
Qed.

(** The loop goes past the buffers of other descriptors. *)
Lemma purge_loop_skip s fd l : forall fuel h t,
  chain (bufs s) h (l ++ t) -> (forall p b, p ∈ l -> bufs s !! p = Some b -> rb_fd (rb b) <> fd) ->
  exists h', chain (bufs s) h' t /\ purge_loop (length l + fuel) fd h s = purge_loop fuel fd h' s.
Proof.
  induction l as [|y l IH]; intros fuel h t C K; cbn in C; [eauto |]. destruct C as (-> & b & E & C).
  destruct (IH fuel (link b) t C) as (h' & C' & EQ); [intros; eapply K; eauto; set_solver |]. exists h'. split; [done |].
  cbn [length plus purge_loop]. rewrite E. cbn [mbind option_bind].
  rewrite (proj2 (Z.eqb_neq _ _)) by (eapply K; [| exact E]; set_solver). exact EQ.
Qed.

(** The last of several buffers is unlinked: the tail pointer is null, the
    head is not. *)
Lemma unlink_last s q x p bx b :
  chain (bufs s) (phead (full_recv_fifo s)) (q ++ [x; p]) -> p ∉ q ++ [x] -> (length q < size (bufs s))%nat ->
  bufs s !! x = Some bx -> bufs s !! p = Some b -> link b = None ->
  UNLINK_MID_FIFO p s = Some (Some p, set_tail None (s <| bufs := <[x := bx <| link := None |>]> (bufs s) |>)).
Proof.
  intros C Np Hf Ex Eb L. unfold UNLINK_MID_FIFO.
  assert (C' : chain (bufs s) (phead (full_recv_fifo s)) ((q ++ [x]) ++ p :: [])) by now rewrite <- app_assoc.
  rewrite (find_slot_spec s p (q ++ [x]) _ Phead _ [] C' eq_refl Np) by (rewrite length_app; cbn; lia).
  cbn [mbind option_bind]. unfold link_of. rewrite Eb. cbn [fmap option_fmap option_map mbind option_bind]. rewrite L.
  rewrite <- app_assoc. cbn [app]. rewrite last_slot_snoc. cbn [set_slot]. unfold set_link, upd_buf. now rewrite Ex.
Qed.

Lemma purge_last s fr q p e h r er fd :
  rel s (mk_apool fr (q ++ [(p, e)]) h) -> q <> [] -> h !! r = Some er ->
  rb_fd e.1.1 = fd -> Forall (fun x => rb_fd (snd x).1.1 <> fd) q ->
  exists s1, purge_recv_buffers_for_fd fd s = Some s1 /\ phead (full_recv_fifo s1) = fst <$> head q /\
    pptail (full_recv_fifo s1) = None /\ is_Some (bufs s1 !! r) /\ full_recvbufs s1 = u64 (Z.of_nat (length q)).
Proof.
  intros R Hq Hr Hp Ho. pose proof (queue_size _ _ R) as Hsz. cbn in Hsz. rewrite length_app in Hsz. cbn in Hsz.
  pose proof (r_full _ _ R) as C. pose proof (r_nodup _ _ R) as N. cbn in C, N.
  rewrite fmap_app in C, N. cbn in C, N. apply NoDup_app in N as (_ & _ & N). apply NoDup_app in N as (_ & N & _).
  assert (Np : p ∉ q.*1) by (intros Hx; exact (N p Hx ltac:(set_solver))).
  destruct (r_queue _ _ R p e ltac:(cbn; set_solver)) as (b & Eb & U & Ke).
  destruct (r_held _ _ R r er Hr) as (br & Er & _). cbn in Er. unfold purge_recv_buffers_for_fd.
  replace (size (bufs s)) with (length q.*1 + (size (bufs s) - length q))%nat by (rewrite length_fmap; lia).
  destruct (purge_loop_skip s fd q.*1 (size (bufs s) - length q) _ _ C) as (h' & (-> & b0 & E0 & L0) & ->).
  { intros x bx [ex Hx]%queue_fst Ex. destruct (r_queue _ _ R x ex ltac:(cbn; set_solver)) as (bx' & Ex' & _ & Kx).
    rewrite Ex in Ex'. injection Ex' as <-. rewrite Forall_forall in Ho. specialize (Ho _ Hx). cbn in Ho. now rewrite <- Kx in Ho. }
  rewrite Eb in E0. injection E0 as <-. cbn in L0. destruct (size (bufs s) - length q)%nat as [|k] eqn:Ek; [lia |].
  destruct q as [|[x ex] q0 _] using rev_ind; [done |]. rewrite length_app in Hsz. cbn in Hsz.
  destruct (chain_lookup _ _ _ x C) as [bx Ex]; [rewrite fmap_app; set_solver |].
  cbn [purge_loop]. rewrite Eb. cbn [mbind option_bind]. rewrite <- Hp, <- Ke, Z.eqb_refl.
  rewrite fmap_app in C, Np. cbn in C, Np. rewrite <- app_assoc in C. cbn in C.
  rewrite (unlink_last s q0.*1 x p bx b C Np ltac:(rewrite length_fmap; lia) Ex Eb L0). cbn [mbind option_bind].
  rewrite bool_decide_eq_true_2 by done. unfold freerecvbuf, LINK_SLIST, set_link, upd_buf. cbn.
  rewrite lookup_insert_ne by (intros ->; apply Np; set_solver). rewrite Eb. cbn. rewrite lookup_insert_eq. cbn.
  rewrite L0. eexists. split; [destruct k; reflexivity |]. cbn.
  split; [destruct q0 as [|[y ey] q0]; cbn in C |- *; now destruct C as (-> & _) |]. split; [done |].
  split; [rewrite !lookup_insert_is_Some; destruct (decide (p = r)), (decide (x = r)); naive_solver |].
  pose proof (r_nfull _ _ R) as NF. cbn in NF. rewrite length_app in NF. change (full_recvbufs (set_tail _ _)) with (full_recvbufs s).
  rewrite NF, u64_back. f_equal. cbn. lia.
Qed.

(** [UNLINK_MID_FIFO] clears the tail pointer when it unlinks the last of
    several buffers.  A descriptor whose only buffer is the last of the queue
    is purged, the next packet is queued, and all that was queued before is
    off the queue: its buffers are on no list, and the count still has them. *)
Theorem purge_loses_packets s fr q p e h r er fd :
  rel s (mk_apool fr (q ++ [(p, e)]) h) -> q <> [] -> h !! r = Some er ->
  rb_fd e.1.1 = fd -> Forall (fun x => rb_fd (snd x).1.1 <> fd) q ->
  exists s1 s2, purge_recv_buffers_for_fd fd s = Some s1 /\ phead (full_recv_fifo s1) = fst <$> head q /\
    add_full_recv_buffer (Some r) s1 = Some s2 /\ chain (bufs s2) (phead (full_recv_fifo s2)) [r] /\
    full_recvbufs s2 = u64 (Z.of_nat (length q) + 1).
Proof.
  intros R Hq Hr Hp Ho. destruct (purge_last s fr q p e h r er fd R Hq Hr Hp Ho) as (s1 & E1 & H1 & T1 & [b Eb] & F1).
  unfold add_full_recv_buffer, LINK_FIFO, set_link, upd_buf. rewrite E1. do 2 eexists. split; [reflexivity |]. split; [done |].
  rewrite Eb. cbn. rewrite T1. cbn. split; [reflexivity |]. cbn.
  split; [split; [done |]; eexists; rewrite lookup_insert_eq; done |]. now rewrite F1, u64_step.
Qed.

(** ** Concrete pools *)

Lemma recvbuff_refines_witness :
  (rel boot (mk_apool [] [] ∅) /\ legal (mk_apool [] [] ∅) GetFull) /\
  exists s' a', run_pool_op true GetFull boot = Some (None, s') /\ free_recvbufs s' = RECV_INC /\ rel s' a'.
Proof.
  split; [split; [exact boot_rel | exact I] |].
  destruct (recvbuff_refines true boot _ GetFull boot_rel I) as (r & s' & a' & E & _ & R).
  exists s', a'. vm_compute in E. apply (inj Some), pair_eq in E as [<- <-]. split; [reflexivity |]. split; [reflexivity | exact R].
Defined.

(** A pool of three buffers, and packets for it from two descriptors. *)
Definition pool3 : pool := default boot (init_recvbuff 3 boot).
Lemma pool3_rel : exists fr, rel pool3 (mk_apool fr [] ∅) /\ length fr = 3%nat.
Proof.
  destruct (init_spec 3) as (s & fr & E & R & L); [unfold is_s32; lia |]. exists fr. unfold pool3. rewrite E. done.
Qed.
Definition from_fd (fd n : Z) : arrival := mk_arrival fd 1 (mk_lfp n 0) (mk_sockaddr AF_INET 0x0a000001 0 123) [n; n].
Definition io3 : io := mk_io pool3 0 0 0 ∅ ∅.

(** The octets each packet starts with, in the order of delivery; 0 is a run
    of the timer. *)
Definition log_packet (_ : callback) (r : recvbuf) (w : list Z) : list Z := w ++ take 1 (rb_bytes r).

Lemma packets_delivered_witness :
  let l := [from_fd 5 11; from_fd 6 12; from_fd 5 13; from_fd 5 14] in
  Forall (fun y => ar_data y <> []) l /\
  exists w1 s2 fr2, read_burst l io3 = Some w1 /\ packets_dropped w1 = 1 /\
    received_loop false log_packet (fun w => w ++ [0]) 3 [false; true] false (io_pool w1) [] = Some (false, s2, [11; 0; 12; 13]) /\
    rel s2 (mk_apool fr2 [] ∅).
Proof.
  intros l. assert (D : Forall (fun y => ar_data y <> []) l) by (repeat constructor; discriminate). split; [exact D |].
  destruct pool3_rel as (fr & R & L).
  destruct (packets_delivered false log_packet (fun w => w ++ [0]) fr io3 l [false; true] false [] 3 R D ltac:(rewrite L; lia))
    as (w1 & s2 & fr2 & E & P & Dr & R2 & _).
  exists w1, s2, fr2. split; [exact E |]. split; [| split; [| exact R2]].
  - vm_compute in E. apply (inj Some) in E. rewrite <- E. reflexivity.
  - rewrite Dr. rewrite L. reflexivity.
Defined.

(** A reference clock's buffer behind a packet, and a third buffer in hand. *)
Definition queued : pool := io_pool (default io3 (read_burst [from_fd 5 11; from_fd 6 12] io3)).
Definition in_hand : pool := snd (default (None, boot) (get_free_recv_buffer queued)).

Lemma purge_loses_packets_witness :
  exists fr q p e h r er s1 s2,
    (rel in_hand (mk_apool fr (q ++ [(p, e)]) h) /\ q <> [] /\ h !! r = Some er /\ rb_fd e.1.1 = 6 /\
     Forall (fun x => rb_fd (snd x).1.1 <> 6) q) /\
    purge_recv_buffers_for_fd 6 in_hand = Some s1 /\ add_full_recv_buffer (Some r) s1 = Some s2 /\
    chain (bufs s2) (phead (full_recv_fifo s2)) [r] /\ full_recvbufs s2 = 2.
Proof.
  destruct pool3_rel as (fr & R & L).
  destruct (read_burst_spec [from_fd 5 11; from_fd 6 12] fr [] io3 R) as (w1 & k & E & K & R1 & _);
    [repeat constructor; discriminate |].
  rewrite L in K. destruct k as [|[p1 e1] [|[p2 e2] [|]]]; try discriminate K. cbn [fmap list_fmap take] in K.
  injection K as -> ->. destruct fr as [|? [|? [|r [|]]]]; try discriminate L. cbn [drop length app] in R1.
  assert (Q : io_pool w1 = queued) by (unfold queued; now rewrite E). rewrite Q in R1.
  destruct (get_free_spec _ _ R1) as (x & s & a & G & St & R2). inversion St; subst; clear St.
  assert (H : s = in_hand) by (unfold in_hand; now rewrite G). rewrite H in R2.
  assert (A : Forall (fun x => rb_fd (snd x).1.1 <> 6) [(p1, ar_entry (from_fd 5 11))]) by (repeat constructor; discriminate).
  destruct (purge_loses_packets in_hand [] [(p1, ar_entry (from_fd 5 11))] p2 (ar_entry (from_fd 6 12)) _ r blank 6 R2
              ltac:(discriminate) (lookup_insert_eq _ _ _) eq_refl A) as (s1 & s2 & E1 & _ & E2 & C2 & F2).
  exists [], [(p1, ar_entry (from_fd 5 11))], p2, (ar_entry (from_fd 6 12)), (<[r := blank]> ∅), r, blank, s1, s2.
  split; [split; [exact R2 |]; split; [discriminate |]; split; [apply lookup_insert_eq |]; split; [reflexivity | exact A] |].
  split; [exact E1 |]. split; [exact E2 |]. split; [exact C2 | exact F2].
Defined.
