(* ===== verification/PrioQueue.v ===== *)
(** * The simulator's queues (ntpd/ntp_prio_q.c, the orders of ntpd/ntpsim.c)

    A queue is the chain of its nodes, smallest first by the order function it
    was created with; a FIFO is the queue whose order puts a new node after
    every other.  The theorems give what comes out of a queue in terms of what
    went in, and show that the simulator's order on events is too coarse. *)

From S2P Require Import Prelude FixedPoint Double NtpTypes.
From stdpp Require Import base list sorting.
#[local] Open Scope Z_scope.

(** ** The queue *)

(** [get_order], the nodes from [front] on, and [no_of_elements]. *)
Record prio_queue (A : Type) := mk_queue { get_order : A -> A -> Z; nodes : list A; no_of_elements : Z }.
Arguments mk_queue {A} _ _ _.
Arguments get_order {A} _ _ _.
Arguments nodes {A} _.
Arguments no_of_elements {A} _.

Definition create_priority_queue {A} (order : A -> A -> Z) : prio_queue A := mk_queue order [] 0.
Definition get_fifo_order {A} (_ _ : A) : Z := 1.
Definition create_queue {A} : prio_queue A := create_priority_queue get_fifo_order.

Definition is_empty {A} (q : prio_queue A) : bool := match nodes q with [] => true | _ => false end.
Definition queue_head {A} (q : prio_queue A) : option A := head (nodes q).

(** The search of [enqueue]: past the nodes the new one is to follow. *)
Fixpoint link_node {A} (order : A -> A -> Z) (x : A) (l : list A) : list A :=
  match l with
  | [] => [x]
  | y :: l => if 0 <? order x y then y :: link_node order x l else x :: y :: l
  end.
Definition enqueue {A} (x : A) (q : prio_queue A) : prio_queue A :=
  mk_queue (get_order q) (link_node (get_order q) x (nodes q)) (s32 (no_of_elements q + 1)).
Definition dequeue {A} (q : prio_queue A) : option A * prio_queue A :=
  match nodes q with
  | [] => (None, q)
  | x :: l => (Some x, mk_queue (get_order q) l (s32 (no_of_elements q - 1)))
  end.
Definition get_no_of_elements {A} (q : prio_queue A) : Z := no_of_elements q.

(** [append_queue]; the loop runs once for each node of [q2]. *)
Fixpoint append_loop {A} (fuel : nat) (q1 q2 : prio_queue A) : option (prio_queue A) :=
  if is_empty q2 then Some q1
  else match fuel, dequeue q2 with
       | S fuel, (Some x, q2) => append_loop fuel (enqueue x q1) q2
       | _, _ => None
       end.
Definition append_queue {A} (q1 q2 : prio_queue A) : option (prio_queue A) := append_loop (length (nodes q2)) q1 q2.

(** ** The simulator's orders *)

Inductive funcTkn := BEEP | CLOCK | TIMER | PACKET.
Record Event := mk_Event { time : double; function : funcTkn }.

(** The difference of the times, converted to [int]. *)
Definition determine_event_ordering (e1 e2 : Event) : Z := s32 (dtrunc (time e1 -d time e2)).
Definition determine_recv_buf_ordering (b1 b2 : recvbuf) : Z :=
  s32 (dtrunc (LFPTOD (rb_time b1) -d LFPTOD (rb_time b2))).

(** ** Uses of a queue *)

Definition enqueue_all {A} (l : list A) (q : prio_queue A) : prio_queue A := fold_left (fun q x => enqueue x q) l q.
Fixpoint dequeue_all {A} (fuel : nat) (q : prio_queue A) : list A * prio_queue A :=
  match fuel, dequeue q with
  | S fuel, (Some x, q) => let '(l, q) := dequeue_all fuel q in (x :: l, q)
  | _, (_, _) => ([], q)
  end.

Lemma dequeue_all_nodes {A} (q : prio_queue A) : forall fuel, (length (nodes q) <= fuel)%nat -> fst (dequeue_all fuel q) = nodes q.
Proof.
  destruct q as [o l n]. cbn. revert n. induction l as [|x l IH]; intros n [|fuel] Hf; cbn in *; try done; [lia |].
  specialize (IH (s32 (n - 1)) fuel ltac:(lia)). cbn in IH. destruct (dequeue_all fuel _). cbn in *. congruence.
Qed.

(** The count is the number of nodes, in an [int]. *)
Definition counts_nodes {A} (q : prio_queue A) : Prop := no_of_elements q = s32 (Z.of_nat (length (nodes q))).

Lemma s32_step x d : s32 (s32 x + d) = s32 (x + d).
Proof. unfold s32, swrap. divlia. Qed.

Lemma link_node_perm {A} o (x : A) l : Permutation (link_node o x l) (x :: l).
Proof. induction l as [|y l IH]; cbn; [done |]. case_match; [| done]. rewrite IH. apply perm_swap. Qed.

Lemma enqueue_counts_nodes {A} (x : A) q : counts_nodes q -> counts_nodes (enqueue x q).
Proof.
  unfold counts_nodes. cbn. intros ->. rewrite s32_step, (Permutation_length (link_node_perm _ _ _)). f_equal. cbn. lia.
Qed.
Lemma dequeue_counts_nodes {A} (q : prio_queue A) : counts_nodes q -> counts_nodes (snd (dequeue q)).
Proof.
  unfold counts_nodes, dequeue. destruct q as [o [|x l] n]; cbn; [done |]. intros ->.
  replace (s32 (Z.of_nat (S (length l))) - 1) with (s32 (Z.of_nat (S (length l))) + -1) by lia. rewrite s32_step. f_equal. lia.
Qed.

(** ** Priorities *)

Section Keys.
Context {A : Type} (order : A -> A -> Z) (key : A -> Z).

(** An order function that compares keys. *)
Definition compares : Prop := forall x y, 0 < order x y <-> key y < key x.
Hypothesis Hkey : compares.

Definition le_key (x y : A) : Prop := key x <= key y.
Definition with_key (k : Z) (l : list A) : list A := filter (fun x => key x = k) l.

Lemma link_node_sorted x l : StronglySorted le_key l -> StronglySorted le_key (link_node order x l).
Proof.
  induction l as [|y l IH]; intros S; cbn; [repeat constructor |]. inversion S as [|? ? S' F]; subst.
  destruct (Z.ltb_spec 0 (order x y)) as [H | H].
  - constructor; [auto |]. rewrite (link_node_perm order x l). constructor; [| done]. apply Hkey in H. unfold le_key. lia.
  - constructor; [done |]. assert (K : ~ key y < key x) by (intros K; apply Hkey in K; lia).
    constructor; [unfold le_key; lia |]. eapply Forall_impl; [exact F |]. unfold le_key. intros. lia.
Qed.

(** Among equal keys the new node comes first. *)
Lemma link_node_key x l k :
  StronglySorted le_key l -> with_key k (link_node order x l) = with_key k [x] ++ with_key k l.
Proof.
  unfold with_key. induction l as [|y l IH]; intros S; cbn [link_node]; [now rewrite app_nil_r |].
  inversion S as [|? ? S' F]; subst. destruct (Z.ltb_spec 0 (order x y)) as [H | H].
  - apply Hkey in H. rewrite filter_cons, IH, !filter_cons, !filter_nil by done.
    destruct (decide (key y = k)), (decide (key x = k)); cbn; first [done | lia].
  - rewrite !filter_cons, filter_nil. destruct (decide (key x = k)); done.
Qed.

Lemma enqueue_all_spec l : forall q, get_order q = order -> StronglySorted le_key (nodes q) ->
  StronglySorted le_key (nodes (enqueue_all l q)) /\ Permutation (nodes (enqueue_all l q)) (l ++ nodes q) /\
  (forall k, with_key k (nodes (enqueue_all l q)) = reverse (with_key k l) ++ with_key k (nodes q)) /\
  (counts_nodes q -> counts_nodes (enqueue_all l q)).
Proof.
  induction l as [|x l IH]; intros q Eo S; [done |]. cbn [enqueue_all fold_left].
  assert (S1 : StronglySorted le_key (nodes (enqueue x q))) by (cbn; rewrite Eo; now apply link_node_sorted).
  destruct (IH (enqueue x q) Eo S1) as (A1 & A2 & A3 & A4). split; [exact A1 |]. split; [| split].
  - etransitivity; [exact A2 |]. cbn. rewrite link_node_perm. now rewrite Permutation_middle.
  - intros k. etransitivity; [exact (A3 k) |]. cbn [nodes enqueue]. rewrite Eo, link_node_key by done.
    unfold with_key. rewrite filter_cons, filter_cons, filter_nil. destruct (decide (key x = k)); [| done].
    rewrite reverse_cons, <- app_assoc. done.
  - intros C. apply A4, enqueue_counts_nodes, C.
Qed.
End Keys.

(** What is put in a queue whose order compares keys comes out in the order
    of the keys, all of it and once, the latest first among equal keys; the
    count of the queue is the number of nodes in it. *)
Theorem prio_queue_sorts {A} (order : A -> A -> Z) (key : A -> Z) l :
  compares order key ->
  let q := enqueue_all l (create_priority_queue order) in
  let out := fst (dequeue_all (length l) q) in
  StronglySorted (le_key key) out /\ Permutation out l /\
  (forall k, with_key key k out = reverse (with_key key k l)) /\
  get_no_of_elements q = s32 (Z.of_nat (length l)).
Proof.
  intros H q out. destruct (enqueue_all_spec order key H l (create_priority_queue order) eq_refl) as (S & P & K & C); [constructor |].
  fold q in S, P, K, C. cbn [nodes create_priority_queue] in P, K. rewrite app_nil_r in P.
  assert (E : out = nodes q) by (apply dequeue_all_nodes; now rewrite (Permutation_length P)).
  rewrite E. split; [done |]. split; [done |]. split; [intros k; rewrite K; apply app_nil_r |].
  etransitivity; [exact (C eq_refl) |]. now rewrite (Permutation_length P).
Qed.

Lemma fifo_link {A} (x : A) l : link_node get_fifo_order x l = l ++ [x].
Proof. induction l as [|y l IH]; cbn; [done | now rewrite IH]. Qed.
Lemma fifo_enqueue_all {A} (l : list A) : forall q, get_order q = get_fifo_order -> nodes (enqueue_all l q) = nodes q ++ l.
Proof.
  induction l as [|x l IH]; intros q E; [cbn; now rewrite app_nil_r |]. cbn [enqueue_all fold_left].
  etransitivity; [exact (IH (enqueue x q) E) |]. cbn. now rewrite E, fifo_link, <- app_assoc.
Qed.

Lemma append_loop_spec {A} (q2 : prio_queue A) : forall fuel q1, (length (nodes q2) <= fuel)%nat ->
  append_loop fuel q1 q2 = Some (enqueue_all (nodes q2) q1).
Proof.
  destruct q2 as [o l n]. cbn. revert n. induction l as [|x l IH]; intros n [|fuel] q1 Hf; cbn in *; try done; [lia |].
  apply IH. lia.
Qed.

(** A queue of the FIFO order gives back what it was given, in the same
    order, also when it went by way of [append_queue]. *)
Theorem fifo_queue_order {A} (l1 l2 : list A) :
  exists q, append_queue (enqueue_all l1 create_queue) (enqueue_all l2 create_queue) = Some q /\
    fst (dequeue_all (length l1 + length l2) q) = l1 ++ l2.
Proof.
  assert (E1 : nodes (enqueue_all l1 create_queue) = l1) by now rewrite fifo_enqueue_all.
  assert (E2 : nodes (enqueue_all l2 create_queue) = l2) by now rewrite fifo_enqueue_all.
  eexists. split; [apply append_loop_spec; done |]. rewrite E2.
  assert (O : forall (l : list A) (q : prio_queue A), get_order q = get_fifo_order -> get_order (enqueue_all l q) = get_fifo_order).
  { induction l as [|x l IH]; intros q E; [done |]. apply (IH (enqueue x q)). exact E. }
  assert (E : nodes (enqueue_all l2 (enqueue_all l1 create_queue)) = l1 ++ l2) by (rewrite fifo_enqueue_all, E1; [done | now apply O]).
  rewrite dequeue_all_nodes; rewrite E; [done |]. rewrite length_app. lia.
Qed.

Lemma prio_queue_sorts_witness :
  compares Z.sub (fun z => z) /\
  let out := fst (dequeue_all 4 (enqueue_all [5; 2; 9; 2] (create_priority_queue Z.sub))) in
  out = [2; 2; 5; 9] /\ StronglySorted (le_key (fun z => z)) out.
Proof.
  assert (H : compares Z.sub (fun z => z)) by (intros x y; lia). split; [exact H |].
  destruct (prio_queue_sorts Z.sub (fun z => z) [5; 2; 9; 2] H) as (S & _). split; [reflexivity | exact S].
Defined.

(** The order of the simulator's events drops the fraction of a second: a
    reply due at 1.002 s, then the timer due at 2 s, are put in an empty queue,
    and the timer comes out first. *)
Theorem sim_event_order_coarse :
  let reply := mk_Event (dlit 1002 3) PACKET in
  let tick := mk_Event (dofZ 2) TIMER in
  (time reply <d time tick) = true /\
  fst (dequeue_all 2 (enqueue_all [reply; tick] (create_priority_queue determine_event_ordering))) = [tick; reply].
Proof. vm_compute. split; reflexivity. Qed.
