(* ===== verification/Systime.v ===== *)
(** * The system clock (libntp/systime.c)

    Reading, slewing and stepping the clock of the system.  What the system
    returns is an argument: the time it reads, the random number drawn and
    whether a call succeeds; what it is asked to do is recorded.  [None] is
    an exit of the program or a failed assertion. *)

From S2P Require Import Prelude FixedPoint Calendar Double NtpTypes TimeOps.

(** A call of [ntp_set_tod] or of [adjtime], or of the callback on a step. *)
Inductive os_call := SetTod (tv : tstamp) | AdjTime (tv : tstamp) | StepCallback.

(** The globals of systime.c and the statics of [get_systime]. *)
Record systime := mk_systime {
  sys_tick : double; clk_fuzz : double; sys_fuzz_nsec : Z; sys_residual : double; trunc_os_clock : bool;
  lamport_violated : bool; using_sigio : bool; ts_prev : tstamp; lfp_prev : l_fp; dfuzz_prev : double; calls : list os_call }.
#[export] Instance eta_systime : Eta systime := fun r =>
  mk_systime (sys_tick r) (clk_fuzz r) (sys_fuzz_nsec r) (sys_residual r) (trunc_os_clock r)
    (lamport_violated r) (using_sigio r) (ts_prev r) (lfp_prev r) (dfuzz_prev r) (calls r).

Definition asked (x : os_call) (s : systime) : systime := s <| calls := calls s ++ [x] |>.

Definition set_sys_fuzz (fuzz_val : double) (s : systime) : option systime :=
  let s := s <| clk_fuzz := fuzz_val |> in
  if negb (dofZ 0 <=d fuzz_val) || negb (fuzz_val <=d dofZ 1) then None
  else Some (s <| sys_fuzz_nsec := s64 (dtrunc (fuzz_val *d dofZ 1000000000 +d dlit 5 1)) |>).

(** [get_ostime] of the time [ts] that the system reads. *)
Definition get_ostime (ts : tstamp) (s : systime) : tstamp :=
  if trunc_os_clock s then
    let ticks := s64 (dtrunc ((dofZ (tv_frac ts) *d dlit 1 9) /d sys_tick s)) in
    mk_ts (tv_sec ts) (s64 (dtrunc ((dofZ ticks *d dofZ 1000000000) *d sys_tick s)))
  else ts.

(** The time after the last one by the fuzz at least; [None] when that needs
    an advance of a second. *)
Definition lamport (ts : tstamp) (s : systime) : option tstamp :=
  let ts_min := add_tspec_ns (ts_prev s) (sys_fuzz_nsec s) in
  if cmp_tspec ts ts_min <? 0 then
    if (0 <? tv_sec (sub_tspec ts_min ts)) && negb (lamport_violated s) then None
    else Some (if lamport_violated s then ts else ts_min)
  else Some ts.

(** The random fuzz, the result with it, and what is kept of a call. *)
Definition fuzz_of (rnd : Z) (s : systime) : double := ((dofZ rnd *d dofZ 2) /d dofZ 4294967296) *d clk_fuzz s.
Definition with_fuzz (ts : tstamp) (rnd : Z) (s : systime) : l_fp := L_ADD (tspec_stamp_to_lfp ts) (DTOLFP (fuzz_of rnd s)).
Definition keep_time (ts : tstamp) (rnd : Z) (s : systime) : systime :=
  s <| ts_prev := ts |> <| lfp_prev := with_fuzz ts rnd s |> <| dfuzz_prev := fuzz_of rnd s |> <| lamport_violated := false |>.

(** [get_systime] with the reading [os] and the random number [rnd]; the log
    of a violation is left out. *)
Definition get_systime (os : tstamp) (rnd : Z) (s : systime) : option (l_fp * systime) :=
  let ts := get_ostime os s in
  if using_sigio s then Some (with_fuzz ts rnd s, s)
  else match lamport ts s with
       | None => None
       | Some ts => Some (with_fuzz ts rnd s, keep_time ts rnd s)
       end.

(** [adj_systime]; [ok] is the success of [adjtime]. *)
Definition adj_systime (now : double) (ok : bool) (s : systime) : bool * systime :=
  if deq (dofZ 0) now then (true, s)
  else
    let dtemp := now +d sys_residual s in
    let isneg := dtemp <d dofZ 0 in
    let dtemp := if isneg then dneg dtemp else dtemp in
    let sec := s64 (dtrunc dtemp) in
    let dtemp := dtemp -d dofZ sec in
    let quant := if clk_fuzz s <d sys_tick s then sys_tick s else dlit 1 6 in
    let ticks := s64 (dtrunc (dtemp /d quant +d dlit 5 1)) in
    let usec := s64 (dtrunc ((dofZ ticks *d quant) *d dofZ 1000000)) in
    let dtemp := dtemp -d dofZ usec /d dofZ 1000000 in
    let adjtv := if isneg then mk_ts (s64 (- sec)) (s64 (- usec)) else mk_ts sec usec in
    let s := s <| sys_residual := if isneg then dneg dtemp else dtemp |> in
    if nonzero (tv_sec adjtv) || nonzero (tv_frac adjtv) then (ok, asked (AdjTime adjtv) s) else (true, s).

(** The pivot of a step: half an era after ten years before the build. *)
Definition step_pivot (build_date : option calendar) : Z :=
  match build_date with
  | Some jd => s64 (0x80000000 + ntpcal_date_to_time
                    (mk_calendar (u16 (jd_year jd - 10)) (jd_yearday jd) (jd_month jd) (jd_monthday jd) (jd_hour jd) (jd_minute jd) (jd_second jd) (jd_weekday jd)))
  | None => 0x80000000
  end.

(** [step_systime] at the reading [os]; [ok] is the success of
    [ntp_set_tod], [callback] whether [step_callback] is set. *)
Definition step_systime (build_date : option calendar) (step : double) (os : tstamp) (ok callback : bool) (s : systime) : bool * systime :=
  let fp_ofs := L_ADD (DTOLFP step) (DTOLFP (sys_residual s)) in
  let fp_sys := L_ADD (tspec_stamp_to_lfp (get_ostime os s)) fp_ofs in
  let timetv := lfp_stamp_to_tval fp_sys (Some (step_pivot build_date)) 0 in
  let s := asked (SetTod timetv) s in
  if negb ok then (false, s)
  else
    let s := s <| sys_residual := dofZ 0 |> <| lamport_violated := step <d dofZ 0 |> in
    (true, if callback then asked StepCallback s else s).
