(* ===== verification/SystimeFacts.v ===== *)
(** * The system clock: time only moves forward

    Readings of the system clock that stand still or go back a little are
    replaced so that every call of [get_systime] uses a time later than the
    one before by the fuzz, and the timestamps returned do not go back; a
    step back by the daemon itself is the one exception, and it is one
    once. *)

From S2P Require Import Prelude FixedPoint Calendar CalendarFacts Double NtpTypes TimeOps TimeFacts Systime.
From Stdlib Require Import Sorted.

(** Times that are read and kept: normal, within a range of a billion years. *)
Definition sane (x : tstamp) : Prop := normal NANOSECONDS x /\ Z.abs (tv_sec x) <= 2 ^ 55.
Definition ns (x : tstamp) : Z := ts_val NANOSECONDS x.

(** The state of a daemon that does not use signalled I/O. *)
Record clock_ok (s : systime) : Prop := {
  ck_sigio : using_sigio s = false; ck_trunc : trunc_os_clock s = false;
  ck_fuzz : 0 <= sys_fuzz_nsec s <= NANOSECONDS; ck_prev : sane (ts_prev s) }.

Lemma sane_modest x : sane x -> modest x.
Proof. intros [H1 H2]. unfold modest, normal, NANOSECONDS in *. lia. Qed.

Lemma ns_unit : time_unit NANOSECONDS.
Proof. now left. Qed.

Lemma sane_of x : sane x -> x = ts_of NANOSECONDS (ns x).
Proof. intros [H _]. now apply normal_unique. Qed.

Lemma add_ns x n : sane x -> 0 <= n <= NANOSECONDS -> add_tspec_ns x n = ts_of NANOSECONDS (ns x + n).
Proof.
  intros [H1 H2] Hn. unfold normal, NANOSECONDS in *. unfold add_tspec_ns, add_ts_frac.
  rewrite s64_small by (unfold_ranges; lia). rewrite (normalize_spec _ ns_unit) by (cbn; unfold NANOSECONDS in *; lia).
  f_equal. unfold ns, ts_val. cbn. lia.
Qed.

(** Times in nanoseconds that are sane. *)
Definition sane_ns (v : Z) : Prop := Z.abs v <= 2 ^ 56 * NANOSECONDS.
Lemma sub_ns a b : sane_ns a -> sane_ns b -> sub_tspec (ts_of NANOSECONDS a) (ts_of NANOSECONDS b) = ts_of NANOSECONDS (a - b).
Proof.
  intros Ha Hb. unfold sane_ns, NANOSECONDS in *. unfold sub_tspec, sub_ts, ts_of. cbn [tv_sec tv_frac].
  pose proof (Z.div_mod a 1000000000 ltac:(lia)). pose proof (Z.mod_pos_bound a 1000000000 ltac:(lia)).
  pose proof (Z.div_mod b 1000000000 ltac:(lia)). pose proof (Z.mod_pos_bound b 1000000000 ltac:(lia)).
  unfold NANOSECONDS. rewrite !s64_small by (unfold_ranges; lia).
  rewrite (normalize_spec _ ns_unit) by (cbn; unfold NANOSECONDS; lia). unfold ts_of, ts_val, NANOSECONDS. cbn. f_equal; f_equal; lia.
Qed.

Lemma sane_bound x : sane x -> Z.abs (ns x) <= 2 ^ 55 * NANOSECONDS + NANOSECONDS.
Proof. intros [H1 H2]. unfold ns, ts_val, normal, NANOSECONDS in *. lia. Qed.

Lemma lamport_spec ts s :
  clock_ok s -> sane ts ->
  let m := ns (ts_prev s) + sys_fuzz_nsec s in
  lamport ts s =
  if ns ts <? m then
    if lamport_violated s then Some ts
    else if NANOSECONDS <=? m - ns ts then None else Some (ts_of NANOSECONDS m)
  else Some ts.
Proof.
  intros [C1 C2 C3 C4] Ht m. unfold lamport. rewrite (add_ns _ _ C4 C3). fold m.
  pose proof (sane_bound _ C4) as B1. pose proof (sane_bound _ Ht) as B2.
  assert (E : cmp_tspec ts (ts_of NANOSECONDS m) = cmp3 (ns ts) m) by (rewrite (sane_of ts Ht) at 1; apply (cmp_ts_of _ ns_unit)).
  rewrite E, (sane_of ts Ht), sub_ns by (unfold sane_ns, m, NANOSECONDS in *; lia). rewrite <- (sane_of ts Ht).
  unfold cmp3. destruct (Z.ltb_spec (ns ts) m), (Z.ltb_spec m (ns ts)); try lia; cbn; try reflexivity.
  destruct (lamport_violated s); [now rewrite andb_false_r |]. rewrite andb_true_r.
  assert (D : (0 <? (m - ns ts) / NANOSECONDS) = (NANOSECONDS <=? m - ns ts)); [| now rewrite D].
  unfold NANOSECONDS. destruct (Z.ltb_spec 0 ((m - ns ts) / 1000000000)), (Z.leb_spec 1000000000 (m - ns ts)); try reflexivity; divlia.
Qed.

(** ** A sequence of readings *)

(** The calls of [get_systime]: the times before the fuzz is added, and the
    results. *)
Fixpoint read_all (obs : list (tstamp * Z)) (s : systime) : option (list tstamp * list l_fp * systime) :=
  match obs with
  | [] => Some ([], [], s)
  | (os, rnd) :: obs =>
      match get_systime os rnd s with
      | None => None
      | Some (t, s1) =>
          match read_all obs s1 with
          | None => None
          | Some (ts, rs, s2) => Some (ts_prev s1 :: ts, t :: rs, s2)
          end
      end
  end.

(** Each time is the fuzz after the one before, not before its reading, and
    less than a second after it unless it is the reading itself. *)
Fixpoint advances (fuzz prev : Z) (readings used : list tstamp) : Prop :=
  match readings, used with
  | [], [] => True
  | r :: readings, u :: used =>
      prev + fuzz <= ns u /\ ns r <= ns u < ns r + NANOSECONDS /\ normal NANOSECONDS u /\ advances fuzz (ns u) readings used
  | _, _ => False
  end.

(** A reading that leaves room for the fuzz. *)
Definition readable (x : tstamp) : Prop := normal NANOSECONDS x /\ Z.abs (tv_sec x) < 2 ^ 55.
Lemma readable_sane x : readable x -> sane x.
Proof. intros [? ?]. split; [assumption | lia]. Qed.

Lemma sane_between r v : readable r -> ns r <= v < ns r + NANOSECONDS -> sane (ts_of NANOSECONDS v).
Proof.
  intros [H1 H2] Hv. split; [apply ts_of_val; reflexivity |]. unfold ts_of, ns, ts_val, normal, NANOSECONDS in *. cbn in *. divlia.
Qed.

Lemma keep_ok ts rnd s : clock_ok s -> sane ts -> clock_ok (keep_time ts rnd s).
Proof. intros [C1 C2 C3 C4] H. now split. Qed.

(** One reading. *)
Lemma get_systime_spec os rnd s :
  clock_ok s -> readable os ->
  let m := ns (ts_prev s) + sys_fuzz_nsec s in
  (get_systime os rnd s = None /\ lamport_violated s = false /\ ns os + NANOSECONDS <= m) \/
  (exists ts, get_systime os rnd s = Some (with_fuzz ts rnd s, keep_time ts rnd s) /\ sane ts /\
     (lamport_violated s = false -> m <= ns ts) /\ ns os <= ns ts < ns os + NANOSECONDS /\ (lamport_violated s = true -> ts = os)).
Proof.
  intros C Hr m. pose proof (lamport_spec os s C (readable_sane _ Hr)) as L. fold m in L. pose proof C as [C1 C2 C3 C4].
  unfold get_systime, get_ostime. rewrite C1, C2, L. pose proof (readable_sane _ Hr) as Hs.
  assert (R : ns os <= ns os < ns os + NANOSECONDS) by (unfold NANOSECONDS; lia).
  destruct (Z.ltb_spec (ns os) m) as [Lt|Ge]; [| right; exists os; split; [reflexivity |]; split; [exact Hs |]; split; [auto |]; split; [exact R | reflexivity]].
  destruct (lamport_violated s) eqn:V; [right; exists os; split; [reflexivity |]; split; [exact Hs |]; split; [discriminate |]; split; [exact R | reflexivity] |].
  destruct (Z.leb_spec NANOSECONDS (m - ns os)); [left; repeat split; lia |]. right.
  pose proof (ts_of_val NANOSECONDS m ltac:(reflexivity)) as [T1 T2]. exists (ts_of NANOSECONDS m). split; [reflexivity |].
  split; [apply (sane_between os); [assumption | lia] |]. unfold ns in *. rewrite T1. repeat split; try discriminate; lia.
Qed.

(** ** The timestamps returned *)

(** The time in units of 2^-32 s since 1900, rounded to nearest. *)
Definition stamp_units (u : tstamp) : Z := ((ns u + JAN_1970 * NANOSECONDS) * 2 ^ 32 + NANOSECONDS / 2) / NANOSECONDS.
(** The fuzz of a random number in these units, and the most it is meant to be. *)
Definition fuzz_units (rnd : Z) (s : systime) : Z := lfp_val (DTOLFP (fuzz_of rnd s)).
Definition fuzz_max (s : systime) : Z := sys_fuzz_nsec s * 2 ^ 32 / NANOSECONDS.

Fixpoint fuzzed (s : systime) (used : list tstamp) (obs : list (tstamp * Z)) : list Z :=
  match used, obs with
  | u :: used, (_, rnd) :: obs => stamp_units u + fuzz_units rnd s :: fuzzed s used obs
  | _, _ => []
  end.

Lemma fuzzed_same s s' used : clk_fuzz s' = clk_fuzz s -> forall obs, fuzzed s' used obs = fuzzed s used obs.
Proof.
  intros E. induction used as [|u used IH]; intros [|[os rnd] obs]; try reflexivity. cbn [fuzzed]. rewrite IH.
  unfold fuzz_units, fuzz_of. now rewrite E.
Qed.

Lemma unit_frac_ns f : 0 <= f < NANOSECONDS ->
  unit_to_frac NANOSECONDS f = (f * 2 ^ 32 + NANOSECONDS / 2) / NANOSECONDS /\ is_u32 (unit_to_frac NANOSECONDS f).
Proof.
  intros H. unfold unit_to_frac. rewrite Z.shiftl_mul_pow2 by lia. unfold NANOSECONDS in *.
  change (1000000000 / 2) with 500000000.
  assert (B : 0 <= (f * 2 ^ 32 + 500000000) / 1000000000 < 2 ^ 32)
    by (split; [apply Z.div_pos | apply Z.div_lt_upper_bound]; lia).
  assert (U : forall x, 0 <= x < 2 ^ 64 -> u64 x = x) by (intros x Hx; unfold u64, wrap; apply Z.mod_small; exact Hx).
  rewrite (U f), (U (f * 2 ^ 32)), (U (f * 2 ^ 32 + 500000000)) by lia. rewrite u32_small by (unfold_ranges; lia).
  split; [reflexivity | unfold_ranges; lia].
Qed.

Lemma stamp_value u : normal NANOSECONDS u -> lfp_wf (tspec_stamp_to_lfp u) /\ lfp_val (tspec_stamp_to_lfp u) = u64 (stamp_units u).
Proof.
  intros N. unfold tspec_stamp_to_lfp, ts_stamp_to_lfp, ts_intv_to_lfp. rewrite (normalize_normal _ ns_unit _ N).
  destruct (unit_frac_ns (tv_frac u) N) as [E W]. unfold stamp_units, ns, ts_val, normal in *.
  replace ((tv_sec u * NANOSECONDS + tv_frac u + JAN_1970 * NANOSECONDS) * 2 ^ 32 + NANOSECONDS / 2)
    with ((tv_frac u * 2 ^ 32 + NANOSECONDS / 2) + (tv_sec u + JAN_1970) * 2 ^ 32 * NANOSECONDS) by lia.
  rewrite Z.div_add by (unfold NANOSECONDS; lia). rewrite <- E. set (f := unit_to_frac _ _) in *. clearbody f.
  unfold lfp_wf, lfp_val. cbn [l_ui l_uf]. unfold JAN_1970. unfold_widths. unfold_ranges. split; divlia.
Qed.

Lemma DTOLFP_wf d : lfp_wf (DTOLFP d).
Proof. unfold DTOLFP, M_DTOLFP, lfp_wf. cbn [l_ui l_uf]. split; apply u32_range. Qed.

Lemma with_fuzz_value u rnd s : normal NANOSECONDS u -> with_fuzz u rnd s = lfp_of (stamp_units u + fuzz_units rnd s).
Proof.
  intros N. destruct (stamp_value u N) as [W V]. pose proof (DTOLFP_wf (fuzz_of rnd s)) as W2.
  unfold with_fuzz. rewrite (proj1 (lfp_arith_correct _ _ W W2)), V. fold (fuzz_units rnd s).
  unfold lfp_of. assert (E : u64 (u64 (stamp_units u) + fuzz_units rnd s) = u64 (stamp_units u + fuzz_units rnd s))
    by (unfold_widths; divlia). now rewrite E.
Qed.

Lemma stamp_step s a b : 0 <= sys_fuzz_nsec s -> ns a + sys_fuzz_nsec s <= ns b -> stamp_units a + fuzz_max s <= stamp_units b.
Proof. intros F H. unfold stamp_units, fuzz_max, JAN_1970, NANOSECONDS in *. divlia. Qed.

(** The results do not go back while the fuzz stays in its range. *)
Lemma fuzzed_sorted s obs : forall prev used,
  0 <= sys_fuzz_nsec s -> Forall (fun o => 0 <= fuzz_units (snd o) s <= fuzz_max s) obs ->
  advances (sys_fuzz_nsec s) (ns prev) (map fst obs) used ->
  StronglySorted Z.le (fuzzed s used obs) /\ Forall (Z.le (stamp_units prev + fuzz_max s)) (fuzzed s used obs).
Proof.
  induction obs as [|[os rnd] obs IH]; intros prev used F H A; destruct used as [|u used]; try contradiction; [split; constructor |].
  cbn [map fst advances] in A. destruct A as (A1 & _ & _ & A). inversion H as [|? ? H1 H2]; subst. cbn [snd] in H1.
  destruct (IH u used F H2 A) as [S L]. pose proof (stamp_step s prev u F A1) as St. cbn [fuzzed].
  assert (Lt : forall x, In x (fuzzed s used obs) -> stamp_units u + fuzz_max s <= x) by (rewrite Forall_forall in L; exact L).
  split; constructor; try assumption; try lia; apply Forall_forall; intros x Hx; specialize (Lt x Hx); lia.
Qed.

(** A sequence of calls. *)
Lemma read_all_spec obs : forall s,
  clock_ok s -> lamport_violated s = false -> Forall (fun o => readable (fst o)) obs ->
  match read_all obs s with
  | Some (used, rs, _) => advances (sys_fuzz_nsec s) (ns (ts_prev s)) (map fst obs) used /\ rs = map lfp_of (fuzzed s used obs)
  | None => exists pre os rnd post used rs s1, obs = pre ++ (os, rnd) :: post /\ read_all pre s = Some (used, rs, s1) /\
      ns os + NANOSECONDS <= ns (ts_prev s1) + sys_fuzz_nsec s
  end.
Proof.
  induction obs as [|[os rnd] obs IH]; intros s C V H; [split; [exact I | reflexivity] |].
  inversion H as [|? ? Hr Ho]; subst. cbn [fst] in Hr.
  cbn [read_all map fst]. destruct (get_systime_spec os rnd s C Hr) as [(E & _ & E1) | (ts & E & St & G1 & G2 & _)]; rewrite E.
  { exists [], os, rnd, obs, [], [], s. repeat split. exact E1. }
  pose proof (keep_ok ts rnd s C St) as C1. specialize (IH (keep_time ts rnd s) C1 eq_refl Ho).
  destruct (read_all obs _) as [[[used rs] s2]|] eqn:R.
  - destruct IH as [A Er]. cbn [advances fuzzed map]. split.
    + split; [now apply G1 |]. split; [exact G2 |]. split; [apply C1 | exact A].
    + rewrite (with_fuzz_value ts rnd s (proj1 St)), Er, (fuzzed_same s) by reflexivity. reflexivity.
  - destruct IH as (pre & os' & rnd' & post & used & rs & s' & -> & R' & L). exists ((os, rnd) :: pre), os', rnd', post.
    cbn [read_all]. rewrite E, R'. now exists (ts :: used), (with_fuzz ts rnd s :: rs), s'.
Qed.


(** ** Steps *)

Lemma frac_range f : is_u32 f -> 0 <= frac_to_unit MICROSECONDS f <= MICROSECONDS.
Proof.
  intros H. unfold frac_to_unit, MICROSECONDS. rewrite Z.shiftr_div_pow2 by lia. unfold_widths. unfold_ranges. divlia.
Qed.

(** The time a step sets: normal, in the era around the pivot. *)
Lemma stamp_in_era x p now :
  is_u32 (l_ui x) -> is_u32 (l_uf x) -> Z.abs p < 2 ^ 55 ->
  normal MICROSECONDS (lfp_stamp_to_tval x (Some p) now) /\ p - 2 ^ 31 <= tv_sec (lfp_stamp_to_tval x (Some p) now) <= p + 2 ^ 31.
Proof.
  intros H1 H2 Hp. unfold lfp_stamp_to_tval, lfp_stamp_to_ts, normalize_tval.
  destruct (ntp_to_time_spec (l_ui x) p now H1 ltac:(lia)) as [U1 _]. pose proof (frac_range _ H2) as F.
  set (u := q_s _) in *. set (f := frac_to_unit _ _) in *. clearbody u f.
  rewrite (normalize_spec MICROSECONDS ltac:(now right)) by (cbn; unfold MICROSECONDS in *; lia).
  unfold normal, ts_of, ts_val, MICROSECONDS in *. cbn. divlia.
Qed.

Lemma step_pivot_bound bd : Z.abs (step_pivot bd) < 2 ^ 55.
Proof.
  unfold step_pivot. destruct bd as [jd|]; [| reflexivity]. unfold ntpcal_date_to_time, ntpcal_dayjoin, ntpcal_date_to_daysec, ntpcal_etime_to_seconds.
  match goal with |- context [s64 (s64 (s32 ?a * _) + s32 ?b)] => pose proof (s32_range a); pose proof (s32_range b); unfold is_s32 in *; set (x := s32 a) in *; set (y := s32 b) in * end.
  clearbody x y. unfold SECSPERDAY. rewrite (s64_small (x * _)), (s64_small (_ + y)) by (unfold_ranges; lia).
  unfold vint64_to_time, q_s, of_q_s. unfold_widths. divlia.
Qed.

Lemma L_ADD_words a b : is_u32 (l_ui (L_ADD a b)) /\ is_u32 (l_uf (L_ADD a b)).
Proof. unfold L_ADD, M_ADD. cbn. unfold_widths. unfold_ranges. split; divlia. Qed.

(** A step of the clock asks the system for a normal time within half an
    era of the pivot taken from the build date, clears the residual and, when
    it was a step back, lets exactly one call of [get_systime] follow the
    system clock back, whatever it reads, without giving up. *)
Theorem step_systime_spec (bd : option calendar) (step : double) (os r : tstamp) (rnd : Z) (callback : bool) (s : systime) :
  clock_ok s -> readable r ->
  exists tv s1, step_systime bd step os true callback s = (true, s1) /\
    normal MICROSECONDS tv /\ step_pivot bd - 2 ^ 31 <= tv_sec tv <= step_pivot bd + 2 ^ 31 /\
    calls s1 = calls s ++ SetTod tv :: (if callback then [StepCallback] else []) /\ sys_residual s1 = dofZ 0 /\
    ((step <d dofZ 0) = true ->
     get_systime r rnd s1 = Some (with_fuzz r rnd s1, keep_time r rnd s1) /\ lamport_violated (keep_time r rnd s1) = false).
Proof.
  intros C Hr. set (tv := lfp_stamp_to_tval (L_ADD (tspec_stamp_to_lfp (get_ostime os s)) (L_ADD (DTOLFP step) (DTOLFP (sys_residual s))))
                            (Some (step_pivot bd)) 0).
  destruct (L_ADD_words (tspec_stamp_to_lfp (get_ostime os s)) (L_ADD (DTOLFP step) (DTOLFP (sys_residual s)))) as [W1 W2].
  destruct (stamp_in_era _ (step_pivot bd) 0 W1 W2 (step_pivot_bound bd)) as [N R]. fold tv in N, R.
  exists tv. eexists. split; [reflexivity |]. split; [exact N |]. split; [exact R |].
  split; [destruct callback; cbn; now rewrite <- ?app_assoc |]. split; [now destruct callback |]. intros B. rewrite B. split; [| reflexivity].
  match goal with |- get_systime r rnd ?x = _ => set (s1 := x) end.
  assert (C1 : clock_ok s1) by (unfold s1; destruct callback; destruct C; now split).
  destruct (get_systime_spec r rnd s1 C1 Hr) as [(_ & V & _) | (ts & E & _ & _ & _ & G)].
  - unfold s1 in V. now destruct callback.
  - rewrite (G ltac:(unfold s1; now destruct callback)) in E. exact E.
Qed.

(** ** A concrete clock: a tick and a fuzz of a microsecond *)

Definition sample_clock : systime :=
  mk_systime (dlit 1 6) (dlit 1 6) 1000 (dofZ 0) false false false (mk_ts 1000000000 5) L_CLR (dofZ 0) [].
Lemma sample_clock_ok : clock_ok sample_clock.
Proof. repeat split; cbn; unfold NANOSECONDS; lia. Qed.


(** The next timestamp need not be strictly later: a full fuzz, and then
    none, a microsecond on. *)
Example readings_can_repeat :
  let obs := [(mk_ts 1000000000 1012, 2147483647); (mk_ts 1000000000 2012, 0)] in
  exists used t s', read_all obs sample_clock = Some (used, [t; t], s').
Proof. vm_compute. do 3 eexists. reflexivity. Qed.

Lemma step_systime_spec_witness :
  clock_ok sample_clock /\ readable (mk_ts 999999000 0) /\
  exists s1, step_systime None (dneg (dofZ 1000)) (mk_ts 1000000000 0) true false sample_clock = (true, s1) /\
    calls s1 = [SetTod (mk_ts 999999000 0)] /\
    get_systime (mk_ts 999999000 0) 3 s1 = Some (with_fuzz (mk_ts 999999000 0) 3 s1, keep_time (mk_ts 999999000 0) 3 s1).
Proof.
  assert (R : readable (mk_ts 999999000 0)) by (unfold readable, normal, NANOSECONDS; cbn; lia).
  split; [exact sample_clock_ok |]. split; [exact R |].
  destruct (step_systime_spec None (dneg (dofZ 1000)) (mk_ts 1000000000 0) (mk_ts 999999000 0) 3 false sample_clock sample_clock_ok R)
    as (tv & s1 & E & _ & _ & K & _ & G).
  exists s1. split; [exact E |]. split; [| apply G; vm_compute; reflexivity].
  assert (E1 : s1 = snd (step_systime None (dneg (dofZ 1000)) (mk_ts 1000000000 0) true false sample_clock)) by now rewrite E.
  rewrite E1. vm_compute. reflexivity.
Defined.

(** An adjustment of half a millisecond and a bit, in microseconds; the rest
    stays for the next one. *)
Example adj_example :
  let '(ok, s1) := adj_systime (dlit 5004 7) true sample_clock in
  ok = true /\ calls s1 = [AdjTime (mk_ts 0 500)] /\ (dlit 3 7 <d sys_residual s1) = true /\ (sys_residual s1 <d dlit 5 7) = true.
Proof. vm_compute. repeat split. Qed.
