(* ===== verification/Text.v ===== *)
(** * Text: characters, the conversions of [snprintf] and the string
      conversions of libntp

    A character is its code and a string the list of its characters without
    the terminating NUL.  The conversions of the C library are the ones the
    daemon uses: decimal and hexadecimal integers, zero padding, and the
    fixed notation of a double, which rounds the exact value to nearest
    even. *)

From Stdlib Require Import Ascii String SpecFloat.
From S2P Require Import Prelude FixedPoint Double NtpTypes.
#[local] Open Scope Z_scope.

Definition chars (s : string) : list Z := map (fun a => Z.of_N (N_of_ascii a)) (list_ascii_of_string s).
Notation "'txt' s" := (chars s%string) (at level 9, only parsing) : ntp_scope.

(** ** ctype.h, in the C locale *)

Definition isdigit (c : Z) : bool := (48 <=? c) && (c <=? 57).
Definition isspace (c : Z) : bool := (c =? 32) || ((9 <=? c) && (c <=? 13)).
Definition isprint (c : Z) : bool := (32 <=? c) && (c <=? 126).
Definition isxdigit (c : Z) : bool :=
  isdigit c || ((97 <=? c) && (c <=? 102)) || ((65 <=? c) && (c <=? 70)).

Fixpoint skip (f : Z -> bool) (l : list Z) : list Z :=
  match l with
  | [] => []
  | c :: l' => if f c then skip f l' else l
  end.
Fixpoint span (f : Z -> bool) (l : list Z) : list Z :=
  match l with
  | [] => []
  | c :: l' => if f c then c :: span f l' else []
  end.

(** ** Integers *)

Definition digit_char (d : Z) : Z := if d <? 10 then 48 + d else 87 + d.

(** The digits of [n], most significant first, before [acc]. *)
Fixpoint digits (fuel : nat) (base n : Z) (acc : list Z) : list Z :=
  match fuel with
  | O => acc
  | S fuel =>
      let acc := digit_char (n mod base) :: acc in
      if n / base =? 0 then acc else digits fuel base (n / base) acc
  end.
Definition fmt_base (base n : Z) : list Z := digits (S (Z.to_nat (Z.log2 n))) base n [].

(** "%lu", "%ld", "%lx", and a field of width [w] filled with zeros. *)
Definition fmt_u (n : Z) : list Z := fmt_base 10 n.
Definition fmt_d (n : Z) : list Z := if n <? 0 then 45 :: fmt_u (- n) else fmt_u n.
Definition fmt_x (n : Z) : list Z := fmt_base 16 n.
Definition pad0 (w : nat) (l : list Z) : list Z := repeat 48 (w - length l) ++ l.

(** ** Doubles: "%.nf" *)

(** The value times [k], rounded to nearest even; [m * 2^e] is the value. *)
Definition round_scaled (m e k : Z) : Z :=
  if 0 <=? e then m * 2 ^ e * k
  else
    let q := m * k / 2 ^ (- e) in
    let r := m * k mod 2 ^ (- e) in
    let half := 2 ^ (- e - 1) in
    if (half <? r) || ((r =? half) && Z.odd q) then q + 1 else q.
Definition fmt_fixed (prec : nat) (n : Z) : list Z :=
  let k := 10 ^ Z.of_nat prec in
  fmt_u (n / k) ++ (if Nat.eqb prec 0 then [] else 46 :: pad0 prec (fmt_u (n mod k))).
Definition sign_text (s : bool) : list Z := if s then [45] else [].
Definition fmt_f (prec : nat) (d : double) : list Z :=
  match d with
  | S754_nan => txt "nan"
  | S754_infinity s => sign_text s ++ txt "inf"
  | S754_zero s => sign_text s ++ fmt_fixed prec 0
  | S754_finite s m e => sign_text s ++ fmt_fixed prec (round_scaled (Zpos m) e (10 ^ Z.of_nat prec))
  end.

(** ** String to integer: atoint.c, atouint.c, hextoint.c, octtoint.c *)

Fixpoint atoint_loop (oflow_digit u : Z) (cp : list Z) : option Z :=
  match cp with
  | [] => Some u
  | c :: cp =>
      if negb (isdigit c) then None
      else if (214748364 <? u) || ((u =? 214748364) && (oflow_digit <? c)) then None
      else atoint_loop oflow_digit (s64 (s64 (Z.shiftl u 3) + s64 (Z.shiftl u 1) + (c - 48))) cp
  end.
Definition atoint (str : list Z) : option Z :=
  let '(isneg, cp) := match str with c :: cp => if c =? 45 then (true, cp) else (false, str) | [] => (false, str) end in
  match cp with
  | [] => None
  | _ => option_map (fun u => if isneg then s64 (- u) else u) (atoint_loop (if isneg then 56 else 55) 0 cp)
  end.

Fixpoint atouint_loop (u : Z) (cp : list Z) : option Z :=
  match cp with
  | [] => Some u
  | c :: cp =>
      if negb (isdigit c) then None
      else if (429496729 <? u) || ((u =? 429496729) && (54 <=? c)) then None
      else atouint_loop (u64 (u64 (Z.shiftl u 3) + u64 (Z.shiftl u 1) + (c - 48))) cp
  end.
Definition atouint (str : list Z) : option Z := match str with [] => None | _ => atouint_loop 0 str end.

Definition xdigit_val (c : Z) : Z :=
  if isdigit c then c - 48 else if (97 <=? c) && (c <=? 102) then c - 97 + 10 else c - 65 + 10.
Fixpoint hextoint_loop (u : Z) (cp : list Z) : option Z :=
  match cp with
  | [] => Some u
  | c :: cp =>
      if negb (isxdigit c) then None
      else if has u 0xF0000000 then None
      else hextoint_loop (u64 (u64 (Z.shiftl u 4) + xdigit_val c)) cp
  end.
Definition hextoint (str : list Z) : option Z := match str with [] => None | _ => hextoint_loop 0 str end.

Fixpoint octtoint_loop (u : Z) (cp : list Z) : option Z :=
  match cp with
  | [] => Some u
  | c :: cp =>
      if negb (isdigit c) || (c =? 56) || (c =? 57) then None
      else if 0x20000000 <=? u then None
      else octtoint_loop (u64 (u64 (Z.shiftl u 3) + (c - 48))) cp
  end.
Definition octtoint (str : list Z) : option Z := match str with [] => None | _ => octtoint_loop 0 str end.

(** ** Addresses: numtoa.c, socktoa.c, refnumtoa.c *)

Definition dotted (num : Z) : list Z :=
  fmt_u (Z.shiftr num 24 .& 0xff) ++ 46 :: fmt_u (Z.shiftr num 16 .& 0xff) ++ 46 ::
  fmt_u (Z.shiftr num 8 .& 0xff) ++ 46 :: fmt_u (num .& 0xff).
Definition numtoa : Z -> list Z := dotted.

(** [inet_ntop] on an IPv6 address is the C library's. *)
Class NetText := inet_ntop6 : Z -> list Z.

Section Addresses.
Context `{NetText}.
Definition socktoa (sock : option sockaddr) : list Z :=
  match sock with
  | None => txt "(null)"
  | Some a =>
      if (sa_family a =? AF_INET) || (sa_family a =? 0) then dotted (sa_addr a)
      else if sa_family a =? AF_INET6 then
        let res := inet_ntop6 (sa_addr a) in
        if nonzero (sa_scope a) && negb (existsb (Z.eqb 37) res) then res ++ 37 :: fmt_u (sa_scope a) else res
      else txt "(socktoa unknown family " ++ fmt_d (sa_family a) ++ [41]
  end.
Definition sockporttoa (sock : sockaddr) : list Z :=
  let atext := socktoa (Some sock) in
  if IS_IPV6 sock then 91 :: atext ++ txt "]:" ++ fmt_u (sa_port sock)
  else atext ++ 58 :: fmt_u (sa_port sock).
End Addresses.
