(* ===== verification/TextFacts.v ===== *)
(** * Text: integers printed are integers read *)

From Stdlib Require Import Ascii String.
From S2P Require Import Prelude FixedPoint Double NtpTypes Text.
From stdpp Require Import base list.
#[local] Open Scope Z_scope.

(** ** Scanning *)

Definition stops (f : Z -> bool) (l : list Z) : Prop := match l with [] => True | ch :: _ => f ch = false end.

Lemma skip_stop f pre l : Forall (fun ch => f ch = true) pre -> stops f l -> skip f (pre ++ l) = l.
Proof.
  intros H1 H2. induction H1 as [|x pre Hx _ IH]; cbn [app]; [| cbn; now rewrite Hx].
  destruct l as [|y l]; [done |]. cbn in H2 |- *. now rewrite H2.
Qed.
Lemma span_stop f a l : Forall (fun ch => f ch = true) a -> stops f l -> span f (a ++ l) = a.
Proof.
  intros H1 H2. induction H1 as [|x a Hx _ IH]; cbn [app]; [| cbn; now rewrite Hx, IH].
  destruct l as [|y l]; [done |]. cbn in H2 |- *. now rewrite H2.
Qed.

(** ** Digits *)

Definition digit_of (base ch : Z) : Prop := exists d, 0 <= d < base /\ ch = digit_char d.

Lemma digit_char_val d : 0 <= d < 16 -> xdigit_val (digit_char d) = d.
Proof.
  intros Hd. unfold xdigit_val, digit_char, isdigit.
  destruct (Z.ltb_spec d 10).
  - rewrite (proj2 (Z.leb_le 48 (48 + d))), (proj2 (Z.leb_le (48 + d) 57)) by lia. cbn [andb]. lia.
  - rewrite (proj2 (Z.leb_gt (87 + d) 57)) by lia. rewrite andb_false_r.
    rewrite (proj2 (Z.leb_le 97 (87 + d))), (proj2 (Z.leb_le (87 + d) 102)) by lia. cbn [andb]. lia.
Qed.

Lemma digit_char_range base ch : base <= 16 -> digit_of base ch -> 48 <= ch <= 57 \/ (97 <= ch <= 102 /\ 10 < base).
Proof. intros Hb (d & Hd & ->). unfold digit_char. destruct (Z.ltb_spec d 10); lia. Qed.

Lemma digit_isxdigit ch : digit_of 16 ch -> isxdigit ch = true.
Proof.
  intros Hd. destruct (digit_char_range 16 ch ltac:(lia) Hd) as [? | [? _]]; unfold isxdigit, isdigit; lia.
Qed.

Lemma digit_isdigit ch : digit_of 10 ch -> isdigit ch = true /\ xdigit_val ch = ch - 48.
Proof.
  intros Hd. destruct (digit_char_range 10 ch ltac:(lia) Hd) as [? | [? ?]]; [| lia].
  assert (E : isdigit ch = true) by (unfold isdigit; lia). unfold xdigit_val. now rewrite E.
Qed.

Definition number (base : Z) (a : Z) (l : list Z) : Z := fold_left (fun a ch => a * base + xdigit_val ch) l a.

Lemma number_app base a l1 l2 : number base a (l1 ++ l2) = number base (number base a l1) l2.
Proof. apply fold_left_app. Qed.

Lemma number_shift base a l : number base a l = a * base ^ Z.of_nat (length l) + number base 0 l.
Proof.
  revert a. induction l as [|ch l IH]; intros a; cbn [number fold_left length]; [lia |].
  fold (number base (a * base + xdigit_val ch) l). fold (number base (0 * base + xdigit_val ch) l).
  rewrite IH, (IH (0 * base + _)), Nat2Z.inj_succ, Z.pow_succ_r by lia. ring.
Qed.

(** ** What [digits] prints *)

Lemma digits_spec base fuel n acc :
  2 <= base <= 16 -> 0 <= n < 2 ^ Z.of_nat fuel -> (0 < fuel)%nat ->
  exists l, digits fuel base n acc = l ++ acc /\ Forall (digit_of base) l /\ number base 0 l = n /\ (0 < length l)%nat /\
    (forall k, 0 < k -> n < base ^ k -> Z.of_nat (length l) <= k).
Proof.
  intros Hb. revert n acc. induction fuel as [|fuel IH]; intros n acc Hn Hf; [lia |]. cbn [digits].
  pose proof (Z.mod_pos_bound n base ltac:(lia)) as Hm. pose proof (Z.div_mod n base ltac:(lia)) as Hd.
  assert (D : digit_of base (digit_char (n mod base))) by (exists (n mod base); done).
  destruct (Z.eqb_spec (n / base) 0) as [E | E].
  - exists [digit_char (n mod base)]. split; [done |]. split; [now constructor |].
    split; [cbn; rewrite digit_char_val; lia |]. split; [cbn; lia |]. intros k Hk _. cbn. lia.
  - assert (Hq : 0 < n / base) by (pose proof (Z.div_pos n base); lia).
    rewrite Nat2Z.inj_succ, Z.pow_succ_r in Hn by lia. assert (Hq2 : n / base < 2 ^ Z.of_nat fuel) by nia.
    destruct fuel as [|fuel']; [cbn in Hq2; lia |].
    destruct (IH (n / base) (digit_char (n mod base) :: acc)) as (l & E1 & F & V & L & K); [lia | lia |].
    exists (l ++ [digit_char (n mod base)]). rewrite E1, <- app_assoc. split; [done |].
    split; [apply Forall_app; split; [done | now constructor] |].
    split; [rewrite number_app, V; cbn; rewrite digit_char_val; lia |]. rewrite length_app. cbn [length]. split; [lia |].
    intros k Hk Hnk. destruct (Z.eq_dec k 1) as [-> |]; [rewrite Z.pow_1_r in Hnk; rewrite Z.div_small in Hq; lia |].
    specialize (K (k - 1) ltac:(lia)). replace k with (Z.succ (k - 1)) in Hnk by lia. rewrite Z.pow_succ_r in Hnk by lia.
    assert (n / base < base ^ (k - 1)) by (apply Z.div_lt_upper_bound; lia). lia.
Qed.

Lemma fmt_base_spec base n :
  2 <= base <= 16 -> 0 <= n ->
  Forall (digit_of base) (fmt_base base n) /\ number base 0 (fmt_base base n) = n /\ (0 < length (fmt_base base n))%nat /\
  (forall k, 0 < k -> n < base ^ k -> Z.of_nat (length (fmt_base base n)) <= k).
Proof.
  intros Hb Hn. unfold fmt_base.
  destruct (digits_spec base (S (Z.to_nat (Z.log2 n))) n []) as (l & E & F & V & L & K); [lia | | lia |].
  - split; [lia |]. rewrite Nat2Z.inj_succ, Z2Nat.id by apply Z.log2_nonneg.
    destruct (Z.eq_dec n 0) as [-> | Hne]; [cbn; lia |]. apply Z.log2_spec. lia.
  - rewrite E, app_nil_r. done.
Qed.

Lemma pad0_spec base w l :
  2 <= base -> Forall (digit_of base) l -> (length l <= w)%nat ->
  Forall (digit_of base) (pad0 w l) /\ number base 0 (pad0 w l) = number base 0 l /\ length (pad0 w l) = w.
Proof.
  intros Hb F Hw. unfold pad0. split; [| split].
  - apply Forall_app. split; [| done]. apply Forall_forall. intros x Hx%list_elem_of_In%repeat_spec. subst x.
    exists 0. split; [lia | done].
  - rewrite number_app. f_equal. generalize (w - length l)%nat. intros k. induction k as [|k IH]; [done |]. exact IH.
  - rewrite length_app, repeat_length. lia.
Qed.

(** ** Reading decimals back *)

Lemma number_bound base l : 2 <= base <= 16 -> Forall (digit_of base) l -> forall a, 0 <= a -> a <= number base a l.
Proof.
  intros Hb F. induction F as [|ch l (d & Hd & ->) F IH]; intros a Ha; cbn; [lia |].
  rewrite digit_char_val by lia. specialize (IH (a * base + d) ltac:(nia)). unfold number in IH. nia.
Qed.

(** The overflow test of the decimal loops cuts nothing off that fits. *)
Lemma atouint_loop_spec u l :
  0 <= u -> Forall (digit_of 10) l -> number 10 u l < 2 ^ 32 -> atouint_loop u l = Some (number 10 u l).
Proof.
  intros Hu F. revert u Hu. induction F as [|ch l D F IH]; intros u Hu Hn; cbn [atouint_loop]; [done |].
  destruct (digit_isdigit ch D) as [E V]. rewrite E. cbn [negb]. cbn [number fold_left] in *.
  fold (number 10 (u * 10 + xdigit_val ch) l) in *. rewrite V in *.
  destruct (digit_char_range 10 ch ltac:(lia) D) as [R | [? ?]]; [| lia].
  pose proof (number_bound 10 l ltac:(lia) F (u * 10 + (ch - 48)) ltac:(lia)) as Hb.
  rewrite (proj2 (Z.ltb_ge 429496729 u)) by lia. cbn [orb].
  assert (G : (u =? 429496729) && (54 <=? ch) = false).
  { destruct (Z.eqb_spec u 429496729) as [-> |]; [| done]. apply Z.leb_gt. lia. }
  rewrite G, !Z.shiftl_mul_pow2 by lia. change (2 ^ 3) with 8. change (2 ^ 1) with 2.
  unfold u64, wrap. rewrite !(Z.mod_small (u * _)), Z.mod_small by lia.
  replace (u * 8 + u * 2 + (ch - 48)) with (u * 10 + (ch - 48)) by lia. apply IH; lia.
Qed.

Lemma atoint_loop_spec o u l :
  0 <= u -> Forall (digit_of 10) l -> 55 <= o <= 56 -> number 10 u l <= 2147483640 + (o - 48) ->
  atoint_loop o u l = Some (number 10 u l).
Proof.
  intros Hu F Ho. revert u Hu. induction F as [|ch l D F IH]; intros u Hu Hn; cbn [atoint_loop]; [done |].
  destruct (digit_isdigit ch D) as [E V]. rewrite E. cbn [negb]. cbn [number fold_left] in *.
  fold (number 10 (u * 10 + xdigit_val ch) l) in *. rewrite V in *.
  destruct (digit_char_range 10 ch ltac:(lia) D) as [R | [? ?]]; [| lia].
  pose proof (number_bound 10 l ltac:(lia) F (u * 10 + (ch - 48)) ltac:(lia)) as Hb.
  rewrite (proj2 (Z.ltb_ge 214748364 u)) by lia. cbn [orb].
  assert (G : (u =? 214748364) && (o <? ch) = false).
  { destruct (Z.eqb_spec u 214748364) as [-> |]; [| done]. apply Z.ltb_ge. lia. }
  rewrite G, !Z.shiftl_mul_pow2 by lia. change (2 ^ 3) with 8. change (2 ^ 1) with 2.
  rewrite (s64_small (u * 8)), (s64_small (u * 2)), s64_small by (unfold_ranges; lia).
  replace (u * 8 + u * 2 + (ch - 48)) with (u * 10 + (ch - 48)) by lia. apply IH; lia.
Qed.

Lemma hextoint_loop_spec u l :
  0 <= u -> Forall (digit_of 16) l -> number 16 u l < 2 ^ 32 -> hextoint_loop u l = Some (number 16 u l).
Proof.
  intros Hu F. revert u Hu. induction F as [|ch l D F IH]; intros u Hu Hn; cbn [hextoint_loop]; [done |].
  rewrite (digit_isxdigit ch D). cbn [negb]. cbn [number fold_left] in *.
  fold (number 16 (u * 16 + xdigit_val ch) l) in *. destruct D as (d & Hd & ->). rewrite digit_char_val in * by lia.
  pose proof (number_bound 16 l ltac:(lia) F (u * 16 + d) ltac:(lia)) as Hb.
  assert (G : has u 0xF0000000 = false).
  { unfold has, nonzero. change 0xF0000000 with (Z.shiftl 15 28). replace u with (u mod 2 ^ 28) by (apply Z.mod_small; lia).
    rewrite <- Z.land_ones by lia. rewrite <- Z.land_assoc, (Z.land_comm (Z.ones 28)).
    change (Z.land (Z.shiftl 15 28) (Z.ones 28)) with 0. now rewrite Z.land_0_r. }
  rewrite G, Z.shiftl_mul_pow2 by lia. change (2 ^ 4) with 16. unfold u64, wrap. rewrite !(Z.mod_small (u * 16)), Z.mod_small by lia.
  apply IH; lia.
Qed.

Lemma nonempty_cons {A} (l : list A) : (0 < length l)%nat -> exists x l', l = x :: l'.
Proof. destruct l; cbn; [lia | eauto]. Qed.

Lemma atouint_fmt n : is_u32 n -> atouint (fmt_u n) = Some n.
Proof.
  intros Hn. destruct (fmt_base_spec 10 n) as (F & V & L & _); [lia | apply Hn |]. unfold fmt_u, atouint.
  destruct (nonempty_cons _ L) as (x & l & E). rewrite E in *. rewrite atouint_loop_spec; [now rewrite V | lia | done | rewrite V; apply Hn].
Qed.

Lemma hextoint_fmt n : is_u32 n -> hextoint (fmt_x n) = Some n.
Proof.
  intros Hn. destruct (fmt_base_spec 16 n) as (F & V & L & _); [lia | apply Hn |]. unfold fmt_x, hextoint.
  destruct (nonempty_cons _ L) as (x & l & E). rewrite E in *. rewrite hextoint_loop_spec; [now rewrite V | lia | done | rewrite V; apply Hn].
Qed.

Lemma atoint_fmt n : is_s32 n -> atoint (fmt_d n) = Some n.
Proof.
  intros Hn. unfold is_s32 in Hn. unfold fmt_d, atoint. destruct (Z.ltb_spec n 0) as [H | H].
  - destruct (fmt_base_spec 10 (- n)) as (F & V & L & _); [lia | lia |]. unfold fmt_u. cbn [Z.eqb Pos.eqb].
    destruct (nonempty_cons _ L) as (x & l & E). rewrite E in *. rewrite atoint_loop_spec by (first [lia | assumption]).
    cbn [option_map]. rewrite V, s64_small by (unfold_ranges; lia). f_equal. lia.
  - destruct (fmt_base_spec 10 n) as (F & V & L & _); [lia | lia |]. unfold fmt_u.
    destruct (nonempty_cons _ L) as (x & l & E). rewrite E in *.
    assert (G : (x =? 45) = false).
    { apply Forall_cons in F as [Fx _]. destruct (digit_char_range 10 x ltac:(lia) Fx) as [? | [? ?]]; apply Z.eqb_neq; lia. }
    rewrite G. cbn [option_map]. rewrite atoint_loop_spec by (first [lia | assumption]). cbn [option_map]. now rewrite V.
Qed.

(** An integer printed is the integer read: decimal texts of unsigned and
    signed 32-bit integers and hexadecimal texts convert back, up to the
    largest values, where the digit loops test for overflow. *)
Theorem integer_text_roundtrip n :
  (is_u32 n -> atouint (fmt_u n) = Some n /\ hextoint (fmt_x n) = Some n) /\ (is_s32 n -> atoint (fmt_d n) = Some n).
Proof. split; intros Hn; [split; [now apply atouint_fmt | now apply hextoint_fmt] | now apply atoint_fmt]. Qed.

Lemma integer_text_roundtrip_witness :
  is_u32 4294967295 /\ atouint (fmt_u 4294967295) = Some 4294967295 /\ atoint (fmt_d (-2147483648)) = Some (-2147483648).
Proof.
  assert (H1 : is_u32 4294967295) by (unfold_ranges; lia). assert (H2 : is_s32 (-2147483648)) by (unfold_ranges; lia).
  split; [exact H1 |]. split; [exact (proj1 (proj1 (integer_text_roundtrip 4294967295) H1)) |].
  exact (proj2 (integer_text_roundtrip (-2147483648)) H2).
Defined.

(** One past the largest value is refused. *)
Example overflow_refused :
  atouint (fmt_u (2 ^ 32)) = None /\ atoint (fmt_d (2 ^ 31)) = None /\ atoint (fmt_d (- 2 ^ 31 - 1)) = None /\
  hextoint (fmt_x (2 ^ 32)) = None.
Proof. vm_compute. auto. Qed.
