(* ===== verification/Decimal.v ===== *)
(** * Fixed-point numbers as decimal text

    libntp/dolfptoa.c, atolfp.c, mstolfp.c, hextolfp.c and dofptoa.c.  The
    digits are assembled in a buffer of the size the code has, a pointer into
    it is its index, and [None] of a printing function is a write outside the
    buffer.  [u_long] has 64 bits.  A reading function returns [None] when it
    refuses the text; for [mstolfp] the outer [None] is a write past the end
    of its buffer. *)

From S2P Require Import Prelude FixedPoint NtpTypes Text.
From stdpp Require Import base list.
#[local] Open Scope Z_scope.

Definition put_at (i : nat) (d : Z) (buf : list Z) : option (list Z) :=
  if decide (i < length buf)%nat then Some (<[i := u8 d]> buf) else None.

Definition times10 (bits x : Z) : Z := (((x * 8) mod 2 ^ bits) + ((x * 2) mod 2 ^ bits)) mod 2 ^ bits.

(** ** dolfptoa.c *)

Definition CBUF_SIZE : nat := 24.

(** The integral part backwards from the index [dec]; the result is [cp]. *)
Fixpoint int_digits (dec : nat) (fpi : Z) (cbuf : list Z) : option (nat * list Z) :=
  match dec with
  | O => Some (O, cbuf)
  | S cp =>
      if fpi =? 0 then Some (dec, cbuf)
      else
        let digit := u32 (fpi - times10 32 (fpi / 10)) in
        cbuf ← put_at cp digit cbuf;
        int_digits cp (fpi / 10) cbuf
  end.

(** One decimal place: the digit that a fraction times ten moves in front of
    the point, and the rest of the fraction. *)
Definition next_digit (fpv : Z) : l_fp :=
  let x2 := M_LSHIFT (mk_lfp 0 fpv) in
  M_ADD (M_LSHIFT (M_LSHIFT x2)) x2.

Fixpoint frac_digits (dec : nat) (fpv : Z) (cpend : nat) (cbuf : list Z) : option (nat * Z * nat * list Z) :=
  match dec with
  | O => Some (O, fpv, cpend, cbuf)
  | S dec' =>
      if fpv =? 0 then Some (dec, fpv, cpend, cbuf)
      else
        let x := next_digit fpv in
        cbuf ← put_at cpend (l_ui x) cbuf;
        frac_digits dec' (l_uf x) (S cpend) cbuf
  end.

(** The carry of the rounding, from the index [tp] to the front; the result
    is the last place it reached. *)
Fixpoint carry_up (carry : bool) (tp : nat) (cbuf : list Z) : nat * list Z :=
  match carry, tp with
  | true, S tp =>
      let d := u8 (nth tp cbuf 0 + 1) in
      if d =? 10 then carry_up true tp (<[tp := 0]> cbuf) else (tp, <[tp := d]> cbuf)
  | _, _ => (tp, cbuf)
  end.

Fixpoint skip_zeros (fuel : nat) (cp cpdec : nat) (cbuf : list Z) : nat :=
  match fuel with
  | O => cp
  | S fuel => if (cp <? cpdec)%nat && (nth cp cbuf 0 =? 0) then skip_zeros fuel (S cp) cpdec cbuf else cp
  end.

(** The characters from [cp] to [cpend], with the point before [cpdec]. *)
Fixpoint put_digits (n : nat) (cp cpdec : nat) (cbuf : list Z) : list Z :=
  match n with
  | O => []
  | S n => (if (cp =? cpdec)%nat then [46] else []) ++ (nth cp cbuf 0 + 48) :: put_digits n (S cp) cpdec cbuf
  end.
Definition put_number (neg : bool) (cp cpdec cpend : nat) (cbuf : list Z) : list Z :=
  sign_text neg ++ put_digits (cpend - cp) cp cpdec cbuf.

(** The decimal places asked for, as the buffer has room for them. *)
Definition places (ndec : Z) (msec : bool) : nat :=
  Z.to_nat (Z.min (Z.max ndec 0 + if msec then 3 else 0) (Z.of_nat CBUF_SIZE - 10)).

Definition dolfptoa (fpi fpv : Z) (neg : bool) (ndec : Z) (msec : bool) : option (list Z) :=
  '(cp, cbuf) ← int_digits 10 fpi (repeat 0 CBUF_SIZE);
  let cpdec := (10 + if msec then 3 else 0)%nat in
  '(dec, fpv, cpend, cbuf) ← frac_digits (places ndec msec) fpv 10 cbuf;
  let '(cp, cpend, cbuf) :=
    if (0 <? dec)%nat then (cp, (cpend + dec)%nat, cbuf)
    else
      let '(tp, cbuf) := carry_up (has fpv 0x80000000) cpend cbuf in
      (if (tp <? cp)%nat then tp else cp, cpend, cbuf) in
  let cp := skip_zeros (cpdec - cp) cp cpdec cbuf in
  let cp := if (cpdec <=? cp)%nat then (cpdec - 1)%nat else cp in
  Some (put_number neg cp cpdec cpend cbuf).

Definition mfptoa_with (msec : bool) (v : l_fp) (ndec : Z) : option (list Z) :=
  let isneg := M_ISNEG (l_ui v) in
  let v := if isneg then M_NEG v else v in
  dolfptoa (l_ui v) (l_uf v) isneg ndec msec.
Definition mfptoa : l_fp -> Z -> option (list Z) := mfptoa_with false.
Definition mfptoms : l_fp -> Z -> option (list Z) := mfptoa_with true.

(** ** atolfp.c *)

(** The digits at [cp], at most [lim] of them: their number so far, the value
    and the rest of the text. *)
Fixpoint read_digits (lim : option nat) (n : nat) (dec : Z) (cp : list Z) : nat * Z * list Z :=
  match cp with
  | c :: cp' =>
      if isdigit c && match lim with None => true | Some m => (n <? m)%nat end
      then read_digits lim (S n) (u64 (times10 64 dec + (c - 48))) cp'
      else (n, dec, cp)
  | [] => (n, dec, cp)
  end.

Definition ten_to_the_n : list Z :=
  [0; 10; 100; 1000; 10000; 100000; 1000000; 10000000; 100000000; 1000000000].

(** The loop over [bit], which is [2^k] before the round with [S k]. *)
Fixpoint frac_bits (k : nat) (ten_fact tmp dec_f : Z) : Z * Z :=
  match k with
  | O => (tmp, dec_f)
  | S k =>
      let dec_f := u64 (Z.shiftl dec_f 1) in
      if ten_fact <=? dec_f then frac_bits k ten_fact (tmp .| Z.shiftl 1 (Z.of_nat k)) (dec_f - ten_fact)
      else frac_bits k ten_fact tmp dec_f
  end.
Definition frac_of_decimal (ndec : nat) (dec_f : Z) : Z :=
  if (0 <? ndec)%nat then
    let ten_fact := nth ndec ten_to_the_n 0 in
    let '(tmp, dec_f) := frac_bits 32 ten_fact 0 dec_f in
    if ten_fact <? u64 (Z.shiftl dec_f 1) then u64 (tmp + 1) else tmp
  else dec_f.

Definition starts (f : Z -> bool) (cp : list Z) : bool := match cp with c :: _ => f c | [] => false end.
Definition skip_one (ch : Z) (cp : list Z) : list Z := match cp with c :: cp' => if c =? ch then cp' else cp | [] => [] end.
Definition ends (cp : list Z) : bool := match cp with c :: _ => isspace c | [] => true end.

Definition atolfp (str : list Z) : option l_fp :=
  let cp := skip isspace str in
  let isneg := starts (Z.eqb 45) cp in
  let cp := skip_one 43 (skip_one 45 cp) in
  if negb (starts (fun c => (c =? 46) || isdigit c) cp) then None
  else
    let '(_, dec_i, cp) := read_digits None 0 0 cp in
    let fraction :=
      if ends cp then Some (O, 0)
      else if negb (starts (Z.eqb 46) cp) then None
      else
        let '(ndec, dec_f, cp) := read_digits (Some 9%nat) 0 0 (tl cp) in
        if ends (skip isdigit cp) then Some (ndec, dec_f) else None in
    '(ndec, dec_f) ← fraction;
    let dec_f := frac_of_decimal ndec dec_f in
    let '(dec_i, dec_f) :=
      if isneg then
        let v_f := u64 (Z.lnot dec_f + 1) in (u64 (Z.lnot dec_i + truth (v_f =? 0)), v_f)
      else (dec_i, dec_f) in
    Some (mk_lfp (u32 dec_i) (u32 dec_f)).

(** ** mstolfp.c: the point is moved three places in a copy of the text *)

Definition MS_BUF_SIZE : nat := 100.

Definition mstolfp (str : list Z) : option (option l_fp) :=
  let cp := skip isspace str in
  let minus := starts (Z.eqb 45) cp in
  let cp := skip_one 45 cp in
  if negb (starts (fun c => (c =? 46) || isdigit c) cp) then Some None
  else
    let ds := span isdigit cp in
    let n := length ds in
    let lead := if (3 <? n)%nat then take (n - 3) ds else [48] in
    let last := if (3 <? n)%nat then drop (n - 3) ds else repeat 48 (3 - n) ++ ds in
    let cp := skip isdigit cp in
    let '(tail, cp) := if starts (Z.eqb 46) cp then (span isdigit (tl cp), skip isdigit (tl cp)) else ([], cp) in
    let buf := sign_text minus ++ lead ++ [46] ++ last ++ tail in
    if (MS_BUF_SIZE <=? length buf)%nat then None
    else if ends cp then Some (atolfp buf) else Some None.

(** ** hextolfp.c *)

Fixpoint read_hex8 (n : nat) (dec : Z) (cp : list Z) : option (Z * list Z) :=
  match n, cp with
  | O, _ => Some (dec, cp)
  | S n, c :: cp => if isxdigit c then read_hex8 n (u64 (u64 (Z.shiftl dec 4) + xdigit_val c)) cp else None
  | S _, [] => None
  end.
Definition hextolfp (str : list Z) : option l_fp :=
  '(dec_i, cp) ← read_hex8 8 0 (skip isspace str);
  '(dec_f, cp) ← read_hex8 8 0 (skip_one 46 cp);
  if ends cp then Some (mk_lfp (u32 dec_i) (u32 dec_f)) else None.

(** ** dofptoa.c: 16 bits before and behind the point *)

Definition FBUF_SIZE : nat := 12.

Fixpoint short_digits (fuel : nat) (sv : Z) (cp : nat) (cbuf : list Z) : option (nat * list Z) :=
  match fuel, cp with
  | S fuel, S cp =>
      let q := sv / 10 in
      cbuf ← put_at cp (sv - (q * 8 + q * 2)) cbuf;
      if q =? 0 then Some (cp, cbuf) else short_digits fuel q cp cbuf
  | _, _ => None
  end.
Fixpoint short_frac (dec : nat) (val : Z) (cpend : nat) (cbuf : list Z) : option (Z * nat * list Z) :=
  match dec with
  | O => Some (val, cpend, cbuf)
  | S dec =>
      let val := times10 64 (val .& 0xffff) in
      cbuf ← put_at cpend (Z.shiftr val 16) cbuf;
      short_frac dec val (S cpend) cbuf
  end.
Fixpoint short_carry (tp : nat) (cbuf : list Z) : option (list Z) :=
  match tp with
  | O => None
  | S tp =>
      let d := u8 (nth tp cbuf 0 + 1) in
      if 10 <=? d then short_carry tp (<[tp := 0]> cbuf) else Some (<[tp := d]> cbuf)
  end.

Definition short_places (ndec : Z) (msec : bool) : nat :=
  Z.to_nat (Z.min (if msec then Z.max (swrap 16 (ndec + 3)) 3 else ndec) 6).

Definition dofptoa (fpv : Z) (neg : bool) (ndec : Z) (msec : bool) : option (list Z) :=
  let zero := repeat 0 FBUF_SIZE in
  '(cp, cbuf) ← if negb (has fpv 0xffff0000) then Some (4%nat, zero) else short_digits 5 (u16 (Z.shiftr fpv 16)) 5 zero;
  let cpdec := if msec then 8%nat else 5%nat in
  '(val, cpend, cbuf) ← short_frac (short_places ndec msec) fpv 5 cbuf;
  cbuf ← if has val 0x8000 then short_carry cpend cbuf else Some cbuf;
  let cp := skip_zeros (cpdec - 1 - cp) cp (cpdec - 1) cbuf in
  Some (put_number neg cp cpdec cpend cbuf).

Definition fptoa_with (msec : bool) (fpv ndec : Z) : option (list Z) :=
  let neg := fpv <? 0 in
  dofptoa (u32 (if neg then s32 (- fpv) else fpv)) neg ndec msec.
Definition fptoa : Z -> Z -> option (list Z) := fptoa_with false.
Definition fptoms : Z -> Z -> option (list Z) := fptoa_with true.
