(* ===== verification/DecimalFacts.v ===== *)
(** * Fixed-point numbers as decimal text: facts about Decimal.v

    [dolfptoa] prints the number rounded to the places asked for, as
    [fmt_fixed] prints an integer with a point; what [atolfp] and [mstolfp]
    read from a text of up to nine places is printed as the same text. *)

From Stdlib Require Import String.
From S2P Require Import Prelude FixedPoint NtpTypes Text TextFacts Decimal.
From stdpp Require Import base list.
#[local] Open Scope Z_scope.

Definition digit (d : Z) : Prop := 0 <= d < 10.
Definition dval (l : list Z) : Z := fold_left (fun a d => a * 10 + d) l 0.
Definition dtext (l : list Z) : list Z := map (fun d => d + 48) l.

(** ** Decimal numbers and their text *)

Lemma dtext_digits l : Forall digit l -> Forall (digit_of 10) (dtext l).
Proof.
  intros F. unfold dtext. induction F as [|d l D F IH]; constructor; [| exact IH].
  exists d. unfold digit_char. split; [exact D |]. rewrite (proj2 (Z.ltb_lt d 10)) by apply D. lia.
Qed.

Lemma dtext_number l a : Forall digit l -> number 10 a (dtext l) = fold_left (fun a d => a * 10 + d) l a.
Proof.
  intros F. revert a. induction F as [|d l D F IH]; intros a; [done |]. cbn [dtext map number fold_left].
  fold (dtext l). fold (number 10 (a * 10 + xdigit_val (d + 48)) (dtext l)). rewrite IH. f_equal.
  unfold xdigit_val, isdigit. unfold digit in D. rewrite (proj2 (Z.leb_le 48 (d + 48))), (proj2 (Z.leb_le (d + 48) 57)) by lia. cbn. lia.
Qed.

Lemma number_lt l : Forall (digit_of 10) l -> 0 <= number 10 0 l < 10 ^ Z.of_nat (length l).
Proof.
  intros F. induction F as [|ch l (d & Hd & ->) F IH]; [cbn; lia |].
  cbn [number fold_left length]. fold (number 10 (0 * 10 + xdigit_val (digit_char d)) l).
  rewrite number_shift, digit_char_val, Nat2Z.inj_succ, Z.pow_succ_r by lia. nia.
Qed.

Lemma number_cons ch l : number 10 0 (ch :: l) = xdigit_val ch * 10 ^ Z.of_nat (length l) + number 10 0 l.
Proof. cbn [number fold_left]. fold (number 10 (0 * 10 + xdigit_val ch) l). rewrite number_shift. f_equal. Qed.

Lemma number_inj l1 l2 :
  Forall (digit_of 10) l1 -> Forall (digit_of 10) l2 -> length l1 = length l2 ->
  number 10 0 l1 = number 10 0 l2 -> l1 = l2.
Proof.
  intros F. revert l2. induction F as [|c1 l1 (d1 & H1 & ->) F IH]; intros l2 F2 E N; [destruct l2; done |].
  destruct F2 as [|c2 l2 (d2 & H2 & ->) F2]; [done |]. cbn in E. injection E as E.
  rewrite !number_cons, !digit_char_val, E in N by lia.
  pose proof (number_lt _ F). pose proof (number_lt _ F2). rewrite E in *.
  assert (d1 = d2) by nia. subst d2. f_equal. apply IH; [done | done | lia].
Qed.

(** Digits without superfluous zeros in front are what is printed. *)
Lemma fmt_u_text l :
  Forall (digit_of 10) l -> (length l = 1%nat \/ exists c l', l = c :: l' /\ c <> 48) -> fmt_u (number 10 0 l) = l.
Proof.
  intros F H. pose proof (number_lt _ F) as B.
  destruct (fmt_base_spec 10 (number 10 0 l) ltac:(lia) ltac:(lia)) as (F' & N & P & K). fold (fmt_u (number 10 0 l)) in *.
  apply number_inj; [done | done | | done].
  assert (L : (0 < length l)%nat) by (destruct H as [H | (c & l' & -> & _)]; cbn; lia).
  specialize (K (Z.of_nat (length l)) ltac:(lia) ltac:(lia)).
  destruct H as [H | (c & l' & -> & C)]; [lia |]. cbn [length] in *.
  pose proof (number_lt _ F') as B'. rewrite N in B'. inversion F as [|? ? (d & D & E) Fl]; subst.
  assert (D1 : 1 <= d) by (destruct (Z.eq_dec d 0) as [-> |]; [now destruct C | lia]).
  pose proof (number_lt _ Fl) as Bl. set (w := length (fmt_u _)) in *. clearbody w.
  rewrite number_cons, digit_char_val in B' by lia. destruct (decide (w <= length l')%nat) as [X | X]; [exfalso | lia].
  pose proof (Z.pow_le_mono_r 10 (Z.of_nat w) (Z.of_nat (length l')) eq_refl ltac:(lia)). nia.
Qed.

Lemma pad0_text l : Forall (digit_of 10) l -> (0 < length l)%nat -> pad0 (length l) (fmt_u (number 10 0 l)) = l.
Proof.
  intros F L. pose proof (number_lt _ F) as B.
  destruct (fmt_base_spec 10 (number 10 0 l) ltac:(lia) ltac:(lia)) as (F' & N & P & K).
  specialize (K (Z.of_nat (length l)) ltac:(lia) ltac:(lia)).
  destruct (pad0_spec 10 (length l) (fmt_base 10 (number 10 0 l)) ltac:(lia) F' ltac:(lia)) as (F2 & N2 & L2).
  apply number_inj; [done | done | done |]. unfold fmt_u. now rewrite N2.
Qed.

(** A number with a point, from its digits. *)
Lemma fmt_fixed_text li lf :
  Forall (digit_of 10) li -> Forall (digit_of 10) lf ->
  (length li = 1%nat \/ exists c l', li = c :: l' /\ c <> 48) ->
  fmt_fixed (length lf) (number 10 0 (li ++ lf)) = li ++ (if Nat.eqb (length lf) 0 then [] else 46 :: lf).
Proof.
  intros Fi Ff H. unfold fmt_fixed. rewrite number_app, number_shift.
  pose proof (number_lt _ Ff) as B. pose proof (number_lt _ Fi) as Bi.
  rewrite Z.div_add_l, (Z.div_small (number 10 0 lf)), Z.add_0_r by lia.
  rewrite (Z.add_comm (_ * _)), Z.mod_add, (Z.mod_small (number 10 0 lf)) by lia. rewrite fmt_u_text by done. f_equal.
  destruct lf as [|c lf]; [done |]. cbn [length Nat.eqb]. f_equal. apply (pad0_text (c :: lf)); [done | cbn; lia].
Qed.

(** Every number is printed from such digits. *)
Lemma fmt_fixed_inv n N :
  0 <= N ->
  exists li lf, Forall (digit_of 10) li /\ Forall (digit_of 10) lf /\ length lf = n /\
    (length li = 1%nat \/ exists c l', li = c :: l' /\ c <> 48) /\
    number 10 0 li = N / 10 ^ Z.of_nat n /\ number 10 0 lf = N mod 10 ^ Z.of_nat n /\
    fmt_fixed n N = li ++ (if Nat.eqb n 0 then [] else 46 :: lf).
Proof.
  intros HN. set (k := 10 ^ Z.of_nat n). assert (Hk : 0 < k) by (apply Z.pow_pos_nonneg; lia).
  assert (Hq : 0 <= N / k) by (apply Z.div_pos; lia). pose proof (Z.mod_pos_bound N k Hk) as Hr.
  destruct (fmt_base_spec 10 (N / k) ltac:(lia) Hq) as (F1 & N1 & P1 & K1).
  exists (fmt_u (N / k)), (if Nat.eqb n 0 then [] else pad0 n (fmt_u (N mod k))). split; [done |].
  assert (Lead : length (fmt_u (N / k)) = 1%nat \/ exists c l', fmt_u (N / k) = c :: l' /\ c <> 48).
  { destruct (fmt_u (N / k)) as [|c l'] eqn:E; unfold fmt_u in E; rewrite E in *; [cbn in P1; lia |].
    destruct (decide (c = 48)) as [-> |]; [left | right; eauto].
    rewrite number_cons in N1. change (xdigit_val 48) with 0 in N1. inversion F1; subst.
    destruct l' as [|c' l']; [done |]. exfalso. pose proof (number_lt (c' :: l') ltac:(done)) as B.
    specialize (K1 (Z.of_nat (length (c' :: l'))) ltac:(cbn; lia) ltac:(lia)). cbn in K1. lia. }
  destruct (fmt_base_spec 10 (N mod k) ltac:(lia) ltac:(lia)) as (F2 & N2 & P2 & K2). unfold fmt_fixed. fold k.
  destruct n as [|n].
  { cbn [Nat.eqb]. split; [constructor |]. split; [done |]. split; [done |]. split; [done |].
    split; [subst k; cbn; now rewrite Z.mod_1_r | done]. }
  cbn [Nat.eqb]. specialize (K2 (Z.of_nat (S n)) ltac:(lia) ltac:(apply Hr)).
  destruct (pad0_spec 10 (S n) (fmt_base 10 (N mod k)) ltac:(lia) F2 ltac:(lia)) as (F3 & N3 & L3).
  repeat (split; [done |]). split; [| done]. unfold fmt_u. now rewrite N3.
Qed.

(** ** The digits of [dolfptoa] *)

Lemma dval_app l1 l2 : dval (l1 ++ l2) = dval l1 * 10 ^ Z.of_nat (length l2) + dval l2.
Proof.
  unfold dval. rewrite fold_left_app. generalize (fold_left (fun a d => a * 10 + d) l1 0). induction l2 as [|d l2 IH]; intros a; cbn [fold_left length].
  - lia.
  - rewrite IH, (IH (0 * 10 + d)), Nat2Z.inj_succ, Z.pow_succ_r by lia. ring.
Qed.
Lemma dval_zeros n : dval (repeat 0 n) = 0.
Proof. unfold dval. induction n; done. Qed.
Lemma dval_number l : Forall digit l -> number 10 0 (dtext l) = dval l.
Proof. apply dtext_number. Qed.
Lemma dval_bound l : Forall digit l -> 0 <= dval l < 10 ^ Z.of_nat (length l).
Proof. intros F. rewrite <- dval_number by done. pose proof (number_lt _ (dtext_digits _ F)) as B. unfold dtext in B. now rewrite length_map in B. Qed.
Lemma digits_zeros n : Forall digit (repeat 0 n).
Proof. apply Forall_forall. intros x Hx%list_elem_of_In%repeat_spec. subst x. unfold digit. lia. Qed.

Lemma times10_small bits x : 0 <= x -> 0 <= bits -> x * 10 < 2 ^ bits -> times10 bits x = x * 10.
Proof. intros. unfold times10. rewrite (Z.mod_small (x * 8)), (Z.mod_small (x * 2)), Z.mod_small by lia. lia. Qed.

Lemma put_at_app i l d x r : length l = i -> digit d -> put_at i d (l ++ x :: r) = Some (l ++ d :: r).
Proof.
  intros <- D. unfold put_at. rewrite decide_True by (rewrite length_app; cbn; lia). f_equal. unfold digit in D.
  rewrite u8_small by (unfold is_u8; lia). rewrite insert_app_r_alt, Nat.sub_diag by lia. done.
Qed.

Lemma repeat_snoc {A} (x : A) n r : repeat x (S n) ++ r = repeat x n ++ x :: r.
Proof. induction n as [|n IH]; [done |]. cbn [repeat app] in *. f_equal. exact IH. Qed.

Lemma int_digits_spec dec fpi r :
  0 <= fpi < 10 ^ Z.of_nat dec -> fpi < 2 ^ 32 ->
  exists cp ds, int_digits dec fpi (repeat 0 dec ++ r) = Some (cp, repeat 0 cp ++ ds ++ r) /\
    (cp + length ds = dec)%nat /\ Forall digit ds /\ dval ds = fpi.
Proof.
  revert fpi r. induction dec as [|cp IH]; intros fpi r H H32; cbn [int_digits].
  { exists O, []. repeat split; [constructor | cbn in *; lia]. }
  destruct (Z.eqb_spec fpi 0) as [-> | Hne]; [exists (S cp), []; repeat split; [cbn; lia | constructor] |].
  rewrite Nat2Z.inj_succ, Z.pow_succ_r in H by lia.
  assert (Hd : u32 (fpi - times10 32 (fpi / 10)) = fpi mod 10).
  { rewrite times10_small by divlia. rewrite u32_small by (unfold_ranges; divlia). divlia. }
  assert (D : digit (fpi mod 10)) by (unfold digit; divlia).
  rewrite Hd, repeat_snoc, put_at_app by (try apply repeat_length; done). cbn [mbind option_bind].
  destruct (IH (fpi / 10) (fpi mod 10 :: r)) as (cp' & ds & -> & L & F & V); [divlia | divlia |].
  exists cp', (ds ++ [fpi mod 10]). rewrite length_app, <- app_assoc. cbn [length app]. split; [done |]. split; [lia |].
  split; [apply Forall_app; split; [done | now constructor] |]. rewrite dval_app, V. cbn. divlia.
Qed.

Lemma M_LSHIFT_val v : is_u32 (l_uf v) -> 0 <= l_ui v < 2 ^ 31 -> lfp_val (M_LSHIFT v) = 2 * lfp_val v /\ is_u32 (l_uf (M_LSHIFT v)) /\ 0 <= l_ui (M_LSHIFT v).
Proof.
  intros Hf Hi. unfold M_LSHIFT, lfp_val. cbn [l_ui l_uf]. unfold is_u32 in *.
  rewrite !Z.shiftl_mul_pow2, Z.shiftr_div_pow2 by lia. unfold u32, wrap.
  rewrite (Z.mod_small (l_ui v * 2 ^ 1)) by lia.
  assert (E : Z.lor (l_ui v * 2 ^ 1) (l_uf v / 2 ^ 31) = l_ui v * 2 ^ 1 + l_uf v / 2 ^ 31).
  { apply lor_high_low; divlia. }
  rewrite E. divlia.
Qed.

Lemma next_digit_spec fpv : is_u32 fpv -> l_ui (next_digit fpv) = fpv * 10 / 2 ^ 32 /\ l_uf (next_digit fpv) = fpv * 10 mod 2 ^ 32.
Proof.
  intros H. assert (W : forall k v, lfp_val v = k * fpv -> 0 <= k <= 10 -> is_u32 (l_uf v) -> 0 <= l_ui v < 10).
  { intros k v V Hk Hv. unfold lfp_val, is_u32 in *. nia. }
  unfold next_digit.
  destruct (M_LSHIFT_val (mk_lfp 0 fpv)) as (V1 & F1 & I1); [done | cbn; lia |]. set (x2 := M_LSHIFT (mk_lfp 0 fpv)) in *.
  change (lfp_val (mk_lfp 0 fpv)) with (0 * 2 ^ 32 + fpv) in V1. pose proof (W 2 x2 ltac:(lia) ltac:(lia) F1).
  destruct (M_LSHIFT_val x2) as (V2 & F2 & I2); [done | lia |]. set (x4 := M_LSHIFT x2) in *. pose proof (W 4 x4 ltac:(lia) ltac:(lia) F2).
  destruct (M_LSHIFT_val x4) as (V3 & F3 & I3); [done | lia |]. set (x8 := M_LSHIFT x4) in *. pose proof (W 8 x8 ltac:(lia) ltac:(lia) F3).
  assert (W8 : lfp_wf x8) by (unfold lfp_wf, is_u32 in *; lia). assert (W2 : lfp_wf x2) by (unfold lfp_wf, is_u32 in *; lia).
  pose proof (lfp_val_add x8 x2 W8 W2) as V. pose proof (M_ADD_wf x8 x2) as [Wi Wf].
  unfold is_u32 in *. unfold u64, wrap in V. rewrite Z.mod_small in V by lia. unfold lfp_val in *. divlia.
Qed.

(** All places of the fraction, the zeros behind them included. *)
Lemma frac_digits_spec dec fpv p m :
  is_u32 fpv -> (dec <= m)%nat ->
  exists k fpv' ds, frac_digits dec fpv (length p) (p ++ repeat 0 m) = Some (k, fpv', (length p + length ds)%nat, p ++ ds ++ repeat 0 (m - length ds)) /\
    (length ds + k = dec)%nat /\ Forall digit ds /\ dval ds * 2 ^ 32 + fpv' = fpv * 10 ^ Z.of_nat (length ds) /\
    is_u32 fpv' /\ ((0 < k)%nat -> fpv' = 0).
Proof.
  revert fpv p m. induction dec as [|dec IH]; intros fpv p m H Hm; cbn [frac_digits].
  { exists O, fpv, []. rewrite Nat.add_0_r, Nat.sub_0_r. repeat split; [constructor | cbn; lia | apply H | apply H | lia]. }
  destruct (Z.eqb_spec fpv 0) as [-> | Hne].
  { exists (S dec), 0, []. rewrite Nat.add_0_r, Nat.sub_0_r. split; [done |]. split; [cbn; lia |]. split; [constructor |]. split; [cbn; lia | done]. }
  destruct (next_digit_spec fpv H) as [Ei Ef]. rewrite Ei, Ef. destruct m as [|m]; [lia |]. unfold is_u32 in H.
  assert (D : digit (fpv * 10 / 2 ^ 32)) by (unfold digit; divlia).
  cbn [repeat]. rewrite put_at_app by done. cbn [mbind option_bind].
  replace (p ++ _ :: repeat 0 m) with ((p ++ [fpv * 10 / 2 ^ 32]) ++ repeat 0 m) by now rewrite <- app_assoc.
  replace (S (length p)) with (length (p ++ [fpv * 10 / 2 ^ 32])) by (rewrite length_app; cbn; lia).
  destruct (IH (fpv * 10 mod 2 ^ 32) (p ++ [fpv * 10 / 2 ^ 32]) m) as (k & fpv' & ds & -> & L & F & V & U & Z0); [unfold is_u32; divlia | lia |].
  exists k, fpv', (fpv * 10 / 2 ^ 32 :: ds). rewrite length_app, <- !app_assoc. cbn [length app].
  split; [do 3 f_equal; lia |]. split; [lia |]. split; [now constructor |]. split; [| done].
  change (_ :: ds) with ([fpv * 10 / 2 ^ 32] ++ ds). rewrite dval_app, Nat2Z.inj_succ, Z.pow_succ_r by lia.
  change (dval [?x]) with x. pose proof (Z.div_mod (fpv * 10) (2 ^ 32) ltac:(lia)). nia.
Qed.

Lemma carry_up_spec l r :
  Forall digit l -> dval l + 1 < 10 ^ Z.of_nat (length l) ->
  exists tp l', carry_up true (length l) (l ++ r) = (tp, l' ++ r) /\ length l' = length l /\ Forall digit l' /\
    dval l' = dval l + 1 /\ (tp < length l)%nat /\ take tp l' = take tp l.
Proof.
  revert r. induction l as [|d l IH] using rev_ind; intros r F B; [cbn in B; lia |].
  apply Forall_app in F as [F D]. inversion D as [|? ? Dd _]; subst. clear D. rewrite length_app. cbn [length]. rewrite Nat.add_1_r.
  cbn [carry_up]. rewrite <- app_assoc. cbn [app]. rewrite app_nth2, Nat.sub_diag by lia. cbn [nth].
  rewrite dval_app in *. cbn [length] in *. change (dval [d]) with d in *. change (10 ^ Z.of_nat 1) with 10 in *. unfold digit in Dd.
  rewrite u8_small by (unfold is_u8; lia). rewrite length_app, Nat.add_1_r, Nat2Z.inj_succ, Z.pow_succ_r in B by lia.
  destruct (Z.eqb_spec (d + 1) 10) as [E | E].
  - rewrite insert_app_r_alt, Nat.sub_diag by lia. cbn [insert list_insert].
    destruct (IH (0 :: r)) as (tp & l' & -> & L & F' & V & T & K); [done | lia |].
    exists tp, (l' ++ [0]). rewrite <- app_assoc. split; [done |]. rewrite length_app. cbn [length]. split; [lia |].
    split; [apply Forall_app; split; [done | constructor; [unfold digit; lia | constructor]] |].
    split; [rewrite dval_app, V; cbn; lia |]. split; [lia |]. rewrite !take_app_le by lia. exact K.
  - exists (length l), (l ++ [d + 1]). rewrite insert_app_r_alt, Nat.sub_diag by lia. cbn [insert list_insert]. rewrite <- app_assoc.
    split; [done |]. rewrite length_app. cbn [length]. split; [lia |].
    split; [apply Forall_app; split; [done | constructor; [unfold digit; lia | constructor]] |].
    split; [rewrite dval_app; cbn; lia |]. split; [lia |]. rewrite !take_app_le by lia. done.
Qed.

(** Leading zeros go, but one digit stays in front of the point. *)
Lemma skip_zeros_spec fuel cp cpdec buf :
  (cpdec - cp <= fuel)%nat -> (cp <= cpdec)%nat -> (cpdec <= length buf)%nat -> take cp buf = repeat 0 cp ->
  let cp' := skip_zeros fuel cp cpdec buf in
  (cp <= cp' <= cpdec)%nat /\ take cp' buf = repeat 0 cp' /\ ((cp' < cpdec)%nat -> nth cp' buf 0 <> 0).
Proof.
  revert cp. induction fuel as [|fuel IH]; intros cp Hf Hc Hl Z0; cbn [skip_zeros]; [repeat split; [lia | lia | done | lia] |].
  destruct (Nat.ltb_spec cp cpdec) as [Lt | Ge]; cbn [andb]; [| repeat split; [lia | lia | done | lia]].
  destruct (Z.eqb_spec (nth cp buf 0) 0) as [E | E]; [| repeat split; [lia | lia | done | done]].
  destruct (IH (S cp)) as (B & T & K); [lia | lia | done | | split; [lia | done]].
  assert (X : buf !! cp = Some 0). { destruct (lookup_lt_is_Some_2 buf cp) as [x Hx]; [lia |]. rewrite (nth_lookup_Some _ _ 0 _ Hx) in E. congruence. }
  rewrite (take_S_r _ _ _ X), Z0. change (repeat 0 cp ++ [0] = repeat 0 (S cp)). now rewrite <- (app_nil_r (repeat 0 (S cp))), repeat_snoc.
Qed.

Lemma put_digits_app n m cp cpdec buf : put_digits (n + m) cp cpdec buf = put_digits n cp cpdec buf ++ put_digits m (cp + n) cpdec buf.
Proof.
  revert cp. induction n as [|n IH]; intros cp; cbn [Nat.add put_digits]; [now rewrite Nat.add_0_r |].
  rewrite IH, <- app_assoc. replace (cp + S n)%nat with (S cp + n)%nat by lia. done.
Qed.

Lemma put_digits_plain l cp cpdec a r :
  length a = cp -> (cp + length l <= cpdec \/ cpdec < cp)%nat -> put_digits (length l) cp cpdec (a ++ l ++ r) = dtext l.
Proof.
  revert cp a. induction l as [|d l IH]; intros cp a L H; [done |]. cbn [length put_digits dtext map].
  rewrite (proj2 (Nat.eqb_neq cp cpdec)) by (cbn [length] in H; lia). rewrite app_nth2, L, Nat.sub_diag by lia. cbn [nth app]. f_equal.
  replace (a ++ d :: l ++ r) with ((a ++ [d]) ++ l ++ r) by now rewrite <- app_assoc.
  apply IH; [rewrite length_app; cbn; lia | cbn [length] in H; lia].
Qed.

(** A buffer of digits, read from its leading zeros on. *)
Lemma put_number_fixed neg cp z li lf r :
  length z = cp -> Forall digit li -> Forall digit lf ->
  (length li = 1%nat \/ exists d l', li = d :: l' /\ d <> 0) ->
  put_number neg cp (cp + length li) (cp + length li + length lf) (z ++ li ++ lf ++ r) =
  sign_text neg ++ fmt_fixed (length lf) (dval (li ++ lf)).
Proof.
  intros Z0 Fi Ff H. unfold put_number. f_equal. rewrite <- dval_number by (apply Forall_app; done). unfold dtext at 1. rewrite map_app.
  pose proof (fmt_fixed_text (dtext li) (dtext lf) (dtext_digits _ Fi) (dtext_digits _ Ff)) as E. unfold dtext in E. rewrite !length_map in E.
  rewrite E. 2: { destruct H as [H | (d & l' & -> & D)]; [now left | right; exists (d + 48), (map (fun d => d + 48) l'); split; [done | lia]]. }
  replace (_ - cp)%nat with (length li + length lf)%nat by lia.
  rewrite put_digits_app, put_digits_plain by (try done; lia). f_equal.
  destruct lf as [|d lf]; [done |]. cbn [length Nat.eqb put_digits map]. rewrite Nat.eqb_refl. cbn [app].
  rewrite app_assoc, app_nth2 by (rewrite length_app; lia). rewrite length_app, Z0, Nat.sub_diag. cbn [nth]. do 2 f_equal.
  replace ((z ++ li) ++ d :: lf ++ r) with ((z ++ li ++ [d]) ++ lf ++ r) by now rewrite <- !app_assoc.
  apply put_digits_plain; [rewrite !length_app; cbn; lia | lia].
Qed.

(** [v] scaled by [10^n], rounded half up. *)
Definition scaled (v : Z) (n : nat) : Z := (v * 10 ^ Z.of_nat n + 2 ^ 31) / 2 ^ 32.
Definition ms_places (msec : bool) : nat := if msec then 3 else 0.

Lemma half_bit x : is_u32 x -> has x 0x80000000 = (2 ^ 31 <=? x).
Proof. apply M_ISNEG_spec. Qed.

Lemma take_zeros (n k : nat) : (n <= k)%nat -> take n (repeat 0 k) = repeat 0 n.
Proof. revert k. induction n as [|n IH]; intros [|k] H; [done | done | lia |]. cbn. f_equal. apply IH. lia. Qed.

(** The buffer once the rounding is done: the digits of the scaled number,
    with zeros in front of [cp]. *)
Lemma round_spec cp l es rem r :
  Forall digit (l ++ es) -> take cp (l ++ es) = repeat 0 cp -> (cp <= length (l ++ es))%nat -> is_u32 rem ->
  dval (l ++ es) + 1 < 10 ^ Z.of_nat (length (l ++ es)) ->
  exists cp' b, (let '(tp, cbuf) := carry_up (has rem 0x80000000) (length (l ++ es)) ((l ++ es) ++ r) in
                 (if (tp <? cp)%nat then tp else cp, cbuf)) = (cp', b ++ r) /\
    length b = length (l ++ es) /\ Forall digit b /\ (cp' <= cp)%nat /\ take cp' b = repeat 0 cp' /\
    dval b * 2 ^ 32 <= dval (l ++ es) * 2 ^ 32 + rem + 2 ^ 31 < dval b * 2 ^ 32 + 2 ^ 32.
Proof.
  generalize (l ++ es). clear l es. intros b F Z0 Hc U B. rewrite half_bit by done. unfold is_u32 in U. destruct (Z.leb_spec (2 ^ 31) rem).
  - destruct (carry_up_spec b r F B) as (tp & b' & -> & L & F' & V & T & K).
    exists (if (tp <? cp)%nat then tp else cp), b'. split; [done |]. split; [done |]. split; [done |]. rewrite V.
    destruct (Nat.ltb_spec tp cp); (split; [lia |]); (split; [| lia]).
    + rewrite K. assert (E : take tp b = take tp (take cp b)) by (rewrite take_take; f_equal; lia). rewrite E, Z0. apply take_zeros. lia.
    + assert (E : forall x : list Z, take cp x = take cp (take tp x)) by (intros; rewrite take_take; f_equal; lia). now rewrite E, K, <- E.
  - destruct b as [|d b]; cbn [length carry_up]; [exists O, []; cbn in *; split; [destruct cp; done |]; split; [done |]; split; [done |]; split; [lia |]; split; [done | lia] |].
    exists cp, (d :: b). rewrite (proj2 (Nat.ltb_ge _ _)) by (cbn in *; lia). split; [done |]. split; [done |]. split; [done |]. split; [lia |]. split; [done | lia].
Qed.

Lemma print_spec neg cp cpdec b r :
  Forall digit b -> (cp <= cpdec)%nat -> (0 < cpdec <= length b)%nat -> take cp b = repeat 0 cp ->
  (let cp := skip_zeros (cpdec - cp) cp cpdec (b ++ r) in
   let cp := if (cpdec <=? cp)%nat then (cpdec - 1)%nat else cp in
   put_number neg cp cpdec (length b) (b ++ r)) =
  sign_text neg ++ fmt_fixed (length b - cpdec) (dval b).
Proof.
  intros F Hc Hl Z0.
  destruct (skip_zeros_spec (cpdec - cp) cp cpdec (b ++ r)) as (B & T & K); [lia | lia | rewrite length_app; lia | |].
  { rewrite take_app_le by lia. done. }
  set (q := skip_zeros _ _ _ _) in *. cbn zeta. rewrite take_app_le in T by lia. set (c := if (cpdec <=? q)%nat then _ else q).
  assert (C : (c < cpdec)%nat /\ take c b = repeat 0 c /\ (S c = cpdec \/ nth c b 0 <> 0)).
  { subst c. destruct (Nat.leb_spec cpdec q).
    - split; [lia |]. split; [| left; lia]. assert (E : take (cpdec - 1) b = take (cpdec - 1) (take q b)) by (rewrite take_take; f_equal; lia).
      rewrite E, T. apply take_zeros. lia.
    - split; [lia |]. split; [done |]. right. rewrite app_nth1 in K by lia. apply K. lia. }
  clearbody c. clear K T B q. destruct C as (C1 & C2 & C3).
  assert (E : b = repeat 0 c ++ drop c (take cpdec b) ++ drop cpdec b).
  { rewrite app_assoc. rewrite <- (take_drop cpdec b) at 1. f_equal.
    rewrite <- (take_drop c (take cpdec b)) at 1. f_equal. rewrite take_take, Nat.min_l by lia. done. }
  set (li := drop c (take cpdec b)) in *. set (lf := drop cpdec b) in *.
  assert (Ll : length li = (cpdec - c)%nat) by (subst li; rewrite length_drop, length_take; lia).
  assert (Lf : length lf = (length b - cpdec)%nat) by (subst lf; apply length_drop).
  assert (Fi : Forall digit li) by (apply Forall_drop, Forall_take, F). assert (Ff : Forall digit lf) by (apply Forall_drop, F).
  pose proof (put_number_fixed neg c (repeat 0 c) li lf r (repeat_length _ _) Fi Ff) as P.
  assert (V : dval b = dval (li ++ lf)) by (rewrite E at 1; rewrite dval_app, dval_zeros; lia).
  rewrite V, <- Lf, <- P.
  - rewrite E at 2. rewrite <- !app_assoc. f_equal; lia.
  - destruct C3 as [C3 | C3]; [left; lia |]. right. rewrite E, app_nth2, repeat_length, Nat.sub_diag in C3 by (rewrite repeat_length; lia).
    destruct li as [|d l']; [cbn in Ll; lia |]. exists d, l'. split; [done |]. exact C3.
Qed.

Lemma places_bounds ndec msec : (ms_places msec <= places ndec msec <= 14)%nat.
Proof. unfold places, ms_places, CBUF_SIZE. destruct msec; lia. Qed.

(** All the digits before rounding: those of the number, cut off. *)
Lemma all_digits fpi fpv n :
  is_u32 fpi -> is_u32 fpv -> (n <= 14)%nat ->
  exists cp p k rem ds, int_digits 10 fpi (repeat 0 CBUF_SIZE) = Some (cp, p ++ repeat 0 14) /\ length p = 10%nat /\ (cp <= 10)%nat /\
    frac_digits n fpv 10 (p ++ repeat 0 14) = Some (k, rem, (10 + length ds)%nat, p ++ ds ++ repeat 0 (14 - length ds)) /\
    take cp p = repeat 0 cp /\ (length ds + k = n)%nat /\ Forall digit (p ++ ds) /\ dval p = fpi /\
    dval (p ++ ds) * 2 ^ 32 + rem = (fpi * 2 ^ 32 + fpv) * 10 ^ Z.of_nat (length ds) /\ is_u32 rem /\ ((0 < k)%nat -> rem = 0).
Proof.
  intros Hi Hf Hn. unfold is_u32 in Hi. destruct (int_digits_spec 10 fpi (repeat 0 14)) as (cp & ds & E & L & F & V); [cbn; lia | lia |].
  rewrite app_assoc in E. set (p := repeat 0 cp ++ ds) in *.
  assert (Lp : length p = 10%nat) by (subst p; rewrite length_app, repeat_length; lia).
  destruct (frac_digits_spec n fpv p 14 Hf ltac:(lia)) as (k & rem & fs & E2 & L2 & F2 & V2 & U & K). rewrite Lp in E2.
  exists cp, p, k, rem, fs. repeat (split; [first [done | lia] |]).
  split; [subst p; rewrite take_app_le, firstn_all2 by (rewrite repeat_length; lia); done |].
  assert (Vp : dval p = fpi) by (subst p; rewrite dval_app, dval_zeros, V; lia).
  assert (Fp : Forall digit p) by (apply Forall_app; split; [apply digits_zeros | done]).
  split; [done |]. split; [apply Forall_app; done |]. split; [done |]. split; [| done]. rewrite dval_app, Vp. lia.
Qed.

(** [dolfptoa] prints the number, or its thousandfold, rounded half up to
    the places there is room for, and stays inside its buffer. *)
Lemma dolfptoa_spec fpi fpv neg ndec msec :
  is_u32 fpi -> is_u32 fpv ->
  dolfptoa fpi fpv neg ndec msec =
  Some (sign_text neg ++ fmt_fixed (places ndec msec - ms_places msec) (scaled (fpi * 2 ^ 32 + fpv) (places ndec msec))).
Proof.
  intros Hi Hf. pose proof (places_bounds ndec msec) as [P1 P2]. unfold dolfptoa.
  destruct (all_digits fpi fpv _ Hi Hf P2) as (cp & p & k & rem & ds & -> & Lp & Hcp & E & Z0 & L & F & Vp & V & U & K).
  cbn [mbind option_bind]. rewrite E. cbn [mbind option_bind]. clear E. set (n := places ndec msec) in *. clearbody n.
  fold (ms_places msec). set (s := ms_places msec) in *. assert (Hs : (s <= 3)%nat) by (subst s; destruct msec; cbn; lia). clearbody s.
  assert (Zb : forall x, take cp (p ++ x) = repeat 0 cp) by (intros; rewrite take_app_le by lia; done).
  unfold is_u32 in *. destruct (Nat.ltb_spec 0 k) as [Hk | Hk].
  - rewrite (K Hk) in *. set (b := p ++ ds ++ repeat 0 k).
    assert (Lb : length b = (10 + n)%nat) by (subst b; rewrite !length_app, repeat_length; lia).
    replace (p ++ ds ++ repeat 0 (14 - length ds)) with (b ++ repeat 0 (14 - n)).
    2: { subst b. rewrite <- !app_assoc. do 2 f_equal. rewrite <- repeat_app. f_equal. lia. }
    replace (10 + length ds + k)%nat with (length b) by lia. rewrite print_spec; [| | lia | lia | apply Zb].
    2: { subst b. rewrite app_assoc. apply Forall_app. split; [done | apply digits_zeros]. }
    do 3 f_equal; [lia |]. unfold scaled. subst b. rewrite app_assoc, dval_app, dval_zeros, repeat_length.
    replace (Z.of_nat n) with (Z.of_nat (length ds) + Z.of_nat k) by lia. rewrite Z.pow_add_r, Z.mul_assoc, <- V by lia.
    generalize (dval (p ++ ds)) (10 ^ Z.of_nat k). intros x y. apply Z.div_unique with (r := 2 ^ 31); lia.
  - assert (k = O) as -> by lia. assert (length ds = n) as <- by lia.
    replace (10 + length ds)%nat with (length (p ++ ds)) by (rewrite length_app; lia). rewrite app_assoc.
    destruct (round_spec cp p ds rem (repeat 0 (14 - length ds)) F (Zb ds) ltac:(rewrite length_app; lia) U) as (cp' & b & E & Lb & Fb & Hc & Zc & Vb).
    { rewrite length_app, Lp, Nat2Z.inj_add, Z.pow_add_r, dval_app, Vp by lia.
      apply Forall_app in F as [_ Fd]. pose proof (dval_bound ds Fd). change (10 ^ Z.of_nat 10) with 10000000000. nia. }
    destruct (carry_up _ _ _) as [tp cbuf]. injection E as E1 ->. rewrite E1, <- Lb.
    rewrite print_spec; [| done | lia | rewrite Lb, length_app; lia | done]. rewrite Lb, length_app, Lp. do 3 f_equal.
    unfold scaled. rewrite <- V. apply Z.div_unique with (r := dval (p ++ ds) * 2 ^ 32 + rem + 2 ^ 31 - dval b * 2 ^ 32); lia.
Qed.

(** ** Reading *)

Lemma ten_to_the_n_pow n : (0 < n <= 9)%nat -> nth n ten_to_the_n 0 = 10 ^ Z.of_nat n.
Proof. intros H. do 10 (destruct n as [|n]; [try done; lia |]). lia. Qed.

Lemma pow10_9 n : (n <= 9)%nat -> 1 <= 10 ^ Z.of_nat n <= 1000000000.
Proof. intros H. change 1000000000 with (10 ^ 9). change 1 with (10 ^ 0) at 1. split; apply Z.pow_le_mono_r; lia. Qed.

Lemma lor_pow2 t k : 0 <= k -> t mod 2 ^ (k + 1) = 0 -> t .| Z.shiftl 1 k = t + 2 ^ k.
Proof.
  intros Hk E. rewrite Z.shiftl_mul_pow2, Z.mul_1_l by lia.
  apply Z.mod_divide in E as [q ->]; [| apply Z.pow_nonzero; lia]. apply lor_high_low; [lia |]. split; [lia |].
  apply Z.pow_lt_mono_r; lia.
Qed.

(** Long division: [k] bits of the quotient. *)
Lemma frac_bits_spec k ten tmp f :
  0 <= f < ten -> ten <= 1000000000 -> tmp mod 2 ^ Z.of_nat k = 0 ->
  exists q r, frac_bits k ten tmp f = (tmp + q, r) /\ 0 <= r < ten /\ 0 <= q < 2 ^ Z.of_nat k /\ q * ten + r = f * 2 ^ Z.of_nat k.
Proof.
  revert tmp f. induction k as [|k IH]; intros tmp f Hf Ht E; cbn [frac_bits].
  { exists 0, f. rewrite Z.add_0_r. cbn. repeat split; lia. }
  rewrite Nat2Z.inj_succ in *. rewrite Z.pow_succ_r in * by lia. set (P := 2 ^ Z.of_nat k) in *.
  assert (HP : 0 < P) by (apply Z.pow_pos_nonneg; lia).
  rewrite Z.shiftl_mul_pow2, Z.pow_1_r by lia. unfold u64, wrap. rewrite (Z.mod_small (f * 2)) by lia.
  assert (Et : tmp mod P = 0).
  { apply Z.mod_divide in E as [x ->]; [| lia]. rewrite Z.mul_assoc. apply Z.mod_mul. lia. }
  destruct (Z.leb_spec ten (f * 2)) as [G | G].
  - rewrite lor_pow2 by (try lia; rewrite Z.pow_add_r, Z.pow_1_r by lia; rewrite Z.mul_comm; done). fold P.
    destruct (IH (tmp + P) (f * 2 - ten)) as (q & r & -> & R & Q & V); [lia | lia | |].
    { rewrite <- (Z.mul_1_l P) at 1. rewrite Z.mod_add by lia. done. }
    exists (P + q), r. split; [f_equal; lia |]. split; [done |]. split; [lia |]. nia.
  - destruct (IH tmp (f * 2)) as (q & r & -> & R & Q & V); [lia | lia | done |].
    exists q, r. split; [done |]. split; [done |]. split; [lia |]. nia.
Qed.

Lemma frac_of_decimal_spec n f :
  (n <= 9)%nat -> 0 <= f < 10 ^ Z.of_nat n ->
  is_u32 (frac_of_decimal n f) /\ 2 * Z.abs (frac_of_decimal n f * 10 ^ Z.of_nat n - f * 2 ^ 32) <= 10 ^ Z.of_nat n.
Proof.
  intros Hn Hf. pose proof (pow10_9 n Hn) as Hp. unfold frac_of_decimal.
  destruct (Nat.ltb_spec 0 n) as [Pn | Pn]; [| assert (n = O) as -> by lia; cbn in *; unfold is_u32; lia].
  rewrite ten_to_the_n_pow by lia. set (T := 10 ^ Z.of_nat n) in *.
  destruct (frac_bits_spec 32 T 0 f Hf ltac:(lia) eq_refl) as (q & r & -> & R & Q & V). rewrite Z.add_0_l. change (2 ^ Z.of_nat 32) with (2 ^ 32) in *.
  rewrite Z.shiftl_mul_pow2, Z.pow_1_r by lia. unfold u64, wrap. rewrite (Z.mod_small (r * 2)) by lia.
  destruct (Z.ltb_spec T (r * 2)) as [G | G]; unfold is_u32; [| nia].
  assert (q + 1 < 2 ^ 32) by nia. rewrite Z.mod_small by lia. nia.
Qed.

Lemma isdigit_digit c : digit_of 10 c -> isdigit c = true /\ isspace c = false /\ c <> 45 /\ c <> 43 /\ c <> 46.
Proof.
  intros H. pose proof (digit_char_range 10 c ltac:(lia) H). split; [apply digit_isdigit, H |].
  unfold isspace. split; [| lia]. lia.
Qed.

Lemma read_digits_spec lim l n dec r :
  Forall (digit_of 10) l -> starts isdigit r = false -> 0 <= dec -> number 10 dec l < 2 ^ 64 ->
  (match lim with None => True | Some m => n + length l <= m end)%nat ->
  read_digits lim n dec (l ++ r) = ((n + length l)%nat, number 10 dec l, r).
Proof.
  intros F Hr. revert n dec. induction F as [|c l D F IH]; intros n dec Hd B Hl; cbn [app length number fold_left].
  { rewrite Nat.add_0_r. destruct r as [|c r]; [done |]. cbn in *. now rewrite Hr. }
  cbn [number fold_left] in B. fold (number 10 (dec * 10 + xdigit_val c) l) in *.
  destruct (digit_isdigit c D) as [Di Dv]. cbn [read_digits]. rewrite Di.
  assert (G : match lim with None => true | Some m => (n <? m)%nat end = true) by (destruct lim; [apply Nat.ltb_lt; cbn in Hl; lia | done]).
  rewrite G. cbn [andb]. rewrite Dv in *. assert (Hc : 0 <= c - 48) by (pose proof (digit_char_range 10 c ltac:(lia) D); lia).
  pose proof (number_bound 10 l ltac:(lia) F (dec * 10 + (c - 48)) ltac:(lia)) as Nb.
  rewrite times10_small by lia. unfold u64, wrap. rewrite (Z.mod_small (dec * 10 + _)) by lia.
  rewrite IH by (try lia; destruct lim; cbn in *; lia). f_equal. f_equal. lia.
Qed.

Lemma skip_all_digits l r : Forall (digit_of 10) l -> starts isdigit r = false -> skip isdigit (l ++ r) = r /\ span isdigit (l ++ r) = l.
Proof.
  intros F Hr. induction F as [|c l D F [IH1 IH2]]; cbn [app skip span].
  - destruct r as [|c r]; [done |]. cbn in *. now rewrite Hr.
  - destruct (digit_isdigit c D) as [-> _]. rewrite IH1, IH2. done.
Qed.

(** What stands before the digits. *)
Lemma after_sign neg c l :
  digit_of 10 c ->
  skip isspace (sign_text neg ++ c :: l) = sign_text neg ++ c :: l /\
  starts (Z.eqb 45) (sign_text neg ++ c :: l) = neg /\ skip_one 45 (sign_text neg ++ c :: l) = c :: l /\
  skip_one 43 (c :: l) = c :: l /\ starts (fun c => (c =? 46) || isdigit c) (c :: l) = true.
Proof.
  intros D. destruct (isdigit_digit c D) as (Di & Ds & N1 & N2 & N3).
  destruct neg; cbn [sign_text app skip starts skip_one]; rewrite ?Ds, ?Di, ?orb_true_r, ?(proj2 (Z.eqb_neq c 45)), ?(proj2 (Z.eqb_neq c 43)), ?(proj2 (Z.eqb_neq 45 c)) by lia; repeat split; done.
Qed.

Definition lfp_of_decimal (n : nat) (N : Z) : l_fp := mk_lfp (N / 10 ^ Z.of_nat n) (frac_of_decimal n (N mod 10 ^ Z.of_nat n)).

Lemma lead_digit l : Forall (digit_of 10) l -> (length l = 1%nat \/ exists c l', l = c :: l' /\ c <> 48) -> exists c l', l = c :: l' /\ digit_of 10 c.
Proof. intros F H. destruct F as [|c l D F]; [destruct H as [? | (? & ? & ? & _)]; done | eauto]. Qed.

Lemma atolfp_fixed neg n N :
  (n <= 9)%nat -> 0 <= N < 2 ^ 32 * 10 ^ Z.of_nat n ->
  atolfp (sign_text neg ++ fmt_fixed n N) = Some (let v := lfp_of_decimal n N in if neg then M_NEG v else v).
Proof.
  intros Hn HN. destruct (fmt_fixed_inv n N ltac:(lia)) as (li & lf & Fi & Ff & Lf & Lead & Vi & Vf & ->).
  pose proof (pow10_9 n Hn) as Hp. destruct (lead_digit li Fi Lead) as (c & l' & E & D).
  assert (Bi : 0 <= number 10 0 li < 2 ^ 32) by (rewrite Vi; split; [apply Z.div_pos; lia | apply Z.div_lt_upper_bound; lia]).
  destruct (frac_of_decimal_spec n (N mod 10 ^ Z.of_nat n) Hn ltac:(apply Z.mod_pos_bound; lia)) as [Bf _].
  unfold atolfp. rewrite E. cbn [app]. edestruct (after_sign neg c) as (-> & -> & -> & -> & ->); [done |]. cbn [negb].
  change (c :: l' ++ ?x) with ((c :: l') ++ x). rewrite <- E.
  rewrite read_digits_spec; [| done | destruct n; done | lia | lia | done]. unfold lfp_of_decimal. rewrite <- Vi.
  set (F := frac_of_decimal n _) in *. unfold is_u32 in Bf. set (I := number 10 0 li) in *.
  assert (X : (if ends (if Nat.eqb n 0 then [] else 46 :: lf) then Some (O, 0)
     else if negb (starts (Z.eqb 46) (if Nat.eqb n 0 then [] else 46 :: lf)) then None
     else let '(ndec, dec_f, cp) := read_digits (Some 9%nat) 0 0 (tl (if Nat.eqb n 0 then [] else 46 :: lf)) in
       if ends (skip isdigit cp) then Some (ndec, dec_f) else None) = Some (n, N mod 10 ^ Z.of_nat n)).
  { destruct n as [|n]; [cbn; now rewrite Z.mod_1_r |]. cbn [Nat.eqb ends starts tl negb].
    change (isspace 46) with false. change (46 =? 46) with true. cbn [negb]. rewrite <- (app_nil_r lf) at 1.
    rewrite read_digits_spec; [| done | done | lia | | cbn; lia]. 2: { rewrite Vf. pose proof (Z.mod_pos_bound N (10 ^ Z.of_nat (S n)) ltac:(lia)). lia. }
    cbn [skip ends]. rewrite Lf, Vf. done. }
  rewrite X. cbn [mbind option_bind]. fold F. clearbody F I. clear X. destruct neg.
  - unfold M_NEG. cbn [l_ui l_uf]. f_equal. unfold u32, u64, wrap, Z.lnot. rewrite Zplus_mod_idemp_l.
    assert (E1 : ((Z.pred (- F) + 1) mod 2 ^ 64) mod 2 ^ 32 = (Z.pred (- F) + 1) mod 2 ^ 32) by divlia. rewrite E1.
    assert (E2 : ((Z.pred (- F) + 1) mod 2 ^ 64 =? 0) = ((Z.pred (- F) + 1) mod 2 ^ 32 =? 0)).
    { destruct (Z.eq_dec F 0) as [-> |]; [done |]. rewrite (proj2 (Z.eqb_neq _ _)) by divlia. symmetry. apply Z.eqb_neq. divlia. }
    rewrite E2. f_equal. destruct ((Z.pred (- F) + 1) mod 2 ^ 32 =? 0); cbn [truth]; divlia.
  - f_equal. unfold u32, wrap. rewrite !Z.mod_small by lia. done.
Qed.

(** [mstolfp] hands [atolfp] the text with the point moved three places. *)
Lemma mstolfp_fixed neg n N :
  (n <= 9)%nat -> 0 <= N < 10 ^ 60 -> mstolfp (sign_text neg ++ fmt_fixed n N) = Some (atolfp (sign_text neg ++ fmt_fixed (n + 3) N)).
Proof.
  intros Hn HN. destruct (fmt_fixed_inv n N ltac:(lia)) as (li & lf & Fi & Ff & Lf & Lead & Vi & Vf & ->).
  destruct (lead_digit li Fi Lead) as (c & l' & E & D). set (t := if Nat.eqb n 0 then [] else 46 :: lf).
  assert (T : starts isdigit t = false) by (subst t; destruct n; done).
  unfold mstolfp. rewrite E. cbn [app]. edestruct (after_sign neg c) as (-> & -> & -> & _ & ->); [done |]. cbn [negb].
  change (c :: l' ++ t) with ((c :: l') ++ t). rewrite <- E. destruct (skip_all_digits li t Fi T) as [-> ->].
  assert (E2 : (if starts (Z.eqb 46) t then (span isdigit (tl t), skip isdigit (tl t)) else ([], t)) = (lf, [])).
  { subst t. destruct n; [destruct lf; done |]. cbn [Nat.eqb starts tl]. change (46 =? 46) with true. cbn match.
    rewrite <- (app_nil_r lf). destruct (skip_all_digits lf [] Ff eq_refl) as [-> ->]. now rewrite app_nil_r. }
  rewrite E2. clear E2. set (lead := if (3 <? length li)%nat then _ else _). set (last := if (3 <? length li)%nat then drop _ _ else _).
  assert (B : Forall (digit_of 10) lead /\ Forall (digit_of 10) last /\ length last = 3%nat /\
    (length lead = 1%nat \/ exists c l', lead = c :: l' /\ c <> 48) /\ number 10 0 (lead ++ last) = number 10 0 li /\ (length lead <= S (length li))%nat).
  { assert (Z48 : forall k, Forall (digit_of 10) (repeat 48 k)).
    { intros k. apply Forall_forall. intros x Hx%list_elem_of_In%repeat_spec. subst x. exists 0. split; [lia | done]. }
    subst lead last. destruct (Nat.ltb_spec 3 (length li)) as [G | G].
    - split; [now apply Forall_take |]. split; [now apply Forall_drop |]. rewrite length_drop, length_take, take_drop. split; [lia |].
      split; [| split; [done | lia]]. right. destruct Lead as [? | (c1 & l1 & -> & C)]; [lia |]. cbn [length] in *.
      destruct (S (length l1) - 3)%nat as [|k] eqn:Ek; [lia |]. cbn [take]. eauto.
    - split; [apply (Z48 1%nat) |]. split; [apply Forall_app; split; [apply Z48 | done] |]. rewrite length_app, repeat_length. split; [lia |].
      split; [now left |]. split; [| cbn; lia]. rewrite app_assoc, number_app. f_equal. generalize (3 - length li)%nat. intros k.
      change ([48] ++ repeat 48 k) with (repeat 48 (S k)). induction (S k) as [|k' IH]; [done | exact IH]. }
  destruct B as (B1 & B2 & B3 & B4 & B5 & B6). clearbody lead last.
  pose proof (fmt_fixed_text lead (last ++ lf) B1 ltac:(apply Forall_app; done) B4) as R. rewrite length_app, B3, Lf in R.
  rewrite app_assoc, number_app, B5, number_shift, Vi, Lf, Vf in R.
  rewrite (Z.mul_comm (N / _)), <- Z.div_mod in R by (apply Z.pow_nonzero; lia). replace (n + 3)%nat with (3 + n)%nat by lia. rewrite R. clear R.
  change ((3 + n =? 0)%nat) with false. cbn match. cbn [app ends]. rewrite (proj2 (Nat.leb_gt _ _)); [done |].
  assert (Li : (length li <= 60)%nat).
  { destruct (fmt_base_spec 10 (number 10 0 li) ltac:(lia) ltac:(pose proof (number_lt _ Fi); lia)) as (_ & _ & _ & K).
    specialize (K 60 ltac:(lia)). fold (fmt_u (number 10 0 li)) in K. rewrite fmt_u_text in K by done. cut (Z.of_nat (length li) <= 60); [lia |]. apply K.
    rewrite Vi. apply Z.div_lt_upper_bound; [apply Z.pow_pos_nonneg; lia |]. pose proof (pow10_9 n Hn). nia. }
  unfold MS_BUF_SIZE. repeat (rewrite length_app || cbn [length]). destruct neg; cbn [sign_text length]; lia.
Qed.

(** ** The way there and back *)

(** The value of a decimal text is within half a unit, and so is its print. *)
Lemma decimal_near n N :
  (n <= 9)%nat -> 0 <= N < 2 ^ 32 * 10 ^ Z.of_nat n ->
  lfp_wf (lfp_of_decimal n N) /\ 2 * Z.abs (lfp_val (lfp_of_decimal n N) * 10 ^ Z.of_nat n - N * 2 ^ 32) <= 10 ^ Z.of_nat n.
Proof.
  intros Hn HN. pose proof (pow10_9 n Hn) as Hp. set (T := 10 ^ Z.of_nat n) in *. unfold lfp_of_decimal. fold T.
  destruct (frac_of_decimal_spec n (N mod T) Hn ltac:(apply Z.mod_pos_bound; lia)) as [Bf Err]. fold T in Err.
  pose proof (Z.div_mod N T ltac:(lia)) as E. assert (0 <= N / T < 2 ^ 32) by (split; [apply Z.div_pos; lia | apply Z.div_lt_upper_bound; lia]).
  unfold lfp_wf, lfp_val. cbn [l_ui l_uf]. split; [unfold is_u32 in *; lia |]. set (F := frac_of_decimal n (N mod T)) in *. nia.
Qed.

Lemma scaled_decimal n N :
  (n <= 9)%nat -> 0 <= N < 2 ^ 32 * 10 ^ Z.of_nat n -> scaled (lfp_val (lfp_of_decimal n N)) n = N.
Proof.
  intros Hn HN. destruct (decimal_near n N Hn HN) as [_ E]. pose proof (pow10_9 n Hn) as Hp. unfold scaled.
  symmetry. apply Z.div_unique with (r := lfp_val (lfp_of_decimal n N) * 10 ^ Z.of_nat n + 2 ^ 31 - N * 2 ^ 32); lia.
Qed.

(** What [mfptoa] and [mfptoms] print, for any timestamp. *)
Lemma mfptoa_spec msec v ndec :
  lfp_wf v ->
  mfptoa_with msec v ndec =
  Some (sign_text (lfp_sval v <? 0) ++ fmt_fixed (places ndec msec - ms_places msec) (scaled (Z.abs (lfp_sval v)) (places ndec msec))).
Proof.
  intros W. pose proof W as [Wi Wf]. unfold mfptoa_with. rewrite M_ISNEG_spec by done.
  assert (S : lfp_sval v = if 2 ^ 31 <=? l_ui v then lfp_val v - 2 ^ 64 else lfp_val v).
  { unfold lfp_sval, lfp_val, s64, swrap, is_u32 in *. case_cmp; divlia. }
  pose proof (M_NEG_wf v) as Wn. pose proof (lfp_val_neg v W) as Vn. unfold lfp_val in S at 1 2. unfold is_u32 in *.
  destruct (Z.leb_spec (2 ^ 31) (l_ui v)) as [G | G]; rewrite S.
  - rewrite (proj2 (Z.ltb_lt _ 0)) by lia. rewrite dolfptoa_spec by apply Wn. fold (lfp_val (M_NEG v)). rewrite Vn.
    do 4 f_equal. unfold u64, wrap, lfp_val. divlia.
  - rewrite (proj2 (Z.ltb_ge _ 0)) by lia. rewrite dolfptoa_spec by (unfold is_u32; lia). do 4 f_equal. lia.
Qed.

Definition read_text (msec : bool) (t : list Z) : option (option l_fp) := if msec then mstolfp t else Some (atolfp t).

Lemma read_fixed msec neg n N :
  (n + ms_places msec <= 9)%nat -> 0 <= N < 2 ^ 32 * 10 ^ Z.of_nat (n + ms_places msec) ->
  read_text msec (sign_text neg ++ fmt_fixed n N) =
  Some (Some (let v := lfp_of_decimal (n + ms_places msec) N in if neg then M_NEG v else v)).
Proof.
  intros Hn HN. unfold read_text. destruct msec; cbn [ms_places] in *.
  - pose proof (pow10_9 (n + 3) Hn). rewrite mstolfp_fixed, atolfp_fixed by lia. done.
  - rewrite Nat.add_0_r in *. now rewrite atolfp_fixed.
Qed.

Lemma places_small n msec : (n + ms_places msec <= 9)%nat -> places (Z.of_nat n) msec = (n + ms_places msec)%nat.
Proof. unfold places, ms_places, CBUF_SIZE. destruct msec; lia. Qed.

Lemma sval_small v : lfp_wf v -> lfp_val v < 2 ^ 63 -> lfp_sval v = lfp_val v.
Proof. intros [Wi Wf] H. unfold lfp_sval. apply s64_small. unfold is_s64, lfp_val, is_u32 in *. lia. Qed.

Lemma sval_neg v : lfp_wf v -> lfp_val v < 2 ^ 63 -> lfp_sval (M_NEG v) = - lfp_val v.
Proof.
  intros W H. unfold lfp_sval. rewrite lfp_val_neg by done. destruct W as [Wi Wf]. unfold lfp_val, is_u32, s64, swrap, u64, wrap in *. divlia.
Qed.

(** C28: a decimal text of up to nine places that atolfp reads is what mfptoa
    prints of the result, and the same holds of milliseconds with mstolfp and
    mfptoms; and a timestamp printed with nine places is read back within two
    units of its last bit. *)
Theorem decimal_roundtrip msec :
  (forall neg n N, (n + ms_places msec <= 9)%nat -> 0 <= N < 2 ^ 31 * 10 ^ Z.of_nat (n + ms_places msec) -> (neg = true -> 0 < N) ->
    let t := sign_text neg ++ fmt_fixed n N in
    exists v, read_text msec t = Some (Some v) /\ lfp_wf v /\ mfptoa_with msec v (Z.of_nat n) = Some t) /\
  (forall v, lfp_wf v ->
    exists t v', mfptoa_with msec v (9 - Z.of_nat (ms_places msec)) = Some t /\ read_text msec t = Some (Some v') /\
      Z.abs (lfp_sval (L_SUB v' v)) <= 2).
Proof.
  split.
  - intros neg n N Hn HN Hneg. cbn zeta. pose proof (pow10_9 _ Hn) as Hp. rewrite read_fixed by lia. set (m := (n + ms_places msec)%nat) in *.
    destruct (decimal_near m N Hn ltac:(lia)) as [W Err]. set (w := lfp_of_decimal m N) in *. cbn zeta.
    exists (if neg then M_NEG w else w). split; [done |].
    assert (B : 0 <= lfp_val w < 2 ^ 63 /\ (0 < N -> 0 < lfp_val w)).
    { assert (l_ui w < 2 ^ 31) by (subst w; cbn; apply Z.div_lt_upper_bound; lia). destruct W as [Wi Wf]. unfold lfp_val, is_u32 in *. nia. }
    split; [destruct neg; [apply M_NEG_wf | done] |]. rewrite mfptoa_spec by (destruct neg; [apply M_NEG_wf | done]).
    rewrite places_small by done. fold m. replace (m - ms_places msec)%nat with n by lia.
    destruct neg; [rewrite sval_neg | rewrite sval_small]; try done; try lia.
    + rewrite (proj2 (Z.ltb_lt _ 0)), Z.abs_opp, Z.abs_eq by lia. do 3 f_equal. apply scaled_decimal; lia.
    + rewrite (proj2 (Z.ltb_ge _ 0)), Z.abs_eq by lia. do 3 f_equal. apply scaled_decimal; lia.
  - intros v W. set (n := (9 - ms_places msec)%nat). assert (En : (n + ms_places msec = 9)%nat) by (subst n; destruct msec; done).
    replace (9 - Z.of_nat (ms_places msec)) with (Z.of_nat n) by (subst n; destruct msec; done).
    rewrite mfptoa_spec by done. rewrite places_small by lia. rewrite En. replace (9 - ms_places msec)%nat with n by done.
    set (A := Z.abs (lfp_sval v)). set (N := scaled A 9). eexists _, _. split; [done |].
    assert (HA : 0 <= A <= 2 ^ 63) by (subst A; unfold lfp_sval, s64, swrap; divlia).
    assert (HN : 0 <= N < 2 ^ 32 * 10 ^ Z.of_nat 9 /\ - 2 ^ 31 <= N * 2 ^ 32 - A * 10 ^ 9 <= 2 ^ 31) by (subst N; unfold scaled; divlia).
    split; [apply read_fixed; rewrite ?En; [lia | apply HN] |]. rewrite En. destruct (decimal_near 9 N ltac:(lia) (proj1 HN)) as [Ww Err].
    set (w := lfp_of_decimal 9 N) in *. clearbody w. assert (D : Z.abs (lfp_val w - A) <= 2) by lia.
    unfold lfp_sval at 1. change L_SUB with M_SUB. rewrite lfp_val_sub; [| destruct (lfp_sval v <? 0); [apply M_NEG_wf | done] | done].
    assert (X : exists k, lfp_val v = lfp_sval v + k * 2 ^ 64) by (exists ((lfp_val v + 2 ^ 63) / 2 ^ 64); unfold lfp_sval, s64, swrap; divlia).
    destruct X as [k Xk]. unfold A in D. clearbody N. clear HN Err. destruct W as [Wi Wf]. destruct Ww as [Wwi Wwf].
    destruct (Z.ltb_spec (lfp_sval v) 0); [rewrite lfp_val_neg by (split; done) |]; rewrite Xk; unfold s64, swrap, u64, wrap; divlia.
Qed.

Lemma decimal_roundtrip_witness :
  (exists v, read_text false (txt "-12.345") = Some (Some v) /\ lfp_wf v /\ mfptoa_with false v 3 = Some (txt "-12.345")) /\
  (exists v, read_text true (txt "7.125") = Some (Some v) /\ lfp_wf v /\ mfptoa_with true v 3 = Some (txt "7.125")) /\
  (exists t v', mfptoa_with false (mk_lfp 1 2) 9 = Some t /\ read_text false t = Some (Some v') /\ Z.abs (lfp_sval (L_SUB v' (mk_lfp 1 2))) <= 2).
Proof.
  split; [| split].
  - apply (proj1 (decimal_roundtrip false) true 3%nat 12345); [cbn; lia | cbn; lia | lia].
  - apply (proj1 (decimal_roundtrip true) false 3%nat 7125); [cbn; lia | cbn; lia | lia].
  - apply (proj2 (decimal_roundtrip false) (mk_lfp 1 2)). split; unfold_ranges; cbn; lia.
Defined.

(** ** Defects *)

(** [dofptoa] loses the digit that a carry adds in front: nine and 0.99. *)
Lemma fptoa_drops_carry : fptoa (9 * 2 ^ 16 + 64880) 1 = Some (txt "0.0") /\ fptoa (9 * 2 ^ 16 + 62259) 1 = Some (txt "9.9").
Proof. vm_compute. auto. Qed.

(** [mstolfp] copies any number of digits into its buffer of 100. *)
Lemma mstolfp_overruns : mstolfp (repeat 48 99) = None /\ mstolfp (repeat 48 98) = Some (Some (mk_lfp 0 0)).
Proof. vm_compute. auto. Qed.
