(* ===== verification/Lines.v ===== *)
(** * Reading text files: what the code uses of the C library

    [fgets], [strtol] as far as [atoi] and the conversions "%lu" and "%d" of
    [sscanf] need it.  A file is the list of its characters. *)

From S2P Require Import Prelude FixedPoint NtpTypes Text.
From stdpp Require Import base list.
#[local] Open Scope Z_scope.

(** At most [n] characters, up to the end of the line: [fgets] with a buffer
    of [n + 1]. *)
Fixpoint fgets (n : nat) (file : list Z) : list Z * list Z :=
  match n, file with
  | S n, c :: file => if c =? 10 then ([c], file) else let '(l, rest) := fgets n file in (c :: l, rest)
  | _, _ => ([], file)
  end.

(** The characters before the NUL. *)
Definition c_string (l : list Z) : list Z := span (fun c => negb (c =? 0)) l.

Definition decimal (l : list Z) : Z := fold_left (fun v c => v * 10 + (c - 48)) l 0.

(** White space, a sign and digits: the sign, the number and the rest. *)
Definition scan_number (cp : list Z) : option (bool * Z * list Z) :=
  let cp := skip isspace cp in
  let '(neg, cp) := match cp with 45 :: cp' => (true, cp') | 43 :: cp' => (false, cp') | _ => (false, cp) end in
  match span isdigit cp with
  | [] => None
  | ds => Some (neg, decimal ds, skip isdigit cp)
  end.

Definition ULONG_MAX : Z := 2 ^ 64 - 1.
Definition LONG_MAX : Z := 2 ^ 63 - 1.
Definition strtoul_value (neg : bool) (v : Z) : Z := if ULONG_MAX <? v then ULONG_MAX else if neg then u64 (- v) else v.
Definition strtol_value (neg : bool) (v : Z) : Z := if neg then Z.max (- LONG_MAX - 1) (- v) else Z.min LONG_MAX v.

Definition scan_lu (cp : list Z) : option (Z * list Z) := '(neg, v, rest) ← scan_number cp; Some (strtoul_value neg v, rest).
Definition scan_d (cp : list Z) : option (Z * list Z) := '(neg, v, rest) ← scan_number cp; Some (s32 (strtol_value neg v), rest).
Definition atoi (cp : list Z) : Z := default 0 (fst <$> scan_d cp).
