(* ===== verification/LinesFacts.v ===== *)
(** * Reading text files: lines and numbers are read as they were printed *)

From S2P Require Import Prelude FixedPoint NtpTypes Text TextFacts Lines.
From stdpp Require Import base list.
#[local] Open Scope Z_scope.

Lemma fgets_line n line file :
  (length line < n)%nat -> Forall (fun c => c <> 10) line -> fgets n (line ++ 10 :: file) = (line ++ [10], file).
Proof.
  intros Hn F. revert n Hn. induction F as [|c line Hc F IH]; intros [|n] Hn; cbn in Hn; try lia; cbn [app fgets]; [done |].
  rewrite (proj2 (Z.eqb_neq c 10)), IH by (done || lia). done.
Qed.

Lemma digit_10_16 ch : digit_of 10 ch -> digit_of 16 ch.
Proof. intros (d & ? & ->). exists d. split; [lia | done]. Qed.

Lemma decimal_number l : Forall (digit_of 10) l -> forall a, fold_left (fun v c => v * 10 + (c - 48)) l a = number 10 a l.
Proof.
  induction 1 as [|c l D F IH]; intros a; cbn; [done |]. destruct (digit_isdigit c D) as [_ ->]. apply IH.
Qed.

Lemma scan_number_fmt pre n rest :
  0 <= n -> Forall (fun c => isspace c = true) pre -> stops isdigit rest -> scan_number (pre ++ fmt_u n ++ rest) = Some (false, n, rest).
Proof.
  intros Hn Fp St. destruct (fmt_base_spec 10 n) as (F & V & L & _); [lia.. |]. fold (fmt_u n) in *. unfold scan_number.
  destruct (nonempty_cons _ L) as (c & l & E). rewrite E in *. clear E L. pose proof (Forall_inv F) as D.
  destruct (digit_char_range 10 c ltac:(lia) D) as [Hc | [_ ?]]; [| lia].
  rewrite skip_stop by (first [done | cbn; unfold isspace; lia]).
  assert (M : match (c :: l) ++ rest with 45 :: cp' => (true, cp') | 43 :: cp' => (false, cp') | _ => (false, (c :: l) ++ rest) end = (false, (c :: l) ++ rest)).
  { cbn [app]. destruct c as [|p|p]; try lia. repeat (destruct p as [p|p|]; try reflexivity; try lia). }
  rewrite M. assert (Fd : Forall (fun c => isdigit c = true) (c :: l)).
  { eapply Forall_impl; [exact F |]. intros x Dx. now destruct (digit_isdigit x Dx). }
  rewrite span_stop, skip_stop by done. unfold decimal. now rewrite decimal_number, V.
Qed.

Lemma scan_lu_fmt pre n rest :
  0 <= n < 2 ^ 64 -> Forall (fun c => isspace c = true) pre -> stops isdigit rest -> scan_lu (pre ++ fmt_u n ++ rest) = Some (n, rest).
Proof.
  intros Hn Fp St. unfold scan_lu. rewrite scan_number_fmt by (done || lia). cbn [mbind option_bind].
  unfold strtoul_value, ULONG_MAX. now rewrite (proj2 (Z.ltb_ge _ _)) by lia.
Qed.

Lemma scan_d_fmt pre n rest :
  0 <= n < 2 ^ 31 -> Forall (fun c => isspace c = true) pre -> stops isdigit rest -> scan_d (pre ++ fmt_u n ++ rest) = Some (n, rest).
Proof.
  intros Hn Fp St. unfold scan_d. rewrite scan_number_fmt by (done || lia). cbn [mbind option_bind].
  unfold strtol_value, LONG_MAX. rewrite Z.min_r, s32_small by (unfold_ranges; lia). done.
Qed.

Lemma atoi_fmt n : 0 <= n < 2 ^ 31 -> atoi (fmt_u n) = n.
Proof.
  intros Hn. pose proof (scan_d_fmt [] n [] Hn (Forall_nil_2 _) I) as E. rewrite app_nil_r in E. cbn [app] in E.
  unfold atoi. now rewrite E.
Qed.

(** A printed number is short and stays on its line. *)
Lemma fmt_u_line n k :
  0 <= n -> 0 < k -> n < 10 ^ k -> Z.of_nat (length (fmt_u n)) <= k /\ Forall (fun c => 48 <= c <= 57) (fmt_u n).
Proof.
  intros Hn Hk Hb. destruct (fmt_base_spec 10 n) as (F & _ & _ & L); [lia.. |]. split; [now apply L |].
  eapply Forall_impl; [exact F |]. intros c D. destruct (digit_char_range 10 c ltac:(lia) D) as [? | [_ ?]]; lia.
Qed.
