(* ===== verification/FileGen.v ===== *)
(** * Statistics files (ntpd/ntp_filegen.c, statistics of ntpd/ntp_util.c)

    A file set is a sequence of files, one for each day, week, month, year,
    process or 24 hours of uptime, and a link with the plain name to the last
    of them.  The file system is what the code sees of it: names bound to
    nodes, so that a file that is open stays the same file when its name
    changes.  A file is the list of its lines.  The process identifier, the
    clock and the permissions are arguments. *)

From Stdlib Require Import String.
From S2P Require Import Prelude FixedPoint Calendar NtpTypes Double Text Decimal.
From stdpp Require Import base gmap list.
#[local] Open Scope Z_scope.

(** ** Files *)

Inductive node := File (inode : Z) | OtherNode.
#[export] Instance node_eq_dec : EqDecision node.
Proof. solve_decision. Defined.

Record fs := mk_fs { names : gmap (list Z) node; contents : gmap Z (list (list Z)); next_inode : Z }.
#[export] Instance eta_fs : Eta fs := fun r => mk_fs (names r) (contents r) (next_inode r).

(** What the process may do: open a file of that name for writing, and
    change that entry of its directory. *)
Class Permissions := { can_open : list Z -> bool; can_change : list Z -> bool }.

(** What the system tells: the process, the clock and the seconds since the
    daemon started. *)
Record sysinfo := mk_sysinfo { getpid : Z; time_now : Z; current_time : Z }.

Definition st_nlink (n : node) (f : fs) : Z := Z.of_nat (size (filter (fun x => x.2 = n) (names f))).

Section Files.
Context `{Permissions}.

Definition rename (old new : list Z) (f : fs) : fs :=
  match names f !! old, names f !! new with
  | Some n, None | Some n, Some (File _) =>
      if can_change old && can_change new && negb (bool_decide (names f !! new = Some n)) then
        f <| names := <[new := n]> (delete old (names f)) |>
      else f
  | _, _ => f
  end.
Definition unlink (name : list Z) (f : fs) : fs :=
  if can_change name then f <| names := delete name (names f) |> else f.
Definition link (old new : list Z) (f : fs) : fs :=
  match names f !! old, names f !! new with
  | Some n, None => if can_change new then f <| names := <[new := n]> (names f) |> else f
  | _, _ => f
  end.
(** [fopen] with mode ["a"]. *)
Definition fopen_append (name : list Z) (f : fs) : option (Z * fs) :=
  if negb (can_open name) then None
  else
    match names f !! name with
    | Some (File i) => Some (i, f)
    | Some OtherNode => None
    | None =>
        let i := next_inode f in
        Some (i, f <| names := <[name := File i]> (names f) |> <| contents := <[i := []]> (contents f) |> <| next_inode := i + 1 |>)
    end.
End Files.
Definition write_line (i : Z) (line : list Z) (f : fs) : fs :=
  f <| contents := alter (fun l => l ++ [line]) i (contents f) |>.

(** ** File sets (include/ntp_filegen.h) *)

Definition FILEGEN_NONE : Z := 255.
Definition FILEGEN_PID : Z := 1.
Definition FILEGEN_DAY : Z := 2.
Definition FILEGEN_WEEK : Z := 3.
Definition FILEGEN_MONTH : Z := 4.
Definition FILEGEN_YEAR : Z := 5.
Definition FILEGEN_AGE : Z := 6.
Definition FGEN_FLAG_LINK : Z := 1.
Definition FGEN_FLAG_ENABLED : Z := 0x80.
Definition SUFFIX_SEP : Z := 46.
Definition DIR_SEP : Z := 47.

Record FILEGEN := mk_filegen {
  fg_fp : option Z; fg_dir : list Z; fg_fname : list Z; id_lo : Z; id_hi : Z; fg_type : Z; fg_flag : Z }.
#[export] Instance eta_filegen : Eta FILEGEN := fun r =>
  mk_filegen (fg_fp r) (fg_dir r) (fg_fname r) (id_lo r) (id_hi r) (fg_type r) (fg_flag r).

(** The file system, the file sets by their address, the registry, the count
    of conflicts of [filegen_open], and of ntp_util.c the directory and the
    switch of the statistics. *)
Record stats := mk_stats {
  files : fs; gens : gmap Z FILEGEN; filegen_registry : list (list Z * Z); conflicts : Z;
  statsdir : list Z; stats_control : bool }.
#[export] Instance eta_stats : Eta stats := fun r =>
  mk_stats (files r) (gens r) (filegen_registry r) (conflicts r) (statsdir r) (stats_control r).
Definition set_gen (p : Z) (g : FILEGEN) (s : stats) : stats := s <| gens := <[p := g]> (gens s) |>.

Definition filegen_init (dir fname : list Z) : FILEGEN := mk_filegen None dir fname 0 0 FILEGEN_DAY FGEN_FLAG_LINK.

Definition base_name (g : FILEGEN) : list Z := fg_dir g ++ fg_fname g.

(** [snprintf] into the room behind the base name: 65 octets with the NUL. *)
Definition fit (text : list Z) : list Z := take 64 text.
Definition fmt_02 (n : Z) : list Z := pad0 2 (fmt_d n).
Definition fmt_04 (n : Z) : list Z := pad0 4 (fmt_d n).

(** The date as [struct calendar], at midnight. *)
Definition at_midnight (year month monthday : Z) (cal : calendar) : calendar :=
  mk_calendar year (jd_yearday cal) month monthday 0 0 0 (jd_weekday cal).
Definition no_calendar : calendar := mk_calendar 0 0 0 0 0 0 0 0.

(** The suffix of the generation that a second belongs to, and its bounds. *)
Definition generation (i : sysinfo) (stamp : Z) (g : FILEGEN) : list Z * FILEGEN :=
  let ty := fg_type g in
  let cal := fst (ntpcal_ntp_to_date no_calendar stamp (Some (time_now i)) 0) in
  if ty =? FILEGEN_NONE then ([], g)
  else if ty =? FILEGEN_PID then
    let g := g <| id_lo := u64 (getpid i) |> <| id_hi := 0 |> in (fit (SUFFIX_SEP :: 35 :: fmt_d (id_lo g)), g)
  else if ty =? FILEGEN_DAY then
    let lo := ntpcal_date_to_ntp (at_midnight (jd_year cal) (jd_month cal) (jd_monthday cal) cal) in
    (fit (SUFFIX_SEP :: fmt_04 (jd_year cal) ++ fmt_02 (jd_month cal) ++ fmt_02 (jd_monthday cal)),
     g <| id_lo := lo |> <| id_hi := u32 (lo + SECSPERDAY) |>)
  else if ty =? FILEGEN_WEEK then
    let iso := fst (isocal_ntp_to_date stamp (Some (time_now i)) 0) in
    let lo := isocal_date_to_ntp (mk_isodate (id_year iso) (id_week iso) 1 0 0 0) in
    (fit (SUFFIX_SEP :: fmt_04 (id_year iso) ++ 119 :: fmt_02 (id_week iso)),
     g <| id_lo := lo |> <| id_hi := u32 (lo + 7 * SECSPERDAY) |>)
  else if ty =? FILEGEN_MONTH then
    (fit (SUFFIX_SEP :: fmt_04 (jd_year cal) ++ fmt_02 (jd_month cal)),
     g <| id_lo := ntpcal_date_to_ntp (at_midnight (jd_year cal) (jd_month cal) 1 cal) |>
       <| id_hi := ntpcal_date_to_ntp (at_midnight (jd_year cal) (u8 (jd_month cal + 1)) 1 cal) |>)
  else if ty =? FILEGEN_YEAR then
    (fit (SUFFIX_SEP :: fmt_04 (jd_year cal)),
     g <| id_lo := ntpcal_date_to_ntp (at_midnight (jd_year cal) 1 1 cal) |>
       <| id_hi := ntpcal_date_to_ntp (at_midnight (u16 (jd_year cal + 1)) 1 1 cal) |>)
  else if ty =? FILEGEN_AGE then
    let lo := u64 (current_time i - current_time i mod SECSPERDAY) in
    (fit (SUFFIX_SEP :: 97 :: pad0 8 (fmt_d lo)), g <| id_lo := lo |> <| id_hi := u64 (lo + SECSPERDAY) |>)
  else ([], g <| fg_type := FILEGEN_NONE |>).

Section FileGen.
Context `{Permissions}.

(** A plain file in the place of the link is saved under another name, an
    older link is removed. *)
Definition clear_base (i : sysinfo) (filename : list Z) (s : stats) : stats :=
  match names (files s) !! filename with
  | Some (File n) =>
      if st_nlink (File n) (files s) <=? 1 then
        let savename := filename ++ fit (SUFFIX_SEP :: fmt_d (getpid i) ++ 67 :: fmt_u (conflicts s)) in
        s <| conflicts := u64 (conflicts s + 1) |> <| files := rename filename savename (files s) |>
      else s <| files := unlink filename (files s) |>
  | _ => s
  end.

Definition filegen_open (p : Z) (stamp : Z) (i : sysinfo) (s : stats) : option stats :=
  g ← gens s !! p;
  let filename := base_name g in
  let '(suffix, g) := generation i stamp g in
  let fullname := filename ++ suffix in
  let s := set_gen p g s in
  let s := if fg_type g =? FILEGEN_NONE then s else clear_base i filename s in
  Some match fopen_append fullname (files s) with
       | None => s
       | Some (n, f) =>
           let s := set_gen p (g <| fg_fp := Some n |>) (s <| files := f |>) in
           if has (fg_flag g) FGEN_FLAG_LINK then s <| files := link fullname filename (files s) |> else s
       end.

Definition is_current (i : sysinfo) (now : Z) (g : FILEGEN) : bool :=
  let ty := fg_type g in
  if ty =? FILEGEN_PID then s32 (id_lo g) =? getpid i
  else if ty =? FILEGEN_AGE then (id_lo g <=? current_time i) && (current_time i <? id_hi g)
  else if (ty =? FILEGEN_DAY) || (ty =? FILEGEN_WEEK) || (ty =? FILEGEN_MONTH) || (ty =? FILEGEN_YEAR) then
    (id_lo g <=? now) && (now <? id_hi g)
  else true.

Definition filegen_setup (p : Z) (now : Z) (i : sysinfo) (s : stats) : option stats :=
  g ← gens s !! p;
  if negb (has (fg_flag g) FGEN_FLAG_ENABLED) then Some (set_gen p (g <| fg_fp := None |>) s)
  else
    match fg_fp g with
    | Some _ => if is_current i now g then Some s else filegen_open p now i s
    | None => filegen_open p now i s
    end.

(** ** Configuration *)

Fixpoint strchr (s : list Z) (c : Z) : option (list Z) :=
  match s with
  | [] => None
  | x :: s' => if x =? c then Some s else strchr s' c
  end.
Definition dot_dot (p : list Z) : bool :=
  match p with
  | 46 :: 46 :: rest => match rest with [] => true | c :: _ => c =? DIR_SEP end
  | _ => false
  end.
(** The loop over the elements of the name; without fuel it does not end. *)
Fixpoint name_loop (fuel : nat) (p : list Z) : option bool :=
  match fuel with
  | O => None
  | S fuel =>
      if dot_dot p then Some false
      else match strchr p DIR_SEP with None => Some true | Some p => name_loop fuel p end
  end.
Definition valid_fileref (fuel : nat) (dir fname : list Z) : option bool :=
  match dir with [] => Some false | _ => name_loop fuel fname end.

Definition filegen_config (fuel : nat) (p : Z) (dir fname : list Z) (ty flag : Z) (now : l_fp) (i : sysinfo) (s : stats) : option stats :=
  g ← gens s !! p;
  if bool_decide (dir = fg_dir g) && bool_decide (fname = fg_fname g) && (ty =? fg_type g) && (flag =? fg_flag g) then Some s
  else
    ok ← valid_fileref fuel dir fname;
    if negb (ok : bool) then Some s
    else
      let s := set_gen p (mk_filegen None dir fname (id_lo g) (id_hi g) (u8 ty) (u8 flag)) s in
      match fg_fp g with
      | Some _ => filegen_setup p (l_ui now) i s
      | None => Some s
      end.

Definition entry_named (name : list Z) (e : list Z * Z) : bool := bool_decide (e.1 = name).
Definition filegen_get (name : list Z) (s : stats) : option Z := snd <$> List.find (entry_named name) (filegen_registry s).

Fixpoint register_in (name : list Z) (p : Z) (l : list (list Z * Z)) : list (list Z * Z) :=
  match l with
  | [] => [(name, p)]
  | e :: l => if entry_named name e then (e.1, p) :: l else e :: register_in name p l
  end.
Definition filegen_register (dir name : list Z) (p : Z) (s : stats) : stats :=
  (set_gen p (filegen_init dir name) s) <| filegen_registry := register_in name p (filegen_registry s) |>.

Fixpoint statsdir_loop (fuel : nat) (l : list (list Z * Z)) (now : l_fp) (i : sysinfo) (s : stats) : option stats :=
  match l with
  | [] => Some s
  | (_, p) :: l =>
      g ← gens s !! p;
      s ← filegen_config fuel p (statsdir s) (fg_fname g) (fg_type g) (fg_flag g) now i s;
      statsdir_loop fuel l now i s
  end.
Definition filegen_statsdir (fuel : nat) (now : l_fp) (i : sysinfo) (s : stats) : option stats :=
  statsdir_loop fuel (filegen_registry s) now i s.
End FileGen.
