(* ===== verification/FileGenFacts.v ===== *)
(** * Statistics files: facts about FileGen.v

    The open file of a file set is the one of the period that the record
    belongs to, no file is lost when the generation changes, and a file name
    with a directory in it makes the configuration loop. *)

From Stdlib Require Import String.
From S2P Require Import Prelude FixedPoint Calendar CalendarFacts NtpTypes Text TextFacts FileGen.
From stdpp Require Import base gmap list.
#[local] Open Scope Z_scope.

(** ** The periods of the calendar *)

Definition day_start (rd : Z) : Z := (rd - DAY_NTP_STARTS) * 86400.
Definition valid_day (y m d : Z) : Prop := 1 <= y < 65536 /\ 1 <= m <= 12 /\ 1 <= d <= month_len y m.

(** The ISO year [y] starts on the Monday that is nearest to its first day. *)
Definition iso_start (y s : Z) : Prop := s mod 7 = 1 /\ Z.abs (s - civil_rd y 1 1) <= 3.

(** The seconds from [lo] to [hi] are a period of the type, and its suffix. *)
Definition period (ty lo hi : Z) (suffix : list Z) : Prop :=
  (ty = FILEGEN_DAY /\ exists y m d, valid_day y m d /\ lo = day_start (civil_rd y m d) /\ hi = lo + 86400 /\
    suffix = 46 :: fmt_04 y ++ fmt_02 m ++ fmt_02 d) \/
  (ty = FILEGEN_WEEK /\ exists y w s s', iso_start y s /\ iso_start (y + 1) s' /\ 1 <= w /\ s + 7 * (w - 1) < s' /\
    lo = day_start (s + 7 * (w - 1)) /\ hi = lo + 7 * 86400 /\ suffix = 46 :: fmt_04 y ++ 119 :: fmt_02 w) \/
  (ty = FILEGEN_MONTH /\ exists y m, valid_day y m 1 /\ lo = day_start (civil_rd y m 1) /\ hi = lo + month_len y m * 86400 /\
    suffix = 46 :: fmt_04 y ++ fmt_02 m) \/
  (ty = FILEGEN_YEAR /\ exists y, valid_day y 1 1 /\ lo = day_start (civil_rd y 1 1) /\ hi = day_start (civil_rd (y + 1) 1 1) /\
    suffix = 46 :: fmt_04 y).

(** The second of the era that a stamp stands for. *)
Definition full_second (i : sysinfo) (stamp : Z) : Z := q_s (ntpcal_ntp_to_ntp stamp (Some (time_now i)) 0).
Definition sane_time (i : sysinfo) : Prop := -58000000000 <= time_now i <= 2000000000000.

(** ** Dates of a stamp *)

Lemma civil_rd_bounds y m d : valid_day y m d -> 1 <= civil_rd y m d <= 23936166.
Proof.
  intros (Hy & Hm & Hd). pose proof (civil_rd_in_year y m d Hm Hd) as B.
  assert (0 <= greg_days (y - 1) /\ greg_days y <= 23936166) by (unfold greg_days; divlia). lia.
Qed.

(** The date of a stamp is the day its second is in. *)
Lemma ntp_date i stamp :
  is_u32 stamp -> sane_time i ->
  let cal := fst (ntpcal_ntp_to_date no_calendar stamp (Some (time_now i)) 0) in
  let n := full_second i stamp in
  valid_day (jd_year cal) (jd_month cal) (jd_monthday cal) /\ jd_year cal < 65500 /\
  civil_rd (jd_year cal) (jd_month cal) (jd_monthday cal) = n / 86400 + DAY_NTP_STARTS.
Proof.
  intros Hs Hp. destruct (ntp_to_ntp_day stamp (time_now i) 0 Hs Hp) as (Hv & Hr & M). unfold full_second, ntpcal_ntp_to_date.
  set (vl := ntpcal_ntp_to_ntp stamp (Some (time_now i)) 0) in *. rewrite daysplit_spec by exact Hv. cbn [sp_hi sp_lo]. set (n := q_s vl) in *.
  assert (Hg : greg_days 65535 = 23936166) by reflexivity. unfold_cal. rewrite (s32_small (n / 86400)) by (unfold_ranges; lia).
  pose proof (date_to_time_join no_calendar (n / 86400 + 693596) (n mod 86400) ltac:(lia) ltac:(divlia)) as J.
  destruct (ntpcal_daysec_to_date no_calendar (n mod 86400)) as [d days]. destruct J as (-> & _ & _). rewrite Z.add_0_r.
  rewrite (s32_small (n / 86400)), (s32_small (_ + 693596)) by (unfold_ranges; lia).
  pose proof (rd_to_date_spec d (n / 86400 + 693596) ltac:(lia)) as S. destruct (ntpcal_rd_to_date d _) as [c ret]. cbn [fst].
  destruct S as ((Hy & Hm & Hd) & E & _). split; [split; tauto |]. split; [| exact E].
  pose proof (civil_rd_in_year _ _ _ Hm Hd) as B. rewrite E in B. unfold greg_days in B. divlia.
Qed.

(** Midnight of a date as an NTP second. *)
Lemma ntp_of_rd rd cal :
  1 <= rd <= 23950000 -> ntpcal_date_to_rd cal = rd -> (jd_hour cal, jd_minute cal, jd_second cal) = (0, 0, 0) ->
  ntpcal_date_to_ntp cal = day_start rd mod 2 ^ 32.
Proof.
  intros H E T. injection T as Th Tm Ts. unfold ntpcal_date_to_ntp. rewrite E.
  unfold ntpcal_date_to_daysec. rewrite Th, Tm, Ts. change (ntpcal_etime_to_seconds 0 0 0) with 0.
  unfold day_start. unfold_cal. rewrite s32_small by (unfold_ranges; lia). rewrite dayjoin_spec by (unfold_ranges; lia).
  unfold D_s_lo. unfold_widths. divlia.
Qed.

Lemma ntp_of_date y m d cal :
  valid_day y m d -> ntpcal_date_to_ntp (at_midnight y m d cal) = day_start (civil_rd y m d) mod 2 ^ 32.
Proof.
  intros V. pose proof (civil_rd_bounds y m d V) as B. destruct V as (Hy & Hm & Hd). pose proof (month_len_bound y m Hm).
  apply ntp_of_rd; [lia | | done]. apply (date_to_rd_spec (at_midnight y m d cal)); cbn; unfold_ranges; lia.
Qed.

Lemma month_start_step y m : 1 <= m <= 12 -> civil_rd y m 1 + month_len y m = greg_days (y - 1) + month_start y m + 1.
Proof. unfold civil_rd, month_len. lia. Qed.

(** The first day of the next month, which the code asks for as month 13 in
    December. *)
Lemma ntp_of_next_month y m cal :
  valid_day y m 1 -> y < 65500 ->
  ntpcal_date_to_ntp (at_midnight y (u8 (m + 1)) 1 cal) = (day_start (civil_rd y m 1) + month_len y m * 86400) mod 2 ^ 32.
Proof.
  intros V Hy. pose proof (civil_rd_bounds y m 1 V) as B. destruct V as (Hy' & Hm & Hd). pose proof (month_len_bound y m Hm).
  rewrite u8_small by (unfold_ranges; lia). rewrite (ntp_of_rd (civil_rd y m 1 + month_len y m)); [unfold day_start; f_equal; lia | lia | | done].
  rewrite month_start_step by done. destruct (Z.eq_dec m 12) as [-> | N].
  - unfold ntpcal_date_to_rd. cbn [jd_year jd_month jd_monthday at_midnight]. rewrite edate_to_eradays_spec by lia.
    change ((12 + 1 - 1) / 12) with 1. change ((12 + 1 - 1) mod 12) with 0. rewrite month_start_0, month_start_12, Z.sub_add.
    pose proof (greg_days_step (y - 1)) as G. rewrite Z.sub_add in G. rewrite s32_small; [lia |]. unfold greg_days. unfold_ranges. divlia.
  - rewrite date_to_rd_spec by (cbn; unfold_ranges; lia). cbn. unfold civil_rd. rewrite Z.add_simpl_r. done.
Qed.

Lemma truth_bound b : 0 <= truth b <= 1.
Proof. destruct b; cbn; lia. Qed.
Lemma greg_days_le a b : a <= b -> greg_days a <= greg_days b.
Proof. intros H. unfold greg_days. divlia. Qed.

(** Weeks: [w0] full weeks lie before the one of the stamp. *)
Lemma iso_week i stamp :
  is_u32 stamp -> sane_time i ->
  let iso := fst (isocal_ntp_to_date stamp (Some (time_now i)) 0) in
  let w0 := (full_second i stamp / 86400 + DAY_NTP_STARTS - 1) / 7 in
  isocal_weeks_in_years (id_year iso - 1) <= w0 < isocal_weeks_in_years (id_year iso) /\ 1 <= id_year iso < 65536 /\
  id_week iso = w0 - isocal_weeks_in_years (id_year iso - 1) + 1 /\ 0 <= w0 <= 3414285.
Proof.
  intros Hs Hp. destruct (ntp_to_ntp_day stamp (time_now i) 0 Hs Hp) as (Hv & Hr & M). unfold full_second, isocal_ntp_to_date.
  set (vl := ntpcal_ntp_to_ntp stamp (Some (time_now i)) 0) in *. rewrite daysplit_spec by exact Hv. cbn [sp_hi sp_lo]. set (n := q_s vl) in *. clearbody n. clear vl Hv M.
  rewrite timesplit_spec by (unfold_ranges; divlia). unfold_cal. replace (n mod 86400 / 86400) with 0 by divlia.
  rewrite (s32_small (n / 86400)), Z.add_0_r, (s32_small (n / 86400)), s32_small by (unfold_ranges; lia).
  set (rd := n / 86400 + 693596 - 1) in *. assert (0 <= rd <= 23900000) by lia. clearbody rd.
  rewrite Z.rem_mod_nonneg, Z.quot_div_nonneg by lia. rewrite (proj2 (Z.ltb_ge (rd mod 7) 0)) by divlia. cbn iota.
  destruct (split_eraweeks_spec (rd / 7)) as (Hh & Hw & Hl); [divlia |]. set (sp := isocal_split_eraweeks (rd / 7)) in *. clearbody sp.
  pose proof (weeks_in_years_closest (sp_hi sp) ltac:(lia)) as C1. pose proof (weeks_in_years_closest (sp_hi sp + 1) ltac:(lia)) as C2.
  assert (Y : 0 <= sp_hi sp < 65500).
  { assert (rd / 7 <= 3414285 /\ 0 <= rd / 7) by divlia. split.
    - destruct (Z.leb_spec 0 (sp_hi sp)); [done |]. pose proof (greg_days_le (sp_hi sp + 1) 0 ltac:(lia)). change (greg_days 0) with 0 in *. lia.
    - destruct (Z.ltb_spec (sp_hi sp) 65500); [done |]. pose proof (greg_days_le 65500 (sp_hi sp) ltac:(lia)). change (greg_days 65500) with 23923383 in *. lia. }
  pose proof (greg_days_step (sp_hi sp)) as G. pose proof (truth_bound (leap (sp_hi sp + 1))). assert (L : 0 <= sp_lo sp < 60) by lia.
  cbn [fst id_year id_week]. rewrite !(u16_small (_ + 1)), !(u16_small (sp_hi sp)), !(u8_small (_ + 1)), !(u8_small (sp_lo sp)) by (unfold_ranges; rewrite ?u16_small, ?u8_small by (unfold_ranges; lia); lia).
  rewrite Z.add_simpl_r. repeat split; try lia. all: divlia.
Qed.

Lemma ntp_of_week y w w0 :
  1 <= y < 65536 -> w0 = isocal_weeks_in_years (y - 1) + w - 1 -> 0 <= w0 <= 3414285 -> 1 <= w ->
  isocal_date_to_ntp (mk_isodate y w 1 0 0 0) = day_start (7 * w0 + 1) mod 2 ^ 32.
Proof.
  intros Hy E H Hw. unfold isocal_date_to_ntp. cbn [id_year id_week id_weekday id_hour id_minute id_second]. rewrite <- E.
  change (ntpcal_etime_to_seconds 0 0 0) with 0. unfold day_start. unfold_cal.
  rewrite (s32_small w0), (s32_small (w0 * 7 + 1)), s32_small by (unfold_ranges; lia). rewrite dayjoin_spec by (unfold_ranges; lia).
  unfold D_s_lo. unfold_widths. divlia.
Qed.

Lemma iso_start_of y : 1 <= y <= 65536 -> iso_start y (7 * isocal_weeks_in_years (y - 1) + 1).
Proof.
  intros H. pose proof (weeks_in_years_closest (y - 1) ltac:(lia)). unfold iso_start, civil_rd. change (1 - 1) with 0. rewrite month_start_0.
  split; [divlia | lia].
Qed.

(** ** The generation of a stamp *)

Lemma pad0_length w n : 0 <= n < 65536 -> (w <= 5)%nat -> (length (pad0 w (fmt_d n)) <= 5)%nat.
Proof.
  intros H Hw. unfold pad0. rewrite length_app, repeat_length. unfold fmt_d. rewrite (proj2 (Z.ltb_ge n 0)) by lia.
  destruct (fmt_base_spec 10 n ltac:(lia) ltac:(lia)) as (_ & _ & _ & L). specialize (L 5 ltac:(lia) ltac:(lia)). unfold fmt_u. lia.
Qed.

Lemma fit_short l : (length l <= 64)%nat -> fit l = l.
Proof. intros H. apply take_ge. done. Qed.

Definition calendar_type (ty : Z) : Prop := ty = FILEGEN_DAY \/ ty = FILEGEN_WEEK \/ ty = FILEGEN_MONTH \/ ty = FILEGEN_YEAR.

Lemma day_wrap x : (day_start x mod 2 ^ 32 + 86400) mod 2 ^ 32 = (day_start x + 86400) mod 2 ^ 32 /\
  (day_start x mod 2 ^ 32 + 7 * 86400) mod 2 ^ 32 = (day_start x + 7 * 86400) mod 2 ^ 32.
Proof. split; apply Zplus_mod_idemp_l. Qed.

Lemma in_day rd n : rd = n / 86400 + DAY_NTP_STARTS -> day_start rd <= n < day_start rd + 86400.
Proof. intros ->. unfold day_start. divlia. Qed.

(** What a period has to be for a second [n]. *)
Definition period_for (ty n lo hi : Z) (suffix : list Z) : Prop :=
  period ty lo hi suffix /\ lo <= n < hi /\ hi - lo <= 366 * 86400 /\ (length suffix <= 64)%nat.

Section Periods.
Context (n y m d : Z).
Hypothesis (V : valid_day y m d) (Y : y < 65500) (R : civil_rd y m d = n / 86400 + DAY_NTP_STARTS).

Lemma day_period : let lo := day_start (civil_rd y m d) in period_for FILEGEN_DAY n lo (lo + 86400) (46 :: fmt_04 y ++ fmt_02 m ++ fmt_02 d).
Proof.
  pose proof (in_day _ _ R) as D. destruct V as (Hy & Hm & Hd). pose proof (month_len_bound y m Hm). cbv zeta. split; [| split; [lia | split; [lia |]]].
  - left. split; [done |]. exists y, m, d. repeat split; lia.
  - cbn [length]. rewrite !length_app. unfold fmt_04, fmt_02. pose proof (pad0_length 4 y). pose proof (pad0_length 2 m). pose proof (pad0_length 2 d). lia.
Qed.

Lemma month_period :
  let lo := day_start (civil_rd y m 1) in period_for FILEGEN_MONTH n lo (lo + month_len y m * 86400) (46 :: fmt_04 y ++ fmt_02 m).
Proof.
  pose proof (in_day _ _ R) as D. destruct V as (Hy & Hm & Hd). pose proof (month_len_bound y m Hm). cbv zeta. split; [| split; [| split; [lia |]]].
  - right; right; left. split; [done |]. exists y, m. repeat split; lia.
  - revert D. unfold civil_rd, day_start. lia.
  - cbn [length]. rewrite !length_app. unfold fmt_04, fmt_02. pose proof (pad0_length 4 y). pose proof (pad0_length 2 m). lia.
Qed.

Lemma year_period : period_for FILEGEN_YEAR n (day_start (civil_rd y 1 1)) (day_start (civil_rd (y + 1) 1 1)) (46 :: fmt_04 y).
Proof.
  pose proof (in_day _ _ R) as D. destruct V as (Hy & Hm & Hd). pose proof (month_len_bound y 1).
  pose proof (civil_rd_in_year y m d Hm Hd) as B. pose proof (greg_days_step (y - 1)) as G. rewrite Z.sub_add in G. pose proof (truth_bound (leap y)).
  assert (E : civil_rd y 1 1 = greg_days (y - 1) + 1 /\ civil_rd (y + 1) 1 1 = greg_days y + 1).
  { unfold civil_rd. rewrite Z.add_simpl_r. change (1 - 1) with 0. rewrite !month_start_0. lia. }
  split; [| split; [| split]].
  - right; right; right. split; [done |]. exists y. repeat split; lia.
  - unfold day_start in *. lia.
  - unfold day_start. lia.
  - cbn [length]. unfold fmt_04. pose proof (pad0_length 4 y). lia.
Qed.
End Periods.

Lemma week_bounds n w0 : w0 = (n / 86400 + DAY_NTP_STARTS - 1) / 7 -> day_start (7 * w0 + 1) <= n < day_start (7 * w0 + 1) + 7 * 86400.
Proof. intros ->. unfold day_start. divlia. Qed.

Lemma week_period n y w w0 :
  1 <= y < 65536 -> isocal_weeks_in_years (y - 1) <= w0 < isocal_weeks_in_years y -> w = w0 - isocal_weeks_in_years (y - 1) + 1 ->
  w0 = (n / 86400 + DAY_NTP_STARTS - 1) / 7 ->
  let lo := day_start (7 * w0 + 1) in period_for FILEGEN_WEEK n lo (lo + 7 * 86400) (46 :: fmt_04 y ++ 119 :: fmt_02 w).
Proof.
  intros Hy W Ew E0. pose proof (week_bounds n w0 E0) as B. clear E0. cbv zeta. split; [| split; [exact B | split; [lia |]]].
  - right; left. split; [done |]. exists y, w, (7 * isocal_weeks_in_years (y - 1) + 1), (7 * isocal_weeks_in_years (y + 1 - 1) + 1).
    split; [apply iso_start_of; lia |]. split; [apply iso_start_of; lia |]. rewrite Z.add_simpl_r.
    replace (7 * isocal_weeks_in_years (y - 1) + 1 + 7 * (w - 1)) with (7 * w0 + 1) by lia. repeat split; lia.
  - pose proof (weeks_in_years_closest (y - 1) ltac:(lia)) as C1. pose proof (weeks_in_years_closest y ltac:(lia)) as C2.
    pose proof (greg_days_step (y - 1)) as G. rewrite Z.sub_add in G. pose proof (truth_bound (leap y)).
    cbn [length]. rewrite length_app. cbn [length]. unfold fmt_04, fmt_02. pose proof (pad0_length 4 y). pose proof (pad0_length 2 w). lia.
Qed.

Lemma generation_period i stamp g :
  is_u32 stamp -> sane_time i -> calendar_type (fg_type g) ->
  exists lo hi suffix,
    generation i stamp g = (suffix, g <| id_lo := lo mod 2 ^ 32 |> <| id_hi := hi mod 2 ^ 32 |>) /\
    period_for (fg_type g) (full_second i stamp) lo hi suffix.
Proof.
  intros Hs Hp Ty. destruct (ntp_date i stamp Hs Hp) as (V & Y & R). destruct (iso_week i stamp Hs Hp) as (W & Yi & Wk & W0).
  unfold generation. set (cal := fst (ntpcal_ntp_to_date _ _ _ _)) in *. set (iso := fst (isocal_ntp_to_date _ _ _)) in *.
  set (n := full_second i stamp) in *. clearbody cal iso n. destruct V as (Hy & Hm & Hd).
  destruct Ty as [E | [E | [E | E]]]; rewrite !E; unfold SUFFIX_SEP; cbv [FILEGEN_NONE FILEGEN_PID FILEGEN_DAY FILEGEN_WEEK FILEGEN_MONTH FILEGEN_YEAR Z.eqb Pos.eqb].
  - pose proof (day_period n _ _ _ (conj Hy (conj Hm Hd)) Y R) as P. do 3 eexists. split; [| exact P]. rewrite fit_short by apply P.
    rewrite ntp_of_date by done. unfold u32, wrap. now rewrite (proj1 (day_wrap _)).
  - pose proof (week_period n _ _ _ Yi W Wk eq_refl) as P. do 3 eexists. split; [| exact P]. rewrite fit_short by apply P.
    rewrite (ntp_of_week _ _ ((n / 86400 + DAY_NTP_STARTS - 1) / 7)) by lia. unfold u32, wrap. now rewrite (proj2 (day_wrap _)).
  - pose proof (month_period n _ _ _ (conj Hy (conj Hm Hd)) Y R) as P. do 3 eexists. split; [| exact P]. rewrite fit_short by apply P.
    assert (V : valid_day (jd_year cal) (jd_month cal) 1) by (pose proof (month_len_bound (jd_year cal) _ Hm); split; lia).
    now rewrite (ntp_of_date (jd_year cal) (jd_month cal) 1), ntp_of_next_month.
  - pose proof (year_period n _ _ _ (conj Hy (conj Hm Hd)) Y R) as P. do 3 eexists. split; [| exact P]. rewrite fit_short by apply P.
    rewrite u16_small by (unfold_ranges; lia). now rewrite !ntp_of_date by (pose proof (month_len_bound (jd_year cal) 1); pose proof (month_len_bound (jd_year cal + 1) 1); split; lia).
Qed.

(** ** The file of a record *)

(** The bounds are kept modulo an era; a set that was opened less than 68
    years ago is current only inside its period. *)
Lemma current_inside lo hi n :
  lo < hi -> hi - lo <= 366 * 86400 -> Z.abs (n - lo) < 2 ^ 31 -> lo mod 2 ^ 32 <= n mod 2 ^ 32 < hi mod 2 ^ 32 -> lo <= n < hi.
Proof. intros H1 H2 H3 H4. divlia. Qed.

(** What is known of a set with an open file. *)
Definition open_ok (n : Z) (s : stats) (g : FILEGEN) : Prop :=
  forall inode, fg_fp g = Some inode -> exists lo hi suffix,
    period (fg_type g) lo hi suffix /\ lo < hi /\ hi - lo <= 366 * 86400 /\ Z.abs (n - lo) < 2 ^ 31 /\
    id_lo g = lo mod 2 ^ 32 /\ id_hi g = hi mod 2 ^ 32 /\ names (files s) !! (base_name g ++ suffix) = Some (File inode).
Definition only_files (s : stats) : Prop := forall name, names (files s) !! name <> Some OtherNode.

Section Facts.
Context `{Permissions}.

Lemma link_keeps old new f name n : names f !! name = Some n -> names (link old new f) !! name = Some n.
Proof.
  intros E. unfold link. destruct (names f !! old) as [n'|]; [| done]. destruct (names f !! new) eqn:F; [done |].
  destruct (can_change new); [| done]. cbn. rewrite lookup_insert_ne; [done | congruence].
Qed.

Lemma fopen_ok name f :
  can_open name = true -> names f !! name <> Some OtherNode ->
  exists i f', fopen_append name f = Some (i, f') /\ names f' !! name = Some (File i).
Proof.
  intros C N. unfold fopen_append. rewrite C. cbn [negb]. destruct (names f !! name) as [[i|]|] eqn:E; [eauto | done |].
  do 2 eexists. split; [done |]. cbn. apply lookup_insert_eq.
Qed.

Lemma fopen_files name s i f : only_files s -> fopen_append name (files s) = Some (i, f) -> forall name', names f !! name' <> Some OtherNode.
Proof.
  intros O F name'. unfold fopen_append in F. destruct (can_open name); [| done]. cbn [negb] in F.
  destruct (names (files s) !! name) as [[k|]|] eqn:E; [| done |]; injection F as <- <-; [apply O |]. cbn.
  destruct (decide (name = name')) as [<- | N]; [rewrite lookup_insert_eq; done | rewrite lookup_insert_ne by done; apply O].
Qed.

Lemma link_files old new s : only_files s -> only_files (s <| files := link old new (files s) |>).
Proof.
  intros O name. cbn. unfold link. destruct (names (files s) !! old) as [n|] eqn:E; [| apply O].
  destruct (names (files s) !! new); [apply O |]. destruct (can_change new); [| apply O]. cbn.
  destruct (decide (new = name)) as [<- | N]; [rewrite lookup_insert_eq | rewrite lookup_insert_ne by done; apply O].
  intros X. injection X as ->. now apply (O old).
Qed.

Lemma clear_base_files i filename s : only_files s -> only_files (clear_base i filename s).
Proof.
  intros O name. unfold clear_base. destruct (names (files s) !! filename) as [[n|]|] eqn:E; [| apply O..].
  destruct (_ <=? 1); cbn.
  - set (new := filename ++ _). clearbody new. unfold rename. rewrite E. destruct (names (files s) !! new) as [[k|]|]; [| apply O |].
    all: destruct (_ && _); [| apply O]; cbn; destruct (decide (new = name)) as [<- | N]; [rewrite lookup_insert_eq; done |].
    all: rewrite lookup_insert_ne by done; destruct (decide (filename = name)) as [<- | N']; [rewrite lookup_delete_eq | rewrite lookup_delete_ne by done]; first [done | apply O].
  - unfold unlink. destruct (can_change filename); [| apply O]. cbn.
    destruct (decide (filename = name)) as [<- | N']; [rewrite lookup_delete_eq | rewrite lookup_delete_ne by done]; first [done | apply O].
Qed.

Lemma open_spec i p now s g :
  (forall name, can_open name = true) -> gens s !! p = Some g -> calendar_type (fg_type g) -> is_u32 now -> sane_time i -> only_files s ->
  exists s' lo hi suffix inode, filegen_open p now i s = Some s' /\
    gens s' !! p = Some (g <| id_lo := lo mod 2 ^ 32 |> <| id_hi := hi mod 2 ^ 32 |> <| fg_fp := Some inode |>) /\
    period_for (fg_type g) (full_second i now) lo hi suffix /\ names (files s') !! (base_name g ++ suffix) = Some (File inode) /\ only_files s'.
Proof.
  intros C G Ty Hn Hi O. destruct (generation_period i now g Hn Hi Ty) as (lo & hi & suffix & E & P).
  unfold filegen_open. rewrite G. cbn [mbind option_bind]. rewrite E. set (g1 := g <| id_lo := _ |> <| id_hi := _ |>).
  set (s1 := if fg_type g1 =? FILEGEN_NONE then _ else _).
  assert (O1 : only_files s1) by (subst s1; destruct (_ =? _); [exact O | apply clear_base_files, O]).
  destruct (fopen_ok (base_name g ++ suffix) (files s1) (C _) (O1 _)) as (inode & f & F & N). rewrite F.
  eexists _, lo, hi, suffix, inode. split; [reflexivity |]. split; [| split; [exact P |]].
  - destruct (has _ _); cbn; apply lookup_insert_eq.
  - assert (Of : only_files (set_gen p (g1 <| fg_fp := Some inode |>) (s1 <| files := f |>))) by exact (fopen_files _ _ _ _ O1 F).
    destruct (has _ _); split; first [exact N | exact Of | now apply link_keeps | apply link_files, Of].
Qed.
End Facts.

(** After [filegen_setup] the open file of an enabled set is the one whose
    name has the date of the period that the second is in, whether it was
    open already or the generation changed; and what is known of the open
    file is known again for the next record. *)
Lemma setup_right_file `{Permissions} i p now s g :
  (forall name, can_open name = true) -> gens s !! p = Some g -> has (fg_flag g) FGEN_FLAG_ENABLED = true -> calendar_type (fg_type g) ->
  is_u32 now -> sane_time i -> only_files s -> open_ok (full_second i now) s g ->
  exists s' g' lo hi suffix inode, filegen_setup p now i s = Some s' /\ gens s' !! p = Some g' /\ fg_fp g' = Some inode /\
    (fg_flag g' = fg_flag g /\ fg_type g' = fg_type g /\ base_name g' = base_name g /\ only_files s') /\
    period (fg_type g) lo hi suffix /\ lo <= full_second i now < hi /\
    names (files s') !! (base_name g ++ suffix) = Some (File inode) /\ open_ok (full_second i now) s' g'.
Proof.
  intros C G En Ty Hn Hi O K. unfold filegen_setup. rewrite G. cbn [mbind option_bind]. rewrite En. cbn [negb].
  match goal with |- exists s' g' lo hi suffix inode, _ = Some s' /\ @?P s' g' lo hi suffix inode =>
    assert (Open : exists s' g' lo hi suffix inode, filegen_open p now i s = Some s' /\ P s' g' lo hi suffix inode) end.
  { destruct (open_spec i p now s g C G Ty Hn Hi O) as (s' & lo & hi & suffix & inode & E & G' & (P & B & L & _) & N & O').
    eexists s', _, lo, hi, suffix, inode. split; [exact E |]. split; [exact G' |]. split; [done |]. split; [done |]. do 3 (split; [done |]).
    intros k Ek. injection Ek as <-. exists lo, hi, suffix. repeat split; first [done | lia]. }
  destruct (fg_fp g) as [inode|] eqn:Fp; [| exact Open].
  destruct (is_current i now g) eqn:Cur; [| exact Open].
  destruct (K inode Fp) as (lo & hi & suffix & P & L1 & L2 & A & I1 & I2 & N).
  exists s, g, lo, hi, suffix, inode. do 5 (split; [done |]). split; [| done].
  apply current_inside; try done. destruct (ntp_to_ntp_day now (time_now i) 0 Hn Hi) as (_ & _ & M). unfold full_second. rewrite M, <- I1, <- I2.
  revert Cur. unfold is_current. destruct Ty as [-> | [-> | [-> | ->]]]; cbn; intros X; apply andb_prop in X as [X1 X2]; lia.
Qed.

(** 13 August 2013, 12:00:00, in the set "loopstats" of a new directory. *)
Definition all_allowed : Permissions := {| can_open := fun _ => true; can_change := fun _ => true |}.
Definition sample_info : sysinfo := mk_sysinfo 4711 1376395200 1000.
Definition sample_set : FILEGEN := (filegen_init (txt "/var/NTP/") (txt "loopstats")) <| fg_flag := FGEN_FLAG_LINK .| FGEN_FLAG_ENABLED |>.
Definition sample_files : fs := mk_fs (<[txt "/var/NTP/loopstats" := File 1]> empty) (<[1 := [txt "old"]]> empty) 2.
Definition sample_stats : stats := mk_stats sample_files (<[7 := sample_set]> empty) [(txt "loopstats", 7)] 0 (txt "/var/NTP/") true.
Definition NOON : Z := 1376395200 + JAN_1970.

Lemma sample_only_files : only_files sample_stats.
Proof. intros name. cbn. destruct (decide (txt "/var/NTP/loopstats" = name)) as [<- | N]; [rewrite lookup_insert_eq | rewrite lookup_insert_ne, lookup_empty by done]; done. Qed.

(** ** No file is lost *)

Definition reachable (f : fs) (n : node) : Prop := exists name, names f !! name = Some n.
Definition fs_ok (f : fs) : Prop := forall i, is_Some (contents f !! i) -> i < next_inode f.
(** The files are all there, but for one that may have lost its name, and
    all have the lines they had. *)
Definition kept (lost : option node) (f f' : fs) : Prop :=
  (forall n, reachable f n -> lost <> Some n -> reachable f' n) /\
  (forall i l, contents f !! i = Some l -> contents f' !! i = Some l).

Lemma kept_refl o f : kept o f f.
Proof. split; auto. Qed.
Lemma kept_trans o f1 f2 f3 : kept o f1 f2 -> kept o f2 f3 -> kept o f1 f3.
Proof. intros [A B] [C D]. split; auto. Qed.
#[export] Instance kept_preorder o : PreOrder (kept o).
Proof. split; [exact (kept_refl o) | exact (kept_trans o)]. Qed.

(** A second name for the node of a name. *)
Lemma other_name (m : gmap (list Z) node) name n :
  m !! name = Some n -> (2 <= size (filter (fun x => x.2 = n) m))%nat -> exists name', name' <> name /\ m !! name' = Some n.
Proof.
  intros E Sz. set (q := filter (fun x => x.2 = n) m) in *. assert (Q : q !! name = Some n) by (apply map_lookup_filter_Some; done).
  pose proof (map_size_delete_Some name q (ex_intro _ n Q)) as D. destruct (map_choose (delete name q)) as (k & x & K).
  { intros Em. rewrite Em, map_size_empty in D. lia. }
  apply lookup_delete_Some in K as [Ne K]. apply map_lookup_filter_Some in K as [K1 K2]. cbn in K2. subst x. eauto.
Qed.

Section Kept.
Context `{Permissions}.

Lemma rename_kept old new f : kept (names f !! new) f (rename old new f).
Proof.
  unfold rename. destruct (names f !! old) as [n|] eqn:E; [| apply kept_refl].
  assert (K : kept (names f !! new) f (f <| names := <[new := n]> (delete old (names f)) |>)).
  { split; [| done]. intros k (name & K) L. destruct (decide (name = old)) as [-> | Ne].
    - exists new. cbn. rewrite lookup_insert_eq. congruence.
    - exists name. cbn. rewrite lookup_insert_ne, lookup_delete_ne by congruence. done. }
  repeat case_match; first [exact K | apply kept_refl].
Qed.

Lemma unlink_kept name n f : names f !! name = Some n -> 2 <= st_nlink n f -> kept None f (unlink name f).
Proof.
  intros E Sz. unfold unlink. destruct (can_change name); [| apply kept_refl]. split; [| done]. intros k (name1 & K) _. cbn.
  destruct (decide (name1 = name)) as [-> | Ne].
  - destruct (other_name (names f) name n E) as (name' & Ne & E'); [unfold st_nlink in Sz; lia |]. exists name'. cbn. rewrite lookup_delete_ne by done. congruence.
  - exists name1. cbn. now rewrite lookup_delete_ne.
Qed.

Lemma link_kept o old new f : kept o f (link old new f).
Proof.
  split; [intros k (name & K) _; exists name; now apply link_keeps |]. intros i l E. unfold link. repeat case_match; done.
Qed.

Lemma fopen_kept o name f i f' : fs_ok f -> fopen_append name f = Some (i, f') -> kept o f f'.
Proof.
  intros W. unfold fopen_append. destruct (can_open name); [| done]. cbn [negb]. destruct (names f !! name) as [[k|]|] eqn:E; [| done |].
  - intros X. injection X as <- <-. apply kept_refl.
  - intros X. injection X as <- <-. split.
    + intros n (nm & K) _. exists nm. cbn. rewrite lookup_insert_ne; [done | congruence].
    + intros j l J. cbn. rewrite lookup_insert_ne; [done |]. specialize (W j ltac:(eauto)). lia.
Qed.

Definition save_name (i : sysinfo) (s : stats) (filename : list Z) : list Z :=
  filename ++ fit (SUFFIX_SEP :: fmt_d (getpid i) ++ 67 :: fmt_u (conflicts s)).

(** What rename replaces: the file at the save name, when there is a plain
    file with no other name to save. *)
Definition replaced (i : sysinfo) (filename : list Z) (s : stats) : option node :=
  match names (files s) !! filename with
  | Some (File n) =>
      if st_nlink (File n) (files s) <=? 1 then names (files s) !! save_name i s filename else None
  | _ => None
  end.

Lemma clear_kept i filename s :
  kept (replaced i filename s) (files s) (files (clear_base i filename s)) /\
  (fs_ok (files s) -> fs_ok (files (clear_base i filename s))).
Proof.
  unfold clear_base, replaced. destruct (names (files s) !! filename) as [[n|]|] eqn:E; [| split; [apply kept_refl | done]..].
  destruct (Z.leb_spec (st_nlink (File n) (files s)) 1); cbn.
  - split; [apply rename_kept |]. unfold rename. repeat case_match; done.
  - split; [apply (unlink_kept _ (File n)); [done | lia] |]. unfold unlink. case_match; done.
Qed.
End Kept.



(** ** A name with a directory *)

Lemma strchr_spec s c : (strchr s c = None <-> c ∉ s) /\ (forall p, strchr s c = Some p -> exists q, p = c :: q).
Proof.
  induction s as [|x s [IH1 IH2]]; cbn [strchr]; [split; [split; [intros _; apply not_elem_of_nil | done] | done] |].
  destruct (Z.eqb_spec x c) as [-> | N].
  - split; [split; [done |]; intros X; exfalso; apply X; left | intros p E; injection E as <-; eauto].
  - split; [| exact IH2]. rewrite IH1, not_elem_of_cons. intuition congruence.
Qed.

Lemma name_loop_ends p : DIR_SEP ∉ p -> name_loop 1 p = Some (negb (dot_dot p)).
Proof. intros N. cbn. rewrite (proj2 (proj1 (strchr_spec p DIR_SEP)) N). destruct (dot_dot p); done. Qed.

(** At a separator the loop finds the same separator again. *)
Lemma name_loop_stuck fuel q : name_loop fuel (DIR_SEP :: q) = None.
Proof. induction fuel as [|fuel IH]; [done |]. cbn. exact IH. Qed.

(** C39: the test of a file name in filegen_config ends at once for a name
    without a separator, and refuses the parent directory; for every other
    name with a separator that does not begin with the parent directory the
    loop does not end, and neither does filegen_config. *)
Theorem filegen_config_loops `{Permissions} p dir fname ty flag now i s g :
  dir <> [] ->
  (DIR_SEP ∉ fname -> valid_fileref 1 dir fname = Some (negb (dot_dot fname))) /\
  (DIR_SEP ∈ fname -> dot_dot fname = false -> gens s !! p = Some g -> fname <> fg_fname g ->
    forall fuel, filegen_config fuel p dir fname ty flag now i s = None).
Proof.
  intros D. destruct dir as [|c dir]; [done |]. split; [apply name_loop_ends |].
  intros I Dd G Ne fuel. unfold filegen_config. rewrite G. cbn [mbind option_bind]. rewrite (bool_decide_eq_false_2 (fname = _) Ne), andb_false_r. cbn [andb].
  cbn [valid_fileref]. destruct fuel as [|fuel]; [done |]. cbn [name_loop]. rewrite Dd.
  destruct (strchr fname DIR_SEP) as [r|] eqn:E; [| apply strchr_spec in E; done].
  destruct (proj2 (strchr_spec fname DIR_SEP) r E) as [q ->]. now rewrite name_loop_stuck.
Qed.

Lemma filegen_config_loops_witness :
  @filegen_config all_allowed 1000 7 (txt "/var/NTP/") (txt "log/loop") FILEGEN_DAY 0x81 L_CLR sample_info sample_stats = None.
Proof.
  apply (@filegen_config_loops all_allowed 7 (txt "/var/NTP/") (txt "log/loop") FILEGEN_DAY 0x81 L_CLR sample_info sample_stats sample_set);
    [discriminate | right; right; right; left | reflexivity | apply lookup_insert_eq | discriminate].
Defined.
