(* ===== verification/Parse.v ===== *)
(** * The timecode parser of serial clocks (libparse/parse.c, include/parse.h)

    Characters from a clock are collected into a buffer by the input routine
    of a format; a complete telegram is copied to a second buffer, converted
    to a date by the conversion routine of the format and turned into a
    timestamp.  The formats are a parameter here, a table of [clockformat]
    records; ParseFormats.v has the formats themselves.  [None] is an access
    outside a buffer.  The build is that of the daemon (no PARSEKERNEL), a
    timestamp is an [l_fp]; what [malloc] returns is an argument. *)

From S2P Require Import Prelude FixedPoint Calendar NtpTypes TimeOps.
From stdpp Require Import base list.
#[local] Open Scope Z_scope.

(** ** Constants of include/parse.h *)

Definition PARSEB_POWERUP : Z := 0x1.
Definition PARSEB_NOSYNC : Z := 0x2.
Definition PARSEB_ANNOUNCE : Z := 0x10.
Definition PARSEB_DST : Z := 0x20.
Definition PARSEB_UTC : Z := 0x40.
Definition PARSEB_LEAPDEL : Z := 0x100.
Definition PARSEB_LEAPADD : Z := 0x200.
Definition PARSEB_LEAPSECOND : Z := 0x400.
Definition PARSEB_ALTERNATE : Z := 0x1000.
Definition PARSEB_POSITION : Z := 0x2000.
Definition PARSEB_S_LEAP : Z := 0x10000.
Definition PARSEB_S_ANTENNA : Z := 0x20000.
Definition PARSEB_S_PPS : Z := 0x40000.
Definition PARSEB_S_POSITION : Z := 0x80000.
Definition PARSEB_TIMECODE : Z := 0x10000000.
Definition PARSEB_PPS : Z := 0x20000000.
Definition PARSE_TCMAX : Z := 400.
Definition PARSE_IO_CSIZE : Z := 3.
Definition PARSE_IO_CS7 : Z := 2.
Definition CVT_MASK : Z := 0xF.
Definition CVT_NONE : Z := 1.
Definition CVT_FAIL : Z := 2.
Definition CVT_OK : Z := 4.
Definition CVT_SKIP : Z := 8.
Definition CVT_ADDITIONAL : Z := 0x10.
Definition CVT_BADFMT : Z := 0x100.
Definition CVT_BADDATE : Z := 0x200.
Definition CVT_BADTIME : Z := 0x400.
Definition PARSE_INP_SKIP : Z := 0.
Definition PARSE_INP_TIME : Z := 1.
Definition PARSE_INP_DATA : Z := 4.
Definition PARSE_INP_SYNTH : Z := 8.
Definition SYNC_ONE : Z := 1.

(** ** Data *)

(** [struct clocktime]: the date of a telegram. *)
Record clocktime_t := mk_clocktime {
  ct_day : Z; ct_month : Z; ct_year : Z; ct_hour : Z; ct_minute : Z; ct_second : Z;
  ct_usecond : Z; ct_utcoffset : Z; ct_utctime : Z; ct_flags : Z }.
#[export] Instance eta_clocktime : Eta clocktime_t := fun r =>
  mk_clocktime (ct_day r) (ct_month r) (ct_year r) (ct_hour r) (ct_minute r) (ct_second r)
    (ct_usecond r) (ct_utcoffset r) (ct_utctime r) (ct_flags r).
Definition no_clocktime : clocktime_t := mk_clocktime 0 0 0 0 0 0 0 0 0 0.
Definition add_flag (f : Z) (ct : clocktime_t) : clocktime_t := ct <| ct_flags := ct_flags ct .| f |>.

(** The private data of the formats that have some: the last time code of the
    raw DCF77 decoder, the state of the Varitext input, the message a
    Meinberg GPS receiver is sending. *)
Record varitext := mk_varitext { start_found : Z; end_found : Z; end_count : Z; previous_ch : Z; vt_tstamp : l_fp }.
Record msg_buf := mk_msg_buf { mb_len : Z; mb_phase : Z }.
Inductive pdata :=
| NoData
| LastTcode (tcode : Z)
| Varitext (t : varitext)
| MsgBuf (m : msg_buf).

(** [struct parse] with the [parse_dtime] in it, whose fields begin with
    [dt_].  The two halves of the allocated data are separate lists. *)
Record parse := mk_parse {
  parse_ioflags : Z; parse_pdata : pdata;
  parse_index : Z; parse_data : list Z; parse_dsize : Z; parse_lformat : Z; parse_lstate : Z;
  parse_ldata : list Z; parse_ldsize : Z; parse_badformat : Z; parse_lastchar : l_fp;
  dt_status : Z; dt_time : l_fp; dt_stime : l_fp; dt_ptime : l_fp; dt_state : Z; dt_format : Z;
  dt_msglen : Z; dt_msg : list Z }.
#[export] Instance eta_parse : Eta parse := fun r =>
  mk_parse (parse_ioflags r) (parse_pdata r) (parse_index r) (parse_data r) (parse_dsize r) (parse_lformat r)
    (parse_lstate r) (parse_ldata r) (parse_ldsize r) (parse_badformat r) (parse_lastchar r)
    (dt_status r) (dt_time r) (dt_stime r) (dt_ptime r) (dt_state r) (dt_format r) (dt_msglen r) (dt_msg r).

(** [struct clockformat].  The conversion gets the buffer and the number of
    characters in it, and may change the buffer. *)
Record clockformat := mk_format {
  f_input : option (parse -> Z -> l_fp -> option (Z * parse));
  f_convert : option (list Z -> Z -> clocktime_t -> pdata -> option (Z * list Z * clocktime_t * pdata));
  f_syncpps : option (parse -> bool -> l_fp -> Z * parse);
  f_name : list Z; f_length : Z; f_pdata : pdata }.

(** ** The buffers *)

Definition at_index (l : list Z) (i : Z) : option Z := if i <? 0 then None else l !! Z.to_nat i.
Definition store (l : list Z) (i x : Z) : option (list Z) :=
  if (0 <=? i) && (i <? Z.of_nat (length l)) then Some (<[Z.to_nat i := u8 x]> l) else None.

(** [memcpy] of [n] characters to the front of [dst]. *)
Definition copy_front (dst src : list Z) (n : Z) : option (list Z) :=
  if (n <=? Z.of_nat (length dst)) && (n <=? Z.of_nat (length src)) then
    Some (take (Z.to_nat n) src ++ drop (Z.to_nat n) dst)
  else None.

(** The telegram so far becomes the last one, with a NUL behind it. *)
Definition finish (s : parse) : option parse :=
  data ← store (parse_data s) (parse_index s) 0;
  ldata ← copy_front (parse_ldata s) data (parse_index s + 1);
  Some (s <| parse_data := data |> <| parse_ldata := ldata |> <| parse_ldsize := parse_index s |>).
Definition start_with (ch : Z) (s : parse) : option parse :=
  data ← store (parse_data s) 0 ch;
  Some (s <| parse_index := 1 |> <| parse_data := data |>).

Definition parse_restart (ch : Z) (s : parse) : option (Z * parse) :=
  '(updated, s) ← if nonzero (parse_index s) then s ← finish s; Some (PARSE_INP_TIME, s) else Some (PARSE_INP_SKIP, s);
  s ← start_with ch s;
  Some (updated, s).

Definition parse_addchar (ch : Z) (s : parse) : option (Z * parse) :=
  if parse_index s <? parse_dsize s then
    data ← store (parse_data s) (parse_index s) ch;
    Some (PARSE_INP_SKIP, s <| parse_data := data |> <| parse_index := u16 (parse_index s + 1) |>)
  else parse_restart ch s.

Definition parse_end (s : parse) : option (Z * parse) :=
  s ← finish s;
  Some (PARSE_INP_TIME, s <| parse_index := 0 |>).

(** ** Dates *)

Definition days_of_month : list Z := [0; 31; 28; 31; 30; 31; 30; 31; 31; 30; 31; 30; 31].
Definition YEAR_PIVOT : Z := 98.
Definition YEAR_BREAK : Z := 500.
Definition days_per_year (x : Z) : Z :=
  if nonzero (Z.rem x 4) then 365 else if nonzero (Z.rem x 400) then (if nonzero (Z.rem x 100) then 366 else 365) else 366.
Definition julian0 (year : Z) : Z :=
  year * 365 + (if 0 <? year then Z.quot (year + 3) 4 - Z.quot (year - 1) 100 + Z.quot (year - 1) 400 else 0).
Definition isleap_4 (y : Z) : bool :=
  (Z.rem y 4 =? 0) && negb ((Z.rem y 100 =? 0) && negb (Z.rem y 400 =? 0)).
Definition TIMES24 (x : Z) : Z := Z.shiftl x 4 + Z.shiftl x 3.
Definition TIMES60 (x : Z) : Z := Z.shiftl (Z.shiftl x 4 - x) 2.

Definition two_digit_year (year : Z) : Z :=
  let year := if year <? YEAR_PIVOT then year + 100 else year in
  if year <? YEAR_BREAK then year + 1900 else year.

(** The days of the months before [month], as the loop adds them up. *)
Fixpoint month_days (i : nat) (t : Z) (days : list Z) : Z :=
  match i, days with
  | S i, d :: days => month_days i (t + d) days
  | _, _ => t
  end.

(** The result, the error code set if any, and the date as it is left. *)
Definition parse_to_unixtime (ct : clocktime_t) : Z * option Z * clocktime_t :=
  if nonzero (ct_utctime ct) then (ct_utctime ct, None, ct)
  else
    let ct := ct <| ct_year := two_digit_year (ct_year ct) |> in
    let bad code := (-1, Some (CVT_FAIL .| code), ct) in
    if ct_year ct <? 1970 then bad CVT_BADDATE
    else if (ct_month ct <=? 0) || (12 <? ct_month ct) then bad CVT_BADDATE
    else
      let t := julian0 (ct_year ct) - julian0 1970 in
      let t := if (3 <=? ct_month ct) && isleap_4 (ct_year ct) then t + 1 else t in
      let t := month_days (Z.to_nat (ct_month ct - 1)) t (tl days_of_month) in
      let last := nth (Z.to_nat (ct_month ct)) days_of_month 0 in
      if (ct_day ct <? 1) ||
         (if (ct_month ct =? 2) && (days_per_year (ct_year ct) =? 366) then 29 <? ct_day ct else last <? ct_day ct)
      then bad CVT_BADDATE
      else
        let t := t + (ct_day ct - 1) in
        if (ct_hour ct <? 0) || (24 <=? ct_hour ct) then bad CVT_BADTIME
        else
          let t := TIMES24 t + ct_hour ct in
          if (ct_minute ct <? 0) || (59 <? ct_minute ct) then bad CVT_BADTIME
          else
            let t := TIMES60 t + ct_minute ct in
            if (ct_second ct <? 0) || (60 <? ct_second ct) then bad CVT_BADTIME
            else
              let t := TIMES60 t + ct_second ct + ct_utcoffset ct in
              (t, None, ct <| ct_utctime := t |>).

(** ** Numbers and patterns in a telegram *)

(** The digits of [Stoi]: [i] is the index of the next character, [f] says
    that a digit was seen, [cnt] limits the index. *)
Fixpoint stoi_digits (fuel : nat) (buf : list Z) (b i cnt : Z) (f v : bool) (z : Z) : option (option Z) :=
  match fuel with
  | O => None
  | S fuel =>
      c ← at_index buf i;
      if (c <? 48) || (57 <? c) || (nonzero cnt && (cnt <? i + 1 - b)) then
        Some (if f then Some (if v then s32 (- z) else z) else None)
      else stoi_digits fuel buf b (i + 1) cnt true v (s32 (z * 8 + z * 2 + (c - 48)))
  end.
Fixpoint skip_spaces (fuel : nat) (buf : list Z) (i : Z) : option Z :=
  match fuel with
  | O => None
  | S fuel => c ← at_index buf i; if c =? 32 then skip_spaces fuel buf (i + 1) else Some i
  end.
(** [Stoi] at the index [b]: [Some None] is the error return. *)
Definition Stoi (buf : list Z) (b cnt : Z) : option (option Z) :=
  let fuel := S (length buf) in
  i ← skip_spaces fuel buf b;
  c ← at_index buf i;
  let v := c =? 45 in
  stoi_digits fuel buf b (if v || (c =? 43) then i + 1 else i) cnt false v 0.

(** [Strok]: the telegram matches the pattern, in which a space stands for
    any character; both end with a NUL. *)
Fixpoint Strok (s m : list Z) : option bool :=
  match s, m with
  | [], _ => None
  | _ :: _, [] => Some true
  | x :: s', c :: m' => if x =? 0 then Some false else if (c =? 32) || (x =? c) then Strok s' m' else Some false
  end.

(** [Strcmp] finds its arguments equal as soon as one of them ends. *)
Fixpoint Strcmp (s t : list Z) : option bool :=
  match s, t with
  | c :: s', d :: t' =>
      if c =? d then match s', t' with [], _ | _, [] => Some true | _, _ => Strcmp s' t' end
      else Some false
  | [], [] => None
  | _, _ => Some false
  end.

(** ** Time stamps *)

Definition parse_timedout (ts : l_fp) (del : tstamp) (s : parse) : bool :=
  let delta := TSTOTV (L_SUB ts (parse_lastchar s)) in
  (tv_sec del <? tv_sec delta) || ((tv_sec delta =? tv_sec del) && (tv_frac del <? tv_frac delta)).

Definition updatetimeinfo (flags : Z) (s : parse) : Z * parse :=
  let lstate := dt_state s .| flags .| PARSEB_TIMECODE in
  (CVT_OK, s <| parse_lstate := lstate |> <| dt_state := lstate |>).

Definition syn_simple (s : parse) (ts : l_fp) : parse := s <| dt_stime := ts |>.

Definition pps_simple (s : parse) (status : bool) (ptime : l_fp) : Z * parse :=
  (CVT_NONE, s <| dt_ptime := ptime |> <| dt_state := dt_state s .| (PARSEB_PPS .| PARSEB_S_PPS) |>).
Definition pps_one (s : parse) (status : bool) (ptime : l_fp) : Z * parse :=
  if status then pps_simple s status ptime else (CVT_NONE, s).
Definition pps_zero (s : parse) (status : bool) (ptime : l_fp) : Z * parse :=
  if status then (CVT_NONE, s) else pps_simple s status ptime.

(** ** The telegrams, for a table of formats *)

Section Formats.
Context (clockformats : list clockformat).

Definition format_of (s : parse) : option clockformat := clockformats !! Z.to_nat (parse_lformat s).

(** What follows the conversion is done whatever its outcome. *)
Definition timepacket (s : parse) : option (Z * parse) :=
  if parse_lformat s =? 0xFFFF then Some (CVT_NONE, s)
  else
    f ← format_of s;
    '(cvtrtc, s, ct) ← match f_convert f with
      | None => Some (CVT_NONE, s, no_clocktime)
      | Some convert =>
          '(rtc, ldata, ct, pd) ← convert (parse_ldata s) (parse_ldsize s) no_clocktime (parse_pdata s);
          Some (rtc, s <| parse_ldata := ldata |> <| parse_pdata := pd |>, ct)
      end;
    let code := cvtrtc .& CVT_MASK in
    if code =? CVT_SKIP then Some (CVT_NONE, s)
    else if negb ((code =? CVT_FAIL) || (code =? CVT_NONE) || (code =? CVT_OK)) then Some (CVT_FAIL .| cvtrtc, s)
    else
      let s := if code =? CVT_OK then s else s <| parse_badformat := u64 (parse_badformat s + 1) |> in
      let '(t, rtc, ct) := parse_to_unixtime ct in
      if t =? -1 then Some (CVT_FAIL .| default cvtrtc rtc, s)
      else
        let s := s <| dt_time := mk_lfp (u32 (t + JAN_1970)) (TVUTOTSF (ct_usecond ct)) |> <| dt_format := parse_lformat s |> in
        Some (updatetimeinfo (ct_flags ct) s).

Definition char_mask (ioflags : Z) : Z := Z.shiftl 0x20 (ioflags .& PARSE_IO_CSIZE) - 1.

Definition parse_ioread (ch : Z) (tstamp : l_fp) (s : parse) : option (bool * parse) :=
  let ch := ch .& char_mask (parse_ioflags s) in
  f ← format_of s;
  match f_convert f with
  | None => Some (true, s)
  | Some _ =>
      '(updated, s) ← match f_input f with
        | None => Some (CVT_NONE, s)
        | Some input =>
            '(status, s) ← input s ch tstamp;
            let updated := if has status PARSE_INP_SYNTH then CVT_OK else CVT_NONE in
            '(updated, s) ← if has status PARSE_INP_TIME then timepacket s else Some (updated, s);
            Some (if has status PARSE_INP_DATA then updated .| CVT_ADDITIONAL else updated, s)
        end;
      let s := s <| parse_lastchar := tstamp |> <| dt_status := updated |> in
      Some (negb (updated .& CVT_MASK =? CVT_NONE) || has updated CVT_ADDITIONAL, s)
  end.

Definition parse_iopps (status : Z) (ptime : l_fp) (s : parse) : option (bool * parse) :=
  f ← format_of s;
  let '(updated, s) := match f_syncpps f with Some pps => pps s (status =? SYNC_ONE) ptime | None => (CVT_NONE, s) end in
  Some (negb (updated .& CVT_MASK =? CVT_NONE), s).

(** [parse_setfmt] with the memory [malloc] returns for the two buffers. *)
Fixpoint find_format (name : list Z) (i : nat) (fs : list clockformat) : option (option (nat * clockformat)) :=
  match fs with
  | [] => Some None
  | f :: fs => eq ← Strcmp name (f_name f); if (eq : bool) then Some (Some (i, f)) else find_format name (S i) fs
  end.
Definition parse_setfmt (count : Z) (name : list Z) (memory : list Z * list Z) (s : parse) : option (bool * parse) :=
  if (PARSE_TCMAX <? count) || (count =? 0) then Some (false, s)
  else
    found ← find_format name 0 clockformats;
    match found with
    | None => Some (false, s)
    | Some (i, f) =>
        let room := S (Z.to_nat (f_length f)) in
        Some (true, s <| parse_pdata := f_pdata f |> <| parse_dsize := f_length f |> <| parse_data := take room (fst memory) |>
                      <| parse_ldata := take room (snd memory) |> <| parse_lformat := Z.of_nat i |>)
    end.

(** [parse_getfmt]: the size and the name of a format, with its NUL. *)
Definition parse_getfmt (format : Z) : option (Z * list Z) :=
  if format <? Z.of_nat (length clockformats) then
    f ← clockformats !! Z.to_nat format;
    let n := Z.of_nat (length (f_name f)) in
    if n <=? PARSE_TCMAX then Some (n + 1, f_name f ++ [0]) else None
  else None.
End Formats.

(** ** The interface to the driver *)

Definition parse_ioinit (s : parse) : parse :=
  s <| parse_pdata := NoData |> <| parse_data := [] |> <| parse_ldata := [] |> <| parse_dsize := 0 |>
    <| parse_badformat := 0 |> <| parse_ioflags := PARSE_IO_CS7 |> <| parse_index := 0 |> <| parse_ldsize := 0 |>.
Definition parse_iodone (s : parse) : parse := s <| dt_state := 0 |>.
Definition parse_setcs (cs : Z) (s : parse) : parse :=
  s <| parse_ioflags := Z.land (parse_ioflags s) (Z.lnot PARSE_IO_CSIZE) .| (cs .& PARSE_IO_CSIZE) |>.

(** [parse_timecode]: state, format, the bad telegrams since the last call,
    and the last telegram if it fits. *)
Definition parse_timecode (s : parse) : (Z * Z * Z * option (list Z)) * parse :=
  ((parse_lstate s, parse_lformat s, parse_badformat s,
    if parse_ldsize s <=? PARSE_TCMAX then Some (take (Z.to_nat (parse_ldsize s)) (parse_ldata s)) else None),
   s <| parse_badformat := 0 |>).
