(* ===== verification/ParseFormats.v ===== *)
(** * The telegrams of serial clocks (libparse/clk_*.c)

    The input and conversion routines of the formats of text and octets: the
    ELV DCF7000, Schmid, Diem Computime, Wharton 400A, hopf 6021, Radiocode
    RCC8000, Varitext, Trimble TAIP and the Meinberg clocks.  A conversion
    returns its code, the buffer it may have changed, the date and the
    private data; [None] is an access outside a buffer. *)

From Stdlib Require Import String.
From S2P Require Import Prelude FixedPoint Calendar NtpTypes TimeOps Text Parse.
From stdpp Require Import base list.
#[local] Open Scope Z_scope.

Definition STX : Z := 2.
Definition ETX : Z := 3.
Definition SOH : Z := 1.

(** ** Formats with fields at fixed places (include/parse_conf.h) *)

Record field := mk_field { fo_offset : Z; fo_length : Z }.
Record format := mk_fmt {
  O_DAY : field; O_MONTH : field; O_YEAR : field; O_HOUR : field; O_MIN : field; O_SEC : field;
  fixed_string : list Z }.

Definition set_day (x : Z) (ct : clocktime_t) : clocktime_t := ct <| ct_day := x |>.
Definition set_month (x : Z) (ct : clocktime_t) : clocktime_t := ct <| ct_month := x |>.
Definition set_year (x : Z) (ct : clocktime_t) : clocktime_t := ct <| ct_year := x |>.
Definition set_hour (x : Z) (ct : clocktime_t) : clocktime_t := ct <| ct_hour := x |>.
Definition set_minute (x : Z) (ct : clocktime_t) : clocktime_t := ct <| ct_minute := x |>.
Definition set_second (x : Z) (ct : clocktime_t) : clocktime_t := ct <| ct_second := x |>.
Definition set_usecond (x : Z) (ct : clocktime_t) : clocktime_t := ct <| ct_usecond := x |>.

(** The chain of [Stoi] calls; the fields before a bad one are set. *)
Fixpoint read_fields (buf : list Z) (fs : list (field * (Z -> clocktime_t -> clocktime_t))) (ct : clocktime_t) :
    option (bool * clocktime_t) :=
  match fs with
  | [] => Some (true, ct)
  | (f, set_f) :: fs =>
      r ← Stoi buf (fo_offset f) (fo_length f);
      match r with
      | Some x => read_fields buf fs (set_f x ct)
      | None => Some (false, ct)
      end
  end.
Definition date_fields (f : format) : list (field * (Z -> clocktime_t -> clocktime_t)) :=
  [(O_DAY f, set_day); (O_MONTH f, set_month); (O_YEAR f, set_year);
   (O_HOUR f, set_hour); (O_MIN f, set_minute); (O_SEC f, set_second)].

(** A conversion that leaves the buffer and the private data alone. *)
Definition plain (g : list Z -> Z -> clocktime_t -> option (Z * clocktime_t)) (buf : list Z) (size : Z) (ct : clocktime_t) (pd : pdata) :
    option (Z * list Z * clocktime_t * pdata) :=
  '(rtc, ct) ← g buf size ct; Some (rtc, buf, ct, pd).

(** The shape they share: pattern, fields, then the rest. *)
Definition by_fields (f : format) (more : list (field * (Z -> clocktime_t -> clocktime_t)))
    (rest : list Z -> clocktime_t -> option (Z * clocktime_t)) (buf : list Z) (size : Z) (ct : clocktime_t) : option (Z * clocktime_t) :=
  ok ← Strok buf (fixed_string f);
  if negb ok then Some (CVT_NONE, ct)
  else
    '(ok, ct) ← read_fields buf (date_fields f ++ more) ct;
    if negb (ok : bool) then Some (CVT_FAIL .| CVT_BADFMT, ct) else rest buf ct.

(** ** Input routines *)

(** A telegram that ends with a character. *)
Definition end_with (ch : Z) (s : parse) : option (Z * parse) :=
  '(rtc, s) ← parse_addchar ch s;
  if rtc =? PARSE_INP_SKIP then parse_end s else Some (rtc, s).
(** One that begins with a character, which drops what came before. *)
Definition begin_with (ch : Z) (ts : l_fp) (s : parse) : option (Z * parse) :=
  s ← start_with ch s; Some (PARSE_INP_SKIP, s <| dt_stime := ts |>).
Definition framed (first last : Z) (s : parse) (ch : Z) (ts : l_fp) : option (Z * parse) :=
  if ch =? first then begin_with ch ts s
  else if ch =? last then end_with ch s
  else parse_addchar ch s.

(** ** clk_dcf7000.c *)

Definition dcf7000_fmt : format :=
  mk_fmt (mk_field 6 2) (mk_field 3 2) (mk_field 0 2) (mk_field 12 2) (mk_field 15 2) (mk_field 18 2)
    (txt "  -  -  -  -  -  -  -  " ++ [13]).
Definition dcf7000_flags : field := mk_field 21 2.
Definition cvt_dcf7000 : list Z -> Z -> clocktime_t -> option (Z * clocktime_t) :=
  by_fields dcf7000_fmt [] (fun buf ct =>
    let ct := ct <| ct_flags := 0 |> <| ct_usecond := 0 |> in
    flags ← Stoi buf (fo_offset dcf7000_flags) (fo_length dcf7000_flags);
    match flags with
    | None => Some (CVT_FAIL .| CVT_BADFMT, ct)
    | Some flags =>
        let ct := ct <| ct_utcoffset := if has flags 1 then -7200 else -3600 |> in
        let ct := if has flags 2 then add_flag PARSEB_ANNOUNCE ct else ct in
        Some (CVT_OK, if has flags 4 then add_flag PARSEB_NOSYNC ct else ct)
    end).
Definition inp_dcf7000 (s : parse) (ch : Z) (ts : l_fp) : option (Z * parse) :=
  if ch =? 13 then end_with ch (s <| dt_stime := ts |>) else parse_addchar ch s.
Definition clock_dcf7000 : clockformat :=
  mk_format (Some inp_dcf7000) (Some (plain cvt_dcf7000)) None (txt "ELV DCF7000") 24 NoData.

(** ** clk_schmid.c *)

Definition WS_TIME : Z := 1.
Definition WS_SIGNAL : Z := 2.
Definition WS_TZ : Z := 0xc.
Definition cvt_schmid (buf : list Z) (size : Z) (ct : clocktime_t) : option (Z * clocktime_t) :=
  if negb (size =? 11) then Some (CVT_NONE, ct)
  else
    match take 11 buf with
    | [b0; b1; b2; b3; b4; b5; b6; b7; b8; _; b10] =>
        if negb (b10 =? 0xFD) then Some (CVT_NONE, ct)
        else if (23 <? b0) || (59 <? b1) || (59 <? b2) || (9 <? b3) then Some (CVT_FAIL .| CVT_BADTIME, ct)
        else if (b4 <? 1) || (31 <? b4) || (b5 <? 1) || (12 <? b5) || (99 <? b6) then Some (CVT_FAIL .| CVT_BADDATE, ct)
        else
          let ct := ct <| ct_hour := b0 |> <| ct_minute := b1 |> <| ct_second := b2 |> <| ct_usecond := b3 * 100000 |>
                       <| ct_day := b4 |> <| ct_month := b5 |> <| ct_year := b6 |> <| ct_flags := 0 |> in
          let zone := b8 .& WS_TZ in
          if negb ((zone =? 8) || (zone =? 4)) then Some (CVT_FAIL .| CVT_BADFMT, ct)
          else
            let ct := if zone =? 8 then ct <| ct_utcoffset := -3600 |> else add_flag PARSEB_DST (ct <| ct_utcoffset := -7200 |>) in
            let ct := if has b7 WS_TIME then ct else add_flag PARSEB_POWERUP ct in
            let ct := if has b7 WS_SIGNAL then ct else add_flag PARSEB_NOSYNC ct in
            let ct :=
              if has b7 WS_SIGNAL then
                let ct := if has b8 1 then add_flag PARSEB_ALTERNATE ct else ct in
                let ct := if has b8 2 then add_flag PARSEB_ANNOUNCE ct else ct in
                if has b8 0x10 then add_flag PARSEB_LEAPADD ct else ct
              else ct in
            Some (CVT_OK, add_flag (PARSEB_S_LEAP .| PARSEB_S_ANTENNA) ct)
    | _ => None
    end.
Definition inp_schmid (s : parse) (ch : Z) (ts : l_fp) : option (Z * parse) :=
  if ch =? 0xFD then end_with ch s else parse_addchar ch s.
Definition clock_schmid : clockformat :=
  mk_format (Some inp_schmid) (Some (plain cvt_schmid)) None (txt "Schmid") 12 NoData.

(** ** clk_computime.c *)

Definition computime_fmt : format :=
  mk_fmt (mk_field 8 2) (mk_field 5 2) (mk_field 2 2) (mk_field 14 2) (mk_field 17 2) (mk_field 20 2)
    (txt "T:  :  :  :  :  :  :  " ++ [13; 10]).
Definition cvt_computime : list Z -> Z -> clocktime_t -> option (Z * clocktime_t) :=
  by_fields computime_fmt [] (fun _ ct => Some (CVT_OK, ct <| ct_flags := 0 |> <| ct_utcoffset := 0 |>)).
Definition inp_computime : parse -> Z -> l_fp -> option (Z * parse) := framed 84 10.
Definition clock_computime : clockformat :=
  mk_format (Some inp_computime) (Some (plain cvt_computime)) None (txt "Diem's Computime Radio Clock") 24 NoData.

(** ** clk_wharton.c: decimals with the units first *)

Definition cvt_wharton_400a (buf : list Z) (size : Z) (ct : clocktime_t) : option (Z * clocktime_t) :=
  if negb (size =? 15) then Some (CVT_NONE, ct)
  else
    match take 15 buf with
    | [b0; b1; b2; b3; b4; b5; b6; b7; b8; b9; b10; b11; b12; b13; b14] =>
        if negb (b0 =? STX) || negb (b14 =? ETX) || (b13 <? 48) || (63 <? b13) then Some (CVT_NONE, ct)
        else if negb (forallb isdigit [b1; b2; b3; b4; b5; b6; b7; b8; b9; b10; b11; b12]) then Some (CVT_NONE, ct)
        else
          let two (units tens : Z) := (tens - 48) * 10 + units - 48 in
          let ct := ct <| ct_second := two b1 b2 |> <| ct_minute := two b3 b4 |> <| ct_hour := two b5 b6 |>
                       <| ct_day := two b7 b8 |> <| ct_month := two b9 b10 |> <| ct_year := two b11 b12 |> <| ct_usecond := 0 |> in
          let ct := ct <| ct_utcoffset := if has b13 1 then -3600 else 0 |> in
          let ct := if has b13 2 then add_flag PARSEB_DST (ct <| ct_utcoffset := ct_utcoffset ct - 3600 |>) else ct in
          let ct := if has b13 4 then ct else add_flag PARSEB_NOSYNC ct in
          Some (CVT_OK, if has b13 8 then add_flag PARSEB_ANNOUNCE ct else ct)
    | _ => None
    end.
Definition inp_wharton_400a : parse -> Z -> l_fp -> option (Z * parse) := framed STX ETX.
Definition clock_wharton_400a : clockformat :=
  mk_format (Some inp_wharton_400a) (Some (plain cvt_wharton_400a)) None (txt "WHARTON 400A Series clock Output Format 1") 15 NoData.

(** ** clk_hopf6021.c *)

Definition hexval (x : Z) : Z :=
  if (48 <=? x) && (x <=? 57) then x - 48 else if (97 <=? x) && (x <=? 102) then x - 97 + 10
  else if (65 <=? x) && (x <=? 70) then x - 65 + 10 else -1.
Definition hopf6021_fmt : format :=
  mk_fmt (mk_field 9 2) (mk_field 11 2) (mk_field 13 2) (mk_field 3 2) (mk_field 5 2) (mk_field 7 2)
    ([2] ++ txt "              " ++ [10; 13; 3]).
Definition HOPF_MODE : Z := 0xC.
Definition cvt_hopf6021 : list Z -> Z -> clocktime_t -> option (Z * clocktime_t) :=
  by_fields hopf6021_fmt [] (fun buf ct =>
    let ct := ct <| ct_usecond := 0 |> <| ct_utcoffset := 0 |> in
    x ← at_index buf 1; y ← at_index buf 2;
    let status := u8 (hexval x) in
    let weekday := u8 (hexval y) in
    if (status =? 0xFF) || (weekday =? 0xFF) then Some (CVT_FAIL .| CVT_BADFMT, ct)
    else
      let ct := ct <| ct_flags := 0 |> in
      let ct :=
        if has weekday 8 then add_flag PARSEB_UTC ct
        else if has status 2 then add_flag PARSEB_DST (ct <| ct_utcoffset := -7200 |>)
        else ct <| ct_utcoffset := -3600 |> in
      let ct := if has status 1 then add_flag PARSEB_ANNOUNCE ct else ct in
      let mode := status .& HOPF_MODE in
      Some (CVT_OK, if mode =? 0 then add_flag PARSEB_POWERUP ct else if mode =? 4 then add_flag PARSEB_NOSYNC ct else ct)).
Definition inp_hopf6021 (s : parse) (ch : Z) (ts : l_fp) : option (Z * parse) :=
  if ch =? ETX then end_with ch (s <| dt_stime := ts |>) else parse_addchar ch s.
Definition clock_hopf6021 : clockformat :=
  mk_format (Some inp_hopf6021) (Some (plain cvt_hopf6021)) None (txt "hopf Funkuhr 6021") 19 NoData.

(** ** clk_rcc8000.c *)

Definition rcc8000_fmt : format :=
  mk_fmt (mk_field 13 2) (mk_field 16 2) (mk_field 19 2) (mk_field 0 2) (mk_field 3 2) (mk_field 6 2)
    (txt "  :  :  .      /  /          " ++ [13; 10]).
Definition cvt_rcc8000 : list Z -> Z -> clocktime_t -> option (Z * clocktime_t) :=
  by_fields rcc8000_fmt [(mk_field 9 3, set_usecond)] (fun buf ct =>
    let ct := ct <| ct_usecond := ct_usecond ct * 1000 |> <| ct_utcoffset := 0 |> <| ct_flags := 0 |> in
    p ← at_index buf 28;
    Some (CVT_OK,
      if ((48 <=? p) && (p <=? 57)) || ((65 <=? p) && (p <=? 70)) then
        let flag := if (48 <=? p) && (p <=? 57) then p - 48 else p - 65 + 10 in
        add_flag PARSEB_UTC (if has flag 8 then ct else add_flag PARSEB_POWERUP ct)
      else ct)).
Definition inp_rcc8000 (s : parse) (ch : Z) (ts : l_fp) : option (Z * parse) :=
  if ch =? 10 then end_with ch s
  else parse_addchar ch (if parse_index s =? 0 then s <| dt_stime := ts |> else s).
Definition clock_rcc8000 : clockformat :=
  mk_format (Some inp_rcc8000) (Some (plain cvt_rcc8000)) None (txt "Radiocode RCC8000") 31 NoData.

(** ** clk_varitext.c *)

Definition varitext_fmt : format :=
  mk_fmt (mk_field 8 2) (mk_field 5 2) (mk_field 2 2) (mk_field 14 2) (mk_field 17 2) (mk_field 20 2)
    (txt "T:  :  :  :  :  :  :  " ++ [13; 10] ++ txt "    ").
Definition VT_BST : Z := 8.
Definition cvt_varitext : list Z -> Z -> clocktime_t -> option (Z * clocktime_t) :=
  by_fields varitext_fmt [] (fun buf ct =>
    f ← at_index buf 24;
    let ct := ct <| ct_flags := 0 |> <| ct_utcoffset := 0 |> in
    Some (CVT_OK, if has f VT_BST then add_flag PARSEB_DST (ct <| ct_utcoffset := -3600 |>) else ct)).
Definition no_varitext : varitext := mk_varitext 0 0 0 0 L_CLR.
#[export] Instance eta_varitext : Eta varitext := fun r =>
  mk_varitext (start_found r) (end_found r) (end_count r) (previous_ch r) (vt_tstamp r).
Definition set_vt (t : varitext) (s : parse) : parse := s <| parse_pdata := Varitext t |>.

(** Inside a telegram: four more characters follow the end of the line. *)
Definition vt_collect (t : varitext) (ch : Z) (s : parse) : option ((Z * parse) + (varitext * parse)) :=
  '(rtc, s) ← parse_addchar ch s;
  if negb (rtc =? PARSE_INP_SKIP) then Some (inl (rtc, set_vt no_varitext s))
  else
    let t := if nonzero (end_found t) then t <| end_count := u8 (end_count t + 1) |> else t in
    if nonzero (end_found t) && (end_count t =? 4) then
      r ← end_with 0 (set_vt no_varitext s); Some (inl r)
    else Some (inr (if (previous_ch t =? 13) && (ch =? 10) then t <| end_found := 1 |> else t, s)).

Definition inp_varitext (s : parse) (ch : Z) (ts : l_fp) : option (Z * parse) :=
  match parse_pdata s with
  | Varitext t =>
      let t := if ch =? 84 then t <| vt_tstamp := ts |> else t in
      '(t, s) ← if (previous_ch t =? 84) && (ch =? 58) then
          s ← start_with 84 s;
          Some (t <| start_found := 1 |> <| end_found := 0 |> <| end_count := 0 |>, s <| dt_stime := vt_tstamp t |>)
        else Some (t, s);
      r ← if nonzero (start_found t) then vt_collect t ch s else Some (inr (t, s));
      match r with
      | inl done => Some done
      | inr (t, s) => Some (PARSE_INP_SKIP, set_vt (t <| previous_ch := u8 ch |>) s)
      end
  | _ => Some (PARSE_INP_SKIP, s)
  end.
Definition clock_varitext : clockformat :=
  mk_format (Some inp_varitext) (Some (plain cvt_varitext)) None (txt "Varitext Radio Clock") 30 (Varitext no_varitext).

(** ** clk_trimtaip.c *)

Definition trimsv6_fmt : format :=
  mk_fmt (mk_field 13 2) (mk_field 15 2) (mk_field 17 4) (mk_field 4 2) (mk_field 6 2) (mk_field 8 2)
    (txt ">RTM                      1     ;*  <").
Definition O_CHKSUM : Z := 34.
Definition cvt_trimtaip (buf : list Z) (size : Z) (ct : clocktime_t) : option (Z * clocktime_t) :=
  by_fields trimsv6_fmt [(mk_field 10 3, set_usecond)] (fun buf ct =>
    gpsfix ← Stoi buf 23 1;
    match gpsfix with
    | None => Some (CVT_FAIL .| CVT_BADFMT, ct)
    | Some gpsfix =>
        let ct := ct <| ct_usecond := ct_usecond ct * 1000 |> in
        if (length buf <? 36)%nat then None
        else
          let calc_csum := fold_left Z.lxor (take (Z.to_nat O_CHKSUM) buf) 0 in
          x ← at_index buf O_CHKSUM; y ← at_index buf (O_CHKSUM + 1);
          let recv_csum := Z.shiftl (hexval x) 4 .| hexval y in
          if recv_csum <? 0 then Some (CVT_FAIL .| CVT_BADTIME, ct)
          else if negb (u8 recv_csum =? calc_csum) then Some (CVT_FAIL .| CVT_BADTIME, ct)
          else
            let ct := ct <| ct_utcoffset := 0 |> <| ct_flags := PARSEB_UTC |> in
            Some (CVT_OK, if (gpsfix <? 0) || (9 <? gpsfix) then add_flag PARSEB_POWERUP ct else ct)
    end) buf size ct.
Definition inp_trimtaip : parse -> Z -> l_fp -> option (Z * parse) := framed 62 60.
Definition clock_trimtaip : clockformat :=
  mk_format (Some inp_trimtaip) (Some (plain cvt_trimtaip)) (Some pps_one) (txt "Trimble TAIP") 37 NoData.

(** ** clk_meinberg.c *)

Definition meinberg_std : format :=
  mk_fmt (mk_field 3 2) (mk_field 6 2) (mk_field 9 2) (mk_field 18 2) (mk_field 21 2) (mk_field 24 2)
    ([2] ++ txt "D:  .  .  ;T: ;U:  .  .  ;    " ++ [3]).
Definition meinberg_ext : format :=
  mk_fmt (mk_field 1 2) (mk_field 4 2) (mk_field 7 2) (mk_field 14 2) (mk_field 17 2) (mk_field 20 2)
    ([2] ++ txt "  .  .  ;  ;   :  :  ;        " ++ [3]).
Definition meinberg_gps : format :=
  mk_fmt (mk_field 1 2) (mk_field 4 2) (mk_field 7 2) (mk_field 14 2) (mk_field 17 2) (mk_field 20 2)
    ([2] ++ txt "  .  .  ;  ;   :  :  ;    :  ;        ;   .         .       ").

(** The offset of the zone; [None] is a bad letter. *)
Definition meinberg_zone (extended : bool) (z u : Z) (ct : clocktime_t) : option clocktime_t :=
  let utc := add_flag PARSEB_UTC (ct <| ct_utcoffset := 0 |>) in
  if extended && (u =? 85) then Some utc
  else if z =? 32 then Some (ct <| ct_utcoffset := -3600 |>)
  else if z =? 83 then Some (ct <| ct_utcoffset := -7200 |>)
  else if z =? 85 then Some utc
  else None.
Definition meinberg_flags (z f0 f1 f3 : Z) (ct : clocktime_t) : clocktime_t :=
  let ct := if z =? 83 then add_flag PARSEB_DST ct else ct in
  let ct := if f0 =? 35 then add_flag PARSEB_POWERUP ct else ct in
  let ct := if f1 =? 42 then add_flag PARSEB_NOSYNC ct else ct in
  let ct := if f3 =? 33 then add_flag PARSEB_ANNOUNCE ct else ct in
  let ct := if f3 =? 65 then add_flag PARSEB_LEAPADD ct else ct in
  if f3 =? 97 then add_flag PARSEB_LEAPDEL ct else ct.
Definition meinberg_ext_flags (f4 f5 : Z) (ct : clocktime_t) : clocktime_t :=
  let ct := add_flag PARSEB_S_ANTENNA ct in
  let ct := ct <| ct_flags := Z.land (ct_flags ct) (Z.lnot PARSEB_LEAPDEL) |> in
  let ct := if f4 =? 65 then add_flag PARSEB_LEAPADD ct else ct in
  if f5 =? 82 then add_flag PARSEB_ALTERNATE ct else ct.

(** The status behind the date: [f] is the index of the flags, [zone] that of
    the time zone, [extended] the flag MBG_EXTENDED of the format. *)
Definition meinberg_status (f zone : Z) (extended : bool) (buf : list Z) (ct : clocktime_t) : option (Z * clocktime_t) :=
  let ct := ct <| ct_usecond := 0 |> <| ct_flags := PARSEB_S_LEAP |> in
  let ct := if ct_second ct =? 60 then add_flag PARSEB_LEAPSECOND ct else ct in
  z ← at_index buf zone; u ← at_index buf (f - 1);
  match meinberg_zone extended z u ct with
  | None => Some (CVT_FAIL .| CVT_BADFMT, ct)
  | Some ct =>
      f0 ← at_index buf f; f1 ← at_index buf (f + 1); f3 ← at_index buf (f + 3);
      let ct := meinberg_flags z f0 f1 f3 ct in
      if extended then
        f4 ← at_index buf (f + 4); f5 ← at_index buf (f + 5);
        Some (CVT_OK, meinberg_ext_flags f4 f5 ct)
      else Some (CVT_OK, ct)
  end.

Definition cvt_meinberg (buf : list Z) (size : Z) (ct : clocktime_t) : option (Z * clocktime_t) :=
  std ← Strok buf (fixed_string meinberg_std);
  if (std : bool) then by_fields meinberg_std [] (meinberg_status 27 29 false) buf size ct
  else
    ext ← Strok buf (fixed_string meinberg_ext);
    if (ext : bool) then by_fields meinberg_ext [] (meinberg_status 25 27 true) buf size ct
    else Some (CVT_FAIL .| CVT_BADFMT, ct).

Definition mbg_input : parse -> Z -> l_fp -> option (Z * parse) := framed STX ETX.

Definition mgps_flags (z f0 f1 f3 f4 f6 : Z) (ct : clocktime_t) : clocktime_t :=
  let ct := if z =? 83 then add_flag PARSEB_DST ct else ct in
  let ct := if ct_utcoffset ct =? 0 then add_flag PARSEB_UTC ct else ct in
  let ct := if f0 =? 35 then add_flag PARSEB_POWERUP ct else ct in
  let ct :=
    if f1 =? 42 then add_flag PARSEB_NOSYNC ct
    else if has (ct_flags ct) PARSEB_POWERUP then ct else add_flag PARSEB_POSITION ct in
  let ct := if f3 =? 33 then add_flag PARSEB_ANNOUNCE ct else ct in
  let ct := if f4 =? 65 then add_flag PARSEB_LEAPADD ct else ct in
  let ct := if f4 =? 97 then add_flag PARSEB_LEAPDEL ct else ct in
  if (f6 =? 76) || (ct_second ct =? 60) then add_flag PARSEB_LEAPSECOND ct else ct.
Definition mgps_status (buf : list Z) (ct : clocktime_t) : option (Z * clocktime_t) :=
  let ct := ct <| ct_flags := PARSEB_S_LEAP .| PARSEB_S_POSITION |> <| ct_usecond := 0 |> in
  h ← Stoi buf 25 2;
  match h with
  | None => Some (CVT_FAIL .| CVT_BADFMT, ct)
  | Some h =>
      m ← Stoi buf 28 2;
      match m with
      | None => Some (CVT_FAIL .| CVT_BADFMT, ct)
      | Some m =>
          sign ← at_index buf 24; z ← at_index buf 35;
          f0 ← at_index buf 32; f1 ← at_index buf 33; f3 ← at_index buf 35; f4 ← at_index buf 36; f6 ← at_index buf 38;
          let off := TIMES60 (m + TIMES60 h) in
          Some (CVT_OK, mgps_flags z f0 f1 f3 f4 f6 (ct <| ct_utcoffset := if sign =? 45 then off else - off |>))
      end
  end.
Definition cvt_mgps (buf : list Z) (size : Z) (ct : clocktime_t) : option (Z * clocktime_t) :=
  gps ← Strok buf (fixed_string meinberg_gps);
  if (gps : bool) then by_fields meinberg_gps [] mgps_status buf size ct else cvt_meinberg buf size ct.

(** The binary messages of a GPS receiver: a header of eight octets behind
    SOH, then as many data octets as it says; strings as above. *)
Definition MBG_NONE : Z := 0.
Definition MBG_HEADER : Z := 1.
Definition MBG_DATA : Z := 2.
Definition MBG_STRING : Z := 3.
Definition GPS_HEADER_SIZE : Z := 8.

Definition mbg_csum (p : list Z) : Z := u64 (fold_left Z.add p 0).
Definition get_lsb_short (msg : list Z) (i : Z) : option Z :=
  lo ← at_index msg i; hi ← at_index msg (i + 1);
  let retval := lo .| Z.shiftl hi 8 in
  Some (if has retval 0x8000 then retval - 0x10000 else retval).
Definition set_msg (m : msg_buf) (s : parse) : parse := s <| parse_pdata := MsgBuf m |>.

(** A message header is complete: its checksum and its length. *)
Definition gps_header (m : msg_buf) (s : parse) : option (Z * parse) :=
  gps_len ← get_lsb_short (dt_msg s) 3;
  hdr_csum ← get_lsb_short (dt_msg s) 7;
  let gps_len := u16 gps_len in
  let calc_csum := u16 (mbg_csum (take 6 (drop 1 (dt_msg s)))) in
  if negb (calc_csum =? u16 hdr_csum) then Some (PARSE_INP_DATA, set_msg (mk_msg_buf (mb_len m) MBG_NONE) s)
  else if (gps_len =? 0) || (PARSE_TCMAX - GPS_HEADER_SIZE - 1 <=? gps_len) then
    Some (if gps_len =? 0 then PARSE_INP_DATA else PARSE_INP_SKIP, set_msg (mk_msg_buf (mb_len m) MBG_NONE) s)
  else Some (PARSE_INP_SKIP, set_msg (mk_msg_buf gps_len MBG_DATA) s).

Definition gps_start (m : msg_buf) (s : parse) (ch : Z) (ts : l_fp) : option (Z * parse) :=
  if negb ((ch =? SOH) || (ch =? STX)) then Some (PARSE_INP_SKIP, s)
  else
    s ← if ch =? SOH then Some (set_msg (mk_msg_buf GPS_HEADER_SIZE MBG_HEADER) s)
        else start_with ch (set_msg (mk_msg_buf 0 MBG_STRING) s);
    msg ← store (dt_msg s) 0 ch;
    Some (PARSE_INP_SKIP, s <| dt_msglen := 1 |> <| dt_msg := msg |> <| dt_stime := ts |>).

Definition gps_input (s : parse) (ch : Z) (ts : l_fp) : option (Z * parse) :=
  match parse_pdata s with
  | MsgBuf m =>
      if mb_phase m =? MBG_NONE then gps_start m s ch ts
      else
        s ← if (mb_phase m =? MBG_STRING) && (parse_index s <? parse_dsize s) then
              data ← store (parse_data s) (parse_index s) ch;
              Some (s <| parse_data := data |> <| parse_index := u16 (parse_index s + 1) |>)
            else Some s;
        msg ← store (dt_msg s) (dt_msglen s) ch;
        let s := s <| dt_msg := msg |> <| dt_msglen := u16 (dt_msglen s + 1) |> in
        let idle := mk_msg_buf (mb_len m) MBG_NONE in
        if PARSE_TCMAX <? dt_msglen s then s ← finish (set_msg idle s); Some (PARSE_INP_DATA, s)
        else if mb_phase m =? MBG_STRING then
          if (ch =? ETX) || (parse_dsize s <=? parse_index s) then
            s ← finish (set_msg idle s); Some (PARSE_INP_TIME, s <| parse_index := 0 |>)
          else Some (PARSE_INP_SKIP, s)
        else
          let m := mk_msg_buf (u16 (mb_len m - 1)) (mb_phase m) in
          if nonzero (mb_len m) then Some (PARSE_INP_SKIP, set_msg m s)
          else if mb_phase m =? MBG_HEADER then gps_header m s
          else Some (PARSE_INP_DATA, set_msg (mk_msg_buf (mb_len m) MBG_NONE) s)
  | _ => Some (PARSE_INP_SKIP, s)
  end.

Definition clock_meinberg : list clockformat :=
  [mk_format (Some mbg_input) (Some (plain cvt_meinberg)) (Some pps_one) (txt "Meinberg Standard") 32 NoData;
   mk_format (Some mbg_input) (Some (plain cvt_meinberg)) (Some pps_one) (txt "Meinberg Extended") 32 NoData;
   mk_format (Some gps_input) (Some (plain cvt_mgps)) (Some pps_one) (txt "Meinberg GPS Extended") 512 (MsgBuf (mk_msg_buf 0 0))].
