(* ===== verification/RawDcf.v ===== *)
(** * Raw DCF77 pulses (libparse/clk_rawdcf.c)

    The DCF77 transmitter sends one bit a second as a pulse of 100 or 200 ms.
    A receiver on a 50 baud line delivers each as a character whose low bits
    are cleared, more for a longer pulse.  The decoder tells the two lengths
    apart by a histogram, checks start and parity bits and reads the date. *)

From Stdlib Require Import String.
From S2P Require Import Prelude FixedPoint Calendar NtpTypes TimeOps Text Parse.
From stdpp Require Import base list.
#[local] Open Scope Z_scope.

Definition BUFFER_MAX : Z := 61.
Definition onebits : list Z := txt "###############RADMLS1248124P124812P1248121241248112481248P??".
Definition zerobits : list Z := txt "--------------------s-------p------p----------------------p__".

Definition rawdcfcode : list Z := [0; 15; 16; 17; 19; 20; 21; 25; 28; 29; 33; 35; 36; 40; 42; 45; 49; 50; 54; 58; 59].
Definition partab : list Z := [21; 29; 36; 59].
Definition DCF_R : nat := 1.
Definition DCF_A1 : nat := 2.
Definition DCF_Z : nat := 3.
Definition DCF_A2 : nat := 4.
Definition DCF_S : nat := 5.
Definition DCF_M1 : nat := 6.
Definition DCF_M10 : nat := 7.
Definition DCF_H1 : nat := 9.
Definition DCF_H10 : nat := 10.
Definition DCF_D1 : nat := 12.
Definition DCF_D10 : nat := 13.
Definition DCF_MO : nat := 15.
Definition DCF_MO0 : nat := 16.
Definition DCF_Y1 : nat := 17.
Definition DCF_Y10 : nat := 18.
Definition DCF_Z_MET : Z := 2.
Definition DCF_Z_MED : Z := 1.

(** Is the bit at [i] set? *)
Definition bit_at (buf : list Z) (i : Z) : option bool :=
  x ← at_index buf i; z ← at_index zerobits i; Some (negb (x =? z)).

(** The loop of [ext_bf] from [n] bits at [first] on, the last bit first. *)
Fixpoint ext_loop (n : nat) (buf : list Z) (first sum : Z) : option Z :=
  match n with
  | O => Some sum
  | S n => b ← bit_at buf (first + Z.of_nat n); ext_loop n buf first (Z.shiftl sum 1 .| truth b)
  end.
Definition ext_bf (buf : list Z) (idx : nat) : option Z :=
  first ← rawdcfcode !! idx; next ← rawdcfcode !! S idx;
  ext_loop (Z.to_nat (next - first)) buf first 0.

Fixpoint parity_loop (n : nat) (buf : list Z) (i : Z) (psum : bool) : option bool :=
  match n with
  | O => Some psum
  | S n => b ← bit_at buf i; parity_loop n buf (i + 1) (xorb psum b)
  end.
Definition pcheck (buf : list Z) (idx : nat) : option bool :=
  first ← partab !! idx; last ← partab !! S idx;
  parity_loop (Z.to_nat (last - first)) buf first true.

Definition TIMES10 (x : Z) : Z := Z.shiftl x 3 + Z.shiftl x 1.
Definition two_digits (buf : list Z) (tens units : nat) : option Z :=
  t ← ext_bf buf tens; u ← ext_bf buf units; Some (TIMES10 t + u).

(** Every character is the one or the zero of its place; behind the end of
    the two strings that is a NUL. *)
Fixpoint two_valued (s b c : list Z) : bool :=
  match s with
  | [] => true
  | x :: s => ((x =? hd 0 b) || (x =? hd 0 c)) && two_valued s (tl b) (tl c)
  end.

Definition rawdcf_ok (buf : list Z) : option bool :=
  s ← ext_bf buf DCF_S;
  if negb (s =? 1) then Some false
  else
    p1 ← pcheck buf 0; if negb p1 then Some false else
    p2 ← pcheck buf 1; if negb p2 then Some false else pcheck buf 2.

Definition convert_rawdcf (buf : list Z) (size : Z) (ct : clocktime_t) : option (Z * clocktime_t) :=
  if size <? 57 then Some (CVT_NONE, ct)
  else if Z.of_nat (length buf) <? size then None
  else if negb (two_valued (take (Z.to_nat size) buf) onebits zerobits) then Some (CVT_NONE, ct)
  else
    ok ← rawdcf_ok buf;
    if negb ok then Some (CVT_FAIL .| CVT_BADFMT, ct)
    else
      minute ← two_digits buf DCF_M10 DCF_M1; hour ← two_digits buf DCF_H10 DCF_H1;
      day ← two_digits buf DCF_D10 DCF_D1; month ← two_digits buf DCF_MO0 DCF_MO; year ← two_digits buf DCF_Y10 DCF_Y1;
      let ct := mk_clocktime day month year hour minute 0 0 (ct_utcoffset ct) 0 (PARSEB_S_ANTENNA .| PARSEB_S_LEAP) in
      z ← ext_bf buf DCF_Z;
      if negb ((z =? DCF_Z_MET) || (z =? DCF_Z_MED)) then Some (CVT_FAIL .| CVT_BADFMT, ct)
      else
        let ct := if z =? DCF_Z_MET then ct <| ct_utcoffset := -3600 |> else add_flag PARSEB_DST ct <| ct_utcoffset := -7200 |> in
        a1 ← ext_bf buf DCF_A1; a2 ← ext_bf buf DCF_A2; r ← ext_bf buf DCF_R;
        let ct := if nonzero a1 then add_flag PARSEB_ANNOUNCE ct else ct in
        let ct := if nonzero a2 then add_flag PARSEB_LEAPADD ct else ct in
        Some (CVT_OK, if nonzero r then add_flag PARSEB_ALTERNATE ct else ct).

(** ** The lengths of the pulses *)

Definition BITS : nat := 9.

Fixpoint bit_count (fuel : nat) (ch i : Z) : Z :=
  match fuel with
  | O => i
  | S fuel => if ch =? 0 then i else bit_count fuel (Z.shiftr ch 1) (i + 1)
  end.
(** The number of cleared low bits, if all others are set. *)
Definition pulse_len (x : Z) : option Z :=
  let ch := Z.lxor x 0xFF in
  if (Z.land (ch + 1) ch =? 0) || (x =? 0) then Some (bit_count 8 ch 0) else None.

Definition count_in (h : list Z) (i : Z) : list Z := <[Z.to_nat i := u8 (nth (Z.to_nat i) h 0 + 1)]> h.
(** The characters as lengths, 0xFF for a bad one; the histogram, the sum and
    the number of the good ones; whether all are good. *)
Fixpoint measure_pulses (s : list Z) (h : list Z) (sum n : Z) (ok : bool) : list Z * list Z * Z * Z * bool :=
  match s with
  | [] => ([], h, sum, n, ok)
  | x :: s =>
      match pulse_len x with
      | Some i => let '(ls, h, sum, n, ok) := measure_pulses s (count_in h i) (sum + i) (n + 1) ok in (i :: ls, h, sum, n, ok)
      | None => let '(ls, h, sum, n, ok) := measure_pulses s h sum n false in (0xFF :: ls, h, sum, n, ok)
      end
  end.

(** Weighted sum and count of the histogram from [i] for [k] places. *)
Fixpoint moments (k : nat) (i : Z) (h : list Z) (w c : Z) : Z * Z :=
  match k with
  | O => (w, c)
  | S k => let x := nth (Z.to_nat i) h 0 in moments k (i + 1) h (w + x * i) (c + x)
  end.
(** The first least count between the two means, and the last equal to it. *)
Fixpoint least (k : nat) (i : Z) (h : list Z) (cutoff span : Z) : Z * Z :=
  match k with
  | O => (cutoff, span)
  | S k =>
      let x := nth (Z.to_nat i) h 0 in
      let m := nth (Z.to_nat cutoff) h 0 in
      let '(cutoff, span) := if x <? m then (i, i) else if m =? x then (cutoff, i) else (cutoff, span) in
      least k (i + 1) h cutoff span
  end.
Definition threshold (h : list Z) (sum n : Z) : Z :=
  let cutoff := if nonzero n then sum / n else 4 in
  let '(lowsum, lows) := moments (Z.to_nat (cutoff + 1)) 0 h 0 0 in
  let lowmax := if nonzero lows then (lowsum + lows / 2) / lows else 0 in
  let '(highsum, highs) := moments (BITS - Z.to_nat (cutoff + 1)) (cutoff + 1) h 0 0 in
  let highmax := if nonzero highs then highsum / highs else Z.of_nat BITS - 1 in
  let '(cutoff, span) := least (Z.to_nat (highmax + 1 - lowmax)) lowmax h lowmax lowmax in
  (cutoff + span) / 2.

Fixpoint to_bits (ls b c : list Z) (cutoff : Z) : list Z :=
  match ls with
  | [] => []
  | x :: ls => (if x =? 0xFF then 63 else if cutoff <=? x then hd 0 b else hd 0 c) :: to_bits ls (tl b) (tl c) cutoff
  end.

(** The guard against errors of more than one bit: a good minute is 60
    seconds after the last one. *)
Definition follow_on (rtc : Z) (buf : list Z) (ct : clocktime_t) (pd : pdata) : Z * list Z * clocktime_t * pdata :=
  if negb (rtc =? CVT_OK) then (rtc, buf, ct, pd)
  else
    let '(newtime, err, ct) := parse_to_unixtime ct in
    match err, pd with
    | Some rtc, _ => (rtc, buf, ct, pd)
    | None, LastTcode tcode =>
        if newtime - tcode =? 60 then (CVT_OK, buf, ct <| ct_utctime := newtime |>, LastTcode newtime)
        else (CVT_FAIL .| CVT_BADTIME, buf, ct, LastTcode newtime)
    | None, _ => (CVT_OK, buf, ct, pd)
    end.

Definition cvt_rawdcf (buf : list Z) (size : Z) (ct : clocktime_t) (pd : pdata) : option (Z * list Z * clocktime_t * pdata) :=
  if Z.of_nat (length buf) <? size then None
  else
    let n := Z.to_nat size in
    let '(ls, h, sum, cnt, ok) := measure_pulses (take n buf) (repeat 0 BITS) 0 0 true in
    let buf := to_bits ls onebits zerobits (threshold h sum cnt) ++ drop n buf in
    if negb ok then Some (CVT_FAIL .| CVT_BADFMT, buf, ct, pd)
    else '(rtc, ct) ← convert_rawdcf buf size ct; Some (follow_on rtc buf ct pd).

(** ** Input *)

Definition pps_rawdcf (s : parse) (status : bool) (ptime : l_fp) : Z * parse := pps_zero s status ptime.

Definition snt_rawdcf (ptime : l_fp) (s : parse) : Z * parse :=
  if dt_status s .& CVT_MASK =? CVT_OK then
    let s := s <| dt_stime := ptime |> <| dt_time := mk_lfp (u32 (l_ui (dt_time s) + 1)) (l_uf (dt_time s)) |> in
    updatetimeinfo (parse_lstate s) s
  else (CVT_NONE, s).

Definition RAWDCF_TIMEOUT : tstamp := mk_ts 1 500000.
Definition inp_rawdcf (s : parse) (ch : Z) (ts : l_fp) : option (Z * parse) :=
  let s := s <| dt_stime := ts |> in
  if parse_timedout ts RAWDCF_TIMEOUT s then
    '(_, s) ← parse_end s; '(_, s) ← parse_addchar ch s; Some (PARSE_INP_TIME, s)
  else
    '(rtc, s) ← parse_addchar ch s;
    if rtc =? PARSE_INP_SKIP then
      let '(synth, s) := snt_rawdcf ts s in
      Some (if synth =? CVT_OK then PARSE_INP_SYNTH else rtc, s)
    else Some (rtc, s).

Definition clock_rawdcf : clockformat :=
  mk_format (Some inp_rawdcf) (Some cvt_rawdcf) (Some pps_rawdcf) (txt "RAW DCF77 Timecode") BUFFER_MAX (LastTcode 0).
