(* ===== verification/ParseFacts.v ===== *)
(** * The timecode parser: facts about Parse.v

    [parse_to_unixtime] is the calendar on valid dates and refuses the
    others.  No sequence of characters makes the parser leave its buffers, for
    formats that keep to what the parser asks of them ([FormatOk]). *)

From S2P Require Import Prelude FixedPoint Calendar CalendarFacts NtpTypes TimeOps Parse.
From stdpp Require Import base list.
#[local] Open Scope Z_scope.

(** ** Dates *)

Lemma julian0_spec y : 0 < y -> julian0 y = greg_days (y - 1) + 366.
Proof.
  intros H. unfold julian0, greg_days. rewrite (proj2 (Z.ltb_lt 0 y)) by lia. rewrite !Z.quot_div_nonneg by lia. divlia.
Qed.

Lemma isleap_4_spec y : 0 <= y -> isleap_4 y = leap y.
Proof.
  intros H. unfold isleap_4, leap. rewrite !Z.rem_mod_nonneg by lia.
  destruct (y mod 4 =? 0), (y mod 100 =? 0), (y mod 400 =? 0); done.
Qed.

Lemma days_per_year_spec y : 0 <= y -> (days_per_year y =? 366) = leap y.
Proof.
  intros H. unfold days_per_year, leap, nonzero. rewrite !Z.rem_mod_nonneg by lia.
  destruct (Z.eqb_spec (y mod 4) 0), (Z.eqb_spec (y mod 400) 0), (Z.eqb_spec (y mod 100) 0); cbn; first [done | exfalso; divlia].
Qed.

Lemma TIMES24_spec x : TIMES24 x = x * 24.
Proof. unfold TIMES24. rewrite !Z.shiftl_mul_pow2 by lia. lia. Qed.
Lemma TIMES60_spec x : TIMES60 x = x * 60.
Proof. unfold TIMES60. rewrite !Z.shiftl_mul_pow2 by lia. lia. Qed.

Lemma month_cases m (P : Z -> Prop) :
  1 <= m <= 12 -> P 1 -> P 2 -> P 3 -> P 4 -> P 5 -> P 6 -> P 7 -> P 8 -> P 9 -> P 10 -> P 11 -> P 12 -> P m.
Proof.
  intros H **. assert (C : m = 1 \/ m = 2 \/ m = 3 \/ m = 4 \/ m = 5 \/ m = 6 \/ m = 7 \/ m = 8 \/ m = 9 \/ m = 10 \/ m = 11 \/ m = 12) by lia.
  repeat destruct C as [-> | C]; try subst m; assumption.
Qed.

Lemma month_days_shift i t l : month_days i t l = t + month_days i 0 l.
Proof.
  revert t l. induction i as [|i IH]; intros t [|d l]; cbn [month_days]; try lia. rewrite IH, (IH (0 + d)). lia.
Qed.

(** The days before a month, and its length, as the table has them. *)
Lemma months_spec y m :
  1 <= m <= 12 ->
  month_days (Z.to_nat (m - 1)) 0 (tl days_of_month) + truth ((3 <=? m) && leap y) = month_start y (m - 1) /\
  (if (m =? 2) && leap y then 29 else nth (Z.to_nat m) days_of_month 0) = month_len y m.
Proof.
  intros H. unfold month_len, month_start. pattern m. apply month_cases; [exact H | ..]; destruct (leap y); vm_compute; done.
Qed.

Definition date_ok (ct : clocktime_t) : Prop :=
  1970 <= ct_year ct /\ 1 <= ct_month ct <= 12 /\ 1 <= ct_day ct <= month_len (ct_year ct) (ct_month ct).
Definition time_ok (ct : clocktime_t) : Prop :=
  0 <= ct_hour ct < 24 /\ 0 <= ct_minute ct <= 59 /\ 0 <= ct_second ct <= 60.
Definition unix_of (ct : clocktime_t) : Z :=
  (civil_rd (ct_year ct) (ct_month ct) (ct_day ct) - DAY_UNIX_STARTS) * 86400 +
  ct_hour ct * 3600 + ct_minute ct * 60 + ct_second ct + ct_utcoffset ct.

(** On every date: the count of seconds, or the code of the error. *)
Lemma unixtime_spec ct :
  ct_utctime ct = 0 ->
  let ct' := ct <| ct_year := two_digit_year (ct_year ct) |> in
  (date_ok ct' -> time_ok ct' -> parse_to_unixtime ct = (unix_of ct', None, ct' <| ct_utctime := unix_of ct' |>)) /\
  (~ date_ok ct' -> parse_to_unixtime ct = (-1, Some (CVT_FAIL .| CVT_BADDATE), ct')) /\
  (date_ok ct' -> ~ time_ok ct' -> parse_to_unixtime ct = (-1, Some (CVT_FAIL .| CVT_BADTIME), ct')).
Proof.
  intros U. cbn zeta. unfold parse_to_unixtime. rewrite U. cbn [nonzero negb Z.eqb]. set (c := ct <| ct_year := _ |>). clearbody c. clear ct U.
  unfold date_ok, time_ok, unix_of.
  destruct (Z.ltb_spec (ct_year c) 1970) as [Y | Y]; [repeat split; intros; first [lia | done] |].
  destruct (Z.leb_spec (ct_month c) 0) as [M1 | M1]; [repeat split; intros; first [lia | done] |].
  destruct (Z.ltb_spec 12 (ct_month c)) as [M2 | M2]; [repeat split; intros; first [lia | done] |]. cbn [orb].
  rewrite days_per_year_spec, isleap_4_spec, !julian0_spec by lia.
  set (y := ct_year c) in *. set (m := ct_month c) in *. set (t0 := greg_days (y - 1) + 366 - _).
  destruct (months_spec y m ltac:(lia)) as [E1 E2].
  destruct (Z.ltb_spec (ct_day c) 1) as [D1 | D1]; [repeat split; intros; first [lia | done] |]. cbn [orb].
  assert (E3 : (if (m =? 2) && leap y then 29 <? ct_day c else nth (Z.to_nat m) days_of_month 0 <? ct_day c) = (month_len y m <? ct_day c)).
  { rewrite <- E2. destruct ((m =? 2) && leap y); done. }
  rewrite E3. destruct (Z.ltb_spec (month_len y m) (ct_day c)) as [D2 | D2]; [repeat split; intros; first [lia | done] |].
  assert (E4 : month_days (Z.to_nat (m - 1)) (if (3 <=? m) && leap y then t0 + 1 else t0) (tl days_of_month) = t0 + month_start y (m - 1)).
  { rewrite month_days_shift. destruct ((3 <=? m) && leap y); cbn [truth] in E1; lia. }
  rewrite E4. destruct (Z.ltb_spec (ct_hour c) 0); [repeat split; intros; first [lia | done] |].
  destruct (Z.leb_spec 24 (ct_hour c)); [repeat split; intros; first [lia | done] |]. cbn [orb].
  destruct (Z.ltb_spec (ct_minute c) 0); [repeat split; intros; first [lia | done] |].
  destruct (Z.ltb_spec 59 (ct_minute c)); [repeat split; intros; first [lia | done] |]. cbn [orb].
  destruct (Z.ltb_spec (ct_second c) 0); [repeat split; intros; first [lia | done] |].
  destruct (Z.ltb_spec 60 (ct_second c)); [repeat split; intros; first [lia | done] |]. cbn [orb].
  split; [intros _ _ | split; intros; lia]. rewrite TIMES24_spec, !TIMES60_spec.
  assert (E5 : (t0 + month_start y (m - 1) + (ct_day c - 1)) = civil_rd y m (ct_day c) - DAY_UNIX_STARTS).
  { unfold civil_rd. subst t0. change (greg_days (1970 - 1)) with 719162. unfold DAY_UNIX_STARTS. lia. }
  rewrite E5. do 2 f_equal; [lia |]. f_equal. lia.
Qed.

(** The date as the calendar routines of the daemon take it. *)
Definition calendar_of (ct : clocktime_t) : calendar :=
  mk_calendar (ct_year ct) 0 (ct_month ct) (ct_day ct) (ct_hour ct) (ct_minute ct) (ct_second ct) 0.

Lemma date_to_time_civil ct :
  date_ok ct -> time_ok ct -> ct_year ct < 65536 -> ntpcal_date_to_time (calendar_of ct) + ct_utcoffset ct = unix_of ct.
Proof.
  intros (Y & M & D) (H & Mi & S) Y2. unfold ntpcal_date_to_time, ntpcal_date_to_daysec, ntpcal_etime_to_seconds, unix_of.
  pose proof (month_len_bound (ct_year ct) (ct_month ct) M) as L.
  rewrite date_to_rd_spec by (cbn; unfold_ranges; lia). cbn [calendar_of jd_year jd_month jd_monthday jd_hour jd_minute jd_second].
  pose proof (civil_rd_in_year (ct_year ct) (ct_month ct) (ct_day ct) M D) as C.
  set (rd := civil_rd _ _ _) in *. assert (B : 0 <= rd <= 24000000) by (unfold greg_days in C; divlia). clearbody rd. clear C.
  unfold DAY_UNIX_STARTS, MINSPERHR, SECSPERMIN. rewrite (s32_small (rd - _)), (s32_small (_ + ct_second ct)) by (unfold_ranges; lia).
  rewrite dayjoin_spec by (unfold_ranges; lia). unfold vint64_to_time, q_s. unfold_widths. divlia.
Qed.

(** C32: parse_to_unixtime, which counts the days of months and leap years by
    itself, agrees with the calendar of libntp on every date from 1970 to
    65535, with a year of two digits taken between 1998 and 2097: the result
    is that of ntpcal_date_to_time with the offset of the zone added; any
    other date is refused as a bad date, and a time of day outside its range
    (a leap second is inside) as a bad time. *)
Theorem unixtime_correct ct :
  ct_utctime ct = 0 ->
  let ct' := ct <| ct_year := two_digit_year (ct_year ct) |> in
  (date_ok ct' -> time_ok ct' -> ct_year ct' < 65536 ->
    fst (parse_to_unixtime ct) = (ntpcal_date_to_time (calendar_of ct') + ct_utcoffset ct, None)) /\
  (~ date_ok ct' -> fst (parse_to_unixtime ct) = (-1, Some (CVT_FAIL .| CVT_BADDATE))) /\
  (date_ok ct' -> ~ time_ok ct' -> fst (parse_to_unixtime ct) = (-1, Some (CVT_FAIL .| CVT_BADTIME))).
Proof.
  intros U. destruct (unixtime_spec ct U) as (G & D & T). cbn zeta. set (c := ct <| ct_year := _ |>) in *.
  split; [| split].
  - intros H1 H2 H3. rewrite (G H1 H2). change (ct_utcoffset ct) with (ct_utcoffset c). now rewrite date_to_time_civil.
  - intros H. now rewrite (D H).
  - intros H1 H2. now rewrite (T H1 H2).
Qed.

Lemma unixtime_correct_witness :
  fst (parse_to_unixtime (mk_clocktime 29 2 24 12 30 60 0 (-3600) 0 0)) = (1709206260, None) /\
  fst (parse_to_unixtime (mk_clocktime 29 2 23 12 30 0 0 0 0 0)) = (-1, Some (CVT_FAIL .| CVT_BADDATE)).
Proof.
  split.
  - refine (proj1 (unixtime_correct (mk_clocktime 29 2 24 12 30 60 0 (-3600) 0 0) eq_refl) _ _ _);
      unfold date_ok, time_ok; vm_compute; intuition discriminate.
  - refine (proj1 (proj2 (unixtime_correct (mk_clocktime 29 2 23 12 30 0 0 0 0 0) eq_refl)) _).
    unfold date_ok. vm_compute. intuition discriminate.
Defined.

(** ** Buffers *)

(** The two buffers have the size of the format and a place for a NUL. *)
Record pinv (s : parse) : Prop := {
  pi_dsize : 0 < parse_dsize s < 65535;
  pi_index : 0 <= parse_index s <= parse_dsize s;
  pi_data : Z.of_nat (length (parse_data s)) = parse_dsize s + 1;
  pi_ldata : Z.of_nat (length (parse_ldata s)) = parse_dsize s + 1;
  pi_ldsize : 0 <= parse_ldsize s <= parse_dsize s }.
(** The last telegram is a string of C. *)
Definition telegram (s : parse) : Prop := parse_ldata s !! Z.to_nat (parse_ldsize s) = Some 0.
Definition moved (s s' : parse) : Prop := parse_dsize s' = parse_dsize s /\ parse_lformat s' = parse_lformat s.

(** An input routine stays inside the buffers and says so when a telegram is
    complete. *)
Definition input_ok (s : parse) (r : option (Z * parse)) : Prop :=
  exists st s', r = Some (st, s') /\ pinv s' /\ moved s s' /\ (has st PARSE_INP_TIME = true -> telegram s').

Lemma moved_trans s1 s2 s3 : moved s1 s2 -> moved s2 s3 -> moved s1 s3.
Proof. intros [] []. split; congruence. Qed.

Lemma put_char_spec l i x :
  0 <= i < Z.of_nat (length l) -> exists l', store l i x = Some l' /\ length l' = length l /\ l' !! Z.to_nat i = Some (u8 x).
Proof.
  intros H. unfold store. rewrite (proj2 (Z.leb_le 0 i)), (proj2 (Z.ltb_lt i _)) by lia. cbn [andb].
  eexists. split; [done |]. split; [apply length_insert | apply list_lookup_insert_eq; lia].
Qed.

Lemma finish_spec s :
  pinv s -> exists d l, finish s = Some (s <| parse_data := d |> <| parse_ldata := l |> <| parse_ldsize := parse_index s |>) /\
    length d = length (parse_data s) /\ length l = length (parse_ldata s) /\ l !! Z.to_nat (parse_index s) = Some 0.
Proof.
  intros [D I Ld Ll _]. unfold finish. destruct (put_char_spec (parse_data s) (parse_index s) 0) as (d & -> & E & Z0); [lia |]. cbn [mbind option_bind].
  unfold copy_front. rewrite !(proj2 (Z.leb_le _ _)) by lia. cbn [andb mbind option_bind].
  eexists d, _. split; [done |]. split; [done |]. split; [rewrite length_app, length_take, length_drop; lia |].
  rewrite lookup_app_l by (rewrite length_take; lia). rewrite lookup_take_lt by lia. exact Z0.
Qed.

Lemma start_with_spec ch s :
  pinv s -> exists d, start_with ch s = Some (s <| parse_index := 1 |> <| parse_data := d |>) /\ length d = length (parse_data s).
Proof.
  intros [D I Ld Ll _]. unfold start_with. destruct (put_char_spec (parse_data s) 0 ch) as (d & -> & E & _); [lia |]. eexists. split; done.
Qed.

Lemma restart_ok ch s : pinv s -> input_ok s (parse_restart ch s).
Proof.
  intros P. unfold parse_restart. destruct (nonzero (parse_index s)).
  - destruct (finish_spec s P) as (d & l & -> & E1 & E2 & Z0). cbn [mbind option_bind]. destruct P as [D I Ld Ll _].
    edestruct (start_with_spec ch) as (d' & -> & E3). 2: { cbn [mbind option_bind]. eexists _, _. split; [done |]. split; [constructor; cbn in *; lia |]. split; [done | intros _; exact Z0]. }
    constructor; cbn; lia.
  - cbn [mbind option_bind]. destruct (start_with_spec ch s P) as (d & -> & E). cbn [mbind option_bind]. destruct P as [D I Ld Ll L].
    eexists _, _. split; [done |]. split; [constructor; cbn; lia |]. split; [done | intros; discriminate].
Qed.

(** Room in the buffer: the last telegram is left alone. *)
Lemma addchar_room ch s :
  pinv s -> parse_index s < parse_dsize s ->
  exists s', parse_addchar ch s = Some (PARSE_INP_SKIP, s') /\ pinv s' /\ moved s s' /\ parse_index s' = parse_index s + 1 /\
    parse_ldata s' = parse_ldata s /\ parse_ldsize s' = parse_ldsize s /\ dt_status s' = dt_status s.
Proof.
  intros [D I Ld Ll L] H. unfold parse_addchar. rewrite (proj2 (Z.ltb_lt _ _)) by lia.
  destruct (put_char_spec (parse_data s) (parse_index s) ch) as (d & -> & E & _); [lia |]. cbn [mbind option_bind].
  eexists. split; [done |]. rewrite u16_small by (unfold_ranges; lia). repeat split; cbn; try lia.
Qed.

Lemma addchar_ok ch s : pinv s -> input_ok s (parse_addchar ch s).
Proof.
  intros P. destruct (Z.lt_ge_cases (parse_index s) (parse_dsize s)) as [H | H].
  - destruct (addchar_room ch s P H) as (s' & -> & P' & M & _). eexists _, _. split; [done |]. split; [done |]. split; [done | intros; discriminate].
  - unfold parse_addchar. rewrite (proj2 (Z.ltb_ge _ _)) by lia. now apply restart_ok.
Qed.

Lemma end_ok s : pinv s -> input_ok s (parse_end s) /\ (forall st s', parse_end s = Some (st, s') -> parse_index s' = 0 /\ telegram s').
Proof.
  intros P. unfold parse_end. destruct (finish_spec s P) as (d & l & -> & E1 & E2 & Z0). cbn [mbind option_bind]. destruct P as [D I Ld Ll L].
  split; [| intros st s' [= <- <-]; done]. eexists _, _. split; [done |]. split; [constructor; cbn; lia |]. split; [done | intros _; exact Z0].
Qed.

Lemma input_ok_from s1 s2 r : moved s1 s2 -> input_ok s2 r -> input_ok s1 r.
Proof. intros M (st & s' & E & P & M' & T). exists st, s'. split; [done |]. split; [done |]. split; [eapply moved_trans; eauto | done]. Qed.

(** ** What the parser asks of a format *)

Class FormatOk (f : clockformat) : Prop := {
  fmt_length : 0 < f_length f < 65535;
  fmt_input : forall input, f_input f = Some input ->
    forall s ch ts, pinv s -> parse_dsize s = f_length f -> input_ok s (input s ch ts);
  fmt_convert : forall convert, f_convert f = Some convert ->
    forall buf size ct pd, Z.of_nat (length buf) = f_length f + 1 -> 0 <= size <= f_length f -> buf !! Z.to_nat size = Some 0 ->
    exists rtc buf' ct' pd', convert buf size ct pd = Some (rtc, buf', ct', pd') /\ length buf' = length buf }.

(** The parser reads with one of the formats of its table. *)
Definition reading (fs : list clockformat) (s : parse) : Prop :=
  pinv s /\ exists f, format_of fs s = Some f /\ FormatOk f /\ parse_dsize s = f_length f /\ parse_lformat s < 0xFFFF.

Lemma timepacket_ok fs s :
  reading fs s -> telegram s -> exists rtc s', timepacket fs s = Some (rtc, s') /\ pinv s' /\ moved s s'.
Proof.
  intros (P & f & F & O & D & L) T. unfold timepacket. rewrite (proj2 (Z.eqb_neq _ _)) by lia. rewrite F. cbn [mbind option_bind].
  assert (X : exists rtc l pd ct, match f_convert f with
      | None => Some (CVT_NONE, s, no_clocktime)
      | Some convert => '(rtc, ldata, ct, pd) ← convert (parse_ldata s) (parse_ldsize s) no_clocktime (parse_pdata s);
          Some (rtc, s <| parse_ldata := ldata |> <| parse_pdata := pd |>, ct)
      end = Some (rtc, s <| parse_ldata := l |> <| parse_pdata := pd |>, ct) /\ length l = length (parse_ldata s)).
  { destruct (f_convert f) as [convert|] eqn:E.
    - destruct P as [P1 P2 P3 P4 P5].
      destruct (fmt_convert convert E (parse_ldata s) (parse_ldsize s) no_clocktime (parse_pdata s) ltac:(lia) ltac:(lia) T) as (rtc & b & ct & pd & -> & Lb).
      cbn [mbind option_bind]. eauto 10.
    - exists CVT_NONE, (parse_ldata s), (parse_pdata s), no_clocktime. split; [destruct s; done | done]. }
  destruct X as (rtc & l & pd & ct & -> & Ll). cbn [mbind option_bind]. set (s1 := s <| parse_ldata := l |> <| parse_pdata := pd |>).
  assert (P1 : pinv s1) by (destruct P; constructor; cbn; lia). assert (M1 : moved s s1) by done. clearbody s1.
  repeat (case_match || (eexists _, _; split; [done | split; [first [done | destruct P1; constructor; cbn; lia] | first [done | exact M1]]])).
Qed.

Lemma ioread_ok fs ch ts s : reading fs s -> exists b s', parse_ioread fs ch ts s = Some (b, s') /\ reading fs s' /\ moved s s'.
Proof.
  intros R. pose proof R as (P & f & F & O & D & L). unfold parse_ioread. rewrite F. cbn [mbind option_bind].
  assert (Stay : forall s', pinv s' -> moved s s' -> reading fs s' /\ moved s s').
  { intros s' P' [M1 M2]. split; [split; [done |] | done]. exists f. unfold format_of in *. rewrite M2, M1. done. }
  destruct (f_convert f) as [convert|] eqn:Ec; [| eexists _, _; split; [done | now apply Stay]]. destruct (f_input f) as [input|] eqn:Ei.
  2: { cbn [mbind option_bind]. eexists _, _. split; [done |]. apply Stay; [destruct P; constructor; done | done]. }
  destruct (fmt_input input Ei s (ch .& char_mask (parse_ioflags s)) ts P D) as (st & s1 & -> & P1 & M1 & T). cbn [mbind option_bind].
  assert (X : exists u s2, (if has st PARSE_INP_TIME then timepacket fs s1 else Some (if has st PARSE_INP_SYNTH then CVT_OK else CVT_NONE, s1)) = Some (u, s2) /\
      pinv s2 /\ moved s s2).
  { destruct (has st PARSE_INP_TIME); [| eauto 10].
    destruct (timepacket_ok fs s1 (proj1 (Stay s1 P1 M1)) (T eq_refl)) as (u & s2 & -> & P2 & M2). exists u, s2. split; [done |]. split; [done | eapply moved_trans; eauto]. }
  destruct X as (u & s2 & -> & P2 & M2). cbn [mbind option_bind]. eexists _, _. split; [done |].
  apply Stay; [destruct P2; constructor; done | done].
Qed.

(** A sequence of characters, each with the time it came in. *)
Fixpoint feed (fs : list clockformat) (chars : list (Z * l_fp)) (s : parse) : option parse :=
  match chars with
  | [] => Some s
  | (ch, ts) :: chars => '(_, s) ← parse_ioread fs ch ts s; feed fs chars s
  end.

Lemma feed_ok fs chars s : reading fs s -> exists s', feed fs chars s = Some s' /\ reading fs s' /\ moved s s'.
Proof.
  revert s. induction chars as [|[ch ts] chars IH]; intros s R; cbn [feed]; [exists s; done |].
  destruct (ioread_ok fs ch ts s R) as (b & s1 & -> & R1 & M1). cbn [mbind option_bind].
  destruct (IH s1 R1) as (s2 & -> & R2 & M2). exists s2. split; [done |]. split; [done | eapply moved_trans; eauto].
Qed.

Lemma find_format_spec name i fs r : find_format name i fs = Some (Some r) -> exists k, r.1 = (i + k)%nat /\ fs !! k = Some r.2.
Proof.
  revert i. induction fs as [|f fs IH]; intros i; cbn [find_format]; [done |]. destruct (Strcmp name (f_name f)) as [[]|]; cbn; [| | done].
  - intros [= <-]. exists O. cbn. split; [lia | done].
  - intros (k & E1 & E2)%IH. exists (S k). cbn. split; [lia | done].
Qed.

(** Choosing a format, when what is left of the telegram before fits it. *)
Lemma setfmt_ok fs count name mem s s' f :
  Z.of_nat (length fs) < 65535 -> parse_setfmt fs count name mem s = Some (true, s') -> format_of fs s' = Some f -> FormatOk f ->
  f_length f < Z.of_nat (length (fst mem)) /\ f_length f < Z.of_nat (length (snd mem)) ->
  0 <= parse_index s <= f_length f -> 0 <= parse_ldsize s <= f_length f -> reading fs s'.
Proof.
  intros B Es Ef Ok [M1 M2] I1 I2. revert Es Ef. unfold parse_setfmt. case_match; [done |].
  destruct (find_format name 0 fs) as [[[i f']|]|] eqn:E; cbn; [| done | done].
  intros [= <-]. destruct (find_format_spec _ _ _ _ E) as (k & Ek & Lk). cbn in *. subst i.
  unfold format_of. cbn. rewrite Nat2Z.id. intros Ef. assert (f' = f) as -> by congruence.
  assert (Hk : (k < length fs)%nat) by (apply lookup_lt_Some in Lk; done). pose proof fmt_length as Lf.
  split; [constructor; cbn; try rewrite length_take; lia |]. exists f. unfold format_of. cbn. rewrite Nat2Z.id. split; [done |]. split; [done |]. split; [done | lia].
Qed.
