(* ===== verification/ParseSafety.v ===== *)
(** * The telegrams of serial clocks: facts about ParseFormats.v and RawDcf.v

    Every format but the binary one of the Meinberg GPS receivers keeps to
    what the parser asks of it, so that no input leads outside a buffer. *)

From Stdlib Require Import String.
From S2P Require Import Prelude FixedPoint Calendar CalendarFacts NtpTypes TimeOps Text Parse ParseFormats RawDcf ParseFacts.
From stdpp Require Import base list.
#[local] Open Scope Z_scope.

(** ** Reading a telegram *)

(** A string of C that ends at [k]. *)
Definition cstring (buf : list Z) (k : Z) : Prop := 0 <= k /\ buf !! Z.to_nat k = Some 0.

Lemma at_index_spec buf i : 0 <= i < Z.of_nat (length buf) -> exists c, at_index buf i = Some c /\ buf !! Z.to_nat i = Some c.
Proof.
  intros H. unfold at_index. rewrite (proj2 (Z.ltb_ge i 0)) by lia. destruct (lookup_lt_is_Some_2 buf (Z.to_nat i)) as [c E]; [lia | eauto].
Qed.

Lemma cstring_length buf k : cstring buf k -> k < Z.of_nat (length buf).
Proof. intros [H E]. apply lookup_lt_Some in E. lia. Qed.

Lemma cstring_at buf k i : cstring buf k -> 0 <= i <= k -> exists c, at_index buf i = Some c /\ (i = k -> c = 0).
Proof.
  intros S H. pose proof (cstring_length _ _ S). destruct (at_index_spec buf i) as (c & E & L); [lia |]. exists c. split; [done |].
  intros ->. destruct S as [_ S]. congruence.
Qed.

Lemma Strok_safe m buf k : buf !! k = Some 0 -> exists b, Strok buf m = Some b /\ (b = true -> (length m <= k)%nat).
Proof.
  revert buf k. induction m as [|c m IH]; intros [|x buf] k E; [done | cbn; eexists; split; [done | cbn; lia] | done |]. cbn [Strok].
  destruct (Z.eqb_spec x 0) as [-> |]; [eexists; split; [done | done] |].
  destruct ((c =? 32) || (x =? c)); [| eexists; split; [done | done]].
  destruct k as [|k]; [cbn in E; congruence |]. destruct (IH buf k E) as (b & -> & L). exists b. split; [done |]. intros ->. cbn. specialize (L eq_refl). lia.
Qed.

Lemma skip_spaces_safe fuel buf k i :
  cstring buf k -> 0 <= i <= k -> (Z.to_nat (k - i) < fuel)%nat -> exists j, skip_spaces fuel buf i = Some j /\ i <= j <= k.
Proof.
  intros S. revert i. induction fuel as [|fuel IH]; intros i H F; [lia |]. cbn [skip_spaces].
  destruct (cstring_at buf k i S H) as (c & -> & K). cbn [mbind option_bind]. destruct (Z.eqb_spec c 32) as [-> |]; [| eexists; split; [done | lia]].
  destruct (Z.eq_dec i k) as [E | E]; [now specialize (K E) |].
  destruct (IH (i + 1)) as (j & -> & J); [lia | lia |]. exists j. split; [done | lia].
Qed.

Lemma stoi_digits_safe fuel buf k b i cnt f v z :
  cstring buf k -> 0 <= i <= k -> (Z.to_nat (k - i) < fuel)%nat -> exists r, stoi_digits fuel buf b i cnt f v z = Some r.
Proof.
  intros S. revert i f z. induction fuel as [|fuel IH]; intros i f z H F; [lia |]. cbn [stoi_digits].
  destruct (cstring_at buf k i S H) as (c & -> & K). cbn [mbind option_bind]. case_match; [eauto |].
  destruct (Z.eq_dec i k) as [E | E]; [specialize (K E); subst c; done |]. apply IH; lia.
Qed.

Lemma Stoi_safe buf k b cnt : cstring buf k -> 0 <= b <= k -> exists r, Stoi buf b cnt = Some r.
Proof.
  intros C H. pose proof (cstring_length _ _ C) as L. unfold Stoi.
  destruct (skip_spaces_safe (S (length buf)) buf k b C H ltac:(lia)) as (i & -> & I). cbn [mbind option_bind].
  destruct (cstring_at buf k i C ltac:(lia)) as (c & -> & K). cbn [mbind option_bind].
  assert (J : 0 <= (if (c =? 45) || (c =? 43) then i + 1 else i) <= k /\ b <= (if (c =? 45) || (c =? 43) then i + 1 else i)).
  { destruct (Z.eq_dec i k) as [E | E]; [rewrite (K E); cbn; lia | destruct (_ || _); lia]. }
  apply (stoi_digits_safe _ _ k); [done | lia | lia].
Qed.

Lemma read_fields_safe buf k fs ct :
  cstring buf k -> Forall (fun x => 0 <= fo_offset x.1 <= k) fs -> exists r, read_fields buf fs ct = Some r.
Proof.
  intros S F. revert ct. induction F as [|[f g] fs H F IH]; intros ct; cbn [read_fields]; [eauto |].
  destruct (Stoi_safe buf k (fo_offset f) (fo_length f) S H) as [[x|] ->]; cbn; eauto.
Qed.

(** The fields of a format lie inside its pattern. *)
Definition inside (f : format) (more : list (field * (Z -> clocktime_t -> clocktime_t))) : bool :=
  forallb (fun x => (0 <=? fo_offset x.1) && (fo_offset x.1 <=? Z.of_nat (length (fixed_string f)))) (date_fields f ++ more).

Lemma by_fields_safe f more rest buf k size ct :
  inside f more = true -> cstring buf k ->
  (forall ct, Z.of_nat (length (fixed_string f)) <= k -> exists r, rest buf ct = Some r) -> exists r, by_fields f more rest buf size ct = Some r.
Proof.
  intros I S R. unfold by_fields. destruct (Strok_safe (fixed_string f) buf (Z.to_nat k) (proj2 S)) as (b & -> & L). cbn [mbind option_bind].
  destruct b; cbn [negb]; [| eauto]. specialize (L eq_refl). destruct (read_fields_safe buf k (date_fields f ++ more) ct S) as ([ok ct'] & ->).
  { apply Forall_forall. intros x Hx%list_elem_of_In. unfold inside in I. rewrite forallb_forall in I. specialize (I x Hx). cbv beta in I. destruct S. lia. }
  cbn [mbind option_bind]. destruct ok; cbn [negb]; [apply R; destruct S; lia | eauto].
Qed.

(** ** Input routines *)

Lemma end_with_ok ch s : pinv s -> input_ok s (end_with ch s).
Proof.
  intros P. unfold end_with. destruct (addchar_ok ch s P) as (st & s1 & -> & P1 & M1 & T1). cbn [mbind option_bind].
  destruct (st =? PARSE_INP_SKIP); [| exists st, s1; done]. eapply input_ok_from; [exact M1 | apply end_ok, P1].
Qed.

Lemma begin_with_ok ch ts s : pinv s -> input_ok s (begin_with ch ts s).
Proof.
  intros P. unfold begin_with. destruct (start_with_spec ch s P) as (d & -> & E). cbn [mbind option_bind]. destruct P as [D I Ld Ll L].
  eexists _, _. split; [done |]. split; [constructor; cbn; lia |]. split; [done | intros; discriminate].
Qed.

Lemma framed_ok first last s ch ts : pinv s -> input_ok s (framed first last s ch ts).
Proof. intros P. unfold framed. repeat case_match; [now apply begin_with_ok | now apply end_with_ok | now apply addchar_ok]. Qed.

Lemma pinv_stime ts s : pinv s -> pinv (s <| dt_stime := ts |>).
Proof. intros []. constructor; done. Qed.

Lemma stime_ok ts s r : input_ok (s <| dt_stime := ts |>) r -> input_ok s r.
Proof. apply input_ok_from. done. Qed.

Create HintDb parse.
#[export] Hint Resolve framed_ok end_with_ok addchar_ok begin_with_ok pinv_stime : parse.

(** ** The formats *)

(** A conversion that leaves the buffer alone, on a string of C. *)
Definition convert_ok (g : list Z -> Z -> clocktime_t -> option (Z * clocktime_t)) : Prop :=
  forall buf size ct, cstring buf size -> exists r, g buf size ct = Some r.

Lemma plain_ok f g :
  convert_ok g -> f_convert f = Some (plain g) -> forall convert, f_convert f = Some convert ->
  forall buf size ct pd, Z.of_nat (length buf) = f_length f + 1 -> 0 <= size <= f_length f -> buf !! Z.to_nat size = Some 0 ->
  exists rtc buf' ct' pd', convert buf size ct pd = Some (rtc, buf', ct', pd') /\ length buf' = length buf.
Proof.
  intros G E convert E' buf size ct pd _ Hs Z0. rewrite E in E'. apply (inj Some) in E' as <-. unfold plain.
  destruct (G buf size ct) as ([rtc ct'] & ->); [split; [lia | done] |]. eauto 10.
Qed.

(** Characters inside the pattern are there. *)
Ltac read_char :=
  match goal with
  | S : cstring ?buf ?k |- context [at_index ?buf ?i] =>
      let c := fresh "c" in
      destruct (cstring_at buf k i S) as (c & -> & _); [cbn in *; lia |]; cbn [mbind option_bind]
  | S : cstring ?buf ?k |- context [Stoi ?buf ?b ?n] =>
      let r := fresh "r" in
      destruct (Stoi_safe buf k b n S) as ([r|] & ->); [cbn in *; lia | |]; cbn [mbind option_bind]
  end.
Ltac split_some := repeat first [eexists; reflexivity | case_match].
Ltac fields_safe :=
  intros buf size ct S; eapply by_fields_safe; [reflexivity | exact S |]; intros ct' L;
  match type of L with ?a <= ?b => let n := eval vm_compute in a in change (n <= b) in L end;
  cbv beta zeta; repeat read_char; split_some.

Lemma cvt_dcf7000_ok : convert_ok cvt_dcf7000.
Proof. fields_safe. Qed.
Lemma cvt_computime_ok : convert_ok cvt_computime.
Proof. fields_safe. Qed.
Lemma cvt_hopf6021_ok : convert_ok cvt_hopf6021.
Proof. fields_safe. Qed.
Lemma cvt_rcc8000_ok : convert_ok cvt_rcc8000.
Proof. fields_safe. Qed.
Lemma cvt_varitext_ok : convert_ok cvt_varitext.
Proof. fields_safe. Qed.
Lemma take_list buf k n : cstring buf k -> Z.of_nat n <= k -> length (take n buf) = n.
Proof. intros S H. pose proof (cstring_length _ _ S). rewrite length_take. lia. Qed.

Lemma cvt_trimtaip_ok : convert_ok cvt_trimtaip.
Proof.
  intros buf size ct C. unfold cvt_trimtaip. eapply by_fields_safe; [reflexivity | exact C |]. intros ct' L.
  change (37 <= size) in L. pose proof (cstring_length _ _ C) as Lb. cbv beta zeta. unfold O_CHKSUM.
  rewrite (proj2 (Nat.ltb_ge _ _)) by lia. repeat read_char; split_some.
Qed.

Ltac take_chars n :=
  match goal with
  | C : cstring ?buf ?k |- context [take n ?buf] =>
      let T := fresh "T" in
      pose proof (take_list buf k n C ltac:(lia)) as T; revert T; generalize (take n buf); intros
  end.

Lemma cvt_schmid_ok : convert_ok cvt_schmid.
Proof.
  intros buf size ct C. unfold cvt_schmid. destruct (Z.eqb_spec size 11) as [-> |]; cbn [negb]; [| eauto].
  take_chars 11%nat. do 11 (destruct l as [|? l]; [done |]). destruct l; [| done]. split_some.
Qed.

Lemma cvt_wharton_ok : convert_ok cvt_wharton_400a.
Proof.
  intros buf size ct C. unfold cvt_wharton_400a. destruct (Z.eqb_spec size 15) as [-> |]; cbn [negb]; [| eauto].
  take_chars 15%nat. do 15 (destruct l as [|? l]; [done |]). destruct l; [| done]. split_some.
Qed.

Lemma meinberg_status_safe f z e buf k ct :
  cstring buf k -> 1 <= f -> f + 5 <= k -> 0 <= z <= k -> exists r, meinberg_status f z e buf ct = Some r.
Proof. intros C F1 F2 Z1. unfold meinberg_status. cbv zeta. repeat read_char. split_some. Qed.

Lemma cvt_meinberg_ok : convert_ok cvt_meinberg.
Proof.
  intros buf size ct C. unfold cvt_meinberg. destruct (Strok_safe (fixed_string meinberg_std) buf _ (proj2 C)) as (b & -> & _). cbn [mbind option_bind].
  destruct b; [eapply by_fields_safe; [reflexivity | exact C |]; intros ct' L; change (32 <= size) in L; eapply meinberg_status_safe; eauto; lia |].
  destruct (Strok_safe (fixed_string meinberg_ext) buf _ (proj2 C)) as (b & -> & _). cbn [mbind option_bind].
  destruct b; [| eauto]. eapply by_fields_safe; [reflexivity | exact C |]. intros ct' L. change (32 <= size) in L. eapply meinberg_status_safe; eauto; lia.
Qed.

Lemma cvt_mgps_ok : convert_ok cvt_mgps.
Proof.
  intros buf size ct C. unfold cvt_mgps. destruct (Strok_safe (fixed_string meinberg_gps) buf _ (proj2 C)) as (b & -> & _). cbn [mbind option_bind].
  destruct b; [| now apply cvt_meinberg_ok]. eapply by_fields_safe; [reflexivity | exact C |]. intros ct' L.
  match type of L with ?a <= ?b => let n := eval vm_compute in a in change (n <= b) in L end.
  unfold mgps_status. cbv zeta. repeat read_char; split_some.
Qed.

(** *** Varitext *)

Lemma pinv_vt t s : pinv s -> pinv (set_vt t s).
Proof. intros []. constructor; done. Qed.

Lemma vt_collect_ok t ch s :
  pinv s -> exists r, vt_collect t ch s = Some r /\
    match r with inl d => input_ok s (Some d) | inr (_, s') => pinv s' /\ moved s s' end.
Proof.
  intros P. unfold vt_collect. destruct (addchar_ok ch s P) as (st & s1 & -> & P1 & M1 & T1). cbn [mbind option_bind].
  destruct (Z.eqb_spec st PARSE_INP_SKIP); cbn [negb].
  - case_match; [| eexists; split; [done | split; done]].
    destruct (end_with_ok 0 (set_vt no_varitext s1) (pinv_vt _ _ P1)) as (st2 & s2 & -> & P2 & M2 & T2). cbn [mbind option_bind].
    eexists. split; [done |]. cbn. exists st2, s2. split; [done |]. split; [done |]. split; [eapply moved_trans; eauto | done].
  - eexists. split; [done |]. exists st, (set_vt no_varitext s1). split; [done |]. split; [now apply pinv_vt |]. split; done.
Qed.

Lemma inp_varitext_ok s ch ts : pinv s -> input_ok s (inp_varitext s ch ts).
Proof.
  intros P. assert (Skip : forall s', pinv s' -> moved s s' -> input_ok s (Some (PARSE_INP_SKIP, s'))) by (intros s' P' M; exists PARSE_INP_SKIP, s'; done).
  unfold inp_varitext. destruct (parse_pdata s) as [| |t|]; try (now apply Skip). cbv zeta.
  set (t1 := if ch =? 84 then _ else t). clearbody t1.
  assert (X : exists t2 s2, (if (previous_ch t1 =? 84) && (ch =? 58) then
      s0 ← start_with 84 s; Some (t1 <| start_found := 1 |> <| end_found := 0 |> <| end_count := 0 |>, s0 <| dt_stime := vt_tstamp t1 |>)
      else Some (t1, s)) = Some (t2, s2) /\ pinv s2 /\ moved s s2).
  { case_match; [| exists t1, s; done]. destruct (start_with_spec 84 s P) as (d & -> & E). cbn [mbind option_bind]. destruct P as [D I Ld Ll L].
    eexists _, _. split; [done |]. split; [constructor; cbn; lia |]. done. }
  destruct X as (t2 & s2 & -> & P2 & M2). cbn [mbind option_bind]. destruct (nonzero (start_found t2)).
  - destruct (vt_collect_ok t2 ch s2 P2) as (r & -> & R). cbn [mbind option_bind]. destruct r as [d | [t3 s3]].
    + eapply input_ok_from; [exact M2 | exact R].
    + apply Skip; [now apply pinv_vt | destruct R as [_ R]; eapply moved_trans; [exact M2 | exact R]].
  - cbn [mbind option_bind]. apply Skip; [now apply pinv_vt | exact M2].
Qed.

(** *** Raw DCF77 *)

Lemma rawdcf_pinv s f1 f2 : pinv s -> pinv (s <| dt_stime := f1 |> <| dt_time := f2 |>).
Proof. intros []. constructor; done. Qed.

Lemma snt_ok ts s : pinv s -> pinv (snd (snt_rawdcf ts s)) /\ moved s (snd (snt_rawdcf ts s)).
Proof. intros []. unfold snt_rawdcf. case_match; cbn; split; try done; constructor; done. Qed.

Lemma inp_rawdcf_ok s ch ts : pinv s -> input_ok s (inp_rawdcf s ch ts).
Proof.
  intros P. unfold inp_rawdcf. cbv zeta. set (s0 := s <| dt_stime := ts |>). assert (P0 : pinv s0) by now apply pinv_stime.
  assert (M0 : moved s s0) by done. clearbody s0. apply (input_ok_from s s0 _ M0). clear s P M0. case_match.
  - destruct (end_ok s0 P0) as [(st & s1 & E & P1 & M1 & T1) K]. destruct (K _ _ E) as [I1 T]. rewrite E. cbn [mbind option_bind].
    pose proof (pi_dsize s1 P1). destruct (addchar_room ch s1 P1 ltac:(lia)) as (s2 & -> & P2 & M2 & _ & L1 & L2 & _). cbn [mbind option_bind].
    eexists _, _. split; [done |]. split; [done |]. split; [eapply moved_trans; eauto |]. intros _. unfold telegram. now rewrite L1, L2.
  - destruct (addchar_ok ch s0 P0) as (st & s1 & -> & P1 & M1 & T1). cbn [mbind option_bind].
    case_match; [| exists st, s1; done]. destruct (snt_rawdcf ts s1) as [synth s2] eqn:E. pose proof (snt_ok ts s1 P1) as [P2 M2]. rewrite E in P2, M2. cbn in P2, M2.
    eexists _, _. split; [done |]. split; [done |]. split; [eapply moved_trans; eauto |]. apply Z.eqb_eq in H0 as ->. case_match; discriminate.
Qed.

(** *** The decoder of the pulses *)

Lemma measure_length s h sum n ok : let '(ls, _, _, _, _) := measure_pulses s h sum n ok in length ls = length s.
Proof.
  revert h sum n ok. induction s as [|x s IH]; intros h sum n ok; cbn [measure_pulses]; [done |].
  destruct (pulse_len x) as [i|].
  - specialize (IH (count_in h i) (sum + i) (n + 1) ok). destruct (measure_pulses s _ _ _ _) as [[[[ls h'] sum'] n'] ok']. cbn. lia.
  - specialize (IH h sum n false). destruct (measure_pulses s _ _ _ _) as [[[[ls h'] sum'] n'] ok']. cbn. lia.
Qed.

Lemma to_bits_length ls b c cutoff : length (to_bits ls b c cutoff) = length ls.
Proof. revert b c. induction ls as [|x ls IH]; intros b c; cbn; [done |]. now rewrite IH. Qed.

Lemma bit_at_safe buf i : 59 <= Z.of_nat (length buf) -> 0 <= i < 59 -> exists b, bit_at buf i = Some b.
Proof.
  intros L H. unfold bit_at. destruct (at_index_spec buf i) as (x & -> & _); [lia |]. cbn [mbind option_bind].
  destruct (at_index_spec zerobits i) as (z & -> & _); [vm_compute length; lia |]. cbn. eauto.
Qed.

Lemma ext_loop_safe n buf first sum :
  59 <= Z.of_nat (length buf) -> 0 <= first -> first + Z.of_nat n <= 59 -> exists r, ext_loop n buf first sum = Some r.
Proof.
  intros L H. revert sum. induction n as [|n IH]; intros sum E; cbn [ext_loop]; [eauto |].
  destruct (bit_at_safe buf (first + Z.of_nat n) L) as (b & ->); [lia |]. cbn [mbind option_bind]. apply IH. lia.
Qed.

Lemma parity_loop_safe n buf i psum :
  59 <= Z.of_nat (length buf) -> 0 <= i -> i + Z.of_nat n <= 59 -> exists r, parity_loop n buf i psum = Some r.
Proof.
  intros L. revert i psum. induction n as [|n IH]; intros i psum H E; cbn [parity_loop]; [eauto |].
  destruct (bit_at_safe buf i L) as (b & ->); [lia |]. cbn [mbind option_bind]. apply IH; lia.
Qed.

Lemma ext_bf_safe buf idx : 59 <= Z.of_nat (length buf) -> (idx < 20)%nat -> exists r, ext_bf buf idx = Some r.
Proof.
  intros L H. unfold ext_bf. do 20 (destruct idx as [|idx]; [apply ext_loop_safe; [done | lia | cbn; lia] |]). lia.
Qed.

Lemma pcheck_safe buf idx : 59 <= Z.of_nat (length buf) -> (idx < 3)%nat -> exists r, pcheck buf idx = Some r.
Proof.
  intros L H. unfold pcheck. do 3 (destruct idx as [|idx]; [apply parity_loop_safe; [done | lia | cbn; lia] |]). lia.
Qed.

Ltac read_bits :=
  match goal with
  | L : 59 <= _ |- context [ext_bf ?buf ?i] =>
      let r := fresh "r" in destruct (ext_bf_safe buf i L ltac:(cbv; lia)) as (r & ->); cbn [mbind option_bind]
  | L : 59 <= _ |- context [pcheck ?buf ?i] =>
      let r := fresh "r" in destruct (pcheck_safe buf i L ltac:(cbv; lia)) as (r & ->); cbn [mbind option_bind]
  end.

Lemma convert_rawdcf_safe buf size ct :
  59 <= Z.of_nat (length buf) -> size <= Z.of_nat (length buf) -> exists r, convert_rawdcf buf size ct = Some r.
Proof.
  intros L S. unfold convert_rawdcf, rawdcf_ok, two_digits. case_match; [eauto |]. rewrite (proj2 (Z.ltb_ge _ _)) by lia. case_match; [eauto |].
  repeat read_bits. repeat first [eexists; reflexivity | progress cbn [mbind option_bind] | case_match].
Qed.

Lemma cvt_rawdcf_ok buf size ct pd :
  Z.of_nat (length buf) = BUFFER_MAX + 1 -> 0 <= size <= BUFFER_MAX ->
  exists rtc buf' ct' pd', cvt_rawdcf buf size ct pd = Some (rtc, buf', ct', pd') /\ length buf' = length buf.
Proof.
  unfold BUFFER_MAX. intros L S. unfold cvt_rawdcf. rewrite (proj2 (Z.ltb_ge _ _)) by lia. cbv zeta.
  pose proof (measure_length (take (Z.to_nat size) buf) (repeat 0 BITS) 0 0 true) as M.
  destruct (measure_pulses _ _ _ _ _) as [[[[ls h] sum] cnt] ok]. set (buf' := to_bits ls onebits zerobits (threshold h sum cnt) ++ drop (Z.to_nat size) buf).
  assert (Lb : length buf' = length buf) by (subst buf'; rewrite length_app, to_bits_length, M, length_take, length_drop; lia). clearbody buf'.
  case_match; [eauto 10 |]. destruct (convert_rawdcf_safe buf' size ct ltac:(lia) ltac:(lia)) as ([rtc ct'] & ->). cbn [mbind option_bind]. unfold follow_on.
  repeat (case_match || eauto 10).
Qed.

(** ** All of them *)

Ltac format_ok := constructor; [split; reflexivity | intros input E; apply (inj Some) in E as <-; intros s ch ts P _ | ].

#[export] Instance dcf7000_ok : FormatOk clock_dcf7000.
Proof. format_ok; [unfold inp_dcf7000; case_match; [apply (stime_ok ts) |]; auto with parse | eapply plain_ok; [exact cvt_dcf7000_ok | reflexivity]]. Qed.
#[export] Instance schmid_ok : FormatOk clock_schmid.
Proof. format_ok; [unfold inp_schmid; case_match; auto with parse | eapply plain_ok; [exact cvt_schmid_ok | reflexivity]]. Qed.
#[export] Instance computime_ok : FormatOk clock_computime.
Proof. format_ok; [now apply framed_ok | eapply plain_ok; [exact cvt_computime_ok | reflexivity]]. Qed.
#[export] Instance wharton_ok : FormatOk clock_wharton_400a.
Proof. format_ok; [now apply framed_ok | eapply plain_ok; [exact cvt_wharton_ok | reflexivity]]. Qed.
#[export] Instance hopf6021_ok : FormatOk clock_hopf6021.
Proof. format_ok; [unfold inp_hopf6021; case_match; [apply (stime_ok ts) |]; auto with parse | eapply plain_ok; [exact cvt_hopf6021_ok | reflexivity]]. Qed.
#[export] Instance rcc8000_ok : FormatOk clock_rcc8000.
Proof.
  format_ok; [| eapply plain_ok; [exact cvt_rcc8000_ok | reflexivity]].
  unfold inp_rcc8000. case_match; [auto with parse |]. case_match; [apply (stime_ok ts) |]; auto with parse.
Qed.
#[export] Instance varitext_ok : FormatOk clock_varitext.
Proof. format_ok; [now apply inp_varitext_ok | eapply plain_ok; [exact cvt_varitext_ok | reflexivity]]. Qed.
#[export] Instance trimtaip_ok : FormatOk clock_trimtaip.
Proof. format_ok; [now apply framed_ok | eapply plain_ok; [exact cvt_trimtaip_ok | reflexivity]]. Qed.
#[export] Instance meinberg_ok name : FormatOk (mk_format (Some mbg_input) (Some (plain cvt_meinberg)) (Some pps_one) name 32 NoData).
Proof. format_ok; [now apply framed_ok | eapply plain_ok; [exact cvt_meinberg_ok | reflexivity]]. Qed.
#[export] Instance rawdcf_format_ok : FormatOk clock_rawdcf.
Proof.
  format_ok; [now apply inp_rawdcf_ok |]. intros convert E. apply (inj Some) in E as <-. intros buf size ct pd L S _. now apply cvt_rawdcf_ok.
Qed.

(** The formats covered: of the table of parse_conf.c all but the binary
    messages of the Meinberg GPS and Trimble TSIP receivers and SEL 240x,
    whose conversion reads through a null pointer. *)
Definition text_formats : list clockformat :=
  take 2 clock_meinberg ++ [clock_dcf7000; clock_schmid; clock_rawdcf; clock_trimtaip; clock_rcc8000; clock_hopf6021;
    clock_computime; clock_wharton_400a; clock_varitext].

Lemma text_formats_ok : Forall FormatOk text_formats.
Proof. unfold text_formats. cbn [take clock_meinberg app]. repeat (apply Forall_cons; split; [apply _ |]). apply Forall_nil. done. Qed.


Definition zero_parse : parse := mk_parse 0 NoData 0 [] 0 0 0 [] 0 0 L_CLR 0 L_CLR L_CLR L_CLR 0 0 0 (repeat 0 400).
Definition zero_memory : list Z * list Z := (repeat 0 100, repeat 0 100).
Definition sample_parse : parse :=
  match parse_setfmt text_formats 12 (txt "ELV DCF7000") zero_memory (parse_ioinit zero_parse) with Some (_, s) => s | None => zero_parse end.

