(* ===== verification/RawDcfFacts.v ===== *)
(** * Raw DCF77 pulses: facts about RawDcf.v

    A minute as the transmitter sends it, in pulses of two lengths, is decoded
    to the date and time it stands for.  A conversion that fails leaves its
    date to the parser all the same, which takes it. *)

From Stdlib Require Import String.
From S2P Require Import Prelude FixedPoint Calendar CalendarFacts NtpTypes TimeOps Text Parse ParseFormats RawDcf ParseFacts ParseSafety.
From stdpp Require Import base list.
#[local] Open Scope Z_scope.

(** ** What the transmitter sends in a minute *)

Record dcf_minute := mk_minute {
  dm_free : list bool; dm_antenna : bool; dm_change : bool; dm_dst : bool; dm_leap : bool;
  dm_minute : Z; dm_hour : Z; dm_day : Z; dm_wday : Z; dm_month : Z; dm_year : Z }.

(** [w] bits of [n], the least first, and two decimal digits. *)
Definition bits (w : nat) (n : Z) : list bool := map (fun i => Z.testbit n (Z.of_nat i)) (seq 0 w).
Definition bcd (w n : Z) : list bool := bits 4 (n mod 10) ++ bits (Z.to_nat w) (n / 10).
Definition even_parity (l : list bool) : list bool := l ++ [fold_left xorb l false].

Definition dcf_bits (m : dcf_minute) : list bool :=
  dm_free m ++ [dm_antenna m; dm_change m; dm_dst m; negb (dm_dst m); dm_leap m; true] ++
  even_parity (bcd 3 (dm_minute m)) ++ even_parity (bcd 2 (dm_hour m)) ++
  even_parity (bcd 2 (dm_day m) ++ bits 3 (dm_wday m) ++ bcd 1 (dm_month m) ++ bcd 4 (dm_year m)).

Definition minute_ok (m : dcf_minute) : Prop :=
  length (dm_free m) = 15%nat /\ 0 <= dm_minute m < 60 /\ 0 <= dm_hour m < 24 /\ 0 <= dm_year m < 100 /\
  1 <= dm_month m <= 12 /\ 1 <= dm_day m <= month_len (two_digit_year (dm_year m)) (dm_month m).

(** A pulse of length [i] clears [i] bits of the character, and the pulses of
    a minute, where a one is longer than a zero. *)
Definition pulse (i : Z) : Z := Z.lxor 0xFF (2 ^ i - 1).
Definition pulse_width (a b : Z) (x : bool) : Z := if x then b else a.
Definition pulses (a b : Z) (l : list bool) : list Z := map (fun x => pulse (pulse_width a b x)) l.

(** ** The lengths are told apart *)

Lemma small_cases i (P : Z -> Prop) : 0 <= i <= 8 -> P 0 -> P 1 -> P 2 -> P 3 -> P 4 -> P 5 -> P 6 -> P 7 -> P 8 -> P i.
Proof.
  intros H **. assert (C : i = 0 \/ i = 1 \/ i = 2 \/ i = 3 \/ i = 4 \/ i = 5 \/ i = 6 \/ i = 7 \/ i = 8) by lia.
  repeat destruct C as [-> | C]; try subst i; assumption.
Qed.

Lemma pulse_len_pulse i : 0 <= i <= 8 -> pulse_len (pulse i) = Some i.
Proof. intros H. pattern i. apply small_cases; [exact H | ..]; reflexivity. Qed.

Definition ones (l : list bool) : Z := fold_right (fun x n => truth x + n) 0 l.
Definition zeros (l : list bool) : Z := fold_right (fun x n => truth (negb x) + n) 0 l.
Lemma zeros_ones l : zeros l + ones l = Z.of_nat (length l) /\ 0 <= zeros l /\ 0 <= ones l.
Proof. unfold zeros, ones. induction l as [|[] l IH]; cbn [fold_right length negb truth]; lia. Qed.

(** A histogram with [p] pulses of length [a] and [q] of length [b]. *)
Definition at_most (a b p q : Z) (h : list Z) : Prop :=
  length h = BITS /\ forall i, 0 <= i <= 8 -> nth (Z.to_nat i) h 0 = (if i =? a then p else 0) + (if i =? b then q else 0).

Lemma count_in_spec a b p q h i :
  at_most a b p q h -> a <> b -> 0 <= a <= 8 -> 0 <= b <= 8 -> 0 <= p < 255 -> 0 <= q < 255 -> (i = a \/ i = b) ->
  at_most a b (if i =? a then p + 1 else p) (if i =? b then q + 1 else q) (count_in h i).
Proof.
  intros [L H] Ne Ha Hb Hp Hq Hi. unfold count_in. split; [now rewrite length_insert |]. intros j Hj.
  assert (Hi8 : 0 <= i <= 8) by lia. assert (Hx : nth (Z.to_nat i) h 0 + 1 = (if i =? a then p else 0) + (if i =? b then q else 0) + 1) by now rewrite H.
  rewrite nth_lookup. destruct (Z.eq_dec i j) as [<- | Nij].
  - rewrite list_lookup_insert_eq by (rewrite L; unfold BITS; lia). cbn [from_option]; unfold id. rewrite Hx.
    destruct (Z.eqb_spec i a), (Z.eqb_spec i b); try lia; rewrite u8_small by (unfold_ranges; lia); lia.
  - rewrite list_lookup_insert_ne by lia. rewrite <- nth_lookup, H by lia.
    destruct (Z.eqb_spec i a), (Z.eqb_spec i b), (Z.eqb_spec j a), (Z.eqb_spec j b); lia.
Qed.

Ltac pair_lia := repeat match goal with |- (_, _) = (_, _) => apply f_equal2 end; first [done | lia].

Lemma measure_pulses a b l p q h sum n :
  a <> b -> 0 <= a <= 8 -> 0 <= b <= 8 -> at_most a b p q h -> 0 <= p -> 0 <= q -> p + q + Z.of_nat (length l) < 255 ->
  exists h', measure_pulses (pulses a b l) h sum n true =
    (map (pulse_width a b) l, h', sum + zeros l * a + ones l * b, n + Z.of_nat (length l), true) /\ at_most a b (p + zeros l) (q + ones l) h'.
Proof.
  intros Ne Ha Hb. revert p q h sum n. induction l as [|x l IH]; intros p q h sum n H Hp Hq B.
  { exists h. cbn. rewrite !Z.add_0_r. split; [pair_lia | exact H]. }
  cbn [pulses map measure_pulses length] in *. fold (pulses a b l). set (i := pulse_width a b x).
  assert (Hi : i = a \/ i = b) by (subst i; destruct x; auto). rewrite pulse_len_pulse by lia.
  destruct (IH (if i =? a then p + 1 else p) (if i =? b then q + 1 else q) (count_in h i) (sum + i) (n + 1)) as (h' & E & H').
  { apply count_in_spec; try done; lia. }
  1-3: destruct (Z.eqb_spec i a), (Z.eqb_spec i b); lia.
  rewrite E. exists h'. cbn [zeros ones fold_right]. fold (zeros l) (ones l).
  assert (Ex : (i =? a) = negb x /\ (i =? b) = x).
  { subst i. unfold pulse_width. destruct x; cbn [negb]; split; first [apply Z.eqb_refl | apply Z.eqb_neq; lia]. }
  destruct Ex as [E1 E2]. rewrite E1, E2 in H'. subst i. destruct x; cbn [negb pulse_width truth] in *.
  - split; [pair_lia |]. rewrite Z.add_0_l, Z.add_assoc. exact H'.
  - split; [pair_lia |]. rewrite Z.add_0_l, Z.add_assoc. exact H'.
Qed.

Lemma moments_spec a b p q h k i w c :
  at_most a b p q h -> 0 <= i -> i + Z.of_nat k <= 9 -> a <> b ->
  moments k i h w c =
  (w + (if (i <=? a) && (a <? i + Z.of_nat k) then p * a else 0) + (if (i <=? b) && (b <? i + Z.of_nat k) then q * b else 0),
   c + (if (i <=? a) && (a <? i + Z.of_nat k) then p else 0) + (if (i <=? b) && (b <? i + Z.of_nat k) then q else 0)).
Proof.
  intros [L H] Hi. revert i w c Hi. induction k as [|k IH]; intros i w c Hi B Ne; cbn [moments].
  { rewrite Z.add_0_r. f_equal; case_cmp; cbn [andb]; lia. }
  rewrite IH by lia. rewrite H by lia. f_equal.
  - destruct (Z.eqb_spec i a), (Z.eqb_spec i b); subst; case_cmp; cbn [andb]; lia.
  - destruct (Z.eqb_spec i a), (Z.eqb_spec i b); subst; case_cmp; cbn [andb]; lia.
Qed.

(** Between the two lengths the histogram is empty, and the least count is
    taken from the whole gap. *)
Lemma least_gap a b p q h k i c span :
  at_most a b p q h -> 0 <= a -> 0 < p -> 0 < q -> a < c < b -> c < i -> span = i - 1 -> b <= 8 -> i + Z.of_nat k = b + 1 -> i <= b ->
  least k i h c span = (c, b - 1).
Proof.
  intros [L H] Ha Hp Hq Hc. revert i span. induction k as [|k IH]; intros i span Hi -> Hb Hk Hib; [lia |]. cbn [least].
  rewrite (H i), (H c) by lia.
  destruct (Z.eqb_spec i a), (Z.eqb_spec c a), (Z.eqb_spec c b); try lia. destruct (Z.eqb_spec i b) as [-> | Nb].
  - rewrite (proj2 (Z.ltb_ge _ _)), (proj2 (Z.eqb_neq _ _)) by lia. assert (k = O) as -> by lia. done.
  - cbn. apply IH; lia.
Qed.

Lemma threshold_gap a b p q h :
  at_most a b p q h -> 0 <= a -> a + 2 <= b -> b <= 8 -> 0 < p < 255 -> 0 < q < 255 ->
  threshold h (p * a + q * b) (p + q) = (a + b) / 2.
Proof.
  intros H Ha Hab Hb Hp Hq. unfold threshold. assert (N : nonzero (p + q) = true) by (unfold nonzero; rewrite (proj2 (Z.eqb_neq _ _)); [done | lia]).
  rewrite N. set (c := (p * a + q * b) / (p + q)). assert (C : a <= c < b).
  { subst c. split; [apply Z.div_le_lower_bound; nia | apply Z.div_lt_upper_bound; nia]. }
  clearbody c. cbv zeta. rewrite (moments_spec a b p q) by (done || (unfold BITS; lia)). rewrite Z2Nat.id by lia.
  rewrite (proj2 (Z.leb_le 0 a)), (proj2 (Z.ltb_lt a _)), (proj2 (Z.leb_le 0 b)), (proj2 (Z.ltb_ge b _)) by lia. cbn [andb].
  rewrite (moments_spec a b p q) by (done || (unfold BITS; lia)). rewrite (proj2 (Z.leb_gt (c + 1) a)), (proj2 (Z.leb_le (c + 1) b)) by lia. cbn [andb].
  rewrite (proj2 (Z.ltb_lt b _)) by (unfold BITS; lia).
  rewrite !Z.add_0_l, !Z.add_0_r. assert (N1 : nonzero p = true) by (unfold nonzero; rewrite (proj2 (Z.eqb_neq _ _)); [done | lia]).
  assert (N2 : nonzero q = true) by (unfold nonzero; rewrite (proj2 (Z.eqb_neq _ _)); [done | lia]). rewrite N1, N2.
  replace ((p * a + p / 2) / p) with a by (apply Z.div_unique with (r := p / 2); divlia). rewrite (Z.mul_comm q b), Z.div_mul by lia.
  pose proof H as [L Hh]. replace (Z.to_nat (b + 1 - a)) with (S (S (Z.to_nat (b - 1 - a)))) by lia. cbn [least]. rewrite !(Hh a) by lia.
  rewrite Z.ltb_irrefl, Z.eqb_refl. rewrite (Hh (a + 1)), (Hh a) by lia.
  rewrite (proj2 (Z.eqb_neq (a + 1) a)), Z.eqb_refl, (proj2 (Z.eqb_neq (a + 1) b)), (proj2 (Z.eqb_neq a b)) by lia.
  rewrite (proj2 (Z.ltb_lt _ _)) by lia.
  rewrite (least_gap a b p q) by (done || lia). f_equal. lia.
Qed.

(** ** Bits and characters *)

Fixpoint letters (l : list bool) (b c : list Z) : list Z :=
  match l with
  | [] => []
  | x :: l => (if x then hd 0 b else hd 0 c) :: letters l (tl b) (tl c)
  end.

Lemma to_bits_letters a b t l ob zb :
  0 <= a < t -> t <= b < 0xFF -> to_bits (map (pulse_width a b) l) ob zb t = letters l ob zb.
Proof.
  intros Ha Hb. revert ob zb. induction l as [|x l IH]; intros ob zb; cbn [map to_bits letters]; [done |]. rewrite IH. f_equal.
  unfold pulse_width. destruct x; rewrite (proj2 (Z.eqb_neq _ 0xFF)) by lia; [rewrite (proj2 (Z.leb_le t b)) by lia | rewrite (proj2 (Z.leb_gt t a)) by lia]; done.
Qed.

Lemma letters_length l ob zb : length (letters l ob zb) = length l.
Proof. revert ob zb. induction l as [|x l IH]; intros; cbn; [done |]. now rewrite IH. Qed.

Lemma letters_two_valued l ob zb : two_valued (letters l ob zb) ob zb = true.
Proof.
  revert ob zb. induction l as [|x l IH]; intros ob zb; cbn [letters two_valued]; [done |]. rewrite IH, andb_true_r.
  destruct x; rewrite Z.eqb_refl; [done | apply orb_true_r].
Qed.

Lemma letters_nth (l : list bool) ob zb (i : nat) (x : bool) : l !! i = Some x -> letters l ob zb !! i = Some (if x then nth i ob 0 else nth i zb 0).
Proof.
  revert l ob zb. induction i as [|i IH]; intros [|y l] ob zb E; cbn in E; try done; cbn [letters].
  - injection E as ->. cbn. destruct x; [destruct ob | destruct zb]; done.
  - transitivity (letters l (tl ob) (tl zb) !! i); [done |]. rewrite (IH l (tl ob) (tl zb) E). f_equal. destruct x; [destruct ob | destruct zb]; try done; destruct i; done.
Qed.

Lemma letters_differ i : (i < 59)%nat -> nth i onebits 0 <> nth i zerobits 0 /\ zerobits !! i = Some (nth i zerobits 0).
Proof. intros H. do 59 (destruct i as [|i]; [split; [discriminate | reflexivity] |]). lia. Qed.

(** In the buffer the decoder leaves, the bits are those sent. *)
Lemma bit_at_letters (l : list bool) rest (i : nat) : length l = 59%nat -> (i < 59)%nat -> bit_at (letters l onebits zerobits ++ rest) (Z.of_nat i) = l !! i.
Proof.
  intros L H. destruct (lookup_lt_is_Some_2 l i) as [x E]; [lia |]. unfold bit_at, at_index.
  rewrite (proj2 (Z.ltb_ge _ 0)), Nat2Z.id by lia. rewrite lookup_app_l by (rewrite letters_length; lia). rewrite (letters_nth _ _ _ _ _ E). cbn [mbind option_bind].
  destruct (letters_differ i H) as [D Z0]. rewrite Z0, E. cbn [mbind option_bind]. f_equal.
  destruct x; [now rewrite (proj2 (Z.eqb_neq _ _)) | now rewrite Z.eqb_refl].
Qed.

(** A field of [n] bits that hold [v]. *)
Lemma ext_loop_spec n buf first sum v :
  0 <= v -> (forall k, (k < n)%nat -> bit_at buf (first + Z.of_nat k) = Some (Z.testbit v (Z.of_nat k))) ->
  0 <= sum -> ext_loop n buf first sum = Some (sum * 2 ^ Z.of_nat n + v mod 2 ^ Z.of_nat n).
Proof.
  intros Hv. revert sum. induction n as [|n IH]; intros sum H Hs; cbn [ext_loop].
  { f_equal. cbn. rewrite Z.mod_1_r. lia. }
  rewrite H by lia. cbn [mbind option_bind]. rewrite Z.shiftl_mul_pow2, Z.pow_1_r by lia.
  assert (Ht : truth (Z.testbit v (Z.of_nat n)) = v / 2 ^ Z.of_nat n mod 2).
  { rewrite <- (Z.testbit_spec' v (Z.of_nat n)) by lia. destruct (Z.testbit v (Z.of_nat n)); done. }
  pose proof (lor_high_low 1 (truth (Z.testbit v (Z.of_nat n))) sum ltac:(lia) ltac:(destruct (Z.testbit v (Z.of_nat n)); cbn; lia)) as Lo.
  change (2 ^ 1) with 2 in Lo. rewrite Lo, IH; [| intros; apply H; lia | destruct (Z.testbit v (Z.of_nat n)); cbn; lia]. f_equal.
  rewrite Ht, Nat2Z.inj_succ, Z.pow_succ_r, (Z.mul_comm 2 (2 ^ _)), Z.rem_mul_r by (try apply Z.pow_nonzero; lia). ring.
Qed.

Lemma parity_loop_spec n buf i p (l : list bool) :
  length l = n -> (forall k, (k < n)%nat -> bit_at buf (i + Z.of_nat k) = l !! k) -> parity_loop n buf i p = Some (fold_left xorb l p).
Proof.
  revert i p l. induction n as [|n IH]; intros i p l L H; destruct l as [|x l]; try done; cbn [parity_loop fold_left].
  specialize (H O ltac:(lia)) as H0. cbn in H0. rewrite Z.add_0_r in H0. rewrite H0. cbn [mbind option_bind].
  apply IH; [cbn in L; lia |]. intros k Hk. specialize (H (S k) ltac:(lia)). transitivity (bit_at buf (i + Z.of_nat (S k))); [f_equal; lia | exact H].
Qed.

Lemma xor_neg (l : list bool) p : fold_left xorb l (negb p) = negb (fold_left xorb l p).
Proof. revert p. induction l as [|x l IH]; intros p; [done |]. cbn. rewrite <- IH. f_equal. destruct p, x; done. Qed.

Lemma parity_even l : fold_left xorb (even_parity l) true = true.
Proof.
  unfold even_parity. rewrite fold_left_app. cbn. change true with (negb false) at 1. rewrite xor_neg. destruct (fold_left xorb l false); done.
Qed.

(** ** The fields *)

Lemma piece (l : list bool) first n w k : take n (drop first l) = w -> (k < n)%nat -> l !! (first + k)%nat = w !! k.
Proof. intros <- H. now rewrite lookup_take_lt, lookup_drop. Qed.

Section Minute.
Context (B : list bool) (rest : list Z).
Hypothesis B_length : length B = 59%nat.
#[local] Notation buf := (letters B onebits zerobits ++ rest).

Lemma ext_bf_spec idx (first n : nat) v :
  rawdcfcode !! idx = Some (Z.of_nat first) -> rawdcfcode !! S idx = Some (Z.of_nat (first + n)) -> (first + n <= 59)%nat ->
  take n (drop first B) = bits n v -> 0 <= v < 2 ^ Z.of_nat n -> ext_bf buf idx = Some v.
Proof.
  intros E1 E2 Le Hb Hv. unfold ext_bf. rewrite E1, E2. cbn [mbind option_bind].
  replace (Z.to_nat (Z.of_nat (first + n) - Z.of_nat first)) with n by lia. rewrite (ext_loop_spec n _ _ 0 v); [| lia | | lia].
  - f_equal. rewrite Z.mod_small; lia.
  - intros k Hk. replace (Z.of_nat first + Z.of_nat k) with (Z.of_nat (first + k)) by lia. rewrite bit_at_letters, (piece _ _ _ _ _ Hb) by (done || lia).
    unfold bits. rewrite list_lookup_fmap, lookup_seq_lt by lia. done.
Qed.

Lemma pcheck_spec idx (first n : nat) :
  partab !! idx = Some (Z.of_nat first) -> partab !! S idx = Some (Z.of_nat (first + n)) -> (first + n <= 59)%nat ->
  pcheck buf idx = Some (fold_left xorb (take n (drop first B)) true).
Proof.
  intros E1 E2 Le. unfold pcheck. rewrite E1, E2. cbn [mbind option_bind].
  replace (Z.to_nat (Z.of_nat (first + n) - Z.of_nat first)) with n by lia. apply parity_loop_spec.
  - rewrite length_take, length_drop. lia.
  - intros k Hk. replace (Z.of_nat first + Z.of_nat k) with (Z.of_nat (first + k)) by lia. rewrite bit_at_letters by (done || lia). now apply (piece _ _ n).
Qed.

(** The start bit and the three parities decide. *)
Definition sound_bits (l : list bool) : bool :=
  fold_left xorb (take 1 (drop 20 l)) false && fold_left xorb (take 8 (drop 21 l)) true &&
  fold_left xorb (take 7 (drop 29 l)) true && fold_left xorb (take 23 (drop 36 l)) true.

Lemma rawdcf_ok_spec : rawdcf_ok buf = Some (sound_bits B).
Proof.
  destruct (lookup_lt_is_Some_2 B 20) as [x E]; [lia |]. assert (T : take 1 (drop 20 B) = [x]) by now rewrite (drop_S _ _ _ E).
  unfold rawdcf_ok, sound_bits. rewrite (ext_bf_spec DCF_S 20 1 (truth x)); [| done | done | lia | rewrite T; destruct x; done | destruct x; cbn; lia].
  rewrite (pcheck_spec 0 21 8), (pcheck_spec 1 29 7), (pcheck_spec 2 36 23), T by (done || lia).
  cbn [mbind option_bind fold_left]. rewrite xorb_false_l.
  destruct x, (fold_left xorb (take 8 _) true), (fold_left xorb (take 7 _) true); done.
Qed.
End Minute.

Lemma dcf_bits_length m : minute_ok m -> length (dcf_bits m) = 59%nat.
Proof. intros [L _]. unfold dcf_bits. rewrite length_app, L. done. Qed.

(** Everything behind the free bits. *)
Lemma dcf_bits_drop m k : minute_ok m -> drop (15 + k) (dcf_bits m) = drop k (drop 15 (dcf_bits m)) /\
  drop 15 (dcf_bits m) = [dm_antenna m; dm_change m; dm_dst m; negb (dm_dst m); dm_leap m; true] ++
    even_parity (bcd 3 (dm_minute m)) ++ even_parity (bcd 2 (dm_hour m)) ++
    even_parity (bcd 2 (dm_day m) ++ bits 3 (dm_wday m) ++ bcd 1 (dm_month m) ++ bcd 4 (dm_year m)).
Proof. intros [L _]. split; [now rewrite drop_drop |]. unfold dcf_bits. rewrite <- L at 1. apply drop_app_length. Qed.

Lemma TIMES10_spec x : TIMES10 x = x * 10.
Proof. unfold TIMES10. rewrite !Z.shiftl_mul_pow2 by lia. lia. Qed.

Lemma two_digits_spec buf tens units v : ext_bf buf tens = Some (v / 10) -> ext_bf buf units = Some (v mod 10) -> two_digits buf tens units = Some v.
Proof. intros E1 E2. unfold two_digits. rewrite E1, E2. cbn. rewrite TIMES10_spec. f_equal. divlia. Qed.

Lemma bit_value (x : bool) : [x] = bits 1 (truth x) /\ [x; negb x] = bits 2 (if x then DCF_Z_MED else DCF_Z_MET).
Proof. destruct x; done. Qed.

Ltac in_minute H k :=
  etransitivity; [apply f_equal; exact (eq_trans (proj1 (dcf_bits_drop _ k H)) (f_equal (drop k) (proj2 (dcf_bits_drop _ k H)))) | reflexivity].
(** The field of [n] bits from bit [15 + k]. *)
Ltac in_field H L k n :=
  let i := eval cbv in (15 + k)%nat in
  apply (ext_bf_spec _ _ L _ i n); [done.. | lia | try (rewrite <- (proj1 (bit_value _)) || rewrite <- (proj2 (bit_value _))); in_minute H k | first [lia | divlia | unfold truth; match goal with |- _ <= (if ?x then _ else _) < _ => destruct x end; split; [discriminate | reflexivity | discriminate | reflexivity]]].
Ltac in_digits H L k t n := apply two_digits_spec; [in_field H L k%nat t%nat | in_field H L n%nat 4%nat].

Lemma month_len_small y m : 1 <= m <= 12 -> 28 <= month_len y m <= 31.
Proof. intros H. unfold month_len, month_start. pattern m. apply month_cases; [exact H | ..]; destruct (leap y); vm_compute; split; discriminate. Qed.

(** The date the bits stand for. *)
Definition minute_flags (m : dcf_minute) : Z :=
  let f := PARSEB_S_ANTENNA .| PARSEB_S_LEAP in
  let f := if dm_dst m then f .| PARSEB_DST else f in
  let f := if dm_change m then f .| PARSEB_ANNOUNCE else f in
  let f := if dm_leap m then f .| PARSEB_LEAPADD else f in
  if dm_antenna m then f .| PARSEB_ALTERNATE else f.
Definition minute_clock (m : dcf_minute) : clocktime_t :=
  mk_clocktime (dm_day m) (dm_month m) (dm_year m) (dm_hour m) (dm_minute m) 0 0 (if dm_dst m then -7200 else -3600) 0 (minute_flags m).

Lemma minute_sound m : minute_ok m -> sound_bits (dcf_bits m) = true.
Proof.
  intros H. assert (E1 : take 1 (drop 20 (dcf_bits m)) = [true]) by in_minute H 5%nat.
  assert (E2 : take 8 (drop 21 (dcf_bits m)) = even_parity (bcd 3 (dm_minute m))) by in_minute H 6%nat.
  assert (E3 : take 7 (drop 29 (dcf_bits m)) = even_parity (bcd 2 (dm_hour m))) by in_minute H 14%nat.
  assert (E4 : take 23 (drop 36 (dcf_bits m)) = even_parity (bcd 2 (dm_day m) ++ bits 3 (dm_wday m) ++ bcd 1 (dm_month m) ++ bcd 4 (dm_year m))) by in_minute H 21%nat.
  unfold sound_bits. now rewrite E1, E2, E3, E4, !parity_even.
Qed.

Lemma convert_minute m rest :
  minute_ok m -> convert_rawdcf (letters (dcf_bits m) onebits zerobits ++ rest) 59 no_clocktime = Some (CVT_OK, minute_clock m).
Proof.
  intros H. pose proof (dcf_bits_length m H) as L. set (buf := letters _ _ _ ++ rest).
  destruct H as (HL & Hmi & Hh & Hy & Hmo & Hd). pose proof (month_len_small (two_digit_year (dm_year m)) _ Hmo) as Hl.
  assert (H : minute_ok m) by (repeat split; lia).
  assert (S1 : rawdcf_ok buf = Some true) by (unfold buf; rewrite (rawdcf_ok_spec _ _ L); f_equal; now apply minute_sound).
  assert (Mi : two_digits buf DCF_M10 DCF_M1 = Some (dm_minute m)) by in_digits H L 10%nat 3%nat 6%nat.
  assert (Ho : two_digits buf DCF_H10 DCF_H1 = Some (dm_hour m)) by in_digits H L 18%nat 2%nat 14%nat.
  assert (Da : two_digits buf DCF_D10 DCF_D1 = Some (dm_day m)) by in_digits H L 25%nat 2%nat 21%nat.
  assert (Mo : two_digits buf DCF_MO0 DCF_MO = Some (dm_month m)) by in_digits H L 34%nat 1%nat 30%nat.
  assert (Ye : two_digits buf DCF_Y10 DCF_Y1 = Some (dm_year m)) by in_digits H L 39%nat 4%nat 35%nat.
  assert (Zo : ext_bf buf DCF_Z = Some (if dm_dst m then DCF_Z_MED else DCF_Z_MET)) by in_field H L 2%nat 2%nat.
  assert (A1 : ext_bf buf DCF_A1 = Some (truth (dm_change m))) by in_field H L 1%nat 1%nat.
  assert (A2 : ext_bf buf DCF_A2 = Some (truth (dm_leap m))) by in_field H L 4%nat 1%nat.
  assert (R : ext_bf buf DCF_R = Some (truth (dm_antenna m))) by in_field H L 0%nat 1%nat.
  assert (T : take (Z.to_nat 59) buf = letters (dcf_bits m) onebits zerobits).
  { unfold buf. apply take_app_length'. now rewrite letters_length. }
  assert (Lb : 59 <= Z.of_nat (length buf)) by (unfold buf; rewrite length_app, letters_length, L; lia).
  unfold convert_rawdcf. rewrite T, letters_two_valued, (proj2 (Z.ltb_ge _ 59)) by lia.
  rewrite S1, Mi, Ho, Da, Mo, Ye, Zo, A1, A2, R. unfold minute_clock, minute_flags.
  destruct (dm_dst m), (dm_change m), (dm_leap m), (dm_antenna m); reflexivity.
Qed.

(** ** The telegram *)

Lemma ones_app l l' : ones (l ++ l') = ones l + ones l'.
Proof. unfold ones. induction l as [|x l IH]; cbn [app fold_right]; [done |]. rewrite IH. lia. Qed.
Lemma zeros_app l l' : zeros (l ++ l') = zeros l + zeros l'.
Proof. unfold zeros. induction l as [|x l IH]; cbn [app fold_right]; [done |]. rewrite IH. lia. Qed.

(** The start bit is a one and one of the zone bits is a zero. *)
Lemma both_lengths m : minute_ok m -> 0 < zeros (dcf_bits m) < 255 /\ 0 < ones (dcf_bits m) < 255.
Proof.
  intros H. destruct (zeros_ones (dcf_bits m)) as (S & _). rewrite dcf_bits_length in S by done. revert S.
  unfold dcf_bits. rewrite !zeros_app, !ones_app.
  set (x := even_parity (bcd 3 _)). set (y := even_parity (bcd 2 _)). set (z := even_parity _).
  pose proof (zeros_ones (dm_free m)). pose proof (zeros_ones x). pose proof (zeros_ones y). pose proof (zeros_ones z).
  assert (0 < zeros [dm_antenna m; dm_change m; dm_dst m; negb (dm_dst m); dm_leap m; true] /\ 0 < ones [dm_antenna m; dm_change m; dm_dst m; negb (dm_dst m); dm_leap m; true])
    by (destruct (dm_antenna m), (dm_change m), (dm_dst m), (dm_leap m); done).
  lia.
Qed.

Definition minute_date (m : dcf_minute) : clocktime_t := (minute_clock m) <| ct_year := two_digit_year (dm_year m) |>.
Definition minute_time (m : dcf_minute) : Z := unix_of (minute_date m).

Lemma minute_time_spec m :
  minute_ok m -> 0 < minute_time m /\ parse_to_unixtime (minute_clock m) = (minute_time m, None, (minute_date m) <| ct_utctime := minute_time m |>).
Proof.
  intros (L & Hmi & Hh & Hy & Hmo & Hd).
  assert (Y : 1998 <= two_digit_year (dm_year m)) by (unfold two_digit_year, YEAR_PIVOT, YEAR_BREAK; case_cmp; lia).
  split.
  - unfold minute_time, unix_of, minute_date, minute_clock, civil_rd, DAY_UNIX_STARTS. cbn.
    assert (M : 0 <= month_start (two_digit_year (dm_year m)) (dm_month m - 1)).
    { destruct (Z.eq_dec (dm_month m) 1) as [-> | N]; [rewrite month_start_0; lia |].
      pose proof (month_start_mono (two_digit_year (dm_year m)) 0 (dm_month m - 1) ltac:(lia) ltac:(lia)). rewrite month_start_0 in *. lia. }
    assert (G : 729000 <= greg_days (two_digit_year (dm_year m) - 1)) by (unfold greg_days; divlia). destruct (dm_dst m); lia.
  - destruct (unixtime_spec (minute_clock m) eq_refl) as [E _]. apply E; repeat split; cbn; lia.
Qed.

(** The two lengths are told apart, whatever the bits are. *)
Lemma cvt_pulses B a b rest ct pd :
  length B = 59%nat -> 0 < zeros B -> 0 < ones B -> 0 <= a -> a + 2 <= b -> b <= 8 ->
  let buf := letters B onebits zerobits ++ rest in
  cvt_rawdcf (pulses a b B ++ rest) 59 ct pd = '(rtc, ct) ← convert_rawdcf buf 59 ct; Some (follow_on rtc buf ct pd).
Proof.
  cbv zeta. intros L Z1 O1 Ha Hab Hb. destruct (zeros_ones B) as [S _].
  assert (Lp : length (pulses a b B) = 59%nat) by (unfold pulses; now rewrite length_map).
  unfold cvt_rawdcf. rewrite length_app, Lp, (proj2 (Z.ltb_ge _ 59)) by lia.
  rewrite take_app_length', drop_app_length' by (rewrite Lp; lia).
  destruct (measure_pulses a b B 0 0 (repeat 0 BITS) 0 0) as (h & E & Hh); try lia.
  { split; [done |]. intros i Hi. rewrite nth_repeat. destruct (i =? a), (i =? b); done. }
  rewrite E. rewrite !Z.add_0_l in *. rewrite <- S, (threshold_gap a b) by (done || lia). now rewrite to_bits_letters by divlia.
Qed.

Lemma cvt_minute m a b rest tcode :
  minute_ok m -> 0 <= a -> a + 2 <= b -> b <= 8 ->
  cvt_rawdcf (pulses a b (dcf_bits m) ++ rest) 59 no_clocktime (LastTcode tcode) =
  Some (if minute_time m - tcode =? 60 then CVT_OK else CVT_FAIL .| CVT_BADTIME,
        letters (dcf_bits m) onebits zerobits ++ rest, (minute_date m) <| ct_utctime := minute_time m |>, LastTcode (minute_time m)).
Proof.
  intros H Ha Hab Hb. destruct (both_lengths m H) as [Z1 O1]. rewrite cvt_pulses by (try apply dcf_bits_length; done || lia).
  rewrite convert_minute by done. cbn [mbind option_bind]. unfold follow_on. rewrite Z.eqb_refl. cbn [negb].
  destruct (minute_time_spec m H) as [_ ->]. destruct (_ =? 60); done.
Qed.

(** C12: a minute of DCF77 pulses of any two lengths at least two apart, its
    bits set as the transmitter sets them, is decoded to the UTC time of the
    date and zone the bits stand for, and to the announcements in it.  The
    test that it follows the last minute by 60 seconds does not keep it from
    being taken: it only counts a bad telegram. *)
Theorem dcf77_decoded fs s m a b rest tcode :
  minute_ok m -> 0 <= a -> a + 2 <= b -> b <= 8 ->
  format_of fs s = Some clock_rawdcf -> parse_lformat s <> 0xFFFF ->
  parse_ldata s = pulses a b (dcf_bits m) ++ rest -> parse_ldsize s = 59 -> parse_pdata s = LastTcode tcode ->
  exists s', timepacket fs s = Some (CVT_OK, s') /\
    dt_time s' = mk_lfp (u32 (minute_time m + JAN_1970)) 0 /\
    parse_lstate s' = (dt_state s .| minute_flags m .| PARSEB_TIMECODE) /\
    parse_pdata s' = LastTcode (minute_time m) /\
    parse_badformat s' = (if minute_time m - tcode =? 60 then parse_badformat s else u64 (parse_badformat s + 1)).
Proof.
  intros H Ha Hab Hb F Lf Ld Ls P. unfold timepacket. rewrite (proj2 (Z.eqb_neq _ _) Lf), F. cbn [mbind option_bind f_convert clock_rawdcf].
  rewrite Ld, Ls, P, cvt_minute by done. cbn [mbind option_bind]. unfold mbind, option_bind.
  destruct (minute_time_spec m H) as [Pos _].
  assert (U : parse_to_unixtime ((minute_date m) <| ct_utctime := minute_time m |>) = (minute_time m, None, (minute_date m) <| ct_utctime := minute_time m |>)).
  { unfold parse_to_unixtime. cbn. unfold nonzero. rewrite (proj2 (Z.eqb_neq _ 0)) by lia. done. }
  destruct (_ =? 60); cbv beta iota zeta.
  - rewrite U, (proj2 (Z.eqb_neq _ (-1))) by lia. eexists. split; [reflexivity |]. done.
  - rewrite U, (proj2 (Z.eqb_neq _ (-1))) by lia. eexists. split; [reflexivity |]. done.
Qed.

(** 14:37 CEST on 23 July 2013, in pulses of two and four bits. *)
Definition summer_minute : dcf_minute := mk_minute (repeat false 15) false false true false 37 14 23 2 7 13.
Definition summer_parse : parse :=
  sample_parse <| parse_lformat := 0 |> <| parse_ldata := pulses 2 4 (dcf_bits summer_minute) ++ [0; 0; 0] |>
    <| parse_ldsize := 59 |> <| parse_pdata := LastTcode 1374582960 |>.

Lemma dcf77_decoded_witness :
  exists s', timepacket [clock_rawdcf] summer_parse = Some (CVT_OK, s') /\ dt_time s' = mk_lfp (1374583020 + 2208988800) 0 /\ parse_badformat s' = 0.
Proof.
  destruct (dcf77_decoded [clock_rawdcf] summer_parse summer_minute 2 4 [0; 0; 0] 1374582960) as (s' & E & T & _ & _ & Bf);
    [repeat split; vm_compute; congruence | lia | lia | lia | reflexivity | discriminate | reflexivity | reflexivity | reflexivity |].
  exists s'. split; [exact E |]. rewrite T, Bf. split; vm_compute; reflexivity.
Defined.

(** ** A pulse of the wrong length *)

Lemma xor_flip (l : list bool) k x p : l !! k = Some x -> fold_left xorb (<[k := negb x]> l) p = negb (fold_left xorb l p).
Proof.
  revert k p. induction l as [|y l IH]; intros [|k] p E; cbn in E; try done.
  - injection E as ->. cbn. rewrite <- xor_neg. f_equal. destruct p, x; done.
  - cbn. now apply IH.
Qed.

Lemma piece_flip (l : list bool) first n i x :
  (first <= i < first + n)%nat -> l !! i = Some x ->
  fold_left xorb (take n (drop first (<[i := negb x]> l))) true = negb (fold_left xorb (take n (drop first l)) true).
Proof.
  intros H E. rewrite drop_insert_ge, take_insert_lt by lia. apply xor_flip. rewrite lookup_take_lt, lookup_drop by lia.
  now replace (first + (i - first))%nat with i by lia.
Qed.

Definition flip (i : nat) (l : list bool) : list bool := match l !! i with Some x => <[i := negb x]> l | None => l end.

Lemma flip_length i l : length (flip i l) = length l.
Proof. unfold flip. case_match; [apply length_insert | done]. Qed.

(** Outside the piece that holds the bit nothing changes. *)
Lemma piece_kept (l : list bool) first n i : (i < first \/ first + n <= i)%nat -> take n (drop first (flip i l)) = take n (drop first l).
Proof.
  intros H. unfold flip. case_match; [| done]. destruct (decide (i < first)%nat) as [Lt | Ge].
  - now rewrite drop_insert_lt.
  - rewrite drop_insert_ge, take_insert_ge by lia. done.
Qed.

Lemma sound_flip l i : length l = 59%nat -> (20 <= i < 59)%nat -> sound_bits l = true -> sound_bits (flip i l) = false.
Proof.
  intros L H S. unfold sound_bits in S. apply andb_prop in S as [S S4]. apply andb_prop in S as [S S3]. apply andb_prop in S as [S1 S2].
  assert (F : forall first n, (first <= i < first + n)%nat -> fold_left xorb (take n (drop first l)) true = true -> fold_left xorb (take n (drop first (flip i l))) true = false).
  { intros first n B E. destruct (lookup_lt_is_Some_2 l i) as [x X]; [lia |]. unfold flip. rewrite X, piece_flip, E by done. done. }
  unfold sound_bits.
  destruct (decide (i = 20%nat)) as [-> | N]; [| destruct (decide (i < 29)%nat); [| destruct (decide (i < 36)%nat)]].
  - destruct (lookup_lt_is_Some_2 l 20) as [x X]; [lia |]. unfold flip. rewrite X, (drop_S _ _ _ X) in *. destruct x; [| discriminate S1].
    erewrite drop_S by (apply list_lookup_insert_eq; lia). done.
  - rewrite (F 21%nat 8%nat) by (done || lia). now rewrite andb_false_r.
  - rewrite (F 29%nat 7%nat) by (done || lia). now rewrite andb_false_r.
  - rewrite (F 36%nat 23%nat) by (done || lia). apply andb_false_r.
Qed.

(** Of the two zone bits one stays a zero and one a one. *)
Lemma flip_lengths m i : minute_ok m -> (20 <= i)%nat -> 0 < zeros (flip i (dcf_bits m)) /\ 0 < ones (flip i (dcf_bits m)).
Proof.
  intros H Hi. set (l := flip i (dcf_bits m)).
  assert (E : take 2 (drop 17 l) = [dm_dst m; negb (dm_dst m)]) by (subst l; rewrite piece_kept by lia; in_minute H 2%nat).
  rewrite <- (take_drop 17 l), <- (take_drop 2 (drop 17 l)), E, !zeros_app, !ones_app.
  pose proof (zeros_ones (take 17 l)). pose proof (zeros_ones (drop 2 (drop 17 l))). destruct (dm_dst m); cbn; lia.
Qed.

(** C33: one wrong pulse among the start bit, the time and the date of a minute
    is found out: the telegram is refused as a bad date, its time is not
    stored, and it is counted as bad. *)
Theorem dcf77_bit_error_detected fs s m a b rest i :
  minute_ok m -> 0 <= a -> a + 2 <= b -> b <= 8 -> (20 <= i < 59)%nat ->
  format_of fs s = Some clock_rawdcf -> parse_lformat s <> 0xFFFF ->
  parse_ldata s = pulses a b (flip i (dcf_bits m)) ++ rest -> parse_ldsize s = 59 ->
  exists s', timepacket fs s = Some (CVT_FAIL .| CVT_BADDATE, s') /\
    dt_time s' = dt_time s /\ dt_state s' = dt_state s /\ parse_pdata s' = parse_pdata s /\
    parse_badformat s' = u64 (parse_badformat s + 1).
Proof.
  intros H Ha Hab Hb Hi F Lf Ld Ls. pose proof (dcf_bits_length m H) as L. destruct (flip_lengths m i H ltac:(lia)) as [Z1 O1].
  set (B := flip i (dcf_bits m)) in *. assert (LB : length B = 59%nat) by (subst B; now rewrite flip_length).
  assert (C : convert_rawdcf (letters B onebits zerobits ++ rest) 59 no_clocktime = Some (CVT_FAIL .| CVT_BADFMT, no_clocktime)).
  { unfold convert_rawdcf. rewrite length_app, letters_length, LB, (proj2 (Z.ltb_ge _ 59)) by lia.
    rewrite take_app_length' by (rewrite letters_length; lia). rewrite letters_two_valued, (rawdcf_ok_spec _ _ LB).
    subst B. rewrite sound_flip by (done || now apply minute_sound). done. }
  unfold timepacket. rewrite (proj2 (Z.eqb_neq _ _) Lf), F. cbn [mbind option_bind f_convert clock_rawdcf].
  rewrite Ld, Ls, cvt_pulses, C by (done || lia). eexists. split; [reflexivity |]. done.
Qed.

(** Bit 40, the tens of the day. *)
Definition noisy_parse : parse := summer_parse <| parse_ldata := pulses 2 4 (flip 40 (dcf_bits summer_minute)) ++ [0; 0; 0] |>.

Lemma dcf77_bit_error_detected_witness :
  exists s', timepacket [clock_rawdcf] noisy_parse = Some (CVT_FAIL .| CVT_BADDATE, s') /\ dt_time s' = L_CLR /\ parse_badformat s' = 1.
Proof.
  destruct (dcf77_bit_error_detected [clock_rawdcf] noisy_parse summer_minute 2 4 [0; 0; 0] 40) as (s' & E & T & _ & _ & Bf);
    [repeat split; vm_compute; congruence | lia | lia | lia | lia | reflexivity | discriminate | reflexivity | reflexivity |].
  exists s'. split; [exact E |]. rewrite T, Bf. split; vm_compute; reflexivity.
Defined.

(** ** A conversion that fails *)

(** C35: a telegram whose conversion fails is taken all the same when the
    routine left a date that exists: it is counted as bad, and then its time
    is stored and returned as good.  In the witness both zone bits of a DCF77
    minute are set, and its local time passes for UTC. *)
Theorem failed_conversion_accepted fs s f convert rtc ldata ct pd :
  format_of fs s = Some f -> parse_lformat s <> 0xFFFF -> f_convert f = Some convert ->
  convert (parse_ldata s) (parse_ldsize s) no_clocktime (parse_pdata s) = Some (rtc, ldata, ct, pd) ->
  (rtc .& CVT_MASK) = CVT_FAIL -> ct_utctime ct = 0 ->
  let ct' := ct <| ct_year := two_digit_year (ct_year ct) |> in
  date_ok ct' -> time_ok ct' -> unix_of ct' <> -1 ->
  exists s', timepacket fs s = Some (CVT_OK, s') /\
    dt_time s' = mk_lfp (u32 (unix_of ct' + JAN_1970)) (TVUTOTSF (ct_usecond ct)) /\
    parse_badformat s' = u64 (parse_badformat s + 1).
Proof.
  cbv zeta. intros F Lf C E R U D T N. unfold timepacket. rewrite (proj2 (Z.eqb_neq _ _) Lf), F. cbn [mbind option_bind]. rewrite C, E. cbn [mbind option_bind].
  rewrite R. destruct (unixtime_spec ct U) as [X _]. rewrite (X D T). cbv beta iota zeta. rewrite (proj2 (Z.eqb_neq _ (-1)) N).
  eexists. split; [reflexivity |]. done.
Qed.

Definition zoneless_minute : list bool := <[18%nat := true]> (dcf_bits summer_minute).
Definition zoneless_parse : parse := summer_parse <| parse_ldata := pulses 2 4 zoneless_minute ++ [0; 0; 0] |>.

Lemma failed_conversion_accepted_witness :
  exists s', timepacket [clock_rawdcf] zoneless_parse = Some (CVT_OK, s') /\ l_ui (dt_time s') = 1374583020 + 7200 + 2208988800 /\ parse_badformat s' = 1.
Proof.
  destruct (failed_conversion_accepted [clock_rawdcf] zoneless_parse clock_rawdcf cvt_rawdcf (CVT_FAIL .| CVT_BADFMT)
      (letters zoneless_minute onebits zerobits ++ [0; 0; 0]) (mk_clocktime 23 7 13 14 37 0 0 0 0 (PARSEB_S_ANTENNA .| PARSEB_S_LEAP)) (LastTcode 1374582960))
    as (s' & E & T & Bf); [reflexivity | discriminate | reflexivity | vm_compute; reflexivity | reflexivity | reflexivity | | | discriminate |].
  1,2: repeat split; vm_compute; congruence.
  exists s'. split; [exact E |]. rewrite T, Bf. split; vm_compute; reflexivity.
Defined.
