(* ===== verification/AuthKeys.v ===== *)
(** * Symmetric key store: libntp/authkeys.c, libntp/a_md5encrypt.c

    Key structures live in a heap; the store links them on one list and in
    a hash table, and keeps unused ones on a free list.  Secrets are blocks
    of a byte heap, so that a dangling or null secret pointer is visible:
    an operation that would read, write or release memory it does not own
    returns [None].  The MD5 routine of libisc is a parameter. *)

From S2P Require Import Prelude FixedPoint Double Lists NtpTypes.
From stdpp Require Import base gmap list.
#[local] Open Scope Z_scope.

(** MD5 of a byte string, and what callers rely on: a digest has 16 bytes. *)
Class Digest := md5 : list Z -> list Z.
Class DigestLaws `{Digest} := md5_length : forall m, length (md5 m) = 16%nat.

(** ** State *)

Definition KEY_TRUSTED : Z := 0x001.
Definition DEF_AUTHHASHSIZE : Z := 64.
Definition MEMINC : Z := 16.
Definition NTP_MAXKEY : Z := 65535.

Record symkey := mk_symkey {
  sk_secret : Z; sk_lifetime : Z; sk_keyid : Z; sk_type : Z; sk_secretsize : Z; sk_flags : Z }.
#[export] Instance eta_symkey : Eta symkey := fun r =>
  mk_symkey (sk_secret r) (sk_lifetime r) (sk_keyid r) (sk_type r) (sk_secretsize r) (sk_flags r).

Definition zero_symkey : symkey := mk_symkey 0 0 0 0 0 0.

Record auth_state := mk_auth_state {
  symkeys : gmap Z symkey; key_list : list Z; key_hash : htable;
  authhashbuckets : Z; authhashmask : Z; authfreekeys : list Z; authnumfreekeys : Z;
  next_symkey : Z; secrets : gmap Z (list Z); next_secret : Z;
  authkeynotfound : Z; authkeylookups : Z; authnumkeys : Z; authkeyexpired : Z;
  authkeyuncached : Z; authnokey : Z; authencryptions : Z; authdecryptions : Z;
  cache_keyid : Z; cache_secret : Z; cache_secretsize : Z; cache_type : Z; cache_flags : Z }.
#[export] Instance eta_auth_state : Eta auth_state := fun r =>
  mk_auth_state (symkeys r) (key_list r) (key_hash r) (authhashbuckets r) (authhashmask r)
    (authfreekeys r) (authnumfreekeys r) (next_symkey r) (secrets r) (next_secret r)
    (authkeynotfound r) (authkeylookups r) (authnumkeys r) (authkeyexpired r)
    (authkeyuncached r) (authnokey r) (authencryptions r) (authdecryptions r)
    (cache_keyid r) (cache_secret r) (cache_secretsize r) (cache_type r) (cache_flags r).

(** The zero-initialised globals; pointer 0 is [NULL]. *)
Definition auth_zero : auth_state :=
  mk_auth_state ∅ [] ∅ DEF_AUTHHASHSIZE (DEF_AUTHHASHSIZE - 1) [] 0 1 ∅ 1
    0 0 0 0 0 0 0 0 0 0 0 0 0.

Definition KEYHASH (st : auth_state) (keyid : Z) : Z := keyid .& authhashmask st.
Definition key_at (st : auth_state) (p : Z) : symkey := default zero_symkey (symkeys st !! p).
Definition put_key (p : Z) (k : symkey) (st : auth_state) : auth_state :=
  st <| symkeys := <[p := k]> (symkeys st) |>.

(** [memset] of a secret and [free]. *)
Definition free_secret (p size : Z) (st : auth_state) : option auth_state :=
  match secrets st !! p with
  | Some b => if size <=? Z.of_nat (length b)
              then Some (st <| secrets := base.delete p (secrets st) |>) else None
  | None => None
  end.

(** [memcpy] of [size] bytes of [key] into a secret. *)
Definition copy_secret (p : Z) (key : list Z) (size : Z) (st : auth_state) : option auth_state :=
  if size =? 0 then Some st
  else match secrets st !! p with
  | Some b =>
      if (size <=? Z.of_nat (length b)) && (size <=? Z.of_nat (length key)) then
        let n := Z.to_nat size in
        Some (st <| secrets := <[p := take n key ++ drop n b]> (secrets st) |>)
      else None
  | None => None
  end.

(** [cache_secretsize] bytes at [cache_secret], as the digest reads them. *)
Definition read_cached_secret (st : auth_state) : option (list Z) :=
  if cache_secretsize st =? 0 then Some []
  else match secrets st !! cache_secret st with
  | Some b => if cache_secretsize st <=? Z.of_nat (length b)
              then Some (take (Z.to_nat (cache_secretsize st)) b) else None
  | None => None
  end.

(** ** Operations *)

Definition init_auth (st : auth_state) : auth_state :=
  st <| key_hash := ∅ |> <| key_list := [] |>.

Definition auth_moremem (keycount : Z) (st : auth_state) : auth_state :=
  let i := if 0 <? keycount then keycount else MEMINC in
  let sk := zrange (next_symkey st) (Z.to_nat i) in
  st <| next_symkey := next_symkey st + i |>
     <| symkeys := fold_left (fun m p => <[p := zero_symkey]> m) sk (symkeys st) |>
     <| authnumfreekeys := s32 (authnumfreekeys st + i) |>
     <| authfreekeys := fold_left (fun l p => p :: l) sk (authfreekeys st) |>.

(** [KEYHASH] of a linked structure. *)
Definition key_hash_of (st : auth_state) (p : Z) : Z := KEYHASH st (sk_keyid (key_at st p)).

Section Resize.
(** [log10] of the C library. *)
Variable log10 : double -> double.

Definition auth_log2 (x : double) : Z := u16 (dtrunc (log10 x /d log10 (dofZ 2))).

Definition auth_resize_hashtable (st : auth_state) : auth_state :=
  let totalkeys := u64 (authnumkeys st + authnumfreekeys st) in
  let hashbits := u16 (auth_log2 (dofZ totalkeys /d dofZ 4) + 1) in
  let hashbits := Z.max 4 hashbits in
  let hashbits := Z.min 15 hashbits in
  let st := st <| authhashbuckets := u16 (Z.shiftl 1 hashbits) |> in
  let st := st <| authhashmask := u16 (authhashbuckets st - 1) |> in
  st <| key_hash :=
    fold_left (fun t sk => LINK_BUCKET (key_hash_of st sk) sk t) (key_list st) ∅ |>.

Definition auth_prealloc_symkeys (keycount : Z) (st : auth_state) : auth_state :=
  let allocated := s32 (u64 (authnumkeys st + authnumfreekeys st)) in
  let additional := s32 (keycount - allocated) in
  let st := if 0 <? additional then auth_moremem additional st else st in
  auth_resize_hashtable st.
End Resize.

Definition allocsymkey (h id flags type lifetime secretsize secret : Z) (st : auth_state)
    : option auth_state :=
  let st := if authnumfreekeys st <? 1 then auth_moremem (-1) st else st in
  match authfreekeys st with
  | [] => None
  | sk :: rest =>
      Some (put_key sk (mk_symkey secret lifetime id type secretsize flags)
              (st <| authfreekeys := rest |>)
              <| key_hash := LINK_BUCKET h sk (key_hash st) |>
              <| key_list := key_list st ++ [sk] |>
              <| authnumfreekeys := s32 (authnumfreekeys st - 1) |>
              <| authnumkeys := u64 (authnumkeys st + 1) |>)
  end.

Definition freesymkey (sk h : Z) (st : auth_state) : option auth_state :=
  let k := key_at st sk in
  st ← (if nonzero (sk_secret k) then free_secret (sk_secret k) (sk_secretsize k) st else Some st);
  Some (put_key sk zero_symkey st
          <| key_hash := UNLINK_BUCKET h sk (key_hash st) |>
          <| key_list := UNLINK sk (key_list st) |>
          <| authfreekeys := sk :: authfreekeys st |>
          <| authnumkeys := u64 (authnumkeys st - 1) |>
          <| authnumfreekeys := s32 (authnumfreekeys st + 1) |>).

Definition auth_findkey (id : Z) (st : auth_state) : option Z :=
  chain_find (fun sk => id =? sk_keyid (key_at st sk)) (bucket (key_hash st) (KEYHASH st id)).

Definition auth_havekey (id : Z) (st : auth_state) : bool :=
  if (0 =? id) || (cache_keyid st =? id) then true
  else match auth_findkey id st with Some _ => true | None => false end.

Definition authhavekey (id : Z) (st : auth_state) : bool * auth_state :=
  let st := st <| authkeylookups := u64 (authkeylookups st + 1) |> in
  if (0 =? id) || (cache_keyid st =? id) then (true, st)
  else
    let st := st <| authkeyuncached := u64 (authkeyuncached st + 1) |> in
    match auth_findkey id st with
    | None => (false, st <| authkeynotfound := u64 (authkeynotfound st + 1) |>)
    | Some sk =>
        let k := key_at st sk in
        if 0 =? sk_type k then (false, st <| authkeynotfound := u64 (authkeynotfound st + 1) |>)
        else if negb (has (sk_flags k) KEY_TRUSTED)
        then (false, st <| authnokey := u64 (authnokey st + 1) |>)
        else (true, st <| cache_keyid := sk_keyid k |> <| cache_type := sk_type k |>
                       <| cache_flags := sk_flags k |> <| cache_secret := sk_secret k |>
                       <| cache_secretsize := sk_secretsize k |>)
    end.

(** The cache is flushed when it holds [id]. *)
Definition flush_cache (id : Z) (st : auth_state) : auth_state :=
  if cache_keyid st =? id then st <| cache_flags := 0 |> <| cache_keyid := 0 |> else st.

(** [now] is [current_time]. *)
Definition authtrust (now id trust : Z) (st : auth_state) : option auth_state :=
  let h := KEYHASH st id in
  let lifetime := if 1 <? trust then u64 (now + trust) else 0 in
  match auth_findkey id st with
  | None =>
      if trust =? 0 then Some st
      else allocsymkey h id KEY_TRUSTED 0 lifetime 0 0 st
  | Some sk =>
      let st := flush_cache id st in
      if 0 <? trust then
        let k := key_at st sk in
        Some (put_key sk (k <| sk_flags := sk_flags k .| KEY_TRUSTED |>
                            <| sk_lifetime := lifetime |>) st)
      else freesymkey sk h st
  end.

Definition authistrusted (keyno : Z) (st : auth_state) : bool * auth_state :=
  if keyno =? cache_keyid st then (has (cache_flags st) KEY_TRUSTED, st)
  else
    let st := st <| authkeyuncached := u64 (authkeyuncached st + 1) |> in
    let notfound := (false, st <| authkeynotfound := u64 (authkeynotfound st + 1) |>) in
    match auth_findkey keyno st with
    | None => notfound
    | Some sk => if negb (has (sk_flags (key_at st sk)) KEY_TRUSTED) then notfound else (true, st)
    end.

Definition MD5auth_setkey (keyno keytype : Z) (key : list Z) (len : Z) (st : auth_state)
    : option auth_state :=
  let len := Z.max 0 len in
  let h := KEYHASH st keyno in
  match auth_findkey keyno st with
  | Some sk =>
      let k := key_at st sk in
      let st := put_key sk (k <| sk_type := u16 keytype |> <| sk_secretsize := u16 len |>) st in
      st ← copy_secret (sk_secret k) key len st;
      Some (flush_cache keyno st)
  | None =>
      if len <=? Z.of_nat (length key) then
        let secret := next_secret st in
        let st := st <| next_secret := secret + 1 |>
                     <| secrets := <[secret := take (Z.to_nat len) key]> (secrets st) |> in
        allocsymkey h keyno 0 (u16 keytype) 0 (u16 len) secret st
      else None
  end.

(** The bodies of the two iterations over the key list. *)
Definition delkey (sk : Z) (st : auth_state) : option auth_state :=
  let k := key_at st sk in
  if NTP_MAXKEY <? sk_keyid k then Some st
  else if has (sk_flags k) KEY_TRUSTED then
    st ← (if nonzero (sk_secret k) then free_secret (sk_secret k) (sk_secretsize k) st
          else Some st);
    Some (put_key sk (k <| sk_secretsize := 0 |> <| sk_lifetime := 0 |>) st)
  else freesymkey sk (KEYHASH st (sk_keyid k)) st.

Definition agekey (now sk : Z) (st : auth_state) : option auth_state :=
  let k := key_at st sk in
  if (0 <? sk_lifetime k) && (sk_lifetime k <? now) then
    st ← freesymkey sk (KEYHASH st (sk_keyid k)) st;
    Some (st <| authkeyexpired := u64 (authkeyexpired st + 1) |>)
  else Some st.

(** [ITER_DLIST]: the successor is fetched before the body runs, and the
    bodies unlink no structure but their own, so the visit order is the
    list at entry. *)
Fixpoint iter_keys (body : Z -> auth_state -> option auth_state) (l : list Z) (st : auth_state)
    : option auth_state :=
  match l with
  | [] => Some st
  | sk :: l => st ← body sk st; iter_keys body l st
  end.

Definition auth_delkeys (st : auth_state) : option auth_state :=
  iter_keys delkey (key_list st) st.
Definition auth_agekeys (now : Z) (st : auth_state) : option auth_state :=
  iter_keys (agekey now) (key_list st) st.

(** ** Message authentication *)

(** Bytes [off, off + length bs) of a buffer; out of range is an overrun. *)
Definition poke (off : Z) (bs buf : list Z) : option (list Z) :=
  let o := Z.to_nat off in
  if (0 <=? off) && (off + Z.of_nat (length bs) <=? Z.of_nat (length buf))
  then Some (take o buf ++ bs ++ drop (o + length bs) buf) else None.
Definition peek (off len : Z) (buf : list Z) : option (list Z) :=
  if (0 <=? off) && (0 <=? len) && (off + len <=? Z.of_nat (length buf))
  then Some (take (Z.to_nat len) (drop (Z.to_nat off) buf)) else None.

Section Mac.
Context `{Digest}.

Definition MD5authencrypt (pkt : list Z) (len : Z) (st : auth_state) : option (Z * list Z) :=
  key ← read_cached_secret st;
  body ← peek 0 len pkt;
  pkt ← poke (len + 4) (md5 (key ++ body)) pkt;
  Some (Z.of_nat (length (md5 (key ++ body))) + 4, pkt).

Definition MD5authdecrypt (pkt : list Z) (len size : Z) (st : auth_state) : option bool :=
  key ← read_cached_secret st;
  body ← peek 0 len pkt;
  let digest := md5 (key ++ body) in
  let n := Z.of_nat (length digest) in
  if negb (u32 size =? n + 4) then Some false
  else mac ← peek (len + 4) n pkt; Some (bool_decide (digest = mac)).

Definition authencrypt (keyno : Z) (pkt : list Z) (len : Z) (st : auth_state)
    : option (Z * list Z * auth_state) :=
  let st := st <| authencryptions := u64 (authencryptions st + 1) |> in
  pkt ← poke (4 * (len /c 4)) (be32 keyno) pkt;
  if 0 =? keyno then Some (4, pkt, st)
  else
    let '(have, st) := authhavekey keyno st in
    if negb have then Some (0, pkt, st)
    else '(n, pkt) ← MD5authencrypt pkt len st; Some (n, pkt, st).

Definition authdecrypt (keyno : Z) (pkt : list Z) (len size : Z) (st : auth_state)
    : option (bool * auth_state) :=
  let st := st <| authdecryptions := u64 (authdecryptions st + 1) |> in
  if 0 =? keyno then Some (false, st)
  else
    let '(have, st) := authhavekey keyno st in
    if negb have || (size <? 4) then Some (false, st)
    else ok ← MD5authdecrypt pkt len size st; Some (ok, st).
End Mac.
