(* ===== verification/AuthFacts.v ===== *)
(** * The symmetric key store: invariant and refinement

    The store of AuthKeys.v implements a finite map from key identifiers to
    keys.  [auth_inv] is its representation invariant; the operations of
    [auth_op] preserve it, never touch memory they do not own, and act on
    the map as [spec_op] says. *)

From S2P Require Import Prelude FixedPoint Double Lists NtpTypes AuthKeys.
From stdpp Require Import base gmap list.
#[local] Open Scope Z_scope.

(** ** Representation invariant *)

(** Links: every structure ever allocated is on exactly one of the two
    lists, the table indexes the live ones, and identifiers are unique. *)
Record links_ok (st : auth_state) : Prop := {
  lk_nodup : NoDup (key_list st ++ authfreekeys st);
  lk_range : forall p, p ∈ key_list st ++ authfreekeys st -> 0 < p < next_symkey st;
  lk_total : Z.of_nat (length (key_list st ++ authfreekeys st)) = next_symkey st - 1;
  lk_free : authnumfreekeys st = Z.of_nat (length (authfreekeys st));
  lk_keys : authnumkeys st = Z.of_nat (length (key_list st));
  lk_bound : next_symkey st < 2 ^ 31;
  lk_index : indexed (key_hash_of st) (key_list st) (key_hash st);
  lk_ids : forall p q, p ∈ key_list st -> q ∈ key_list st ->
           sk_keyid (key_at st p) = sk_keyid (key_at st q) -> p = q }.

(** A key owns its secret, or has none. *)
Definition owns (st : auth_state) (k : symkey) : Prop :=
  (sk_secret k = 0 /\ sk_secretsize k = 0) \/
  (0 < sk_secret k < next_secret st /\
   exists b, secrets st !! sk_secret k = Some b /\ 0 <= sk_secretsize k <= Z.of_nat (length b)).

Record secrets_ok (st : auth_state) : Prop := {
  sc_owns : forall p, p ∈ key_list st -> owns st (key_at st p);
  sc_next : 0 < next_secret st;
  sc_null : secrets st !! 0 = None;
  sc_inj : forall p q, p ∈ key_list st -> q ∈ key_list st ->
           sk_secret (key_at st p) = sk_secret (key_at st q) ->
           sk_secret (key_at st p) <> 0 -> p = q }.

Definition auth_inv (st : auth_state) : Prop := links_ok st /\ secrets_ok st.

(** ** The map a store represents *)

Record akey := mk_akey { ak_type : Z; ak_flags : Z; ak_lifetime : Z; ak_secret : list Z }.

Definition secret_bytes (st : auth_state) (k : symkey) : list Z :=
  take (Z.to_nat (sk_secretsize k)) (default [] (secrets st !! sk_secret k)).
Definition akey_of (st : auth_state) (k : symkey) : akey :=
  mk_akey (sk_type k) (sk_flags k) (sk_lifetime k) (secret_bytes st k).
Definition abs_key (st : auth_state) (id : Z) : option akey :=
  (fun p => akey_of st (key_at st p)) <$> auth_findkey id st.

(** ** Searching *)

Section Find.
Context (st : auth_state) (Hl : links_ok st).

Lemma findkey_Some id p :
  auth_findkey id st = Some p <-> p ∈ key_list st /\ sk_keyid (key_at st p) = id.
Proof.
  split.
  - intros E. eapply indexed_find_live in E as (? & ? & Ht); [| apply Hl].
    apply Z.eqb_eq in Ht. auto.
  - intros [Hp <-]. eapply indexed_find; [apply Hl | done | apply Z.eqb_refl | done |].
    intros q Hq Ht. apply Z.eqb_eq in Ht. now apply (lk_ids _ Hl).
Qed.

Lemma findkey_None id :
  auth_findkey id st = None <-> forall p, p ∈ key_list st -> sk_keyid (key_at st p) <> id.
Proof.
  destruct (auth_findkey id st) as [p|] eqn:E.
  - apply findkey_Some in E. naive_solver.
  - split; [| done]. intros _ p Hp Hid.
    assert (auth_findkey id st = Some p) by (apply findkey_Some; auto). congruence.
Qed.

Lemma list_nodup : NoDup (key_list st).
Proof. destruct (NoDup_app (key_list st) (authfreekeys st)) as [H _]. apply H, Hl. Qed.

Lemma live_not_free p : p ∈ key_list st -> p ∉ authfreekeys st.
Proof. destruct (NoDup_app (key_list st) (authfreekeys st)) as [H _]. apply H, Hl. Qed.
End Find.

Lemma key_at_put st p q k : key_at (put_key p k st) q = if decide (p = q) then k else key_at st q.
Proof.
  unfold key_at, put_key. cbn. case_decide; subst; [now rewrite lookup_insert_eq |].
  now rewrite lookup_insert_ne.
Qed.

(** ** Growing the free list *)

(** What [auth_moremem] leaves alone. *)
Lemma moremem_key_at st n p :
  p < next_symkey st -> key_at (auth_moremem n st) p = key_at st p.
Proof.
  intros Hp. unfold key_at, auth_moremem. cbn. rewrite fold_insert_lookup; [done |].
  rewrite zrange_elem. lia.
Qed.

Lemma moremem_free st n :
  authfreekeys (auth_moremem n st)
  = reverse (zrange (next_symkey st) (Z.to_nat (if 0 <? n then n else MEMINC))) ++ authfreekeys st.
Proof. apply fold_cons_rev. Qed.

Lemma moremem_links st n :
  links_ok st -> next_symkey st + (if 0 <? n then n else MEMINC) < 2 ^ 31 ->
  links_ok (auth_moremem n st).
Proof.
  intros Hl Hb. pose proof (moremem_free st n) as Hf.
  set (i := if 0 <? n then n else MEMINC) in *.
  assert (Hi : 0 < i) by (unfold i, MEMINC; destruct (Z.ltb_spec 0 n); lia).
  pose proof (lk_range _ Hl) as Hr. pose proof (lk_total _ Hl) as Ht. rewrite length_app in Ht.
  assert (Hk : forall p, p ∈ key_list st -> key_at (auth_moremem n st) p = key_at st p).
  { intros p Hp. apply moremem_key_at. apply Hr. set_solver. }
  assert (Hs : forall p, p ∈ key_list st ++ authfreekeys (auth_moremem n st) <->
            p ∈ key_list st ++ authfreekeys st \/ next_symkey st <= p < next_symkey st + i).
  { intros p. rewrite Hf, !elem_of_app, elem_of_reverse, zrange_elem, Z2Nat.id by lia. tauto. }
  assert (Hlen : length (authfreekeys (auth_moremem n st))
                 = (Z.to_nat i + length (authfreekeys st))%nat)
    by now rewrite Hf, length_app, length_reverse, zrange_length.
  split; cbn [key_list next_symkey auth_moremem setter]; fold i.
  - rewrite Hf, (Permutation_app_comm (key_list st)), <- app_assoc, NoDup_app.
    split_and!; [rewrite reverse_Permutation; apply zrange_NoDup | |
      rewrite (Permutation_app_comm (authfreekeys st)); apply Hl].
    intros p Hp Hq. rewrite elem_of_reverse, zrange_elem in Hp.
    specialize (Hr p ltac:(set_solver)). lia.
  - intros p Hp. apply Hs in Hp as [Hp | Hp]; [apply Hr in Hp |]; lia.
  - rewrite length_app, Hlen. lia.
  - rewrite Hlen. unfold auth_moremem; cbn. fold i. rewrite (lk_free _ Hl), s32_small; [lia |].
    unfold_ranges. lia.
  - apply Hl.
  - lia.
  - eapply indexed_proper; [done | | apply Hl]. intros p Hp. unfold key_hash_of. now rewrite Hk.
  - intros p q Hp Hq. rewrite !Hk by done. now apply Hl.
Qed.

(** ** Linking and unlinking a key *)

Definition cache_of (st : auth_state) : Z * Z * Z * Z * Z :=
  (cache_keyid st, cache_type st, cache_flags st, cache_secret st, cache_secretsize st).

(** [st'] is [st] with one more key, [k], linked as [p]. *)
Record added (st st' : auth_state) (p : Z) (k : symkey) : Prop := {
  ad_links : links_ok st';
  ad_new : p ∉ key_list st;
  ad_list : key_list st' = key_list st ++ [p];
  ad_key : key_at st' p = k;
  ad_other : forall q, q ∈ key_list st -> key_at st' q = key_at st q;
  ad_secrets : secrets st' = secrets st;
  ad_next : next_secret st' = next_secret st;
  ad_cache : cache_of st' = cache_of st }.

(** The part of [allocsymkey] after the free list was replenished. *)
Definition link_new (sk : Z) (rest : list Z) (h : Z) (k : symkey) (st : auth_state) : auth_state :=
  put_key sk k (st <| authfreekeys := rest |>)
    <| key_hash := LINK_BUCKET h sk (key_hash st) |>
    <| key_list := key_list st ++ [sk] |>
    <| authnumfreekeys := s32 (authnumfreekeys st - 1) |>
    <| authnumkeys := u64 (authnumkeys st + 1) |>.

Lemma link_new_key_at sk rest h k st q :
  key_at (link_new sk rest h k st) q = if decide (sk = q) then k else key_at st q.
Proof. exact (key_at_put st sk q k). Qed.

Lemma link_new_added st sk rest k :
  links_ok st -> authfreekeys st = sk :: rest ->
  (forall p, p ∈ key_list st -> sk_keyid (key_at st p) <> sk_keyid k) ->
  added st (link_new sk rest (KEYHASH st (sk_keyid k)) k st) sk k.
Proof.
  intros Hl Hf Hid. set (st' := link_new _ _ _ _ _).
  pose proof (lk_nodup _ Hl) as Hn. rewrite Hf in Hn.
  assert (Hnew : sk ∉ key_list st) by (apply NoDup_app in Hn; set_solver).
  assert (Hk : forall q, q ∈ key_list st -> key_at st' q = key_at st q).
  { intros q Hq. unfold st'. rewrite link_new_key_at. case_decide; [set_solver | done]. }
  assert (Hsk : key_at st' sk = k) by (unfold st'; rewrite link_new_key_at; now case_decide).
  assert (Hperm : Permutation (key_list st' ++ authfreekeys st') (key_list st ++ authfreekeys st)).
  { unfold st'; cbn. rewrite Hf, <- app_assoc. apply Permutation_app_head. done. }
  pose proof (lk_total _ Hl) as Ht. pose proof (lk_bound _ Hl) as Hb.
  rewrite length_app in Ht.
  constructor; try done; constructor.
  - rewrite Hperm. apply Hl.
  - intros p. rewrite Hperm. apply Hl.
  - rewrite Hperm. apply Hl.
  - unfold st'; cbn. rewrite (lk_free _ Hl), Hf, s32_small; rewrite Hf in Ht; cbn in *;
      [lia | unfold_ranges; lia].
  - unfold st'; cbn. rewrite (lk_keys _ Hl), length_app; cbn. unfold u64, wrap.
    rewrite Z.mod_small; unfold_ranges; lia.
  - apply Hl.
  - apply (indexed_proper (key_hash_of st') (key_hash_of st') (sk :: key_list st)); [| done |].
    { intros p. unfold st'; cbn. set_solver. }
    change (key_hash st') with (LINK_BUCKET (KEYHASH st' (sk_keyid k)) sk (key_hash st)).
    replace (KEYHASH st' (sk_keyid k)) with (key_hash_of st' sk)
      by (unfold key_hash_of; now rewrite Hsk).
    apply indexed_link; [| done].
    eapply indexed_proper; [done | | apply Hl]. intros p Hp. unfold key_hash_of. now rewrite Hk.
  - intros p q. unfold st' at 1 2; cbn. rewrite !elem_of_app, !list_elem_of_singleton.
    intros [Hp | ->] [Hq | ->]; rewrite ?Hsk, ?Hk by done; intros E;
      [now apply Hl | destruct (Hid _ Hp E) | destruct (Hid _ Hq (eq_sym E)) | done].
Qed.

Lemma allocsymkey_added st id flags type lifetime size secret :
  links_ok st -> next_symkey st + MEMINC < 2 ^ 31 ->
  (forall p, p ∈ key_list st -> sk_keyid (key_at st p) <> id) ->
  exists p st', allocsymkey (KEYHASH st id) id flags type lifetime size secret st = Some st' /\
    added st st' p (mk_symkey secret lifetime id type size flags).
Proof.
  intros Hl Hb Hid. set (k := mk_symkey secret lifetime id type size flags).
  unfold allocsymkey. destruct (Z.ltb_spec (authnumfreekeys st) 1) as [Hn | Hn].
  - pose proof (moremem_links st (-1) Hl Hb) as Hm.
    destruct (authfreekeys (auth_moremem (-1) st)) as [|sk rest] eqn:E.
    { apply (f_equal length) in E. rewrite moremem_free, length_app, length_reverse,
        zrange_length in E. discriminate E. }
    assert (Hk : forall p, p ∈ key_list st -> key_at (auth_moremem (-1) st) p = key_at st p).
    { intros p Hp. apply moremem_key_at. apply Hl. set_solver. }
    eexists sk, _. split; [reflexivity |].
    destruct (link_new_added (auth_moremem (-1) st) sk rest k Hm E) as [];
      [intros p Hp; rewrite Hk by done; auto |].
    constructor; auto. intros q Hq. rewrite <- Hk by done. now apply ad_other0.
  - destruct (authfreekeys st) as [|sk rest] eqn:E.
    { rewrite (lk_free _ Hl), E in Hn. cbn in Hn. lia. }
    eexists sk, _. split; [reflexivity |]. now apply link_new_added.
Qed.

(** [st'] is [st] with the key at [p] gone. *)
Record removed (st st' : auth_state) (p : Z) : Prop := {
  rm_links : links_ok st';
  rm_list : key_list st' = UNLINK p (key_list st);
  rm_other : forall q, q ∈ key_list st -> q <> p -> key_at st' q = key_at st q;
  rm_secrets : forall a, a = 0 \/ a <> sk_secret (key_at st p) -> secrets st' !! a = secrets st !! a;
  rm_next : next_secret st' = next_secret st;
  rm_cache : cache_of st' = cache_of st }.

(** The part of [freesymkey] after the secret was released. *)
Definition unlink_key (sk h : Z) (st : auth_state) : auth_state :=
  put_key sk zero_symkey st
    <| key_hash := UNLINK_BUCKET h sk (key_hash st) |>
    <| key_list := UNLINK sk (key_list st) |>
    <| authfreekeys := sk :: authfreekeys st |>
    <| authnumkeys := u64 (authnumkeys st - 1) |>
    <| authnumfreekeys := s32 (authnumfreekeys st + 1) |>.

Lemma unlink_key_links st sk :
  links_ok st -> sk ∈ key_list st -> links_ok (unlink_key sk (key_hash_of st sk) st).
Proof.
  intros Hl Hsk. set (st' := unlink_key _ _ _). pose proof (list_nodup st Hl) as Hn.
  assert (Hk : forall q, q ∈ UNLINK sk (key_list st) -> key_at st' q = key_at st q).
  { intros q Hq. apply UNLINK_elem in Hq as [? ?]; [| done]. unfold st', unlink_key.
    etransitivity; [exact (key_at_put st sk q zero_symkey) | now rewrite decide_False by auto]. }
  assert (Hperm : Permutation (key_list st' ++ authfreekeys st') (key_list st ++ authfreekeys st)).
  { unfold st'; cbn. rewrite <- Permutation_middle. change (sk :: UNLINK sk ?l ++ ?r)
      with ((sk :: UNLINK sk l) ++ r). apply Permutation_app_tail.
    clear -Hsk Hn. induction (key_list st) as [|q l IH]; [set_solver |]. cbn.
    apply NoDup_cons in Hn as [? ?].
    destruct (Z.eqb_spec q sk) as [-> |]; [done |]. rewrite perm_swap. f_equiv. set_solver. }
  pose proof (lk_total _ Hl) as Ht. pose proof (lk_bound _ Hl) as Hb. rewrite length_app in Ht.
  pose proof (UNLINK_length sk (key_list st) Hsk) as Hlen.
  split.
  - rewrite Hperm. apply Hl.
  - intros p. rewrite Hperm. apply Hl.
  - rewrite Hperm. apply Hl.
  - unfold st'; cbn. rewrite (lk_free _ Hl), s32_small; [lia | unfold_ranges; lia].
  - unfold st'; cbn. rewrite (lk_keys _ Hl). unfold u64, wrap.
    rewrite Z.mod_small; unfold_ranges; lia.
  - apply Hl.
  - eapply (indexed_proper (key_hash_of st)); [done | | apply indexed_unlink; [done | apply Hl]].
    intros p Hp. unfold key_hash_of. now rewrite Hk.
  - intros p q. unfold st' at 1 2; cbn. intros Hp Hq. rewrite !Hk by done.
    apply Hl; eauto using UNLINK_sub.
Qed.

Lemma freesymkey_removed st sk :
  auth_inv st -> sk ∈ key_list st ->
  exists st', freesymkey sk (key_hash_of st sk) st = Some st' /\ removed st st' sk.
Proof.
  intros [Hl Hs] Hsk. unfold freesymkey.
  assert (Hother : forall st', symkeys st' = symkeys st ->
    forall q, q <> sk -> key_at (put_key sk zero_symkey st') q = key_at st q).
  { intros st' E q Hq. rewrite key_at_put, decide_False by auto. unfold key_at. now rewrite E. }
  destruct (sc_owns _ Hs sk Hsk) as [[E1 E2] | [Hr (b & Hb & Hsz)]].
  - rewrite E1. cbn [nonzero Z.eqb negb mbind option_bind].
    eexists. split; [reflexivity |]. split; try done.
    + now apply unlink_key_links.
    + intros q Hq Hne. now apply (Hother st).
  - assert (nonzero (sk_secret (key_at st sk)) = true) as ->
      by (unfold nonzero; apply negb_true_iff, Z.eqb_neq; lia).
    unfold free_secret. rewrite Hb. assert ((sk_secretsize (key_at st sk) <=? Z.of_nat (length b)) = true) as ->
      by (apply Z.leb_le; apply Hsz). cbn [mbind option_bind].
    eexists. split; [reflexivity |]. split; try done.
    + change (key_hash_of st sk) with
        (key_hash_of (st <| secrets := base.delete (sk_secret (key_at st sk)) (secrets st) |>) sk).
      apply unlink_key_links; [| done]. destruct Hl; split; done.
    + intros q Hq Hne. now apply (Hother (st <| secrets := _ |>)).
    + intros a Ha. cbn. rewrite lookup_delete_ne; [done | lia].
Qed.

(** ** Effect on the map *)

Lemma abs_key_live st p :
  links_ok st -> p ∈ key_list st ->
  abs_key st (sk_keyid (key_at st p)) = Some (akey_of st (key_at st p)).
Proof.
  intros Hl Hp. unfold abs_key.
  assert (auth_findkey (sk_keyid (key_at st p)) st = Some p) as -> by now apply findkey_Some.
  done.
Qed.

Lemma abs_key_absent st id :
  links_ok st -> (forall p, p ∈ key_list st -> sk_keyid (key_at st p) <> id) -> abs_key st id = None.
Proof. intros Hl H. unfold abs_key. now rewrite (proj2 (findkey_None st Hl id) H). Qed.

(** An identifier is live or absent. *)
Lemma id_cases st id :
  links_ok st -> (exists p, p ∈ key_list st /\ sk_keyid (key_at st p) = id) \/
                 (forall p, p ∈ key_list st -> sk_keyid (key_at st p) <> id).
Proof.
  intros Hl. destruct (auth_findkey id st) as [p|] eqn:E.
  - left. exists p. now apply findkey_Some.
  - right. now apply findkey_None.
Qed.

Lemma akey_of_same st st' k :
  (secrets st' !! sk_secret k = secrets st !! sk_secret k) -> akey_of st' k = akey_of st k.
Proof. intros E. unfold akey_of, secret_bytes. now rewrite E. Qed.

Lemma owns_same st st' k :
  next_secret st' = next_secret st ->
  (sk_secret k <> 0 -> secrets st' !! sk_secret k = secrets st !! sk_secret k) ->
  owns st k -> owns st' k.
Proof.
  intros En Es [H | [Hr (b & Hb & Hs)]]; [now left | right].
  split; [lia |]. exists b. rewrite Es by lia. auto.
Qed.

Section Added.
Context (st st' : auth_state) (p : Z) (k : symkey).
Context (Hi : auth_inv st) (Ha : added st st' p k).

Lemma added_live q : q ∈ key_list st' <-> q ∈ key_list st \/ q = p.
Proof. rewrite (ad_list _ _ _ _ Ha), elem_of_app, list_elem_of_singleton. done. Qed.

Lemma added_abs id :
  abs_key st' id = if id =? sk_keyid k then Some (akey_of st' k) else abs_key st id.
Proof.
  destruct Ha as [Hl' Hn Hlist Hk Ho Hs _ _]. destruct Hi as [Hl _].
  destruct (Z.eqb_spec id (sk_keyid k)) as [-> | Hne].
  - rewrite <- Hk at 1. rewrite abs_key_live, Hk; [done | done | apply added_live; auto].
  - destruct (id_cases st id Hl) as [(q & Hq & <-) | Hnone].
    + rewrite (abs_key_live st), <- (Ho q Hq), abs_key_live by (done || apply added_live; auto).
      f_equal. apply akey_of_same. now rewrite Hs.
    + rewrite !abs_key_absent; auto. intros q. rewrite added_live.
      intros [Hq | ->]; [rewrite Ho by done; auto | congruence].
Qed.

Lemma added_inv :
  owns st k -> (forall q, q ∈ key_list st -> sk_secret (key_at st q) = sk_secret k ->
                sk_secret k = 0) -> auth_inv st'.
Proof.
  intros Hown Hfresh. destruct Ha as [Hl' Hn Hlist Hk Ho Hs Hnx _], Hi as [Hl [So Sn S0 Si]].
  split; [done |]. split; [| lia | now rewrite Hs |].
  - intros q. rewrite added_live. intros [Hq | ->]; [rewrite Ho by done | rewrite Hk];
      (eapply owns_same; [done | now rewrite Hs |]); auto.
  - intros q r. rewrite !added_live.
    intros [Hq | ->] [Hr | ->]; rewrite ?Hk, ?Ho by done; auto;
      [intros E1 E2; rewrite E1 in E2; destruct E2; eauto |
       intros E1 E2; destruct E2; symmetry in E1; eauto].
Qed.
End Added.

Section Removed.
Context (st st' : auth_state) (p : Z).
Context (Hi : auth_inv st) (Hp : p ∈ key_list st) (Hr : removed st st' p).

Lemma removed_live q : q ∈ key_list st' <-> q ∈ key_list st /\ q <> p.
Proof. rewrite (rm_list _ _ _ Hr). apply UNLINK_elem, list_nodup, Hi. Qed.

Lemma removed_secret q : q ∈ key_list st -> q <> p ->
  sk_secret (key_at st q) <> 0 ->
  secrets st' !! sk_secret (key_at st q) = secrets st !! sk_secret (key_at st q).
Proof.
  intros Hq Hne H0. apply (rm_secrets _ _ _ Hr). right. intros E. apply Hne. now apply (sc_inj _ (proj2 Hi)).
Qed.

Lemma removed_inv : auth_inv st'.
Proof.
  destruct Hi as [Hl [So Sn S0 Si]]. split; [apply Hr |]. split.
  - intros q Hq. apply removed_live in Hq as [Hq Hne]. rewrite (rm_other _ _ _ Hr) by done.
    apply (owns_same st); [exact (rm_next _ _ _ Hr) | now apply removed_secret | now apply So].
  - rewrite (rm_next _ _ _ Hr). done.
  - rewrite (rm_secrets _ _ _ Hr); auto.
  - intros q r Hq Hr'. apply removed_live in Hq as [? ?], Hr' as [? ?].
    rewrite !(rm_other _ _ _ Hr) by done. auto.
Qed.

Lemma removed_akey q : q ∈ key_list st -> q <> p ->
  akey_of st' (key_at st q) = akey_of st (key_at st q).
Proof.
  intros Hq Hne. destruct (sc_owns _ (proj2 Hi) q Hq) as [[E1 E2] | [H _]].
  - unfold akey_of, secret_bytes. now rewrite E2.
  - apply akey_of_same, removed_secret; auto. lia.
Qed.

Lemma removed_abs id :
  abs_key st' id = if id =? sk_keyid (key_at st p) then None else abs_key st id.
Proof.
  pose proof (rm_links _ _ _ Hr) as Hl'. destruct Hi as [Hl Hs].
  destruct (Z.eqb_spec id (sk_keyid (key_at st p))) as [-> | Hne].
  - apply abs_key_absent; [done |]. intros q Hq E. apply removed_live in Hq as [Hq Hne].
    rewrite (rm_other _ _ _ Hr) in E by done. now apply Hne, (lk_ids _ Hl).
  - destruct (id_cases st id Hl) as [(q & Hq & <-) | Hnone].
    + assert (Hqp : q <> p) by congruence.
      rewrite abs_key_live by done. rewrite <- (rm_other _ _ _ Hr q Hq Hqp) at 1.
      rewrite abs_key_live by (done || now apply removed_live).
      f_equal. rewrite (rm_other _ _ _ Hr) by done. now apply removed_akey.
    + rewrite !abs_key_absent; auto. intros q Hq. apply removed_live in Hq as [Hq ?].
      rewrite (rm_other _ _ _ Hr); auto.
Qed.
End Removed.

(** The links see the identifiers of the live keys and nothing else of them. *)
Lemma links_ok_ext st st' :
  key_list st' = key_list st -> authfreekeys st' = authfreekeys st ->
  next_symkey st' = next_symkey st -> authnumfreekeys st' = authnumfreekeys st ->
  authnumkeys st' = authnumkeys st -> key_hash st' = key_hash st ->
  authhashmask st' = authhashmask st ->
  (forall p, p ∈ key_list st -> sk_keyid (key_at st' p) = sk_keyid (key_at st p)) ->
  links_ok st -> links_ok st'.
Proof.
  intros E1 E2 E3 E4 E5 E6 E7 Hid Hl. destruct Hl.
  split; rewrite ?E1, ?E2, ?E3, ?E4, ?E5, ?E6; auto.
  - eapply indexed_proper; [done | | done]. intros p Hp. unfold key_hash_of, KEYHASH.
    now rewrite E7, Hid.
  - intros p q Hp Hq. rewrite !Hid; auto.
Qed.

(** Counters and the cache are no part of the represented map. *)
Lemma auth_same st st' :
  symkeys st' = symkeys st -> key_list st' = key_list st -> authfreekeys st' = authfreekeys st ->
  next_symkey st' = next_symkey st -> authnumfreekeys st' = authnumfreekeys st ->
  authnumkeys st' = authnumkeys st -> key_hash st' = key_hash st ->
  authhashmask st' = authhashmask st -> secrets st' = secrets st ->
  next_secret st' = next_secret st ->
  auth_inv st -> auth_inv st' /\ forall id, abs_key st' id = abs_key st id.
Proof.
  intros E0 E1 E2 E3 E4 E5 E6 E7 E8 E9 [Hl Hs].
  assert (Hk : forall p, key_at st' p = key_at st p) by (intros; unfold key_at; now rewrite E0).
  split; [split |].
  - eapply links_ok_ext; eauto. intros. now rewrite Hk.
  - destruct Hs as [So Sn S0 Si]. split; [| now rewrite E9 | now rewrite E8 |].
    + intros p. rewrite E1, Hk. intros Hp. apply (owns_same st); auto. now rewrite E8.
    + intros p q. rewrite E1, !Hk. auto.
  - intros id. unfold abs_key, auth_findkey, KEYHASH. rewrite E6, E7.
    rewrite (chain_find_ext _ (fun sk => id =? sk_keyid (key_at st sk)))
      by (intros; now rewrite Hk).
    destruct (chain_find _ _); cbn; [| done]. rewrite Hk. f_equal.
    apply akey_of_same. now rewrite E8.
Qed.

(** [st'] is [st] with the live key [p] overwritten by [k]. *)
Record updated (st st' : auth_state) (p : Z) (k : symkey) : Prop := {
  up_links : links_ok st';
  up_list : key_list st' = key_list st;
  up_key : key_at st' p = k;
  up_id : sk_keyid k = sk_keyid (key_at st p);
  up_secret : sk_secret k = sk_secret (key_at st p);
  up_owns : owns st' k;
  up_other : forall q, q <> p -> key_at st' q = key_at st q;
  up_secrets : forall a, a = 0 \/ a <> sk_secret k -> secrets st' !! a = secrets st !! a;
  up_next : next_secret st' = next_secret st }.

Section Updated.
Context (st st' : auth_state) (p : Z) (k : symkey).
Context (Hi : auth_inv st) (Hp : p ∈ key_list st) (Hu : updated st st' p k).

Lemma updated_secret q : q ∈ key_list st -> q <> p -> sk_secret (key_at st q) <> 0 ->
  secrets st' !! sk_secret (key_at st q) = secrets st !! sk_secret (key_at st q).
Proof.
  intros Hq Hne H0. apply (up_secrets _ _ _ _ Hu). right. rewrite (up_secret _ _ _ _ Hu).
  intros E. apply Hne. now apply (sc_inj _ (proj2 Hi)).
Qed.

Lemma updated_inv : auth_inv st'.
Proof.
  destruct Hu as [Hl' El Ek Eid Es Ho Hoth Hsec En], Hi as [Hl [So Sn S0 Si]].
  split; [done |]. split; [| lia | rewrite Hsec; auto |].
  - intros q. rewrite El. intros Hq. destruct (decide (q = p)) as [-> | Hne]; [now rewrite Ek |].
    rewrite Hoth by done. apply (owns_same st); [done | now apply updated_secret | auto].
  - intros q r. rewrite El. intros Hq Hr.
    assert (H : forall x, sk_secret (key_at st' x) = sk_secret (key_at st x)).
    { intros x. destruct (decide (x = p)) as [-> | Hne]; [now rewrite Ek | now rewrite Hoth]. }
    rewrite !H. auto.
Qed.

Lemma updated_abs id :
  abs_key st' id = if id =? sk_keyid k then Some (akey_of st' k) else abs_key st id.
Proof.
  pose proof Hi as [Hl Hs]. pose proof (up_list _ _ _ _ Hu) as El.
  destruct (Z.eqb_spec id (sk_keyid k)) as [-> | Hne].
  - rewrite <- (up_key _ _ _ _ Hu) at 1. rewrite abs_key_live, (up_key _ _ _ _ Hu);
      [done | apply (up_links _ _ _ _ Hu) | now rewrite El].
  - destruct (id_cases st id Hl) as [(q & Hq & <-) | Hnone].
    + assert (Hqp : q <> p) by (intros ->; apply Hne; symmetry; apply (up_id _ _ _ _ Hu)).
      rewrite (abs_key_live st), <- (up_other _ _ _ _ Hu q Hqp), abs_key_live
        by (done || apply (up_links _ _ _ _ Hu) || now rewrite El).
      f_equal. rewrite (up_other _ _ _ _ Hu) by done.
      destruct (sc_owns _ Hs q Hq) as [[E1 E2] | [H _]].
      * unfold akey_of, secret_bytes. now rewrite E2.
      * apply akey_of_same, updated_secret; auto. lia.
    + rewrite !abs_key_absent; auto; [apply (up_links _ _ _ _ Hu) |].
      intros q. rewrite El. intros Hq. destruct (decide (q = p)) as [-> | Hqp].
      * rewrite (up_key _ _ _ _ Hu), (up_id _ _ _ _ Hu). auto.
      * rewrite (up_other _ _ _ _ Hu) by done. auto.
Qed.
End Updated.

(** ** The operations on the map *)

Inductive auth_op :=
| SetKey (keyno keytype : Z) (key : list Z) (len : Z)
| Trust (id trust : Z)
| Have (id : Z)
| IsTrusted (id : Z)
| Known (id : Z)
| Age
| DelKeys
| Prealloc (keycount : Z).

Definition run_op (log10 : double -> double) (now : Z) (op : auth_op) (st : auth_state)
    : option auth_state :=
  match op with
  | SetKey keyno keytype key len => MD5auth_setkey keyno keytype key len st
  | Trust id trust => authtrust now id trust st
  | Have id => Some (authhavekey id st).2
  | IsTrusted id => Some (authistrusted id st).2
  | Known _ => Some st
  | Age => auth_agekeys now st
  | DelKeys => auth_delkeys st
  | Prealloc n => Some (auth_prealloc_symkeys log10 n st)
  end.

Definition expired (now : Z) (k : akey) : bool :=
  (0 <? ak_lifetime k) && (ak_lifetime k <? now).

Definition spec_op (now : Z) (op : auth_op) (m : Z -> option akey) (id : Z) : option akey :=
  match op with
  | SetKey keyno keytype key len =>
      if id =? keyno then
        let '(flags, lifetime) :=
          match m id with Some k => (ak_flags k, ak_lifetime k) | None => (0, 0) end in
        Some (mk_akey (u16 keytype) flags lifetime (take (Z.to_nat len) key))
      else m id
  | Trust id' trust =>
      let lifetime := if 1 <? trust then u64 (now + trust) else 0 in
      if negb (id =? id') then m id
      else if trust =? 0 then None
      else match m id with
           | Some k => Some (mk_akey (ak_type k) (ak_flags k .| KEY_TRUSTED) lifetime (ak_secret k))
           | None => Some (mk_akey 0 KEY_TRUSTED lifetime [])
           end
  | Age => match m id with
           | Some k => if expired now k then None else Some k
           | None => None
           end
  | DelKeys => if id <=? NTP_MAXKEY then None else m id
  | Have _ | IsTrusted _ | Known _ | Prealloc _ => m id
  end.

(** When an operation may be called: counts stay within an [int], a new
    secret for a known key fits the block the key already has, and no key
    that [auth_delkeys] would strip instead of remove is in the store. *)
Definition op_safe (op : auth_op) (st : auth_state) : Prop :=
  next_symkey st + MEMINC < 2 ^ 31 /\
  match op with
  | SetKey keyno _ key len =>
      0 <= len <= Z.of_nat (length key) /\ len < 2 ^ 16 /\
      forall p, auth_findkey keyno st = Some p ->
        len = 0 \/
        exists b, secrets st !! sk_secret (key_at st p) = Some b /\ len <= Z.of_nat (length b)
  | Trust _ trust => 0 <= trust
  | Prealloc n => 0 <= n /\ next_symkey st + n < 2 ^ 31
  | DelKeys => forall id k, abs_key st id = Some k -> id <= NTP_MAXKEY ->
      has (ak_flags k) KEY_TRUSTED = false
  | _ => True
  end.

(** The shape every case of the refinement has. *)
Definition refines (r : option auth_state) (m : Z -> option akey) : Prop :=
  exists st', r = Some st' /\ auth_inv st' /\ forall id, abs_key st' id = m id.

Lemma havekey_refines id st :
  auth_inv st -> refines (Some (authhavekey id st).2) (abs_key st).
Proof.
  intros Hi. eexists. split; [reflexivity |]. unfold authhavekey.
  repeat (case_match; cbn [snd]); apply auth_same; done.
Qed.

Lemma istrusted_refines id st :
  auth_inv st -> refines (Some (authistrusted id st).2) (abs_key st).
Proof.
  intros Hi. eexists. split; [reflexivity |]. unfold authistrusted.
  repeat (case_match; cbn [snd]); apply auth_same; done.
Qed.

Lemma flush_same id st :
  auth_inv st -> auth_inv (flush_cache id st) /\ forall i, abs_key (flush_cache id st) i = abs_key st i.
Proof. intros Hi. unfold flush_cache. case_match; apply auth_same; done. Qed.

Lemma flush_fields id st :
  symkeys (flush_cache id st) = symkeys st /\ key_list (flush_cache id st) = key_list st /\
  key_hash (flush_cache id st) = key_hash st /\ authhashmask (flush_cache id st) = authhashmask st.
Proof. unfold flush_cache. now case_match. Qed.

Lemma put_key_links p k st :
  links_ok st -> sk_keyid k = sk_keyid (key_at st p) -> links_ok (put_key p k st).
Proof.
  intros Hl E. apply (links_ok_ext st); try done.
  intros q _. rewrite key_at_put. case_decide; now subst.
Qed.

Lemma put_key_updated p k st :
  auth_inv st -> p ∈ key_list st -> sk_keyid k = sk_keyid (key_at st p) ->
  sk_secret k = sk_secret (key_at st p) -> sk_secretsize k = sk_secretsize (key_at st p) ->
  updated st (put_key p k st) p k.
Proof.
  intros [Hl Hs] Hp E1 E2 E3. split; try done.
  - now apply put_key_links.
  - rewrite key_at_put. now case_decide.
  - unfold owns. rewrite E2, E3. now apply (sc_owns _ Hs).
  - intros q Hq. rewrite key_at_put. now rewrite decide_False by auto.
Qed.

Lemma trust_refines now id trust st :
  auth_inv st -> op_safe (Trust id trust) st ->
  refines (authtrust now id trust st) (spec_op now (Trust id trust) (abs_key st)).
Proof.
  intros Hi [Hroom Ht]. cbn in Ht. unfold authtrust, spec_op. set (life := if 1 <? trust then _ else _).
  destruct (auth_findkey id st) as [p|] eqn:E.
  - apply findkey_Some in E as [Hp Hid]; [| apply Hi].
    destruct (flush_same id st Hi) as [Hi' Habs], (flush_fields id st) as (E1 & E2 & E3 & E4).
    assert (Hk : forall q, key_at (flush_cache id st) q = key_at st q)
      by (intros; unfold key_at; now rewrite E1).
    rewrite <- E2 in Hp. destruct (Z.ltb_spec 0 trust) as [Hpos | Hz].
    + rewrite Hk. set (k := (key_at st p) <| sk_flags := _ |> <| sk_lifetime := life |>).
      assert (U : updated (flush_cache id st) (put_key p k (flush_cache id st)) p k)
        by (apply put_key_updated; auto; now rewrite Hk).
      eexists. split; [reflexivity |]. split; [exact (updated_inv _ _ _ _ Hi' Hp U) |].
      intros i. rewrite (updated_abs _ _ _ _ Hi' Hp U), Habs. cbn [sk_keyid setter k]. rewrite Hid.
      destruct (Z.eqb_spec i id) as [-> |]; cbn [negb]; [| done].
      destruct (Z.eqb_spec trust 0); [lia |]. rewrite <- Hid, <- Habs, <- Hk, abs_key_live, Hk
        by (auto; apply Hi'). unfold akey_of. f_equal. f_equal. unfold secret_bytes. cbn.
      now rewrite Hid.
    + assert (trust = 0) as -> by lia.
      destruct (freesymkey_removed (flush_cache id st) p Hi' Hp) as (st' & Hf & Hr).
      assert (key_hash_of (flush_cache id st) p = KEYHASH st id) as Eh
        by (unfold key_hash_of, KEYHASH; now rewrite Hk, Hid, E4).
      rewrite Eh in Hf. exists st'. split; [done |]. split; [exact (removed_inv _ _ _ Hi' Hp Hr) |].
      intros i. rewrite (removed_abs _ _ _ Hi' Hp Hr), Hk, Hid, Habs.
      now destruct (i =? id).
  - rewrite findkey_None in E by apply Hi. destruct (Z.eqb_spec trust 0) as [-> | Hne].
    + exists st. split; [done |]. split; [done |]. intros i.
      destruct (Z.eqb_spec i id) as [-> |]; cbn; [| done]. now apply abs_key_absent; [apply Hi |].
    + destruct (allocsymkey_added st id KEY_TRUSTED 0 life 0 0 (proj1 Hi) Hroom E)
        as (p & st' & Ha & Hadd).
      exists st'. split; [done |]. split; [eapply added_inv; eauto; now left |].
      intros i. rewrite (added_abs _ _ _ _ Hi Hadd). cbn [sk_keyid].
      destruct (Z.eqb_spec i id) as [-> |]; cbn [negb]; [| done].
      rewrite (abs_key_absent st id) by (done || apply Hi). done.
Qed.

(** Storing bytes in the block a key owns. *)
Lemma copy_updated p k key len st :
  auth_inv st -> p ∈ key_list st -> sk_keyid k = sk_keyid (key_at st p) ->
  sk_secret k = sk_secret (key_at st p) -> sk_secretsize k = len ->
  0 <= len <= Z.of_nat (length key) ->
  (len = 0 \/ exists b, secrets st !! sk_secret (key_at st p) = Some b /\
                        len <= Z.of_nat (length b)) ->
  exists st', copy_secret (sk_secret (key_at st p)) key len (put_key p k st) = Some st' /\
    updated st st' p k /\ secret_bytes st' k = take (Z.to_nat len) key.
Proof.
  intros [Hl Hs] Hp E1 E2 E3 Hlen Hcap.
  pose proof (put_key_links p k st Hl E1) as Hl'. unfold copy_secret.
  destruct (Z.eqb_spec len 0) as [-> | Hne].
  - eexists. split; [reflexivity |]. split; [split; try done | unfold secret_bytes; now rewrite E3].
    + rewrite key_at_put. now case_decide.
    + unfold owns. rewrite E2, E3. destruct (sc_owns _ Hs p Hp) as [[? ?] | [? (b & ? & ?)]];
        [left; auto | right; split; [done |]; exists b; split; [done | lia]].
    + intros q Hq. rewrite key_at_put. now rewrite decide_False by auto.
  - destruct Hcap as [-> | (b & Hb & Hsz)]; [done |].
    change (secrets (put_key p k st)) with (secrets st). rewrite Hb.
    destruct (Z.leb_spec len (Z.of_nat (length b))), (Z.leb_spec len (Z.of_nat (length key)));
      try lia. cbn [andb]. eexists. split; [reflexivity |].
    set (blk := take _ key ++ drop _ b).
    assert (Hblk : Z.of_nat (length blk) = Z.of_nat (length b)).
    { unfold blk. rewrite length_app, length_take, length_drop. lia. }
    assert (Hn : forall st', secrets st' = <[sk_secret (key_at st p) := blk]> (secrets st) ->
              secrets st' !! sk_secret k = Some blk).
    { intros st' ->. rewrite E2. apply lookup_insert_eq. }
    split; [split; try done |].
    + now apply (links_ok_ext (put_key p k st)).
    + etransitivity; [exact (key_at_put st p p k) |]. now case_decide.
    + right. destruct (sc_owns _ Hs p Hp) as [[Ez _] | [Hr _]].
      * rewrite Ez, (sc_null _ Hs) in Hb. done.
      * rewrite E2. split; [done |]. exists blk. split; [apply lookup_insert_eq | lia].
    + intros q Hq. etransitivity; [exact (key_at_put st p q k) |]. now rewrite decide_False by auto.
    + intros a Ha. cbn. rewrite lookup_insert_ne; [done |]. rewrite <- E2. intros E.
      destruct Ha as [-> |]; [| congruence]. now rewrite <- E2, E, (sc_null _ Hs) in Hb.
    + unfold secret_bytes. erewrite Hn by reflexivity. rewrite E3. cbn. unfold blk.
      rewrite take_app_le by (rewrite length_take; lia). now rewrite take_take, Nat.min_id.
Qed.

(** A fresh secret block is invisible to the keys in place. *)
Lemma new_secret_same b st :
  auth_inv st ->
  let st1 := st <| next_secret := next_secret st + 1 |>
                <| secrets := <[next_secret st := b]> (secrets st) |> in
  auth_inv st1 /\ forall id, abs_key st1 id = abs_key st id.
Proof.
  intros [Hl [So Sn S0 Si]] st1.
  assert (Hl1 : links_ok st1) by now apply (links_ok_ext st).
  assert (Hsec : forall p, p ∈ key_list st -> secrets st1 !! sk_secret (key_at st p)
                                              = secrets st !! sk_secret (key_at st p)).
  { intros p Hp. unfold st1; cbn. apply lookup_insert_ne.
    destruct (So p Hp) as [[E _] | [? _]]; lia. }
  split; [split; [done |]; split |].
  - intros p Hp. change (key_at st1 p) with (key_at st p).
    destruct (So p Hp) as [? | [Hr (c & ? & ?)]]; [now left | right].
    split; [unfold st1; cbn; lia |]. exists c. now rewrite Hsec.
  - unfold st1; cbn; lia.
  - unfold st1; cbn. rewrite lookup_insert_ne; [done | lia].
  - apply Si.
  - intros id. destruct (id_cases st id Hl) as [(q & Hq & <-) | Hnone].
    + rewrite (abs_key_live st), <- (akey_of_same st st1) by auto. now apply (abs_key_live st1).
    + rewrite !abs_key_absent; auto.
Qed.

Lemma setkey_refines now keyno keytype key len st :
  auth_inv st -> op_safe (SetKey keyno keytype key len) st ->
  refines (MD5auth_setkey keyno keytype key len st)
          (spec_op now (SetKey keyno keytype key len) (abs_key st)).
Proof.
  intros Hi (Hroom & Hlen & H16 & Hcap). unfold MD5auth_setkey, spec_op.
  rewrite Z.max_r, (u16_small len) by (unfold_ranges; lia).
  destruct (auth_findkey keyno st) as [p|] eqn:E.
  - specialize (Hcap p eq_refl). apply findkey_Some in E as [Hp Hid]; [| apply Hi].
    set (k := (key_at st p) <| sk_type := u16 keytype |> <| sk_secretsize := len |>).
    destruct (copy_updated p k key len st) as (st' & Hc & U & Hb); auto.
    rewrite Hc. cbn [mbind option_bind]. pose proof (updated_inv _ _ _ _ Hi Hp U) as Hi'.
    destruct (flush_same keyno st' Hi') as [Hi'' Habs].
    eexists. split; [reflexivity |]. split; [done |]. intros id.
    rewrite Habs, (updated_abs _ _ _ _ Hi Hp U). change (sk_keyid k) with (sk_keyid (key_at st p)).
    rewrite Hid. destruct (Z.eqb_spec id keyno) as [-> |]; [| done].
    rewrite <- Hid, abs_key_live by (done || apply Hi). unfold akey_of. rewrite Hb. done.
  - rewrite findkey_None in E by apply Hi. destruct (Z.leb_spec len (Z.of_nat (length key))); [| lia].
    destruct (new_secret_same (take (Z.to_nat len) key) st Hi) as [Hi1 Habs1].
    set (st1 := st <| next_secret := _ |> <| secrets := _ |>) in *.
    destruct (allocsymkey_added st1 keyno 0 (u16 keytype) 0 len (next_secret st)
                (proj1 Hi1) Hroom E) as (p & st' & Ha & Hadd).
    exists st'. split; [exact Ha |].
    assert (Hblk : secrets st1 !! next_secret st = Some (take (Z.to_nat len) key))
      by apply lookup_insert_eq.
    pose proof (sc_next _ (proj2 Hi)) as Hnx.
    split.
    + apply (added_inv _ _ _ _ Hi1 Hadd); cbn [sk_secret].
      * right. cbn. split; [lia |]. eexists. split; [apply lookup_insert_eq |].
        rewrite length_take. lia.
      * intros q Hq Eq. destruct (sc_owns _ (proj2 Hi) q Hq) as [[? _] | [? _]];
          change (key_at st1 q) with (key_at st q) in Eq; lia.
    + intros id. rewrite (added_abs _ _ _ _ Hi1 Hadd), Habs1. cbn [sk_keyid].
      destruct (Z.eqb_spec id keyno) as [-> |]; [| done].
      rewrite (abs_key_absent st keyno) by (done || apply Hi).
      unfold akey_of, secret_bytes. cbn. rewrite (ad_secrets _ _ _ _ Hadd), Hblk. cbn.
      now rewrite take_take, Nat.min_id.
Qed.

(** ** Removing keys in bulk *)

(** [st'] is [st] after a visit of the live key [p] that removes it when
    its identifier and lifetime say so. *)
Record visited (gone : Z -> Z -> bool) (st st' : auth_state) (p : Z) : Prop := {
  vs_inv : auth_inv st';
  vs_cache : cache_of st' = cache_of st;
  vs_sub : forall q, q ∈ key_list st' -> q ∈ key_list st;
  vs_live : forall q, q ∈ key_list st ->
    q <> p \/ gone (sk_keyid (key_at st q)) (sk_lifetime (key_at st q)) = false ->
    q ∈ key_list st' /\ key_at st' q = key_at st q;
  vs_abs : forall id, abs_key st' id =
    if id =? sk_keyid (key_at st p)
    then k ← abs_key st id; if gone id (ak_lifetime k) then None else Some k
    else abs_key st id }.

Section Drop.
Context (gone : Z -> Z -> bool).

Lemma visited_removed st st' st'' p :
  auth_inv st -> p ∈ key_list st -> removed st st' p ->
  gone (sk_keyid (key_at st p)) (sk_lifetime (key_at st p)) = true ->
  auth_inv st'' /\ (forall id, abs_key st'' id = abs_key st' id) ->
  cache_of st'' = cache_of st' -> key_list st'' = key_list st' -> symkeys st'' = symkeys st' ->
  visited gone st st'' p.
Proof.
  intros Hi Hp Hr Hg [Hi'' Ha] Ec El Ek.
  assert (Hk : forall q, key_at st'' q = key_at st' q) by (intros; unfold key_at; now rewrite Ek).
  split; [done | now rewrite Ec, (rm_cache _ _ _ Hr) | | |].
  - intros q. rewrite El. intros Hq. now apply (removed_live _ _ _ Hi Hr) in Hq as [? ?].
  - intros q Hq Hc. assert (q <> p) as Hne by (intros ->; destruct Hc; congruence).
    rewrite El, Hk, (rm_other _ _ _ Hr) by done. split; [| done]. now apply (removed_live _ _ _ Hi Hr).
  - intros id. rewrite Ha, (removed_abs _ _ _ Hi Hp Hr).
    destruct (Z.eqb_spec id (sk_keyid (key_at st p))) as [-> |]; [| done].
    rewrite abs_key_live by (done || apply Hi). cbn. now rewrite Hg.
Qed.

Lemma visited_kept st p :
  auth_inv st -> p ∈ key_list st ->
  gone (sk_keyid (key_at st p)) (sk_lifetime (key_at st p)) = false -> visited gone st st p.
Proof.
  intros Hi Hp Hg. split; auto. intros id.
  destruct (Z.eqb_spec id (sk_keyid (key_at st p))) as [-> |]; [| done].
  rewrite abs_key_live by (done || apply Hi). cbn. now rewrite Hg.
Qed.

(** [ok] holds of every key the visit may meet, as [DelKeys] requires. *)
Context (body : Z -> auth_state -> option auth_state) (ok : Z -> akey -> Prop).
Hypothesis Hbody : forall st p, auth_inv st -> p ∈ key_list st ->
  ok (sk_keyid (key_at st p)) (akey_of st (key_at st p)) ->
  exists st', body p st = Some st' /\ visited gone st st' p.

Lemma visited_ok st st' p :
  visited gone st st' p -> (forall id k, abs_key st id = Some k -> ok id k) ->
  forall id k, abs_key st' id = Some k -> ok id k.
Proof.
  intros V Ho id k. rewrite (vs_abs _ _ _ _ V). case_match; [| apply Ho].
  destruct (abs_key st id) as [k'|] eqn:E; cbn; [| done]. case_match; [done |].
  intros [= <-]. now apply Ho.
Qed.

Lemma iter_drop l st :
  auth_inv st -> NoDup l -> (forall p, p ∈ l -> p ∈ key_list st) ->
  (forall id k, abs_key st id = Some k -> ok id k) ->
  exists st', iter_keys body l st = Some st' /\ auth_inv st' /\ cache_of st' = cache_of st /\
    (forall q, q ∈ key_list st ->
       gone (sk_keyid (key_at st q)) (sk_lifetime (key_at st q)) = false ->
       q ∈ key_list st' /\ key_at st' q = key_at st q) /\
    forall id, abs_key st' id =
      if bool_decide (Exists (fun p => sk_keyid (key_at st p) = id) l)
      then k ← abs_key st id; if gone id (ak_lifetime k) then None else Some k
      else abs_key st id.
Proof.
  revert st. induction l as [|p l IH]; intros st Hi Hn Hl Ho; cbn [iter_keys].
  { exists st. do 4 (split; [by auto |]). intros id.
    rewrite bool_decide_false; [done | intros H; inversion H]. }
  apply NoDup_cons in Hn as [Hpl Hn].
  assert (Hp : p ∈ key_list st) by (apply Hl; set_solver).
  destruct (Hbody st p Hi Hp) as (st1 & E & V); [apply Ho, abs_key_live; [apply Hi | done] |].
  rewrite E. cbn [mbind option_bind].
  assert (Hlive : forall q, q ∈ l -> q ∈ key_list st1 /\ key_at st1 q = key_at st q).
  { intros q Hq. apply (vs_live _ _ _ _ V); [apply Hl; set_solver | left; set_solver]. }
  destruct (IH st1 (vs_inv _ _ _ _ V) Hn) as (st' & E' & Hi' & Hc' & Hk' & Habs');
    [intros q Hq; now apply Hlive | now apply (visited_ok st st1 p) |].
  exists st'. split; [done |]. split; [done |].
  split; [now rewrite Hc', (vs_cache _ _ _ _ V) |]. split.
  { intros q Hq Hg. destruct (vs_live _ _ _ _ V q Hq (or_intror Hg)) as [Hq1 Ek].
    rewrite <- Ek. apply Hk'; [done | now rewrite Ek]. }
  intros id. rewrite Habs', (vs_abs _ _ _ _ V).
  assert (Hex : Exists (fun q => sk_keyid (key_at st1 q) = id) l <->
                Exists (fun q => sk_keyid (key_at st q) = id) l).
  { rewrite !Exists_exists. split; intros (q & Hq & <-); exists q;
      now rewrite (proj2 (Hlive q Hq)). }
  rewrite (bool_decide_ext _ _ Hex).
  rewrite (bool_decide_ext (Exists _ (p :: l)) _ (Exists_cons _ _ _)).
  destruct (Z.eqb_spec id (sk_keyid (key_at st p))) as [-> | Hne].
  - rewrite (bool_decide_true (_ \/ _)) by auto. case_bool_decide; [| done].
    destruct (abs_key st _) as [k|]; [| done]. cbn.
    destruct (gone _ (ak_lifetime k)) eqn:Ex; [done | cbn; now rewrite Ex].
  - do 2 case_bool_decide; naive_solver.
Qed.

Lemma drop_all st :
  auth_inv st -> (forall id k, abs_key st id = Some k -> ok id k) ->
  exists st', iter_keys body (key_list st) st = Some st' /\ auth_inv st' /\
    cache_of st' = cache_of st /\
    (forall q, q ∈ key_list st ->
       gone (sk_keyid (key_at st q)) (sk_lifetime (key_at st q)) = false ->
       q ∈ key_list st' /\ key_at st' q = key_at st q) /\
    forall id, abs_key st' id = k ← abs_key st id; if gone id (ak_lifetime k) then None else Some k.
Proof.
  intros Hi Ho. destruct (iter_drop (key_list st) st) as (st' & E & Hi' & Hc & Hk & Habs); auto;
    [apply list_nodup, Hi |].
  exists st'. do 4 (split; [done |]). intros id. rewrite Habs.
  case_bool_decide as Hex; [done |]. rewrite abs_key_absent; [done | apply Hi |].
  intros p Hp Hid. apply Hex, Exists_exists. eauto.
Qed.
End Drop.

Lemma age_body now st p :
  auth_inv st -> p ∈ key_list st -> True ->
  exists st', agekey now p st = Some st' /\
    visited (fun _ life => (0 <? life) && (life <? now)) st st' p.
Proof.
  intros Hi Hp _. unfold agekey. destruct (_ && _) eqn:E.
  - destruct (freesymkey_removed st p Hi Hp) as (st1 & Hf & Hr).
    unfold key_hash_of in Hf. rewrite Hf. cbn [mbind option_bind]. eexists. split; [reflexivity |].
    apply (visited_removed _ st st1); try done. apply (auth_same st1); try done.
    exact (removed_inv _ _ _ Hi Hp Hr).
  - exists st. split; [done |]. now apply visited_kept.
Qed.

Lemma del_body st p :
  auth_inv st -> p ∈ key_list st ->
  (sk_keyid (key_at st p) <= NTP_MAXKEY ->
   has (ak_flags (akey_of st (key_at st p))) KEY_TRUSTED = false) ->
  exists st', delkey p st = Some st' /\ visited (fun id _ => id <=? NTP_MAXKEY) st st' p.
Proof.
  intros Hi Hp Hu. unfold delkey.
  destruct (Z.ltb_spec NTP_MAXKEY (sk_keyid (key_at st p))) as [Hlt | Hle].
  - exists st. split; [done |]. apply visited_kept; [done | done | now apply Z.leb_gt].
  - assert (has (sk_flags (key_at st p)) KEY_TRUSTED = false) as -> by now apply Hu.
    destruct (freesymkey_removed st p Hi Hp) as (st1 & Hf & Hr). exists st1. split; [exact Hf |].
    apply (visited_removed _ st st1); try done; [now apply Z.leb_le |].
    split; [exact (removed_inv _ _ _ Hi Hp Hr) | done].
Qed.

Lemma age_refines now st :
  auth_inv st -> refines (auth_agekeys now st) (spec_op now Age (abs_key st)).
Proof.
  intros Hi. destruct (drop_all _ (agekey now) (fun _ _ => True) (age_body now) st Hi)
    as (st' & E & Hi' & _ & _ & Habs); [done |].
  exists st'. split; [exact E |]. split; [done |]. intros id. now rewrite Habs.
Qed.

(** What emptying the store keeps. *)
Lemma delkeys_spec st :
  auth_inv st -> op_safe DelKeys st ->
  exists st', auth_delkeys st = Some st' /\ auth_inv st' /\ cache_of st' = cache_of st /\
    (forall q, q ∈ key_list st -> NTP_MAXKEY < sk_keyid (key_at st q) ->
       q ∈ key_list st' /\ key_at st' q = key_at st q) /\
    forall id, abs_key st' id = if id <=? NTP_MAXKEY then None else abs_key st id.
Proof.
  intros Hi [_ Hs]. destruct (drop_all _ delkey (fun id k => id <= NTP_MAXKEY -> has (ak_flags k) KEY_TRUSTED = false)
      del_body st Hi Hs)
    as (st' & E & Hi' & Hc & Hk & Habs).
  exists st'. split; [exact E |]. split; [done |]. split; [done |]. split.
  - intros q Hq Hlt. apply Hk; [done | now apply Z.leb_gt].
  - intros id. rewrite Habs. destruct (abs_key st id); cbn; now destruct (id <=? NTP_MAXKEY).
Qed.

Lemma delkeys_refines now st :
  auth_inv st -> op_safe DelKeys st ->
  refines (auth_delkeys st) (spec_op now DelKeys (abs_key st)).
Proof. intros Hi Hs. destruct (delkeys_spec st Hi Hs) as (st' & ? & ? & _ & _ & ?). now exists st'. Qed.

(** ** Resizing *)

Lemma resize_same log10 st :
  auth_inv st ->
  auth_inv (auth_resize_hashtable log10 st) /\
  forall id, abs_key (auth_resize_hashtable log10 st) id = abs_key st id.
Proof.
  intros [Hl Hs]. set (st' := auth_resize_hashtable log10 st).
  assert (Hk : forall p, key_at st' p = key_at st p) by done.
  assert (Hl' : links_ok st').
  { destruct Hl. split; try done. apply (indexed_rebuild (key_hash_of st')).
    now apply NoDup_app in lk_nodup0. }
  split; [split; [done | now destruct Hs] |]. intros id.
  destruct (id_cases st id Hl) as [(q & Hq & <-) | Hnone].
  - rewrite (abs_key_live st) by done. now apply (abs_key_live st').
  - rewrite !abs_key_absent; auto.
Qed.

Lemma moremem_same n st :
  auth_inv st -> next_symkey st + (if 0 <? n then n else MEMINC) < 2 ^ 31 ->
  auth_inv (auth_moremem n st) /\ forall id, abs_key (auth_moremem n st) id = abs_key st id.
Proof.
  intros [Hl Hs] Hb. pose proof (moremem_links st n Hl Hb) as Hl'.
  assert (Hk : forall p, p ∈ key_list st -> key_at (auth_moremem n st) p = key_at st p).
  { intros p Hp. apply moremem_key_at. apply Hl. set_solver. }
  destruct Hs as [So Sn S0 Si]. split; [split; [done |]; split |].
  - intros p Hp. rewrite Hk by done. apply (So p Hp).
  - done.
  - done.
  - intros p q Hp Hq. rewrite !Hk by done. auto.
  - intros id. destruct (id_cases st id Hl) as [(q & Hq & <-) | Hnone].
    + rewrite (abs_key_live st), <- (Hk q Hq), abs_key_live by done. done.
    + rewrite !abs_key_absent; auto. intros q Hq. rewrite Hk by done. auto.
Qed.

Lemma prealloc_refines log10 n st :
  auth_inv st -> op_safe (Prealloc n) st ->
  refines (Some (auth_prealloc_symkeys log10 n st)) (abs_key st).
Proof.
  intros Hi (Hroom & Hlow & Hn). eexists. split; [reflexivity |]. unfold auth_prealloc_symkeys.
  set (st1 := if 0 <? _ then _ else st).
  assert (H1 : auth_inv st1 /\ forall id, abs_key st1 id = abs_key st id).
  { unfold st1. destruct (Z.ltb_spec 0 (s32 (n - s32 (u64 (authnumkeys st + authnumfreekeys st)))))
      as [Hlt |]; [| done].
    destruct Hi as [Hl Hs]. pose proof (lk_total _ Hl) as Ht. rewrite length_app in Ht.
    pose proof (lk_bound _ Hl). unfold MEMINC in *.
    assert (E : s32 (u64 (authnumkeys st + authnumfreekeys st)) = next_symkey st - 1).
    { rewrite (lk_free _ Hl), (lk_keys _ Hl). unfold u64, wrap. rewrite Z.mod_small by lia.
      rewrite s32_small; [| unfold_ranges]; lia. }
    rewrite E, s32_small in Hlt |- * by (unfold_ranges; lia).
    apply moremem_same; [done |]. destruct (Z.ltb_spec 0 (n - (next_symkey st - 1))); lia. }
  destruct (resize_same log10 st1 (proj1 H1)) as [Hi2 Ha2].
  split; [exact Hi2 |]. intros id. rewrite Ha2. apply H1.
Qed.

(** ** The theorems *)

Lemma auth_inv_init : auth_inv (init_auth auth_zero).
Proof.
  split; split; cbn; try done; try lia; try set_solver; [apply NoDup_nil_2 | apply indexed_empty].
Qed.

(** The cache agrees with the live key it names. *)
Definition cache_ok (st : auth_state) : Prop :=
  cache_keyid st = 0 \/
  exists p, p ∈ key_list st /\ cache_of st =
    (sk_keyid (key_at st p), sk_type (key_at st p), sk_flags (key_at st p),
     sk_secret (key_at st p), sk_secretsize (key_at st p)) /\
    sk_type (key_at st p) <> 0 /\ has (sk_flags (key_at st p)) KEY_TRUSTED = true.

Definition usable (k : akey) : bool := nonzero (ak_type k) && has (ak_flags k) KEY_TRUSTED.

(** A cached live key reads as the secret of the map. *)
Lemma read_cached st p :
  auth_inv st -> p ∈ key_list st ->
  cache_secret st = sk_secret (key_at st p) -> cache_secretsize st = sk_secretsize (key_at st p) ->
  read_cached_secret st = Some (secret_bytes st (key_at st p)).
Proof.
  intros [_ Hs] Hp E1 E2. unfold read_cached_secret, secret_bytes. rewrite E1, E2.
  destruct (sc_owns _ Hs p Hp) as [[E3 E4] | [Hr (b & Hb & Hsz)]]; [now rewrite E4 |].
  rewrite Hb. destruct (Z.eqb_spec (sk_secretsize (key_at st p)) 0) as [-> |]; [done |].
  destruct (Z.leb_spec (sk_secretsize (key_at st p)) (Z.of_nat (length b))); [done | lia].
Qed.

Lemma havekey_spec st id :
  auth_inv st -> cache_ok st -> id <> 0 ->
  match abs_key st id with
  | Some k => (authhavekey id st).1 = usable k /\
      (usable k = true -> read_cached_secret (authhavekey id st).2 = Some (ak_secret k))
  | None => (authhavekey id st).1 = false
  end /\ cache_ok (authhavekey id st).2.
Proof.
  intros Hi Hc H0. pose proof Hi as [Hl _]. unfold authhavekey.
  destruct (Z.eqb_spec 0 id) as [<- |]; [done |]. cbn [orb cache_keyid setter].
  destruct (Z.eqb_spec (cache_keyid st) id) as [E | E].
  - destruct Hc as [? | (p & Hp & [= E1 E2 E3 E4 E5] & Ht & Hf)]; [congruence |].
    rewrite <- E, E1, abs_key_live by done. unfold usable; cbn. rewrite Hf.
    assert (nonzero (sk_type (key_at st p)) = true) as -> by now apply negb_true_iff, Z.eqb_neq.
    split; [split; [done | intros _] | right; exists p; split; [done |]; split; [| done]].
    + etransitivity; [now apply (read_cached st p) | done].
    + unfold cache_of in *. cbn. now rewrite E1, E2, E3, E4, E5.
  - set (st1 := st <| authkeylookups := _ |> <| authkeyuncached := _ |>).
    change (auth_findkey id st1) with (auth_findkey id st).
    destruct (auth_findkey id st) as [p|] eqn:Ef.
    + apply findkey_Some in Ef as [Hp <-]; [| done]. rewrite abs_key_live by done.
      change (key_at st1 p) with (key_at st p). unfold usable, nonzero. cbn [akey_of ak_type ak_flags].
      rewrite (Z.eqb_sym 0). destruct (Z.eqb_spec (sk_type (key_at st p)) 0); [done |].
      destruct (has (sk_flags (key_at st p)) KEY_TRUSTED) eqn:Hf; [| done].
      split; [split; [done | intros _] | right; exists p; done].
      cbn [snd]. set (st2 := st1 <| cache_keyid := _ |> <| cache_type := _ |> <| cache_flags := _ |>
        <| cache_secret := _ |> <| cache_secretsize := _ |>).
      assert (Hi2 : auth_inv st2) by now apply (auth_same st).
      etransitivity; [now apply (read_cached st2 p) | done].
    + rewrite (abs_key_absent st id); [done | done | now apply findkey_None].
Qed.

(** ** The answers, and the cache through the operations *)

Definition answer_op (op : auth_op) (st : auth_state) : option bool :=
  match op with
  | Have id => Some (authhavekey id st).1
  | IsTrusted id => Some (authistrusted id st).1
  | Known id => Some (auth_havekey id st)
  | _ => None
  end.

Definition spec_answer (op : auth_op) (m : Z -> option akey) : option bool :=
  match op with
  | Have id => Some ((id =? 0) || match m id with Some k => usable k | None => false end)
  | IsTrusted id => Some match m id with Some k => has (ak_flags k) KEY_TRUSTED | None => false end
  | Known id => Some ((id =? 0) || bool_decide (is_Some (m id)))
  | _ => None
  end.

Lemma cached_key st :
  auth_inv st -> cache_ok st -> cache_keyid st <> 0 ->
  exists k, abs_key st (cache_keyid st) = Some k /\ cache_flags st = ak_flags k /\
    has (ak_flags k) KEY_TRUSTED = true.
Proof.
  intros Hi [? | (p & Hp & E & _ & Hf)] H0; [done |]. unfold cache_of in E.
  injection E as E1 E2 E3 E4 E5. rewrite E1, E3. exists (akey_of st (key_at st p)).
  split; [| done]. apply abs_key_live; [apply Hi | done].
Qed.

Lemma answers_correct op st :
  auth_inv st -> cache_ok st -> op <> IsTrusted 0 ->
  answer_op op st = spec_answer op (abs_key st).
Proof.
  intros Hi Hc Hop. destruct op as [| | id | id | id | | |]; try done; cbn [answer_op spec_answer]; f_equal.
  - destruct (Z.eqb_spec id 0) as [-> |]; [done |]. cbn [orb].
    destruct (havekey_spec st id Hi Hc) as [H _]; [done |].
    destruct (abs_key st id); [apply H | done].
  - assert (H0 : id <> 0) by congruence. unfold authistrusted.
    destruct (Z.eqb_spec id (cache_keyid st)) as [-> | Hne].
    + destruct (cached_key st Hi Hc H0) as (k & -> & -> & _). done.
    + change (auth_findkey id (st <| authkeyuncached := _ |>)) with (auth_findkey id st).
      unfold abs_key. destruct (auth_findkey id st) as [p|]; [| done]. cbn.
      change (key_at (st <| authkeyuncached := _ |>) p) with (key_at st p). now destruct (has _ _).
  - unfold auth_havekey. rewrite (Z.eqb_sym 0). destruct (Z.eqb_spec id 0) as [-> | H0]; [done |].
    cbn [orb]. destruct (Z.eqb_spec (cache_keyid st) id) as [<- | Hne].
    + destruct (cached_key st Hi Hc H0) as (k & -> & _). done.
    + unfold abs_key. now destruct (auth_findkey id st).
Qed.

(** The cache stays good while the key it names stays as it is. *)
Lemma cache_carried st st' :
  cache_ok st -> cache_of st' = cache_of st ->
  (forall p, p ∈ key_list st -> sk_keyid (key_at st p) = cache_keyid st ->
     has (sk_flags (key_at st p)) KEY_TRUSTED = true ->
     p ∈ key_list st' /\ key_at st' p = key_at st p) ->
  cache_ok st'.
Proof.
  intros [H0 | (p & Hp & E & Ht & Hf)] Ec Hk.
  - left. unfold cache_of in Ec. congruence.
  - destruct (Hk p Hp) as [Hp' Ek]; [unfold cache_of in E; congruence | done |].
    right. exists p. rewrite Ek, Ec. auto.
Qed.

Lemma flush_ok id st : cache_ok st -> cache_ok (flush_cache id st) /\
  (id <> 0 -> cache_keyid (flush_cache id st) <> id).
Proof.
  intros Hc. unfold flush_cache. destruct (Z.eqb_spec (cache_keyid st) id) as [E |]; [| done].
  split; [now left | cbn; auto].
Qed.

Lemma trust_cache now id trust st st' :
  auth_inv st -> op_safe (Trust id trust) st -> cache_ok st ->
  authtrust now id trust st = Some st' -> cache_ok st'.
Proof.
  intros Hi [Hroom Ht] Hc. unfold authtrust. destruct (auth_findkey id st) as [p|] eqn:E.
  - apply findkey_Some in E as [Hp Hid]; [| apply Hi].
    destruct (flush_same id st Hi) as [Hi' _], (flush_fields id st) as (E1 & E2 & E3 & E4).
    destruct (flush_ok id st Hc) as [Hc' Hn]. set (s1 := flush_cache id st) in *.
    assert (Hk : forall q, key_at s1 q = key_at st q) by (intros; unfold key_at; now rewrite E1).
    assert (Hne : forall q, q ∈ key_list s1 -> sk_keyid (key_at s1 q) = cache_keyid s1 ->
              cache_keyid s1 <> 0 -> q <> p).
    { intros q _ Eq Hz ->. rewrite Hk, Hid in Eq. destruct (decide (id = 0)); [congruence |].
      now apply Hn. }
    rewrite <- E2 in Hp.
    destruct (decide (cache_keyid s1 = 0)) as [Hz | Hz].
    { case_match; [intros [= <-]; now left |]. intros Ef.
      destruct (freesymkey_removed s1 p Hi' Hp) as (s2 & Hf & Hr).
      assert (key_hash_of s1 p = KEYHASH st id) as Eh
        by (unfold key_hash_of, KEYHASH; now rewrite Hk, Hid, E4).
      rewrite Eh, Ef in Hf. injection Hf as <-. left. pose proof (rm_cache _ _ _ Hr) as Ec.
      unfold cache_of in Ec. congruence. }
    case_match.
    + intros [= <-]. apply (cache_carried s1); [done | done |]. intros q Hq Eq _. split; [done |].
      rewrite key_at_put, decide_False; [done |]. intros <-. now apply (Hne p).
    + intros Ef. destruct (freesymkey_removed s1 p Hi' Hp) as (s2 & Hf & Hr).
      assert (key_hash_of s1 p = KEYHASH st id) as Eh
        by (unfold key_hash_of, KEYHASH; now rewrite Hk, Hid, E4).
      rewrite Eh, Ef in Hf. injection Hf as <-.
      apply (cache_carried s1); [done | apply Hr |]. intros q Hq Eq _.
      pose proof (Hne q Hq Eq Hz). split; [now apply (removed_live _ _ _ Hi' Hr) |].
      now apply (rm_other _ _ _ Hr).
  - rewrite findkey_None in E by apply Hi. case_match; [now intros [= <-] |].
    set (life := if 1 <? trust then _ else _). intros Ea.
    destruct (allocsymkey_added st id KEY_TRUSTED 0 life 0 0 (proj1 Hi) Hroom E)
      as (p & s2 & Ha & Hadd). rewrite Ea in Ha. injection Ha as <-.
    apply (cache_carried st); [done | apply Hadd |]. intros q Hq _ _.
    split; [apply (added_live _ _ _ _ Hadd); auto | now apply (ad_other _ _ _ _ Hadd)].
Qed.

Lemma setkey_cache keyno keytype key len st st' :
  auth_inv st -> op_safe (SetKey keyno keytype key len) st -> cache_ok st ->
  MD5auth_setkey keyno keytype key len st = Some st' -> cache_ok st'.
Proof.
  intros Hi (Hroom & Hlen & H16 & Hcap) Hc. unfold MD5auth_setkey.
  rewrite Z.max_r, (u16_small len) by (unfold_ranges; lia).
  destruct (auth_findkey keyno st) as [p|] eqn:E.
  - specialize (Hcap p eq_refl). apply findkey_Some in E as [Hp Hid]; [| apply Hi].
    set (k := (key_at st p) <| sk_type := u16 keytype |> <| sk_secretsize := len |>).
    destruct (copy_updated p k key len st) as (s1 & Hcp & U & _); auto.
    rewrite Hcp. cbn [mbind option_bind]. intros [= <-].
    assert (Ec : cache_of s1 = cache_of st).
    { unfold copy_secret in Hcp. repeat case_match; try done; now injection Hcp as <-. }
    unfold flush_cache. destruct (Z.eqb_spec (cache_keyid s1) keyno) as [Ek | Ek]; [now left |].
    apply (cache_carried st); [done | done |]. intros q Hq Eq _.
    rewrite (up_list _ _ _ _ U). split; [done |]. apply (up_other _ _ _ _ U). intros ->.
    apply Ek. unfold cache_of in Ec. congruence.
  - rewrite findkey_None in E by apply Hi. destruct (Z.leb_spec len (Z.of_nat (length key))); [| lia].
    destruct (new_secret_same (take (Z.to_nat len) key) st Hi) as [Hi1 _].
    set (st1 := st <| next_secret := _ |> <| secrets := _ |>) in *. intros Ea.
    destruct (allocsymkey_added st1 keyno 0 (u16 keytype) 0 len (next_secret st)
                (proj1 Hi1) Hroom E) as (p & s2 & Ha & Hadd).
    assert (Some st' = Some s2) as [= ->] by (rewrite <- Ea; exact Ha).
    apply (cache_carried st); [done | exact (ad_cache _ _ _ _ Hadd) |]. intros q Hq _ _.
    split; [apply (added_live _ _ _ _ Hadd); auto | now apply (ad_other _ _ _ _ Hadd)].
Qed.

Lemma havekey_cache id st : auth_inv st -> cache_ok st -> cache_ok (authhavekey id st).2.
Proof.
  intros Hi Hc. destruct (decide (id = 0)) as [-> | H0]; [| now apply havekey_spec].
  now apply (cache_carried st).
Qed.

Lemma prealloc_cache log10 n st :
  auth_inv st -> cache_ok st -> cache_ok (auth_prealloc_symkeys log10 n st).
Proof.
  intros [Hl _] Hc. apply (cache_carried st); [done | |].
  - unfold auth_prealloc_symkeys. now case_match.
  - intros p Hp _ _. unfold auth_prealloc_symkeys. case_match; [| done].
    split; [done |]. apply moremem_key_at, Hl. set_solver.
Qed.

(** No operation but the expiry of keys leaves the cache naming a key
    that is gone or different. *)
Lemma op_keeps_cache log10 now op st st' :
  auth_inv st -> op_safe op st -> cache_ok st -> op <> Age ->
  run_op log10 now op st = Some st' -> cache_ok st'.
Proof.
  intros Hi Hs Hc Ha E. destruct op; cbn [run_op] in E; try done;
    eauto using trust_cache, setkey_cache.
  - injection E as <-. now apply havekey_cache.
  - injection E as <-. apply (cache_carried st); [done | |]; unfold authistrusted;
      repeat case_match; auto.
  - now injection E as <-.
  - destruct (delkeys_spec st Hi Hs) as (s1 & E1 & _ & Ec & Hk & _). rewrite E in E1.
    injection E1 as <-. apply (cache_carried st); [done | done |]. intros q Hq _ Hf.
    apply Hk; [done |]. destruct (Z.ltb_spec NTP_MAXKEY (sk_keyid (key_at st q))) as [|Hle]; [done |].
    destruct Hs as [_ Hs]. specialize (Hs _ _ (abs_key_live st q (proj1 Hi) Hq) Hle).
    cbn in Hs. congruence.
  - injection E as <-. now apply prealloc_cache.
Qed.



(** A non-zero key identifier is accepted for authentication exactly
    when the store holds that key, it has a type and it is trusted; the
    secret the digest routines then read is the secret of that key. *)
Theorem authhavekey_sound_complete (id : Z) (st : auth_state) :
  auth_inv st -> cache_ok st -> id <> 0 ->
  ((authhavekey id st).1 = true <-> exists k, abs_key st id = Some k /\ usable k = true) /\
  (forall k, abs_key st id = Some k -> usable k = true ->
     read_cached_secret (authhavekey id st).2 = Some (ak_secret k)) /\
  cache_ok (authhavekey id st).2.
Proof.
  intros Hi Hc H0. destruct (havekey_spec st id Hi Hc H0) as [H ?].
  destruct (abs_key st id) as [k|] eqn:E.
  - destruct H as [-> Hr]. split; [| naive_solver]. split; [eauto | naive_solver].
  - rewrite H. split; [| naive_solver]. split; [done | naive_solver].
Qed.

(** A store with the trusted key 5, built by the operations. *)
Definition sample_store : auth_state :=
  default auth_zero (MD5auth_setkey 5 1 [7; 8] 2 (init_auth auth_zero) ≫= authtrust 100 5 10).

Lemma sample_store_inv : auth_inv sample_store.
Proof.
  assert (H1 : op_safe (SetKey 5 1 [7; 8] 2) (init_auth auth_zero)).
  { split; [reflexivity |]. split; [cbn; lia |]. split; [reflexivity |].
    intros p E. discriminate E. }
  destruct (setkey_refines 0 5 1 [7; 8] 2 _ auth_inv_init H1) as (st & E & Hi & _).
  unfold sample_store. rewrite E. cbn [mbind option_bind].
  assert (H2 : op_safe (Trust 5 10) st).
  { split; [| cbn; lia]. injection E as <-. reflexivity. }
  destruct (trust_refines 100 5 10 st Hi H2) as (st' & -> & Hi' & _). exact Hi'.
Qed.

Lemma authhavekey_sound_complete_witness :
  ((authhavekey 5 sample_store).1 = true <->
     exists k, abs_key sample_store 5 = Some k /\ usable k = true) /\
  (authhavekey 5 sample_store).1 = true.
Proof.
  split; [| vm_compute; reflexivity].
  apply (authhavekey_sound_complete 5 sample_store sample_store_inv); [left; reflexivity | lia].
Defined.

(** Expiry does not reach the key cache.  In a store built by setting
    and trusting a key with a lifetime and looking it up once, the expiry
    pass removes the key from the map, yet the key is still accepted and
    the cached secret pointer refers to released memory. *)
Theorem auth_agekeys_stale_cache :
  exists st st', st = (authhavekey 5 sample_store).2 /\ auth_agekeys 111 st = Some st' /\
    abs_key st' 5 = None /\ (authhavekey 5 st').1 = true /\ read_cached_secret st' = None.
Proof.
  exists (authhavekey 5 sample_store).2.
  destruct (auth_agekeys 111 (authhavekey 5 sample_store).2) as [st'|] eqn:E;
    [| vm_compute in E; discriminate].
  exists st'. split; [done |]. split; [done |].
  vm_compute in E. injection E as <-. split_and!; vm_compute; reflexivity.
Qed.

(** Rereading the keys file writes through released memory: after
    [auth_delkeys] a trusted key keeps the pointer to the secret that was
    freed, and storing the key again copies into it. *)
Theorem auth_delkeys_then_setkey_unsafe :
  exists st', auth_delkeys sample_store = Some st' /\
    MD5auth_setkey 5 1 [7; 8] 2 st' = None /\ auth_delkeys st' = None.
Proof.
  destruct (auth_delkeys sample_store) as [st'|] eqn:E; [| vm_compute in E; discriminate].
  exists st'. split; [done |]. vm_compute in E. injection E as <-. split; vm_compute; reflexivity.
Qed.

(** ** Message authentication codes *)

Lemma peek_prefix len buf :
  0 <= len <= Z.of_nat (length buf) -> peek 0 len buf = Some (take (Z.to_nat len) buf).
Proof.
  intros H. unfold peek. cbn [Z.leb Z.compare]. rewrite Z.add_0_l.
  rewrite (proj2 (Z.leb_le 0 len)), (proj2 (Z.leb_le len _)) by lia. now rewrite drop_0.
Qed.

Lemma poke_Some off bs buf :
  0 <= off -> off + Z.of_nat (length bs) <= Z.of_nat (length buf) ->
  poke off bs buf = Some (take (Z.to_nat off) buf ++ bs ++ drop (Z.to_nat off + length bs) buf).
Proof.
  intros H1 H2. unfold poke.
  now rewrite (proj2 (Z.leb_le 0 off)), (proj2 (Z.leb_le _ (Z.of_nat (length buf)))) by lia.
Qed.

(** Reading back what was written, and what lies before it. *)
Lemma peek_poke off bs buf buf' :
  0 <= off -> poke off bs buf = Some buf' ->
  length buf' = length buf /\ peek off (Z.of_nat (length bs)) buf' = Some bs /\
  forall n, 0 <= n <= off -> take (Z.to_nat n) buf' = take (Z.to_nat n) buf.
Proof.
  intros H0 E. unfold poke in E. case_match eqn:Ec; [| done].
  apply andb_true_iff in Ec as [_ Ec]. apply Z.leb_le in Ec. injection E as <-.
  assert (Hl : length (take (Z.to_nat off) buf) = Z.to_nat off) by (rewrite length_take; lia).
  assert (Hlen : length (take (Z.to_nat off) buf ++ bs ++ drop (Z.to_nat off + length bs) buf)
                 = length buf) by (rewrite !length_app, length_drop, Hl; lia).
  split; [done |]. split.
  - unfold peek. rewrite Hlen.
    rewrite (proj2 (Z.leb_le 0 off)), (proj2 (Z.leb_le 0 _)), (proj2 (Z.leb_le _ _)) by lia.
    cbn [andb]. rewrite drop_app_length' by lia. rewrite Nat2Z.id, take_app_length. done.
  - intros n Hn. rewrite take_app_le by lia. rewrite take_take. f_equal. lia.
Qed.

Section MacFacts.
Context `{DigestLaws}.
Context (id : Z) (k : akey) (Hid : id <> 0) (Hu : usable k = true).

(** The look-up both directions start with. *)
Lemma usable_lookup st :
  auth_inv st -> cache_ok st -> abs_key st id = Some k ->
  exists st', authhavekey id st = (true, st') /\ read_cached_secret st' = Some (ak_secret k) /\
    auth_inv st' /\ cache_ok st' /\ abs_key st' id = Some k.
Proof.
  intros Hi Hc Hk. destruct (havekey_spec st id Hi Hc Hid) as [Hh Hc'].
  destruct (havekey_refines id st Hi) as (st' & E & Hi' & Ha). injection E as E.
  rewrite Hk, Hu in Hh. destruct Hh as [H1 H2]. exists st'.
  destruct (authhavekey id st) as [b s]. cbn in *. subst. rewrite Ha. auto.
Qed.

(** [authdecrypt] compares the stored digest with the digest of the secret and the packet. *)
Lemma authdecrypt_eq pkt len mac st :
  auth_inv st -> cache_ok st -> abs_key st id = Some k ->
  0 <= len -> len + 20 <= Z.of_nat (length pkt) -> peek (len + 4) 16 pkt = Some mac ->
  exists st', authdecrypt id pkt len 20 st =
    Some (bool_decide (md5 (ak_secret k ++ take (Z.to_nat len) pkt) = mac), st').
Proof.
  intros Hi Hc Hk Hlen Hroom Hmac. unfold authdecrypt. set (st0 := st <| authdecryptions := _ |>).
  destruct (auth_same st st0) as [Hi0 Ha0]; try done.
  destruct (usable_lookup st0 Hi0 Hc) as (st1 & -> & Hr & _); [now rewrite Ha0 |].
  rewrite (proj2 (Z.eqb_neq 0 id)) by auto. exists st1. cbn [negb orb].
  change (20 <? 4) with false. unfold MD5authdecrypt. rewrite Hr. cbn [mbind option_bind].
  rewrite peek_prefix by lia. cbn [mbind option_bind]. rewrite md5_length.
  change (Z.of_nat 16) with 16. change (negb (u32 20 =? 16 + 4)) with false.
  cbn [negb]. rewrite Hmac. done.
Qed.

(** [authencrypt] writes the key identifier and the digest after the packet. *)
Lemma authencrypt_eq pkt len st :
  auth_inv st -> cache_ok st -> abs_key st id = Some k ->
  0 <= len -> len mod 4 = 0 -> len + 20 <= Z.of_nat (length pkt) ->
  exists pkt' st', authencrypt id pkt len st = Some (20, pkt', st') /\
    auth_inv st' /\ cache_ok st' /\ abs_key st' id = Some k /\ length pkt' = length pkt /\
    take (Z.to_nat len) pkt' = take (Z.to_nat len) pkt /\
    peek (len + 4) 16 pkt' = Some (md5 (ak_secret k ++ take (Z.to_nat len) pkt)).
Proof.
  intros Hi Hc Hk Hlen H4 Hroom. unfold authencrypt. set (st0 := st <| authencryptions := _ |>).
  destruct (auth_same st st0) as [Hi0 Ha0]; try done.
  destruct (usable_lookup st0 Hi0 Hc) as (st1 & -> & Hr & Hi1 & Hc1 & Hk1); [now rewrite Ha0 |].
  replace (4 * (len /c 4)) with len by (rewrite Z.quot_div_nonneg by lia; divlia).
  destruct (poke len (be32 id) pkt) as [pkt1|] eqn:E1;
    [| rewrite poke_Some in E1 by (change (length (be32 id)) with 4%nat; lia); done].
  destruct (peek_poke len (be32 id) pkt pkt1) as (L1 & _ & T1); [lia | done |].
  rewrite (proj2 (Z.eqb_neq 0 id)) by auto. cbn [negb mbind option_bind].
  unfold MD5authencrypt. rewrite Hr. cbn [mbind option_bind].
  rewrite peek_prefix by lia. cbn [mbind option_bind]. rewrite T1 by lia.
  set (dg := md5 _). assert (Ld : length dg = 16%nat) by apply md5_length.
  destruct (poke (len + 4) dg pkt1) as [pkt2|] eqn:E2;
    [| rewrite poke_Some in E2 by (rewrite ?Ld; lia); done].
  destruct (peek_poke (len + 4) dg pkt1 pkt2) as (L2 & P2 & T2); [lia | done |].
  rewrite Ld in *. exists pkt2, st1. split; [done |].
  rewrite T2, T1, L2 by lia. auto 10.
Qed.
End MacFacts.

(** ** Any key identifier

    Whether or not the store has the key, a MAC is computed or checked
    without leaving the buffers, and the store stays consistent. *)
Section AnyKey.
Context `{DigestLaws}.

Definition auth_fit (st : auth_state) : Prop := auth_inv st /\ cache_ok st.

Lemma havekey_fit id st :
  auth_fit st -> id <> 0 ->
  auth_fit (authhavekey id st).2 /\
  ((authhavekey id st).1 = true -> exists key, read_cached_secret (authhavekey id st).2 = Some key).
Proof.
  intros [Hi Hc] Hne. destruct (havekey_spec st id Hi Hc Hne) as [Hh Hc'].
  destruct (havekey_refines id st Hi) as (st' & E & Hi' & _). injection E as E.
  destruct (authhavekey id st) as [b s]. cbn in *. subst. split; [done |]. intros Hb.
  destruct (abs_key st id) as [k|]; [| congruence]. destruct Hh as [Hh Hr]. exists (ak_secret k). apply Hr. congruence.
Qed.

Lemma authencrypt_fit id pkt len st :
  auth_fit st -> 0 <= len -> len mod 4 = 0 -> len + 20 <= Z.of_nat (length pkt) ->
  exists n pkt' st', authencrypt id pkt len st = Some (n, pkt', st') /\ 0 <= n <= 20 /\ auth_fit st'.
Proof.
  intros [Hi Hc] Hlen H4 Hroom. unfold authencrypt. set (st0 := st <| authencryptions := _ |>).
  assert (Hf0 : auth_fit st0) by (split; [now apply (auth_same st) | done]). clearbody st0. clear Hi Hc.
  replace (4 * (len /c 4)) with len by (rewrite Z.quot_div_nonneg by lia; divlia).
  destruct (poke len (be32 id) pkt) as [pkt1|] eqn:E1;
    [| rewrite poke_Some in E1 by (change (length (be32 id)) with 4%nat; lia); done].
  destruct (peek_poke len (be32 id) pkt pkt1) as (L1 & _ & _); [lia | done |].
  cbn [mbind option_bind]. destruct (Z.eqb_spec 0 id) as [<- | Hid]; [exists 4, pkt1, st0; split; [done | split; [lia | done]] |].
  destruct (havekey_fit id st0 Hf0) as [Hf1 Hr]; [congruence |].
  destruct (authhavekey id st0) as [have st1]. cbn [fst snd] in *.
  destruct have; cbn [negb]; [| exists 0, pkt1, st1; split; [done | split; [lia | done]]].
  destruct Hr as [key Hr]; [done |]. unfold MD5authencrypt. rewrite Hr. cbn [mbind option_bind].
  rewrite peek_prefix by lia. cbn [mbind option_bind]. set (dg := md5 _).
  assert (Ld : length dg = 16%nat) by apply md5_length.
  destruct (poke (len + 4) dg pkt1) as [pkt2|] eqn:E2; [| rewrite poke_Some in E2 by (rewrite ?Ld; lia); done].
  cbn [mbind option_bind]. rewrite Ld. exists 20, pkt2, st1. split; [done |]. split; [lia | done].
Qed.

Lemma authdecrypt_fit id pkt len size st :
  auth_fit st -> 0 <= len -> 0 <= size < 2 ^ 32 -> len + size <= Z.of_nat (length pkt) ->
  exists ok st', authdecrypt id pkt len size st = Some (ok, st') /\ auth_fit st'.
Proof.
  intros [Hi Hc] Hlen Hsz Hroom. unfold authdecrypt. set (st0 := st <| authdecryptions := _ |>).
  assert (Hf0 : auth_fit st0) by (split; [now apply (auth_same st) | done]). clearbody st0. clear Hi Hc.
  destruct (Z.eqb_spec 0 id) as [<- | Hid]; [eauto |].
  destruct (havekey_fit id st0 Hf0) as [Hf1 Hr]; [congruence |].
  destruct (authhavekey id st0) as [have st1]. cbn [fst snd] in *.
  destruct have; cbn [negb orb]; [| eauto]. destruct (size <? 4) eqn:E4; [eauto |]. apply Z.ltb_ge in E4.
  destruct Hr as [key Hr]; [done |]. unfold MD5authdecrypt. rewrite Hr. cbn [mbind option_bind].
  rewrite peek_prefix by lia. cbn [mbind option_bind]. rewrite md5_length.
  destruct (negb _) eqn:E; [eauto |]. apply negb_false_iff, Z.eqb_eq in E. rewrite u32_small in E by done.
  change (Z.of_nat 16) with 16 in *. unfold peek.
  rewrite (proj2 (Z.leb_le 0 (len + 4))), (proj2 (Z.leb_le 0 16)), (proj2 (Z.leb_le (len + 4 + 16) _)) by lia.
  cbn. eauto.
Qed.
End AnyKey.

(** C34: a message authenticated with a usable key verifies, and a message
    whose packet or digest was altered verifies only if the digests agree.
    For a packet of [len] octets, a multiple of four, in a buffer with room
    for the MAC, [authencrypt] returns the MAC length 20 and leaves the
    packet intact; [authdecrypt] of any buffer with that packet length
    accepts exactly when the sixteen octets after the key identifier are
    the digest of the secret followed by the packet, as they are in the
    buffer [authencrypt] produced. *)
Theorem authencrypt_authdecrypt `{DigestLaws} (id : Z) (pkt : list Z) (len : Z) (st : auth_state) (k : akey) :
  auth_inv st -> cache_ok st -> id <> 0 -> abs_key st id = Some k -> usable k = true ->
  0 <= len -> len mod 4 = 0 -> len + 20 <= Z.of_nat (length pkt) ->
  exists pkt' st', authencrypt id pkt len st = Some (20, pkt', st') /\
    take (Z.to_nat len) pkt' = take (Z.to_nat len) pkt /\
    (exists st'', authdecrypt id pkt' len 20 st' = Some (true, st'')) /\
    (forall buf mac, length buf = length pkt -> peek (len + 4) 16 buf = Some mac ->
       exists st'', authdecrypt id buf len 20 st' =
         Some (bool_decide (md5 (ak_secret k ++ take (Z.to_nat len) buf) = mac), st'')).
Proof.
  intros Hi Hc Hid Hk Hu Hlen H4 Hroom.
  destruct (authencrypt_eq id k Hid Hu pkt len st) as (pkt' & st' & E & Hi' & Hc' & Hk' & L & T & P);
    auto.
  exists pkt', st'. split; [done |]. split; [done |]. split.
  - destruct (authdecrypt_eq id k Hid Hu pkt' len _ st' Hi' Hc' Hk' Hlen ltac:(lia) P) as [st'' E'].
    exists st''. rewrite E', T, bool_decide_true by done. done.
  - intros buf mac Lb Hb. eapply authdecrypt_eq; eauto. lia.
Qed.

(** A digest with the length law, for closed instances. *)
Definition sum_digest : Digest := fun m => replicate 16 (fold_right Z.add 0 m mod 256).

Lemma authencrypt_authdecrypt_witness :
  exists pkt' st',
    @authencrypt sum_digest 5 (replicate 68 1) 48 sample_store = Some (20, pkt', st') /\
    exists st'', @authdecrypt sum_digest 5 pkt' 48 20 st' = Some (true, st'').
Proof.
  assert (L : @DigestLaws sum_digest) by (intros m; apply length_replicate).
  destruct (abs_key sample_store 5) as [k|] eqn:E; [| vm_compute in E; discriminate].
  destruct (@authencrypt_authdecrypt sum_digest L 5 (replicate 68 1) 48 sample_store k
           sample_store_inv) as (pkt' & st' & E1 & _ & E2 & _);
    [left; reflexivity | lia | exact E | | lia | reflexivity | cbn; lia | eauto].
  vm_compute in E. injection E as <-. reflexivity.
Defined.
