(* ===== verification/KeyFile.v ===== *)
(** * The key file (libntp/authreadkeys.c)

    Lines of a key identifier, a type and a key, read into the key store.
    The build without OpenSSL: a type that begins with M is MD5.  A file is
    the list of its characters; [None] is an access to memory the store does
    not own. *)

From S2P Require Import Prelude FixedPoint Double NtpTypes Text Lines AuthKeys.
From stdpp Require Import base gmap list.
#[local] Open Scope Z_scope.

Definition KEY_TYPE_MD5 : Z := 4.
Definition KEYSTR_SIZE : nat := 20.
(** The room for characters in [buf]. *)
Definition LINE_ROOM : nat := 511.

Definition blank (c : Z) : bool := (c =? 32) || (c =? 9).
Definition in_token (c : Z) : bool := negb ((c =? 0) || (c =? 10) || blank c || (c =? 35)).

(** [nexttok]: the token and the rest of the line, which ends at anything
    but a blank. *)
Definition nexttok (str : list Z) : option (list Z * list Z) :=
  let cp := skip blank str in
  match span in_token cp with
  | [] => None
  | tok => Some (tok, match skip in_token cp with c :: rest => if blank c then rest else [] | [] => [] end)
  end.

(** The loop over the hexadecimal digits; the last one of an odd number only
    has to be a digit. *)
Fixpoint hex_key (l : list Z) : option (list Z) :=
  match l with
  | [] => Some []
  | [a] => if isxdigit a then Some [] else None
  | a :: b :: l =>
      if isxdigit a && isxdigit b then
        rest ← hex_key l; Some (u8 (Z.shiftl (xdigit_val a) 4) .| xdigit_val b :: rest)
      else None
  end.

(** The key a token stands for. *)
Definition key_of_token (token : list Z) : option (list Z) :=
  if (length token <=? KEYSTR_SIZE)%nat then Some token else hex_key (take (2 * KEYSTR_SIZE) token).

(** A line: the number and the octets of a key, if it has them. *)
Definition key_line (line : list Z) : option (Z * list Z) :=
  '(token, line) ← nexttok line;
  let keyno := u32 (atoi token) in
  if (keyno =? 0) || (NTP_MAXKEY <? keyno) then None
  else
    '(token, line) ← nexttok line;
    if negb (match token with c :: _ => (c =? 77) || (c =? 109) | [] => false end) then None
    else '(token, _) ← nexttok line; key ← key_of_token token; Some (keyno, key).

Fixpoint read_lines (fuel : nat) (file : list Z) (st : auth_state) : option auth_state :=
  match fuel, file with
  | _, [] => Some st
  | O, _ => None
  | S fuel, _ =>
      let '(line, file) := fgets LINE_ROOM file in
      match key_line line with
      | None => read_lines fuel file st
      | Some (keyno, key) =>
          st ← MD5auth_setkey keyno KEY_TYPE_MD5 key (Z.of_nat (length key)) st; read_lines fuel file st
      end
  end.

(** [authreadkeys] of a file that opens; without one nothing happens. *)
Definition authreadkeys (file : option (list Z)) (st : auth_state) : option auth_state :=
  match file with
  | None => Some st
  | Some file => st ← auth_delkeys st; read_lines (S (length file)) file st
  end.
