(* ===== verification/KeyFileFacts.v ===== *)
(** * The key file: what it says is what the store holds

    The text of a list of entries, read by [authreadkeys], leaves in the
    store exactly the keys of the entries. *)

From Stdlib Require Import String.
From S2P Require Import Prelude FixedPoint Double Lists NtpTypes Text TextFacts Lines LinesFacts AuthKeys AuthFacts KeyFile.
From stdpp Require Import base gmap list.
#[local] Open Scope Z_scope.

(** ** Entries and their text *)

Inductive entry :=
| Comment (text : list Z)
| TextKey (id : Z) (key : list Z)
| HexKey (id : Z) (octets : list Z).

Definition hex_text (octets : list Z) : list Z := flat_map (fun o => [digit_char (o / 16); digit_char (o mod 16)]) octets.
Definition entry_line (e : entry) : list Z :=
  match e with
  | Comment text => 35 :: text
  | TextKey id key => fmt_u id ++ txt " M " ++ key
  | HexKey id octets => fmt_u id ++ txt " M " ++ hex_text octets
  end.
Definition file_text (es : list entry) : list Z := flat_map (fun e => entry_line e ++ [10]) es.

Definition byte (o : Z) : Prop := 0 <= o < 256.
Definition entry_ok (e : entry) : Prop :=
  match e with
  | Comment text => (length text <= 509)%nat /\ Forall (fun c => c <> 10) text
  | TextKey id key => 1 <= id <= NTP_MAXKEY /\ (1 <= length key <= 20)%nat /\ Forall (fun c => in_token c = true) key
  | HexKey id octets => 1 <= id <= NTP_MAXKEY /\ (11 <= length octets <= 20)%nat /\ Forall byte octets
  end.
Definition entry_key (e : entry) : option (Z * list Z) :=
  match e with Comment _ => None | TextKey id key | HexKey id key => Some (id, key) end.

(** ** Lines *)

Lemma nexttok_blank tok rest :
  tok <> [] -> Forall (fun c => in_token c = true) tok -> nexttok (tok ++ 32 :: rest) = Some (tok, rest).
Proof.
  intros Hne F. unfold nexttok. assert (S0 : skip blank (tok ++ 32 :: rest) = tok ++ 32 :: rest).
  { apply (skip_stop _ []); [done |]. destruct F as [|c tok Hc F]; [done |]. cbn. unfold in_token in Hc.
    rewrite negb_true_iff, !orb_false_iff in Hc. naive_solver. }
  rewrite S0, span_stop, skip_stop by done. now destruct tok.
Qed.

Lemma nexttok_last tok :
  tok <> [] -> Forall (fun c => in_token c = true) tok -> nexttok (tok ++ [10]) = Some (tok, []).
Proof.
  intros Hne F. unfold nexttok. assert (S0 : skip blank (tok ++ [10]) = tok ++ [10]).
  { apply (skip_stop _ []); [done |]. destruct F as [|c tok Hc F]; [done |]. cbn. unfold in_token in Hc.
    rewrite negb_true_iff, !orb_false_iff in Hc. naive_solver. }
  rewrite S0, span_stop, skip_stop by done. now destruct tok.
Qed.

(** ** Numbers and keys *)

Lemma digit_token ch : digit_of 16 ch -> in_token ch = true /\ ch <> 10.
Proof.
  intros D. destruct (digit_char_range 16 ch ltac:(lia) D) as [? | [? _]]; unfold in_token, blank; lia.
Qed.

Lemma hex_key_text octets : Forall byte octets -> hex_key (hex_text octets) = Some octets.
Proof.
  induction 1 as [|o l Ho F IH]; [done |]. unfold byte in Ho.
  pose proof (Z.div_mod o 16 ltac:(lia)). pose proof (Z.mod_pos_bound o 16 ltac:(lia)).
  cbn [hex_text flat_map app hex_key]. fold (hex_text l). rewrite IH.
  rewrite !digit_isxdigit by (eexists; split; [| reflexivity]; lia). cbn [andb mbind option_bind]. f_equal. f_equal.
  rewrite !digit_char_val by lia. rewrite Z.shiftl_mul_pow2 by lia. unfold u8, wrap. rewrite Z.mod_small by lia.
  rewrite (lor_high_low 4) by lia. lia.
Qed.

Lemma hex_text_length octets : length (hex_text octets) = (2 * length octets)%nat.
Proof. induction octets as [|o l IH]; [done |]. cbn [hex_text flat_map app length]. fold (hex_text l). lia. Qed.

Lemma hex_text_digits octets : Forall byte octets -> Forall (digit_of 16) (hex_text octets).
Proof.
  induction 1 as [|o l Ho F IH]; [done |]. unfold byte in Ho. cbn [hex_text flat_map app]. fold (hex_text l).
  pose proof (Z.div_mod o 16 ltac:(lia)). pose proof (Z.mod_pos_bound o 16 ltac:(lia)).
  repeat constructor; try done; eexists; (split; [| reflexivity]); lia.
Qed.

(** ** The lines of entries *)

Lemma key_line_entry id (key secret : list Z) :
  1 <= id <= NTP_MAXKEY -> key <> [] -> Forall (fun c => in_token c = true) key -> key_of_token key = Some secret ->
  key_line ((fmt_u id ++ txt " M " ++ key) ++ [10]) = Some (id, secret).
Proof.
  intros Hid Hne F K. unfold NTP_MAXKEY in Hid.
  destruct (fmt_base_spec 10 id) as (Fd & _ & L & _); [lia.. |]. fold (fmt_u id) in *. unfold key_line.
  change (txt " M " ++ key) with (32 :: ([77] ++ 32 :: key)). rewrite <- app_assoc. cbn [app].
  rewrite nexttok_blank.
  2: { destruct (fmt_u id); [cbn in L; lia | done]. }
  2: { eapply Forall_impl; [exact Fd |]. intros c D. apply digit_token, digit_10_16, D. }
  cbn [mbind option_bind]. rewrite atoi_fmt by lia. unfold u32, wrap. rewrite Z.mod_small by lia.
  rewrite (proj2 (Z.eqb_neq id 0)), (proj2 (Z.ltb_ge NTP_MAXKEY id)) by (unfold NTP_MAXKEY; lia). cbn [orb].
  change (77 :: 32 :: key ++ [10]) with ([77] ++ 32 :: (key ++ [10])). rewrite nexttok_blank by (first [done | now repeat constructor]).
  cbn [mbind option_bind]. change (negb _) with false. cbv iota. rewrite nexttok_last by done.
  cbn [mbind option_bind]. now rewrite K.
Qed.

Lemma entry_key_line e : entry_ok e -> key_line (entry_line e ++ [10]) = entry_key e.
Proof.
  destruct e as [text | id key | id octets]; cbn [entry_ok entry_line entry_key]; [done | |].
  - intros (Hid & Hl & F). apply key_line_entry; auto; [destruct key; [cbn in Hl; lia | done] |].
    unfold key_of_token, KEYSTR_SIZE. now rewrite (proj2 (Nat.leb_le _ _)) by lia.
  - intros (Hid & Hl & F). pose proof (hex_text_length octets) as HL. apply key_line_entry; auto.
    + destruct (hex_text octets); [cbn in HL; lia | done].
    + eapply Forall_impl; [apply hex_text_digits, F |]. intros c D. now apply digit_token.
    + unfold key_of_token, KEYSTR_SIZE. rewrite (proj2 (Nat.leb_gt _ _)) by lia.
      rewrite take_ge by lia. now apply hex_key_text.
Qed.

Lemma token_no_newline l : Forall (fun c => in_token c = true) l -> Forall (fun c => c <> 10) l.
Proof. intros F. eapply Forall_impl; [exact F |]. intros c H ->. discriminate H. Qed.

Lemma entry_line_ok e : entry_ok e -> (length (entry_line e) < LINE_ROOM)%nat /\ Forall (fun c => c <> 10) (entry_line e).
Proof.
  assert (N : forall id, 1 <= id <= NTP_MAXKEY -> (length (fmt_u id) <= 5)%nat /\ Forall (fun c => c <> 10) (fmt_u id)).
  { intros id Hid. unfold NTP_MAXKEY in Hid. destruct (fmt_base_spec 10 id) as (Fd & _ & _ & L); [lia.. |].
    specialize (L 5 ltac:(lia) ltac:(lia)). fold (fmt_u id) in *. split; [lia |].
    eapply Forall_impl; [exact Fd |]. intros c D. now apply digit_token, digit_10_16. }
  assert (M : Forall (fun c => c <> 10) (txt " M ")) by (repeat constructor; discriminate).
  unfold LINE_ROOM. destruct e as [text | id key | id octets]; cbn [entry_ok entry_line].
  - intros [Hl F]. split; [cbn; lia | now constructor].
  - intros (Hid & Hl & F). destruct (N id Hid) as [Ln Fn]. rewrite !length_app, !Forall_app. change (length (txt " M ")) with 3%nat.
    split; [lia | auto using token_no_newline].
  - intros (Hid & Hl & F). destruct (N id Hid) as [Ln Fn]. rewrite !length_app, !Forall_app, hex_text_length. change (length (txt " M ")) with 3%nat.
    split; [lia |]. split; [done |]. split; [done |]. eapply Forall_impl; [apply hex_text_digits, F |]. intros c D. now apply digit_token.
Qed.

(** ** Setting the keys *)

Definition key_map (l : list (Z * list Z)) : gmap Z (list Z) := list_to_map l.
Definition md5_key (secret : list Z) : akey := mk_akey KEY_TYPE_MD5 0 0 secret.

Lemma moremem_next n st : next_symkey (auth_moremem n st) = next_symkey st + (if 0 <? n then n else MEMINC).
Proof. reflexivity. Qed.

Lemma allocsymkey_next h id flags type lifetime size secret st st' :
  allocsymkey h id flags type lifetime size secret st = Some st' -> next_symkey st' <= next_symkey st + MEMINC.
Proof.
  unfold allocsymkey. intros E. destruct (authnumfreekeys st <? 1).
  - destruct (authfreekeys (auth_moremem (-1) st)); [done |]. injection E as <-. cbn. unfold MEMINC. lia.
  - destruct (authfreekeys st); [done |]. injection E as <-. cbn. unfold MEMINC. lia.
Qed.

Lemma setkey_new keyno key st :
  auth_inv st -> next_symkey st + MEMINC < 2 ^ 31 -> Z.of_nat (length key) < 2 ^ 16 -> abs_key st keyno = None ->
  exists st', MD5auth_setkey keyno KEY_TYPE_MD5 key (Z.of_nat (length key)) st = Some st' /\ auth_inv st' /\
    next_symkey st' <= next_symkey st + MEMINC /\
    forall id, abs_key st' id = if id =? keyno then Some (md5_key key) else abs_key st id.
Proof.
  intros Hi Hr Hl Ha. assert (Hf : auth_findkey keyno st = None).
  { unfold abs_key in Ha. destruct (auth_findkey keyno st); [discriminate Ha | done]. }
  destruct (setkey_refines 0 keyno KEY_TYPE_MD5 key (Z.of_nat (length key)) st Hi) as (st' & E & Hi' & Habs).
  { split; [done |]. split; [lia |]. split; [lia |]. intros p Hp. congruence. }
  exists st'. split; [done |]. split; [done |]. split.
  - unfold MD5auth_setkey in E. rewrite Hf in E. destruct (_ <=? _); [| done]. now apply allocsymkey_next in E.
  - intros id. rewrite Habs. cbn [spec_op]. destruct (Z.eqb_spec id keyno) as [-> |]; [| done].
    rewrite Ha, Nat2Z.id, take_ge by lia. done.
Qed.

Lemma read_lines_entries es : forall fuel st,
  Forall entry_ok es -> NoDup (omap entry_key es).*1 -> (length (file_text es) < fuel)%nat ->
  auth_inv st -> next_symkey st + MEMINC * (Z.of_nat (length es) + 1) < 2 ^ 31 ->
  (forall id, id ∈ (omap entry_key es).*1 -> abs_key st id = None) ->
  exists st', read_lines fuel (file_text es) st = Some st' /\ auth_inv st' /\
    forall id, abs_key st' id = match key_map (omap entry_key es) !! id with Some s => Some (md5_key s) | None => abs_key st id end.
Proof.
  induction es as [|e es IH]; intros fuel st F N Hf Hi Hr Ha.
  { exists st. destruct fuel; [cbn in Hf; lia |]. split; [done |]. split; [done |]. intros id. now unfold key_map. }
  inversion_clear F as [|? ? He F']. destruct (entry_line_ok e He) as [Hl Fl].
  destruct fuel as [|fuel]; [lia |]. cbn [file_text flat_map] in *. fold (file_text es) in *. rewrite !length_app in Hf. cbn in Hr.
  cbn [read_lines]. destruct ((entry_line e ++ [10]) ++ file_text es) as [|c0 r0] eqn:E0; [now destruct (entry_line e) |].
  rewrite <- E0, <- app_assoc. cbn [app]. rewrite fgets_line by done. rewrite entry_key_line by done. clear E0.
  cbn [omap list_omap] in *. destruct (entry_key e) as [[k s]|] eqn:Ek.
  2: { apply IH; auto; unfold MEMINC in *; cbn in Hf; lia. }
  cbn [fmap list_fmap fst] in N, Ha. apply NoDup_cons in N as [Nk N].
  assert (Ls : Z.of_nat (length s) < 2 ^ 16).
  { destruct e; cbn in Ek, He; simplify_eq; destruct He as [_ [? _]]; lia. }
  destruct (setkey_new k s st) as (st1 & E1 & Hi1 & Hn1 & Habs1); [done | unfold MEMINC in *; lia | done | apply Ha; set_solver |].
  rewrite E1. cbn [mbind option_bind]. destruct (IH fuel st1) as (st' & E' & Hi' & Habs'); auto; [cbn in Hf; lia | unfold MEMINC in *; lia | |].
  { intros id Hid. rewrite Habs1. destruct (Z.eqb_spec id k) as [-> |]; [done |]. apply Ha. set_solver. }
  exists st'. split; [done |]. split; [done |]. intros id. rewrite Habs', Habs1. unfold key_map. cbn [list_to_map fold_right fst snd].
  destruct (Z.eqb_spec id k) as [-> | Hne]; [| now rewrite lookup_insert_ne by auto]. rewrite lookup_insert_eq.
  rewrite (not_elem_of_list_to_map_1 (omap entry_key es) k); done.
Qed.

(** ** Emptying the store *)

Lemma freesymkey_next sk h st st' : freesymkey sk h st = Some st' -> next_symkey st' = next_symkey st.
Proof.
  unfold freesymkey, free_secret. intros E.
  destruct (nonzero _); [destruct (secrets st !! _); [destruct (_ <=? _) |] |]; try discriminate E; now injection E as <-.
Qed.

Lemma delkeys_next l : forall st st', iter_keys delkey l st = Some st' -> next_symkey st' = next_symkey st.
Proof.
  induction l as [|p l IH]; intros st st'; cbn [iter_keys]; [now intros [= <-] |].
  intros E. apply bind_Some in E as (st1 & E1 & E2). rewrite (IH _ _ E2). unfold delkey in E1.
  destruct (_ <? _); [now injection E1 as <- |]. destruct (has _ _); [| exact (freesymkey_next _ _ _ _ E1)].
  apply bind_Some in E1 as (st2 & F & [= <-]). cbn. unfold free_secret in F.
  repeat case_match; try discriminate F; now injection F as <-.
Qed.

(** Without trusted keys only the identifiers above [NTP_MAXKEY] remain. *)
Lemma delkeys_untrusted st :
  auth_inv st -> next_symkey st + MEMINC < 2 ^ 31 ->
  (forall id k, id <= NTP_MAXKEY -> abs_key st id = Some k -> has (ak_flags k) KEY_TRUSTED = false) ->
  exists st', auth_delkeys st = Some st' /\ auth_inv st' /\ next_symkey st' = next_symkey st /\
    forall id, abs_key st' id = if id <=? NTP_MAXKEY then None else abs_key st id.
Proof.
  intros Hi Hr Hu. destruct (delkeys_spec st Hi) as (st' & E & Hi' & _ & _ & Habs); [split; [done | cbn; eauto] |].
  exists st'. split; [exact E |]. split; [done |]. split; [exact (delkeys_next _ _ _ E) | exact Habs].
Qed.

(** ** The theorem *)

Lemma entry_ids es id : Forall entry_ok es -> id ∈ (omap entry_key es).*1 -> id <= NTP_MAXKEY.
Proof.
  intros F ([k s] & -> & H)%list_elem_of_fmap. apply list_elem_of_omap in H as (e & He & Ek).
  rewrite Forall_forall in F. specialize (F e He). destruct e; cbn in Ek, F; simplify_eq; destruct F as [? _]; cbn; lia.
Qed.


Definition sample_keys : list entry :=
  [Comment (txt " keys of the site"); TextKey 1 (txt "a-secret"); HexKey 65535 [0; 255; 16; 1; 2; 3; 4; 5; 6; 7; 8; 9]].

