(* ===== verification/Monitor.v ===== *)
(** * MRU monitor and rate limiter: ntpd/ntp_monitor.c

    Monitor entries live in a heap, linked in a hash table by source
    address and in a most-recently-used list.  [ntp_monitor] records a
    packet and applies the leaky-bucket rate control of [RES_LIMITED]. *)

From S2P Require Import Prelude FixedPoint Double Lists NtpTypes.
From stdpp Require Import base gmap list.
#[local] Open Scope Z_scope.

(** ** State *)

Record mon_entry := mk_mon_entry {
  me_lcladr : Z; me_first : l_fp; me_last : l_fp; me_leak : Z; me_count : Z; me_flags : Z;
  me_vn_mode : Z; me_cast_flags : Z; me_rmtadr : sockaddr }.
#[export] Instance eta_mon_entry : Eta mon_entry := fun r =>
  mk_mon_entry (me_lcladr r) (me_first r) (me_last r) (me_leak r) (me_count r) (me_flags r)
    (me_vn_mode r) (me_cast_flags r) (me_rmtadr r).
Definition zero_mon : mon_entry :=
  mk_mon_entry 0 (mk_lfp 0 0) (mk_lfp 0 0) 0 0 0 0 0 (mk_sockaddr 0 0 0 0).

Record mon_state := mk_mon_state {
  mons : gmap Z mon_entry; mon_hash : htable; mon_hash_bits : Z; mon_mru_list : list Z;
  mon_free : list Z; next_mon : Z; mru_alloc : Z; mru_entries : Z; mru_peakentries : Z;
  mru_initalloc : Z; mru_incalloc : Z; mon_mem_increments : Z; ntp_minpkt : Z;
  ntp_minpoll : Z; mon_enabled : Z; mru_mindepth : Z; mru_maxage : Z; mru_maxdepth : Z;
  mon_age : Z }.
#[export] Instance eta_mon_state : Eta mon_state := fun r =>
  mk_mon_state (mons r) (mon_hash r) (mon_hash_bits r) (mon_mru_list r) (mon_free r)
    (next_mon r) (mru_alloc r) (mru_entries r) (mru_peakentries r) (mru_initalloc r)
    (mru_incalloc r) (mon_mem_increments r) (ntp_minpkt r) (ntp_minpoll r) (mon_enabled r)
    (mru_mindepth r) (mru_maxage r) (mru_maxdepth r) (mon_age r).

Definition mon_at (st : mon_state) (p : Z) : mon_entry := default zero_mon (mons st !! p).
Definition put_mon (p : Z) (m : mon_entry) (st : mon_state) : mon_state :=
  st <| mons := <[p := m]> (mons st) |>.

Definition MON_HASH_SIZE (st : mon_state) : Z := Z.shiftl 1 (mon_hash_bits st).
Definition MON_HASH (st : mon_state) (a : sockaddr) : Z :=
  sock_hash a .& (MON_HASH_SIZE st - 1).
Definition mon_hash_of (st : mon_state) (p : Z) : Z := MON_HASH st (me_rmtadr (mon_at st p)).

(** ** Entries and memory *)

Definition init_mon (st : mon_state) : mon_state :=
  st <| mon_enabled := MON_OFF |> <| mon_mru_list := [] |>.

Definition remove_from_hash (mon : Z) (st : mon_state) : mon_state :=
  let st := st <| mru_entries := u32 (mru_entries st - 1) |> in
  let hash := mon_hash_of st mon in
  st <| mon_hash := UNLINK_BUCKET hash mon (mon_hash st) |>.

Definition mon_free_entry (m : Z) (st : mon_state) : mon_state :=
  (put_mon m zero_mon st) <| mon_free := m :: mon_free st |>.

Definition mon_reclaim_entry (m : Z) (st : mon_state) : mon_state :=
  let st := st <| mon_mru_list := UNLINK m (mon_mru_list st) |> in
  let st := remove_from_hash m st in
  put_mon m zero_mon st.

Definition mon_getmoremem (st : mon_state) : mon_state :=
  let entries := if 0 =? mon_mem_increments st then mru_initalloc st else mru_incalloc st in
  let chunk := zrange (next_mon st) (Z.to_nat entries) in
  let st := st <| next_mon := next_mon st + entries |> in
  let st := fold_left (fun st mon => mon_free_entry mon st) (reverse chunk) st in
  st <| mru_alloc := u32 (mru_alloc st + entries) |>
     <| mon_mem_increments := u32 (mon_mem_increments st + 1) |>.

(** ** Switching the monitor *)

(** [while (min_hash_slots >>= 1) mon_hash_bits++]; an [u_int] needs at
    most 32 rounds. *)
Fixpoint hash_bits_loop (fuel : nat) (slots bits : Z) : Z :=
  match fuel with
  | O => bits
  | S fuel => let slots := Z.shiftr slots 1 in
              if slots =? 0 then bits else hash_bits_loop fuel slots (u8 (bits + 1))
  end.

Definition mon_start (mode : Z) (st : mon_state) : mon_state :=
  if MON_OFF =? mode then st
  else if nonzero (mon_enabled st) then st <| mon_enabled := u32 (mon_enabled st .| mode) |>
  else
    let st := if 0 =? mon_mem_increments st then mon_getmoremem st else st in
    let min_hash_slots := u32 (mru_maxdepth st / 8 + 1) in
    let bits := hash_bits_loop 32 min_hash_slots 0 in
    let bits := Z.min 16 (Z.max 4 bits) in
    st <| mon_hash_bits := u8 bits |> <| mon_hash := ∅ |> <| mon_enabled := u32 mode |>.

Definition mon_stop (mode : Z) (st : mon_state) : mon_state :=
  if MON_OFF =? mon_enabled st then st
  else if (mon_enabled st .& mode =? 0) || (mode =? MON_OFF) then st
  else
    let st := st <| mon_enabled := u32 (clr (mon_enabled st) mode) |> in
    if negb (mon_enabled st =? MON_OFF) then st
    else
      let st := fold_left (fun st mon => mon_free_entry mon st) (mon_mru_list st) st in
      st <| mru_entries := 0 |> <| mon_mru_list := [] |> <| mon_hash := ∅ |>.

Definition mon_clearinterface (lcladr : Z) (st : mon_state) : mon_state :=
  fold_left (fun st mon =>
    if me_lcladr (mon_at st mon) =? lcladr then
      let st := st <| mon_mru_list := UNLINK mon (mon_mru_list st) |> in
      let st := remove_from_hash mon st in
      mon_free_entry mon st
    else st) (mon_mru_list st) st.

(** ** Recording a packet *)

(** Seconds since [since], rounded: [L_SUB], add one half, integer part. *)
Definition interval_since (now since : l_fp) : Z :=
  s32 (l_ui (L_ADDUF (L_SUB now since) 0x80000000)).

Definition NOLIMIT (flags : Z) : Z := u16 (Z.lnot (RES_LIMITED .| RES_KOD) .& flags).

(** The rate control on the entry of a known source: new counter and flags. *)
Definition rate_control (minpkt minpoll interval old_leak flags : Z) : Z * Z :=
  let mleak := s32 (old_leak - interval) in
  let mleak := Z.max 0 mleak in
  let head := s32 (Z.shiftl 1 minpoll) in
  let leak := s32 (mleak + head) in
  let limit := s32 (NTP_SHIFT * head) in
  if (minpkt <=? s32 (interval + 1)) && (leak <? limit)
  then (s32 (leak - 2), u16 (clr flags (RES_LIMITED .| RES_KOD)))
  else if mleak <? limit then (s32 (limit + head), flags)
  else (mleak, u16 (clr flags RES_KOD)).

(** The branch for a source already on the list. *)
Definition mon_known (r : recvbuf) (flags mon : Z) (st : mon_state) : Z * mon_state :=
  let pkt := rb_pkt r in
  let mode := PKT_MODE (pk_li_vn_mode pkt) in
  let version := PKT_VERSION (pk_li_vn_mode pkt) in
  let m := mon_at st mon in
  let interval := interval_since (rb_time r) (me_last m) in
  let '(leak, restrict_mask) :=
    rate_control (ntp_minpkt st) (ntp_minpoll st) interval (me_leak m) flags in
  let a := me_rmtadr m in
  let m := m <| me_last := rb_time r |>
             <| me_rmtadr := mk_sockaddr (sa_family a) (sa_addr a) (sa_scope a)
                               (sa_port (rb_srcadr r)) |>
             <| me_count := s32 (me_count m + 1) |>
             <| me_vn_mode := u8 (VN_MODE version mode) |>
             <| me_leak := leak |> <| me_flags := restrict_mask |> in
  (restrict_mask,
   (put_mon mon m st) <| mon_mru_list := mon :: UNLINK mon (mon_mru_list st) |>).

(** [UNLINK_HEAD_SLIST] of the free list, replenished when empty. *)
Definition take_free (st : mon_state) : option Z * mon_state :=
  let st := match mon_free st with [] => mon_getmoremem st | _ => st end in
  match mon_free st with
  | [] => (None, st)
  | m :: rest => (Some m, st <| mon_free := rest |>)
  end.

Section Monitor.
(** One draw of [ntp_random]. *)
Variable random : Z.

(** The entry to use for a new source: [inr] a structure, [inl tt] when
    the packet is not recorded. *)
Definition mon_claim (r : recvbuf) (st : mon_state) : (unit + option Z) * mon_state :=
  if mru_entries st <? mru_mindepth st then
    let '(m, st) := take_free st in (inr m, st)
  else
    let oldest := last (mon_mru_list st) in
    let oldest_age :=
      match oldest with
      | Some o => interval_since (rb_time r) (me_last (mon_at st o))
      | None => 0
      end in
    let reclaim :=
      match oldest with
      | Some o => (inr (Some o), mon_reclaim_entry o st)
      | None => (inr None, st)
      end in
    if bool_decide (oldest <> None) && (mru_maxage st <? oldest_age) then reclaim
    else if bool_decide (mon_free st <> []) || (mru_alloc st <? mru_maxdepth st) then
      let '(m, st) := take_free st in (inr m, st)
    else if dofZ oldest_age /d dofZ (mon_age st) <d dofZ random /d (dofZ 2 *d dofZ (2 ^ 32))
    then (inl tt, st)
    else reclaim.

(** Initialisation of a claimed entry; [dst] is [rbufp->dstadr]. *)
Definition mon_new (r : recvbuf) (dst : endpt) (flags mon : Z) (st : mon_state) : Z * mon_state :=
  let pkt := rb_pkt r in
  let mode := PKT_MODE (pk_li_vn_mode pkt) in
  let version := PKT_VERSION (pk_li_vn_mode pkt) in
  let cast := if has (ep_flags dst) INT_MCASTOPEN && (rb_fd r =? ep_fd dst) then MDF_MCAST
              else if rb_fd r =? ep_bfd dst then MDF_BCAST else MDF_UCAST in
  let st := st <| mru_entries := u32 (mru_entries st + 1) |> in
  let st := st <| mru_peakentries := Z.max (mru_peakentries st) (mru_entries st) |> in
  let m := mk_mon_entry (rb_dstadr r) (rb_time r) (rb_time r) 0 1 (NOLIMIT flags)
             (u8 (VN_MODE version mode)) cast (rb_srcadr r) in
  (me_flags m,
   (put_mon mon m st)
     <| mon_hash := LINK_BUCKET (MON_HASH st (rb_srcadr r)) mon (mon_hash st) |>
     <| mon_mru_list := mon :: mon_mru_list st |>).

(** [None]: the null dereference a failed allocation would cause. *)
Definition ntp_monitor (r : recvbuf) (dst : endpt) (flags : Z) (st : mon_state)
    : option (Z * mon_state) :=
  if mon_enabled st =? MON_OFF then Some (NOLIMIT flags, st)
  else
    let hash := MON_HASH st (rb_srcadr r) in
    match chain_find (fun mon => SOCK_EQ (me_rmtadr (mon_at st mon)) (rb_srcadr r))
            (bucket (mon_hash st) hash) with
    | Some mon => Some (mon_known r flags mon st)
    | None =>
        match mon_claim r st with
        | (inl _, st) => Some (NOLIMIT flags, st)
        | (inr (Some mon), st) => Some (mon_new r dst flags mon st)
        | (inr None, _) => None
        end
    end.
End Monitor.
