(* ===== verification/MonitorFacts.v ===== *)
(** * The monitor: rate control and list invariant *)

From S2P Require Import Prelude FixedPoint Double Lists NtpTypes Monitor.
From stdpp Require Import base gmap list.
#[local] Open Scope Z_scope.

(** ** Rate control

    [head] is the packet increment, [8 * head] the average threshold. *)

Definition head_of (minpoll : Z) : Z := 2 ^ minpoll.
Definition leak_ok (minpoll leak : Z) : Prop := 0 <= leak <= 9 * head_of minpoll.

(** The cases of [rate_control] with the machine arithmetic discharged. *)
Lemma rate_control_eq minpkt minpoll interval leak flags :
  0 <= minpoll <= 26 -> 0 <= interval < 2 ^ 31 - 1 -> leak_ok minpoll leak ->
  rate_control minpkt minpoll interval leak flags =
    let m := Z.max 0 (leak - interval) in
    let head := head_of minpoll in
    if (minpkt <=? interval + 1) && (m + head <? 8 * head)
    then (m + head - 2, u16 (clr flags (RES_LIMITED .| RES_KOD)))
    else if m <? 8 * head then (9 * head, flags) else (m, u16 (clr flags RES_KOD)).
Proof.
  intros Hp Hi Hl. unfold rate_control, leak_ok, head_of, NTP_SHIFT in *.
  rewrite Z.shiftl_1_l.
  assert (1 <= 2 ^ minpoll <= 2 ^ 26) by (split; [apply (Z.pow_le_mono_r 2 0) | apply Z.pow_le_mono_r]; lia).
  change (2 ^ 26) with 67108864 in *. change (2 ^ 31) with 2147483648 in *.
  cbv zeta. rewrite (s32_small (leak - interval)) by (unfold_ranges; lia).
  rewrite (s32_small (2 ^ minpoll)) by (unfold_ranges; lia).
  set (m := Z.max 0 (leak - interval)). assert (0 <= m <= leak) by lia.
  drop_wraps. destruct (_ && _); f_equal; try lia.
  destruct (m <? 8 * 2 ^ minpoll); f_equal; lia.
Qed.

(** A packet is limited when [RES_LIMITED] survives, and answered with a
    kiss-o'-death when [RES_KOD] does. *)
Definition limited (flags : Z) : bool := has flags RES_LIMITED.
Definition kod (flags : Z) : bool := has flags RES_KOD.

(** The verdicts on a train of packets from one source, given the seconds
    before each, all under restriction flags [flags]. *)
Fixpoint rate_run (minpkt minpoll flags leak : Z) (intervals : list Z) : list Z * Z :=
  match intervals with
  | [] => ([], leak)
  | i :: l =>
      let '(leak, f) := rate_control minpkt minpoll i leak flags in
      let '(fs, leak) := rate_run minpkt minpoll flags leak l in
      (f :: fs, leak)
  end.

Definition count (f : Z -> bool) (l : list Z) : Z := Z.of_nat (length (List.filter f l)).
Definition total (l : list Z) : Z := fold_right Z.add 0 l.

Lemma head_pos minpoll : 1 <= minpoll -> 2 <= head_of minpoll.
Proof. intros H. unfold head_of. apply (Z.pow_le_mono_r 2 1); lia. Qed.

Lemma limited_bit x : limited x = Z.testbit x 5.
Proof. exact (has_bit x 5 ltac:(lia)). Qed.
Lemma kod_bit x : kod x = Z.testbit x 10.
Proof. exact (has_bit x 10 ltac:(lia)). Qed.

Lemma douse_both flags :
  limited (u16 (clr flags (RES_LIMITED .| RES_KOD))) = false /\
  kod (u16 (clr flags (RES_LIMITED .| RES_KOD))) = false.
Proof.
  unfold u16. rewrite limited_bit, kod_bit, !clr_bit by lia. split; apply andb_false_r.
Qed.

Lemma douse_kod flags :
  limited (u16 (clr flags RES_KOD)) = limited flags /\ kod (u16 (clr flags RES_KOD)) = false.
Proof.
  unfold u16. rewrite !limited_bit, kod_bit, !clr_bit by lia. split; [apply andb_true_r | apply andb_false_r].
Qed.

Section Rate.
Context (minpkt minpoll flags : Z).
Context (Hp : 1 <= minpoll <= 26) (Hlim : limited flags = true).
#[local] Abbreviation head := (head_of minpoll).
Definition intervals_ok (l : list Z) : Prop := Forall (fun i => 0 <= i < 2 ^ 31 - 1) l.

Lemma total_nonneg l : intervals_ok l -> 0 <= total l.
Proof.
  induction 1 as [|i l Hi Hl IH]; [done |]. change (total (i :: l)) with (i + total l). lia.
Qed.

(** One packet: the counter stays in range and never loses more than the
    elapsed time; a packet that passes raises it by [head - 2]. *)
Lemma rate_step interval leak leak' f :
  0 <= interval < 2 ^ 31 - 1 -> leak_ok minpoll leak ->
  rate_control minpkt minpoll interval leak flags = (leak', f) ->
  leak_ok minpoll leak' /\
  leak - interval + (if limited f then 0 else head - 2) <= leak' /\
  (kod f = true -> leak - interval < 8 * head /\ leak' = 9 * head) /\
  (kod f = false -> 8 * head <= leak - interval -> leak' = leak - interval).
Proof.
  intros Hi Hl E. rewrite rate_control_eq in E by (done || lia). cbv zeta in E.
  pose proof (head_pos minpoll (proj1 Hp)). unfold leak_ok in *.
  destruct (douse_both flags) as [D1 D2], (douse_kod flags) as [D3 D4].
  destruct (_ && _) eqn:C.
  - injection E as <- <-. apply andb_true_iff in C as [_ C]. apply Z.ltb_lt in C.
    rewrite D1, D2. split; [lia |]. split; [lia |]. split; [done | lia].
  - destruct (Z.ltb_spec (Z.max 0 (leak - interval)) (8 * head)); injection E as <- <-.
    + rewrite Hlim. split; [lia |]. split; [lia |]. split; [lia |]. lia.
    + rewrite D3, D4, Hlim. split; [lia |]. split; [lia |]. split; [done | lia].
Qed.

Lemma rate_run_invariant l leak fs leak' :
  intervals_ok l -> leak_ok minpoll leak ->
  rate_run minpkt minpoll flags leak l = (fs, leak') ->
  leak_ok minpoll leak' /\
  leak + count (fun f => negb (limited f)) fs * (head - 2) - total l <= leak'.
Proof.
  intros Hl. revert leak fs leak'. induction Hl as [|i l Hi Hl IH]; intros leak fs leak' Hk E.
  - injection E as <- <-. split; [done |]. unfold count, total; cbn. lia.
  - cbn [rate_run] in E. destruct (rate_control _ _ _ _ _) as [k f] eqn:Ec.
    destruct (rate_run _ _ _ _ l) as [fs0 k'] eqn:Er. injection E as <- <-.
    destruct (rate_step _ _ _ _ Hi Hk Ec) as (Hk1 & Hd & _).
    destruct (IH _ _ _ Hk1 Er) as [? ?]. split; [done |].
    unfold count, total in *. cbn [List.filter fold_right].
    destruct (limited f); cbn [negb length]; lia.
Qed.

(** After a kiss-o'-death, none is sent while at most [head] seconds pass. *)
Lemma no_kod_soon l leak fs leak' spent :
  intervals_ok l -> 0 <= spent -> leak = 9 * head - spent -> spent + total l <= head ->
  rate_run minpkt minpoll flags leak l = (fs, leak') -> count kod fs = 0.
Proof.
  intros Hl. pose proof (head_pos minpoll (proj1 Hp)).
  pose proof total_nonneg as Ht.
  revert leak fs leak' spent. induction Hl as [|i l Hi Hl IH]; intros leak fs leak' spent Hs -> Hsum E.
  - now injection E as <- <-.
  - cbn [rate_run] in E. destruct (rate_control _ _ _ _ _) as [k f] eqn:Ec.
    destruct (rate_run _ _ _ _ l) as [fs0 k'] eqn:Er. injection E as <- <-.
    specialize (Ht l Hl). cbv beta in Hi. cbn [total fold_right] in Hsum. fold (total l) in Hsum.
    assert (Hlk : leak_ok minpoll (9 * head - spent)) by (unfold leak_ok; lia).
    destruct (rate_step _ _ _ _ Hi Hlk Ec) as (_ & _ & Hy & Hn).
    destruct (kod f) eqn:Ef; [lia |]. unfold count. cbn [List.filter]. rewrite Ef.
    apply (IH k fs0 k' (spent + i)); auto; lia.
Qed.
End Rate.

(** C16: the rate control enforces the average headway: of any train of
    packets from one source, at most
    [(9 * head + elapsed seconds) / (head - 2)] pass unlimited, where
    [head] is [1 << ntp_minpoll]; the counter stays within
    [[0, 9 * head]] throughout. *)
Theorem rate_limit_enforced (minpkt minpoll flags leak leak' : Z) (l fs : list Z) :
  1 <= minpoll <= 26 -> limited flags = true -> intervals_ok l -> leak_ok minpoll leak ->
  rate_run minpkt minpoll flags leak l = (fs, leak') ->
  leak_ok minpoll leak' /\
  count (fun f => negb (limited f)) fs * (head_of minpoll - 2) <= 9 * head_of minpoll + total l.
Proof.
  intros Hp Hlim Hl Hk E.
  destruct (rate_run_invariant minpkt minpoll flags Hp Hlim l leak fs leak' Hl Hk E).
  unfold leak_ok in *. split; [done | lia].
Qed.

Lemma rate_limit_enforced_witness :
  leak_ok 3 70 /\ count (fun f => negb (limited f))
    (rate_run 2 3 0x420 0 (replicate 12 1)).1 * (head_of 3 - 2) <= 9 * head_of 3 + 12.
Proof.
  split; [unfold leak_ok, head_of; lia |].
  apply (rate_limit_enforced 2 3 0x420 0 (rate_run 2 3 0x420 0 (replicate 12 1)).2 (replicate 12 1));
    [lia | reflexivity | apply Forall_replicate; lia | unfold leak_ok, head_of; lia | reflexivity].
Defined.

(** Kiss-o'-death replies to a source are spaced: after a packet that
    drew one, no packet draws another until more than [head] seconds have
    passed, however many arrive. *)
Theorem kod_spacing (minpkt minpoll flags leak i leak1 f leak' : Z) (l fs : list Z) :
  1 <= minpoll <= 26 -> limited flags = true -> leak_ok minpoll leak ->
  0 <= i < 2 ^ 31 - 1 -> intervals_ok l ->
  rate_control minpkt minpoll i leak flags = (leak1, f) -> kod f = true ->
  rate_run minpkt minpoll flags leak1 l = (fs, leak') -> total l <= head_of minpoll ->
  count kod fs = 0.
Proof.
  intros Hp Hlim Hk Hi Hl Ec Ef Er Ht.
  destruct (rate_step minpkt minpoll flags Hp Hlim _ _ _ _ Hi Hk Ec) as (_ & _ & Hy & _).
  destruct (Hy Ef) as [_ ->].
  apply (no_kod_soon minpkt minpoll flags Hp Hlim l (9 * head_of minpoll) fs leak' 0); auto; lia.
Qed.

Lemma kod_spacing_witness :
  kod (rate_control 2 3 0 60 0x420).2 = true /\
  count kod (rate_run 2 3 0x420 72 (replicate 8 1)).1 = 0.
Proof.
  split; [reflexivity |].
  apply (kod_spacing 2 3 0x420 60 0 72 0x420 (rate_run 2 3 0x420 72 (replicate 8 1)).2 (replicate 8 1));
    try (unfold leak_ok, head_of; lia); try reflexivity; apply Forall_replicate; lia.
Defined.

(** ** The lists *)

(** [SOCK_EQ] is an equivalence that the hash respects. *)
Lemma SOCK_EQ_spec a b :
  SOCK_EQ a b = true <->
  sa_family a = sa_family b /\ sa_addr a = sa_addr b /\
  (sa_family a <> AF_INET -> sa_scope a = sa_scope b).
Proof.
  unfold SOCK_EQ. destruct (Z.eqb_spec (sa_family a) (sa_family b)); cbn; [| naive_solver].
  destruct (Z.eqb_spec (sa_family a) AF_INET); rewrite ?andb_true_iff, !Z.eqb_eq; naive_solver.
Qed.
Lemma SOCK_EQ_refl a : SOCK_EQ a a = true.
Proof. now apply SOCK_EQ_spec. Qed.
Lemma SOCK_EQ_sym a b : SOCK_EQ a b = true -> SOCK_EQ b a = true.
Proof. rewrite !SOCK_EQ_spec. intros (? & ? & Hs). split_and!; auto. intros. symmetry. apply Hs. congruence. Qed.
Lemma SOCK_EQ_trans a b c : SOCK_EQ a b = true -> SOCK_EQ b c = true -> SOCK_EQ a c = true.
Proof.
  rewrite !SOCK_EQ_spec. intros (E1 & E2 & E3) (F1 & F2 & F3). split_and!; try congruence.
  intros H. rewrite E3 by done. apply F3. congruence.
Qed.
Lemma SOCK_EQ_hash a b : SOCK_EQ a b = true -> sock_hash a = sock_hash b.
Proof.
  rewrite SOCK_EQ_spec. intros (E1 & E2 & _). unfold sock_hash, IS_IPV4, IS_IPV6. now rewrite E1, E2.
Qed.

(** The invariant of the lists, with the structures [claimed] on neither:
    every structure allocated is in use, free or claimed; the table indexes
    the MRU list; one entry per source address; the counters count. *)
Record mon_inv (claimed : list Z) (st : mon_state) : Prop := {
  mi_nodup : NoDup (claimed ++ mon_mru_list st ++ mon_free st);
  mi_range : forall p, p ∈ claimed ++ mon_mru_list st ++ mon_free st -> 0 < p < next_mon st;
  mi_total : Z.of_nat (length (claimed ++ mon_mru_list st ++ mon_free st)) = next_mon st - 1;
  mi_alloc : mru_alloc st = next_mon st - 1;
  mi_entries : mru_entries st = Z.of_nat (length (mon_mru_list st));
  mi_bound : next_mon st <= 2 ^ 32;
  mi_index : indexed (mon_hash_of st) (mon_mru_list st) (mon_hash st);
  mi_unique : forall p q, p ∈ mon_mru_list st -> q ∈ mon_mru_list st ->
    SOCK_EQ (me_rmtadr (mon_at st p)) (me_rmtadr (mon_at st q)) = true -> p = q;
  mi_enabled : is_u32 (mon_enabled st);
  mi_off : mon_enabled st = MON_OFF -> mon_mru_list st = [] }.

Lemma mon_at_put st p q m : mon_at (put_mon p m st) q = if decide (p = q) then m else mon_at st q.
Proof.
  unfold mon_at, put_mon. cbn. case_decide; subst; [now rewrite lookup_insert_eq |].
  now rewrite lookup_insert_ne.
Qed.

(** The chain search finds the entry of a source. *)
Lemma mon_find st c a :
  mon_inv c st ->
  match chain_find (fun mon => SOCK_EQ (me_rmtadr (mon_at st mon)) a)
          (bucket (mon_hash st) (MON_HASH st a)) with
  | Some p => p ∈ mon_mru_list st /\ SOCK_EQ (me_rmtadr (mon_at st p)) a = true
  | None => forall p, p ∈ mon_mru_list st -> SOCK_EQ (me_rmtadr (mon_at st p)) a = false
  end.
Proof.
  intros Hi. destruct (chain_find _ _) as [p|] eqn:E.
  - destruct (indexed_find_live _ _ _ _ _ _ (mi_index _ _ Hi) E) as (? & _ & ?). auto.
  - intros p Hp. destruct (SOCK_EQ _ _) eqn:Es; [| done]. exfalso.
    rewrite chain_find_None in E. rewrite E in Es; [done |].
    apply (mi_index _ _ Hi). split; [done |]. unfold mon_hash_of, MON_HASH.
    now rewrite (SOCK_EQ_hash _ _ Es).
Qed.

(** A structure off the lists may be overwritten. *)
Lemma put_claimed c p m st :
  mon_inv c st -> p ∉ mon_mru_list st -> mon_inv c (put_mon p m st).
Proof.
  intros Hi Hp.
  assert (E : forall q, q ∈ mon_mru_list st -> mon_at (put_mon p m st) q = mon_at st q).
  { intros q Hq. rewrite mon_at_put, decide_False; [done | set_solver]. }
  destruct Hi. split; try done.
  - eapply indexed_proper; [done | | done]. intros q Hq. unfold mon_hash_of. now rewrite E.
  - intros q r Hq Hr. rewrite !E by done. auto.
Qed.

(** Rearranging the three lists without touching the MRU list. *)
Lemma mon_inv_lists c c' f st :
  Permutation (c ++ mon_mru_list st ++ mon_free st) (c' ++ mon_mru_list st ++ f) ->
  mon_inv c st -> mon_inv c' (st <| mon_free := f |>).
Proof.
  intros Hp Hi. destruct Hi.
  split; try done; cbn [mon_mru_list mon_free next_mon setter]; [| intros q |];
    rewrite <- Hp; auto.
Qed.

Lemma free_entry_inv c p st :
  mon_inv (p :: c) st -> mon_inv c (mon_free_entry p st).
Proof.
  intros Hi. assert (Hp : p ∉ mon_mru_list st).
  { pose proof (mi_nodup _ _ Hi) as Hn. cbn in Hn. apply NoDup_cons in Hn. set_solver. }
  unfold mon_free_entry. change (mon_free st) with (mon_free (put_mon p zero_mon st)).
  apply (mon_inv_lists (p :: c)); [| now apply put_claimed].
  cbn. rewrite !(assoc_L (++)). apply Permutation_cons_app. done.
Qed.

(** Taking an entry off the MRU list and out of the table. *)
Definition detach (p : Z) (st : mon_state) : mon_state :=
  remove_from_hash p (st <| mon_mru_list := UNLINK p (mon_mru_list st) |>).

Lemma detach_inv c p st :
  mon_inv c st -> p ∈ mon_mru_list st -> mon_inv (p :: c) (detach p st).
Proof.
  intros Hi Hp. pose proof (UNLINK_perm _ _ Hp) as Hperm.
  assert (Hn : NoDup (mon_mru_list st)).
  { pose proof (mi_nodup _ _ Hi) as H. rewrite !NoDup_app in H. tauto. }
  assert (Hall : Permutation ((p :: c) ++ UNLINK p (mon_mru_list st) ++ mon_free st)
                   (c ++ mon_mru_list st ++ mon_free st)).
  { rewrite Hperm at 2. cbn. now rewrite Permutation_middle. }
  pose proof (UNLINK_length _ _ Hp) as Hlen.
  destruct Hi. split; cbn [detach remove_from_hash mon_mru_list mon_free next_mon mru_alloc
    mru_entries mon_enabled setter]; rewrite ?Hall; try done.
  - intros q. rewrite Hall. auto.
  - rewrite mi_entries0. unfold u32, wrap. rewrite !length_app in mi_total0.
    rewrite Z.mod_small; [lia |]. unfold_ranges. lia.
  - now apply (indexed_unlink (mon_hash_of st)).
  - intros q r Hq Hr. apply UNLINK_sub in Hq, Hr. auto.
  - intros H. rewrite mi_off0 by done. done.
Qed.

Lemma reclaim_inv c p st :
  mon_inv c st -> p ∈ mon_mru_list st -> mon_inv (p :: c) (mon_reclaim_entry p st).
Proof.
  intros Hi Hp. pose proof (detach_inv c p st Hi Hp) as Hd.
  apply (put_claimed (p :: c) p zero_mon (detach p st) Hd).
  pose proof (mi_nodup _ _ Hd) as Hn. cbn in Hn. apply NoDup_cons in Hn. set_solver.
Qed.

(** ** More memory *)

Lemma free_all_inv l c st :
  mon_inv (l ++ c) st -> mon_inv c (fold_left (fun st mon => mon_free_entry mon st) l st).
Proof. revert st. induction l as [|p l IH]; intros st Hi; cbn; [done |]. apply IH. now apply free_entry_inv. Qed.

(** What freeing entries leaves alone. *)
Lemma free_all_fields l st :
  let st' := fold_left (fun st mon => mon_free_entry mon st) l st in
  mon_mru_list st' = mon_mru_list st /\ mon_enabled st' = mon_enabled st /\
  mru_alloc st' = mru_alloc st /\ next_mon st' = next_mon st /\
  mon_free st' = reverse l ++ mon_free st /\ mon_hash st' = mon_hash st /\
  mon_hash_bits st' = mon_hash_bits st /\
  (forall p, p ∉ l -> mon_at st' p = mon_at st p).
Proof.
  cbv zeta. revert st. induction l as [|q l IH]; intros st; cbn [fold_left]; [done |].
  destruct (IH (mon_free_entry q st)) as (-> & -> & -> & -> & -> & -> & -> & H).
  split_and!; try done; [now rewrite reverse_cons, <- app_assoc |].
  intros p Hp. rewrite H by set_solver. etransitivity; [exact (mon_at_put st q p zero_mon) |].
  rewrite decide_False; [done | set_solver].
Qed.

Lemma fold_free_set (f : mon_state -> mon_state) l st :
  (forall p st, mon_free_entry p (f st) = f (mon_free_entry p st)) ->
  fold_left (fun st mon => mon_free_entry mon st) l (f st)
  = f (fold_left (fun st mon => mon_free_entry mon st) l st).
Proof. intros H. revert st. induction l as [|p l IH]; intros st; cbn; [done |]. now rewrite H, IH. Qed.

Lemma fold_free_incr l st :
  mon_mem_increments (fold_left (fun st mon => mon_free_entry mon st) l st) = mon_mem_increments st.
Proof. revert st. induction l as [|p l IH]; intros st; cbn; [done |]. now rewrite IH. Qed.

Definition chunk_size (st : mon_state) : Z :=
  if 0 =? mon_mem_increments st then mru_initalloc st else mru_incalloc st.

Lemma getmoremem_inv c st :
  mon_inv c st -> 0 <= chunk_size st -> next_mon st + chunk_size st <= 2 ^ 32 ->
  mon_inv c (mon_getmoremem st) /\
  mon_mru_list (mon_getmoremem st) = mon_mru_list st /\
  mon_enabled (mon_getmoremem st) = mon_enabled st /\
  mon_free (mon_getmoremem st) = zrange (next_mon st) (Z.to_nat (chunk_size st)) ++ mon_free st /\
  (forall p, p ∈ mon_mru_list st -> mon_at (mon_getmoremem st) p = mon_at st p).
Proof.
  intros Hi H0 Hb. set (n := chunk_size st) in *. pose proof (mi_total _ _ Hi) as Ht.
  set (chunk := zrange (next_mon st) (Z.to_nat n)).
  set (st1 := st <| next_mon := next_mon st + n |> <| mru_alloc := u32 (mru_alloc st + n) |>
                 <| mon_mem_increments := u32 (mon_mem_increments st + 1) |>).
  assert (E : mon_getmoremem st = fold_left (fun st mon => mon_free_entry mon st) (reverse chunk) st1).
  { unfold mon_getmoremem, st1. fold (chunk_size st). fold n. fold chunk. symmetry.
    rewrite (fold_free_set (fun s => s <| mru_alloc := u32 (mru_alloc st + n) |>
      <| mon_mem_increments := u32 (mon_mem_increments st + 1) |>)) by done.
    destruct (free_all_fields (reverse chunk) (st <| next_mon := next_mon st + n |>))
      as (_ & _ & -> & _).
    now rewrite (fold_free_incr (reverse chunk) (st <| next_mon := next_mon st + n |>)). }
  assert (Hfresh : forall p, p ∈ reverse chunk <-> next_mon st <= p < next_mon st + n).
  { intros p. rewrite elem_of_reverse. unfold chunk. rewrite zrange_elem. lia. }
  assert (Hi1 : mon_inv (reverse chunk ++ c) st1).
  { destruct Hi. split; try done; unfold st1; cbn [mon_mru_list mon_free next_mon mru_alloc setter].
    - rewrite <- app_assoc, NoDup_app. split_and!; [| | done].
      + rewrite reverse_Permutation. apply zrange_NoDup.
      + intros p Hp Hq. apply Hfresh in Hp. apply mi_range0 in Hq. lia.
    - intros p. rewrite <- app_assoc, elem_of_app, Hfresh.
      intros [Hp | Hp]; [| apply mi_range0 in Hp]; lia.
    - rewrite <- app_assoc, length_app, length_reverse. unfold chunk. rewrite zrange_length. lia.
    - rewrite mi_alloc0. unfold u32, wrap. rewrite Z.mod_small; [lia |]. unfold_ranges. lia. }
  rewrite E. pose proof (free_all_inv _ _ _ Hi1) as H2.
  destruct (free_all_fields (reverse chunk) st1) as (E1 & E2 & _ & _ & E5 & _ & _ & E8).
  rewrite E1, E2, E5, reverse_involutive. split_and!; try done.
  intros p Hp. rewrite E8; [done |]. rewrite Hfresh. intros Hc.
  assert (0 < p < next_mon st) by (apply (mi_range _ _ Hi); set_solver). lia.
Qed.

(** ** Claiming an entry *)

(** Settings under which an allocation delivers. *)
Definition mon_room (st : mon_state) : Prop :=
  1 <= mru_initalloc st /\ 1 <= mru_incalloc st /\ 1 <= mru_maxdepth st /\
  next_mon st + Z.max (mru_initalloc st) (mru_incalloc st) <= 2 ^ 32.

(** [st'] claims [p]; the other entries keep their order and contents. *)
Record claims (st st' : mon_state) (p : Z) : Prop := {
  cl_inv : mon_inv [p] st';
  cl_list : mon_mru_list st' = UNLINK p (mon_mru_list st);
  cl_same : forall q, q ∈ mon_mru_list st' -> mon_at st' q = mon_at st q;
  cl_enabled : mon_enabled st' = mon_enabled st }.

Lemma take_free_claims st :
  mon_inv [] st -> mon_room st -> exists p st', take_free st = (Some p, st') /\ claims st st' p.
Proof.
  intros Hi (H1 & H2 & H3 & H4). unfold take_free.
  assert (Hst : exists st1, match mon_free st with [] => mon_getmoremem st | _ => st end = st1 /\
    mon_inv [] st1 /\ mon_free st1 <> [] /\ mon_mru_list st1 = mon_mru_list st /\
    mon_enabled st1 = mon_enabled st /\
    forall q, q ∈ mon_mru_list st -> mon_at st1 q = mon_at st q).
  { destruct (mon_free st) eqn:E; [| exists st; split_and!; auto; congruence].
    assert (1 <= chunk_size st <= Z.max (mru_initalloc st) (mru_incalloc st))
      by (unfold chunk_size; destruct (0 =? _); lia).
    destruct (getmoremem_inv [] st Hi) as (? & ? & ? & Hf & ?); [lia | lia |].
    eexists. split; [reflexivity |]. split_and!; auto. rewrite Hf.
    intros Hnil. apply (f_equal length) in Hnil. rewrite length_app, zrange_length in Hnil.
    cbn in Hnil. lia. }
  destruct Hst as (st1 & -> & Hi1 & Hne & El & Ee & Es).
  destruct (mon_free st1) as [|p rest] eqn:Ef; [done |].
  assert (Hp : p ∉ mon_mru_list st).
  { pose proof (mi_nodup _ _ Hi1) as Hn. cbn in Hn. rewrite Ef, El, NoDup_app in Hn. set_solver. }
  eexists p, _. split; [reflexivity |]. split; cbn [mon_mru_list mon_enabled setter]; try done.
  - apply (mon_inv_lists []); [| done]. cbn. rewrite Ef. now rewrite Permutation_middle.
  - rewrite El. now rewrite UNLINK_notin.
  - rewrite El. exact Es.
Qed.

Lemma reclaim_claims st p :
  mon_inv [] st -> p ∈ mon_mru_list st -> claims st (mon_reclaim_entry p st) p.
Proof.
  intros Hi Hp. pose proof (reclaim_inv [] p st Hi Hp) as Hr. split; try done.
  intros q Hq. etransitivity; [exact (mon_at_put st p q zero_mon) |].
  apply UNLINK_elem in Hq as [_ ?]; [now rewrite decide_False by auto |].
  pose proof (mi_nodup _ _ Hi) as Hn. cbn in Hn. rewrite NoDup_app in Hn. tauto.
Qed.

Lemma mon_claim_spec random r st :
  mon_inv [] st -> mon_room st ->
  (mon_claim random r st = (inl tt, st)) \/
  exists p st', mon_claim random r st = (inr (Some p), st') /\ claims st st' p.
Proof.
  intros Hi Hr. unfold mon_claim.
  destruct (take_free_claims st Hi Hr) as (pf & stf & -> & Hf).
  destruct (mru_entries st <? mru_mindepth st); [eauto |].
  destruct (last (mon_mru_list st)) as [o|] eqn:El.
  - assert (o ∈ mon_mru_list st) by (apply last_Some_elem_of; done).
    pose proof (reclaim_claims st o Hi ltac:(done)).
    repeat case_match; eauto.
  - rewrite bool_decide_false by naive_solver. cbn [andb].
    assert (bool_decide (mon_free st <> []) || (mru_alloc st <? mru_maxdepth st) = true) as ->;
      [| eauto].
    apply last_None in El. pose proof (mi_total _ _ Hi) as Ht. pose proof (mi_alloc _ _ Hi) as Ha.
    rewrite El in Ht. cbn in Ht. destruct (mon_free st) eqn:Ef; cbn in *; [| done].
    destruct Hr as (_ & _ & ? & _). apply Z.ltb_lt. lia.
Qed.

(** ** The two ways a packet is recorded *)

Lemma mon_new_inv r dst flags p st :
  mon_inv [p] st -> mon_enabled st <> MON_OFF ->
  (forall q, q ∈ mon_mru_list st -> SOCK_EQ (me_rmtadr (mon_at st q)) (rb_srcadr r) = false) ->
  mon_inv [] (mon_new r dst flags p st).2.
Proof.
  intros Hi Hen Hun. set (st' := (mon_new r dst flags p st).2).
  pose proof (mi_nodup _ _ Hi) as Hn. cbn in Hn. apply NoDup_cons in Hn as [Hp Hn].
  assert (Hpm : p ∉ mon_mru_list st) by set_solver.
  assert (Ep : me_rmtadr (mon_at st' p) = rb_srcadr r).
  { unfold st', mon_new, mon_at. cbn. now rewrite lookup_insert_eq. }
  assert (Eq : forall q, q ∈ mon_mru_list st -> mon_at st' q = mon_at st q).
  { intros q Hq. unfold st', mon_new, mon_at. cbn. rewrite lookup_insert_ne; [done | set_solver]. }
  pose proof (mi_total _ _ Hi) as Ht. cbn in Ht. rewrite length_app in Ht.
  destruct Hi. split; cbn [app].
  - now apply NoDup_cons.
  - exact mi_range0.
  - exact mi_total0.
  - done.
  - unfold st', mon_new. cbn. rewrite mi_entries0. unfold u32, wrap.
    rewrite Z.mod_small; unfold_ranges; lia.
  - done.
  - change (mon_hash st') with (LINK_BUCKET (MON_HASH st' (rb_srcadr r)) p (mon_hash st)).
    rewrite <- Ep. apply (indexed_link (mon_hash_of st')); [| done].
    eapply indexed_proper; [done | | exact mi_index0].
    intros q Hq. unfold mon_hash_of. now rewrite Eq.
  - intros q1 q2. change (mon_mru_list st') with (p :: mon_mru_list st).
    rewrite !elem_of_cons. intros [-> | Hq1] [-> | Hq2]; rewrite ?Ep, ?Eq by done; auto.
    + intros E. apply SOCK_EQ_sym in E. rewrite Hun in E; done.
    + intros E. rewrite Hun in E; done.
  - done.
  - done.
Qed.

Lemma mon_known_inv r flags p st :
  mon_inv [] st -> p ∈ mon_mru_list st -> mon_inv [] (mon_known r flags p st).2.
Proof.
  intros Hi Hp. set (st' := (mon_known r flags p st).2).
  assert (Hl : mon_mru_list st' = p :: UNLINK p (mon_mru_list st))
    by (unfold st', mon_known; now destruct (rate_control _ _ _ _ _)).
  assert (Hf : mon_free st' = mon_free st /\ next_mon st' = next_mon st /\ mru_alloc st' = mru_alloc st
    /\ mru_entries st' = mru_entries st /\ mon_hash st' = mon_hash st /\ mon_enabled st' = mon_enabled st
    /\ mon_hash_bits st' = mon_hash_bits st)
    by (unfold st', mon_known; now destruct (rate_control _ _ _ _ _)).
  destruct Hf as (F1 & F2 & F3 & F4 & F5 & F6 & F7).
  assert (Hadr : forall q, sa_family (me_rmtadr (mon_at st' q)) = sa_family (me_rmtadr (mon_at st q)) /\
    sa_addr (me_rmtadr (mon_at st' q)) = sa_addr (me_rmtadr (mon_at st q)) /\
    sa_scope (me_rmtadr (mon_at st' q)) = sa_scope (me_rmtadr (mon_at st q))).
  { intros q. unfold st', mon_known. destruct (rate_control _ _ _ _ _). cbn [snd].
    match goal with |- context [put_mon p ?m st] => set (m' := m) end.
    assert (E : forall x, mon_at ((put_mon p m' st) <| mon_mru_list := x |>) q
                = if decide (p = q) then m' else mon_at st q) by (intros; exact (mon_at_put st p q m')).
    rewrite E. now case_decide; subst. }
  assert (Heq : forall q a, SOCK_EQ (me_rmtadr (mon_at st' q)) a = SOCK_EQ (me_rmtadr (mon_at st q)) a).
  { intros q a. unfold SOCK_EQ. destruct (Hadr q) as (-> & -> & ->). done. }
  assert (Hperm : Permutation (mon_mru_list st') (mon_mru_list st))
    by (rewrite Hl; symmetry; now apply UNLINK_perm).
  destruct Hi. split; rewrite ?F1, ?F2, ?F3, ?F4, ?F5, ?F6, ?Hperm; try done.
  - intros q. rewrite Hperm. auto.
  - eapply indexed_proper; [| | exact mi_index0].
    + intros q. now rewrite Hperm.
    + intros q Hq. unfold mon_hash_of, MON_HASH, MON_HASH_SIZE, sock_hash, IS_IPV4, IS_IPV6.
      destruct (Hadr q) as (-> & -> & _). now rewrite F7.
  - intros q1 q2. rewrite !Hperm, Heq. intros H1 H2 E. apply mi_unique0; auto.
    apply SOCK_EQ_sym in E. rewrite Heq in E. now apply SOCK_EQ_sym.
  - intros H. rewrite mi_off0 in Hp by done. set_solver.
Qed.

(** ** The operations *)

Inductive mon_op :=
| MonStart (mode : Z)
| MonStop (mode : Z)
| MonClear (lcladr : Z)
| MonPacket (random : Z) (r : recvbuf) (dst : endpt) (flags : Z).

Definition run_mon (op : mon_op) (st : mon_state) : option mon_state :=
  match op with
  | MonStart mode => Some (mon_start mode st)
  | MonStop mode => Some (mon_stop mode st)
  | MonClear lcladr => Some (mon_clearinterface lcladr st)
  | MonPacket random r dst flags => snd <$> ntp_monitor random r dst flags st
  end.

(** An empty MRU list is indexed by an empty table whatever the hash width. *)
Lemma mon_inv_reset bits en st :
  mon_inv [] st -> mon_mru_list st = [] -> is_u32 en ->
  mon_inv [] (st <| mon_hash_bits := bits |> <| mon_hash := ∅ |> <| mon_enabled := en |>).
Proof.
  intros Hi E Hen. destruct Hi. split; try done.
  cbn [mon_mru_list mon_hash setter]. rewrite E. apply indexed_empty.
Qed.

Lemma mon_start_inv mode st :
  mon_inv [] st -> mon_room st -> is_u32 mode -> mon_inv [] (mon_start mode st).
Proof.
  intros Hi (H1 & H2 & H3 & H4) Hm. unfold mon_start, nonzero.
  destruct (Z.eqb_spec MON_OFF mode) as [| Hm0]; [done |].
  destruct (Z.eqb_spec (mon_enabled st) 0) as [E0 | E0]; cbn [negb].
  - pose proof (mi_off _ _ Hi E0) as El.
    destruct (0 =? mon_mem_increments st) eqn:Ei; [| apply mon_inv_reset; auto with ntp].
    assert (0 <= chunk_size st <= Z.max (mru_initalloc st) (mru_incalloc st))
      by (unfold chunk_size; destruct (0 =? _); lia).
    destruct (getmoremem_inv [] st Hi) as (? & E & _); [lia | lia |].
    apply mon_inv_reset; [done | now rewrite E | auto with ntp].
  - pose proof (lor_range 32 (mon_enabled st) mode ltac:(lia) (mi_enabled _ _ Hi) Hm) as Hr.
    destruct Hi. split; try done; cbn [mon_enabled mon_mru_list setter]; rewrite u32_small by done.
    + done.
    + intros E. apply Z.lor_eq_0_iff in E as [? _]. done.
Qed.

Lemma mon_stop_inv mode st : mon_inv [] st -> mon_inv [] (mon_stop mode st).
Proof.
  intros Hi. unfold mon_stop. destruct (MON_OFF =? mon_enabled st); [done |].
  destruct (_ || _); [done |]. set (st1 := st <| mon_enabled := _ |>).
  assert (Hr : is_u32 (mon_enabled st1)) by apply u32_range.
  destruct (Z.eqb_spec (mon_enabled st1) MON_OFF) as [E | E]; cbn [negb].
  - destruct (free_all_fields (mon_mru_list st1) st1) as (F1 & F2 & F3 & F4 & F5 & F6 & F7 & F8).
    set (st2 := fold_left _ _ st1) in *.
    assert (Hperm : Permutation (mon_free st2) (mon_mru_list st ++ mon_free st))
      by now rewrite F5, reverse_Permutation.
    destruct Hi. split; cbn [mon_mru_list mon_free next_mon mru_alloc mru_entries mon_enabled
      mon_hash setter app]; rewrite ?Hperm, ?F2, ?F3, ?F4; try done.
    + intros p. rewrite Hperm. auto.
    + apply indexed_empty.
    + set_solver.
  - destruct Hi. split; try done.
Qed.

(** A step that removes an entry, and the iteration over the list at entry. *)
Lemma mon_drop_inv p st :
  mon_inv [] st -> p ∈ mon_mru_list st -> mon_inv [] (mon_free_entry p (detach p st)).
Proof. intros Hi Hp. now apply free_entry_inv, detach_inv. Qed.

Lemma mon_clear_inv lcladr st : mon_inv [] st -> mon_inv [] (mon_clearinterface lcladr st).
Proof.
  intros Hi. unfold mon_clearinterface.
  assert (Hn : NoDup (mon_mru_list st))
    by (pose proof (mi_nodup _ _ Hi) as Hn; cbn in Hn; rewrite NoDup_app in Hn; tauto).
  assert (Hl : forall p, p ∈ mon_mru_list st -> p ∈ mon_mru_list st) by done.
  revert Hl Hn. generalize (mon_mru_list st) at 1 3 4 as l. intros l. revert st Hi.
  induction l as [|p l IH]; intros st Hi Hl Hn; cbn [fold_left]; [done |].
  apply NoDup_cons in Hn as [Hp Hn]. case_match; [| apply IH; auto; set_solver].
  assert (Hpm : p ∈ mon_mru_list st) by set_solver.
  apply IH; [exact (mon_drop_inv p st Hi Hpm) | | done].
  intros q Hq. change (q ∈ UNLINK p (mon_mru_list st)). apply UNLINK_elem; [| set_solver].
  pose proof (mi_nodup _ _ Hi) as Hm. cbn in Hm. rewrite NoDup_app in Hm. tauto.
Qed.

Lemma ntp_monitor_spec random r dst flags st :
  mon_inv [] st -> mon_room st ->
  exists f st', ntp_monitor random r dst flags st = Some (f, st') /\ mon_inv [] st' /\
    ((st' = st /\ f = NOLIMIT flags) \/
     exists p, mon_mru_list st' = p :: UNLINK p (mon_mru_list st) /\
       SOCK_EQ (me_rmtadr (mon_at st' p)) (rb_srcadr r) = true /\
       me_last (mon_at st' p) = rb_time r /\ me_flags (mon_at st' p) = f).
Proof.
  intros Hi Hr. unfold ntp_monitor. destruct (Z.eqb_spec (mon_enabled st) MON_OFF) as [| Hen]; [eauto 10 |].
  pose proof (mon_find st [] (rb_srcadr r) Hi) as Hfind.
  destruct (chain_find _ _) as [p|].
  - destruct Hfind as [Hp Heq]. pose proof (mon_known_inv r flags p st Hi Hp) as Hk.
    destruct (mon_known r flags p st) as [f st'] eqn:E. exists f, st'. split; [done |].
    split; [done |]. right. exists p. unfold mon_known in E.
    destruct (rate_control _ _ _ _ _). injection E as <- <-. split; [done |].
    unfold mon_at. cbn. rewrite lookup_insert_eq. cbn. split; [| done]. exact Heq.
  - destruct (mon_claim_spec random r st Hi Hr) as [-> | (p & st1 & -> & [C1 C2 C3 C4])];
      [eauto 10 |].
    assert (Hun : forall q, q ∈ mon_mru_list st1 ->
              SOCK_EQ (me_rmtadr (mon_at st1 q)) (rb_srcadr r) = false).
    { intros q Hq. rewrite C3 by done. apply Hfind. rewrite C2 in Hq. eapply UNLINK_sub, Hq. }
    pose proof (mon_new_inv r dst flags p st1 C1 ltac:(congruence) Hun) as Hn.
    destruct (mon_new r dst flags p st1) as [f st'] eqn:E. exists f, st'. split; [done |].
    split; [done |]. right. exists p. unfold mon_new in E. injection E as <- <-.
    split; [cbn; now rewrite C2 |].
    unfold mon_at. cbn. rewrite lookup_insert_eq. cbn. split; [apply SOCK_EQ_refl | done].
Qed.

(** C30: the monitor's lists stay consistent under every operation: each
    structure allocated is on exactly one of the MRU list and the free
    list, the hash table indexes exactly the MRU list, no source address
    has two entries, and [mru_entries] and [mru_alloc] count them; no
    operation dereferences a null pointer. *)
Theorem monitor_invariant (op : mon_op) (st : mon_state) :
  mon_inv [] st -> mon_room st ->
  match op with MonStart mode => is_u32 mode | _ => True end ->
  exists st', run_mon op st = Some st' /\ mon_inv [] st'.
Proof.
  intros Hi Hr Hop. destruct op; cbn [run_mon].
  - eauto using mon_start_inv.
  - eauto using mon_stop_inv.
  - eauto using mon_clear_inv.
  - destruct (ntp_monitor_spec random r dst flags st Hi Hr) as (f & st' & -> & ? & _). cbn. eauto.
Qed.

(** A packet is either not recorded, leaving the lists as they were and
    dousing the limiting flags, or its source's entry becomes the head of
    the MRU list with the arrival time and the returned flags, the other
    entries keeping their order. *)
Theorem monitor_records_source (random : Z) (r : recvbuf) (dst : endpt) (flags : Z) (st : mon_state) :
  mon_inv [] st -> mon_room st ->
  exists f st', ntp_monitor random r dst flags st = Some (f, st') /\
    ((st' = st /\ f = NOLIMIT flags) \/
     exists p, mon_mru_list st' = p :: UNLINK p (mon_mru_list st) /\
       SOCK_EQ (me_rmtadr (mon_at st' p)) (rb_srcadr r) = true /\
       me_last (mon_at st' p) = rb_time r /\ me_flags (mon_at st' p) = f).
Proof.
  intros Hi Hr. destruct (ntp_monitor_spec random r dst flags st Hi Hr) as (f & st' & ? & _ & ?). eauto.
Qed.

(** A small monitor for closed instances. *)
Definition sample_mon : mon_state :=
  mk_mon_state ∅ ∅ 0 [] [] 1 0 0 0 4 4 0 3 3 MON_OFF 600 64 1000 3000.

Lemma sample_mon_ok : mon_inv [] sample_mon /\ mon_room sample_mon.
Proof.
  split; [| unfold mon_room; cbn; lia].
  split; cbn; try done; try lia; try set_solver; [apply NoDup_nil_2 | apply indexed_empty].
Qed.

Definition sample_packet : recvbuf :=
  mk_recvbuf (mk_sockaddr AF_INET 0x0a000001 0 123) 1 7 (mk_lfp 1000 0) 48 (replicate 48 0).

Lemma monitor_invariant_witness :
  exists st', run_mon (MonStart MON_ON) sample_mon = Some st' /\ mon_inv [] st'.
Proof. apply monitor_invariant; [apply sample_mon_ok | apply sample_mon_ok | unfold is_u32, MON_ON; lia]. Defined.

Lemma monitor_records_source_witness :
  let st := mon_start MON_ON sample_mon in
  exists f st', ntp_monitor 0 sample_packet zero_endpt 0x420 st = Some (f, st') /\
    ((st' = st /\ f = NOLIMIT 0x420) \/
     exists p, mon_mru_list st' = p :: UNLINK p (mon_mru_list st) /\
       SOCK_EQ (me_rmtadr (mon_at st' p)) (rb_srcadr sample_packet) = true /\
       me_last (mon_at st' p) = rb_time sample_packet /\ me_flags (mon_at st' p) = f).
Proof.
  cbv zeta. apply monitor_records_source.
  - apply mon_start_inv; [apply sample_mon_ok | apply sample_mon_ok | unfold is_u32, MON_ON; lia].
  - unfold mon_room. vm_compute. repeat split; discriminate.
Defined.
