(* ===== verification/Stats.v ===== *)
(** * Statistics records, the leap second file and time steps (ntpd/ntp_util.c)

    The records of the statistics files, which file the line goes to being
    the business of FileGen.v; the leap second table; and what the daemon
    does after its clock was stepped.  A record is written as one line
    without its newline. *)

From Stdlib Require Import String.
From S2P Require Import Prelude FixedPoint Calendar NtpTypes Double Text Decimal Lines FileGen Monitor.
From stdpp Require Import base gmap list.
#[local] Open Scope Z_scope.

(** ** Records *)

Definition MJD_1900 : Z := 15020.
Definition MAXFILENAME : nat := 256.

Definition ulfptoa (v : l_fp) (ndec : Z) : option (list Z) := dolfptoa (l_ui v) (l_uf v) false ndec false.

(** The day and the time of day every record begins with. *)
Definition stamp_text (now : l_fp) : option (list Z) :=
  let day := u64 (l_ui now / 86400 + MJD_1900) in
  time ← ulfptoa (mk_lfp (l_ui now mod 86400) (l_uf now)) 3;
  Some (fmt_u day ++ 32 :: time).

(** The addresses of the file sets, in the order they are registered. *)
Definition peerstats : Z := 1.
Definition loopstats : Z := 2.
Definition clockstats : Z := 3.
Definition rawstats : Z := 4.
Definition sysstats : Z := 5.
Definition protostats : Z := 6.
Definition cryptostats : Z := 7.
Definition timingstats : Z := 8.
Definition all_sets : list (list Z * Z) :=
  [(txt "peerstats", peerstats); (txt "loopstats", loopstats); (txt "clockstats", clockstats); (txt "rawstats", rawstats);
   (txt "sysstats", sysstats); (txt "protostats", protostats); (txt "cryptostats", cryptostats); (txt "timingstats", timingstats)].
Definition init_util (s : stats) : stats := fold_left (fun s e => filegen_register (statsdir s) e.1 e.2 s) all_sets s.

Section Records.
Context `{Permissions}.

(** The common part of the records: whether the line was written. *)
Definition record_text (p : Z) (now : l_fp) (i : sysinfo) (text : list Z) (s : stats) : option (bool * stats) :=
  if negb (stats_control s) then Some (false, s)
  else
    s ← filegen_setup p (l_ui now) i s;
    g ← gens s !! p;
    match fg_fp g with
    | None => Some (false, s)
    | Some n =>
        stamp ← stamp_text now;
        Some (true, s <| files := write_line n (stamp ++ 32 :: text) (files s) |>)
    end.
Definition words (l : list (list Z)) : list Z := match l with [] => [] | w :: l => w ++ flat_map (fun w => 32 :: w) l end.
Definition dMillion : double := dofZ 1000000.

Definition record_peer_stats `{NetText} (addr : sockaddr) (status : Z) (offset delay dispersion jitter : double)
    (now : l_fp) (i : sysinfo) (s : stats) : option stats :=
  snd <$> record_text peerstats now i
    (words [socktoa (Some addr); fmt_x (u32 status); fmt_f 9 offset; fmt_f 9 delay; fmt_f 9 dispersion; fmt_f 9 jitter]) s.
Definition record_loop_stats (offset freq jitter wander : double) (spoll : Z) (now : l_fp) (i : sysinfo) (s : stats) : option stats :=
  snd <$> record_text loopstats now i
    (words [fmt_f 9 offset; fmt_f 3 (freq *d dMillion); fmt_f 9 jitter; fmt_f 6 (wander *d dMillion); fmt_d spoll]) s.
Definition record_clock_stats `{NetText} (addr : sockaddr) (text : list Z) (now : l_fp) (i : sysinfo) (s : stats) : option stats :=
  snd <$> record_text clockstats now i (words [socktoa (Some addr); text]) s.
Definition record_proto_stats (str : list Z) (now : l_fp) (i : sysinfo) (s : stats) : option stats :=
  snd <$> record_text protostats now i str s.

(** The counters in the order of the record; [since] is [sys_stattime].  A
    record that is written clears them. *)
Definition record_sys_stats (since : Z) (counts : list Z) (now : l_fp) (i : sysinfo) (s : stats) : option (Z * list Z * stats) :=
  '(written, s) ← record_text sysstats now i (words (map fmt_u (u64 (current_time i - since) :: counts))) s;
  Some (if (written : bool) then (current_time i, map (fun _ => 0) counts, s) else (since, counts, s)).

(** [stats_config] of [STATS_STATSDIR]. *)
Definition stats_config_statsdir (fuel : nat) (value : list Z) (now : l_fp) (i : sysinfo) (s : stats) : option stats :=
  if (MAXFILENAME - 1 <=? length value)%nat then Some s
  else
    let add_dir_sep := match last value with None => false | Some c => negb (DIR_SEP =? c) end in
    filegen_statsdir fuel now i (s <| statsdir := if add_dir_sep then value ++ [DIR_SEP] else value |>).
End Records.

(** ** The leap second file *)

Definition LEAP_ROOM : nat := 254.

(** [leap_tai], [leap_sec] and [leap_expire]. *)
Record leap_table := mk_leap { lt_tai : Z; lt_sec : Z; lt_expire : Z }.

(** The state of the loop: the last leap, its offset, the expiration, and
    the offset that comes next. *)
Record leap_scan := mk_scan { sc_leap : Z; sc_offset : Z; sc_expire : Z; sc_i : Z }.

Definition leap_pair (buf : list Z) (v : leap_scan) : option leap_scan :=
  match scan_lu buf with
  | None => Some v
  | Some (leap, rest) =>
      match scan_d rest with
      | None => Some (mk_scan leap (sc_offset v) (sc_expire v) (sc_i v))
      | Some (offset, _) =>
          if negb (sc_i v =? offset) then None else Some (mk_scan leap offset (sc_expire v) (sc_i v + 1))
      end
  end.
Definition leap_line (buf : list Z) (v : leap_scan) : option leap_scan :=
  match c_string buf with
  | [] => Some v
  | 35 :: c :: d :: rest =>
      if (c =? 64) || (c =? 36) then
        '(expire, _) ← scan_lu (d :: rest); Some (mk_scan (sc_leap v) (sc_offset v) expire (sc_i v))
      else leap_pair (35 :: c :: d :: rest) v
  | 35 :: _ => Some v
  | buf => leap_pair buf v
  end.
Fixpoint leap_lines (fuel : nat) (file : list Z) (v : leap_scan) : option leap_scan :=
  match fuel, file with
  | _, [] => Some v
  | O, _ => None
  | S fuel, _ => let '(buf, file) := fgets LEAP_ROOM file in v ← leap_line buf v; leap_lines fuel file v
  end.
(** [None] is the return value -1, which leaves the table alone. *)
Definition leap_file (file : list Z) : option leap_table :=
  v ← leap_lines (length file) file (mk_scan 0 0 0 10);
  if sc_i v =? 10 then None else Some (mk_leap (sc_offset v) (sc_leap v) (sc_expire v)).

Record file_times := mk_times { st_mtime : Z; st_ctime : Z }.
(** [leapseconds_file_sb1] and the table; whether there is a file name. *)
Record leap_vars := mk_leap_vars { leapseconds_file : bool; leapseconds_file_sb1 : file_times; leap_data : leap_table }.

(** [fp] is the file, [None] if it does not open; its times are missing when
    [fstat] fails. *)
Definition check_leap_file (fp : option (option file_times * list Z)) (v : leap_vars) : leap_vars :=
  if negb (leapseconds_file v) then v
  else
    match fp with
    | None | Some (None, _) => v
    | Some (Some sb2, file) =>
        let sb1 := leapseconds_file_sb1 v in
        if negb (st_mtime sb1 =? st_mtime sb2) || negb (st_ctime sb1 =? st_ctime sb2) then
          mk_leap_vars true sb2 (default (leap_data v) (leap_file file))
        else v
    end.

(** ** After a step of the clock *)

Definition ntpd_time_stepped (st : mon_state) : mon_state :=
  if negb (MON_OFF =? mon_enabled st) then
    let saved_mon_enabled := mon_enabled st in
    mon_start saved_mon_enabled (mon_stop MON_OFF st)
  else st.
