(* ===== verification/StatsFacts.v ===== *)
(** * Statistics records, the leap second file and time steps: theorems *)

From Stdlib Require Import String.
From S2P Require Import Prelude FixedPoint Calendar CalendarFacts NtpTypes Double Lists Text TextFacts Decimal DecimalFacts Lines LinesFacts FileGen FileGenFacts Monitor MonitorFacts Stats.
From stdpp Require Import base gmap list.
#[local] Open Scope Z_scope.

(** ** The lines on the disk *)

(** Inodes are allocated, and the names lead to files that exist. *)
Definition disk_ok (f : fs) : Prop :=
  fs_ok f /\ forall name k, names f !! name = Some (File k) -> is_Some (contents f !! k).
Definition lines_of (f : fs) (k : Z) : list (list Z) := default [] (contents f !! k).

Lemma disk_names f f' :
  disk_ok f -> contents f' = contents f -> next_inode f' = next_inode f -> (forall n, reachable f' n -> reachable f n) -> disk_ok f'.
Proof.
  intros [W D] C N R. split.
  - intros k. rewrite C, N. apply W.
  - intros name k E. rewrite C. destruct (R (File k)) as (name' & E'); [now exists name | eauto].
Qed.

Section Disk.
Context `{Permissions}.

Lemma clear_disk i filename s :
  disk_ok (files s) -> disk_ok (files (clear_base i filename s)) /\ contents (files (clear_base i filename s)) = contents (files s).
Proof.
  intros D. unfold clear_base. destruct (names (files s) !! filename) as [[n|]|] eqn:E; [| done..].
  destruct (_ <=? 1); cbn.
  - set (new := filename ++ _). clearbody new. unfold rename. rewrite E. destruct (names (files s) !! new) as [[k|]|]; [| done |].
    all: destruct (_ && _); [| done]; split; [| done]; apply (disk_names (files s)); try done; intros m (nm & K); cbn in K.
    all: destruct (decide (new = nm)) as [<- | Ne]; [rewrite lookup_insert_eq in K; injection K as <-; now exists filename |].
    all: rewrite lookup_insert_ne in K by done; apply lookup_delete_Some in K as [_ K]; now exists nm.
  - unfold unlink. destruct (can_change filename); [| done]. split; [| done]. apply (disk_names (files s)); try done.
    intros m (nm & K). cbn in K. apply lookup_delete_Some in K as [_ K]. now exists nm.
Qed.

Lemma fopen_disk name f i f' : disk_ok f -> fopen_append name f = Some (i, f') -> disk_ok f' /\ forall k, lines_of f' k = lines_of f k.
Proof.
  intros [W D] F. unfold fopen_append in F. destruct (can_open name); [| done]. cbn [negb] in F.
  destruct (names f !! name) as [[k|]|] eqn:E; [| done |]; injection F as <- <-; [done |].
  assert (Nw : contents f !! next_inode f = None).
  { destruct (contents f !! next_inode f) eqn:X; [| done]. specialize (W (next_inode f) ltac:(eauto)). lia. }
  split; [split |].
  - intros k [l K]. cbn in *. destruct (decide (next_inode f = k)) as [<- | Ne]; [lia |]. rewrite lookup_insert_ne in K by done.
    specialize (W k ltac:(eauto)). lia.
  - intros nm k K. cbn in *. destruct (decide (next_inode f = k)) as [<- | Ne]; [rewrite lookup_insert_eq; eauto |].
    rewrite lookup_insert_ne by done. destruct (decide (name = nm)) as [<- | Ne']; [rewrite lookup_insert_eq in K; congruence |].
    rewrite lookup_insert_ne in K by done. eauto.
  - intros k. unfold lines_of. cbn. destruct (decide (next_inode f = k)) as [<- | Ne]; [now rewrite lookup_insert_eq, Nw | now rewrite lookup_insert_ne].
Qed.

Lemma link_disk old new f : disk_ok f -> disk_ok (link old new f) /\ contents (link old new f) = contents f.
Proof.
  intros D. unfold link. destruct (names f !! old) as [n|] eqn:E; [| done]. destruct (names f !! new); [done |].
  destruct (can_change new); [| done]. split; [| done]. apply (disk_names f); try done. intros m (nm & K). cbn in K.
  destruct (decide (new = nm)) as [<- | Ne]; [rewrite lookup_insert_eq in K; injection K as <-; now exists old |].
  rewrite lookup_insert_ne in K by done. now exists nm.
Qed.

(** [filegen_setup] changes no line, and not the switch. *)
Lemma setup_disk p now i s s' :
  filegen_setup p now i s = Some s' -> disk_ok (files s) ->
  disk_ok (files s') /\ (forall k, lines_of (files s') k = lines_of (files s) k) /\ stats_control s' = stats_control s.
Proof.
  intros E D. unfold filegen_setup in E. destruct (gens s !! p) as [g|] eqn:G; [| done]. cbn [mbind option_bind] in E.
  assert (Open : filegen_open p now i s = Some s' ->
    disk_ok (files s') /\ (forall k, lines_of (files s') k = lines_of (files s) k) /\ stats_control s' = stats_control s).
  { clear E. intros E. unfold filegen_open in E. rewrite G in E. cbn [mbind option_bind] in E. destruct (generation i now g) as [suffix g1].
    assert (K : let s1 := if fg_type g1 =? FILEGEN_NONE then set_gen p g1 s else clear_base i (base_name g) (set_gen p g1 s) in
      disk_ok (files s1) /\ contents (files s1) = contents (files s) /\ stats_control s1 = stats_control s).
    { destruct (_ =? _); [done |]. cbv zeta. destruct (clear_disk i (base_name g) (set_gen p g1 s) D) as [A B]. split; [exact A |]. split; [exact B |].
      unfold clear_base. repeat case_match; done. }
    cbv zeta in K. set (s1 := if _ =? _ then _ else _) in *. clearbody s1. destruct K as (D1 & C1 & S1).
    assert (L1 : forall k, lines_of (files s1) k = lines_of (files s) k) by (intros k; unfold lines_of; now rewrite C1).
    destruct (fopen_append _ _) as [[n f]|] eqn:F; injection E as <-; [| done].
    destruct (fopen_disk _ _ _ _ D1 F) as [D2 L2].
    destruct (has _ _); cbn; [| split; [done |]; split; [intros k; now rewrite L2 | done]].
    destruct (link_disk (base_name g ++ suffix) (base_name g) f D2) as [D3 L3]. split; [exact D3 |]. split; [| done].
    intros k. unfold lines_of in *. rewrite L3. now rewrite L2. }
  destruct (negb _); [now injection E as <- |]. destruct (fg_fp g); [| exact (Open E)].
  destruct (is_current i now g); [now injection E as <- | exact (Open E)].
Qed.
End Disk.

(** ** Records *)

(** The day and the milliseconds of a line are the time, rounded half up. *)
Definition dated (now : l_fp) (text line : list Z) : Prop :=
  exists day ms, line = fmt_u day ++ 32 :: fmt_fixed 3 ms ++ 32 :: text /\ 0 <= ms <= 86400000 /\
    (day - MJD_1900) * 86400000 + ms = scaled (l_ui now * 2 ^ 32 + l_uf now) 3.

Lemma stamp_dated now text :
  is_u32 (l_ui now) -> is_u32 (l_uf now) -> exists stamp, stamp_text now = Some stamp /\ dated now text (stamp ++ 32 :: text).
Proof.
  intros Hi Hf. unfold is_u32 in Hi, Hf. unfold stamp_text, ulfptoa. cbn [l_ui l_uf].
  pose proof (Z.mod_pos_bound (l_ui now) 86400 ltac:(lia)) as Hm. pose proof (Z.div_mod (l_ui now) 86400 ltac:(lia)) as Hd.
  set (d := l_ui now / 86400) in *. set (r := l_ui now mod 86400) in *. clearbody d r.
  rewrite dolfptoa_spec by (unfold is_u32; lia). cbn [mbind option_bind]. eexists. split; [reflexivity |].
  change (places 3 false - ms_places false)%nat with 3%nat. change (places 3 false) with 3%nat. cbn [sign_text app].
  unfold dated. do 2 eexists. split; [now rewrite <- app_assoc |]. unfold scaled, MJD_1900, u64, wrap in *.
  rewrite (Z.mod_small (d + 15020)) by lia. change (10 ^ Z.of_nat 3) with 1000. split.
  - split; [apply Z.div_pos; lia |]. apply Z.lt_succ_r, Z.div_lt_upper_bound; lia.
  - rewrite Hd. replace (((86400 * d + r) * 2 ^ 32 + l_uf now) * 1000 + 2 ^ 31) with ((r * 2 ^ 32 + l_uf now) * 1000 + 2 ^ 31 + d * 86400000 * 2 ^ 32) by lia.
    rewrite Z.div_add by lia. lia.
Qed.

(** A set that records can be written to. *)
Definition ready (i : sysinfo) (now p : Z) (s : stats) (g : FILEGEN) : Prop :=
  gens s !! p = Some g /\ has (fg_flag g) FGEN_FLAG_ENABLED = true /\ calendar_type (fg_type g) /\ only_files s /\ disk_ok (files s) /\
  open_ok (full_second i now) s g /\ stats_control s = true.

Lemma write_line_disk k line f : disk_ok f -> disk_ok (write_line k line f).
Proof.
  intros [W D]. split.
  - intros j [l J]. apply (W j). cbn in J. destruct (decide (k = j)) as [<- | Ne]; [| rewrite lookup_alter_ne in J by done; eauto].
    rewrite lookup_alter_eq in J. destruct (contents f !! k); [eauto | done].
  - intros name j E. specialize (D name j E). cbn. destruct (decide (k = j)) as [<- | Ne]; [| now rewrite lookup_alter_ne].
    rewrite lookup_alter_eq. destruct D as [l ->]. eauto.
Qed.

Lemma write_line_lines k line f j :
  is_Some (contents f !! k) -> lines_of (write_line k line f) j = lines_of f j ++ if j =? k then [line] else [].
Proof.
  intros [l E]. unfold lines_of. cbn. destruct (Z.eqb_spec j k) as [-> | Ne].
  - rewrite lookup_alter_eq, E. done.
  - rewrite lookup_alter_ne by done. now rewrite app_nil_r.
Qed.

(** C13: a statistics record goes where it belongs: for an enabled set of
    daily, weekly, monthly or yearly files, whatever was open before, the
    record is written, as one line at the end of the file whose name has
    the date of the day, ISO week, month or year that its second is in; no
    other line of any file changes; the line begins with the modified
    Julian day and the seconds of the day to the millisecond, which
    together are the time of the record; and the set is ready for the next
    record. *)
Theorem stats_record_filed `{Permissions} i p now text s g :
  (forall name, can_open name = true) -> is_u32 (l_ui now) -> is_u32 (l_uf now) -> sane_time i -> ready i (l_ui now) p s g ->
  exists s' g' lo hi suffix inode line, record_text p now i text s = Some (true, s') /\
    period (fg_type g) lo hi suffix /\ lo <= full_second i (l_ui now) < hi /\
    names (files s') !! (base_name g ++ suffix) = Some (File inode) /\
    (forall k, lines_of (files s') k = lines_of (files s) k ++ if k =? inode then [line] else []) /\
    dated now text line /\ ready i (l_ui now) p s' g'.
Proof.
  intros C Hi Hf Ht (G & En & Ty & O & D & K & Ct).
  destruct (setup_right_file i p (l_ui now) s g C G En Ty Hi Ht O K)
    as (s1 & g1 & lo & hi & suffix & inode & E & G1 & Fp & (F1 & F2 & F3 & O1) & P & B & N & K1).
  destruct (setup_disk p (l_ui now) i s s1 E D) as (D1 & L1 & C1).
  destruct (stamp_dated now text Hi Hf) as (stamp & S1 & S2).
  unfold record_text. rewrite Ct. cbn [negb]. rewrite E. cbn [mbind option_bind]. rewrite G1. cbn [mbind option_bind]. rewrite Fp, S1.
  cbn [mbind option_bind]. eexists _, g1, lo, hi, suffix, inode, _. split; [reflexivity |]. do 3 (split; [done |]). split; [| split; [exact S2 |]].
  - intros k. cbn [files]. rewrite <- L1. apply write_line_lines. exact (proj2 D1 _ _ N).
  - split; [exact G1 |]. rewrite F1, F2. do 3 (split; [done |]). split; [now apply write_line_disk |]. split; [exact K1 | cbn; congruence].
Qed.

Lemma stats_record_filed_witness :
  exists s' g' lo hi suffix inode line, @record_text all_allowed 7 (mk_lfp NOON 0) sample_info (txt "text") sample_stats = Some (true, s') /\
    period FILEGEN_DAY lo hi suffix /\ lo <= full_second sample_info NOON < hi /\
    names (files s') !! (txt "/var/NTP/loopstats" ++ suffix) = Some (File inode) /\
    (forall k, lines_of (files s') k = lines_of sample_files k ++ if k =? inode then [line] else []) /\
    dated (mk_lfp NOON 0) (txt "text") line /\ ready sample_info NOON 7 s' g'.
Proof.
  apply (@stats_record_filed all_allowed sample_info 7 (mk_lfp NOON 0) (txt "text") sample_stats sample_set); [done | | | |].
  - unfold NOON, JAN_1970. unfold_ranges. cbn. lia.
  - unfold_ranges. cbn. lia.
  - unfold sane_time. cbn. lia.
  - split; [apply lookup_insert_eq |]. split; [done |]. split; [left; done |]. split; [exact sample_only_files |].
    split; [| split; [discriminate | done]]. split.
    + intros k [l K]. cbn in *. destruct (decide (1 = k)) as [<- | Ne]; [lia |]. rewrite lookup_insert_ne, lookup_empty in K; done.
    + intros name k K. cbn in *. destruct (decide (txt "/var/NTP/loopstats" = name)) as [<- | Ne].
      * rewrite lookup_insert_eq in K. injection K as <-. rewrite lookup_insert_eq. eauto.
      * rewrite lookup_insert_ne, lookup_empty in K; done.
Defined.

(** ** The leap second file *)

Inductive leap_item :=
| Blank
| Note (text : list Z)
| Expire (sec : Z)
| Leap (sec offset : Z) (comment : list Z).

Definition item_line (e : leap_item) : list Z :=
  match e with
  | Blank => []
  | Note text => 35 :: 32 :: text
  | Expire sec => 35 :: 64 :: [9] ++ fmt_u sec
  | Leap sec offset comment => fmt_u sec ++ 9 :: fmt_u offset ++ 9 :: 35 :: comment
  end.
Definition leap_text (l : list leap_item) : list Z := flat_map (fun e => item_line e ++ [10]) l.

Definition plain (c : Z) : Prop := c <> 0 /\ c <> 10.
Definition item_ok (e : leap_item) : Prop :=
  match e with
  | Blank => True
  | Note text => (length text <= 200)%nat /\ Forall plain text
  | Expire sec => 0 <= sec < 2 ^ 64
  | Leap sec offset comment => 0 <= sec < 2 ^ 64 /\ 0 <= offset < 2 ^ 31 /\ (length comment <= 200)%nat /\ Forall plain comment
  end.
Definition leap_second (e : leap_item) : option Z := match e with Leap sec _ _ => Some sec | _ => None end.
Definition leap_offset (e : leap_item) : option Z := match e with Leap _ offset _ => Some offset | _ => None end.
Definition expiration (e : leap_item) : option Z := match e with Expire sec => Some sec | _ => None end.

Lemma fmt_u_64 n : 0 <= n < 2 ^ 64 -> Z.of_nat (length (fmt_u n)) <= 20 /\ Forall (fun c => 48 <= c <= 57) (fmt_u n).
Proof. intros [H0 H1]. apply fmt_u_line; [done.. |]. etransitivity; [exact H1 | reflexivity]. Qed.

Lemma plain_digits l : Forall (fun c => 48 <= c <= 57) l -> Forall plain l.
Proof. intros F. eapply Forall_impl; [exact F |]. cbv beta. intros c Hc. unfold plain. lia. Qed.

Lemma plain_cons c l : c <> 0 -> c <> 10 -> Forall plain l -> Forall plain (c :: l).
Proof. intros. now constructor. Qed.

Lemma item_line_ok e : item_ok e -> (length (item_line e) < LEAP_ROOM)%nat /\ Forall plain (item_line e).
Proof.
  unfold LEAP_ROOM. destruct e as [| text | sec | sec offset comment]; cbn [item_ok item_line app].
  - intros _. split; [cbn; lia | constructor].
  - intros [Hl F]. split; [cbn; lia |]. apply plain_cons, plain_cons; done.
  - intros Hs. destruct (fmt_u_64 sec Hs) as [L F]. split; [cbn [length]; lia |].
    apply plain_cons, plain_cons, plain_cons; try done. now apply plain_digits.
  - intros (Hs & Ho & Hl & F). destruct (fmt_u_64 sec Hs) as [L1 F1].
    destruct (fmt_u_64 offset ltac:(lia)) as [L2 F2].
    rewrite Forall_app. split; [rewrite length_app; cbn [length]; rewrite length_app; cbn [length]; lia |]. split; [now apply plain_digits |].
    apply plain_cons; try done. apply Forall_app. split; [now apply plain_digits |]. apply plain_cons, plain_cons; done.
Qed.

Lemma c_string_line l : Forall plain l -> c_string (l ++ [10]) = l ++ [10].
Proof.
  intros F. unfold c_string. rewrite <- (app_nil_r (l ++ [10])) at 1. apply span_stop; [| done]. apply Forall_app. split; [| now repeat constructor].
  eapply Forall_impl; [exact F |]. intros c [H0 _]. cbn. now rewrite (proj2 (Z.eqb_neq c 0)).
Qed.

Definition scan_item (e : leap_item) (v : leap_scan) : option leap_scan :=
  match e with
  | Blank | Note _ => Some v
  | Expire sec => Some (mk_scan (sc_leap v) (sc_offset v) sec (sc_i v))
  | Leap sec offset _ => if negb (sc_i v =? offset) then None else Some (mk_scan sec offset (sc_expire v) (sc_i v + 1))
  end.

Lemma leap_line_item e v : item_ok e -> leap_line (item_line e ++ [10]) v = scan_item e v.
Proof.
  intros He. destruct (item_line_ok e He) as [_ Fp]. unfold leap_line. rewrite (c_string_line _ Fp). clear Fp.
  destruct e as [| text | sec | sec offset comment]; cbn [item_ok item_line app scan_item] in *; [done | | |].
  - destruct text; reflexivity.
  - change (64 =? 64) with true. cbn [orb]. pose proof (scan_lu_fmt [9] sec [10] He) as E. cbn [app] in E. rewrite E; [done | now repeat constructor | done].
  - destruct He as (Hs & Ho & _ & _). destruct (fmt_u_64 sec Hs) as [_ F].
    assert (E : forall w, leap_pair ((fmt_u sec ++ 9 :: fmt_u offset ++ 9 :: 35 :: comment) ++ [10]) w =
      if negb (sc_i w =? offset) then None else Some (mk_scan sec offset (sc_expire w) (sc_i w + 1))).
    { intros w. rewrite <- app_assoc. cbn [app]. unfold leap_pair. pose proof (scan_lu_fmt [] sec) as E1. cbn [app] in E1. rewrite E1 by done.
      rewrite <- app_assoc. cbn [app]. pose proof (scan_d_fmt [9] offset) as E2. cbn [app] in E2. rewrite E2 by (first [done | now repeat constructor]). done. }
    rewrite <- (E v). destruct (fmt_base_spec 10 sec) as (_ & _ & L & _); [lia.. |]. fold (fmt_u sec) in L. clear E.
    destruct (fmt_u sec) as [|c l]; [cbn in L; lia |]. apply Forall_inv in F. cbn [app].
    destruct c as [|p|p]; try lia. repeat (destruct p as [p|p|]; try lia; try reflexivity).
Qed.

Fixpoint scan_items (l : list leap_item) (v : leap_scan) : option leap_scan :=
  match l with
  | [] => Some v
  | e :: l => v ← scan_item e v; scan_items l v
  end.

Lemma leap_lines_items l : forall fuel v,
  Forall item_ok l -> (length (leap_text l) <= fuel)%nat -> leap_lines fuel (leap_text l) v = scan_items l v.
Proof.
  induction l as [|e l IH]; intros fuel v F Hf; [now destruct fuel |]. inversion_clear F as [|? ? He F'].
  destruct (item_line_ok e He) as [Hl Fl]. cbn [leap_text flat_map] in *. fold (leap_text l) in *. rewrite !length_app in Hf. cbn [length] in Hf.
  destruct fuel as [|fuel]; [lia |]. cbn [leap_lines scan_items].
  destruct ((item_line e ++ [10]) ++ leap_text l) as [|c0 r0] eqn:E0; [now destruct (item_line e) |].
  rewrite <- E0, <- app_assoc. cbn [app]. rewrite fgets_line by (first [done | eapply Forall_impl; [exact Fl | now intros c [_ ?]]]).
  rewrite leap_line_item by done. destruct (scan_item e v) as [w|]; [| done]. cbn [mbind option_bind]. apply IH; [done | lia].
Qed.

Definition in_sequence (from : Z) (offsets : list Z) : Prop := offsets = seqZ from (Z.of_nat (length offsets)).
#[local] Instance in_sequence_dec from offsets : Decision (in_sequence from offsets).
Proof. unfold in_sequence. apply _. Defined.

Lemma in_sequence_cons from o offsets : in_sequence from (o :: offsets) <-> o = from /\ in_sequence (from + 1) offsets.
Proof.
  unfold in_sequence. cbn [length]. rewrite seqZ_cons by lia. replace (Z.pred (Z.of_nat (S (length offsets)))) with (Z.of_nat (length offsets)) by lia.
  change (Z.succ from) with (from + 1). split; [intros X; injection X as -> X; split; [done | exact X] | intros [-> X]; f_equal; exact X].
Qed.

Lemma scan_items_spec l : forall v,
  scan_items l v =
  if decide (in_sequence (sc_i v) (omap leap_offset l)) then
    Some (mk_scan (default (sc_leap v) (last (omap leap_second l))) (default (sc_offset v) (last (omap leap_offset l)))
            (default (sc_expire v) (last (omap expiration l))) (sc_i v + Z.of_nat (length (omap leap_offset l))))
  else None.
Proof.
  assert (LC : forall (x d : Z) (l : list Z), default d (last (x :: l)) = default x (last l)) by (intros; rewrite last_cons; now case_match).
  induction l as [|e l IH]; intros v; cbn [scan_items omap list_omap].
  { rewrite decide_True by done. cbn. rewrite Z.add_0_r. now destruct v. }
  destruct e as [| text | sec | sec offset comment]; cbn [scan_item leap_offset leap_second expiration mbind option_bind]; [apply IH.. | |].
  - rewrite IH. cbn [sc_i sc_leap sc_offset sc_expire]. now rewrite LC.
  - destruct (Z.eqb_spec (sc_i v) offset) as [<- | Ne]; cbn [negb].
    + cbn [mbind option_bind]. rewrite IH. cbn [sc_i sc_leap sc_offset sc_expire].
      rewrite (decide_ext _ _ _ _ (in_sequence_cons _ _ _)).
      destruct (decide (in_sequence (sc_i v + 1) _)) as [S | S].
      * rewrite decide_True by done. rewrite !LC. cbn [length]. do 2 f_equal. lia.
      * rewrite decide_False by tauto. done.
    + rewrite decide_False; [done |]. rewrite in_sequence_cons. intros [-> _]. done.
Qed.

Lemma in_sequence_last from l : in_sequence from l -> l <> [] -> last l = Some (from - 1 + Z.of_nat (length l)).
Proof.
  intros S Ne. rewrite last_lookup. transitivity (seqZ from (Z.of_nat (length l)) !! pred (length l)); [now f_equal |]. apply lookup_seqZ. destruct l; [done |]. cbn [length]. lia.
Qed.

Lemma leap_file_text l :
  Forall item_ok l ->
  leap_file (leap_text l) =
  let offsets := omap leap_offset l in
  if decide (in_sequence 10 offsets /\ offsets <> []) then
    Some (mk_leap (9 + Z.of_nat (length offsets)) (default 0 (last (omap leap_second l))) (default 0 (last (omap expiration l))))
  else None.
Proof.
  intros F. cbv zeta. unfold leap_file. rewrite leap_lines_items, scan_items_spec by done. cbn [sc_i sc_leap sc_offset sc_expire].
  destruct (decide (in_sequence 10 _)) as [S | S]; [| rewrite decide_False by tauto; done]. cbn [mbind option_bind sc_i sc_leap sc_offset sc_expire].
  destruct (decide (omap leap_offset l = [])) as [E | E].
  - rewrite E. cbn [length]. rewrite decide_False by tauto. done.
  - assert (L : (0 < length (omap leap_offset l))%nat) by (destruct (omap leap_offset l); [done | cbn; lia]).
    rewrite (proj2 (Z.eqb_neq _ 10)) by lia. rewrite decide_True, (in_sequence_last 10) by done. done.
Qed.

(** A file with other times is read. *)
Lemma check_leap_changed sb2 file v :
  leapseconds_file v = true -> leapseconds_file_sb1 v <> sb2 ->
  check_leap_file (Some (Some sb2, file)) v = mk_leap_vars true sb2 (default (leap_data v) (leap_file file)).
Proof.
  intros Hn Hs. unfold check_leap_file. rewrite Hn. cbn [negb].
  assert (Ch : negb (st_mtime (leapseconds_file_sb1 v) =? st_mtime sb2) || negb (st_ctime (leapseconds_file_sb1 v) =? st_ctime sb2) = true).
  { destruct (leapseconds_file_sb1 v) as [m1 c1], sb2 as [m2 c2]. cbn. destruct (Z.eqb_spec m1 m2), (Z.eqb_spec c1 c2); try done. congruence. }
  now rewrite Ch.
Qed.

(** C20: the leap second table is the one of the file.  When the file has
    changed, a text of comments, expiration lines and leaps is accepted
    exactly if it has at least one leap and the offsets of the leaps are 10,
    11 and so on without a gap; then the table holds the second of the last
    leap, the offset after it and the last expiration time; otherwise the
    table stays as it was.  The times of the file are remembered in both
    cases. *)
Theorem leap_table_read (l : list leap_item) (sb2 : file_times) (v : leap_vars) :
  Forall item_ok l -> leapseconds_file v = true -> leapseconds_file_sb1 v <> sb2 ->
  check_leap_file (Some (Some sb2, leap_text l)) v =
  let offsets := omap leap_offset l in
  mk_leap_vars true sb2
    (if decide (in_sequence 10 offsets /\ offsets <> []) then
       mk_leap (9 + Z.of_nat (length offsets)) (default 0 (last (omap leap_second l))) (default 0 (last (omap expiration l)))
     else leap_data v).
Proof.
  intros F Hn Hs. rewrite check_leap_changed, leap_file_text by done. cbv zeta. f_equal. now destruct (decide _).
Qed.

Definition sample_leaps : list leap_item :=
  [Note (txt "TAI - UTC"); Expire 3597177600; Leap 2272060800 10 (txt " 1 Jan 1972"); Leap 2287785600 11 (txt " 1 Jul 1972")].

Lemma leap_table_read_witness :
  leap_data (check_leap_file (Some (Some (mk_times 2 2), leap_text sample_leaps)) (mk_leap_vars true (mk_times 1 1) (mk_leap 0 0 0))) =
  mk_leap 11 2287785600 3597177600.
Proof.
  rewrite leap_table_read; [reflexivity | | done | done].
  unfold sample_leaps, plain. repeat constructor; cbn; try lia; repeat constructor; lia.
Defined.

(** ** After a step of the clock *)

(** A source that comes too early, by any amount, stays limited. *)
Lemma early_limited minpkt minpoll interval leak flags :
  is_s32 interval -> has flags RES_LIMITED = true -> interval + 1 < minpkt ->
  has (rate_control minpkt minpoll interval leak flags).2 RES_LIMITED = true.
Proof.
  intros Hi Hl He. unfold rate_control.
  assert (G : (minpkt <=? s32 (interval + 1)) = false).
  { apply Z.leb_gt. destruct (Z.eq_dec interval (2 ^ 31 - 1)) as [-> | Ne]; unfold is_s32 in Hi; [change (s32 (2 ^ 31 - 1 + 1)) with (- 2 ^ 31); lia |].
    rewrite s32_small; [done | unfold_ranges; lia]. }
  rewrite G. cbn [andb]. destruct (_ <? _); [done |]. cbn [snd].
  change RES_LIMITED with (2 ^ 5) in *. rewrite has_bit in * by lia. unfold u16. now rewrite clr_bit, Hl by lia.
Qed.

Lemma time_stepped_same st : is_u32 (mon_enabled st) -> ntpd_time_stepped st = st.
Proof.
  intros He. unfold ntpd_time_stepped, mon_stop. destruct (Z.eqb_spec MON_OFF (mon_enabled st)) as [E | Ne]; [done |]. cbn [negb].
  change (MON_OFF =? MON_OFF) with true. rewrite orb_true_r. unfold mon_start. rewrite (proj2 (Z.eqb_neq _ _) Ne).
  assert (nonzero (mon_enabled st) = true) as -> by (unfold nonzero; apply negb_true_iff, Z.eqb_neq; unfold MON_OFF in Ne; lia).
  rewrite Z.lor_diag, u32_small by done. now destruct st.
Qed.


(** A source seen at second 1000; the clock is set back by 300 seconds, and
    200 seconds later the source sends again. *)
Definition stepped_mon : mon_state :=
  match ntp_monitor 0 sample_packet zero_endpt 0 (mon_start MON_ON sample_mon) with Some (_, st) => st | None => sample_mon end.
Definition late_packet : recvbuf := mk_recvbuf (rb_srcadr sample_packet) 1 7 (mk_lfp 900 0) 48 (replicate 48 0).

