(* ===== verification/Restrict.v ===== *)
(** * Access restrictions: ntpd/ntp_restrict.c

    Two address-and-mask lists, kept sorted by descending address, mask and
    match flags and each ending in a default entry.  Entries live in a heap
    with a free list per family, because the lookup goes on using an entry
    it has just released.  The count of [RES_LIMITED] entries switches the
    monitor on and off.  Addresses and masks are integers of 32 or 128 bits
    in host order; [memcmp] of network-order addresses is their order. *)

From S2P Require Import Prelude FixedPoint Double Lists NtpTypes Monitor.
From stdpp Require Import base gmap list.
#[local] Open Scope Z_scope.

(** ** State *)

Record restrict_u := mk_restrict {
  ru_count : Z; ru_flags : Z; ru_mflags : Z; ru_expire : Z; ru_addr : Z; ru_mask : Z }.
#[export] Instance eta_restrict : Eta restrict_u := fun r =>
  mk_restrict (ru_count r) (ru_flags r) (ru_mflags r) (ru_expire r) (ru_addr r) (ru_mask r).
Definition zero_restrict : restrict_u := mk_restrict 0 0 0 0 0 0.

Record res_state := mk_res_state {
  ress : gmap Z restrict_u; restrictlist4 : list Z; restrictlist6 : list Z; restrictcount : Z;
  resfree4 : list Z; resfree6 : list Z; next_res : Z; res_calls : Z; res_found : Z;
  res_not_found : Z; res_limited_refcnt : Z; restrict_source_enabled : Z;
  restrict_source_flags : Z; restrict_source_mflags : Z; monitor : mon_state }.
#[export] Instance eta_res_state : Eta res_state := fun r =>
  mk_res_state (ress r) (restrictlist4 r) (restrictlist6 r) (restrictcount r) (resfree4 r)
    (resfree6 r) (next_res r) (res_calls r) (res_found r) (res_not_found r)
    (res_limited_refcnt r) (restrict_source_enabled r) (restrict_source_flags r)
    (restrict_source_mflags r) (monitor r).

(** The addresses of the static default entries. *)
Definition restrict_def4 : Z := 1.
Definition restrict_def6 : Z := 2.

(** The zero-initialised globals. *)
Definition res_zero (m : mon_state) : res_state :=
  mk_res_state (<[restrict_def4 := zero_restrict]> {[restrict_def6 := zero_restrict]})
    [] [] 0 [] [] 3 0 0 0 0 0 0 0 m.

Definition res_at (st : res_state) (p : Z) : restrict_u := default zero_restrict (ress st !! p).
Definition put_res (p : Z) (r : restrict_u) (st : res_state) : res_state :=
  st <| ress := <[p := r]> (ress st) |>.

(** The list and the free list of a family. *)
Definition reslist (v6 : bool) (st : res_state) : list Z :=
  if v6 then restrictlist6 st else restrictlist4 st.
Definition set_reslist (v6 : bool) (l : list Z) (st : res_state) : res_state :=
  if v6 then st <| restrictlist6 := l |> else st <| restrictlist4 := l |>.
Definition resfree (v6 : bool) (st : res_state) : list Z :=
  if v6 then resfree6 st else resfree4 st.
Definition set_resfree (v6 : bool) (l : list Z) (st : res_state) : res_state :=
  if v6 then st <| resfree6 := l |> else st <| resfree4 := l |>.

(** ** Entries *)

Definition init_restrict (st : res_state) : res_state :=
  st <| restrictlist4 := restrict_def4 :: restrictlist4 st |>
     <| restrictlist6 := restrict_def6 :: restrictlist6 st |>
     <| restrictcount := 2 |>.

(** [offsetof(restrict_u, u)] is 24 on LP64. *)
Definition V4_SIZEOF_RESTRICT_U : Z := 24 + 8.
Definition V6_SIZEOF_RESTRICT_U : Z := 24 + 32.
Definition INC_RESLIST4 : Z := (1024 - 16) / V4_SIZEOF_RESTRICT_U.
Definition INC_RESLIST6 : Z := (1024 - 16) / V6_SIZEOF_RESTRICT_U.

Definition alloc_res4 (st : res_state) : Z * res_state :=
  match resfree4 st with
  | res :: rest => (res, st <| resfree4 := rest |>)
  | [] =>
      let rl := next_res st in
      let chunk := zrange rl (Z.to_nat INC_RESLIST4) in
      (rl, st <| next_res := rl + INC_RESLIST4 |>
              <| ress := fold_left (fun m p => <[p := zero_restrict]> m) chunk (ress st) |>
              <| resfree4 := tail chunk |>)
  end.

Definition alloc_res6 (st : res_state) : Z * res_state :=
  match resfree6 st with
  | res :: rest => (res, st <| resfree6 := rest |>)
  | [] =>
      let rl := next_res st in
      let chunk := zrange rl (Z.to_nat INC_RESLIST6) in
      (rl, st <| next_res := rl + INC_RESLIST6 |>
              <| ress := fold_left (fun m p => <[p := zero_restrict]> m) chunk (ress st) |>
              <| resfree6 := tail chunk |>)
  end.

Definition inc_res_limited (st : res_state) : res_state :=
  let st := if res_limited_refcnt st =? 0 then st <| monitor := mon_start MON_RES (monitor st) |>
            else st in
  st <| res_limited_refcnt := u64 (res_limited_refcnt st + 1) |>.

Definition dec_res_limited (st : res_state) : res_state :=
  let st := st <| res_limited_refcnt := u64 (res_limited_refcnt st - 1) |> in
  if res_limited_refcnt st =? 0 then st <| monitor := mon_stop MON_RES (monitor st) |> else st.

(** The guard is the source's [RES_LIMITED && res->flags]: a logical and. *)
Definition free_res (res : Z) (v6 : bool) (st : res_state) : res_state :=
  let st := st <| restrictcount := s32 (restrictcount st - 1) |> in
  let st := if nonzero RES_LIMITED && nonzero (ru_flags (res_at st res)) then dec_res_limited st
            else st in
  let st := set_reslist v6 (UNLINK res (reslist v6 st)) st in
  let st := put_res res zero_restrict st in
  set_resfree v6 (res :: resfree v6 st) st.

(** ** Lookup *)

(** Does entry [r] match an address and source port? *)
Definition res_matches (r : restrict_u) (addr port : Z) : bool :=
  (ru_addr r =? (addr .& ru_mask r))
  && (negb (has (ru_mflags r) RESM_NTPONLY) || (NTP_PORT =? port)).

(** The loop of [match_restrict4_addr] and [match_restrict6_addr]; [next]
    is fetched before an expired entry is released, and the released entry
    is then tested. *)
Fixpoint match_loop (now : Z) (v6 : bool) (addr port : Z) (l : list Z) (st : res_state)
    : option Z * res_state :=
  match l with
  | [] => (None, st)
  | res :: l =>
      let r := res_at st res in
      let st := if nonzero (ru_expire r) && (ru_expire r <=? now) then free_res res v6 st else st in
      if res_matches (res_at st res) addr port then (Some res, st)
      else match_loop now v6 addr port l st
  end.

Definition match_restrict4_addr (now addr port : Z) (st : res_state) : option Z * res_state :=
  match_loop now false addr port (restrictlist4 st) st.
Definition match_restrict6_addr (now addr port : Z) (st : res_state) : option Z * res_state :=
  match_loop now true addr port (restrictlist6 st) st.

Definition match_restrict_entry (pmatch : restrict_u) (v6 : bool) (st : res_state) : option Z :=
  chain_find (fun res => let r := res_at st res in
    (ru_mflags r =? ru_mflags pmatch) &&
    ((ru_addr r =? ru_addr pmatch) && (ru_mask r =? ru_mask pmatch))) (reslist v6 st).

(** Sorting: descending address, then mask, then match flags. *)
Definition res_sorts_before4 (r1 r2 : restrict_u) : bool :=
  if ru_addr r2 <? ru_addr r1 then true
  else if ru_addr r1 <? ru_addr r2 then false
  else if ru_mask r2 <? ru_mask r1 then true
  else if ru_mask r1 <? ru_mask r2 then false
  else if ru_mflags r2 <? ru_mflags r1 then true
  else false.

Definition ADDR6_CMP (a b : Z) : Z := match a ?= b with Lt => -1 | Eq => 0 | Gt => 1 end.

Definition res_sorts_before6 (r1 r2 : restrict_u) : bool :=
  let cmp := ADDR6_CMP (ru_addr r1) (ru_addr r2) in
  if 0 <? cmp then true
  else if cmp <? 0 then false
  else
    let cmp := ADDR6_CMP (ru_mask r1) (ru_mask r2) in
    if 0 <? cmp then true
    else if cmp <? 0 then false
    else if ru_mflags r2 <? ru_mflags r1 then true
    else false.

(** [None] is the null dereference of an unmatched address. *)
Definition count_match (match_ : option Z) (def : Z) (st : res_state) : option (Z * res_state) :=
  match match_ with
  | None => None
  | Some m =>
      let r := res_at st m in
      let st := put_res m (r <| ru_count := u32 (ru_count r + 1) |>) st in
      let st := if def =? m then st <| res_not_found := u64 (res_not_found st + 1) |>
                else st <| res_found := u64 (res_found st + 1) |> in
      Some (ru_flags r, st)
  end.

Definition restrictions (now : Z) (srcadr : sockaddr) (st : res_state) : option (Z * res_state) :=
  let st := st <| res_calls := u64 (res_calls st + 1) |> in
  if IS_IPV4 srcadr then
    if IS_MCAST srcadr then Some (RES_IGNORE, st)
    else
      let '(m, st) := match_restrict4_addr now (sa_addr srcadr) (sa_port srcadr) st in
      count_match m restrict_def4 st
  else if IS_IPV6 srcadr then
    if IS_MCAST srcadr then Some (RES_IGNORE, st)
    else
      let '(m, st) := match_restrict6_addr now (sa_addr srcadr) (sa_port srcadr) st in
      count_match m restrict_def6 st
  else Some (0, st).

(** ** Changing the lists *)

(** [RESTRICT_FLAGS] for an entry not on the list. *)
Definition add_restrict (v6 : bool) (m : restrict_u) (st : res_state) : res_state :=
  let '(res, st) := if v6 then alloc_res6 st else alloc_res4 st in
  let st := put_res res m st in
  let before q := if v6 then res_sorts_before6 (res_at st res) (res_at st q)
                  else res_sorts_before4 (res_at st res) (res_at st q) in
  let st := set_reslist v6 (LINK_SORT before res (reslist v6 st)) st in
  let st := st <| restrictcount := s32 (restrictcount st + 1) |> in
  if has (ru_flags m) RES_LIMITED then inc_res_limited st else st.

(** [None]: a failed [NTP_REQUIRE] or [NTP_INSIST]. *)
Definition hack_restrict (op : Z) (resaddr resmask : option sockaddr) (mflags flags expire : Z)
    (st : res_state) : option res_state :=
  match resaddr, resmask with
  | None, None =>
      if op =? RESTRICT_FLAGS then
        Some (st <| restrict_source_flags := flags |> <| restrict_source_mflags := mflags |>
                 <| restrict_source_enabled := 1 |>)
      else None
  | None, Some _ | Some _, None => None
  | Some a, Some k =>
      if negb (IS_IPV4 a || IS_IPV6 a) then None
      else
        let v6 := negb (IS_IPV4 a) in
        let m := mk_restrict 0 flags mflags expire (sa_addr a .& sa_addr k) (sa_addr k) in
        let res := match_restrict_entry m v6 st in
        if op =? RESTRICT_FLAGS then
          match res with
          | None => Some (add_restrict v6 m st)
          | Some p =>
              let r := res_at st p in
              let st := if has flags RES_LIMITED && negb (has (ru_flags r) RES_LIMITED)
                        then inc_res_limited st else st in
              Some (put_res p (r <| ru_flags := u16 (ru_flags r .| flags) |>) st)
          end
        else if op =? RESTRICT_UNFLAG then
          match res with
          | None => Some st
          | Some p =>
              let r := res_at st p in
              let st := if has (ru_flags r) RES_LIMITED && has flags RES_LIMITED
                        then dec_res_limited st else st in
              Some (put_res p (r <| ru_flags := u16 (clr (ru_flags r) flags) |>) st)
          end
        else if (op =? RESTRICT_REMOVE) || (op =? RESTRICT_REMOVEIF) then
          match res with
          | None => Some st
          | Some p =>
              if ((RESTRICT_REMOVEIF =? op) || negb (has (ru_mflags (res_at st p)) RESM_INTERFACE))
                 && negb (p =? restrict_def4) && negb (p =? restrict_def6)
              then Some (free_res p v6 st) else Some st
          end
        else None
  end.

Definition restrict_source (now : Z) (addr : sockaddr) (farewell : bool) (expire : Z)
    (st : res_state) : option res_state :=
  if (restrict_source_enabled st =? 0) || SOCK_UNSPEC addr || IS_MCAST addr || ISREFCLOCKADR addr
  then Some st
  else if negb (IS_IPV4 addr || IS_IPV6 addr) then None
  else
    let onesmask := SET_HOSTMASK (sa_family addr) in
    if farewell then hack_restrict RESTRICT_REMOVE (Some addr) (Some onesmask) 0 0 0 st
    else
      let v6 := IS_IPV6 addr in
      let '(m, st) := if IS_IPV4 addr
                      then match_restrict4_addr now (sa_addr addr) (sa_port addr) st
                      else match_restrict6_addr now (sa_addr addr) (sa_port addr) st in
      match m with
      | None => None
      | Some res =>
          let r := res_at st res in
          let found_specific := ru_mask r =? sa_addr onesmask in
          let '(found_specific, st) :=
            if (expire =? 0) && found_specific && nonzero (ru_expire r)
            then (false, free_res res v6 st) else (found_specific, st) in
          if found_specific then Some st
          else hack_restrict RESTRICT_FLAGS (Some addr) (Some onesmask)
                 (restrict_source_mflags st) (restrict_source_flags st) expire st
      end.
