(* ===== verification/RestrictFacts.v ===== *)
(** * Restriction lists: order, most specific match, and two defects *)

From S2P Require Import Prelude FixedPoint Double Lists NtpTypes Monitor MonitorFacts Restrict.
From stdpp Require Import base gmap list sorting.
#[local] Open Scope Z_scope.

(** ** The order *)

Definition before (r1 r2 : restrict_u) : Prop := res_sorts_before4 r1 r2 = true.

Lemma before_spec r1 r2 : before r1 r2 <->
  ru_addr r2 < ru_addr r1 \/ (ru_addr r1 = ru_addr r2 /\
  (ru_mask r2 < ru_mask r1 \/ (ru_mask r1 = ru_mask r2 /\ ru_mflags r2 < ru_mflags r1))).
Proof. unfold before, res_sorts_before4. case_cmp; split; intros; try done; try lia. Qed.

(** The IPv6 comparison is the same order. *)
Lemma sorts_before6_eq r1 r2 : res_sorts_before6 r1 r2 = res_sorts_before4 r1 r2.
Proof.
  unfold res_sorts_before6, res_sorts_before4, ADDR6_CMP, Z.ltb.
  rewrite (Z.compare_antisym (ru_addr r1) (ru_addr r2)), (Z.compare_antisym (ru_mask r1) (ru_mask r2)).
  destruct (ru_addr r1 ?= ru_addr r2), (ru_mask r1 ?= ru_mask r2); reflexivity.
Qed.

Definition same_key (r1 r2 : restrict_u) : Prop :=
  ru_addr r1 = ru_addr r2 /\ ru_mask r1 = ru_mask r2 /\ ru_mflags r1 = ru_mflags r2.

Lemma before_trans r1 r2 r3 : before r1 r2 -> before r2 r3 -> before r1 r3.
Proof. rewrite !before_spec. lia. Qed.
Lemma before_total r1 r2 : before r1 r2 \/ before r2 r1 \/ same_key r1 r2.
Proof. rewrite !before_spec. unfold same_key. lia. Qed.

(** ** Invariant *)

Definition def_of (v6 : bool) : Z := if v6 then restrict_def6 else restrict_def4.
Definition all_res (st : res_state) : list Z :=
  reslist false st ++ reslist true st ++ resfree false st ++ resfree true st.

(** The order of the entries behind two pointers. *)
Definition ptr_before (st : res_state) (p q : Z) : Prop := before (res_at st p) (res_at st q).

(** Canonical entries: the address is masked, and nothing is negative. *)
Definition canonical (r : restrict_u) : Prop :=
  ru_addr r = ru_addr r .& ru_mask r /\ 0 <= ru_addr r /\ 0 <= ru_mask r /\ 0 <= ru_mflags r.

(** A default entry matches everything and never expires. *)
Definition is_default (r : restrict_u) : Prop :=
  ru_addr r = 0 /\ ru_mask r = 0 /\ ru_mflags r = 0 /\ ru_expire r = 0.

Record res_inv (st : res_state) : Prop := {
  ri_nodup : NoDup (all_res st);
  ri_range : forall p, p ∈ all_res st -> 0 < p < next_res st;
  ri_total : Z.of_nat (length (all_res st)) = next_res st - 1;
  ri_count : restrictcount st = Z.of_nat (length (reslist false st) + length (reslist true st));
  ri_bound : next_res st <= 2 ^ 31;
  ri_sorted : forall v6, StronglySorted (ptr_before st) (reslist v6 st);
  ri_last : forall v6, last (reslist v6 st) = Some (def_of v6);
  ri_def : forall v6, is_default (res_at st (def_of v6));
  ri_canon : forall v6 p, p ∈ reslist v6 st -> canonical (res_at st p) }.

Lemma res_at_put st p q r : res_at (put_res p r st) q = if decide (p = q) then r else res_at st q.
Proof.
  unfold res_at, put_res. cbn. case_decide; subst; [now rewrite lookup_insert_eq |].
  now rewrite lookup_insert_ne.
Qed.

(** The monitor and the counters are no part of the lists. *)
Lemma res_inv_ext st st' :
  ress st' = ress st -> restrictlist4 st' = restrictlist4 st -> restrictlist6 st' = restrictlist6 st ->
  resfree4 st' = resfree4 st -> resfree6 st' = resfree6 st -> next_res st' = next_res st ->
  restrictcount st' = restrictcount st -> res_inv st -> res_inv st'.
Proof.
  intros E0 E1 E2 E3 E4 E5 E6 [].
  assert (Er : forall p, res_at st' p = res_at st p) by (intros; unfold res_at; now rewrite E0).
  assert (El : forall v6, reslist v6 st' = reslist v6 st) by (intros []; cbn; auto).
  assert (Ea : all_res st' = all_res st) by (unfold all_res; rewrite !El; cbn; now rewrite E3, E4).
  split; rewrite ?Ea, ?E5, ?E6; auto; try (intros v6; rewrite ?Er, ?El; auto).
  - rewrite !El. auto.
  - unfold ptr_before. specialize (ri_sorted0 v6). induction ri_sorted0 as [|p l Hs IH Hf];
      constructor; [done |]. eapply Forall_impl; [exact Hf |]. intros q. now rewrite !Er.
  - intros p Hp. rewrite Er. eauto.
Qed.

Lemma limited_fields st :
  (forall s, s = inc_res_limited st \/ s = dec_res_limited st ->
   ress s = ress st /\ restrictlist4 s = restrictlist4 st /\ restrictlist6 s = restrictlist6 st /\
   resfree4 s = resfree4 st /\ resfree6 s = resfree6 st /\ next_res s = next_res st /\
   restrictcount s = restrictcount st).
Proof. intros s [-> | ->]; unfold inc_res_limited, dec_res_limited; case_match; done. Qed.

Lemma inc_inv st : res_inv st -> res_inv (inc_res_limited st).
Proof. destruct (limited_fields st (inc_res_limited st)) as (? & ? & ? & ? & ? & ? & ?); [auto |]. apply res_inv_ext; done. Qed.
Lemma dec_inv st : res_inv st -> res_inv (dec_res_limited st).
Proof. destruct (limited_fields st (dec_res_limited st)) as (? & ? & ? & ? & ? & ? & ?); [auto |]. apply res_inv_ext; done. Qed.

(** ** Releasing an entry *)

Lemma sorted_unlink st p l :
  StronglySorted (ptr_before st) l -> StronglySorted (ptr_before st) (UNLINK p l).
Proof.
  induction 1 as [|q l Hs IH Hf]; cbn; [constructor |]. case_match; [done |].
  constructor; [done |]. rewrite Forall_forall in *. intros x Hx. apply Hf. eapply UNLINK_sub, Hx.
Qed.

Lemma sorted_same st st' l :
  (forall p, p ∈ l -> res_at st' p = res_at st p) ->
  StronglySorted (ptr_before st) l -> StronglySorted (ptr_before st') l.
Proof.
  intros E. induction 1 as [|q l Hs IH Hf]; [constructor |]. constructor; [apply IH; set_solver |].
  rewrite Forall_forall in *. intros x Hx. unfold ptr_before in *. rewrite !E by set_solver. auto.
Qed.

Lemma last_unlink p l d : last l = Some d -> p <> d -> last (UNLINK p l) = Some d.
Proof.
  induction l as [|q l IH]; [done |]. intros H Hne. cbn [UNLINK].
  destruct (Z.eqb_spec q p) as [-> |].
  - destruct l as [|r l]; [cbn in H; congruence | done].
  - destruct l as [|r l]; [done |]. specialize (IH H Hne).
    destruct (UNLINK p (r :: l)) eqn:E; [done | exact IH].
Qed.

Definition free_mid (res : Z) (st : res_state) : res_state :=
  let st := st <| restrictcount := s32 (restrictcount st - 1) |> in
  if nonzero RES_LIMITED && nonzero (ru_flags (res_at st res)) then dec_res_limited st else st.

Lemma free_mid_fields res st :
  ress (free_mid res st) = ress st /\ (forall v6, reslist v6 (free_mid res st) = reslist v6 st) /\
  (forall v6, resfree v6 (free_mid res st) = resfree v6 st) /\
  next_res (free_mid res st) = next_res st /\
  restrictcount (free_mid res st) = s32 (restrictcount st - 1).
Proof.
  unfold free_mid. case_match; [| done].
  destruct (limited_fields (st <| restrictcount := s32 (restrictcount st - 1) |>) _ (or_intror eq_refl))
    as (? & ? & ? & ? & ? & ? & ?). split_and!; try done; intros []; done.
Qed.

Lemma reslist_set v6 w6 l st :
  reslist w6 (set_reslist v6 l st) = if bool_decide (v6 = w6) then l else reslist w6 st.
Proof. now destruct v6, w6. Qed.
Lemma resfree_set v6 w6 l st :
  resfree w6 (set_resfree v6 l st) = if bool_decide (v6 = w6) then l else resfree w6 st.
Proof. now destruct v6, w6. Qed.

Lemma free_res_fields p v6 st :
  let st' := free_res p v6 st in
  (forall w6, reslist w6 st' = if bool_decide (v6 = w6) then UNLINK p (reslist w6 st) else reslist w6 st) /\
  (forall w6, resfree w6 st' = if bool_decide (v6 = w6) then p :: resfree w6 st else resfree w6 st) /\
  next_res st' = next_res st /\ restrictcount st' = s32 (restrictcount st - 1) /\
  (forall q, res_at st' q = if decide (p = q) then zero_restrict else res_at st q).
Proof.
  cbv zeta. destruct (free_mid_fields p st) as (E1 & E2 & E3 & E4 & E5).
  unfold free_res. fold (free_mid p st). set (st1 := free_mid p st) in *.
  pose proof (E2 true) as L6. pose proof (E2 false) as L4. pose proof (E3 true) as F6.
  pose proof (E3 false) as F4. cbn in L6, L4, F6, F4. split_and!.
  - intros w6. destruct v6, w6; case_bool_decide; try done; cbn; congruence.
  - intros w6. destruct v6, w6; case_bool_decide; try done; cbn; congruence.
  - destruct v6; done.
  - destruct v6; done.
  - intros q. transitivity (res_at (put_res p zero_restrict st1) q); [destruct v6; done |].
    rewrite res_at_put. unfold res_at at 1. now rewrite E1.
Qed.

Lemma perm_free_first (a b c d u : list Z) p :
  Permutation a (p :: u) -> Permutation (u ++ b ++ (p :: c) ++ d) (a ++ b ++ c ++ d).
Proof.
  intros ->. cbn. rewrite (app_assoc u b), <- Permutation_middle. now rewrite <- app_assoc.
Qed.
Lemma perm_free_second (a b c d u : list Z) p :
  Permutation b (p :: u) -> Permutation (a ++ u ++ c ++ p :: d) (a ++ b ++ c ++ d).
Proof.
  intros ->. apply Permutation_app_head. cbn.
  rewrite (app_assoc u c), <- Permutation_middle. now rewrite <- app_assoc.
Qed.

Section InvFacts.
Context (st : res_state) (Hi : res_inv st).

Lemma reslist_nodup v6 : NoDup (reslist v6 st).
Proof. pose proof (ri_nodup _ Hi) as H. unfold all_res in H. rewrite !NoDup_app in H. destruct v6; tauto. Qed.

Lemma reslist_disjoint v6 w6 p : p ∈ reslist v6 st -> p ∈ reslist w6 st -> v6 = w6.
Proof.
  pose proof (ri_nodup _ Hi) as H. unfold all_res in H. rewrite !NoDup_app in H.
  destruct v6, w6; try done; intros H1 H2; destruct H as (_ & H & _);
    exfalso; [eapply H; [exact H2 |] | eapply H; [exact H1 |]]; apply elem_of_app; auto.
Qed.

Lemma def_in v6 : def_of v6 ∈ reslist v6 st.
Proof. apply last_Some_elem_of, Hi. Qed.
End InvFacts.

Lemma free_res_inv p v6 st :
  res_inv st -> p ∈ reslist v6 st -> p <> def_of v6 -> res_inv (free_res p v6 st).
Proof.
  intros Hi Hp Hd. destruct (free_res_fields p v6 st) as (El & Ef & En & Ec & Er).
  set (st' := free_res p v6 st) in *.
  pose proof (UNLINK_perm p _ Hp) as Hperm. pose proof (UNLINK_length p _ Hp) as Hlen.
  assert (Ha : Permutation (all_res st') (all_res st)).
  { unfold all_res. rewrite !El, !Ef. destruct v6; cbn [bool_decide decide]; repeat case_bool_decide;
      try done; [now apply perm_free_second | now apply perm_free_first]. }
  assert (Hq : forall w6 q, q ∈ reslist w6 st' -> q ∈ reslist w6 st /\ q <> p).
  { intros w6 q. rewrite El. case_bool_decide as E; subst.
    - apply UNLINK_elem, reslist_nodup, Hi.
    - intros Hq. split; [done |]. intros ->. now apply E, (reslist_disjoint st Hi v6 w6 p). }
  pose proof Hi as []. split; rewrite ?Ha, ?En; auto.
  - intros q. rewrite Ha. auto.
  - rewrite Ec, ri_count0, !El. unfold all_res in ri_total0. rewrite !length_app in ri_total0.
    rewrite s32_small by (unfold_ranges; lia). destruct v6; repeat case_bool_decide; try done; lia.
  - intros w6. rewrite El.
    apply (sorted_same st); [| case_bool_decide; [apply sorted_unlink |]; auto].
    intros q H. rewrite <- El in H. apply Hq in H as [_ ?]. now rewrite Er, decide_False by auto.
  - intros w6. rewrite El. case_bool_decide; [subst; now apply last_unlink | done].
  - intros w6. rewrite Er, decide_False; [auto |]. intros ->.
    apply Hd. f_equal. apply (reslist_disjoint st Hi w6 v6 (def_of w6)); [now apply def_in | done].
  - intros w6 q H. apply Hq in H as [? ?]. rewrite Er, decide_False by auto. eauto.
Qed.

(** Fields outside the sort key may change. *)
Lemma put_res_inv p r st :
  res_inv st -> same_key r (res_at st p) -> ru_expire r = ru_expire (res_at st p) ->
  res_inv (put_res p r st).
Proof.
  intros [] (E1 & E2 & E3) E4.
  assert (Hk : forall q, same_key (res_at (put_res p r st) q) (res_at st q)).
  { intros q. rewrite res_at_put. case_decide; subst; done. }
  split; try done.
  - intros v6. specialize (ri_sorted0 v6). change (reslist v6 (put_res p r st)) with (reslist v6 st).
    induction ri_sorted0 as [|q l Hs IH Hf]; constructor; [done |].
    eapply Forall_impl; [exact Hf |]. intros x. unfold ptr_before. rewrite !before_spec.
    destruct (Hk q) as (-> & -> & ->), (Hk x) as (-> & -> & ->). done.
  - intros v6. rewrite res_at_put. case_decide as E; [subst p | auto].
    unfold is_default in *. rewrite E1, E2, E3, E4. apply ri_def0.
  - intros v6 q Hq. destruct (Hk q) as (K1 & K2 & K3). unfold canonical. rewrite K1, K2, K3. exact (ri_canon0 v6 q Hq).
Qed.

(** ** Lookup *)

Definition has_expired (now : Z) (r : restrict_u) : bool :=
  nonzero (ru_expire r) && (ru_expire r <=? now).

Lemma zero_matches addr port : res_matches zero_restrict addr port = true.
Proof. unfold res_matches. cbn. now rewrite Z.land_0_r. Qed.

Lemma default_matches r addr port : is_default r -> res_matches r addr port = true.
Proof. intros (E1 & E2 & E3 & _). unfold res_matches. rewrite E1, E2, E3, Z.land_0_r. done. Qed.

Lemma default_live now r : is_default r -> has_expired now r = false.
Proof. intros (_ & _ & _ & E). unfold has_expired. now rewrite E. Qed.

(** Entries that neither expired nor match are passed over. *)
Lemma match_loop_skip now v6 addr port l1 l2 st :
  (forall q, q ∈ l1 -> has_expired now (res_at st q) = false /\
                       res_matches (res_at st q) addr port = false) ->
  match_loop now v6 addr port (l1 ++ l2) st = match_loop now v6 addr port l2 st.
Proof.
  induction l1 as [|p l1 IH]; intros H; [done |]. cbn [app match_loop].
  destruct (H p ltac:(set_solver)) as [He Hm]. unfold has_expired in He. rewrite He, Hm.
  apply IH. set_solver.
Qed.

(** The two ways the search ends. *)
Lemma match_loop_found now v6 addr port p l st :
  has_expired now (res_at st p) = false -> res_matches (res_at st p) addr port = true ->
  match_loop now v6 addr port (p :: l) st = (Some p, st).
Proof. intros He Hm. cbn [match_loop]. unfold has_expired in He. now rewrite He, Hm. Qed.

Lemma match_loop_expired now v6 addr port p l st :
  has_expired now (res_at st p) = true ->
  match_loop now v6 addr port (p :: l) st = (Some p, free_res p v6 st).
Proof.
  intros He. cbn [match_loop]. unfold has_expired in He. rewrite He.
  destruct (free_res_fields p v6 st) as (_ & _ & _ & _ & Er).
  rewrite Er, decide_True by done. now rewrite zero_matches.
Qed.

(** Every list has a first entry that matches or has expired. *)
Lemma first_hit now addr port v6 st :
  res_inv st -> exists l1 p l2, reslist v6 st = l1 ++ p :: l2 /\
    (forall q, q ∈ l1 -> has_expired now (res_at st q) = false /\
                         res_matches (res_at st q) addr port = false) /\
    (has_expired now (res_at st p) || res_matches (res_at st p) addr port = true).
Proof.
  intros Hi. set (hit q := has_expired now (res_at st q) || res_matches (res_at st q) addr port).
  assert (Hd : hit (def_of v6) = true)
    by (unfold hit; rewrite default_matches, orb_true_r; [done | apply Hi]).
  pose proof (def_in st Hi v6) as Hin. revert Hin. generalize (reslist v6 st) as l.
  induction l as [|p l IH]; intros Hin; [set_solver |]. destruct (hit p) eqn:E.
  - exists [], p, l. split; [done |]. split; [set_solver | exact E].
  - destruct IH as (l1 & q & l2 & -> & H1 & H2).
    { apply elem_of_cons in Hin as [<- | ?]; [congruence | done]. }
    exists (p :: l1), q, l2. split; [done |]. split; [| done].
    intros x. rewrite elem_of_cons. intros [-> | Hx]; [now apply orb_false_iff in E | auto].
Qed.

Lemma match_loop_spec now v6 addr port st :
  res_inv st ->
  exists p st', match_loop now v6 addr port (reslist v6 st) st = (Some p, st') /\ res_inv st' /\
    p ∈ reslist v6 st /\
    ((st' = st /\ has_expired now (res_at st p) = false) \/
     (st' = free_res p v6 st /\ p <> def_of v6 /\ has_expired now (res_at st p) = true)).
Proof.
  intros Hi. destruct (first_hit now addr port v6 st Hi) as (l1 & p & l2 & El & H1 & H2).
  assert (Hp : p ∈ reslist v6 st) by (rewrite El; set_solver).
  rewrite El, match_loop_skip by done. destruct (has_expired now (res_at st p)) eqn:E.
  - rewrite match_loop_expired by done.
    assert (p <> def_of v6) by (intros ->; rewrite default_live in E; [done | apply Hi]).
    exists p, (free_res p v6 st). split; [done |]. split; [now apply free_res_inv |].
    rewrite <- El. split; [done |]. auto.
  - rewrite match_loop_found by done. exists p, st. rewrite <- El. split_and!; auto.
Qed.

Lemma count_match_inv p def st :
  res_inv st -> exists st', count_match (Some p) def st = Some (ru_flags (res_at st p), st') /\ res_inv st'.
Proof.
  intros Hi. eexists. split; [reflexivity |].
  assert (Hp : res_inv (put_res p ((res_at st p) <| ru_count := u32 (ru_count (res_at st p) + 1) |>) st))
    by now apply put_res_inv.
  case_match; eapply res_inv_ext; [| | | | | | | exact Hp | | | | | | | | exact Hp]; done.
Qed.

(** The branch of [restrictions] for either family. *)
Lemma restrictions_branch now v6 addr port st :
  res_inv st ->
  exists p st', (let '(m, st) := match_loop now v6 addr port (reslist v6 st) st in
                 count_match m (def_of v6) st) = Some (ru_flags (res_at st' p), st') /\ res_inv st'.
Proof.
  intros Hi. destruct (match_loop_spec now v6 addr port st Hi) as (p & st1 & -> & Hi1 & _).
  destruct (count_match_inv p (def_of v6) st1 Hi1) as (st' & E & Hi').
  exists p, st'. rewrite E. split; [| done]. f_equal. f_equal.
  unfold count_match in E. injection E as <-.
  case_match; symmetry; unfold res_at at 1; cbn; now rewrite lookup_insert_eq.
Qed.

(** ** Adding an entry *)

(** Both allocators, as one function of the family and the chunk size. *)
Definition alloc_res (v6 : bool) (n : Z) (st : res_state) : Z * res_state :=
  match resfree v6 st with
  | res :: rest => (res, set_resfree v6 rest st)
  | [] =>
      let rl := next_res st in
      let chunk := zrange rl (Z.to_nat n) in
      (rl, set_resfree v6 (tail chunk)
             (st <| next_res := rl + n |>
                 <| ress := fold_left (fun m p => <[p := zero_restrict]> m) chunk (ress st) |>))
  end.

Definition inc_reslist (v6 : bool) : Z := if v6 then INC_RESLIST6 else INC_RESLIST4.

Lemma alloc_res_eq (v6 : bool) st :
  (if v6 then alloc_res6 st else alloc_res4 st) = alloc_res v6 (inc_reslist v6) st.
Proof. destruct v6; unfold alloc_res; cbn [resfree]; [unfold alloc_res6 | unfold alloc_res4]; now case_match. Qed.

(** [st'] is [st] with entry [p] allocated and on no list. *)
Record res_claims (st st' : res_state) (p : Z) : Prop := {
  rc_nodup : NoDup (p :: all_res st');
  rc_range : forall q, q ∈ p :: all_res st' -> 0 < q < next_res st';
  rc_total : Z.of_nat (length (p :: all_res st')) = next_res st' - 1;
  rc_bound : next_res st' <= 2 ^ 31;
  rc_list : forall w6, reslist w6 st' = reslist w6 st;
  rc_count : restrictcount st' = restrictcount st;
  rc_same : forall w6 q, q ∈ reslist w6 st -> res_at st' q = res_at st q }.

Lemma alloc_res_claims v6 st :
  res_inv st -> next_res st + inc_reslist v6 <= 2 ^ 31 ->
  res_claims st (alloc_res v6 (inc_reslist v6) st).2 (alloc_res v6 (inc_reslist v6) st).1.
Proof.
  intros Hi Hb. unfold alloc_res. set (n := inc_reslist v6) in *.
  assert (Hn : 1 <= n) by (unfold n, inc_reslist; destruct v6; done).
  destruct (resfree v6 st) as [|p rest] eqn:Ef.
  - set (rl := next_res st) in *. destruct Hi as [Hnd Hr Ht Hc _ _ _ _ _]. fold rl in Hr, Ht.
    assert (1 <= rl) by lia.
    replace (zrange rl (Z.to_nat n)) with (rl :: zrange (rl + 1) (Z.to_nat (n - 1)))
      by (replace (Z.to_nat n) with (S (Z.to_nat (n - 1))) by lia; done).
    set (chunk := zrange (rl + 1) (Z.to_nat (n - 1))). cbn [tail fst snd].
    set (st' := set_resfree v6 chunk _).
    assert (Hperm : Permutation (rl :: all_res st') (rl :: chunk ++ all_res st)).
    { apply Permutation_skip. unfold all_res, st'. destruct v6; cbn in Ef |- *; rewrite Ef; cbn;
        rewrite ?app_nil_r; solve_Permutation. }
    assert (Hch : forall q, q ∈ rl :: chunk <-> rl <= q < rl + n).
    { intros q. unfold chunk. rewrite elem_of_cons, zrange_elem. lia. }
    assert (Hnx : next_res st' = rl + n) by (unfold st'; destruct v6; done).
    split; rewrite ?Hnx; try done.
    + rewrite Hperm. apply (NoDup_app (rl :: chunk)). split_and!; [| | done].
      * apply NoDup_cons. unfold chunk. rewrite zrange_elem. split; [lia | apply zrange_NoDup].
      * intros q Hq Hq'. apply Hch in Hq. apply Hr in Hq'. lia.
    + intros q. rewrite Hperm. change (rl :: chunk ++ all_res st) with ((rl :: chunk) ++ all_res st).
      rewrite elem_of_app, Hch.
      intros [Hq | Hq]; [| apply Hr in Hq]; lia.
    + rewrite Hperm. cbn [length]. rewrite length_app. unfold chunk. rewrite zrange_length. lia.
    + intros []; unfold st'; destruct v6; done.
    + unfold st'; destruct v6; done.
    + intros w6 q Hq.
      assert (0 < q < rl) by (apply Hr; unfold all_res; destruct w6; rewrite !elem_of_app; auto).
      transitivity (default zero_restrict (ress st' !! q)); [done |]. unfold st'.
      assert (Hx : q ∉ rl :: chunk) by (rewrite Hch; lia).
      destruct v6; unfold set_resfree; cbn [ress setter]; now rewrite fold_insert_lookup.
  - cbn [fst snd]. set (st' := set_resfree v6 rest st).
    assert (Hperm : Permutation (p :: all_res st') (all_res st)).
    { unfold all_res, st'. destruct v6; cbn in Ef |- *; rewrite Ef; cbn; solve_Permutation. }
    assert (E : next_res st' = next_res st) by (unfold st'; destruct v6; done).
    destruct Hi. split; rewrite ?Hperm, ?E; auto.
    + intros q. rewrite Hperm. auto.
    + intros []; unfold st'; destruct v6; done.
    + unfold st'; destruct v6; done.
    + intros w6 q Hq. unfold st'; destruct v6; done.
Qed.

Lemma link_sort_sorted st (b : Z -> bool) p l :
  (forall q, q ∈ l -> b q = res_sorts_before4 (res_at st p) (res_at st q)) ->
  (forall q, q ∈ l -> ~ same_key (res_at st p) (res_at st q)) ->
  StronglySorted (ptr_before st) l -> StronglySorted (ptr_before st) (LINK_SORT b p l).
Proof.
  intros Hb Hk. induction 1 as [|q l Hs IH Hf]; cbn; [constructor; constructor |].
  rewrite Hb by set_solver. destruct (res_sorts_before4 _ _) eqn:E.
  - constructor; [now constructor |]. constructor; [exact E |].
    eapply Forall_impl; [exact Hf |]. intros x Hx. unfold ptr_before in *. eapply before_trans; eauto.
  - constructor; [apply IH; set_solver |]. rewrite Forall_forall in *. intros x Hx.
    rewrite LINK_SORT_Permutation, elem_of_cons in Hx. destruct Hx as [-> | Hx]; [| auto].
    destruct (before_total (res_at st p) (res_at st q)) as [H | [H | H]]; [congruence | done |].
    exfalso. eapply Hk; [| exact H]. set_solver.
Qed.

Lemma link_sort_last (b : Z -> bool) p l d :
  last l = Some d -> b d = true -> last (LINK_SORT b p l) = Some d.
Proof.
  induction l as [|q l IH]; [done |]. intros Hl Hb. cbn [LINK_SORT]. destruct (b q) eqn:E; [done |].
  destruct l as [|r l]; [cbn in Hl; congruence |]. specialize (IH Hl Hb).
  destruct (LINK_SORT b p (r :: l)) eqn:E2; [done |]. exact IH.
Qed.

(** Linking a filled-in entry at its place. *)
Section LinkNew.
Context (v6 : bool) (m : restrict_u) (st st1 : res_state) (p : Z) (bf : Z -> bool).
Context (Hi : res_inv st) (Hc : res_claims st st1 p) (Hm : canonical m).
Context (Hkey : forall q, q ∈ reslist v6 st -> ~ same_key m (res_at st q)).
Let st2 := put_res p m st1.
Context (Hbf : forall q, bf q = res_sorts_before4 (res_at st2 p) (res_at st2 q)).
Let st3 := (set_reslist v6 (LINK_SORT bf p (reslist v6 st2)) st2)
             <| restrictcount := s32 (restrictcount st2 + 1) |>.

Lemma new_fresh w6 : p ∉ reslist w6 st.
Proof.
  rewrite <- (rc_list _ _ _ Hc). pose proof (rc_nodup _ _ _ Hc) as Cn.
  apply NoDup_cons in Cn as [Cn _]. unfold all_res in Cn. rewrite !not_elem_of_app in Cn.
  destruct w6; tauto.
Qed.

Lemma new_at q : res_at st3 q = if decide (p = q) then m else res_at st1 q.
Proof.
  transitivity (res_at st2 q); [unfold st3; now destruct v6 |]. apply res_at_put.
Qed.

Lemma new_old w6 q : q ∈ reslist w6 st -> res_at st3 q = res_at st q.
Proof.
  intros Hq. rewrite new_at, decide_False; [eapply rc_same; eauto |].
  intros <-. now apply (new_fresh w6).
Qed.

Lemma new_list w6 : reslist w6 st3 =
  if bool_decide (v6 = w6) then LINK_SORT bf p (reslist w6 st) else reslist w6 st.
Proof.
  rewrite <- (rc_list _ _ _ Hc). unfold st3.
  transitivity (reslist w6 (set_reslist v6 (LINK_SORT bf p (reslist v6 st2)) st2));
    [now destruct w6 |].
  rewrite reslist_set. case_bool_decide; subst; done.
Qed.

Lemma new_list_elem w6 q : q ∈ reslist w6 st3 -> (q = p /\ w6 = v6) \/ q ∈ reslist w6 st.
Proof.
  rewrite new_list. case_bool_decide; subst; [| auto].
  rewrite LINK_SORT_Permutation, elem_of_cons. tauto.
Qed.

Lemma new_bf q w6 : q ∈ reslist w6 st -> bf q = res_sorts_before4 m (res_at st q).
Proof.
  intros Hq. rewrite Hbf. unfold st2. rewrite !res_at_put, decide_True by done.
  rewrite decide_False; [f_equal; eapply rc_same; eauto |]. intros <-. now apply (new_fresh w6).
Qed.

Lemma new_all : Permutation (all_res st3) (p :: all_res st1).
Proof.
  unfold all_res. rewrite !new_list, !(rc_list _ _ _ Hc). unfold st3, st2.
  destruct v6; repeat case_bool_decide; try done; rewrite LINK_SORT_Permutation; cbn; solve_Permutation.
Qed.

Lemma new_sorted w6 : StronglySorted (ptr_before st3) (reslist w6 st3).
Proof.
  rewrite new_list. case_bool_decide as E; [subst w6 |].
  - apply link_sort_sorted.
    + intros q Hq. rewrite (new_bf q v6), (new_old v6 q), new_at, decide_True by done. done.
    + intros q Hq. rewrite (new_old v6 q), new_at, decide_True by done. auto.
    + eapply sorted_same; [| apply Hi]. intros q Hq. now apply (new_old v6).
  - eapply sorted_same; [| apply Hi]. intros q Hq. now apply (new_old w6).
Qed.

Lemma new_last w6 : last (reslist w6 st3) = Some (def_of w6).
Proof.
  rewrite new_list. case_bool_decide as E; [subst w6 | apply Hi].
  apply link_sort_last; [apply Hi |]. pose proof (def_in st Hi v6) as Hd.
  rewrite (new_bf _ v6 Hd). destruct (ri_def _ Hi v6) as (D1 & D2 & D3 & _).
  specialize (Hkey _ Hd). destruct Hm as (_ & M1 & M2 & M3). unfold same_key in Hkey.
  apply before_spec. rewrite D1, D2, D3 in *. lia.
Qed.

Lemma new_inv : res_inv st3.
Proof.
  assert (N : next_res st3 = next_res st1) by (unfold st3; now destruct v6).
  split; rewrite ?new_all, ?N; try apply Hc.
  - intros q. rewrite new_all. apply Hc.
  - transitivity (s32 (restrictcount st + 1)).
    { unfold st3. rewrite <- (rc_count _ _ _ Hc). now destruct v6. }
    pose proof (rc_total _ _ _ Hc) as Ht. pose proof (rc_bound _ _ _ Hc).
    cbn [length] in Ht. unfold all_res in Ht. rewrite !length_app, !(rc_list _ _ _ Hc) in Ht.
    rewrite (ri_count _ Hi), s32_small by (unfold_ranges; lia). rewrite !new_list.
    destruct v6; repeat case_bool_decide; try done; rewrite LINK_SORT_Permutation; cbn; lia.
  - apply new_sorted.
  - apply new_last.
  - intros w6. rewrite (new_old w6) by now apply def_in. apply Hi.
  - intros w6 q Hq. destruct (new_list_elem w6 q Hq) as [[-> ->] | H].
    + now rewrite new_at, decide_True.
    + rewrite (new_old w6) by done. eapply ri_canon; eauto.
Qed.
End LinkNew.

Lemma entry_none_key m v6 st :
  match_restrict_entry m v6 st = None -> forall q, q ∈ reslist v6 st -> ~ same_key m (res_at st q).
Proof.
  unfold match_restrict_entry. rewrite chain_find_None. intros Hn q Hq (K1 & K2 & K3).
  specialize (Hn q Hq). cbv beta zeta in Hn. now rewrite K1, K2, K3, !Z.eqb_refl in Hn.
Qed.

Lemma add_restrict_inv v6 m st :
  res_inv st -> next_res st + inc_reslist v6 <= 2 ^ 31 -> canonical m ->
  match_restrict_entry m v6 st = None -> res_inv (add_restrict v6 m st).
Proof.
  intros Hi Hb Hm Hnone. unfold add_restrict. rewrite alloc_res_eq.
  pose proof (alloc_res_claims v6 st Hi Hb) as Hc.
  destruct (alloc_res v6 (inc_reslist v6) st) as [p st1]. cbn [fst snd] in *.
  assert (Hinv : res_inv ((set_reslist v6 (LINK_SORT (fun q =>
      if v6 then res_sorts_before6 (res_at (put_res p m st1) p) (res_at (put_res p m st1) q)
      else res_sorts_before4 (res_at (put_res p m st1) p) (res_at (put_res p m st1) q)) p
      (reslist v6 (put_res p m st1))) (put_res p m st1))
      <| restrictcount := s32 (restrictcount (put_res p m st1) + 1) |>)).
  { apply (new_inv v6 m st st1 p _ Hi Hc Hm (entry_none_key m v6 st Hnone)).
    intros q. destruct v6; [apply sorts_before6_eq | done]. }
  destruct v6; (case_match; [apply inc_inv |]; exact Hinv).
Qed.

(** ** The operations *)

Inductive res_op :=
| Hack (op : Z) (addr mask : sockaddr) (mflags flags expire : Z)
| HackSource (mflags flags : Z)
| Lookup (addr : sockaddr)
| Source (addr : sockaddr) (farewell : bool) (expire : Z).

Definition run_res (now : Z) (op : res_op) (st : res_state) : option res_state :=
  match op with
  | Hack op a k mflags flags expire => hack_restrict op (Some a) (Some k) mflags flags expire st
  | HackSource mflags flags => hack_restrict RESTRICT_FLAGS None None mflags flags 0 st
  | Lookup a => snd <$> restrictions now a st
  | Source a farewell expire => restrict_source now a farewell expire st
  end.

Definition inet (a : sockaddr) : bool := IS_IPV4 a || IS_IPV6 a.

(** Arguments the callers pass: an internet address, one of the four
    operations, unsigned quantities. *)
Definition res_op_ok (op : res_op) (st : res_state) : Prop :=
  match op with
  | Hack op a k mflags _ _ =>
      inet a = true /\ 1 <= op <= 4 /\ 0 <= sa_addr a /\ 0 <= sa_addr k /\ 0 <= mflags
  | Source a _ _ => inet a = true /\ 0 <= sa_addr a /\ 0 <= restrict_source_mflags st
  | _ => True
  end.

Definition res_room (st : res_state) : Prop := next_res st + 31 <= 2 ^ 31.

Lemma flags_inv p f (b : bool) st s :
  s = st \/ s = inc_res_limited st \/ s = dec_res_limited st -> res_inv st ->
  res_inv (put_res p ((res_at st p) <| ru_flags := f |>) s).
Proof.
  intros Hs Hi.
  assert (Hi' : res_inv s) by (destruct Hs as [-> | [-> | ->]]; auto using inc_inv, dec_inv).
  assert (E : res_at s p = res_at st p).
  { destruct Hs as [-> | Hs]; [done |]. unfold res_at.
    destruct (limited_fields st s) as (-> & _); [tauto | done]. }
  apply put_res_inv; rewrite ?E; done.
Qed.

Lemma inc_reslist_le v6 : inc_reslist v6 <= 31.
Proof. destruct v6; vm_compute; discriminate. Qed.

Lemma hack_inv op a k mflags flags expire st :
  res_inv st -> res_room st -> res_op_ok (Hack op a k mflags flags expire) st ->
  exists st', hack_restrict op (Some a) (Some k) mflags flags expire st = Some st' /\ res_inv st'.
Proof.
  intros Hi Hroom (Hf & Hop & Ha & Hk & Hmf). unfold hack_restrict, inet in *. rewrite Hf. cbn [negb].
  set (v6 := negb (IS_IPV4 a)). set (m := mk_restrict _ _ _ _ _ _).
  assert (Hm : canonical m).
  { split_and!; cbn; auto; [| now apply Z.land_nonneg; auto].
    rewrite <- Z.land_assoc. now rewrite Z.land_diag. }
  assert (Hb : next_res st + inc_reslist v6 <= 2 ^ 31)
    by (pose proof (inc_reslist_le v6); unfold res_room in Hroom; lia).
  destruct (match_restrict_entry m v6 st) as [p|] eqn:Em.
  - apply chain_find_Some in Em as [Hp _].
    destruct (Z.eqb_spec op RESTRICT_FLAGS); [| destruct (Z.eqb_spec op RESTRICT_UNFLAG)].
    + eexists. split; [reflexivity |]. apply (flags_inv _ _ true); [| done]. case_match; auto.
    + eexists. split; [reflexivity |]. apply (flags_inv _ _ true); [| done]. case_match; auto.
    + assert (((op =? RESTRICT_REMOVE) || (op =? RESTRICT_REMOVEIF)) = true) as ->.
      { unfold RESTRICT_FLAGS, RESTRICT_UNFLAG, RESTRICT_REMOVE, RESTRICT_REMOVEIF in *. lia. }
      destruct (_ && negb (p =? restrict_def6)) eqn:Eg; eexists; (split; [reflexivity |]); [| done].
      apply free_res_inv; [done | done |]. rewrite !andb_true_iff, !negb_true_iff, !Z.eqb_neq in Eg.
      unfold def_of. destruct v6; tauto.
  - destruct (Z.eqb_spec op RESTRICT_FLAGS); [| destruct (Z.eqb_spec op RESTRICT_UNFLAG)].
    + eexists. split; [reflexivity |]. now apply add_restrict_inv.
    + eauto.
    + assert (((op =? RESTRICT_REMOVE) || (op =? RESTRICT_REMOVEIF)) = true) as ->; [| eauto].
      unfold RESTRICT_FLAGS, RESTRICT_UNFLAG, RESTRICT_REMOVE, RESTRICT_REMOVEIF in *. lia.
Qed.

Lemma lookup_inv now a st :
  res_inv st -> exists f st', restrictions now a st = Some (f, st') /\ res_inv st'.
Proof.
  intros Hi. unfold restrictions. set (st0 := st <| res_calls := _ |>).
  assert (Hi0 : res_inv st0) by now apply (res_inv_ext st).
  destruct (restrictions_branch now false (sa_addr a) (sa_port a) st0 Hi0) as (p4 & s4 & E4 & H4).
  destruct (restrictions_branch now true (sa_addr a) (sa_port a) st0 Hi0) as (p6 & s6 & E6 & H6).
  destruct (IS_IPV4 a); [| destruct (IS_IPV6 a); [| eauto]];
    (destruct (IS_MCAST a); [eauto |]); [exists (ru_flags (res_at s4 p4)), s4 | exists (ru_flags (res_at s6 p6)), s6]; auto.
Qed.

(** The source flags and the family test, apart from the lists. *)
Lemma free_res_mflags p v6 st : restrict_source_mflags (free_res p v6 st) = restrict_source_mflags st.
Proof.
  unfold free_res, dec_res_limited. destruct (_ && _); [destruct (_ =? 0) |]; destruct v6; reflexivity.
Qed.

Lemma inet_v6 a : inet a = true -> IS_IPV6 a = negb (IS_IPV4 a).
Proof.
  unfold inet, IS_IPV4, IS_IPV6. destruct (Z.eqb_spec (sa_family a) AF_INET) as [E | E]; [now rewrite E |].
  now destruct (sa_family a =? AF_INET6).
Qed.

Lemma match_by_family now a st :
  inet a = true ->
  (if IS_IPV4 a then match_restrict4_addr now (sa_addr a) (sa_port a) st
   else match_restrict6_addr now (sa_addr a) (sa_port a) st)
  = match_loop now (IS_IPV6 a) (sa_addr a) (sa_port a) (reslist (IS_IPV6 a) st) st.
Proof. intros H. rewrite (inet_v6 a H). now destruct (IS_IPV4 a). Qed.

Lemma source_inv now a farewell expire st :
  res_inv st -> res_room st -> res_op_ok (Source a farewell expire) st ->
  exists st', restrict_source now a farewell expire st = Some st' /\ res_inv st'.
Proof.
  intros Hi Hroom (Hf & Ha & Hm). unfold restrict_source. case_match; [eauto |].
  unfold inet in Hf. rewrite Hf. cbn [negb]. set (k := SET_HOSTMASK (sa_family a)).
  assert (Hk : 0 <= sa_addr k) by (unfold k, SET_HOSTMASK; cbn [sa_addr]; case_match; lia).
  assert (Hhack : forall op mflags flags expire s, res_inv s -> next_res s = next_res st ->
    1 <= op <= 4 -> 0 <= mflags ->
    exists st', hack_restrict op (Some a) (Some k) mflags flags expire s = Some st' /\ res_inv st').
  { intros. apply hack_inv; [done | unfold res_room in *; lia | done]. }
  destruct farewell; [apply Hhack; done |].
  rewrite (match_by_family now a st Hf).
  destruct (match_loop_spec now (IS_IPV6 a) (sa_addr a) (sa_port a) st Hi)
    as (p & st1 & -> & Hi1 & Hp & Hcase).
  assert (Hn1 : next_res st1 = next_res st /\ restrict_source_mflags st1 = restrict_source_mflags st).
  { destruct Hcase as [[-> _] | (-> & _)]; [done |]. rewrite free_res_mflags.
    destruct (free_res_fields p (IS_IPV6 a) st) as (_ & _ & ? & _). done. }
  destruct Hn1 as [Hn1 Hm1].
  destruct ((expire =? 0) && (ru_mask (res_at st1 p) =? sa_addr k) && nonzero (ru_expire (res_at st1 p)))
    eqn:Eg.
  - apply andb_true_iff in Eg as [_ Eg]. unfold nonzero in Eg. apply negb_true_iff, Z.eqb_neq in Eg.
    destruct Hcase as [[-> _] | (-> & _)].
    + assert (p <> def_of (IS_IPV6 a)) by (intros ->; apply Eg, Hi).
      apply Hhack; [now apply free_res_inv | | done | rewrite free_res_mflags; done].
      destruct (free_res_fields p (IS_IPV6 a) st) as (_ & _ & ? & _). done.
    + destruct (free_res_fields p (IS_IPV6 a) st) as (_ & _ & _ & _ & Er).
      rewrite Er, decide_True in Eg by done. done.
  - case_match; [eauto |]. apply Hhack; [done | done | done | lia].
Qed.

(** ** Room

    An operation allocates at most one chunk of structures, and does not
    change the flags of automatic entries. *)

Definition roomy (st st' : res_state) : Prop :=
  next_res st <= next_res st' <= next_res st + 31 /\ restrict_source_mflags st' = restrict_source_mflags st.

Lemma roomy_refl st : roomy st st.
Proof. split; [lia | done]. Qed.

Lemma roomy_same st st' :
  next_res st' = next_res st -> restrict_source_mflags st' = restrict_source_mflags st -> roomy st st'.
Proof. intros E1 E2. split; [lia | done]. Qed.

Lemma inc_fields st :
  next_res (inc_res_limited st) = next_res st /\ restrict_source_mflags (inc_res_limited st) = restrict_source_mflags st.
Proof. unfold inc_res_limited. now destruct (_ =? 0). Qed.
Lemma dec_fields st :
  next_res (dec_res_limited st) = next_res st /\ restrict_source_mflags (dec_res_limited st) = restrict_source_mflags st.
Proof. unfold dec_res_limited. now destruct (_ =? 0). Qed.

Lemma free_res_roomy p v6 st : roomy st (free_res p v6 st).
Proof.
  apply roomy_same; [| apply free_res_mflags]. now destruct (free_res_fields p v6 st) as (_ & _ & -> & _).
Qed.

Lemma set_reslist_fields v6 l st :
  next_res (set_reslist v6 l st) = next_res st /\ restrict_source_mflags (set_reslist v6 l st) = restrict_source_mflags st.
Proof. now destruct v6. Qed.

Lemma add_restrict_roomy v6 m st : roomy st (add_restrict v6 m st).
Proof.
  unfold add_restrict. rewrite alloc_res_eq.
  assert (Ha : roomy st (alloc_res v6 (inc_reslist v6) st).2).
  { pose proof (inc_reslist_le v6). assert (0 <= inc_reslist v6) by (destruct v6; vm_compute; discriminate).
    unfold alloc_res. destruct (resfree v6 st); cbn [snd]; destruct v6; (split; [cbn -[Z.add]; cbn in *; lia | done]). }
  destruct (alloc_res v6 (inc_reslist v6) st) as [p st1]. cbn [snd] in Ha.
  match goal with |- context [set_reslist v6 ?l ?x] => destruct (set_reslist_fields v6 l x) as [E1 E2];
    set (st2 := set_reslist v6 l x) in * end.
  clearbody st2. destruct Ha as [Ha1 Ha2].
  match goal with |- context [inc_res_limited ?x] => destruct (inc_fields x) as [E3 E4];
    set (st3 := inc_res_limited x) in * end.
  clearbody st3. cbn in E1, E2, E3, E4. destruct (has _ _); (split; [cbn; lia | cbn; congruence]).
Qed.

Lemma hack_roomy op a k mflags flags expire st st' :
  hack_restrict op (Some a) (Some k) mflags flags expire st = Some st' -> roomy st st'.
Proof.
  unfold hack_restrict. destruct (negb _); [done |].
  set (res := match_restrict_entry _ _ st). clearbody res.
  destruct (op =? RESTRICT_FLAGS).
  { destruct res; [| some_inj; apply add_restrict_roomy].
    destruct (inc_fields st). destruct (_ && _); some_inj; now apply roomy_same. }
  destruct (op =? RESTRICT_UNFLAG).
  { destruct res; [| some_inj; apply roomy_refl].
    destruct (dec_fields st). destruct (_ && _); some_inj; now apply roomy_same. }
  destruct (_ || _); [| done]. destruct res; [| some_inj; apply roomy_refl].
  destruct (_ && _); some_inj; [apply free_res_roomy | apply roomy_refl].
Qed.

Lemma source_roomy now a farewell expire st st' :
  res_inv st -> restrict_source now a farewell expire st = Some st' -> roomy st st'.
Proof.
  intros Hi. unfold restrict_source. destruct (_ || ISREFCLOCKADR a); [some_inj; apply roomy_refl |].
  destruct (negb (_ || _)) eqn:Ef; [done |]. apply negb_false_iff in Ef.
  destruct farewell; [apply hack_roomy |].
  rewrite (match_by_family now a st Ef).
  destruct (match_loop_spec now (IS_IPV6 a) (sa_addr a) (sa_port a) st Hi) as (p & st1 & -> & _ & _ & Hcase).
  assert (E1 : next_res st1 = next_res st /\ restrict_source_mflags st1 = restrict_source_mflags st).
  { destruct Hcase as [[-> _] | (-> & _)]; [done |]. rewrite free_res_mflags.
    now destruct (free_res_fields p (IS_IPV6 a) st) as (_ & _ & -> & _). }
  match goal with |- (let '(_, _) := if ?b then _ else _ in _) = _ -> _ => destruct b end.
  - intros E. apply hack_roomy in E as [E2 E3]. rewrite free_res_mflags in E3.
    destruct (free_res_fields p (IS_IPV6 a) st1) as (_ & _ & E4 & _). rewrite E4 in E2. split; [lia | destruct E1; congruence].
  - destruct (_ =? _); [some_inj; now apply roomy_same |].
    intros E. apply hack_roomy in E as [E2 E3]. split; [lia | destruct E1; congruence].
Qed.

(** A lookup allocates nothing; releasing an expired entry may stop the monitor. *)
Lemma mon_stop_room mode st : mon_room st -> mon_room (mon_stop mode st).
Proof.
  intros Hr. unfold mon_stop. destruct (_ =? _); [done |]. destruct (_ || _); [done |].
  destruct (negb _); [done |]. set (st1 := st <| mon_enabled := _ |>).
  assert (H1 : mon_room st1) by exact Hr. clearbody st1.
  assert (Hf : forall l x, mon_room x -> mon_room (fold_left (fun st mon => mon_free_entry mon st) l x)).
  { intros l. induction l as [|p l IH]; intros x Hx; cbn [fold_left]; [done | now apply IH]. }
  exact (Hf (mon_mru_list st1) st1 H1).
Qed.

Definition mon_fit (st : res_state) : Prop := mon_inv [] (monitor st) /\ mon_room (monitor st).

Lemma free_res_fit p v6 st : mon_fit st -> mon_fit (free_res p v6 st).
Proof.
  intros [Hi Hr]. unfold mon_fit.
  assert (E : monitor (free_res p v6 st) = monitor st \/ monitor (free_res p v6 st) = mon_stop MON_RES (monitor st)).
  { unfold free_res, dec_res_limited. destruct (_ && _); [destruct (_ =? 0) |]; destruct v6; auto. }
  destruct E as [-> | ->]; [done | auto using mon_stop_inv, mon_stop_room].
Qed.

(** What a lookup leaves of the state: itself, or itself less one entry. *)
Lemma lookup_cases now a st f st' :
  res_inv st -> restrictions now a st = Some (f, st') ->
  exists st1, (st1 = st \/ exists p v6 calls, st1 = free_res p v6 (st <| res_calls := calls |>)) /\
    monitor st' = monitor st1 /\ next_res st' = next_res st1 /\ restrict_source_mflags st' = restrict_source_mflags st1.
Proof.
  intros Hi. unfold restrictions. set (st0 := st <| res_calls := _ |>).
  assert (Hi0 : res_inv st0) by now apply (res_inv_ext st).
  assert (Hb : forall v6 d, (let '(m, st1) := match_loop now v6 (sa_addr a) (sa_port a) (reslist v6 st0) st0 in
    count_match m d st1) = Some (f, st') ->
    exists st1, (st1 = st \/ exists p v6 calls, st1 = free_res p v6 (st <| res_calls := calls |>)) /\
    monitor st' = monitor st1 /\ next_res st' = next_res st1 /\ restrict_source_mflags st' = restrict_source_mflags st1).
  { intros v6 d. destruct (match_loop_spec now v6 (sa_addr a) (sa_port a) st0 Hi0) as (p & st1 & -> & _ & _ & Hcase).
    unfold count_match. intros E. injection E as <- <-.
    destruct Hcase as [[-> _] | (-> & _)]; [exists st; split; [by left |] | eexists; split; [right; eexists _, _, _; reflexivity |]];
      destruct (d =? p); done. }
  destruct (IS_IPV4 a); [| destruct (IS_IPV6 a); [| intros [= <- <-]; exists st; split; [by left | done]]];
    (destruct (IS_MCAST a); [intros [= <- <-]; exists st; split; [by left | done] |]); [exact (Hb false _) | exact (Hb true _)].
Qed.

Lemma lookup_room now a st f st' :
  res_inv st -> restrictions now a st = Some (f, st') ->
  next_res st' = next_res st /\ restrict_source_mflags st' = restrict_source_mflags st.
Proof.
  intros Hi E. destruct (lookup_cases now a st f st' Hi E) as (st1 & C & _ & -> & ->).
  destruct C as [-> | (p & v6 & calls & ->)]; [done |]. rewrite free_res_mflags.
  now destruct (free_res_fields p v6 (st <| res_calls := calls |>)) as (_ & _ & -> & _).
Qed.

Lemma lookup_fit now a st f st' :
  res_inv st -> mon_fit st -> restrictions now a st = Some (f, st') ->
  mon_fit st' /\ next_res st' = next_res st /\ restrict_source_mflags st' = restrict_source_mflags st.
Proof.
  intros Hi Hm E. split; [| exact (lookup_room now a st f st' Hi E)].
  destruct (lookup_cases now a st f st' Hi E) as (st1 & C & M & _). unfold mon_fit. rewrite M.
  destruct C as [-> | (p & v6 & calls & ->)]; [exact Hm |].
  apply (free_res_fit p v6). exact Hm.
Qed.

(** ** The theorems *)

(** C31: every operation on the restriction lists returns and keeps them in
    order: both lists stay sorted by descending address, mask and match
    flags without duplicate keys, end in their default entry, hold only
    masked addresses, share no structure with each other or the free lists,
    and are counted by [restrictcount]. *)
Theorem restrict_invariant (now : Z) (op : res_op) (st : res_state) :
  res_inv st -> res_room st -> res_op_ok op st ->
  exists st', run_res now op st = Some st' /\ res_inv st'.
Proof.
  intros Hi Hroom Hok. destruct op; cbn [run_res].
  - now apply hack_inv.
  - eexists. split; [reflexivity |]. now apply (res_inv_ext st).
  - destruct (lookup_inv now addr st Hi) as (f & st' & -> & ?). cbn. eauto.
  - now apply source_inv.
Qed.

(** Specificity: [r'] constrains every bit [r] does, and more. *)
Definition more_specific (r' r : restrict_u) : Prop :=
  ru_mask r' <> ru_mask r /\ ru_mask r' .& ru_mask r = ru_mask r.

Lemma land_le a b : 0 <= a -> a .& b <= a.
Proof.
  intros Ha. assert (E : a - (a .& b) = Z.ldiff a (a .& b)).
  { apply Z.sub_nocarry_ldiff. apply Z.bits_inj'. intros n Hn.
    rewrite Z.ldiff_spec, Z.land_spec, Z.bits_0. now destruct (Z.testbit a n), (Z.testbit b n). }
  assert (0 <= Z.ldiff a (a .& b)) by (apply Z.ldiff_nonneg; auto). lia.
Qed.

Lemma land_mono a m1 m2 : 0 <= a -> 0 <= m2 -> m2 .& m1 = m1 -> a .& m1 <= a .& m2.
Proof.
  intros Ha Hm E.
  replace (a .& m1) with ((a .& m2) .& m1) by (rewrite <- Z.land_assoc, E; done).
  apply land_le. now apply Z.land_nonneg; auto.
Qed.

Lemma submask_le m1 m2 : 0 <= m2 -> m2 .& m1 = m1 -> m1 <= m2.
Proof. intros H E. rewrite <- E. now apply land_le. Qed.

(** In a sorted list the first match is the most specific one. *)
Lemma first_match_specific st l1 p l2 addr port :
  StronglySorted (ptr_before st) (l1 ++ p :: l2) -> 0 <= addr ->
  (forall q, q ∈ l1 ++ p :: l2 -> canonical (res_at st q)) ->
  (forall q, q ∈ l1 -> res_matches (res_at st q) addr port = false) ->
  res_matches (res_at st p) addr port = true ->
  forall q, q ∈ l1 ++ p :: l2 -> res_matches (res_at st q) addr port = true ->
    ~ more_specific (res_at st q) (res_at st p) /\
    (ru_mask (res_at st q) = ru_mask (res_at st p) ->
     ru_mflags (res_at st q) <= ru_mflags (res_at st p)).
Proof.
  intros Hs Ha Hc H1 Hm q Hq Hmq. unfold more_specific.
  rewrite elem_of_app, elem_of_cons in Hq. destruct Hq as [Hq | [-> | Hq]].
  - rewrite H1 in Hmq; done.
  - split; [naive_solver | lia].
  - assert (Hb : before (res_at st p) (res_at st q)).
    { apply StronglySorted_app_1_r in Hs. apply StronglySorted_inv in Hs as [_ Hf].
      rewrite Forall_forall in Hf. now apply Hf. }
    apply before_spec in Hb. unfold res_matches in Hm, Hmq.
    apply andb_true_iff in Hm as [Hm _], Hmq as [Hmq _]. apply Z.eqb_eq in Hm, Hmq.
    destruct (Hc q ltac:(set_solver)) as (_ & _ & Mq & _). split.
    + intros [Hne Hsub]. pose proof (land_mono addr _ _ Ha Mq Hsub).
      pose proof (submask_le _ _ Mq Hsub). lia.
    + intros E. rewrite E in Hmq. lia.
Qed.

(** A matching entry that has not expired gives its flags. *)
Lemma restrictions_live (now : Z) (a : sockaddr) (st : res_state) (l1 l2 : list Z) (p : Z) :
  res_inv st -> inet a = true -> IS_MCAST a = false ->
  reslist (IS_IPV6 a) st = l1 ++ p :: l2 ->
  (forall q, q ∈ l1 -> has_expired now (res_at st q) = false /\
                       res_matches (res_at st q) (sa_addr a) (sa_port a) = false) ->
  has_expired now (res_at st p) = false -> res_matches (res_at st p) (sa_addr a) (sa_port a) = true ->
  exists st', restrictions now a st = Some (ru_flags (res_at st p), st').
Proof.
  intros Hi Hf Hmc El H1 He H2. set (st0 := st <| res_calls := u64 (res_calls st + 1) |>).
  assert (Hloop : match_loop now (IS_IPV6 a) (sa_addr a) (sa_port a) (reslist (IS_IPV6 a) st0) st0
                  = (Some p, st0)).
  { change (reslist (IS_IPV6 a) st0) with (reslist (IS_IPV6 a) st). rewrite El, match_loop_skip by done.
    now apply match_loop_found. }
  unfold restrictions. fold st0. rewrite <- (match_by_family now a st0 Hf) in Hloop.
  pose proof (inet_v6 a Hf) as Hv. destruct (IS_IPV4 a).
  - rewrite Hmc, Hloop. eexists. reflexivity.
  - rewrite Hv, Hmc, Hloop. eexists. reflexivity.
Qed.

(** An expired entry lifts the restrictions of whatever address reaches
    it: the lookup releases the entry, tests the released, zeroed structure,
    which matches every address, and returns its empty flags.  The address
    need not match the expired entry, and the entries behind it, the default
    included, are not consulted. *)
Theorem restrictions_expired_unrestricted (now : Z) (a : sockaddr) (st : res_state) (l1 l2 : list Z) (p : Z) :
  res_inv st -> inet a = true -> IS_MCAST a = false ->
  reslist (IS_IPV6 a) st = l1 ++ p :: l2 ->
  (forall q, q ∈ l1 -> has_expired now (res_at st q) = false /\
                       res_matches (res_at st q) (sa_addr a) (sa_port a) = false) ->
  has_expired now (res_at st p) = true ->
  exists st', restrictions now a st = Some (0, st').
Proof.
  intros Hi Hf Hmc El H1 He. set (st0 := st <| res_calls := u64 (res_calls st + 1) |>).
  assert (Hloop : match_loop now (IS_IPV6 a) (sa_addr a) (sa_port a) (reslist (IS_IPV6 a) st0) st0
                  = (Some p, free_res p (IS_IPV6 a) st0)).
  { change (reslist (IS_IPV6 a) st0) with (reslist (IS_IPV6 a) st).
    rewrite El, match_loop_skip by done. now apply match_loop_expired. }
  destruct (free_res_fields p (IS_IPV6 a) st0) as (_ & _ & _ & _ & Er). specialize (Er p).
  rewrite decide_True in Er by done.
  unfold restrictions. fold st0. rewrite <- (match_by_family now a st0 Hf) in Hloop.
  pose proof (inet_v6 a Hf) as Hv. destruct (IS_IPV4 a).
  - rewrite Hmc, Hloop. unfold count_match. rewrite Er. eexists. reflexivity.
  - cbn [negb] in Hv. rewrite Hv in *. rewrite Hmc, Hloop. unfold count_match. rewrite Er.
    eexists. reflexivity.
Qed.


(** ** Closed instances *)

Definition v4 (addr : Z) : sockaddr := mk_sockaddr AF_INET addr 0 123.

Definition mon0 : mon_state :=
  mk_mon_state ∅ ∅ 0 [] [] 1 0 0 0 4 4 0 3 3 MON_OFF 600 64 1000 3000.
Definition res0 : res_state := init_restrict (res_zero mon0).

Lemma res0_inv : res_inv res0.
Proof.
  split.
  - apply (bool_decide_unpack _). vm_compute. exact I.
  - intros p Hp. cbn in Hp. rewrite !elem_of_cons in Hp.
    destruct Hp as [-> | [-> | Hp]]; [vm_compute; split; reflexivity .. | set_solver].
  - reflexivity.
  - reflexivity.
  - vm_compute. discriminate.
  - intros []; repeat constructor.
  - intros []; reflexivity.
  - intros []; repeat split; reflexivity.
  - intros [] p Hp; cbn in Hp; apply list_elem_of_singleton in Hp as ->; vm_compute;
      repeat split; discriminate.
Qed.

(** Default entry "ignore", and a temporary entry for 10.0.0.1 that expires at 50. *)
Definition res1 : res_state :=
  default res0 (hack_restrict RESTRICT_FLAGS (Some (v4 0)) (Some (v4 0)) 0 RES_IGNORE 0 res0
    ≫= hack_restrict RESTRICT_FLAGS (Some (v4 0x0a000001)) (Some (v4 0xffffffff)) 0 RES_NOQUERY 50).

Lemma res1_inv : res_inv res1.
Proof.
  unfold res1.
  destruct (hack_inv RESTRICT_FLAGS (v4 0) (v4 0) 0 RES_IGNORE 0 res0 res0_inv) as (s & E & Hs);
    [vm_compute; discriminate | vm_compute; repeat split; discriminate |].
  rewrite E. cbn [mbind option_bind].
  destruct (hack_inv RESTRICT_FLAGS (v4 0x0a000001) (v4 0xffffffff) 0 RES_NOQUERY 50 s Hs)
    as (s' & -> & Hs'); [| vm_compute; repeat split; discriminate | exact Hs'].
  vm_compute in E. injection E as <-. vm_compute. discriminate.
Qed.

Lemma restrict_invariant_witness :
  exists st', run_res 7 (Hack RESTRICT_REMOVE (v4 0x0a000001) (v4 0xffffffff) 0 0 0) res1 = Some st'
    /\ res_inv st'.
Proof.
  apply restrict_invariant; [exact res1_inv | vm_compute; discriminate |].
  vm_compute; repeat split; discriminate.
Defined.


Lemma restrictions_expired_unrestricted_witness :
  (exists st', restrictions 60 (v4 0xc0a80101) res1 = Some (0, st')) /\
  (exists st', restrictions 7 (v4 0xc0a80101) res1 = Some (RES_IGNORE, st')).
Proof.
  split; [| eexists; vm_compute; reflexivity].
  apply (restrictions_expired_unrestricted 60 (v4 0xc0a80101) res1 [] [restrict_def4] 3 res1_inv);
    try reflexivity. intros q Hq. set_solver.
Defined.

(** Releasing an entry that does not limit still gives up a reference to
    the monitor.  With one limiting entry in force and the monitor on for
    it, adding and removing an entry that only sets [noquery] stops the
    monitor, and the limiting entry no longer limits. *)
Theorem remove_unlimited_stops_monitor :
  exists st1 st2 st3,
    hack_restrict RESTRICT_FLAGS (Some (v4 0x0a000000)) (Some (v4 0xff000000)) 0 RES_LIMITED 0 res0 = Some st1 /\
    mon_enabled (monitor st1) = MON_RES /\
    hack_restrict RESTRICT_FLAGS (Some (v4 0x0b000001)) (Some (v4 0xffffffff)) 0 RES_NOQUERY 0 st1 = Some st2 /\
    hack_restrict RESTRICT_REMOVE (Some (v4 0x0b000001)) (Some (v4 0xffffffff)) 0 0 0 st2 = Some st3 /\
    mon_enabled (monitor st3) = MON_OFF /\
    exists st4, restrictions 1 (v4 0x0a000001) st3 = Some (RES_LIMITED, st4).
Proof.
  do 3 eexists. split; [vm_compute; reflexivity |]. split; [reflexivity |].
  split; [vm_compute; reflexivity |]. split; [vm_compute; reflexivity |].
  split; [reflexivity |]. eexists. vm_compute. reflexivity.
Qed.
