(* ===== verification/State.v ===== *)
(** * State of the protocol engine: [struct peer] of include/ntp.h and the
      globals of ntpd/ntp_proto.c, ntp_peer.c and ntp_loopfilter.c

    [struct peer] is split where the source splits it: the clear-to-zero
    area between [status] and [update] is the record [peer_vars], so that
    the [memset] of [peer_clear] is the replacement of that record.  The
    build modelled is the one without AUTOKEY and with REFCLOCK; pointers
    to peers and to local endpoints are integers into two heaps. *)

From S2P Require Import Prelude FixedPoint Double Lists NtpTypes AuthKeys Monitor Restrict.
From stdpp Require Import base gmap list.
#[local] Open Scope Z_scope.

(** ** Peers *)

(** The clear-to-zero area of [struct peer]. *)
Record peer_vars := mk_peer_vars {
  p_status : Z; p_new_status : Z; p_reach : Z; p_flash : Z; p_epoch : Z; p_burst : Z;
  p_retry : Z; p_flip : Z; p_filter_nextpt : Z; p_filter_delay : list double;
  p_filter_offset : list double; p_filter_disp : list double; p_filter_epoch : list Z;
  p_filter_order : list Z; p_rec : l_fp; p_xmt : l_fp; p_dst : l_fp; p_aorg : l_fp;
  p_borg : l_fp; p_offset : double; p_delay : double; p_jitter : double; p_disp : double;
  p_xleave : double; p_bias : double; p_t21_bytes : Z }.
#[export] Instance eta_peer_vars : Eta peer_vars := fun r =>
  mk_peer_vars (p_status r) (p_new_status r) (p_reach r) (p_flash r) (p_epoch r) (p_burst r)
    (p_retry r) (p_flip r) (p_filter_nextpt r) (p_filter_delay r) (p_filter_offset r)
    (p_filter_disp r) (p_filter_epoch r) (p_filter_order r) (p_rec r) (p_xmt r) (p_dst r)
    (p_aorg r) (p_borg r) (p_offset r) (p_delay r) (p_jitter r) (p_disp r) (p_xleave r)
    (p_bias r) (p_t21_bytes r).

(** [struct refclockproc]: the reference clock interface of a peer.  The
    driver's own unit structure and its I/O handle are left out; [pp_action]
    is the callback the driver has set, [pp_lastcode] the last timecode with
    its length. *)
Record refclockproc := mk_proc {
  pp_leap : Z; pp_currentstatus : Z; pp_lastevent : Z; pp_type : Z; pp_nextaction : Z;
  pp_action : option Z; pp_lastcode : list Z; pp_year : Z; pp_day : Z; pp_hour : Z;
  pp_minute : Z; pp_second : Z; pp_nsec : Z; pp_yearstart : Z; pp_coderecv : Z;
  pp_codeproc : Z; pp_lastref : l_fp; pp_lastrec : l_fp; pp_offset : double; pp_disp : double;
  pp_jitter : double; pp_filter : list double; pp_fudgetime1 : double; pp_fudgetime2 : double;
  pp_stratum : Z; pp_refid : Z; pp_sloppyclockflag : Z; pp_timestarted : Z; pp_polls : Z;
  pp_noreply : Z; pp_badformat : Z; pp_baddata : Z }.
#[export] Instance eta_proc : Eta refclockproc := fun r =>
  mk_proc (pp_leap r) (pp_currentstatus r) (pp_lastevent r) (pp_type r) (pp_nextaction r)
    (pp_action r) (pp_lastcode r) (pp_year r) (pp_day r) (pp_hour r) (pp_minute r)
    (pp_second r) (pp_nsec r) (pp_yearstart r) (pp_coderecv r) (pp_codeproc r) (pp_lastref r)
    (pp_lastrec r) (pp_offset r) (pp_disp r) (pp_jitter r) (pp_filter r) (pp_fudgetime1 r)
    (pp_fudgetime2 r) (pp_stratum r) (pp_refid r) (pp_sloppyclockflag r) (pp_timestarted r)
    (pp_polls r) (pp_noreply r) (pp_badformat r) (pp_baddata r).

(** [struct peer]; [pv] is the clear-to-zero area, [p_ai] the addresses of a
    pool not yet tried, [p_procptr] the reference clock interface the peer
    owns ([None] is the null pointer). *)
Record peer := mk_peer {
  p_srcadr : sockaddr; p_hostname : option (list Z); p_ai : list sockaddr; p_dstadr : option Z; p_associd : Z;
  p_version : Z; p_hmode : Z; p_hpoll : Z; p_minpoll : Z; p_maxpoll : Z; p_flags : Z;
  p_cast_flags : Z; p_last_event : Z; p_num_events : Z; p_ttl : Z; p_refclktype : Z;
  p_refclkunit : Z; p_procptr : option refclockproc;
  p_leap : Z; p_pmode : Z; p_stratum : Z; p_ppoll : Z; p_precision : Z;
  p_rootdelay : double; p_rootdisp : double; p_refid : Z; p_reftime : l_fp; p_keyid : Z;
  pv : peer_vars; p_update : Z; p_unreach : Z; p_throttle : Z; p_outdate : Z;
  p_nextdate : Z; p_timereset : Z; p_timereceived : Z; p_timereachable : Z; p_sent : Z;
  p_received : Z; p_processed : Z; p_badauth : Z; p_bogusorg : Z; p_oldpkt : Z;
  p_seldisptoolarge : Z; p_selbroken : Z }.
#[export] Instance eta_peer : Eta peer := fun r =>
  mk_peer (p_srcadr r) (p_hostname r) (p_ai r) (p_dstadr r) (p_associd r) (p_version r) (p_hmode r)
    (p_hpoll r) (p_minpoll r) (p_maxpoll r) (p_flags r) (p_cast_flags r) (p_last_event r)
    (p_num_events r) (p_ttl r) (p_refclktype r) (p_refclkunit r) (p_procptr r) (p_leap r) (p_pmode r) (p_stratum r)
    (p_ppoll r) (p_precision r) (p_rootdelay r) (p_rootdisp r) (p_refid r) (p_reftime r)
    (p_keyid r) (pv r) (p_update r) (p_unreach r) (p_throttle r) (p_outdate r)
    (p_nextdate r) (p_timereset r) (p_timereceived r) (p_timereachable r) (p_sent r)
    (p_received r) (p_processed r) (p_badauth r) (p_bogusorg r) (p_oldpkt r)
    (p_seldisptoolarge r) (p_selbroken r).

(** Update of a field of the clear-to-zero area. *)
Notation "p <|| f := v ||>" := (setter pv (setter f v (pv p)) p) (at level 1, left associativity).

Definition dzero : double := dofZ 0.
Definition lzero : l_fp := mk_lfp 0 0.
Definition zeros {A : Type} (x : A) : list A := replicate 8 x.

(** The area after [memset]. *)
Definition zero_vars : peer_vars :=
  mk_peer_vars 0 0 0 0 0 0 0 0 0 (zeros dzero) (zeros dzero) (zeros dzero) (zeros 0) (zeros 0)
    lzero lzero lzero lzero lzero dzero dzero dzero dzero dzero dzero 0.

(** A zeroed structure, as on the free list. *)
Definition zero_peer : peer :=
  mk_peer (mk_sockaddr 0 0 0 0) None [] None 0 0 0 0 0 0 0 0 0 0 0 0 0 None 0 0 0 0 0 dzero dzero 0 lzero 0
    zero_vars 0 0 0 0 0 0 0 0 0 0 0 0 0 0 0 0.

(** ** Global state *)

(** Settings: written by the configuration code, read by the protocol. *)
Record config := mk_config {
  sys_bclient : Z; sys_bdelay : double; sys_authenticate : Z; sys_mindisp : double;
  sys_maxdist : double; sys_manycastserver : Z; ntp_mode7 : Z; sys_floor : Z;
  sys_ceiling : Z; sys_minsane : Z; sys_minclock : Z; sys_maxclock : Z; sys_cohort : Z;
  sys_orphan : Z; sys_orphwait : Z; sys_beacon : Z; sys_ttlmax : Z; sys_ttl : list Z; clock_phi : double;
  allan_xpt : Z; mode_ntpdate : Z; cal_enable : Z }.
#[export] Instance eta_config : Eta config := fun r =>
  mk_config (sys_bclient r) (sys_bdelay r) (sys_authenticate r) (sys_mindisp r) (sys_maxdist r)
    (sys_manycastserver r) (ntp_mode7 r) (sys_floor r) (sys_ceiling r) (sys_minsane r)
    (sys_minclock r) (sys_maxclock r) (sys_cohort r) (sys_orphan r) (sys_orphwait r)
    (sys_beacon r) (sys_ttlmax r) (sys_ttl r) (clock_phi r) (allan_xpt r)
    (mode_ntpdate r) (cal_enable r).

(** The system variables of ntp_proto.c and the loop-filter variables the protocol shares. *)
Record sysvars := mk_sysvars {
  sys_leap : Z; sys_stratum : Z; sys_precision : Z; sys_rootdelay : double;
  sys_rootdisp : double; sys_refid : Z; sys_reftime : l_fp; sys_peer : option Z;
  sys_offset : double; sys_jitter : double; sys_epoch : Z; sys_clockhop : double;
  sys_survivors : Z; leap_vote : Z; leap_sec : Z; leap_peers : Z; leap_tai : Z;
  leapsec : Z; sys_tai : Z; sys_poll : Z; orphwait : Z; sys_authdelay : l_fp;
  peer_ntpdate : Z; freq_cnt : Z }.
#[export] Instance eta_sysvars : Eta sysvars := fun r =>
  mk_sysvars (sys_leap r) (sys_stratum r) (sys_precision r) (sys_rootdelay r) (sys_rootdisp r)
    (sys_refid r) (sys_reftime r) (sys_peer r) (sys_offset r) (sys_jitter r) (sys_epoch r)
    (sys_clockhop r) (sys_survivors r) (leap_vote r) (leap_sec r) (leap_peers r)
    (leap_tai r) (leapsec r) (sys_tai r) (sys_poll r) (orphwait r) (sys_authdelay r)
    (peer_ntpdate r) (freq_cnt r).

(** Statistics counters. *)
Record counters := mk_counters {
  sys_received : Z; sys_processed : Z; sys_newversion : Z; sys_oldversion : Z;
  sys_restricted : Z; sys_badlength : Z; sys_badauth : Z; sys_declined : Z;
  sys_limitrejected : Z; sys_kodsent : Z; findpeer_calls : Z; assocpeer_calls : Z;
  peer_allocations : Z; peer_demobilizations : Z; peer_timereset : Z }.
#[export] Instance eta_counters : Eta counters := fun r =>
  mk_counters (sys_received r) (sys_processed r) (sys_newversion r) (sys_oldversion r)
    (sys_restricted r) (sys_badlength r) (sys_badauth r) (sys_declined r)
    (sys_limitrejected r) (sys_kodsent r) (findpeer_calls r) (assocpeer_calls r)
    (peer_allocations r) (peer_demobilizations r) (peer_timereset r).

(** The clock discipline: the variables of ntp_loopfilter.c; [disc_state] is
    its [state], an empty [sys_huffpuff] the null pointer. *)
Record loop_vars := mk_loop {
  clock_max : double; clock_minstep : double; clock_panic : double; ntp_enable : Z;
  kern_enable : Z; allow_panic : Z; freq_set : Z; loop_started : Z; clock_codec : double;
  init_drift_comp : double; clock_offset : double; clock_jitter : double; drift_comp : double;
  clock_stability : double; clock_epoch : Z; disc_state : Z; tc_counter : Z;
  last_offset : double; sys_huffpuff : list double; sys_hufflen : Z; sys_huffptr : Z;
  sys_mindly : double }.
#[export] Instance eta_loop : Eta loop_vars := fun r =>
  mk_loop (clock_max r) (clock_minstep r) (clock_panic r) (ntp_enable r) (kern_enable r)
    (allow_panic r) (freq_set r) (loop_started r) (clock_codec r) (init_drift_comp r)
    (clock_offset r) (clock_jitter r) (drift_comp r) (clock_stability r) (clock_epoch r)
    (disc_state r) (tc_counter r) (last_offset r) (sys_huffpuff r) (sys_hufflen r)
    (sys_huffptr r) (sys_mindly r).

(** Effects outside the modelled state. *)
Inductive output :=
| StepTime (offset : double)
| AdjTime (offset : double)
| Tick (tick : double)
| Sendpkt (dest : sockaddr) (ep : option Z) (ttl : Z) (bytes : list Z)
| Report (err : Z) (p : option Z)
| Resolve (associd : Z)
| Exit (code : Z).

(** The state of the protocol engine. *)
Record state := mk_state {
  cf : config; sv : sysvars; ct : counters; peer_list : list Z;
  peer_hash : htable; peer_hash_count : gmap Z Z; assoc_hash : htable;
  assoc_hash_count : gmap Z Z; peer_free : list Z; peer_free_count : Z; total_peer_structs : Z;
  current_association_ID : Z; peer_associations : Z; peer_preempt : Z; heap : gmap Z peer;
  next_ptr : Z;
  endpts : gmap Z endpt; current_time : Z; initializing : Z; rng : Z; clk : Z;
  ctl_sys_last_event : Z; ctl_sys_num_events : Z; auth : auth_state; restr : res_state;
  lp : loop_vars; out : list output }.
#[export] Instance eta_state : Eta state := fun r =>
  mk_state (cf r) (sv r) (ct r) (peer_list r) (peer_hash r) (peer_hash_count r) (assoc_hash r)
    (assoc_hash_count r) (peer_free r) (peer_free_count r) (total_peer_structs r)
    (current_association_ID r) (peer_associations r) (peer_preempt r) (heap r) (next_ptr r)
    (endpts r) (current_time r) (initializing r) (rng r) (clk r) (ctl_sys_last_event r)
    (ctl_sys_num_events r) (auth r) (restr r) (lp r) (out r).

Notation "s <|sv f := v |>" := (setter sv (setter f v (sv s)) s) (at level 1, left associativity).
Notation "s <|cf f := v |>" := (setter cf (setter f v (cf s)) s) (at level 1, left associativity).
Notation "s <|lp f := v |>" := (setter lp (setter f v (lp s)) s) (at level 1, left associativity).
Notation "s <|ct f := v |>" := (setter ct (setter f v (ct s)) s) (at level 1, left associativity).

(** [counter++] *)
Notation "s .++ f" := (s <|ct f := u64 (f (ct s) + 1) |>) (at level 1, left associativity, f at level 0).

(** The monitor settings, behind the restriction state. *)
Definition mon (s : state) : mon_state := monitor (restr s).

(** Dereference of a peer pointer, and assignment through it. *)
Definition peer_at (s : state) (p : Z) : peer := default zero_peer (heap s !! p).
Definition put_peer (p : Z) (r : peer) (s : state) : state := s <| heap := <[p := r]> (heap s) |>.
Definition upd_peer (p : Z) (f : peer -> peer) (s : state) : state := put_peer p (f (peer_at s p)) s.

Definition endpt_at (s : state) (e : Z) : endpt := default zero_endpt (endpts s !! e).
Definition upd_endpt (e : Z) (f : endpt -> endpt) (s : state) : state :=
  s <| endpts := <[e := f (endpt_at s e)]> (endpts s) |>.

Definition emit (o : output) (s : state) : state := s <| out := out s ++ [o] |>.

(** ** Lemmas on the stores *)

Lemma peer_at_put_eq p r s : peer_at (put_peer p r s) p = r.
Proof. unfold peer_at, put_peer. cbn. now rewrite lookup_insert_eq. Qed.

Lemma peer_at_put_ne p q r s : p <> q -> peer_at (put_peer p r s) q = peer_at s q.
Proof. intros H. unfold peer_at, put_peer. cbn. now rewrite lookup_insert_ne. Qed.

#[export] Hint Rewrite peer_at_put_eq : ntp.

Lemma peer_at_upd p f s q : peer_at (upd_peer p f s) q = if decide (p = q) then f (peer_at s p) else peer_at s q.
Proof.
  unfold upd_peer. case_decide; subst; [apply peer_at_put_eq | now apply peer_at_put_ne].
Qed.

Lemma endpt_at_upd e f s x :
  endpt_at (upd_endpt e f s) x = if decide (e = x) then f (endpt_at s e) else endpt_at s x.
Proof.
  unfold endpt_at, upd_endpt. cbn. case_decide; subst; [now rewrite lookup_insert_eq | now rewrite lookup_insert_ne].
Qed.
