(* ===== verification/ProtoBase.v ===== *)
(** * Protocol helpers: ntpd/ntp_proto.c, ntp_control.c (events), ntp_util.c

    The environment of the protocol engine, and the routines the receive,
    transmit, filter and selection procedures share. *)

From S2P Require Import Prelude FixedPoint Calendar Double Lists NtpTypes AuthKeys Monitor Restrict State.
From stdpp Require Import base gmap list.
#[local] Open Scope Z_scope.

(** ** Reference clock drivers (include/ntp_refclock.h)

    [struct refclockstat], what the configuration and the monitoring
    protocols exchange with a clock, and [struct refclock], the entry points
    of a driver; [None] is [noentry].  An entry point is given the unit
    number and the peer. *)
Record refclockstat := mk_stat {
  rs_flags : Z; rs_haveflags : Z; rs_lastcode : list Z; rs_polls : Z; rs_noresponse : Z;
  rs_badformat : Z; rs_baddata : Z; rs_timereset : Z; rs_fudgetime1 : double;
  rs_fudgetime2 : double; rs_fudgeval1 : Z; rs_fudgeval2 : Z; rs_currentstatus : Z;
  rs_lastevent : Z; rs_type : Z }.

Record refclock := mk_refclock {
  clock_start : option (Z -> Z -> state -> bool * state);
  clock_shutdown : option (Z -> Z -> state -> state);
  clock_poll : option (Z -> Z -> state -> state);
  clock_control : option (Z -> option refclockstat -> option refclockstat -> Z -> state ->
                          option refclockstat * state);
  clock_timer : option (Z -> Z -> state -> state) }.

(** ** Environment

    What the engine asks of the interface code (ntp_io.c), the random
    number generator, the system clock, the reference clock drivers and the
    management protocols.  Nothing is assumed of them here. *)
Class Env := {
  env_digest :: Digest;
  (** the local endpoint a packet to this address would leave from *)
  findinterface : gmap Z endpt -> sockaddr -> option Z;
  (** the endpoint on whose subnet a broadcast address lies *)
  findbcastinter : gmap Z endpt -> sockaddr -> option Z;
  (** the wildcard endpoint of a family, and the loopback endpoint *)
  any_interface : Z -> option Z;
  loopback_interface : option Z;
  (** socket options for a broadcast or multicast destination *)
  enable_broadcast : Z -> sockaddr -> gmap Z endpt -> gmap Z endpt;
  enable_multicast_if : Z -> sockaddr -> gmap Z endpt -> gmap Z endpt;
  (** [ntp_random]: a draw and the generator's next state *)
  next_random : Z -> Z * Z;
  (** [get_systime]: the time and the clock's next state *)
  read_clock : Z -> l_fp * Z;
  (** [time(NULL)] *)
  unix_time : Z -> Z;
  (** [step_systime], [adj_systime]: the clock after a step or a slew *)
  step_clock : double -> Z -> Z;
  slew_clock : double -> Z -> Z;
  (** the table of reference clock drivers, and the callbacks they set *)
  refclock_conf : list refclock;
  clock_action : Z -> Z -> state -> state;
  (** mode 7 and mode 6 requests *)
  process_private : recvbuf -> Z -> state -> state;
  process_control : recvbuf -> Z -> state -> state }.

Section Base.
Context `{Env}.

Definition ntp_random (s : state) : Z * state :=
  let '(r, g) := next_random (rng s) in (r, s <| rng := g |>).
Definition get_systime (s : state) : l_fp * state :=
  let '(t, c) := read_clock (clk s) in (t, s <| clk := c |>).

(** ** Addresses *)

(** [addr2refid]: the IPv4 address, or four octets of the digest of the IPv6 one. *)
Definition addr2refid (a : sockaddr) : Z :=
  if IS_IPV4 a then sa_addr a else be_val (take 4 (md5 (be_bytes 16 (sa_addr a)))).

(** ** Events *)

Definition PEER_EVENT : Z := 0x080.
Definition EVNT_NOPEER : Z := 8.
Definition EVNT_ARMED : Z := 9.
Definition EVNT_DISARMED : Z := 10.
Definition PEVNT_MOBIL : Z := 1 .| PEER_EVENT.
Definition PEVNT_DEMOBIL : Z := 2 .| PEER_EVENT.
Definition PEVNT_UNREACH : Z := 3 .| PEER_EVENT.
Definition PEVNT_REACH : Z := 4 .| PEER_EVENT.
Definition PEVNT_RESTART : Z := 5 .| PEER_EVENT.
Definition PEVNT_RATE : Z := 7 .| PEER_EVENT.
Definition PEVNT_DENY : Z := 8 .| PEER_EVENT.
Definition PEVNT_ARMED : Z := 9 .| PEER_EVENT.
Definition PEVNT_NEWPEER : Z := 10 .| PEER_EVENT.
Definition PEVNT_CLOCK : Z := 11 .| PEER_EVENT.
Definition PEVNT_AUTH : Z := 12 .| PEER_EVENT.
Definition PEVNT_POPCORN : Z := 13 .| PEER_EVENT.
Definition PEVNT_XLEAVE : Z := 14 .| PEER_EVENT.
Definition PEVNT_XERR : Z := 15 .| PEER_EVENT.
Definition CTL_SYS_MAXEVENTS : Z := 15.
Definition CTL_PEER_MAXEVENTS : Z := 15.

(** [report_event], up to the trap messages. *)
Definition report_event (err : Z) (peer : option Z) (s : state) : state :=
  match peer with
  | None =>
      let s := if negb (ctl_sys_last_event s =? u8 err) then s <| ctl_sys_num_events := 0 |> else s in
      if CTL_SYS_MAXEVENTS <=? ctl_sys_num_events s then s
      else emit (Report err None)
             (s <| ctl_sys_last_event := u8 err |>
                <| ctl_sys_num_events := u8 (ctl_sys_num_events s + 1) |>)
  | Some p =>
      let errlast := u8 (clr (u8 err) PEER_EVENT) in
      let s := if p_last_event (peer_at s p) =? errlast
               then upd_peer p (fun r => r <| p_num_events := 0 |>) s else s in
      if CTL_PEER_MAXEVENTS <=? p_num_events (peer_at s p) then s
      else emit (Report err (Some p))
             (upd_peer p (fun r => r <| p_last_event := errlast |>
                                     <| p_num_events := u8 (p_num_events r + 1) |>) s)
  end.

(** ** Distance and fitness *)

(** [clock_phi * (current_time - peer->update)] *)
Definition phi_since (s : state) (t : Z) : double :=
  clock_phi (cf s) *d dofZ (u64 (current_time s - t)).

Definition root_distance (s : state) (p : Z) : double :=
  let r := peer_at s p in
  let dtemp := (p_delay (pv r) +d p_rootdelay r) /d dofZ 2 +d p_disp (pv r) +d p_rootdisp r
               +d phi_since s (p_update r) +d p_jitter (pv r) in
  if dtemp <d sys_mindisp (cf s) then sys_mindisp (cf s) else dtemp.

Definition local_refid (s : state) (p : Z) : bool :=
  let r := peer_at s p in
  let unicast_ep :=
    match p_dstadr r with
    | Some e => if negb (has (ep_flags (endpt_at s e)) INT_MCASTIF) then Some e
                else findinterface (endpts s) (p_srcadr r)
    | None => findinterface (endpts s) (p_srcadr r)
    end in
  match unicast_ep with
  | Some e => p_refid r =? ep_addr_refid (endpt_at s e)
  | None => false
  end.

(** The tests of [peer_unfit]; the routine also records them in [flash]. *)
Definition unfit_tests (s : state) (p : Z) : Z :=
  let r := peer_at s p in
  (if (p_leap r =? LEAP_NOTINSYNC) || (p_stratum r <? sys_floor (cf s))
      || (sys_ceiling (cf s) <=? p_stratum r) then TEST10 else 0)
  .| (if negb (has (p_flags r) FLAG_REFCLOCK) &&
         (sys_maxdist (cf s) +d clock_phi (cf s) *d ULOGTOD (p_hpoll r) <=d root_distance s p)
      then TEST11 else 0)
  .| (if (1 <? p_stratum r) && local_refid s p then TEST12 else 0)
  .| (if (p_reach (pv r) =? 0) || has (p_flags r) FLAG_NOSELECT then TEST13 else 0).

Definition peer_unfit (p : Z) (s : state) : Z * state :=
  let rval := unfit_tests s p in
  (rval, upd_peer p (fun r =>
     r <|| p_flash := s32 (clr (p_flash (pv r)) PEER_TEST_MASK .| rval) ||>) s).

(** ** Poll scheduling *)

(** The earliest time of the next poll. *)
Definition poll_earliest (s : state) (r : peer) : Z :=
  u64 (current_time s
       + Z.max (s32 (p_throttle r - s32 ((NTP_SHIFT - 1) * s32 (Z.shiftl 1 (p_minpoll r)))))
               (ntp_minpkt (mon s))).

Definition poll_update (p mpoll : Z) (s : state) : state :=
  let r := peer_at s p in
  let hpoll := Z.max (Z.min (p_maxpoll r) mpoll) (p_minpoll r) in
  let s := upd_peer p (fun r => r <| p_hpoll := hpoll |>) s in
  let r := peer_at s p in
  let utemp := poll_earliest s r in
  if 0 <? p_burst (pv r) then
    if current_time s <? p_nextdate r then s
    else if has (p_flags r) FLAG_REFCLOCK
    then upd_peer p (fun r => r <| p_nextdate := u64 (current_time s + RESP_DELAY) |>) s
    else upd_peer p (fun r => r <| p_nextdate := utemp |>) s
  else
    let hpoll := if 0 <? p_retry (pv r) then p_minpoll r
                 else if p_reach (pv r) =? 0 then p_hpoll r
                 else Z.min (p_ppoll r) (p_hpoll r) in
    let '(next, s) :=
      if has (p_flags r) FLAG_REFCLOCK then (u64 (s32 (Z.shiftl 1 hpoll)), s)
      else let '(x, s) := ntp_random s in
           (Z.shiftr (u64 (Z.shiftl (0x1000 .| (x .& 0x0ff)) hpoll)) 12, s) in
    let next := u64 (next + p_outdate r) in
    let nextdate := if utemp <? next then next else utemp in
    let nextdate := if s32 (Z.shiftl 1 (p_minpoll r)) <? p_throttle r
                    then u64 (nextdate + ntp_minpkt (mon s)) else nextdate in
    upd_peer p (fun r => r <| p_nextdate := nextdate |>) s.

(** ** Clearing a peer *)

(** Four-character tags, as the words they are sent as. *)
Definition STEP : Z := 0x53544550.
Definition INIT : Z := 0x494e4954.
Definition RSTR : Z := 0x52535452.
Definition RATE : Z := 0x52415445.
Definition DENY : Z := 0x44454e59.


Definition peer_clear (p ident : Z) (s : state) : state :=
  let s := upd_peer p (fun r => r <| pv := zero_vars |>) s in
  let s := upd_peer p (fun r => r <| p_ppoll := p_maxpoll r |> <| p_hpoll := p_minpoll r |>
                                  <|| p_disp := MAXDISPERSE ||>) s in
  let '(unfit, s) := peer_unfit p s in
  let s := upd_peer p (fun r => r <|| p_flash := unfit ||>
                                  <|| p_jitter := LOGTOD (sys_precision (sv s)) ||>) s in
  let s := if has (p_flags (peer_at s p)) FLAG_XLEAVE
           then upd_peer p (fun r => r <|| p_flip := 1 ||>) s else s in
  let s := upd_peer p (fun r => r <|| p_filter_order := zrange 0 8 ||>
                                  <|| p_filter_disp := replicate 8 MAXDISPERSE ||>) s in
  let s := if negb (has (p_flags (peer_at s p)) FLAG_REFCLOCK)
           then upd_peer p (fun r => r <| p_leap := LEAP_NOTINSYNC |> <| p_stratum := STRATUM_UNSPEC |>
                                       <| p_refid := ident |>) s
           else s in
  let now := current_time s in
  let s := upd_peer p (fun r => r <| p_nextdate := now |> <| p_update := now |>
                                  <| p_outdate := now |>) s in
  if nonzero (initializing s) then
    upd_peer p (fun r => r <| p_nextdate := u64 (now + peer_associations s) |>) s
  else if MODE_PASSIVE =? p_hmode (peer_at s p) then
    upd_peer p (fun r => r <| p_nextdate := u64 (now + ntp_minpkt (mon s)) |>) s
  else
    let '(x, s) := ntp_random s in
    upd_peer p (fun r => r <| p_nextdate := u64 (now + x %c p_minpoll r) |>) s.

(** [clear_all] (ntp_peer.c): every peer but the transmit-only ones. *)
Definition clear_all (s : state) : state :=
  fold_left (fun s p =>
    if negb (has (p_cast_flags (peer_at s p)) MDF_TXONLY_MASK) then peer_clear p STEP s else s)
    (peer_list s) s.

End Base.

(** ** Leap seconds *)

(** [leap_month] (ntp_util.c); [now] is [time(NULL)]. *)
Definition leap_month (now sec : Z) : Z :=
  let tvl := ntpcal_ntp_to_ntp sec None now in
  let tmp := ntpcal_daysplit tvl in
  let '(tmp, leap) := ntpcal_split_eradays (s32 (sp_hi tmp + DAY_NTP_STARTS - 1)) in
  let year := sp_hi tmp in
  let tmp := ntpcal_split_yeardays (sp_lo tmp) leap in
  let month := sp_hi tmp in
  let ndays := u32 (ntpcal_edate_to_eradays year (month + 1) 0 + 1 - DAY_NTP_STARTS) in
  u32 (ndays * SECSPERDAY - sec).
