(* ===== verification/LoopFilter.v ===== *)
(** * The clock discipline: ntpd/ntp_loopfilter.c

    The hybrid phase and frequency lock loop and its state machine, in the
    build without kernel support.  Stepping and slewing the system clock are
    output events that also move the clock the environment reads; the loop
    statistics record is left out. *)

From S2P Require Import Prelude FixedPoint Double NtpTypes Monitor Restrict State ProtoBase.
From stdpp Require Import base gmap list.
#[local] Open Scope Z_scope.

Definition CLOCK_MINSTEP : double := dofZ 300.
Definition CLOCK_PLL : double := dofZ 16.
Definition CLOCK_AVG : double := dofZ 8.
Definition CLOCK_FLL : double := dlit 25 2.
Definition CLOCK_FLOOR : double := dlit 5 4.
Definition CLOCK_LIMIT : Z := 30.
Definition CLOCK_PGATE : double := dofZ 4.
Definition NTP_MAXFREQ : double := dlit 500 6.
Definition HUFFPUFF : Z := 900.

Definition EVNT_NSET : Z := 1.
Definition EVNT_FSET : Z := 2.
Definition EVNT_SPIK : Z := 3.
Definition EVNT_FREQ : Z := 4.
Definition EVNT_SYNC : Z := 5.
Definition EVNT_SYSFAULT : Z := 7.
Definition EVNT_CLOCKRESET : Z := 12.

Definition LOOP_DRIFTINIT : Z := 1.
Definition LOOP_KERN_CLEAR : Z := 2.
Definition LOOP_MAX : Z := 3.
Definition LOOP_PANIC : Z := 4.
Definition LOOP_PHI : Z := 5.
Definition LOOP_MINSTEP : Z := 6.
Definition LOOP_ALLAN : Z := 8.
Definition LOOP_HUFFPUFF : Z := 9.
Definition LOOP_FREQ : Z := 10.
Definition LOOP_CODEC : Z := 11.
Definition LOOP_TICK : Z := 13.

Definition dmin (a b : double) : double := if a <d b then a else b.
Definition dbig : double := dofZ (10 ^ 9).

Section Loop.
Context `{Env}.

Definition step_systime (offset : double) (s : state) : state :=
  emit (StepTime offset) (s <| clk := step_clock offset (clk s) |>).
Definition adj_systime (offset : double) (s : state) : state :=
  emit (AdjTime offset) (s <| clk := slew_clock offset (clk s) |>).

Definition init_loopfilter (s : state) : state :=
  s <|sv sys_poll := u8 (ntp_minpoll (mon s)) |>
    <|lp clock_jitter := LOGTOD (sys_precision (sv s)) |>
    <|sv freq_cnt := s32 (dtrunc (clock_minstep (lp s))) |>.

(** ** State transitions *)

Definition rstclock (trans : Z) (offset : double) (s : state) : state :=
  let s := if negb (trans =? disc_state (lp s)) && negb (trans =? EVNT_FSET)
           then report_event trans None s else s in
  s <|lp disc_state := trans |> <|lp clock_offset := offset |> <|lp last_offset := offset |>
    <|lp clock_epoch := current_time s |>.

Definition set_freq (freq : double) (s : state) : state :=
  report_event EVNT_FSET None (s <|lp drift_comp := freq |>).

(** [current_time - clock_epoch], as a double. *)
Definition since_epoch (s : state) : double := dofZ (u64 (current_time s - clock_epoch (lp s))).

Definition direct_freq (fp_offset : double) (s : state) : double * state :=
  let s := set_freq (fp_offset /d since_epoch s) s in (drift_comp (lp s), s).

(** ** [local_clock] *)

(** The huff-n'-puff correction of the offset.  A pointer beyond the filter,
    left over from a longer one, reads zero here and writes nothing. *)
Definition huffpuff_offset (p : Z) (fp_offset : double) (s : state) : double * state :=
  match sys_huffpuff (lp s) with
  | [] => (fp_offset, s)
  | huff =>
      let delay := p_delay (pv (peer_at s p)) in
      let i := Z.to_nat (sys_huffptr (lp s)) in
      let s := if delay <d nth i huff dzero then s <|lp sys_huffpuff := <[i := delay]> huff |> else s in
      let s := if delay <d sys_mindly (lp s) then s <|lp sys_mindly := delay |> else s in
      let dtemp := if dzero <d fp_offset then dneg (delay -d sys_mindly (lp s)) /d dofZ 2
                   else (delay -d sys_mindly (lp s)) /d dofZ 2 in
      (fp_offset +d dtemp, s)
  end.

(** The step itself; [inl] returns at once, [inr] is the return code and the
    frequency to go on with. *)
Definition do_step (fp_offset freq : double) (s : state) : Z * state + Z * double * state :=
  let s := report_event EVNT_CLOCKRESET None s in
  let s := step_systime fp_offset s in
  let s := s <|lp tc_counter := 0 |> <|lp clock_jitter := LOGTOD (sys_precision (sv s)) |> in
  if disc_state (lp s) =? EVNT_NSET then inl (2, rstclock EVNT_FREQ dzero s)
  else inr (2, freq, rstclock EVNT_SYNC dzero s).

(** Above the step threshold. *)
Definition step_regime (fp_offset mu : double) (s : state) : Z * state + Z * double * state :=
  let st := disc_state (lp s) in
  if st =? EVNT_SYNC then
    inl (0, (report_event EVNT_SPIK None s) <|lp disc_state := EVNT_SPIK |>)
  else if st =? EVNT_FREQ then
    if mu <d clock_minstep (lp s) then inl (0, s)
    else let '(freq, s) := direct_freq fp_offset s in
         if mu <d clock_minstep (lp s) then inl (0, s) else do_step fp_offset freq s
  else if st =? EVNT_SPIK then
    if mu <d clock_minstep (lp s) then inl (0, s) else do_step fp_offset (drift_comp (lp s)) s
  else do_step fp_offset (drift_comp (lp s)) s.

(** The PLL and FLL contributions to the frequency. *)
Definition lock_loops (fp_offset mu freq : double) (s : state) : double :=
  let freq := if allan_xpt (cf s) <=? sys_poll (sv s)
              then freq +d (fp_offset -d clock_offset (lp s)) /d dmax (ULOGTOD (sys_poll (sv s))) mu *d CLOCK_FLL
              else freq in
  let etemp := dmin (ULOGTOD (allan_xpt (cf s))) mu in
  let dtemp := dofZ 4 *d CLOCK_PLL *d ULOGTOD (sys_poll (sv s)) in
  freq +d fp_offset *d etemp /d (dtemp *d dtemp).

(** The adjustment of phase and frequency. *)
Definition do_slew (fp_offset mu freq : double) (s : state) : Z * state + Z * double * state :=
  let s := s <|lp allow_panic := 0 |> in
  let freq := if freq_cnt (sv s) =? 0 then lock_loops fp_offset mu freq s else freq in
  let s := rstclock EVNT_SYNC fp_offset s in
  let s := if dabs fp_offset <d CLOCK_FLOOR then s <|sv freq_cnt := 0 |> else s in
  inr (1, freq, s).

(** The jitter, as the weighted offset differences. *)
Definition update_jitter (fp_offset : double) (s : state) : state :=
  let etemp := SQUARE (clock_jitter (lp s)) in
  let dtemp := SQUARE (dmax (dabs (fp_offset -d last_offset (lp s))) (LOGTOD (sys_precision (sv s)))) in
  s <|lp clock_jitter := SQRT (etemp +d (dtemp -d etemp) /d CLOCK_AVG) |>.

(** Below the step threshold. *)
Definition slew_regime (fp_offset mu : double) (s : state) : Z * state + Z * double * state :=
  let s := update_jitter fp_offset s in
  let st := disc_state (lp s) in
  if st =? EVNT_NSET then
    inr (1, drift_comp (lp s), rstclock EVNT_FREQ fp_offset (adj_systime fp_offset s))
  else if st =? EVNT_FREQ then
    if mu <d clock_minstep (lp s) then inl (0, s)
    else let '(freq, s) := direct_freq fp_offset s in do_slew fp_offset mu freq s
  else do_slew fp_offset mu (drift_comp (lp s)) s.

(** The frequency, clamped, and its wander. *)
Definition update_freq (freq : double) (s : state) : state :=
  let dtemp := SQUARE (freq -d drift_comp (lp s)) in
  let s := s <|lp drift_comp := if NTP_MAXFREQ <d freq then NTP_MAXFREQ
                                else if freq <d dneg NTP_MAXFREQ then dneg NTP_MAXFREQ else freq |> in
  let etemp := SQUARE (clock_stability (lp s)) in
  s <|lp clock_stability := SQRT (etemp +d (dtemp -d etemp) /d CLOCK_AVG) |>.

(** The time constant. *)
Definition adjust_poll (p : Z) (s : state) : state :=
  if 0 <? freq_cnt (sv s) then s <|lp tc_counter := 0 |>
  else if dabs (clock_offset (lp s)) <d CLOCK_PGATE *d clock_jitter (lp s) then
    let s := s <|lp tc_counter := s32 (tc_counter (lp s) + sys_poll (sv s)) |> in
    if CLOCK_LIMIT <? tc_counter (lp s) then
      let s := s <|lp tc_counter := CLOCK_LIMIT |> in
      if sys_poll (sv s) <? p_maxpoll (peer_at s p)
      then s <|lp tc_counter := 0 |> <|sv sys_poll := u8 (sys_poll (sv s) + 1) |> else s
    else s
  else
    let s := s <|lp tc_counter := s32 (tc_counter (lp s) - Z.shiftl (sys_poll (sv s)) 1) |> in
    if tc_counter (lp s) <? - CLOCK_LIMIT then
      let s := s <|lp tc_counter := - CLOCK_LIMIT |> in
      if p_minpoll (peer_at s p) <? sys_poll (sv s)
      then s <|lp tc_counter := 0 |> <|sv sys_poll := u8 (sys_poll (sv s) - 1) |> else s
    else s.

(** The system poll interval within the limits of the peer. *)
Definition clamp_poll (p : Z) (s : state) : state :=
  let s := if sys_poll (sv s) <? p_minpoll (peer_at s p) then s <|sv sys_poll := p_minpoll (peer_at s p) |> else s in
  if p_maxpoll (peer_at s p) <? sys_poll (sv s) then s <|sv sys_poll := p_maxpoll (peer_at s p) |> else s.

(** The offset is beyond the panic threshold, or the step threshold. *)
Definition panics (s : state) (fp_offset : double) : bool :=
  (clock_panic (lp s) <d dabs fp_offset) && (dzero <d clock_panic (lp s)) && (allow_panic (lp s) =? 0).
Definition steps (s : state) (fp_offset : double) : bool :=
  (clock_max (lp s) <d dabs fp_offset) && (dzero <d clock_max (lp s)).

Definition local_clock (p : Z) (fp_offset : double) (s : state) : Z * state :=
  if ntp_enable (lp s) =? 0 then (0, s)
  else if panics s fp_offset then (-1, report_event EVNT_SYSFAULT None s)
  else if nonzero (mode_ntpdate (cf s)) then
    (0, emit (Exit 0) (if steps s fp_offset then step_systime fp_offset s else adj_systime fp_offset s))
  else
    let '(fp_offset, s) := huffpuff_offset p fp_offset s in
    let osys_poll := sys_poll (sv s) in
    let s := clamp_poll p s in
    let mu := since_epoch s in
    match (if steps s fp_offset then step_regime fp_offset mu s else slew_regime fp_offset mu s) with
    | inl r => r
    | inr (rval, freq, s) =>
        let s := adjust_poll p (update_freq freq s) in
        (rval, if osys_poll =? sys_poll (sv s) then s else poll_update p (sys_poll (sv s)) s)
    end.

(** ** Once a second *)

Definition adj_host_clock (s : state) : state :=
  let s := s <|sv sys_rootdisp := sys_rootdisp (sv s) +d clock_phi (cf s) |> in
  if (ntp_enable (lp s) =? 0) || nonzero (mode_ntpdate (cf s)) then s
  else
    let '(offset_adj, s) :=
      if negb (disc_state (lp s) =? EVNT_SYNC) then (dzero, s)
      else if 0 <? freq_cnt (sv s) then
        (clock_offset (lp s) /d (CLOCK_PLL *d ULOGTOD 1), s <|sv freq_cnt := s32 (freq_cnt (sv s) - 1) |>)
      else (clock_offset (lp s) /d (CLOCK_PLL *d ULOGTOD (sys_poll (sv s))), s) in
    let freq_adj := drift_comp (lp s) in
    let offset_adj :=
      if NTP_MAXFREQ <d offset_adj +d freq_adj then NTP_MAXFREQ -d freq_adj
      else if offset_adj +d freq_adj <d dneg NTP_MAXFREQ then dneg NTP_MAXFREQ -d freq_adj
      else offset_adj in
    let s := s <|lp clock_offset := clock_offset (lp s) -d offset_adj |> in
    adj_systime (offset_adj +d freq_adj) s.

(** ** The huff-n'-puff filter and the configuration *)

Definition huffpuff (s : state) : state :=
  match sys_huffpuff (lp s) with
  | [] => s
  | huff =>
      let i := (sys_huffptr (lp s) + 1) %c sys_hufflen (lp s) in
      let huff := <[Z.to_nat i := dbig]> huff in
      let mindly := fold_left (fun m d => if d <d m then d else m) huff dbig in
      s <|lp sys_huffptr := i |> <|lp sys_huffpuff := huff |> <|lp sys_mindly := mindly |>
  end.

(** [select_loop], without a kernel loop. *)
Definition select_loop (use_kern_loop : Z) (s : state) : state :=
  if kern_enable (lp s) =? use_kern_loop then s else s <|lp kern_enable := use_kern_loop |>.

Definition loop_config (item : Z) (freq : double) (s : state) : state :=
  if item =? LOOP_DRIFTINIT then
    let ftemp := init_drift_comp (lp s) /d dofZ (10 ^ 6) in
    let ftemp := if NTP_MAXFREQ <d ftemp then NTP_MAXFREQ
                 else if ftemp <d dneg NTP_MAXFREQ then dneg NTP_MAXFREQ else ftemp in
    let s := set_freq ftemp s in
    let s := if nonzero (freq_set (lp s)) then rstclock EVNT_FSET dzero s else rstclock EVNT_NSET dzero s in
    s <|lp loop_started := 1 |>
  else if item =? LOOP_KERN_CLEAR then s
  else if item =? LOOP_ALLAN then s <|cf allan_xpt := u8 (dtrunc freq) |>
  else if item =? LOOP_CODEC then s <|lp clock_codec := freq /d dofZ (10 ^ 6) |>
  else if item =? LOOP_PHI then s <|cf clock_phi := freq /d dofZ (10 ^ 6) |>
  else if item =? LOOP_FREQ then
    s <|lp init_drift_comp := freq |> <|lp freq_set := s32 (freq_set (lp s) + 1) |>
  else if item =? LOOP_HUFFPUFF then
    let freq := if freq <d dofZ HUFFPUFF then dofZ HUFFPUFF else freq in
    let len := s32 (dtrunc (freq /d dofZ HUFFPUFF)) in
    s <|lp sys_hufflen := len |> <|lp sys_huffpuff := replicate (Z.to_nat len) dbig |> <|lp sys_mindly := dbig |>
  else if item =? LOOP_PANIC then s <|lp clock_panic := freq |>
  else if item =? LOOP_MAX then
    let s := s <|lp clock_max := freq |> in
    if deq freq dzero || (dlit 5 1 <d freq) then select_loop 0 s else s
  else if item =? LOOP_MINSTEP then
    s <|lp clock_minstep := if freq <d CLOCK_MINSTEP then CLOCK_MINSTEP else freq |>
  else if item =? LOOP_TICK then emit (Tick freq) s
  else s.

End Loop.
