(* ===== verification/Refclock.v ===== *)
(** * Reference clocks: the interface of ntpd/ntp_refclock.c

    A driver delivers samples into the ring buffer of the clock's
    [refclockproc] ([SAMPLE], [refclock_process]); [refclock_sample] drains
    it through the median filter.  Mobilizing and demobilizing a clock and
    its once-a-second timer are here too; polling a clock and taking its
    samples into the clock filter are in [RefclockPoll].  Opening and
    configuring the serial device is not modelled. *)

From S2P Require Import Prelude FixedPoint Double NtpTypes ClockTime State ProtoBase.
From stdpp Require Import base gmap list.
#[local] Open Scope Z_scope.

Definition MAXSTAGE : Z := 60.
Definition GMT : Z := 0.
Definition CEVNT_TIMEOUT : Z := 1.
Definition CEVNT_BADREPLY : Z := 2.
Definition CEVNT_FAULT : Z := 3.
Definition CEVNT_BADDATE : Z := 5.
Definition CEVNT_BADTIME : Z := 6.

Definition REFCLOCKTYPE (a : sockaddr) : Z := Z.shiftr (sa_addr a) 8 .& 0xff.
Definition REFCLOCKUNIT (a : sockaddr) : Z := sa_addr a .& 0xff.

(** A zeroed [refclockproc]. *)
Definition zero_proc : refclockproc :=
  mk_proc 0 0 0 0 0 None [] 0 0 0 0 0 0 0 0 0 lzero lzero dzero dzero dzero
    (replicate (Z.to_nat MAXSTAGE) dzero) dzero dzero 0 0 0 0 0 0 0 0.

(** ** Samples *)

Definition SAMPLE (x : double) (pp : refclockproc) : refclockproc :=
  let pp := pp <| pp_coderecv := (pp_coderecv pp + 1) %c MAXSTAGE |> in
  let pp := pp <| pp_filter := <[Z.to_nat (pp_coderecv pp) := x]> (pp_filter pp) |> in
  if pp_coderecv pp =? pp_codeproc pp
  then pp <| pp_codeproc := (pp_codeproc pp + 1) %c MAXSTAGE |> else pp.

Definition refclock_process_offset (lasttim lastrec : l_fp) (fudge : double) (pp : refclockproc) : refclockproc :=
  let pp := pp <| pp_lastrec := lastrec |> in
  SAMPLE (LFPTOD (L_SUB lasttim lastrec) +d fudge) pp.

(** [now] is [time(NULL)]. *)
Definition refclock_process_f (now : Z) (fudge : double) (pp : refclockproc) : bool * refclockproc :=
  let '(close, yearstart, ts) :=
    clocktime now (pp_day pp) (pp_hour pp) (pp_minute pp) (pp_second pp) GMT
      (l_ui (pp_lastrec pp)) (pp_yearstart pp) in
  let pp := pp <| pp_yearstart := yearstart |> in
  if negb close then (false, pp)
  else
    let ltemp := DTOLFP (dofZ (pp_nsec pp) /d dofZ (10 ^ 9)) in
    (true, refclock_process_offset (L_ADD (mk_lfp ts 0) ltemp) (pp_lastrec pp) fudge pp).

Definition refclock_process (now : Z) (pp : refclockproc) : bool * refclockproc :=
  refclock_process_f now (pp_fudgetime1 pp) pp.

(** ** The median filter *)

(** The samples from the get pointer to the put pointer, and the pointer
    moved; [fuel] bounds the walk around the ring. *)
Fixpoint drain (fuel : nat) (pp : refclockproc) : list double * refclockproc :=
  match fuel with
  | O => ([], pp)
  | S fuel =>
      if pp_codeproc pp =? pp_coderecv pp then ([], pp)
      else
        let pp := pp <| pp_codeproc := (pp_codeproc pp + 1) %c MAXSTAGE |> in
        let x := nth (Z.to_nat (pp_codeproc pp)) (pp_filter pp) dzero in
        let '(off, pp) := drain fuel pp in (x :: off, pp)
  end.

(** [qsort] with [refclock_cmpl_fp]. *)
Definition refclock_cmpl_fp (a b : double) : Z := if a <d b then -1 else if b <d a then 1 else 0.

Fixpoint insert_fp (x : double) (l : list double) : list double :=
  match l with
  | [] => [x]
  | y :: l' => if 0 <? refclock_cmpl_fp x y then y :: insert_fp x l' else x :: l
  end.
Definition qsort_fp (l : list double) : list double := foldr insert_fp [] l.

(** The [while ((j - i) > m)] loop; [fuel] is [j - i] at most. *)
Fixpoint trim (fuel : nat) (off : list double) (i j m : Z) : Z * Z :=
  match fuel with
  | O => (i, j)
  | S fuel =>
      if m <? j - i then
        let at_ k := nth (Z.to_nat k) off dzero in
        let offset := at_ ((j + i) / 2) in
        if at_ (j - 1) -d offset <d offset -d at_ i then trim fuel off (i + 1) j m
        else trim fuel off i (j - 1) m
      else (i, j)
  end.

(** The sum of the samples kept, and of the squared first differences. *)
Definition tally_samples (kept : list double) : double * double :=
  let '(offset, jitter, _) :=
    fold_left (fun '(offset, jitter, prev) x =>
      (offset +d x, match prev with None => jitter | Some y => jitter +d SQUARE (x -d y) end, Some x))
      kept (dzero, dzero, None) in
  (offset, jitter).

Definition refclock_sample (precision : Z) (pp : refclockproc) : Z * refclockproc :=
  let '(off, pp) := drain (Z.to_nat MAXSTAGE) pp in
  let n := Z.of_nat (length off) in
  if n =? 0 then (0, pp)
  else
    let off := if 1 <? n then qsort_fp off else off in
    let m := n - n * 4 / 10 in
    let '(i, j) := trim (length off) off 0 n m in
    let '(offset, jitter) := tally_samples (take (Z.to_nat (j - i)) (drop (Z.to_nat i) off)) in
    (n, pp <| pp_offset := offset /d dofZ m |>
           <| pp_jitter := dmax (SQRT (jitter /d dofZ m)) (LOGTOD precision) |>).

Section Refclock.
Context `{Env}.

(** Assignment through [peer->procptr]. *)
Definition upd_proc (p : Z) (f : refclockproc -> refclockproc) (s : state) : state :=
  upd_peer p (fun r => r <| p_procptr := option_map f (p_procptr r) |>) s.

Definition refclock_report (p code : Z) (s : state) : state :=
  match p_procptr (peer_at s p) with
  | None => s
  | Some _ =>
      let s :=
        if code =? CEVNT_TIMEOUT then upd_proc p (fun pp => pp <| pp_noreply := u64 (pp_noreply pp + 1) |>) s
        else if code =? CEVNT_BADREPLY then upd_proc p (fun pp => pp <| pp_badformat := u64 (pp_badformat pp + 1) |>) s
        else if (code =? CEVNT_BADDATE) || (code =? CEVNT_BADTIME)
        then upd_proc p (fun pp => pp <| pp_baddata := u64 (pp_baddata pp + 1) |>) s
        else s in
      let s := upd_proc p (fun pp => if pp_lastevent pp <? 15 then pp <| pp_lastevent := u8 (pp_lastevent pp + 1) |> else pp) s in
      if bool_decide (pp_currentstatus <$> p_procptr (peer_at s p) = Some code) then s
      else report_event PEVNT_CLOCK (Some p) (upd_proc p (fun pp => pp <| pp_currentstatus := u8 code |>) s)
  end.

(** ** Mobilization *)

(** [refclock_conf[clktype]->...]; an index beyond the table reads no driver. *)
Definition driver_of (clktype : Z) : option refclock := refclock_conf !! Z.to_nat clktype.

Definition refclock_unpeer (p : Z) (s : state) : state :=
  match p_procptr (peer_at s p) with
  | None => s
  | Some _ =>
      let r := peer_at s p in
      let s := match driver_of (p_refclktype r) ≫= clock_shutdown with
               | None => s
               | Some shutdown => shutdown (p_refclkunit r) p s
               end in
      upd_peer p (fun r => r <| p_procptr := None |>) s
  end.

(** The structure of a new clock, before the driver starts it. *)
Definition new_proc (p clktype unit : Z) (s : state) : state :=
  upd_peer p (fun r => r
    <| p_procptr := Some (zero_proc <| pp_type := clktype |> <| pp_timestarted := current_time s |>) |>
    <| p_refclktype := clktype |> <| p_refclkunit := u8 unit |>
    <| p_flags := u32 (p_flags r .| FLAG_REFCLOCK) |> <| p_leap := LEAP_NOTINSYNC |>
    <| p_stratum := STRATUM_REFCLOCK |> <| p_ppoll := p_maxpoll r |>
    <| p_pmode := if p_hmode r =? MODE_ACTIVE then MODE_PASSIVE else MODE_SERVER |>) s.

Definition refclock_newpeer (p : Z) (s : state) : bool * state :=
  let a := p_srcadr (peer_at s p) in
  if negb (ISREFCLOCKADR a) then (false, s)
  else
    let clktype := REFCLOCKTYPE a in
    let unit := REFCLOCKUNIT a in
    match driver_of clktype ≫= clock_start with
    | None => (false, s)
    | Some start =>
        let s := new_proc p clktype unit s in
        let '(ok, s) := start unit p s in
        if negb ok then (false, refclock_unpeer p s)
        else (true, upd_peer p (fun r => match p_procptr r with
                                         | Some pp => r <| p_refid := pp_refid pp |> | None => r end) s)
    end.

(** ** Once a second *)

(** [None] is the null dereference of a peer without interface. *)
Definition refclock_timer (p : Z) (s : state) : option state :=
  match p_procptr (peer_at s p) with
  | None => None
  | Some pp =>
      let s := match driver_of (pp_type pp) ≫= clock_timer with
               | None => s
               | Some tick => tick (p_refclkunit (peer_at s p)) p s
               end in
      Some (match p_procptr (peer_at s p) with
            | Some pp =>
                match pp_action pp with
                | Some act => if pp_nextaction pp <=? current_time s then clock_action act p s else s
                | None => s
                end
            | None => s
            end)
  end.

End Refclock.
