(* ===== verification/Peer.v ===== *)
(** * Peer table: ntpd/ntp_peer.c

    Associations, their two hash tables, the list of all peers, the free
    list and the per-endpoint lists.  Every routine of the file is here
    except [clear_all], which ProtoBase.v has.  [None] is a failed
    assertion, a read outside the association table, or a null pointer
    dereference; RestrictFacts and PeerFacts show when it cannot happen. *)

From S2P Require Import Prelude FixedPoint Double Lists NtpTypes AuthKeys Monitor Restrict State ProtoBase Refclock.
From stdpp Require Import base gmap list.
#[local] Open Scope Z_scope.

(** ** The association table *)

Definition NO_PEER : Z := 0.

Definition AM : list (list Z) := [
  [AM_ERR; AM_NEWPASS; AM_NOMATCH; AM_FXMIT;   AM_MANYCAST; AM_NEWBCL;  0];
  [AM_ERR; AM_PROCPKT; AM_PROCPKT; AM_NOMATCH; AM_NOMATCH;  AM_NOMATCH; 0];
  [AM_ERR; AM_PROCPKT; AM_ERR;     AM_NOMATCH; AM_NOMATCH;  AM_NOMATCH; 0];
  [AM_ERR; AM_NOMATCH; AM_NOMATCH; AM_NOMATCH; AM_PROCPKT;  AM_NOMATCH; 0];
  [AM_ERR; AM_NOMATCH; AM_NOMATCH; AM_NOMATCH; AM_NOMATCH;  AM_NOMATCH; 0];
  [AM_ERR; AM_NOMATCH; AM_NOMATCH; AM_NOMATCH; AM_NOMATCH;  AM_NOMATCH; 0];
  [AM_ERR; AM_NOMATCH; AM_NOMATCH; AM_NOMATCH; AM_NOMATCH;  AM_PROCPKT; 0]].

(** [AM[x][y]]; [None] outside the array. *)
Definition MATCH_ASSOC (x y : Z) : option Z :=
  if (x <? 0) || (y <? 0) then None
  else row ← AM !! Z.to_nat x; row !! Z.to_nat y.

Definition NTP_HASH_ADDR (a : sockaddr) : Z := sock_hash a .& NTP_HASH_MASK.
Definition INIT_PEER_ALLOC : nat := 8.
Definition INC_PEER_ALLOC : nat := 4.
Definition ASSOCID_MAX : Z := 65535.

Definition ACST : Z := 0x41435354.
Definition POOL : Z := 0x504f4f4c.
Definition MCST : Z := 0x4d435354.
Definition BCST : Z := 0x42435354.
Definition XFAC : Z := 0x58464143.

(** [count[h]++], [count[h]--] on a table of [int]. *)
Definition count_at (t : gmap Z Z) (h : Z) : Z := default 0 (t !! h).
Definition count_add (h n : Z) (t : gmap Z Z) : gmap Z Z := <[h := s32 (count_at t h + n)]> t.

(** The rest of a list after a structure on it: [p->link]. *)
Fixpoint after (p : Z) (l : list Z) : list Z :=
  match l with
  | [] => []
  | q :: l => if q =? p then l else after p l
  end.

(** [strcasecmp(a, b) == 0] on the bytes of two names. *)
Definition tolower (c : Z) : Z := if (65 <=? c) && (c <=? 90) then c + 32 else c.
Definition strcaseeq (a b : list Z) : bool := bool_decide (map tolower a = map tolower b).

Definition AF_UNSPEC : Z := 0.

Section Peer.
Context `{Env}.

(** ** Memory *)

Definition alloc_peers (n : nat) (s : state) : state :=
  let peers := zrange (next_ptr s) n in
  s <| next_ptr := next_ptr s + Z.of_nat n |>
    <| heap := fold_left (fun m p => <[p := zero_peer]> m) peers (heap s) |>
    <| peer_free := fold_left (fun l p => p :: l) (rev peers) (peer_free s) |>.

Definition getmorepeermem (s : state) : state :=
  let s := alloc_peers INC_PEER_ALLOC s in
  s <| total_peer_structs := s32 (total_peer_structs s + Z.of_nat INC_PEER_ALLOC) |>
    <| peer_free_count := s32 (peer_free_count s + Z.of_nat INC_PEER_ALLOC) |>.

(** The [do ... while] loop that draws a nonzero identifier; [None] when
    [fuel] draws were all zero. *)
Fixpoint first_associd (fuel : nat) (s : state) : option state :=
  match fuel with
  | O => None
  | S fuel =>
      let '(x, s) := ntp_random s in
      let id := u16 (x .& ASSOCID_MAX) in
      if id =? 0 then first_associd fuel s else Some (s <| current_association_ID := id |>)
  end.

Definition init_peer (fuel : nat) (s : state) : option state :=
  let s := alloc_peers INIT_PEER_ALLOC s in
  let s := s <| total_peer_structs := Z.of_nat INIT_PEER_ALLOC |>
             <| peer_free_count := Z.of_nat INIT_PEER_ALLOC |> in
  first_associd fuel s.

(** ** Searches *)

Definition findexistingpeer_name (hostname : list Z) (hname_fam : Z) (start_peer : option Z) (mode : Z)
    (s : state) : option Z :=
  chain_find (fun p =>
      let r := peer_at s p in
      match p_hostname r with
      | None => false
      | Some name =>
          ((mode =? -1) || (p_hmode r =? mode))
          && ((hname_fam =? AF_UNSPEC) || (sa_family (p_srcadr r) =? AF_UNSPEC)
              || (hname_fam =? sa_family (p_srcadr r)))
          && strcaseeq name hostname
      end)
    (match start_peer with None => peer_list s | Some q => after q (peer_list s) end).

(** The test of the address search. *)
Definition same_assoc (s : state) (addr : sockaddr) (mode cast_flags : Z) (p : Z) : bool :=
  let r := peer_at s p in
  ((mode =? -1) || (p_hmode r =? mode)
   || (has MDF_BCLNT (p_cast_flags r) && has MDF_BCLNT cast_flags))
  && ADDR_PORT_EQ addr (p_srcadr r).

Definition findexistingpeer_addr (addr : sockaddr) (start_peer : option Z) (mode cast_flags : Z)
    (s : state) : option Z :=
  chain_find (same_assoc s addr mode cast_flags)
    (match start_peer with
     | None => bucket (peer_hash s) (NTP_HASH_ADDR addr)
     | Some q => after q (bucket (peer_hash s) (NTP_HASH_ADDR (p_srcadr (peer_at s q))))
     end).

Definition findexistingpeer (addr : sockaddr) (hostname : option (list Z)) (start_peer : option Z)
    (mode cast_flags : Z) (s : state) : option Z :=
  match hostname with
  | Some name => findexistingpeer_name name (sa_family addr) start_peer mode s
  | None => findexistingpeer_addr addr start_peer mode cast_flags s
  end.

Definition findpeerbyassoc (assoc : Z) (s : state) : option Z * state :=
  let s := s .++ assocpeer_calls in
  (chain_find (fun p => assoc =? p_associd (peer_at s p))
     (bucket (assoc_hash s) (assoc .& NTP_HASH_MASK)), s).

Definition findmanycastpeer (rb : recvbuf) (s : state) : option Z :=
  chain_find (fun p =>
      has MDF_SOLICIT_MASK (p_cast_flags (peer_at s p))
      && L_ISEQU (pk_org (rb_pkt rb)) (p_aorg (pv (peer_at s p))))
    (peer_list s).

(** ** Endpoint binding *)

Definition set_peerdstadr (p : Z) (dstadr : option Z) (s : state) : state :=
  let r := peer_at s p in
  if bool_decide (p_dstadr r = dstadr) then s
  else if (match dstadr with
           | Some e => has FLAG_BC_VOL (p_flags r) && has INT_MCASTIF (ep_flags (endpt_at s e))
                       && (MODE_CLIENT =? p_hmode r)
           | None => false
           end) then s
  else
    let s := match p_dstadr r with
             | Some e => upd_endpt e (fun x => x <| ep_peercnt := u32 (ep_peercnt x - 1) |>
                                                 <| ep_peers := UNLINK p (ep_peers x) |>) s
             | None => s
             end in
    let s := upd_peer p (fun r => r <| p_dstadr := dstadr |>) s in
    match dstadr with
    | Some e => upd_endpt e (fun x => x <| ep_peers := p :: ep_peers x |>
                                        <| ep_peercnt := u32 (ep_peercnt x + 1) |>) s
    | None => s
    end.

(** [select_peerinterface] (ntp_io.c). *)
Definition select_peerinterface (p : Z) (srcadr : sockaddr) (dstadr : option Z) (s : state) : option Z :=
  let wild := any_interface (sa_family srcadr) in
  let ep := if ISREFCLOCKADR srcadr then loopback_interface
            else if has (p_cast_flags (peer_at s p)) (MDF_BCLNT .| MDF_ACAST .| MDF_MCAST .| MDF_BCAST)
            then findbcastinter (endpts s) srcadr
            else match dstadr with Some _ => dstadr | None => wild end in
  let ep := if bool_decide (wild = ep) then findinterface (endpts s) srcadr else ep in
  match ep with
  | Some e => if has INT_WILDCARD (ep_flags (endpt_at s e)) then None else Some e
  | None => None
  end.

(** Socket options by kind of destination. *)
Definition enable_cast (p : Z) (addr : sockaddr) (s : state) : state :=
  match p_dstadr (peer_at s p) with
  | None => s
  | Some e =>
      let cast := p_cast_flags (peer_at s p) in
      let s := if has MDF_BCAST cast then s <| endpts := enable_broadcast e addr (endpts s) |> else s in
      if has MDF_MCAST cast then s <| endpts := enable_multicast_if e addr (endpts s) |> else s
  end.

Definition peer_refresh_interface (p : Z) (s : state) : state :=
  let niface := select_peerinterface p (p_srcadr (peer_at s p)) None s in
  let piface := p_dstadr (peer_at s p) in
  let s := set_peerdstadr p niface s in
  let r := peer_at s p in
  if bool_decide (p_dstadr r = None) then s
  else
    let s := if bool_decide (p_dstadr r <> piface) && negb (has MDF_ACAST (p_cast_flags r))
                && negb (MODE_BROADCAST =? p_pmode r)
             then peer_clear p XFAC s else s in
    enable_cast p (p_srcadr (peer_at s p)) s.

Definition refresh_all_peerinterfaces (s : state) : state :=
  fold_left (fun s p => peer_refresh_interface p s) (peer_list s) s.

(** ** Matching a datagram *)

(** The loop over the hash chain: the matching peer and its action, or
    [(None, Some AM_ERR)] for the early return, or [(None, None)] at the
    end of the chain. *)
Fixpoint match_chain (s : state) (rb : recvbuf) (pkt_mode : Z) (l : list Z)
    : option (option Z * option Z) :=
  match l with
  | [] => Some (None, None)
  | p :: l =>
      let r := peer_at s p in
      if ADDR_PORT_EQ (rb_srcadr rb) (p_srcadr r) then
        action ← MATCH_ASSOC (p_hmode r) pkt_mode;
        let action :=
          if (MODE_SERVER =? pkt_mode) && (AM_PROCPKT =? action)
             && negb (L_ISEQU (p_aorg (pv r)) (pk_org (rb_pkt rb)))
             && bool_decide (findmanycastpeer rb s <> None)
          then AM_ERR else action in
        if action =? AM_ERR then Some (None, Some AM_ERR)
        else if negb (action =? AM_NOMATCH) then Some (Some p, Some action)
        else match_chain s rb pkt_mode l
      else match_chain s rb pkt_mode l
  end.

(** The call at the end of [findpeer] runs at most once: [findpeer_rounds]
    is two, and [None] is returned when they are not enough. *)
Fixpoint findpeer_go (fuel : nat) (rb : recvbuf) (pkt_mode : Z) (s : state)
    : option (option Z * Z * state) :=
  match fuel with
  | O => None
  | S fuel =>
      let s := s .++ findpeer_calls in
      '(p, action) ← match_chain s rb pkt_mode (bucket (peer_hash s) (NTP_HASH_ADDR (rb_srcadr rb)));
      match p, action with
      | _, None | None, Some _ =>
          match action with
          | Some a => Some (None, a, s)
          | None => a ← MATCH_ASSOC NO_PEER pkt_mode; Some (None, a, s)
          end
      | Some p, Some a =>
          if bool_decide (p_dstadr (peer_at s p) <> Some (rb_dstadr rb)) then
            let s := set_peerdstadr p (Some (rb_dstadr rb)) s in
            if bool_decide (p_dstadr (peer_at s p) = Some (rb_dstadr rb))
            then findpeer_go fuel rb pkt_mode s
            else Some (Some p, a, s)
          else Some (Some p, a, s)
      end
  end.

Definition findpeer_rounds : nat := 2.
Definition findpeer (rb : recvbuf) (pkt_mode : Z) (s : state) : option (option Z * Z * state) :=
  findpeer_go findpeer_rounds rb pkt_mode s.

(** ** Scores *)

Definition score (s : state) (p : Z) : Z :=
  let r := peer_at s p in
  let flash := p_flash (pv r) in
  truth (negb (has flash TEST10)) + truth (negb (has flash TEST13)) + truth (negb (has flash TEST12))
  + truth (negb (has flash TEST11)) + truth (CTL_PST_SEL_SELCAND <=? p_status (pv r))
  + truth (negb (p_status (pv r) =? CTL_PST_SEL_EXCESS)).

Definition score_all (s : state) (peer : Z) : Z :=
  let tamp := score s peer in
  let temp := fold_left (fun temp p =>
                if has (p_flags (peer_at s p)) FLAG_PREEMPT
                then let x := score s p in if x <? temp then x else temp
                else temp) (peer_list s) 100 in
  if negb (tamp =? temp) then 0 else temp.

(** ** Mobilizing and demobilizing *)

(** Unlinking from a hash table with its count; the count is restored when
    the structure was not there. *)
Definition unlink_counted (h p : Z) (t : htable) (n : gmap Z Z) : htable * gmap Z Z :=
  if bool_decide (p ∈ bucket t h) then (UNLINK_BUCKET h p t, count_add h (-1) n)
  else (t, count_add h 1 (count_add h (-1) n)).

Definition free_peer (p : Z) (unlink_peer : bool) (s : state) : state :=
  let s :=
    if unlink_peer then
      let '(t, n) := unlink_counted (NTP_HASH_ADDR (p_srcadr (peer_at s p))) p (peer_hash s) (peer_hash_count s) in
      let s := s <| peer_hash := t |> <| peer_hash_count := n |> in
      let '(t, n) := unlink_counted (p_associd (peer_at s p) .& NTP_HASH_MASK) p (assoc_hash s) (assoc_hash_count s) in
      let s := s <| assoc_hash := t |> <| assoc_hash_count := n |> in
      s <| peer_list := UNLINK p (peer_list s) |>
    else s in
  let s := put_peer p zero_peer s in
  s <| peer_free := p :: peer_free s |> <| peer_free_count := s32 (peer_free_count s + 1) |>.

Definition lift_res (f : res_state -> option res_state) (s : state) : option state :=
  r ← f (restr s); Some (s <| restr := r |>).

Definition unpeer (p : Z) (s : state) : option state :=
  let s := report_event PEVNT_DEMOBIL (Some p) s in
  s ← lift_res (restrict_source (current_time s) (p_srcadr (peer_at s p)) true 0) s;
  let s := set_peerdstadr p None s in
  let s := s .++ peer_demobilizations in
  let s := s <| peer_associations := s32 (peer_associations s - 1) |> in
  let s := if has FLAG_PREEMPT (p_flags (peer_at s p))
           then s <| peer_preempt := s32 (peer_preempt s - 1) |> else s in
  let s := if has FLAG_REFCLOCK (p_flags (peer_at s p)) then refclock_unpeer p s else s in
  Some (free_peer p true s).

(** Arguments of [newpeer]. *)
Record new_args := mk_args {
  na_srcadr : sockaddr; na_hostname : option (list Z); na_dstadr : option Z; na_hmode : Z;
  na_version : Z; na_minpoll : Z; na_maxpoll : Z; na_flags : Z; na_cast_flags : Z; na_ttl : Z;
  na_key : Z }.

(** The [while] loop over the associations with the same remote address;
    [None] when [fuel] steps were not enough. *)
Fixpoint find_same_dst (fuel : nat) (a : new_args) (dstadr : Z) (peer : option Z) (s : state)
    : option (option Z) :=
  match peer with
  | None => Some None
  | Some p =>
      let r := peer_at s p in
      if bool_decide (p_dstadr r = Some dstadr)
         || (has MDF_BCLNT (na_cast_flags a) && has MDF_BCLNT (p_cast_flags r))
         || (bool_decide (any_interface (sa_family (na_srcadr a)) = Some dstadr)
             && bool_decide (p_dstadr r = findinterface (endpts s) (na_srcadr a)))
      then Some (Some p)
      else match fuel with
           | O => None
           | S fuel =>
               find_same_dst fuel a dstadr
                 (findexistingpeer (na_srcadr a) (na_hostname a) (Some p) (na_hmode a) (na_cast_flags a) s) s
           end
  end.

Definition find_duplicate (a : new_args) (s : state) : option (option Z) :=
  let peer := findexistingpeer (na_srcadr a) (na_hostname a) None (na_hmode a) (na_cast_flags a) s in
  match na_dstadr a with
  | Some e => find_same_dst (length (peer_list s)) a e peer s
  | None => Some peer
  end.

(** [if (minpoll == 0) ... peer->minpoll = peer->maxpoll;] *)
Definition clamp_polls (minpoll maxpoll : Z) : Z * Z :=
  let mi := if minpoll =? 0 then NTP_MINDPOLL else Z.min minpoll NTP_MAXPOLL in
  let ma := if maxpoll =? 0 then NTP_MAXDPOLL else Z.max maxpoll NTP_MINPOLL in
  (if ma <? mi then ma else mi, ma).

(** From the free list to the call of [peer_clear]. *)
Definition fill_peer (p : Z) (a : new_args) (s : state) : state :=
  let s := s <| peer_associations := s32 (peer_associations s + 1) |> in
  let s := if has FLAG_PREEMPT (na_flags a) then s <| peer_preempt := s32 (peer_preempt s + 1) |> else s in
  let s := upd_peer p (fun r => r <| p_associd := current_association_ID s |>) s in
  let id := u16 (current_association_ID s + 1) in
  let s := s <| current_association_ID := if id =? 0 then 1 else id |> in
  let s := upd_peer p (fun r =>
    r <| p_srcadr := na_srcadr a |>
      <| p_hostname := match na_hostname a with Some n => Some n | None => p_hostname r end |>
      <| p_hmode := na_hmode a |> <| p_version := na_version a |> <| p_flags := na_flags a |>
      <| p_cast_flags := na_cast_flags a |>) s in
  let s := set_peerdstadr p (select_peerinterface p (na_srcadr a) (na_dstadr a) s) s in
  let '(mi, ma) := clamp_polls (na_minpoll a) (na_maxpoll a) in
  let s := upd_peer p (fun r => r <| p_minpoll := mi |> <| p_maxpoll := ma |>) s in
  let s := enable_cast p (na_srcadr a) s in
  upd_peer p (fun r => r <| p_ttl := na_ttl a |> <| p_keyid := na_key a |>
                         <| p_precision := sys_precision (sv s) |> <| p_hpoll := p_minpoll r |>) s.

Definition clear_ident (cast_flags : Z) : Z :=
  if has cast_flags MDF_ACAST then ACST else if has cast_flags MDF_POOL then POOL
  else if has cast_flags MDF_MCAST then MCST else if has cast_flags MDF_BCAST then BCST else INIT.

Definition link_peer (p : Z) (s : state) : state :=
  let h := NTP_HASH_ADDR (p_srcadr (peer_at s p)) in
  let s := s <| peer_hash := LINK_BUCKET h p (peer_hash s) |>
             <| peer_hash_count := count_add h 1 (peer_hash_count s) |> in
  let h := p_associd (peer_at s p) .& NTP_HASH_MASK in
  let s := s <| assoc_hash := LINK_BUCKET h p (assoc_hash s) |>
             <| assoc_hash_count := count_add h 1 (assoc_hash_count s) |> in
  s <| peer_list := p :: peer_list s |>.

(** Initialization of the structure, the reference clock included; the
    boolean is false when that failed. *)
Definition ready_peer (p : Z) (a : new_args) (s : state) : state :=
  let s := fill_peer p a s in
  let s := peer_clear p (clear_ident (na_cast_flags a)) s in
  let s := if nonzero (mode_ntpdate (cf s)) then s <|sv peer_ntpdate := s32 (peer_ntpdate (sv s) + 1) |> else s in
  let now := current_time s in
  upd_peer p (fun r => r <| p_timereset := now |> <| p_timereachable := now |> <| p_timereceived := now |>) s.

Definition start_peer (p : Z) (a : new_args) (s : state) : bool * state :=
  let s := ready_peer p a s in
  if ISREFCLOCKADR (p_srcadr (peer_at s p)) then
    let s := if na_maxpoll a =? 0 then upd_peer p (fun r => r <| p_maxpoll := p_minpoll r |>) s else s in
    refclock_newpeer p s
  else (true, s).

(** From the hash tables to the end. *)
Definition finish_peer (p : Z) (s : state) : option (option Z * state) :=
  let s := link_peer p s in
  s ← lift_res (restrict_source (current_time s) (p_srcadr (peer_at s p)) false 0) s;
  Some (Some p, report_event PEVNT_MOBIL (Some p) s).

Definition newpeer (a : new_args) (s : state) : option (option Z * state) :=
  if bool_decide (na_hostname a <> None) && negb (has MDF_POOL (na_cast_flags a)) then None
  else
  dup ← find_duplicate a s;
  match dup with
  | Some _ => Some (None, s)
  | None =>
    let s := if peer_free_count s =? 0 then getmorepeermem s else s in
    match peer_free s with
    | [] => None
    | p :: free =>
      let s := s <| peer_free := free |> <| peer_free_count := s32 (peer_free_count s - 1) |> in
      let '(ok, s) := start_peer p a s in
      if ok then finish_peer p s
      else Some (None, free_peer p false (set_peerdstadr p None s))
    end
  end.

Definition peer_config (srcadr : sockaddr) (hostname : option (list Z)) (dstadr : option Z)
    (hmode version minpoll maxpoll flags ttl key : Z) (s : state) : option (option Z * state) :=
  let cast_flags :=
    if hmode =? MODE_BROADCAST then (if IS_MCAST srcadr then MDF_MCAST else MDF_BCAST)
    else if hmode =? MODE_CLIENT then
      (if bool_decide (hostname <> None) && SOCK_UNSPEC srcadr then MDF_POOL
       else if IS_MCAST srcadr then MDF_ACAST else MDF_UCAST)
    else MDF_UCAST in
  let flags := flags .| FLAG_CONFIG in
  let flags := if nonzero (mode_ntpdate (cf s)) then flags .| FLAG_IBURST else flags in
  let flags := if has (MDF_ACAST .| MDF_POOL) cast_flags then clr flags FLAG_PREEMPT else flags in
  newpeer (mk_args srcadr hostname dstadr hmode version minpoll maxpoll flags cast_flags ttl key) s.

(** ** Statistics *)

Definition peer_clr_stats (s : state) : state :=
  s <|ct findpeer_calls := 0 |> <|ct assocpeer_calls := 0 |> <|ct peer_allocations := 0 |>
    <|ct peer_demobilizations := 0 |> <|ct peer_timereset := current_time s |>.

Definition peer_reset (p : option Z) (s : state) : state :=
  match p with
  | None => s
  | Some p =>
      upd_peer p (fun r =>
        r <| p_timereset := current_time s |> <| p_sent := 0 |> <| p_received := 0 |>
          <| p_processed := 0 |> <| p_badauth := 0 |> <| p_bogusorg := 0 |> <| p_oldpkt := 0 |>
          <| p_seldisptoolarge := 0 |> <| p_selbroken := 0 |>) s
  end.

Definition peer_all_reset (s : state) : state :=
  fold_left (fun s p => peer_reset (Some p) s) (peer_list s) s.

End Peer.
