(* ===== verification/Sample.v ===== *)
(** * A concrete environment and daemon state

    The instance the closed statements evaluate on: a toy digest, a counter
    for the random number generator and the clock, one endpoint, and a
    client association that has been reached and holds a good sample. *)

From S2P Require Import Prelude FixedPoint Calendar Double NtpTypes AuthKeys AuthFacts Monitor Restrict RestrictFacts State ProtoBase.
From stdpp Require Import base gmap list.
#[local] Open Scope Z_scope.

(** A driver that starts and never delivers; type 0 has no driver. *)
Definition sample_driver : refclock :=
  mk_refclock (Some (fun _ _ s => (true, s))) (Some (fun _ _ s => s)) (Some (fun _ _ s => s)) None None.

Definition sample_env : Env := {|
  env_digest := sum_digest;
  findinterface := fun _ _ => Some 1;
  findbcastinter := fun _ _ => Some 1;
  any_interface := fun _ => Some 2;
  loopback_interface := Some 1;
  enable_broadcast := fun _ _ m => m;
  enable_multicast_if := fun _ _ m => m;
  next_random := fun g => ((g * 1103515245 + 12345) mod 2 ^ 31, g + 1);
  read_clock := fun c => (mk_lfp c 0, c + 1);
  unix_time := fun c => c - JAN_1970;
  step_clock := fun _ c => c;
  slew_clock := fun _ c => c;
  refclock_conf := [mk_refclock None None None None None; sample_driver];
  clock_action := fun _ _ s => s;
  process_private := fun _ _ s => s;
  process_control := fun _ _ s => s |}.

Definition sample_config : config :=
  mk_config 0 (dlit 4 3) 1 (dlit 1 3) (dlit 15 1) 0 0 0 16 1 3 10 0 16 0 300 7 [255; 32; 64; 96; 128; 160; 192; 224] (dlit 15 6) 11 0 0.

Definition sample_sysvars : sysvars :=
  mk_sysvars 3 16 (-18) dzero dzero 0 lzero None dzero dzero 0 dzero 0 0 0 0 0 0 0 6 0 lzero 0 0.

(** The server 10.0.0.1, reached at time 90 with offset 1 ms. *)
Definition sample_peer : peer :=
  zero_peer <| p_srcadr := v4 0x0a000001 |> <| p_dstadr := Some 1 |> <| p_associd := 1 |>
            <| p_version := 4 |> <| p_hmode := MODE_CLIENT |> <| p_hpoll := 6 |>
            <| p_minpoll := 6 |> <| p_maxpoll := 10 |> <| p_flags := FLAG_CONFIG |>
            <| p_cast_flags := MDF_UCAST |> <| p_stratum := 2 |> <| p_ppoll := 6 |>
            <| p_refid := 0x0b000001 |> <| p_update := 90 |>
            <|| p_reach := 1 ||> <|| p_epoch := 90 ||> <|| p_offset := dlit 1 3 ||>
            <|| p_delay := dlit 1 2 ||> <|| p_jitter := dlit 1 3 ||> <|| p_disp := dlit 1 2 ||>.

Definition sample_endpt : endpt := mk_endpt 3 0 (v4 0x0a0000fe) AF_INET 0 0x0a0000fe false [1] 1.

(** The discipline in its initial state, with the default thresholds. *)
Definition sample_loop : loop_vars :=
  mk_loop (dlit 128 3) (dofZ 300) (dofZ 1000) 1 1 0 0 0 dzero dzero dzero (dlit 1 6) dzero dzero 0 0 0
    dzero [] 0 0 dzero.

Definition sample_state : state :=
  mk_state sample_config sample_sysvars (mk_counters 0 0 0 0 0 0 0 0 0 0 0 0 0 0 0) [1]
    {[sock_hash (v4 0x0a000001) .& NTP_HASH_MASK := [1]]} {[sock_hash (v4 0x0a000001) .& NTP_HASH_MASK := 1]}
    {[1 := [1]]} {[1 := 1]} [] 0 1 2 1 0 {[1 := sample_peer]} 2 {[1 := sample_endpt]} 100 0 1 3000000000 0 0 sample_store res0 sample_loop [].
