(* ===== verification/LoopFacts.v ===== *)
(** * The clock discipline: its state machine and its bounds *)

From S2P Require Import Prelude FixedPoint Double NtpTypes Monitor Restrict State ProtoBase LoopFilter Sample.
From stdpp Require Import base gmap list.
#[local] Open Scope Z_scope.

(** ** The state machine of the discipline

    The table in the comment of ntp_loopfilter.c: [big] when the offset is
    above the step threshold, [late] when the stepout threshold has passed
    since the last update; the new state and the return code (0 ignored, 1
    slewed, 2 stepped). *)
Inductive discipline (big late : bool) : Z -> Z -> Z -> Prop :=
| nset_in : big = false -> discipline big late EVNT_NSET EVNT_FREQ 1
| nset_out : big = true -> discipline big late EVNT_NSET EVNT_FREQ 2
| fset_in : big = false -> discipline big late EVNT_FSET EVNT_SYNC 1
| fset_out : big = true -> discipline big late EVNT_FSET EVNT_SYNC 2
| freq_wait : late = false -> discipline big late EVNT_FREQ EVNT_FREQ 0
| freq_in : big = false -> late = true -> discipline big late EVNT_FREQ EVNT_SYNC 1
| freq_out : big = true -> late = true -> discipline big late EVNT_FREQ EVNT_SYNC 2
| sync_in : big = false -> discipline big late EVNT_SYNC EVNT_SYNC 1
| sync_out : big = true -> discipline big late EVNT_SYNC EVNT_SPIK 0
| spik_in : big = false -> discipline big late EVNT_SPIK EVNT_SYNC 1
| spik_wait : big = true -> late = false -> discipline big late EVNT_SPIK EVNT_SPIK 0
| spik_out : big = true -> late = true -> discipline big late EVNT_SPIK EVNT_SYNC 2.

Definition disc_states : list Z := [EVNT_NSET; EVNT_FSET; EVNT_SPIK; EVNT_FREQ; EVNT_SYNC].

(** The steps of the system clock among the outputs. *)
Definition steps_of (l : list output) : list double :=
  omap (fun o => match o with StepTime d => Some d | _ => None end) l.

(** What a call has sent: the outputs that are new. *)
Definition sent_steps (s s' : state) (l : list double) : Prop :=
  exists o, out s' = out s ++ o /\ steps_of o = l.

Lemma sent_none s s' : out s' = out s -> sent_steps s s' [].
Proof. intros E. exists []. split; [now rewrite app_nil_r | done]. Qed.

Lemma sent_trans s1 s2 s3 l1 l2 : sent_steps s1 s2 l1 -> sent_steps s2 s3 l2 -> sent_steps s1 s3 (l1 ++ l2).
Proof.
  intros (o1 & E1 & <-) (o2 & E2 & <-). exists (o1 ++ o2). split; [now rewrite E2, E1, app_assoc |].
  unfold steps_of. now rewrite omap_app.
Qed.

(** A procedure of the loop leaves these variables alone. *)
Definition loop_frame (s s' : state) : Prop := lp s' = lp s /\ sv s' = sv s /\ cf s' = cf s /\ heap s' = heap s /\ current_time s' = current_time s.

Lemma report_frame err s : loop_frame s (report_event err None s) /\ sent_steps s (report_event err None s) [].
Proof.
  unfold report_event. repeat case_match; (split; [done |]); try (now apply sent_none); eexists; (split; [reflexivity | done]).
Qed.

Section Discipline.
Context `{Env}.

Lemma rstclock_spec t o s :
  let s' := rstclock t o s in
  disc_state (lp s') = t /\ drift_comp (lp s') = drift_comp (lp s) /\ sys_poll (sv s') = sys_poll (sv s) /\
  heap s' = heap s /\ sent_steps s s' [].
Proof.
  cbv zeta. unfold rstclock. set (s1 := if _ && _ then _ else s).
  assert (F : loop_frame s s1 /\ sent_steps s s1 []).
  { unfold s1. destruct (_ && _); [apply report_frame | split; [done | now apply sent_none]]. }
  clearbody s1. destruct F as [(E1 & E2 & _ & E4 & _) S]. cbn. rewrite E1, E2. split_and!; try done.
Qed.

Lemma set_freq_spec f s :
  let s' := set_freq f s in
  lp s' = (lp s) <| drift_comp := f |> /\ sv s' = sv s /\ cf s' = cf s /\ heap s' = heap s /\
  current_time s' = current_time s /\ sent_steps s s' [].
Proof.
  cbv zeta. unfold set_freq. destruct (report_frame EVNT_FSET (s <|lp drift_comp := f |>)) as [(E1 & E2 & E3 & E4 & E5) S].
  split_and!; done.
Qed.

(** The state, the return code and the steps of a call. *)
Definition obeys (big late : bool) (off : double) (s : state) (rc : Z) (s' : state) : Prop :=
  discipline big late (disc_state (lp s)) (disc_state (lp s')) rc /\
  sent_steps s s' (if rc =? 2 then [off] else []).

Definition regime_obeys (big late : bool) (off : double) (s : state) (r : Z * state + Z * double * state) : Prop :=
  match r with inl (rc, s') => obeys big late off s rc s' | inr (rc, _, s') => obeys big late off s rc s' end.

Lemma do_step_spec off freq s s0 :
  sent_steps s0 s [] ->
  match do_step off freq s with
  | inl (rc, s') => rc = 2 /\ disc_state (lp s) = EVNT_NSET /\ disc_state (lp s') = EVNT_FREQ /\ sent_steps s0 s' [off]
  | inr (rc, _, s') => rc = 2 /\ disc_state (lp s) <> EVNT_NSET /\ disc_state (lp s') = EVNT_SYNC /\ sent_steps s0 s' [off]
  end.
Proof.
  intros S0. unfold do_step.
  destruct (report_frame EVNT_CLOCKRESET s) as [(E1 & _) S1]. set (s1 := report_event EVNT_CLOCKRESET None s) in *.
  match goal with |- context [if disc_state (lp ?x) =? _ then _ else _] => set (s2 := x) end.
  assert (S2 : sent_steps s0 s2 [off]).
  { apply (sent_trans s0 s s2 [] [off]); [done |]. apply (sent_trans s s1 s2 [] [off]); [done |]. eexists. split; [reflexivity | done]. }
  assert (D2 : disc_state (lp s2) = disc_state (lp s)) by (rewrite <- E1; done). clearbody s2. rewrite D2.
  destruct (rstclock_spec EVNT_FREQ dzero s2) as (A1 & _ & _ & _ & A5).
  destruct (rstclock_spec EVNT_SYNC dzero s2) as (B1 & _ & _ & _ & B5).
  destruct (Z.eqb_spec (disc_state (lp s)) EVNT_NSET); (split_and!; try done).
  - exact (sent_trans s0 s2 _ [off] [] S2 A5).
  - exact (sent_trans s0 s2 _ [off] [] S2 B5).
Qed.

Lemma step_regime_obeys off mu s :
  disc_state (lp s) ∈ disc_states ->
  regime_obeys true (negb (mu <d clock_minstep (lp s))) off s (step_regime off mu s).
Proof.
  intros Hst. unfold step_regime.
  assert (Hd : forall freq s1, sent_steps s s1 [] -> disc_state (lp s1) = disc_state (lp s) ->
    disc_state (lp s) <> EVNT_SYNC ->
    (disc_state (lp s) = EVNT_FREQ \/ disc_state (lp s) = EVNT_SPIK -> (mu <d clock_minstep (lp s)) = false) ->
    regime_obeys true (negb (mu <d clock_minstep (lp s))) off s (do_step off freq s1)).
  { intros freq s1 S1 D1 Hns Hl. pose proof (do_step_spec off freq s1 s S1) as HD. rewrite D1 in HD.
    destruct (do_step off freq s1) as [[rc s'] | [[rc f] s']]; destruct HD as (-> & Hn & D' & S'); cbn [regime_obeys].
    - split; [| exact S']. rewrite Hn, D'. now apply nset_out.
    - split; [| exact S']. rewrite D'. unfold disc_states in Hst. rewrite !elem_of_cons in Hst.
      destruct Hst as [E | [E | [E | [E | [E | E]]]]]; [done | | | | done | set_solver]; rewrite E.
      + now apply fset_out.
      + apply spik_out; [done | now rewrite Hl by auto].
      + apply freq_out; [done | now rewrite Hl by auto]. }
  destruct (Z.eqb_spec (disc_state (lp s)) EVNT_SYNC) as [E | E].
  { destruct (report_frame EVNT_SPIK s) as [_ S]. split; [cbn; rewrite E; now apply sync_out | exact S]. }
  destruct (Z.eqb_spec (disc_state (lp s)) EVNT_FREQ) as [E2 | E2].
  { destruct (mu <d clock_minstep (lp s)) eqn:El; [split; [rewrite E2; now apply freq_wait | now apply sent_none] |].
    unfold direct_freq. destruct (set_freq_spec (off /d since_epoch s) s) as (L1 & _ & _ & _ & _ & S1).
    set (s1 := set_freq _ s) in *. clearbody s1.
    assert (M1 : clock_minstep (lp s1) = clock_minstep (lp s)) by now rewrite L1. rewrite M1, El.
    apply Hd; [done | now rewrite L1 | done | done]. }
  destruct (Z.eqb_spec (disc_state (lp s)) EVNT_SPIK) as [E3 | E3].
  { destruct (mu <d clock_minstep (lp s)) eqn:El; [split; [rewrite E3; now apply spik_wait | now apply sent_none] |].
    apply Hd; [now apply sent_none | done | done | done]. }
  apply Hd; [now apply sent_none | done | done | intros [|]; done].
Qed.

(** The frequency measurement ends once the offset is below the floor. *)
Definition settle (b : bool) (s : state) : state := if b then s <|sv freq_cnt := 0 |> else s.

Lemma settle_frame b s :
  disc_state (lp (settle b s)) = disc_state (lp s) /\ sys_poll (sv (settle b s)) = sys_poll (sv s) /\
  heap (settle b s) = heap s /\ out (settle b s) = out s.
Proof. now destruct b. Qed.

Lemma do_slew_form off mu freq s :
  exists f, do_slew off mu freq s =
    inr (1, f, settle (dabs off <d CLOCK_FLOOR) (rstclock EVNT_SYNC off (s <|lp allow_panic := 0 |>))).
Proof. unfold do_slew. cbv zeta. eexists. reflexivity. Qed.

(** The adjustment ends in the SYNC state. *)
Lemma do_slew_spec off mu freq s :
  exists f s', do_slew off mu freq s = inr (1, f, s') /\ disc_state (lp s') = EVNT_SYNC /\
    sys_poll (sv s') = sys_poll (sv s) /\ heap s' = heap s /\ sent_steps s s' [].
Proof.
  destruct (do_slew_form off mu freq s) as [f E]. exists f. eexists. split; [exact E |]. clear E.
  set (s2 := s <|lp allow_panic := 0 |>).
  assert (F : sys_poll (sv s2) = sys_poll (sv s) /\ heap s2 = heap s /\ out s2 = out s) by done.
  clearbody s2. destruct F as (F1 & F2 & F3).
  destruct (rstclock_spec EVNT_SYNC off s2) as (D & _ & P & Q & (o & O & C)). rewrite F1 in P. rewrite F2 in Q. rewrite F3 in O.
  set (s3 := rstclock EVNT_SYNC off s2) in *. clearbody s3.
  destruct (settle_frame (dabs off <d CLOCK_FLOOR) s3) as (X1 & X2 & X3 & X4). rewrite X1, X2, X3.
  split_and!; [done | done | done | exists o; now rewrite X4].
Qed.

Lemma do_slew_obeys off mu freq s s1 late :
  sent_steps s s1 [] -> disc_state (lp s) ∈ disc_states -> disc_state (lp s) <> EVNT_NSET ->
  (disc_state (lp s) = EVNT_FREQ -> late = true) ->
  regime_obeys false late off s (do_slew off mu freq s1).
Proof.
  intros S Hst Hn Hl. destruct (do_slew_spec off mu freq s1) as (f & s2 & -> & D & _ & _ & S2).
  split; [| exact (sent_trans _ _ _ [] [] S S2)]. rewrite D.
  unfold disc_states in Hst. rewrite !elem_of_cons in Hst.
  destruct Hst as [E | [E | [E | [E | [E | E]]]]]; [done | | | | | set_solver]; rewrite E.
  - now apply fset_in.
  - now apply spik_in.
  - apply freq_in; [done | auto].
  - now apply sync_in.
Qed.

Lemma slew_regime_obeys off mu s :
  disc_state (lp s) ∈ disc_states ->
  regime_obeys false (negb (mu <d clock_minstep (lp s))) off s (slew_regime off mu s).
Proof.
  intros Hst. unfold slew_regime. set (s1 := update_jitter off s).
  assert (F1 : disc_state (lp s1) = disc_state (lp s) /\ clock_minstep (lp s1) = clock_minstep (lp s) /\ sent_steps s s1 [])
    by (split_and!; [done | done | now apply sent_none]).
  clearbody s1. destruct F1 as (D1 & M1 & S1). rewrite D1, M1.
  destruct (Z.eqb_spec (disc_state (lp s)) EVNT_NSET) as [E | E].
  { destruct (rstclock_spec EVNT_FREQ off (adj_systime off s1)) as (D & _ & _ & _ & S2). split.
    - rewrite D, E. now apply nset_in.
    - assert (S3 : sent_steps s1 (adj_systime off s1) []) by (eexists; split; [reflexivity | done]).
      exact (sent_trans _ _ _ [] [] S1 (sent_trans _ _ _ [] [] S3 S2)). }
  destruct (Z.eqb_spec (disc_state (lp s)) EVNT_FREQ) as [E2 | E2].
  - destruct (mu <d clock_minstep (lp s)) eqn:El; [split; [rewrite D1, E2; now apply freq_wait | done] |].
    unfold direct_freq. destruct (set_freq_spec (off /d since_epoch s1) s1) as (_ & _ & _ & _ & _ & S2).
    set (s2 := set_freq _ s1) in *. clearbody s2.
    apply do_slew_obeys; [exact (sent_trans _ _ _ [] [] S1 S2) | done | done | done].
  - apply do_slew_obeys; done.
Qed.

(** After the regime: neither the state nor the clock moves any more. *)
Lemma finish_frame p freq s osys :
  let s' := adjust_poll p (update_freq freq s) in
  let s'' := if osys =? sys_poll (sv s') then s' else poll_update p (sys_poll (sv s')) s' in
  disc_state (lp s'') = disc_state (lp s) /\ out s'' = out s.
Proof.
  cbv zeta. set (s1 := adjust_poll p (update_freq freq s)).
  assert (F : disc_state (lp s1) = disc_state (lp s) /\ out s1 = out s).
  { unfold s1, adjust_poll. set (s2 := update_freq freq s). assert (F2 : disc_state (lp s2) = disc_state (lp s) /\ out s2 = out s) by done.
    clearbody s2. repeat case_match; exact F2. }
  clearbody s1. destruct F as [<- <-]. destruct (_ =? _); [done |].
  unfold poll_update. set (s2 := upd_peer p _ s1). assert (F2 : lp s2 = lp s1 /\ out s2 = out s1) by done. clearbody s2.
  destruct F2 as [<- <-]. destruct (0 <? _); [repeat case_match; done |].
  destruct (has _ FLAG_REFCLOCK); [done |]. unfold ntp_random. now destruct (next_random _).
Qed.

(** The offset the discipline works on, and the interval since the last update. *)
Definition corrected (p : Z) (off : double) (s : state) : double * state :=
  let '(off, s) := huffpuff_offset p off s in (off, clamp_poll p s).

Lemma corrected_frame p off s :
  let s' := (corrected p off s).2 in
  disc_state (lp s') = disc_state (lp s) /\ out s' = out s /\ clock_minstep (lp s') = clock_minstep (lp s) /\
  clock_max (lp s') = clock_max (lp s) /\ clock_epoch (lp s') = clock_epoch (lp s) /\ current_time s' = current_time s.
Proof.
  cbv zeta. unfold corrected, huffpuff_offset.
  destruct (sys_huffpuff (lp s)) as [|h huff]; cbn [snd]; unfold clamp_poll; repeat case_match; done.
Qed.

(** C8: the clock discipline implements its state machine.  With the loop
    enabled, no panic and outside ntpdate mode, each call of [local_clock]
    makes the transition of the documented table for its state, for the
    offset (corrected by the huff-n'-puff filter) being above the step
    threshold or not and the stepout threshold having passed or not; the
    clock is stepped, once and by that offset, exactly when the return code
    is 2, so outside the initial states never before the stepout threshold
    has passed since the last update. *)
Theorem discipline_refines (p : Z) (off : double) (s : state) :
  ntp_enable (lp s) <> 0 -> panics s off = false -> mode_ntpdate (cf s) = 0 ->
  disc_state (lp s) ∈ disc_states ->
  let off' := (corrected p off s).1 in
  let r := local_clock p off s in
  obeys (steps s off') (negb (since_epoch s <d clock_minstep (lp s))) off' s r.1 r.2.
Proof.
  intros Hen Hp Hnd Hst. cbv zeta. unfold local_clock. rewrite (proj2 (Z.eqb_neq _ _) Hen), Hp, Hnd. cbn [nonzero Z.eqb negb].
  destruct (corrected_frame p off s) as (D & O & M & X & E & T).
  unfold corrected in *. destruct (huffpuff_offset p off s) as [off' s1]. cbn [fst snd] in *.
  set (s2 := clamp_poll p s1) in *. clearbody s2.
  assert (Eb : steps s2 off' = steps s off') by (unfold steps; now rewrite X).
  assert (Em : since_epoch s2 = since_epoch s) by (unfold since_epoch; now rewrite E, T).
  rewrite Eb, Em. set (mu := since_epoch s).
  assert (Hr : regime_obeys (steps s off') (negb (mu <d clock_minstep (lp s2))) off' s2
    (if steps s off' then step_regime off' mu s2 else slew_regime off' mu s2)).
  { destruct (steps s off'); [apply step_regime_obeys | apply slew_regime_obeys]; now rewrite D. }
  set (rg := if steps s off' then _ else _) in *. clearbody rg. rewrite M in Hr.
  assert (Ht : forall rc s', obeys (steps s off') (negb (mu <d clock_minstep (lp s))) off' s2 rc s' ->
    obeys (steps s off') (negb (mu <d clock_minstep (lp s))) off' s rc s').
  { intros rc s' [A (o & B & C)]. split; [now rewrite <- D | exists o; now rewrite <- O]. }
  destruct rg as [[rc s3] | [[rc freq] s3]]; cbn [regime_obeys fst snd] in *; [auto |]. apply Ht.
  destruct (finish_frame p freq s3 (sys_poll (sv s1))) as [F1 F2]. cbv zeta in F1, F2.
  destruct Hr as [A (o & B & C)]. split; [now rewrite F1 | exists o; now rewrite F2].
Qed.

(** ** Bounds *)

(** A frequency offset that is not beyond 500 PPM on either side. *)
Definition freq_ok (f : double) : Prop := (NTP_MAXFREQ <d f) = false /\ (f <d dneg NTP_MAXFREQ) = false.

Definition clamp_freq (f : double) : double :=
  if NTP_MAXFREQ <d f then NTP_MAXFREQ else if f <d dneg NTP_MAXFREQ then dneg NTP_MAXFREQ else f.

Lemma clamp_freq_ok f : freq_ok (clamp_freq f).
Proof.
  unfold clamp_freq. destruct (NTP_MAXFREQ <d f) eqn:E1; [split; reflexivity |].
  destruct (f <d dneg NTP_MAXFREQ) eqn:E2; [split; reflexivity | split; assumption].
Qed.

(** Procedures that leave the frequency, the poll interval and the limits of
    the peers alone. *)
Definition limits (s s' : state) : Prop :=
  drift_comp (lp s') = drift_comp (lp s) /\ sys_poll (sv s') = sys_poll (sv s) /\
  forall p, p_minpoll (peer_at s' p) = p_minpoll (peer_at s p) /\ p_maxpoll (peer_at s' p) = p_maxpoll (peer_at s p).

Lemma limits_trans s1 s2 s3 : limits s1 s2 -> limits s2 s3 -> limits s1 s3.
Proof.
  intros (A1 & A2 & A3) (B1 & B2 & B3). split_and!; [now rewrite B1 | now rewrite B2 |].
  intros p. destruct (A3 p) as [<- <-]. apply B3.
Qed.

Lemma limits_heap s s' :
  drift_comp (lp s') = drift_comp (lp s) -> sys_poll (sv s') = sys_poll (sv s) -> heap s' = heap s -> limits s s'.
Proof. intros A B C. split_and!; try done. all: intros; unfold peer_at; now rewrite C. Qed.

Lemma report_limits err s : limits s (report_event err None s).
Proof. destruct (report_frame err s) as [(A & B & _ & D & _) _]. apply limits_heap; [now rewrite A | now rewrite B | done]. Qed.

Lemma rstclock_limits t o s : limits s (rstclock t o s).
Proof. destruct (rstclock_spec t o s) as (_ & A & B & C & _). now apply limits_heap. Qed.

Lemma upd_limits p f s :
  (forall r, p_minpoll (f r) = p_minpoll r /\ p_maxpoll (f r) = p_maxpoll r) -> limits s (upd_peer p f s).
Proof. intros Hf. split_and!; [done | done |]. intros q. rewrite peer_at_upd. case_decide; subst; [apply Hf | done]. Qed.

Lemma poll_update_limits p m s : limits s (poll_update p m s).
Proof.
  unfold poll_update. apply (limits_trans _ (upd_peer p (fun r => r <| p_hpoll := Z.max (Z.min (p_maxpoll (peer_at s p)) m) (p_minpoll (peer_at s p)) |>) s)).
  { now apply upd_limits. }
  set (s1 := upd_peer p _ s). clearbody s1. clear s. rename s1 into s.
  destruct (0 <? _).
  - destruct (_ <? _); [now apply limits_heap |]. destruct (has _ _); now apply upd_limits.
  - destruct (has _ FLAG_REFCLOCK); [now apply upd_limits |].
    unfold ntp_random. destruct (next_random (rng s)) as [x g].
    apply (limits_trans _ (s <| rng := g |>)); [now apply limits_heap | now apply upd_limits].
Qed.

(** The system poll interval is within the limits of the peer. *)
Definition poll_ok (p : Z) (s : state) : Prop :=
  p_minpoll (peer_at s p) <= sys_poll (sv s) <= p_maxpoll (peer_at s p).

Lemma poll_ok_limits p s s' : limits s s' -> poll_ok p s -> poll_ok p s'.
Proof. intros (_ & B & C). unfold poll_ok. destruct (C p) as [-> ->]. now rewrite B. Qed.

Lemma clamp_poll_ok p s :
  p_minpoll (peer_at s p) <= p_maxpoll (peer_at s p) ->
  let s' := clamp_poll p s in poll_ok p s' /\ drift_comp (lp s') = drift_comp (lp s) /\ heap s' = heap s.
Proof.
  intros Hm. cbv zeta. unfold clamp_poll. set (s1 := if sys_poll (sv s) <? _ then _ else s).
  assert (F : p_minpoll (peer_at s p) <= sys_poll (sv s1) /\ heap s1 = heap s /\ drift_comp (lp s1) = drift_comp (lp s)).
  { unfold s1. destruct (Z.ltb_spec (sys_poll (sv s)) (p_minpoll (peer_at s p))); split_and!; cbn; done || lia. }
  clearbody s1. destruct F as (F1 & F2 & F3).
  assert (P : peer_at s1 p = peer_at s p) by (unfold peer_at; now rewrite F2). rewrite P.
  destruct (Z.ltb_spec (p_maxpoll (peer_at s p)) (sys_poll (sv s1))); (split_and!; [| done | done]);
    unfold poll_ok; (replace (peer_at _ p) with (peer_at s p) by (unfold peer_at; cbn; now rewrite F2)); cbn; lia.
Qed.

Lemma huffpuff_limits p off s : limits s (huffpuff_offset p off s).2.
Proof. unfold huffpuff_offset. destruct (sys_huffpuff (lp s)); cbn [snd]; repeat case_match; now apply limits_heap. Qed.

(** A step or a slew of the regimes: the poll interval stays, and the
    frequency too where the regime returns at once. *)
Definition regime_limits (s : state) (r : Z * state + Z * double * state) : Prop :=
  match r with
  | inl (_, s') => limits s s'
  | inr (_, _, s') => sys_poll (sv s') = sys_poll (sv s) /\ heap s' = heap s
  end.

Lemma do_step_limits off freq s : regime_limits s (do_step off freq s) /\
  (disc_state (lp s) <> EVNT_NSET -> exists f s', do_step off freq s = inr (2, f, s')).
Proof.
  unfold do_step. destruct (report_frame EVNT_CLOCKRESET s) as [(A & B & _ & D & _) _].
  set (s1 := report_event EVNT_CLOCKRESET None s) in *. clearbody s1.
  match goal with |- context [if disc_state (lp ?x) =? _ then _ else _] => set (s2 := x) end.
  assert (F : limits s s2 /\ disc_state (lp s2) = disc_state (lp s) /\ heap s2 = heap s).
  { rewrite <- A. split_and!; [apply limits_heap; [now rewrite <- A | now rewrite <- B | exact D] | done | exact D]. }
  clearbody s2. destruct F as (F1 & F2 & F3). rewrite F2.
  destruct (Z.eqb_spec (disc_state (lp s)) EVNT_NSET).
  - split; [exact (limits_trans _ _ _ F1 (rstclock_limits _ _ _)) | done].
  - destruct (rstclock_spec EVNT_SYNC dzero s2) as (_ & _ & P & Q & _). split; [| eauto].
    cbn [regime_limits]. rewrite P, Q. split; [apply F1 | done].
Qed.

(** Above the step threshold a frequency measured directly is always
    followed by the step, so only the last clamping sees it. *)
Lemma step_regime_limits off mu s : regime_limits s (step_regime off mu s).
Proof.
  unfold step_regime.
  destruct (Z.eqb_spec (disc_state (lp s)) EVNT_SYNC) as [E | E].
  { refine (limits_trans _ _ _ (report_limits EVNT_SPIK s) _). now apply limits_heap. }
  destruct (Z.eqb_spec (disc_state (lp s)) EVNT_FREQ) as [E2 | E2].
  { destruct (mu <d clock_minstep (lp s)) eqn:El; [now apply limits_heap |].
    unfold direct_freq. destruct (set_freq_spec (off /d since_epoch s) s) as (L & V & _ & Hh & _).
    set (s1 := set_freq _ s) in *. clearbody s1.
    replace (clock_minstep (lp s1)) with (clock_minstep (lp s)) by now rewrite L. rewrite El.
    destruct (do_step_limits off (drift_comp (lp s1)) s1) as [R N].
    destruct N as (f & s2 & Es); [rewrite L; cbn; now rewrite E2 |]. rewrite Es in R |- *.
    cbn [regime_limits] in *. now rewrite V, Hh in R. }
  assert (Hd : regime_limits s (do_step off (drift_comp (lp s)) s)) by apply do_step_limits.
  destruct (_ =? EVNT_SPIK); [| exact Hd]. destruct (_ <d _); [now apply limits_heap | exact Hd].
Qed.

Lemma slew_regime_limits off mu s : regime_limits s (slew_regime off mu s).
Proof.
  unfold slew_regime. set (s1 := update_jitter off s).
  assert (F : limits s s1 /\ sys_poll (sv s1) = sys_poll (sv s) /\ heap s1 = heap s)
    by (split_and!; [now apply limits_heap | done | done]).
  clearbody s1. destruct F as (F & F1 & F2).
  destruct (_ =? EVNT_NSET).
  { destruct (rstclock_spec EVNT_FREQ off (adj_systime off s1)) as (_ & _ & P & Q & _). cbn [regime_limits].
    rewrite P, Q, <- F1, <- F2. done. }
  assert (Hs : forall freq s2, sys_poll (sv s2) = sys_poll (sv s) -> heap s2 = heap s -> regime_limits s (do_slew off mu freq s2)).
  { intros freq s2 P Q. destruct (do_slew_spec off mu freq s2) as (f & s3 & -> & _ & P2 & Q2 & _).
    cbn [regime_limits]. now rewrite P2, Q2. }
  destruct (_ =? EVNT_FREQ); [| now apply Hs].
  destruct (_ <d _); [exact F |]. unfold direct_freq.
  destruct (set_freq_spec (off /d since_epoch s1) s1) as (_ & V & _ & Hh & _).
  apply Hs; [now rewrite V | now rewrite Hh].
Qed.

Lemma update_freq_spec freq s :
  let s' := update_freq freq s in
  drift_comp (lp s') = clamp_freq freq /\ sys_poll (sv s') = sys_poll (sv s) /\ heap s' = heap s.
Proof. cbv zeta. unfold update_freq. cbv zeta. split_and!; reflexivity. Qed.

(** The time constant moves by one at most, inside the limits. *)
Lemma adjust_poll_ok p s :
  0 <= p_minpoll (peer_at s p) -> p_maxpoll (peer_at s p) < 256 -> poll_ok p s ->
  let s' := adjust_poll p s in
  poll_ok p s' /\ Z.abs (sys_poll (sv s') - sys_poll (sv s)) <= 1 /\ drift_comp (lp s') = drift_comp (lp s).
Proof.
  unfold poll_ok. intros Hmin Hmax Hp. cbv zeta. unfold adjust_poll.
  destruct (0 <? freq_cnt (sv s)); [cbn; split_and!; try done; unfold peer_at in *; cbn; lia |].
  destruct (_ <d _).
  - set (s1 := s <|lp tc_counter := _ |>).
    assert (F : sv s1 = sv s /\ heap s1 = heap s /\ drift_comp (lp s1) = drift_comp (lp s)) by done.
    clearbody s1. destruct F as (F1 & F2 & F3). unfold peer_at in *.
    destruct (_ <? tc_counter _); cbn; rewrite ?F1, ?F2; [| split_and!; try done; lia].
    destruct (Z.ltb_spec (sys_poll (sv s)) (p_maxpoll (default zero_peer (heap s !! p)))); cbn; rewrite ?F1, ?F2, ?F3;
      [rewrite u8_small by (unfold is_u8; lia) |]; split_and!; try done; lia.
  - set (s1 := s <|lp tc_counter := _ |>).
    assert (F : sv s1 = sv s /\ heap s1 = heap s /\ drift_comp (lp s1) = drift_comp (lp s)) by done.
    clearbody s1. destruct F as (F1 & F2 & F3). unfold peer_at in *.
    destruct (tc_counter _ <? _); cbn; rewrite ?F1, ?F2; [| split_and!; try done; lia].
    destruct (Z.ltb_spec (p_minpoll (default zero_peer (heap s !! p))) (sys_poll (sv s))); cbn; rewrite ?F1, ?F2, ?F3;
      [rewrite u8_small by (unfold is_u8; lia) |]; split_and!; try done; lia.
Qed.

(** ** The calls, in terms of their parts *)

(** The body of [local_clock] with the loop enabled. *)
Lemma local_clock_form p off s :
  ntp_enable (lp s) <> 0 -> panics s off = false -> mode_ntpdate (cf s) = 0 ->
  exists s1 r,
    s1 = (corrected p off s).2 /\ regime_limits s1 r /\
    match r with
    | inl (rc, s2) => local_clock p off s = (rc, s2)
    | inr (rc, freq, s2) => exists s3, local_clock p off s = (rc, s3) /\ limits (adjust_poll p (update_freq freq s2)) s3
    end.
Proof.
  intros Hen Hp Hnd. unfold local_clock. rewrite (proj2 (Z.eqb_neq _ _) Hen), Hp, Hnd. cbn [nonzero Z.eqb negb].
  unfold corrected. destruct (huffpuff_offset p off s) as [off' s0]. cbn [fst snd].
  set (s1 := clamp_poll p s0). clearbody s1. exists s1. set (mu := since_epoch s1). clearbody mu.
  assert (Hr : regime_limits s1 (if steps s1 off' then step_regime off' mu s1 else slew_regime off' mu s1))
    by (destruct (steps s1 off'); [apply step_regime_limits | apply slew_regime_limits]).
  set (rg := if steps s1 off' then _ else _) in *. clearbody rg. exists rg. split_and!; [done | done |].
  destruct rg as [[rc s2] | [[rc freq] s2]]; [done |].
  eexists. split; [reflexivity |]. destruct (_ =? _); [now apply limits_heap | apply poll_update_limits].
Qed.

Lemma corrected_limits p off s :
  drift_comp (lp (corrected p off s).2) = drift_comp (lp s) /\ heap (corrected p off s).2 = heap s.
Proof.
  unfold corrected, huffpuff_offset. destruct (sys_huffpuff (lp s)); cbn [snd]; unfold clamp_poll; repeat case_match; done.
Qed.

Lemma corrected_poll p off s :
  p_minpoll (peer_at s p) <= p_maxpoll (peer_at s p) ->
  let s' := (corrected p off s).2 in
  poll_ok p s' /\ heap s' = heap s /\ (poll_ok p s -> sys_poll (sv s') = sys_poll (sv s)).
Proof.
  intros Hm. cbv zeta. destruct (corrected_limits p off s) as [_ Hh]. pose proof (huffpuff_limits p off s) as (_ & L2 & L3).
  revert Hh. unfold corrected. destruct (huffpuff_offset p off s) as [off' s1]. cbn [snd] in *. intros Hh.
  destruct (L3 p) as [Lm Lx]. destruct (clamp_poll_ok p s1) as (A & _ & _); [lia |]. split_and!; [exact A | exact Hh |].
  unfold poll_ok. intros Ho. rewrite <- L2. unfold clamp_poll. cbv zeta.
  assert (E : (sys_poll (sv s1) <? p_minpoll (peer_at s1 p)) = false) by (apply Z.ltb_ge; lia). rewrite E.
  assert (E2 : (p_maxpoll (peer_at s1 p) <? sys_poll (sv s1)) = false) by (apply Z.ltb_ge; lia). now rewrite E2.
Qed.

Lemma adjust_poll_freq p s : drift_comp (lp (adjust_poll p s)) = drift_comp (lp s).
Proof.
  unfold adjust_poll. destruct (0 <? _); [done |]. destruct (_ <d _);
  (set (s1 := s <|lp tc_counter := _ |>); assert (F : drift_comp (lp s1) = drift_comp (lp s)) by done; clearbody s1; rewrite <- F;
   repeat case_match; done).
Qed.

Lemma local_clock_freq p off s :
  drift_comp (lp (local_clock p off s).2) = drift_comp (lp s) \/
  exists f, drift_comp (lp (local_clock p off s).2) = clamp_freq f.
Proof.
  destruct (decide (ntp_enable (lp s) = 0)) as [En | En]; [left; unfold local_clock; now rewrite En |].
  destruct (panics s off) eqn:Hp.
  { left. unfold local_clock. rewrite (proj2 (Z.eqb_neq _ _) En), Hp. apply report_limits. }
  destruct (decide (mode_ntpdate (cf s) = 0)) as [Em | Em].
  - destruct (local_clock_form p off s En Hp Em) as (s1 & r & -> & R & E).
    destruct (corrected_limits p off s) as [C _]. rewrite <- C. set (s1 := (corrected p off s).2) in *. clearbody s1.
    destruct r as [[rc s2] | [[rc freq] s2]]; [left; rewrite E; apply R |].
    destruct E as (s3 & -> & L & _). right. exists freq. cbn [snd]. rewrite L, adjust_poll_freq. apply update_freq_spec.
  - left. unfold local_clock. rewrite (proj2 (Z.eqb_neq _ _) En), Hp. unfold nonzero. rewrite (proj2 (Z.eqb_neq _ _) Em).
    cbn [negb snd]. now destruct (steps s off).
Qed.

Lemma adj_host_clock_freq s : drift_comp (lp (adj_host_clock s)) = drift_comp (lp s).
Proof.
  unfold adj_host_clock. set (s1 := s <|sv sys_rootdisp := _ |>).
  assert (F : lp s1 = lp s) by done. clearbody s1. rewrite <- F.
  destruct (_ || _); [done |]. destruct (negb _); [done |]. destruct (0 <? _); done.
Qed.

Lemma loop_config_freq item v s :
  drift_comp (lp (loop_config item v s)) = drift_comp (lp s) \/
  exists f, drift_comp (lp (loop_config item v s)) = clamp_freq f.
Proof.
  unfold loop_config. destruct (item =? LOOP_DRIFTINIT).
  { right. set (f := init_drift_comp (lp s) /d _). exists f. fold (clamp_freq f).
    destruct (set_freq_spec (clamp_freq f) s) as (L & _). set (s1 := set_freq _ s) in *. clearbody s1.
    assert (D : drift_comp (lp s1) = clamp_freq f) by now rewrite L.
    destruct (nonzero _); cbn [lp setter]; [destruct (rstclock_spec EVNT_FSET dzero s1) as (_ & E & _) |
      destruct (rstclock_spec EVNT_NSET dzero s1) as (_ & E & _)]; rewrite <- D, <- E; done. }
  left. repeat match goal with |- context [if item =? ?x then _ else _] => destruct (item =? x); [try done |] end; try done.
  unfold select_loop. repeat case_match; done.
Qed.


(** The discipline keeps the system poll interval within the limits of
    the peer it follows, and once there moves it by at most one power of
    two a call. *)
Theorem poll_bounded (p : Z) (off : double) (s : state) :
  ntp_enable (lp s) <> 0 -> panics s off = false -> mode_ntpdate (cf s) = 0 ->
  0 <= p_minpoll (peer_at s p) <= p_maxpoll (peer_at s p) -> p_maxpoll (peer_at s p) < 256 ->
  let s' := (local_clock p off s).2 in
  poll_ok p s' /\ (poll_ok p s -> Z.abs (sys_poll (sv s') - sys_poll (sv s)) <= 1).
Proof.
  intros Hen Hp Hnd Hm Hx. cbv zeta. destruct (local_clock_form p off s Hen Hp Hnd) as (s1 & r & E1 & R & E).
  destruct (corrected_poll p off s (proj2 Hm)) as (P1 & Q1 & K1). rewrite <- E1 in P1, Q1, K1. clear E1.
  destruct r as [[rc s2] | [[rc freq] s2]].
  { rewrite E. cbn [snd]. split; [now apply (poll_ok_limits p s1) |]. intros Ho. destruct R as (_ & -> & _). rewrite K1 by done. lia. }
  destruct E as (s3 & -> & L). destruct R as [R1 R2]. cbn [snd].
  destruct (update_freq_spec freq s2) as (_ & U1 & U2). set (s4 := update_freq freq s2) in *. clearbody s4.
  rewrite R1 in U1. rewrite R2, Q1 in U2.
  assert (Ep : peer_at s4 p = peer_at s p) by (unfold peer_at; now rewrite U2).
  destruct (adjust_poll_ok p s4) as (A & B & _); [rewrite Ep; lia | now rewrite Ep | |].
  { revert P1. unfold poll_ok, peer_at. now rewrite U1, U2, Q1. }
  split; [exact (poll_ok_limits p _ _ L A) |]. intros Ho. destruct L as (_ & -> & _). now rewrite <- (K1 Ho), <- U1.
Qed.
End Discipline.

(** ** On the sample state, with the discipline synchronized *)

Definition sync_state : state :=
  sample_state <|lp disc_state := EVNT_SYNC |> <|lp clock_epoch := 50 |>.

Lemma discipline_refines_witness :
  obeys true false (dofZ 1) sync_state 0 (@local_clock sample_env 1 (dofZ 1) sync_state).2.
Proof.
  pose proof (@discipline_refines sample_env 1 (dofZ 1) sync_state ltac:(done) ltac:(vm_compute; reflexivity)
    ltac:(done) ltac:(do 4 right; left)) as W. cbv zeta in W.
  replace (corrected 1 (dofZ 1) sync_state).1 with (dofZ 1) in W by (vm_compute; reflexivity).
  replace (steps sync_state (dofZ 1)) with true in W by (vm_compute; reflexivity).
  replace (negb _) with false in W by (vm_compute; reflexivity).
  replace (@local_clock sample_env 1 (dofZ 1) sync_state).1 with 0 in W by (vm_compute; reflexivity).
  exact W.
Defined.


Lemma poll_bounded_witness : poll_ok 1 (@local_clock sample_env 1 (dlit 1 1) sync_state).2.
Proof.
  refine (proj1 (@poll_bounded sample_env 1 (dlit 1 1) sync_state _ _ _ _ _));
    [done | vm_compute; reflexivity | done | vm_compute; intuition discriminate | vm_compute; reflexivity].
Defined.
