(* ===== verification/PeerFacts.v ===== *)
(** * The peer table: invariant and operations of Peer.v

    The tables stay consistent through mobilization, demobilization and
    rebinding: the list of peers, the two hash tables with their counts,
    the free list and the per-endpoint lists describe one set of
    associations. *)

From S2P Require Import Prelude FixedPoint Calendar Double Lists NtpTypes AuthKeys AuthFacts Monitor Restrict RestrictFacts State ProtoBase Refclock Sample Peer.
From stdpp Require Import base gmap list.
#[local] Open Scope Z_scope.

(** ** What the tables depend on *)

(** The fields that place a peer in the tables, and the addresses of a pool. *)
Definition ident (r : peer) : sockaddr * Z * option Z * Z * list sockaddr :=
  (p_srcadr r, p_associd r, p_dstadr r, p_hmode r, p_ai r).

(** The clock discipline: its variables, and what was done to the clock. *)
Definition clock_output (o : output) : bool :=
  match o with StepTime _ | AdjTime _ | Tick _ | Exit _ => true | _ => false end.
Definition discipline (s : state) : loop_vars * list output := (lp s, List.filter clock_output (out s)).

(** A step that leaves the tables, and the placement of every peer, alone. *)
Record keeps (s s' : state) : Prop := {
  k_list : peer_list s' = peer_list s; k_hash : peer_hash s' = peer_hash s;
  k_hcount : peer_hash_count s' = peer_hash_count s; k_assoc : assoc_hash s' = assoc_hash s;
  k_acount : assoc_hash_count s' = assoc_hash_count s; k_free : peer_free s' = peer_free s;
  k_fcount : peer_free_count s' = peer_free_count s; k_next : next_ptr s' = next_ptr s;
  k_restr : restr s' = restr s; k_auth : auth_fit (auth s) -> auth_fit (auth s');
  k_eps : forall e, ep_peers (endpt_at s' e) = ep_peers (endpt_at s e) /\
                    ep_peercnt (endpt_at s' e) = ep_peercnt (endpt_at s e);
  k_ident : forall q, ident (peer_at s' q) = ident (peer_at s q) }.

Lemma keeps_refl s : keeps s s.
Proof. now split. Qed.

Lemma keeps_trans s1 s2 s3 : keeps s1 s2 -> keeps s2 s3 -> keeps s1 s3.
Proof.
  intros A B. split; intros.
  all: try solve [etransitivity; [apply B | apply A]].
  - apply B, A. assumption.
  - destruct (k_eps _ _ A e) as [<- <-]. apply B.
Qed.

#[global] Instance keeps_preorder : PreOrder keeps.
Proof. split; [exact keeps_refl | exact keeps_trans]. Qed.

Lemma keeps_upd s s1 p f :
  (forall r, ident (f r) = ident r) -> keeps s s1 -> keeps s (upd_peer p f s1).
Proof.
  intros Hf K. etransitivity; [exact K |]. split; try done.
  intros q. rewrite peer_at_upd. case_decide; subst; auto.
Qed.

(** Fields outside the tables. *)
Lemma keeps_sv s s1 v : keeps s s1 -> keeps s (s1 <| sv := v |>).
Proof. intros K. etransitivity; [exact K |]. now split. Qed.
Lemma keeps_ct s s1 v : keeps s s1 -> keeps s (s1 <| ct := v |>).
Proof. intros K. etransitivity; [exact K |]. now split. Qed.
Lemma keeps_emit s s1 o : keeps s s1 -> keeps s (emit o s1).
Proof. intros K. etransitivity; [exact K |]. now split. Qed.

Section Frame.
Context `{Env}.

Lemma keeps_random s s1 : keeps s s1 -> keeps s (ntp_random s1).2.
Proof. intros K. etransitivity; [exact K |]. unfold ntp_random. now destruct (next_random _). Qed.

Lemma keeps_report err q s s1 : keeps s s1 -> keeps s (report_event err q s1).
Proof.
  intros K. unfold report_event. destruct q as [p|].
  - set (s2 := if _ =? _ then _ else s1).
    assert (K2 : keeps s s2) by (unfold s2; case_match; [now apply keeps_upd | done]). clearbody s2.
    case_match; [done |]. apply keeps_emit, keeps_upd; done.
  - etransitivity; [exact K |]. repeat case_match; now split.
Qed.

Lemma keeps_unfit p s s1 : keeps s s1 -> keeps s (peer_unfit p s1).2.
Proof. intros. now apply keeps_upd. Qed.

(** Walks back through a procedure that only updates peer variables. *)
Ltac keep :=
  repeat match goal with
  | |- keeps ?s ?s => apply keeps_refl
  | |- keeps _ (upd_peer _ _ _) => apply keeps_upd; [done |]
  | |- keeps _ (if ?b then _ else _) => destruct b
  | |- keeps _ (let '(_, _) := ntp_random ?s1 in _) =>
      let K := fresh in
      pose proof (keeps_random s1 s1 (keeps_refl s1)) as K; destruct (ntp_random s1) as [? ?];
      cbn [snd] in K
  end.

Lemma keeps_clear p id s s1 : keeps s s1 -> keeps s (peer_clear p id s1).
Proof.
  intros K. unfold peer_clear.
  set (s2 := upd_peer p (fun r => r <| p_ppoll := _ |> <| p_hpoll := _ |> <|| p_disp := _ ||>) _).
  assert (K2 : keeps s s2) by (unfold s2; now do 2 (apply keeps_upd; [done |])). clearbody s2.
  pose proof (keeps_unfit p s s2 K2) as K3. destruct (peer_unfit p s2) as [u s3]. cbn [snd] in K3.
  set (s4 := upd_peer p (fun r => r <| p_nextdate := _ |> <| p_update := _ |> <| p_outdate := _ |>) _).
  assert (K4 : keeps s s4) by (unfold s4; clear -K3; keep; exact K3). clearbody s4.
  keep; try exact K4. etransitivity; [exact K4 | assumption].
Qed.
End Frame.

(** ** Peers on their endpoints *)

(** [eps] lists, for every endpoint, the peers of [live] bound to it. *)
Definition bound (live : list Z) (dst : Z -> option Z) (eps : Z -> endpt) : Prop :=
  forall e, NoDup (ep_peers (eps e)) /\
    ep_peercnt (eps e) = u32 (Z.of_nat (length (ep_peers (eps e)))) /\
    forall p, p ∈ ep_peers (eps e) <-> p ∈ live /\ dst p = Some e.

Lemma bound_ext live live' dst dst' eps eps' :
  (forall p, p ∈ live /\ dst p <> None <-> p ∈ live' /\ dst' p <> None) ->
  (forall p, p ∈ live -> dst' p = dst p) ->
  (forall e, ep_peers (eps' e) = ep_peers (eps e) /\ ep_peercnt (eps' e) = ep_peercnt (eps e)) ->
  bound live dst eps -> bound live' dst' eps'.
Proof.
  intros Hl Hd He B e. destruct (He e) as [-> ->], (B e) as (B1 & B2 & B3). split; [done |].
  split; [done |]. intros p. rewrite B3. specialize (Hl p). specialize (Hd p).
  split; intros [H1 H2]; [| destruct Hl as [_ Hl]; destruct Hl as [H3 _]; [split; congruence |]].
  - rewrite Hd by done. split; [| done]. apply Hl. split; congruence.
  - rewrite <- Hd by done. auto.
Qed.

Lemma u32_pred n : u32 (u32 (Z.of_nat (S n)) - 1) = u32 (Z.of_nat n).
Proof. apply u32_cong. unfold_widths. divlia. Qed.
Lemma u32_succ n : u32 (u32 (Z.of_nat n) + 1) = u32 (Z.of_nat (S n)).
Proof. apply u32_cong. unfold_widths. divlia. Qed.

Lemma bound_unbind live dst eps p e :
  bound live dst eps -> p ∈ live -> dst p = Some e ->
  bound live (fun q => if decide (p = q) then None else dst q)
    (fun x => if decide (e = x)
              then (eps e) <| ep_peercnt := u32 (ep_peercnt (eps e) - 1) |>
                           <| ep_peers := UNLINK p (ep_peers (eps e)) |>
              else eps x).
Proof.
  intros B Hp Hd x. destruct (B x) as (B1 & B2 & B3). case_decide as E; subst; cbn.
  - split; [now apply UNLINK_NoDup |]. split.
    + assert (Hin : p ∈ ep_peers (eps x)) by now apply B3. apply UNLINK_length in Hin.
      rewrite B2, <- Hin. apply u32_pred.
    + intros q. rewrite UNLINK_elem, B3 by done. case_decide; subst; naive_solver.
  - split; [done |]. split; [done |]. intros q. rewrite B3. case_decide; subst; naive_solver.
Qed.

Lemma bound_bind live dst eps p e :
  bound live dst eps -> p ∈ live -> dst p = None ->
  bound live (fun q => if decide (p = q) then Some e else dst q)
    (fun x => if decide (e = x)
              then (eps e) <| ep_peers := p :: ep_peers (eps e) |>
                           <| ep_peercnt := u32 (ep_peercnt (eps e) + 1) |>
              else eps x).
Proof.
  intros B Hp Hd x. destruct (B x) as (B1 & B2 & B3). case_decide as E; subst; cbn.
  - split; [| split].
    + apply NoDup_cons. split; [rewrite B3; naive_solver | done].
    + rewrite B2. apply u32_succ.
    + intros q. rewrite elem_of_cons, B3. case_decide; subst; naive_solver.
  - split; [done |]. split; [done |]. intros q. rewrite B3. case_decide; subst; naive_solver.
Qed.

(** ** The invariant *)

(** A bucket's count is its length. *)
Definition counted (t : htable) (n : gmap Z Z) : Prop :=
  forall h, count_at n h = s32 (Z.of_nat (length (bucket t h))).

(** The addresses [restrict_source] accepts. *)
Definition src_ok (a : sockaddr) : Prop := SOCK_UNSPEC a = true \/ (inet a = true /\ 0 <= sa_addr a).

(** The addresses a resolver returns for a pool. *)
Definition pool_ok (a : sockaddr) : Prop := inet a = true /\ 0 <= sa_addr a.

(** The tables describe one set of associations; [own] are the structures a
    procedure in progress holds, off every list but the endpoints'. *)
Record table_inv (own : list Z) (s : state) : Prop := {
  ti_nodup : NoDup (own ++ peer_list s ++ peer_free s);
  ti_bound : forall p, p ∈ own ++ peer_list s ++ peer_free s -> p < next_ptr s;
  ti_addr : indexed (fun p => NTP_HASH_ADDR (p_srcadr (peer_at s p))) (peer_list s) (peer_hash s);
  ti_assoc : indexed (fun p => p_associd (peer_at s p) .& NTP_HASH_MASK) (peer_list s) (assoc_hash s);
  ti_hcount : counted (peer_hash s) (peer_hash_count s);
  ti_acount : counted (assoc_hash s) (assoc_hash_count s);
  ti_free : peer_free_count s = s32 (Z.of_nat (length (peer_free s)));
  ti_unbound : forall p, p ∈ peer_free s -> p_dstadr (peer_at s p) = None;
  ti_live : forall p, p ∈ peer_list s -> 0 <= p_hmode (peer_at s p) <= 6 /\ src_ok (p_srcadr (peer_at s p));
  ti_eps : bound (own ++ peer_list s) (fun p => p_dstadr (peer_at s p)) (endpt_at s);
  ti_auth : auth_fit (auth s);
  ti_pools : forall p, Forall pool_ok (p_ai (peer_at s p)) }.

Abbreviation peer_inv := (table_inv []).

(** Closes a field of the invariant the step did not touch. *)
Ltac from_inv I :=
  first [ exact (ti_nodup _ _ I) | exact (ti_bound _ _ I) | exact (ti_addr _ _ I) | exact (ti_assoc _ _ I)
        | exact (ti_hcount _ _ I) | exact (ti_acount _ _ I) | exact (ti_free _ _ I) | exact (ti_unbound _ _ I)
        | exact (ti_live _ _ I) | exact (ti_eps _ _ I) | exact (ti_auth _ _ I)
        | exact (ti_pools _ _ I) ].

Lemma ident_fields r r' : ident r = ident r' ->
  p_srcadr r = p_srcadr r' /\ p_associd r = p_associd r' /\ p_dstadr r = p_dstadr r' /\ p_hmode r = p_hmode r' /\
  p_ai r = p_ai r'.
Proof. unfold ident. intros [= -> -> -> -> ->]. done. Qed.

Lemma keeps_inv own s s' : keeps s s' -> table_inv own s -> table_inv own s'.
Proof.
  intros K I. assert (KI : forall q, _) by (intros q; exact (ident_fields _ _ (k_ident _ _ K q))).
  split; rewrite ?(k_list _ _ K), ?(k_hash _ _ K), ?(k_hcount _ _ K), ?(k_assoc _ _ K), ?(k_acount _ _ K),
    ?(k_free _ _ K), ?(k_fcount _ _ K), ?(k_next _ _ K); try from_inv I.
  - eapply indexed_proper; [| | apply I]; [done |]. intros p _. cbn. now destruct (KI p) as (-> & _).
  - eapply indexed_proper; [| | apply I]; [done |]. intros p _. cbn. now destruct (KI p) as (_ & -> & _).
  - intros p Hp. destruct (KI p) as (_ & _ & -> & _). now apply I.
  - intros p Hp. destruct (KI p) as (-> & _ & _ & -> & _). now apply I.
  - eapply bound_ext; [| | apply K | apply I]; intros p; destruct (KI p) as (_ & _ & -> & _); done.
  - apply K, I.
  - intros p. destruct (KI p) as (_ & _ & _ & _ & ->). apply (ti_pools _ _ I).
Qed.

Lemma own_not_free own s p : table_inv own s -> p ∈ own ++ peer_list s -> p ∉ peer_free s.
Proof.
  intros I Hp Hf. pose proof (ti_nodup _ _ I) as Hn. rewrite app_assoc in Hn.
  apply NoDup_app in Hn as (_ & Hn & _). exact (Hn p Hp Hf).
Qed.

(** ** Rebinding *)

(** The part of the state [set_peerdstadr] does not touch. *)
Record same_tables (s s' : state) : Prop := {
  st_list : peer_list s' = peer_list s; st_hash : peer_hash s' = peer_hash s;
  st_hcount : peer_hash_count s' = peer_hash_count s; st_assoc : assoc_hash s' = assoc_hash s;
  st_acount : assoc_hash_count s' = assoc_hash_count s; st_free : peer_free s' = peer_free s;
  st_fcount : peer_free_count s' = peer_free_count s; st_next : next_ptr s' = next_ptr s;
  st_restr : restr s' = restr s; st_cf : cf s' = cf s; st_sv : sv s' = sv s; st_ct : ct s' = ct s;
  st_auth : auth s' = auth s; st_disc : discipline s' = discipline s;
  st_time : current_time s' = current_time s }.

(** A peer that runs the unicast part of a volley stays off multicast-only endpoints. *)
Definition volley_blocked (s : state) (p : Z) (d : option Z) : bool :=
  match d with
  | Some e => has FLAG_BC_VOL (p_flags (peer_at s p)) && has INT_MCASTIF (ep_flags (endpt_at s e))
              && (MODE_CLIENT =? p_hmode (peer_at s p))
  | None => false
  end.

Definition linked_eps (s : state) (p : Z) (d : option Z) : Z -> endpt :=
  let eps1 x := match p_dstadr (peer_at s p) with
                | Some e => if decide (e = x)
                            then (endpt_at s e) <| ep_peercnt := u32 (ep_peercnt (endpt_at s e) - 1) |>
                                                <| ep_peers := UNLINK p (ep_peers (endpt_at s e)) |>
                            else endpt_at s x
                | None => endpt_at s x
                end in
  fun x => match d with
           | Some e => if decide (e = x)
                       then (eps1 e) <| ep_peers := p :: ep_peers (eps1 e) |>
                                     <| ep_peercnt := u32 (ep_peercnt (eps1 e) + 1) |>
                       else eps1 x
           | None => eps1 x
           end.

Lemma set_peerdstadr_spec p d s :
  same_tables s (set_peerdstadr p d s) /\
  (if bool_decide (p_dstadr (peer_at s p) = d) || volley_blocked s p d
   then set_peerdstadr p d s = s
   else (forall q, peer_at (set_peerdstadr p d s) q =
           if decide (p = q) then (peer_at s p) <| p_dstadr := d |> else peer_at s q) /\
        (forall x, endpt_at (set_peerdstadr p d s) x = linked_eps s p d x)).
Proof.
  unfold set_peerdstadr. fold (volley_blocked s p d).
  destruct (bool_decide _); cbn [orb]; [split; [now split | done] |].
  destruct (volley_blocked s p d); [split; [now split | done] |].
  unfold linked_eps. split; [| split].
  - destruct (p_dstadr (peer_at s p)), d; now split.
  - intros q. destruct (p_dstadr (peer_at s p)) as [e0|], d as [e|];
      unfold upd_endpt, upd_peer, put_peer, peer_at; cbn [heap]; cbn;
      case_decide; subst; rewrite ?lookup_insert_eq, ?lookup_insert_ne by done; done.
  - intros x. destruct (p_dstadr (peer_at s p)) as [e0|], d as [e|];
      repeat first [rewrite endpt_at_upd
                   | progress change (endpt_at (upd_peer ?a ?b ?c)) with (endpt_at c)]; done.
Qed.

Lemma set_peerdstadr_inv own p d s :
  p ∈ own ++ peer_list s -> table_inv own s -> table_inv own (set_peerdstadr p d s).
Proof.
  intros Hp I. destruct (set_peerdstadr_spec p d s) as [T HS].
  destruct (_ || _) eqn:Eb; [now rewrite HS |]. destruct HS as [HP HE].
  apply orb_false_iff in Eb as [Eb _]. apply bool_decide_eq_false in Eb.
  set (s' := set_peerdstadr p d s) in *. pose proof (own_not_free _ _ _ I Hp) as Hnf.
  assert (Hq : forall q, p_srcadr (peer_at s' q) = p_srcadr (peer_at s q) /\
    p_associd (peer_at s' q) = p_associd (peer_at s q) /\ p_hmode (peer_at s' q) = p_hmode (peer_at s q)).
  { intros q. rewrite HP. case_decide; subst; done. }
  split; rewrite ?(st_list _ _ T), ?(st_hash _ _ T), ?(st_hcount _ _ T), ?(st_assoc _ _ T),
    ?(st_acount _ _ T), ?(st_free _ _ T), ?(st_fcount _ _ T), ?(st_next _ _ T), ?(st_auth _ _ T); try from_inv I.
  - eapply indexed_proper; [| | apply I]; [done |]. intros q _. cbn. now destruct (Hq q) as (-> & _).
  - eapply indexed_proper; [| | apply I]; [done |]. intros q _. cbn. now destruct (Hq q) as (_ & -> & _).
  - intros q Hf. rewrite HP, decide_False by (intros ->; done). now apply I.
  - intros q Hl. destruct (Hq q) as (-> & _ & ->). now apply I.
  - pose proof (ti_eps _ _ I) as B.
    assert (B1 : bound (own ++ peer_list s) (fun q => if decide (p = q) then None else p_dstadr (peer_at s q))
                   (linked_eps s p None)).
    { unfold linked_eps. destruct (p_dstadr (peer_at s p)) as [e0|] eqn:E0.
      - exact (bound_unbind _ _ _ p e0 B Hp E0).
      - revert B. apply bound_ext; [| | done]; intros q; case_decide; subst; try done; rewrite E0; done. }
    eapply bound_ext with (eps := linked_eps s p d) (dst := fun q => if decide (p = q) then d else p_dstadr (peer_at s q));
      [| | intros x; now rewrite HE |].
    + intros q. rewrite HP. case_decide; subst; done.
    + intros q _. cbn. rewrite HP. case_decide; subst; done.
    + destruct d as [e|]; [| exact B1].
      assert (E0 : (if decide (p = p) then None else p_dstadr (peer_at s p)) = None) by now rewrite decide_True.
      pose proof (bound_bind _ _ _ p e B1 Hp E0) as B2. revert B2. apply bound_ext; [| | done]; intros q; repeat case_decide; done.
  - intros q. rewrite HP. case_decide; subst; apply (ti_pools _ _ I).
Qed.

(** ** Memory *)

Lemma s32_shift a b : s32 (s32 a + b) = s32 (a + b).
Proof. unfold_widths. divlia. Qed.

Lemma getmorepeermem_inv own s :
  table_inv own s ->
  table_inv own (getmorepeermem s) /\ peer_free (getmorepeermem s) <> [] /\
  restr (getmorepeermem s) = restr s /\ peer_list (getmorepeermem s) = peer_list s /\
  (forall q, q ∈ own ++ peer_list s -> peer_at (getmorepeermem s) q = peer_at s q) /\
  sv (getmorepeermem s) = sv s /\ cf (getmorepeermem s) = cf s.
Proof.
  intros I. unfold getmorepeermem, alloc_peers. rewrite fold_cons_rev. change (reverse (rev ?x)) with (rev_append (rev x) []). rewrite rev_append_rev, rev_involutive, app_nil_r.
  set (l := zrange (next_ptr s) INC_PEER_ALLOC). set (s' := setter peer_free_count _ _).
  assert (Hfresh : forall p, p ∈ l -> p ∉ own ++ peer_list s ++ peer_free s).
  { intros p Hp Hin. apply zrange_elem in Hp. apply (ti_bound _ _ I) in Hin. lia. }
  assert (Hat : forall p, peer_at s' p = if decide (p ∈ l) then zero_peer else peer_at s p).
  { intros p. change (peer_at s' p) with
      (default zero_peer (fold_left (fun m p => <[p := zero_peer]> m) l (heap s) !! p)).
    rewrite fold_insert_lookup_all. now case_decide. }
  assert (Hold : forall p, p ∈ own ++ peer_list s -> peer_at s' p = peer_at s p).
  { intros p Hp. rewrite Hat. apply decide_False. intros Hl. apply (Hfresh p Hl). set_solver. }
  split; [| split; [done |]; split; [done |]; split; [done |]; split; [exact Hold | done]].
  split; try from_inv I.
  - change (NoDup (own ++ peer_list s ++ l ++ peer_free s)).
    rewrite !app_assoc. rewrite <- (app_assoc _ l), (Permutation_app_comm l), !app_assoc.
    apply NoDup_app. split; [rewrite <- app_assoc; apply I |]. split; [| apply zrange_NoDup].
    intros p Hp Hl. apply (Hfresh p Hl). set_solver.
  - intros p Hp. change (p ∈ own ++ peer_list s ++ l ++ peer_free s) in Hp.
    change (p < next_ptr s + 4). assert (Hc : p ∈ l \/ p ∈ own ++ peer_list s ++ peer_free s) by set_solver.
    destruct Hc as [Hc | Hc]; [apply zrange_elem in Hc; unfold INC_PEER_ALLOC in Hc; lia | apply (ti_bound _ _ I) in Hc; lia].
  - eapply indexed_proper; [| | apply I]; [done |]. intros p Hp. cbn. rewrite Hold by set_solver. done.
  - eapply indexed_proper; [| | apply I]; [done |]. intros p Hp. cbn. rewrite Hold by set_solver. done.
  - change (s32 (peer_free_count s + 4) = s32 (Z.of_nat (length (l ++ peer_free s)))).
    rewrite (ti_free _ _ I), s32_shift, length_app. unfold l. rewrite zrange_length. f_equal. cbn. lia.
  - intros p Hp. change (p ∈ l ++ peer_free s) in Hp. rewrite Hat. case_decide; [done |]. apply I. set_solver.
  - intros p Hp. change (p ∈ peer_list s) in Hp. rewrite Hold by set_solver. now apply I.
  - eapply bound_ext; [| | | apply I]; [| | done]; intros p; cbn; [| intros Hp; now rewrite Hold].
    change (peer_list s') with (peer_list s). split; intros [Hp Hd]; (split; [done |]);
      [rewrite Hold by done | rewrite Hold in Hd by done]; done.
  - intros p. rewrite Hat. case_decide; [constructor | apply (ti_pools _ _ I)].
Qed.

(** The structure at the head of the free list becomes the caller's. *)
Lemma take_free_inv s p free :
  peer_inv s -> peer_free s = p :: free ->
  table_inv [p] (s <| peer_free := free |> <| peer_free_count := s32 (peer_free_count s - 1) |>).
Proof.
  intros I Hf. pose proof (ti_nodup _ _ I) as Hn. rewrite Hf in Hn. cbn [app] in Hn.
  assert (Hp : p ∈ peer_free s) by (rewrite Hf; set_solver).
  split; try from_inv I.
  - cbn. rewrite <- Permutation_middle in Hn. exact Hn.
  - intros q Hq. apply (ti_bound _ _ I). cbn in *. rewrite Hf. set_solver.
  - cbn. rewrite (ti_free _ _ I), Hf. unfold Z.sub. rewrite s32_shift. f_equal. cbn [length]. lia.
  - intros q Hq. apply (ti_unbound _ _ I). rewrite Hf. set_solver.
  - eapply bound_ext; [| | | apply I]; [| done | done]. cbn. intros q. split; [set_solver |].
    intros [Hq Hd]. split; [| done]. apply elem_of_cons in Hq as [-> | Hq]; [| done].
    exfalso. apply Hd. now apply (ti_unbound _ _ I p).
Qed.

(** Writing to a structure no table refers to. *)
Lemma upd_own_inv p f s :
  (forall r, p_dstadr (f r) = p_dstadr r /\ p_ai (f r) = p_ai r) -> table_inv [p] s -> table_inv [p] (upd_peer p f s).
Proof.
  intros Hfa I. assert (Hf : forall r, p_dstadr (f r) = p_dstadr r) by (intros r; apply Hfa). pose proof (ti_nodup _ _ I) as Hn. apply NoDup_app in Hn as (_ & Hn & _).
  assert (Hne : forall q, q ∈ peer_list s ++ peer_free s -> peer_at (upd_peer p f s) q = peer_at s q).
  { intros q Hq. rewrite peer_at_upd, decide_False; [done |]. intros ->. apply (Hn q); set_solver. }
  split; try from_inv I.
  - eapply indexed_proper; [| | apply I]; [done |]. intros q Hq. cbn. rewrite Hne by set_solver. done.
  - eapply indexed_proper; [| | apply I]; [done |]. intros q Hq. cbn. rewrite Hne by set_solver. done.
  - intros q Hq. change (q ∈ peer_free s) in Hq. rewrite Hne by set_solver. now apply I.
  - intros q Hq. change (q ∈ peer_list s) in Hq. rewrite Hne by set_solver. now apply I.
  - eapply bound_ext; [| | | apply I]; [| | done]; intros q; rewrite peer_at_upd;
      case_decide; subst; rewrite ?Hf; done.
  - intros q. rewrite peer_at_upd. case_decide; subst; [rewrite (proj2 (Hfa _)) |]; apply (ti_pools _ _ I).
Qed.

Lemma bucket_link_length t h p x :
  length (bucket (LINK_BUCKET h p t) x) = if decide (h = x) then S (length (bucket t x)) else length (bucket t x).
Proof.
  unfold LINK_BUCKET. case_decide; subst; [now rewrite bucket_insert_eq | now rewrite bucket_insert_ne].
Qed.

Lemma count_at_add h n t x :
  count_at (count_add h n t) x = if decide (h = x) then s32 (count_at t h + n) else count_at t x.
Proof.
  unfold count_at, count_add. case_decide; subst; [now rewrite lookup_insert_eq | now rewrite lookup_insert_ne].
Qed.

Lemma counted_link t n h p : counted t n -> counted (LINK_BUCKET h p t) (count_add h 1 n).
Proof.
  intros C x. rewrite bucket_link_length, count_at_add. case_decide; subst; [| apply C].
  rewrite C, s32_shift. f_equal. lia.
Qed.

Lemma counted_unlink t n h p :
  counted t n -> p ∈ bucket t h -> counted (UNLINK_BUCKET h p t) (count_add h (-1) n).
Proof.
  intros C Hp x. rewrite count_at_add. unfold UNLINK_BUCKET. case_decide; subst.
  - rewrite bucket_insert_eq, C, s32_shift. apply UNLINK_length in Hp. f_equal. lia.
  - rewrite bucket_insert_ne by done. apply C.
Qed.

(** ** Linking and freeing *)

Lemma link_peer_inv p s :
  table_inv [p] s -> 0 <= p_hmode (peer_at s p) <= 6 -> src_ok (p_srcadr (peer_at s p)) ->
  peer_inv (link_peer p s).
Proof.
  intros I Hm Ha. pose proof (ti_nodup _ _ I) as Hn. cbn [app] in Hn. apply NoDup_cons in Hn as [Hp Hn].
  assert (Hl : p ∉ peer_list s) by set_solver.
  split; try from_inv I.
  - exact (indexed_link _ _ _ p (ti_addr _ _ I) Hl).
  - exact (indexed_link _ _ _ p (ti_assoc _ _ I) Hl).
  - apply counted_link, I.
  - apply counted_link, I.
  - intros q Hq. change (q ∈ p :: peer_list s) in Hq. change (peer_at (link_peer p s) q) with (peer_at s q).
    apply elem_of_cons in Hq as [-> | Hq]; [done | now apply I].
Qed.

Lemma free_own_inv p s :
  table_inv [p] s -> p_dstadr (peer_at s p) = None -> peer_inv (free_peer p false s).
Proof.
  intros I Hd. pose proof (ti_nodup _ _ I) as Hn. cbn [app] in Hn. pose proof Hn as Hn2.
  apply NoDup_cons in Hn2 as [Hp _].
  assert (Hne : forall q, q ∈ peer_list s ++ peer_free s -> peer_at (free_peer p false s) q = peer_at s q).
  { intros q Hq. apply peer_at_put_ne. intros ->. done. }
  split; try from_inv I.
  - cbn. rewrite <- Permutation_middle. exact Hn.
  - intros q Hq. apply (ti_bound _ _ I). cbn in Hq. cbn. set_solver.
  - eapply indexed_proper; [| | apply I]; [done |]. intros q Hq. cbn beta. rewrite Hne by set_solver. done.
  - eapply indexed_proper; [| | apply I]; [done |]. intros q Hq. cbn beta. rewrite Hne by set_solver. done.
  - cbn. rewrite (ti_free _ _ I), s32_shift. f_equal. lia.
  - intros q Hq. change (q ∈ p :: peer_free s) in Hq. destruct (decide (q = p)) as [-> | Hqp].
    + change (p_dstadr (peer_at (put_peer p zero_peer s) p) = None). now rewrite peer_at_put_eq.
    + rewrite Hne by set_solver. apply I. set_solver.
  - intros q Hq. change (q ∈ peer_list s) in Hq. rewrite Hne by set_solver. now apply I.
  - eapply bound_ext; [| | | apply (ti_eps _ _ I)]; [| | done]; cbn [app].
    + intros q. change (peer_list (free_peer p false s)) with (peer_list s). split.
      * intros [Hq Hdq]. apply elem_of_cons in Hq as [-> | Hq]; [done |]. rewrite Hne by set_solver. done.
      * intros [Hq Hdq]. rewrite Hne in Hdq by set_solver. split; [set_solver | done].
    + intros q Hq. apply elem_of_cons in Hq as [-> | Hq]; [| now rewrite Hne by set_solver].
      rewrite Hd. change (peer_at (free_peer p false s) p) with (peer_at (put_peer p zero_peer s) p).
      now rewrite peer_at_put_eq.
  - intros q. destruct (decide (q = p)) as [-> | Hqp].
    + change (peer_at (free_peer p false s) p) with (peer_at (put_peer p zero_peer s) p). rewrite peer_at_put_eq. constructor.
    + replace (peer_at (free_peer p false s) q) with (peer_at s q) by (symmetry; apply peer_at_put_ne; congruence).
      apply (ti_pools _ _ I).
Qed.

(** A linked peer without endpoint, off its lists. *)
Definition unlinked (p : Z) (s : state) : state :=
  let s := s <| peer_hash := UNLINK_BUCKET (NTP_HASH_ADDR (p_srcadr (peer_at s p))) p (peer_hash s) |>
             <| peer_hash_count := count_add (NTP_HASH_ADDR (p_srcadr (peer_at s p))) (-1) (peer_hash_count s) |> in
  let s := s <| assoc_hash := UNLINK_BUCKET (p_associd (peer_at s p) .& NTP_HASH_MASK) p (assoc_hash s) |>
             <| assoc_hash_count := count_add (p_associd (peer_at s p) .& NTP_HASH_MASK) (-1) (assoc_hash_count s) |> in
  s <| peer_list := UNLINK p (peer_list s) |>.

Lemma unlinked_inv p s : peer_inv s -> p ∈ peer_list s -> table_inv [p] (unlinked p s).
Proof.
  intros I Hp. pose proof (ti_nodup _ _ I) as Hn. cbn [app] in Hn.
  pose proof Hn as Hn2. apply NoDup_app in Hn2 as (Hl & _ & _).
  assert (HP : Permutation (p :: UNLINK p (peer_list s) ++ peer_free s) (peer_list s ++ peer_free s)).
  { change (p :: UNLINK p (peer_list s) ++ peer_free s) with ((p :: UNLINK p (peer_list s)) ++ peer_free s).
    now rewrite <- (UNLINK_perm p (peer_list s)). }
  split; try from_inv I.
  - change (NoDup (p :: UNLINK p (peer_list s) ++ peer_free s)). now rewrite HP.
  - intros q Hq. change (q ∈ p :: UNLINK p (peer_list s) ++ peer_free s) in Hq. rewrite HP in Hq.
    now apply (ti_bound _ _ I).
  - exact (indexed_unlink _ _ _ p Hl (ti_addr _ _ I)).
  - exact (indexed_unlink _ _ _ p Hl (ti_assoc _ _ I)).
  - apply counted_unlink; [apply I |]. now apply (ti_addr _ _ I).
  - apply counted_unlink; [apply I |]. now apply (ti_assoc _ _ I).
  - intros q Hq. apply (ti_live _ _ I). eapply UNLINK_sub, Hq.
  - eapply bound_ext; [| done | done | apply (ti_eps _ _ I)]. intros q. cbn [app].
    change (peer_list (unlinked p s)) with (UNLINK p (peer_list s)).
    rewrite elem_of_cons, UNLINK_elem by done. destruct (decide (q = p)) as [-> |]; naive_solver.
Qed.

Lemma free_linked p s :
  peer_inv s -> p ∈ peer_list s -> free_peer p true s = free_peer p false (unlinked p s).
Proof.
  intros I Hp. unfold free_peer at 1, unlink_counted. cbn [peer_hash assoc_hash].
  rewrite bool_decide_true by now apply (ti_addr _ _ I).
  rewrite bool_decide_true; [reflexivity |]. now apply (ti_assoc _ _ I).
Qed.

(** ** Searches over chains *)

Lemma after_suffix q l pre : NoDup (pre ++ q :: l) -> after q (pre ++ q :: l) = l.
Proof.
  induction pre as [|x pre IH]; cbn; intros Hn; [now rewrite Z.eqb_refl |].
  apply NoDup_cons in Hn as [Hx Hn]. destruct (Z.eqb_spec x q) as [-> |]; [set_solver | auto].
Qed.

Section Searches.
Context `{Env}.

(** The stop test of the loop in [newpeer]. *)
Definition same_dst (a : new_args) (dstadr : Z) (s : state) (p : Z) : bool :=
  bool_decide (p_dstadr (peer_at s p) = Some dstadr)
  || (has MDF_BCLNT (na_cast_flags a) && has MDF_BCLNT (p_cast_flags (peer_at s p)))
  || (bool_decide (any_interface (sa_family (na_srcadr a)) = Some dstadr)
      && bool_decide (p_dstadr (peer_at s p) = findinterface (endpts s) (na_srcadr a))).

(** The loop is a search for the first structure that passes both tests. *)
Lemma find_same_dst_chain fuel a d s chain test pre l :
  (forall q, q ∈ chain ->
     findexistingpeer (na_srcadr a) (na_hostname a) (Some q) (na_hmode a) (na_cast_flags a) s
     = chain_find test (after q chain)) ->
  NoDup chain -> chain = pre ++ l -> (length l <= fuel)%nat ->
  find_same_dst fuel a d (chain_find test l) s = Some (chain_find (fun q => test q && same_dst a d s q) l).
Proof.
  intros Hnext Hn. revert fuel pre. induction l as [|q l IH]; intros fuel pre Hc Hf; [now destruct fuel |].
  cbn [chain_find length] in *. assert (Hc' : chain = (pre ++ [q]) ++ l) by now rewrite <- app_assoc.
  destruct (test q); cbn [andb]; [| eapply IH; [exact Hc' | lia]].
  destruct fuel as [|fuel]; [lia |]. cbn [find_same_dst]. fold (same_dst a d s q).
  destruct (same_dst a d s q); [done |].
  rewrite Hnext by (rewrite Hc; set_solver). rewrite Hc at 1. rewrite after_suffix by now rewrite <- Hc.
  eapply IH; [exact Hc' | lia].
Qed.

(** The associations [newpeer] takes for duplicates. *)
Definition duplicate (a : new_args) (s : state) (p : Z) : bool :=
  same_assoc s (na_srcadr a) (na_hmode a) (na_cast_flags a) p
  && match na_dstadr a with Some d => same_dst a d s p | None => true end.

Lemma bucket_length own s h : table_inv own s -> (length (bucket (peer_hash s) h) <= length (peer_list s))%nat.
Proof.
  intros I. destruct (ti_addr _ _ I h) as [Hn Hb]. apply submseteq_length, NoDup_submseteq; [done |].
  intros p Hp. now apply Hb.
Qed.

Lemma find_duplicate_addr a s :
  peer_inv s -> na_hostname a = None ->
  find_duplicate a s =
    Some (chain_find (duplicate a s) (bucket (peer_hash s) (NTP_HASH_ADDR (na_srcadr a)))).
Proof.
  intros I Hh. unfold find_duplicate, findexistingpeer. rewrite Hh. unfold findexistingpeer_addr, duplicate.
  set (l := bucket _ _). destruct (na_dstadr a) as [d|].
  - eapply (find_same_dst_chain _ a d s l _ []); [| apply (ti_addr _ _ I) | done | now apply (bucket_length [])].
    intros q Hq. unfold findexistingpeer. rewrite Hh. unfold findexistingpeer_addr, l.
    apply (ti_addr _ _ I) in Hq as [_ <-]. done.
  - f_equal. apply chain_find_ext. intros q _. now rewrite andb_true_r.
Qed.

Lemma find_duplicate_total a s : peer_inv s -> exists r, find_duplicate a s = Some r.
Proof.
  intros I. destruct (na_hostname a) as [name|] eqn:Hh; [| rewrite find_duplicate_addr by done; eauto].
  unfold find_duplicate. destruct (na_dstadr a) as [d|]; [| eauto].
  unfold findexistingpeer. rewrite Hh. unfold findexistingpeer_name.
  eexists. eapply (find_same_dst_chain _ a d s (peer_list s) _ []); [| | done | done].
  - intros q Hq. unfold findexistingpeer. rewrite Hh. reflexivity.
  - pose proof (ti_nodup _ _ I) as Hn. cbn [app] in Hn. now apply NoDup_app in Hn as (? & _).
Qed.

(** ** Matching datagrams *)

Lemma match_assoc_total x y : 0 <= x <= 6 -> 0 <= y <= 6 -> exists a, MATCH_ASSOC x y = Some a.
Proof.
  intros Hx Hy.
  pose proof (forall_range (fun x => forallb (fun y => bool_decide (MATCH_ASSOC x y <> None)) (zrange 0 7)) 0 7
                eq_refl x ltac:(lia)) as Hr. cbn beta in Hr.
  rewrite forallb_forall in Hr. specialize (Hr y (zrange_In 0 7 y ltac:(lia))).
  apply bool_decide_eq_true in Hr. destruct (MATCH_ASSOC x y); [eauto | done].
Qed.

(** What the loop of [findpeer] tells about the peers it looked at. *)
Definition matched (s : state) (rb : recvbuf) (mode : Z) (l : list Z) (r : option Z * option Z) : Prop :=
  match r with
  | (Some p, Some a) =>
      p ∈ l /\ ADDR_PORT_EQ (rb_srcadr rb) (p_srcadr (peer_at s p)) = true /\
      MATCH_ASSOC (p_hmode (peer_at s p)) mode = Some a /\ a <> AM_ERR /\ a <> AM_NOMATCH
  | (None, Some a) => a = AM_ERR
  | (None, None) =>
      forall p, p ∈ l -> ADDR_PORT_EQ (rb_srcadr rb) (p_srcadr (peer_at s p)) = true ->
        MATCH_ASSOC (p_hmode (peer_at s p)) mode = Some AM_NOMATCH
  | (Some _, None) => False
  end.

Lemma matched_cons s rb mode q l r :
  (ADDR_PORT_EQ (rb_srcadr rb) (p_srcadr (peer_at s q)) = true ->
   MATCH_ASSOC (p_hmode (peer_at s q)) mode = Some AM_NOMATCH) ->
  matched s rb mode l r -> matched s rb mode (q :: l) r.
Proof.
  intros Hq. destruct r as [[p|] [a|]]; cbn; try done.
  - intros (H1 & H2). split; [set_solver | done].
  - intros Hl p Hp. apply elem_of_cons in Hp as [-> | Hp]; auto.
Qed.

Lemma match_chain_spec s rb mode l :
  0 <= mode <= 6 -> (forall p, p ∈ l -> 0 <= p_hmode (peer_at s p) <= 6) ->
  exists r, match_chain s rb mode l = Some r /\ matched s rb mode l r.
Proof.
  intros Hm. induction l as [|q l IH]; intros Hl; cbn [match_chain]; [exists (None, None); split; [done | intros p Hp; set_solver] |].
  destruct IH as (r & Er & Hr); [intros; apply Hl; set_solver |].
  destruct (ADDR_PORT_EQ _ _) eqn:Ea; [| exists r; split; [done |]; apply matched_cons; congruence].
  destruct (match_assoc_total (p_hmode (peer_at s q)) mode) as [a0 E0]; [apply Hl; set_solver | done |].
  rewrite E0. cbn [mbind option_bind]. match goal with |- context [if ?c then AM_ERR else a0] => set (a := if c then AM_ERR else a0) end.
  assert (Ha : a = AM_ERR \/ a = a0) by (unfold a; case_match; auto). clearbody a.
  destruct (Z.eqb_spec a AM_ERR) as [-> | Hne]; [exists (None, Some AM_ERR); done |].
  destruct Ha as [? | ->]; [done |].
  destruct (Z.eqb_spec a0 AM_NOMATCH) as [-> | Hn]; cbn [negb].
  - exists r. split; [done |]. now apply matched_cons.
  - exists (Some q, Some a0). split; [done |]. cbn. split; [set_solver | done].
Qed.

(** ** Which association decides *)

(** An association with the sender of the datagram. *)
Definition from_sender (s : state) (rb : recvbuf) (p : Z) : Prop :=
  ADDR_PORT_EQ (rb_srcadr rb) (p_srcadr (peer_at s p)) = true.

(** The reply of a server the association already follows to a later
    manycast solicitation: its origin timestamp is not the one the
    association waits for, but that of a soliciting association. *)
Definition redundant (s : state) (rb : recvbuf) (mode p : Z) : Prop :=
  mode = MODE_SERVER /\ MATCH_ASSOC (p_hmode (peer_at s p)) mode = Some AM_PROCPKT /\
  L_ISEQU (p_aorg (pv (peer_at s p))) (pk_org (rb_pkt rb)) = false /\
  exists q, q ∈ peer_list s /\ has MDF_SOLICIT_MASK (p_cast_flags (peer_at s q)) = true /\
    L_ISEQU (pk_org (rb_pkt rb)) (p_aorg (pv (peer_at s q))) = true.

Definition verdict (s : state) (rb : recvbuf) (mode p a : Z) : Prop :=
  (redundant s rb mode p /\ a = AM_ERR) \/
  (~ redundant s rb mode p /\ MATCH_ASSOC (p_hmode (peer_at s p)) mode = Some a).

(** [p], the first of [l] that is the sender's and not indifferent to the
    mode, has the verdict [a]. *)
Definition decider (s : state) (rb : recvbuf) (mode : Z) (l : list Z) (p a : Z) : Prop :=
  exists l1 l2, l = l1 ++ p :: l2 /\ from_sender s rb p /\ verdict s rb mode p a /\ a <> AM_NOMATCH /\
    forall q, q ∈ l1 -> from_sender s rb q -> MATCH_ASSOC (p_hmode (peer_at s q)) mode = Some AM_NOMATCH.

Lemma manycast_exists rb s :
  findmanycastpeer rb s <> None <->
  exists q, q ∈ peer_list s /\ has MDF_SOLICIT_MASK (p_cast_flags (peer_at s q)) = true /\
    L_ISEQU (pk_org (rb_pkt rb)) (p_aorg (pv (peer_at s q))) = true.
Proof.
  unfold findmanycastpeer. destruct (chain_find _ _) as [q|] eqn:E.
  - apply chain_find_Some in E as [Hq Ht]. apply andb_prop in Ht. split; [intros _; exists q; tauto | done].
  - rewrite chain_find_None in E. split; [done |]. intros (q & Hq & H1 & H2) _.
    specialize (E q Hq). cbv beta in E. now rewrite H1, H2 in E.
Qed.

Lemma verdict_of s rb mode p a0 :
  MATCH_ASSOC (p_hmode (peer_at s p)) mode = Some a0 ->
  verdict s rb mode p
    (if (MODE_SERVER =? mode) && (AM_PROCPKT =? a0)
        && negb (L_ISEQU (p_aorg (pv (peer_at s p))) (pk_org (rb_pkt rb)))
        && bool_decide (findmanycastpeer rb s <> None)
     then AM_ERR else a0).
Proof.
  intros E. match goal with |- verdict _ _ _ _ (if ?b then _ else _) => destruct b eqn:Eb end; [left | right].
  - rewrite !andb_true_iff, negb_true_iff, bool_decide_eq_true in Eb. destruct Eb as [[[E1 E2] E3] E4].
    split; [| done]. apply Z.eqb_eq in E1, E2. subst. split_and!; try done. now apply manycast_exists.
  - split; [| done]. intros (-> & Ep & El & Hq). apply manycast_exists in Hq.
    rewrite El, (bool_decide_eq_true_2 _ Hq), Ep in *. injection E as <-. done.
Qed.

Definition outcome (s : state) (rb : recvbuf) (mode : Z) (l : list Z) (r : option Z * option Z) : Prop :=
  match r with
  | (Some p, Some a) => decider s rb mode l p a /\ a <> AM_ERR
  | (None, Some a) => a = AM_ERR /\ exists p, decider s rb mode l p AM_ERR
  | (None, None) =>
      forall p, p ∈ l -> from_sender s rb p -> MATCH_ASSOC (p_hmode (peer_at s p)) mode = Some AM_NOMATCH
  | (Some _, None) => False
  end.

Lemma outcome_cons s rb mode q l r :
  (from_sender s rb q -> MATCH_ASSOC (p_hmode (peer_at s q)) mode = Some AM_NOMATCH) ->
  outcome s rb mode l r -> outcome s rb mode (q :: l) r.
Proof.
  intros Hq.
  assert (D : forall p a, decider s rb mode l p a -> decider s rb mode (q :: l) p a).
  { intros p a (l1 & l2 & -> & H1 & H2 & H3 & H4). exists (q :: l1), l2. split_and!; auto.
    intros x Hx. apply elem_of_cons in Hx as [-> | Hx]; auto. }
  destruct r as [[p|] [a|]]; cbn; [naive_solver | done | naive_solver |].
  intros Hl p Hp. apply elem_of_cons in Hp as [-> | Hp]; auto.
Qed.

Lemma match_chain_decided s rb mode l r : match_chain s rb mode l = Some r -> outcome s rb mode l r.
Proof.
  revert r. induction l as [|q l IH]; intros r; cbn [match_chain].
  { intros [= <-] p Hp. set_solver. }
  destruct (ADDR_PORT_EQ _ _) eqn:Ea; [| intros E; apply outcome_cons; [unfold from_sender; congruence | auto]].
  destruct (MATCH_ASSOC _ mode) as [a0|] eqn:E0; [| discriminate]. cbn [mbind option_bind].
  pose proof (verdict_of s rb mode q a0 E0) as V.
  match type of V with verdict _ _ _ _ ?x => set (a := x) in * end.
  assert (Here : a <> AM_NOMATCH -> decider s rb mode (q :: l) q a).
  { intros Hn. exists [], l. split_and!; try done. intros x Hx. set_solver. }
  destruct (Z.eqb_spec a AM_ERR) as [Ee | Hne].
  { intros [= <-]. split; [done |]. exists q. rewrite <- Ee. apply Here. rewrite Ee. done. }
  destruct (Z.eqb_spec a AM_NOMATCH) as [En | Hn]; cbn [negb].
  - intros E. apply outcome_cons; [| auto]. intros _. destruct V as [[_ ?] | [_ V]]; congruence.
  - intros [= <-]. split; [now apply Here | done].
Qed.

(** The loop does not look at the endpoints. *)
Lemma match_chain_ext s s' rb mode l :
  peer_list s' = peer_list s ->
  (forall p, let r := peer_at s p in let r' := peer_at s' p in
     p_srcadr r' = p_srcadr r /\ p_hmode r' = p_hmode r /\ p_cast_flags r' = p_cast_flags r /\ pv r' = pv r) ->
  match_chain s' rb mode l = match_chain s rb mode l.
Proof.
  intros Hl Hp. assert (Hmc : findmanycastpeer rb s' = findmanycastpeer rb s).
  { unfold findmanycastpeer. rewrite Hl. apply chain_find_ext. intros p _.
    now destruct (Hp p) as (_ & _ & -> & ->). }
  induction l as [|q l IH]; cbn [match_chain]; [done |].
  destruct (Hp q) as (-> & -> & _ & ->). now rewrite Hmc, IH.
Qed.
End Searches.

(** ** The environment's part *)

(** Only the structure [p] changes. *)
Definition others (p : Z) (s s' : state) : Prop :=
  sv s' = sv s /\ discipline s' = discipline s /\ forall q, q <> p -> peer_at s' q = peer_at s q.

(** The same peers are reference clocks, and none of them loses its interface. *)
Definition is_clock (r : peer) : bool := has FLAG_REFCLOCK (p_flags r).
Definition same_clocks (s s' : state) : Prop :=
  forall q, is_clock (peer_at s' q) = is_clock (peer_at s q) /\
            (p_procptr (peer_at s' q) = None -> p_procptr (peer_at s q) = None).

(** A reference clock driver leaves the tables alone; starting or stopping a
    clock touches only the peer it is given. *)
Record driver_ok (d : refclock) : Prop := {
  start_ok f u p s : clock_start d = Some f -> keeps s (f u p s).2 /\ others p s (f u p s).2;
  shutdown_ok f u p s : clock_shutdown d = Some f -> keeps s (f u p s) /\ others p s (f u p s);
  poll_keeps f u p s : clock_poll d = Some f -> keeps s (f u p s);
  timer_keeps f u p s : clock_timer d = Some f -> keeps s (f u p s) /\ same_clocks s (f u p s);
  control_keeps f u i o p s : clock_control d = Some f -> keeps s (f u i o p s).2 }.

(** The socket layer leaves the peer lists of the endpoints alone. *)
Class EnvLaws `{Env} : Prop := {
  law_broadcast e a m x :
    let ep (m : gmap Z endpt) := default zero_endpt (m !! x) in
    ep_peers (ep (enable_broadcast e a m)) = ep_peers (ep m) /\
    ep_peercnt (ep (enable_broadcast e a m)) = ep_peercnt (ep m);
  law_multicast e a m x :
    let ep (m : gmap Z endpt) := default zero_endpt (m !! x) in
    ep_peers (ep (enable_multicast_if e a m)) = ep_peers (ep m) /\
    ep_peercnt (ep (enable_multicast_if e a m)) = ep_peercnt (ep m);
  law_drivers : Forall driver_ok refclock_conf;
  law_action a p s : keeps s (clock_action a p s) /\ same_clocks s (clock_action a p s) }.

(** The restriction lists accept an entry for a source. *)
Definition res_ok (s : state) : Prop :=
  res_inv (restr s) /\ res_room (restr s) /\ 0 <= restrict_source_mflags (restr s).

(** After an operation that adds or removes one entry. *)
Definition res_next (s s' : state) : Prop := res_inv (restr s') /\ roomy (restr s) (restr s').

Lemma keeps_endpts s s1 m :
  (forall x, ep_peers (default zero_endpt (m !! x)) = ep_peers (endpt_at s1 x) /\
             ep_peercnt (default zero_endpt (m !! x)) = ep_peercnt (endpt_at s1 x)) ->
  keeps s s1 -> keeps s (s1 <| endpts := m |>).
Proof. intros Hm K. etransitivity; [exact K |]. now split. Qed.

Section Operations.
Context `{EnvLaws}.

(** ** Reference clocks *)

Lemma driver_laws {A} t (entry : refclock -> option A) f :
  driver_of t ≫= entry = Some f -> exists d, entry d = Some f /\ driver_ok d.
Proof.
  destruct (driver_of t) as [d|] eqn:E; cbn [mbind option_bind]; [| done]. intros Ef. exists d. split; [exact Ef |].
  exact (Forall_lookup_1 _ _ _ _ law_drivers E).
Qed.

Lemma others_upd p f s : others p s (upd_peer p f s).
Proof. split; [done |]. split; [done |]. intros q Hq. rewrite peer_at_upd. now rewrite decide_False. Qed.

Lemma others_trans p s1 s2 s3 : others p s1 s2 -> others p s2 s3 -> others p s1 s3.
Proof. intros (A1 & D1 & A2) (B1 & D2 & B2). split; [congruence |]. split; [congruence |]. intros q Hq. now rewrite B2, A2. Qed.

Lemma refclock_unpeer_ok p s : keeps s (refclock_unpeer p s) /\ others p s (refclock_unpeer p s).
Proof.
  unfold refclock_unpeer. destruct (p_procptr (peer_at s p)) as [pp|]; [| split; [apply keeps_refl | done]].
  set (s1 := match _ ≫= _ with None => s | Some _ => _ end).
  assert (F : keeps s s1 /\ others p s s1).
  { unfold s1. destruct (_ ≫= _) as [f|] eqn:E; [| split; [apply keeps_refl | done]].
    destruct (driver_laws _ _ _ E) as (d & Ed & L). now apply (shutdown_ok _ L). }
  clearbody s1. destruct F as [K O]. split; [now apply keeps_upd | exact (others_trans _ _ _ _ O (others_upd p _ s1))].
Qed.

Lemma refclock_newpeer_ok p s : keeps s (refclock_newpeer p s).2 /\ others p s (refclock_newpeer p s).2.
Proof.
  unfold refclock_newpeer. destruct (negb _); [split; [apply keeps_refl | done] |].
  destruct (_ ≫= _) as [f|] eqn:E; [| split; [apply keeps_refl | done]].
  destruct (driver_laws _ _ _ E) as (d & Ed & L).
  set (s1 := new_proc p _ _ s). assert (F : keeps s s1 /\ others p s s1)
    by (split; [apply keeps_upd; [done | apply keeps_refl] | apply others_upd]).
  clearbody s1. destruct F as [K1 O1].
  destruct (start_ok _ L f (REFCLOCKUNIT (p_srcadr (peer_at s p))) p s1 Ed) as [K2 O2].
  destruct (f _ p s1) as [ok s2]. cbn [snd] in K2, O2.
  assert (K3 : keeps s s2) by (etransitivity; [exact K1 | exact K2]).
  pose proof (others_trans _ _ _ _ O1 O2) as O3.
  destruct (negb ok); cbn [snd].
  - destruct (refclock_unpeer_ok p s2) as [K4 O4].
    split; [etransitivity; [exact K3 | exact K4] | exact (others_trans _ _ _ _ O3 O4)].
  - split; [apply keeps_upd; [| exact K3] | exact (others_trans _ _ _ _ O3 (others_upd p _ s2))].
    intros r. destruct (p_procptr r); done.
Qed.

Lemma keeps_cast p a s s1 : keeps s s1 -> keeps s (enable_cast p a s1).
Proof.
  intros K. unfold enable_cast. destruct (p_dstadr _) as [e|]; [| done].
  set (s2 := if has MDF_BCAST _ then _ else s1).
  assert (K2 : keeps s s2) by (unfold s2; case_match; [apply keeps_endpts; [apply law_broadcast | done] | done]).
  clearbody s2. case_match; [apply keeps_endpts; [apply law_multicast | done] | done].
Qed.

(** A source address, restricted. *)
Lemma source_ok s a now farewell :
  res_ok s -> src_ok a ->
  exists r, restrict_source now a farewell 0 (restr s) = Some r /\ res_inv r /\ roomy (restr s) r.
Proof.
  intros (Hi & Hr & Hf) Ha.
  assert (Hs : exists r, restrict_source now a farewell 0 (restr s) = Some r /\ res_inv r).
  { destruct Ha as [Hu | [Ha Hz]]; [| now apply source_inv].
    exists (restr s). split; [| done]. unfold restrict_source. rewrite Hu. destruct (_ =? 0); done. }
  destruct Hs as (r & E & Hir). exists r. eauto using source_roomy.
Qed.

Lemma table_restr own s r : table_inv own s -> table_inv own (s <| restr := r |>).
Proof. intros I. split; apply I. Qed.

(** What [fill_peer] leaves in the structure. *)
Lemma fill_peer_spec p a s :
  table_inv [p] s ->
  let s' := fill_peer p a s in
  table_inv [p] s' /\ restr s' = restr s /\ peer_list s' = peer_list s /\
  p_srcadr (peer_at s' p) = na_srcadr a /\ p_hmode (peer_at s' p) = na_hmode a /\
  p_associd (peer_at s' p) = current_association_ID s.
Proof.
  intros I. unfold fill_peer.
  set (s1 := if has FLAG_PREEMPT _ then _ else _).
  assert (K1 : keeps s s1 /\ current_association_ID s1 = current_association_ID s)
    by (unfold s1; case_match; split; now try split).
  clearbody s1. destruct K1 as [K1 Hid]. apply (keeps_inv _ _ _ K1) in I.
  assert (E1 : restr s1 = restr s /\ peer_list s1 = peer_list s) by (split; apply K1).
  set (s2 := upd_peer p (fun r => r <| p_associd := _ |>) s1).
  assert (I2 : table_inv [p] s2) by now apply upd_own_inv.
  set (s3 := upd_peer p _ (setter current_association_ID _ s2)).
  assert (I3 : table_inv [p] s3) by (apply upd_own_inv; [done |]; split; apply I2).
  assert (P3 : p_srcadr (peer_at s3 p) = na_srcadr a /\ p_hmode (peer_at s3 p) = na_hmode a /\
               p_associd (peer_at s3 p) = current_association_ID s).
  { unfold s3. rewrite peer_at_upd, decide_True by done. cbn.
    change (peer_at (setter current_association_ID _ s2) p) with (peer_at s2 p).
    unfold s2. rewrite peer_at_upd, decide_True by done. now rewrite <- Hid. }
  assert (E3 : restr s3 = restr s /\ peer_list s3 = peer_list s) by exact E1.
  set (d := select_peerinterface _ _ _ s3). clearbody s3. clear s2 I2.
  pose proof (set_peerdstadr_inv [p] p d s3 ltac:(set_solver) I3) as I4.
  destruct (set_peerdstadr_spec p d s3) as [T HS].
  assert (P4 : ident (peer_at s3 p) = ident (peer_at (set_peerdstadr p d s3) p) \/
               ident (peer_at (set_peerdstadr p d s3) p) =
                 (p_srcadr (peer_at s3 p), p_associd (peer_at s3 p), d, p_hmode (peer_at s3 p), p_ai (peer_at s3 p))).
  { destruct (_ || _); [left; now rewrite HS |]. right. destruct HS as [-> _]. now rewrite decide_True. }
  set (s4 := set_peerdstadr p d s3) in *. clearbody s4.
  destruct (clamp_polls _ _) as [mi ma].
  match goal with |- table_inv [p] ?x /\ _ => set (s5 := x) end.
  assert (K5 : keeps s4 s5) by
    (apply keeps_upd; [done |]; apply keeps_cast, keeps_upd; [done | apply keeps_refl]).
  clearbody s5. split; [now apply (keeps_inv _ s4) |].
  rewrite (k_restr _ _ K5), (k_list _ _ K5), (st_restr _ _ T), (st_list _ _ T).
  destruct (ident_fields _ _ (k_ident _ _ K5 p)) as (-> & -> & _ & -> & _).
  destruct E3 as [-> ->], P3 as (<- & <- & <-). split; [done |]. split; [done |].
  unfold ident in P4. destruct P4 as [P4 | P4]; injection P4; intros; auto.
Qed.

(** Demobilizing takes exactly that peer off the tables. *)
Lemma unpeer_inv p s :
  peer_inv s -> res_ok s -> p ∈ peer_list s ->
  exists s', unpeer p s = Some s' /\ peer_inv s' /\ peer_list s' = UNLINK p (peer_list s) /\ res_next s s'.
Proof.
  intros I R Hp. unfold unpeer.
  set (s1 := report_event _ _ s).
  assert (K1 : keeps s s1) by (apply keeps_report, keeps_refl). clearbody s1.
  pose proof (keeps_inv _ _ _ K1 I) as I1. rewrite <- (k_list _ _ K1) in *.
  destruct (source_ok s1 (p_srcadr (peer_at s1 p)) (current_time s1) true) as (r & Er & Nr);
    [unfold res_ok; now rewrite (k_restr _ _ K1) | now apply I1 |].
  unfold lift_res. rewrite Er. cbn [mbind option_bind].
  pose proof (table_restr [] s1 r I1) as I2. set (s2 := setter restr r s1) in *.
  pose proof (set_peerdstadr_inv [] p None s2 Hp I2) as I3.
  destruct (set_peerdstadr_spec p None s2) as [T HS].
  assert (D3 : p_dstadr (peer_at (set_peerdstadr p None s2) p) = None).
  { cbn [volley_blocked] in HS. rewrite orb_false_r in HS. case_bool_decide as E; [now rewrite HS |].
    destruct HS as [-> _]. now rewrite decide_True. }
  set (s3 := set_peerdstadr p None s2) in *.
  assert (L3 : peer_list s3 = peer_list s1 /\ restr s3 = r) by (split; [apply (st_list _ _ T) | apply (st_restr _ _ T)]).
  destruct L3 as [L3 R3]. clearbody s3.
  match goal with |- context [if has FLAG_REFCLOCK _ then refclock_unpeer p ?x else _] => set (s4 := x) end.
  assert (K4 : keeps s3 s4) by (unfold s4; destruct (has FLAG_PREEMPT _); now split). clearbody s4.
  match goal with |- context [if ?b then refclock_unpeer p s4 else s4] => set (s5 := if b then refclock_unpeer p s4 else s4) end.
  assert (K5 : keeps s3 s5).
  { unfold s5. destruct (has FLAG_REFCLOCK _); [| exact K4]. etransitivity; [exact K4 |]. apply refclock_unpeer_ok. }
  clearbody s5. pose proof (keeps_inv _ _ _ K5 I3) as I5.
  assert (Hp5 : p ∈ peer_list s5) by (rewrite (k_list _ _ K5), L3; done).
  eexists. split; [reflexivity |]. rewrite free_linked by done.
  assert (EL : peer_list s5 = peer_list s1) by (rewrite (k_list _ _ K5); exact L3).
  split; [| split; [now rewrite <- EL |]].
  2: { unfold res_next. change (restr (free_peer p false (unlinked p s5))) with (restr s5).
       rewrite (k_restr _ _ K5), R3. rewrite (k_restr _ _ K1) in Nr. exact Nr. }
  apply free_own_inv; [now apply unlinked_inv |]. change (p_dstadr (peer_at s5 p) = None).
  now destruct (ident_fields _ _ (k_ident _ _ K5 p)) as (_ & _ & -> & _).
Qed.

(** Arguments a caller may pass. *)
Definition args_ok (a : new_args) : Prop :=
  0 <= na_hmode a <= 6 /\ src_ok (na_srcadr a) /\
  (na_hostname a = None \/ has MDF_POOL (na_cast_flags a) = true).

(** The outcome of [newpeer]. *)
Definition mobilized (a : new_args) (s : state) (r : option Z) (s' : state) : Prop :=
  match r with
  | None => peer_list s' = peer_list s
  | Some p => peer_list s' = p :: peer_list s /\ ~ (p ∈ peer_list s) /\
              p_srcadr (peer_at s' p) = na_srcadr a /\ p_hmode (peer_at s' p) = na_hmode a /\
              p_associd (peer_at s' p) = current_association_ID s /\
              fst (findpeerbyassoc (p_associd (peer_at s' p)) s') = Some p
  end.

Lemma linked_mobilized p a s s5 s' :
  peer_inv s' -> keeps (link_peer p s5) (setter restr (restr (link_peer p s5)) s') ->
  peer_list s5 = peer_list s -> p_srcadr (peer_at s5 p) = na_srcadr a ->
  p_hmode (peer_at s5 p) = na_hmode a -> p_associd (peer_at s5 p) = current_association_ID s ->
  mobilized a s (Some p) s'.
Proof.
  intros I' K EL E1 E2 E3. destruct (ident_fields _ _ (k_ident _ _ K p)) as (G1 & G2 & _ & G4 & _).
  change (p_srcadr (peer_at s' p) = p_srcadr (peer_at s5 p)) in G1.
  change (p_associd (peer_at s' p) = p_associd (peer_at s5 p)) in G2.
  change (p_hmode (peer_at s' p) = p_hmode (peer_at s5 p)) in G4. cbn.
  pose proof (k_list _ _ K) as EL'. change (peer_list s' = p :: peer_list s5) in EL'. rewrite EL in EL'.
  split; [done |]. split.
  { pose proof (ti_nodup _ _ I') as Hn. cbn [app] in Hn. apply NoDup_app in Hn as (Hn & _). rewrite EL' in Hn.
    now apply NoDup_cons in Hn as [? _]. }
  split; [congruence |]. split; [congruence |]. split; [congruence |].
  pose proof (k_assoc _ _ K) as EA.
  change (assoc_hash s' = LINK_BUCKET (p_associd (peer_at s5 p) .& NTP_HASH_MASK) p (assoc_hash s5)) in EA.
  change (chain_find (fun q => p_associd (peer_at s' p) =? p_associd (peer_at s' q))
            (bucket (assoc_hash s') (p_associd (peer_at s' p) .& NTP_HASH_MASK)) = Some p).
  rewrite EA, G2. unfold LINK_BUCKET. rewrite bucket_insert_eq. cbn. now rewrite G2, Z.eqb_refl.
Qed.

(** The structure between the free list and the tables. *)
Definition owned (a : new_args) (s : state) (p : Z) (s' : state) : Prop :=
  table_inv [p] s' /\ restr s' = restr s /\ peer_list s' = peer_list s /\
  p_srcadr (peer_at s' p) = na_srcadr a /\ p_hmode (peer_at s' p) = na_hmode a /\
  p_associd (peer_at s' p) = current_association_ID s.

Lemma owned_keeps a s p s1 s2 : keeps s1 s2 -> owned a s p s1 -> owned a s p s2.
Proof.
  intros K (I & R & L & E1 & E2 & E3). destruct (ident_fields _ _ (k_ident _ _ K p)) as (F1 & F2 & _ & F4 & _).
  split_and!; [now apply (keeps_inv _ s1) | rewrite (k_restr _ _ K) | rewrite (k_list _ _ K) | | |]; congruence.
Qed.

Lemma start_peer_spec p a s :
  table_inv [p] s -> owned a s p (start_peer p a s).2.
Proof.
  intros I. unfold start_peer, ready_peer. pose proof (fill_peer_spec p a s I) as O. cbv zeta in O.
  set (s1 := fill_peer p a s) in *. clearbody s1.
  set (s2 := upd_peer p (fun r => r <| p_timereset := _ |> <| p_timereachable := _ |> <| p_timereceived := _ |>) _).
  assert (K2 : keeps s1 s2).
  { unfold s2. apply keeps_upd; [done |].
    destruct (nonzero _); [apply keeps_sv |]; apply keeps_clear, keeps_refl. }
  clearbody s2. destruct (ISREFCLOCKADR _); [| exact (owned_keeps _ _ _ _ _ K2 O)].
  set (s3 := if na_maxpoll a =? 0 then _ else s2).
  assert (K3 : keeps s1 s3) by (unfold s3; destruct (_ =? 0); [now apply keeps_upd | done]). clearbody s3.
  apply (owned_keeps _ _ _ s1); [| exact O]. etransitivity; [exact K3 |].
  apply refclock_newpeer_ok.
Qed.

Lemma finish_peer_spec p a s s1 :
  owned a s p s1 -> res_ok s -> args_ok a ->
  exists s', finish_peer p s1 = Some (Some p, s') /\ peer_inv s' /\ mobilized a s (Some p) s' /\ res_next s s'.
Proof.
  intros (I & R & L & E1 & E2 & E3) HR (Hm & Hs & _). unfold finish_peer.
  assert (IL : peer_inv (link_peer p s1)) by (apply link_peer_inv; congruence).
  set (s2 := link_peer p s1) in *.
  destruct (source_ok s2 (p_srcadr (peer_at s2 p)) (current_time s2) false) as (r & Er & Nr).
  { unfold res_ok. change (restr s2) with (restr s1). now rewrite R. }
  { change (peer_at s2 p) with (peer_at s1 p). now rewrite E1. }
  unfold lift_res. rewrite Er. cbn [mbind option_bind].
  pose proof (table_restr [] s2 r IL) as I3. set (s3 := setter restr r s2) in *.
  assert (K3 : keeps s3 (report_event PEVNT_MOBIL (Some p) s3))
    by (apply keeps_report, keeps_refl).
  set (s4 := report_event PEVNT_MOBIL (Some p) s3) in *.
  pose proof (keeps_inv _ _ _ K3 I3) as I4. exists s4. split; [reflexivity |]. split; [done |].
  split; [| unfold res_next; rewrite (k_restr _ _ K3); change (restr s2) with (restr s1) in Nr; now rewrite <- R].
  apply (linked_mobilized p a s s1); [done | | done ..]. destruct K3. now split.
Qed.

Lemma abandon_spec p a s s1 :
  owned a s p s1 ->
  peer_inv (free_peer p false (set_peerdstadr p None s1)) /\
  peer_list (free_peer p false (set_peerdstadr p None s1)) = peer_list s /\
  restr (free_peer p false (set_peerdstadr p None s1)) = restr s.
Proof.
  intros (I & R & L & _). destruct (set_peerdstadr_spec p None s1) as [T HS]. split; [| split].
  - apply free_own_inv; [apply set_peerdstadr_inv; [set_solver | done] |].
    cbn [volley_blocked] in HS. rewrite orb_false_r in HS. case_bool_decide as E; [now rewrite HS |].
    destruct HS as [-> _]. now rewrite decide_True.
  - change (peer_list (free_peer p false ?x)) with (peer_list x). now rewrite (st_list _ _ T).
  - change (restr (free_peer p false ?x)) with (restr x). now rewrite (st_restr _ _ T).
Qed.

(** A structure for the new association. *)
Lemma acquire_spec s :
  peer_inv s ->
  let s1 := if peer_free_count s =? 0 then getmorepeermem s else s in
  exists p free, peer_free s1 = p :: free /\ peer_inv s1 /\ restr s1 = restr s /\
    peer_list s1 = peer_list s /\ current_association_ID s1 = current_association_ID s.
Proof.
  intros I s1.
  assert (M : peer_inv s1 /\ peer_free s1 <> [] /\ restr s1 = restr s /\ peer_list s1 = peer_list s /\
              current_association_ID s1 = current_association_ID s).
  { unfold s1. destruct (Z.eqb_spec (peer_free_count s) 0) as [E | E].
    - destruct (getmorepeermem_inv [] s I) as (? & ? & ? & ? & _). split_and!; done.
    - split_and!; try done. intros Hn. apply E. now rewrite (ti_free _ _ I), Hn. }
  clearbody s1. destruct M as (I1 & Hne & Er & El & Eid).
  destruct (peer_free s1) as [|p free]; [done |]. eauto 10.
Qed.

Lemma newpeer_inv a s :
  peer_inv s -> res_ok s -> args_ok a ->
  exists r s', newpeer a s = Some (r, s') /\ peer_inv s' /\ mobilized a s r s' /\ res_next s s'.
Proof.
  intros I R A. pose proof A as (_ & _ & Hh). unfold newpeer.
  assert (bool_decide (na_hostname a <> None) && negb (has MDF_POOL (na_cast_flags a)) = false) as ->.
  { destruct Hh as [-> | ->]; [done | apply andb_false_r]. }
  destruct (find_duplicate_total a s I) as [dup ->]. cbn [mbind option_bind].
  destruct dup as [d|]; [exists None, s; split_and!; [done | done | done | split; [apply R | apply roomy_refl]] |].
  destruct (acquire_spec s I) as (p & free & Ef & I1 & Er & El & Eid). set (s1 := if _ =? 0 then _ else s) in *.
  rewrite Ef. pose proof (take_free_inv s1 p free I1 Ef) as I2. set (s2 := setter peer_free_count _ _) in *.
  pose proof (start_peer_spec p a s2 I2) as O. destruct (start_peer p a s2) as [ok s3]. cbn [snd] in O.
  assert (O' : owned a s p s3).
  { destruct O as (J & R3 & L3 & E1 & E2 & E3). split_and!; try done.
    - rewrite R3. exact Er.
    - rewrite L3. exact El.
    - rewrite E3. exact Eid. }
  destruct ok.
  - destruct (finish_peer_spec p a s s3 O' R A) as (s' & E & I' & M). eauto 6.
  - destruct (abandon_spec p a s s3 O') as (I' & L' & R').
    eexists _, _. split; [reflexivity |]. split; [exact I' |]. split; [exact L' |].
    split; rewrite R'; [apply R | apply roomy_refl].
Qed.

(** [findpeer] returns, keeps the tables, and reports the action of the
    association it matched. *)
Lemma set_peerdstadr_seen p d s q :
  let r := peer_at s q in let r' := peer_at (set_peerdstadr p d s) q in
  p_srcadr r' = p_srcadr r /\ p_hmode r' = p_hmode r /\ p_cast_flags r' = p_cast_flags r /\ pv r' = pv r.
Proof.
  destruct (set_peerdstadr_spec p d s) as [_ HS]. cbv zeta.
  destruct (_ || _); [now rewrite HS |]. destruct HS as [-> _]. case_decide; subst; done.
Qed.

(** The endpoint a peer is bound to afterwards. *)
Lemma set_peerdstadr_bound p d s :
  p_dstadr (peer_at (set_peerdstadr p d s) p) = d \/ volley_blocked s p d = true.
Proof.
  destruct (set_peerdstadr_spec p d s) as [_ HS]. case_bool_decide as E; cbn [orb] in HS; [rewrite HS; now left |].
  destruct (volley_blocked s p d); [now right | left]. destruct HS as [-> _]. now rewrite decide_True.
Qed.

(** The outcome by the tables at entry: the first association of the sender
    in its chain that is not indifferent to the mode decides, with an error
    or as the peer; with none, the row for an unknown sender does. *)
Definition decided (s : state) (rb : recvbuf) (mode : Z) (r : option Z) (a : Z) : Prop :=
  (exists p, p ∈ peer_list s /\
     decider s rb mode (bucket (peer_hash s) (NTP_HASH_ADDR (rb_srcadr rb))) p a /\
     r = if a =? AM_ERR then None else Some p) \/
  (r = None /\ MATCH_ASSOC NO_PEER mode = Some a /\
   forall p, p ∈ peer_list s -> from_sender s rb p ->
     MATCH_ASSOC (p_hmode (peer_at s p)) mode = Some AM_NOMATCH).

(** What the users of [findpeer] rely on. *)
Definition found (s : state) (rb : recvbuf) (mode : Z) (r : option Z) (a : Z) : Prop :=
  match r with
  | Some p => p ∈ peer_list s /\ ADDR_PORT_EQ (rb_srcadr rb) (p_srcadr (peer_at s p)) = true /\
              MATCH_ASSOC (p_hmode (peer_at s p)) mode = Some a /\ a <> AM_ERR /\ a <> AM_NOMATCH
  | None => a = AM_ERR \/
            (MATCH_ASSOC NO_PEER mode = Some a /\
             forall p, p ∈ peer_list s -> ADDR_PORT_EQ (rb_srcadr rb) (p_srcadr (peer_at s p)) = true ->
               MATCH_ASSOC (p_hmode (peer_at s p)) mode = Some AM_NOMATCH)
  end.

Lemma addr_port_hash a b : ADDR_PORT_EQ a b = true -> NTP_HASH_ADDR b = NTP_HASH_ADDR a.
Proof.
  unfold ADDR_PORT_EQ, SOCK_EQ. destruct (sa_port a =? sa_port b); [cbn [negb] | done].
  destruct (Z.eqb_spec (sa_family a) (sa_family b)) as [Ef|]; [cbn [negb] | done]. intros E.
  assert (Ea : sa_addr a = sa_addr b).
  { destruct (sa_family a =? AF_INET); [lia | apply andb_true_iff in E as [E _]; lia]. }
  unfold NTP_HASH_ADDR, sock_hash, IS_IPV4, IS_IPV6. now rewrite Ef, Ea.
Qed.

Lemma matched_found s rb mode r a :
  peer_inv s -> matched s rb mode (bucket (peer_hash s) (NTP_HASH_ADDR (rb_srcadr rb))) (r, Some a) ->
  found s rb mode r a.
Proof.
  intros I. destruct r as [p|]; cbn; [| intros ->; auto].
  intros (Hp & Hr). apply (ti_addr _ _ I) in Hp as [Hp _]. done.
Qed.

Lemma findpeer_inv rb mode s :
  peer_inv s -> 0 <= mode <= 6 ->
  exists r a s', findpeer rb mode s = Some (r, a, s') /\ peer_inv s' /\ peer_list s' = peer_list s /\
    found s' rb mode r a /\ decided s rb mode r a /\
    (forall p, r = Some p -> p_dstadr (peer_at s' p) = Some (rb_dstadr rb) \/
       volley_blocked s p (Some (rb_dstadr rb)) = true).
Proof.
  intros I Hm. unfold findpeer. change findpeer_rounds with 2%nat. cbn [findpeer_go].
  set (s1 := s .++ findpeer_calls). set (l := bucket (peer_hash s1) _).
  assert (I1 : peer_inv s1) by (apply (keeps_inv _ s); [now split | done]).
  assert (Hl : forall p, p ∈ l -> p ∈ peer_list s1) by (intros p Hp; now apply (ti_addr _ _ I1) in Hp).
  destruct (match_chain_spec s1 rb mode l Hm) as (r & Er & Hr); [intros p Hp; apply I1; auto |].
  pose proof (match_chain_decided s rb mode l r ltac:(now rewrite <- (match_chain_ext s s1))) as Hc.
  rewrite Er. cbn [mbind option_bind]. destruct r as [[p|] [a|]]; [| done | |].
  - pose proof (matched_found s1 rb mode (Some p) a I1 Hr) as F.
    assert (D : decided s rb mode (Some p) a).
    { left. exists p. destruct Hc as [Hd Hne]. split; [apply F |].
      split; [done |]. now rewrite (proj2 (Z.eqb_neq _ _) Hne). }
    case_bool_decide as Ed; [| exists (Some p), a, s1; do 5 (split; [done |]); intros ? [= <-]; left;
      destruct (decide (p_dstadr (peer_at s1 p) = Some (rb_dstadr rb))); [done | now destruct Ed]].
    pose proof (set_peerdstadr_inv [] p (Some (rb_dstadr rb)) s1 ltac:(apply Hl, Hr) I1) as I2.
    pose proof (set_peerdstadr_seen p (Some (rb_dstadr rb)) s1) as Hs.
    destruct (set_peerdstadr_spec p (Some (rb_dstadr rb)) s1) as [T _].
    pose proof (set_peerdstadr_bound p (Some (rb_dstadr rb)) s1) as Hb.
    set (s2 := set_peerdstadr p (Some (rb_dstadr rb)) s1) in *.
    assert (F2 : found s2 rb mode (Some p) a).
    { cbn in *. destruct (Hs p) as (-> & -> & _). now rewrite (st_list _ _ T). }
    pose proof (match_chain_ext s1 s2 rb mode l (st_list _ _ T) Hs) as Em.
    pose proof (st_list _ _ T) as L2. pose proof (st_hash _ _ T) as H2. clearbody s2.
    destruct (bool_decide (p_dstadr (peer_at s2 p) = Some (rb_dstadr rb))) eqn:Ed2;
      [apply bool_decide_eq_true in Ed2 | exists (Some p), a, s2; do 2 (split; [done |]); (split; [exact L2 |]); do 2 (split; [done |]); now intros ? [= <-]].
    set (s3 := s2 .++ findpeer_calls). assert (I3 : peer_inv s3) by (apply (keeps_inv _ s2); [now split | done]).
    change (peer_hash s3) with (peer_hash s2). rewrite H2. fold l.
    assert (Em3 : match_chain s3 rb mode l = Some (Some p, Some a)) by
      (rewrite (match_chain_ext s2 s3) by done; rewrite Em; exact Er).
    rewrite Em3. cbn [mbind option_bind]. change (peer_at s3 p) with (peer_at s2 p).
    rewrite bool_decide_false by (rewrite Ed2; auto). exists (Some p), a, s3.
    do 2 (split; [done |]). split; [exact L2 |]. split; [exact F2 |]. split; [exact D |]. intros ? [= <-]. now left.
  - exists None, a, s1. split_and!; try done; [now left |].
    destruct Hc as [-> (p & Hd)]. left. exists p. split; [| done].
    apply Hl. destruct Hd as (l1 & l2 & -> & _). set_solver.
  - destruct (match_assoc_total NO_PEER mode) as [a Ea]; [done | done |]. rewrite Ea. cbn [mbind option_bind].
    assert (Hno : forall p, p ∈ peer_list s1 -> ADDR_PORT_EQ (rb_srcadr rb) (p_srcadr (peer_at s1 p)) = true ->
      MATCH_ASSOC (p_hmode (peer_at s1 p)) mode = Some AM_NOMATCH).
    { intros p Hp Hadr. apply Hr; [| done]. apply (ti_addr _ _ I1). split; [done |]. now apply addr_port_hash. }
    exists None, a, s1. split_and!; try done; right; done.
Qed.

(** ** Rebinding every peer *)

Lemma refresh_inv p s :
  peer_inv s -> p ∈ peer_list s ->
  peer_inv (peer_refresh_interface p s) /\ peer_list (peer_refresh_interface p s) = peer_list s.
Proof.
  intros I Hp. unfold peer_refresh_interface. set (d := select_peerinterface _ _ _ s).
  pose proof (set_peerdstadr_inv [] p d s Hp I) as I1. destruct (set_peerdstadr_spec p d s) as [T _].
  set (s1 := set_peerdstadr p d s) in *. pose proof (st_list _ _ T) as L. clearbody s1.
  case_bool_decide; [done |].
  match goal with |- context [if ?b then peer_clear p XFAC s1 else s1] =>
    set (s2 := if b then peer_clear p XFAC s1 else s1) end.
  assert (K : keeps s1 (enable_cast p (p_srcadr (peer_at s2 p)) s2)).
  { apply keeps_cast. unfold s2. case_match; [apply keeps_clear, keeps_refl | apply keeps_refl]. }
  split; [now apply (keeps_inv _ s1) | now rewrite (k_list _ _ K)].
Qed.

Lemma refresh_all_inv s :
  peer_inv s -> peer_inv (refresh_all_peerinterfaces s) /\ peer_list (refresh_all_peerinterfaces s) = peer_list s.
Proof.
  intros I. unfold refresh_all_peerinterfaces.
  assert (G : forall l s1, peer_inv s1 -> (forall p, p ∈ l -> p ∈ peer_list s1) ->
    let s2 := fold_left (fun s p => peer_refresh_interface p s) l s1 in peer_inv s2 /\ peer_list s2 = peer_list s1).
  { induction l as [|p l IH]; intros s1 I1 Hl; cbn [fold_left]; [done |].
    destruct (refresh_inv p s1 I1 ltac:(apply Hl; set_solver)) as [I2 L2].
    destruct (IH _ I2) as [I3 L3]; [intros q Hq; rewrite L2; apply Hl; set_solver |].
    split; [done |]. cbn in L3. now rewrite L3, L2. }
  now apply G.
Qed.

(** ** The theorems *)

(** An entry point of the peer module. *)
Inductive peer_op :=
| New (a : new_args)
| Unpeer (p : Z)
| Find (rb : recvbuf) (mode : Z)
| Rebind (p : Z) (dstadr : option Z)
| Refresh
| Clear (p ident : Z).

Definition run_peer (op : peer_op) (s : state) : option state :=
  match op with
  | New a => snd <$> newpeer a s
  | Unpeer p => unpeer p s
  | Find rb mode => snd <$> findpeer rb mode s
  | Rebind p d => Some (set_peerdstadr p d s)
  | Refresh => Some (refresh_all_peerinterfaces s)
  | Clear p id => Some (peer_clear p id s)
  end.

Definition peer_op_ok (op : peer_op) (s : state) : Prop :=
  match op with
  | New a => args_ok a /\ res_ok s
  | Unpeer p => p ∈ peer_list s /\ res_ok s
  | Find _ mode => 0 <= mode <= 6
  | Rebind p _ | Clear p _ => p ∈ peer_list s
  | Refresh => True
  end.

(** C2: every operation of the peer module returns and keeps its tables
    consistent: the list of peers, the address and association hash tables
    with their bucket counts, the free list of zeroed structures with its
    count, and the list and count of the peers of every local endpoint. *)
Theorem peer_table_invariant (op : peer_op) (s : state) :
  peer_inv s -> peer_op_ok op s -> exists s', run_peer op s = Some s' /\ peer_inv s'.
Proof.
  intros I Hok. destruct op as [a | p | rb mode | p d | | p id]; cbn [run_peer peer_op_ok] in *.
  - destruct Hok as [A R]. destruct (newpeer_inv a s I R A) as (r & s' & -> & I' & _). eauto.
  - destruct Hok as [Hp R]. destruct (unpeer_inv p s I R Hp) as (s' & -> & I' & _). eauto.
  - destruct (findpeer_inv rb mode s I Hok) as (r & a & s' & -> & I' & _). eauto.
  - eauto using set_peerdstadr_inv.
  - eexists. split; [done |]. now apply refresh_all_inv.
  - eexists. split; [done |]. apply (keeps_inv _ s); [| done].
    apply keeps_clear, keeps_refl.
Qed.

(** C19: [findpeer] gives every datagram its association.  It returns and
    leaves the list of peers as it was.  Of the associations in the hash
    chain of the sender's address the first that has the sender's address
    and port and whose entry in the association table for the two modes is
    not "no match" decides: with the action error there is no peer, with any
    other action that association is the peer.  The action is the entry of
    the table, except that a redundant reply to a manycast solicitation is
    an error.  When the modes match for no association of the whole list
    with that sender, there is no peer and the action is the one the table
    has for an unknown sender.  A peer that is returned is bound to the
    endpoint the datagram arrived on, unless it is the unicast part of a
    broadcast volley and the endpoint is multicast only. *)
Theorem findpeer_correct (rb : recvbuf) (mode : Z) (s : state) :
  peer_inv s -> 0 <= mode <= 6 ->
  exists r a s', findpeer rb mode s = Some (r, a, s') /\ peer_list s' = peer_list s /\
    decided s rb mode r a /\
    (forall p, r = Some p -> p_dstadr (peer_at s' p) = Some (rb_dstadr rb) \/
       volley_blocked s p (Some (rb_dstadr rb)) = true).
Proof.
  intros I Hm. destruct (findpeer_inv rb mode s I Hm) as (r & a & s' & E & _ & L & _ & D). eauto 7.
Qed.

(** [newpeer] refuses exactly the duplicates.  With no host name, it
    returns without an association and without any change when some peer
    has the same remote address and mode on the same endpoint; when it does
    mobilize one, there was none, the new peer is the only addition to the
    list, has the requested address and mode, and is the one its
    association identifier finds. *)
Theorem newpeer_unique (a : new_args) (s : state) :
  peer_inv s -> res_ok s -> args_ok a -> na_hostname a = None ->
  exists r s', newpeer a s = Some (r, s') /\ mobilized a s r s' /\
    ((exists q, q ∈ peer_list s /\ duplicate a s q = true) -> r = None /\ s' = s) /\
    (forall p, r = Some p -> forall q, q ∈ peer_list s -> duplicate a s q = false).
Proof.
  intros I R A Hh. destruct (newpeer_inv a s I R A) as (r & s' & E & _ & M & _).
  exists r, s'. split; [done |]. split; [done |].
  assert (Hb : forall q, q ∈ peer_list s -> duplicate a s q = true ->
             q ∈ bucket (peer_hash s) (NTP_HASH_ADDR (na_srcadr a))).
  { intros q Hq Hd. apply (ti_addr _ _ I). split; [done |]. unfold duplicate, same_assoc in Hd.
    apply andb_true_iff in Hd as [Hd _]. apply andb_true_iff in Hd as [_ Hd]. now apply addr_port_hash. }
  unfold newpeer in E. rewrite Hh in E. cbn [bool_decide andb] in E.
  rewrite (find_duplicate_addr a s I Hh) in E. cbn [mbind option_bind] in E.
  destruct (chain_find _ _) as [d|] eqn:Ec.
  - injection E as <- <-. split; [done | discriminate].
  - rewrite chain_find_None in Ec. split.
    + intros (q & Hq & Hd). rewrite Ec in Hd by auto. done.
    + intros p _ q Hq. destruct (duplicate a s q) eqn:Hd; [| done]. rewrite Ec in Hd by auto. done.
Qed.
End Operations.

(** ** Closed instances *)

#[export] Instance sample_laws : @EnvLaws sample_env.
Proof.
  split; try (intros; split; reflexivity); [| intros; split; [apply keeps_refl | done]].
  apply Forall_cons. split; [| apply Forall_singleton].
  all: split; intros *; try discriminate; intros [= <-]; first [apply keeps_refl | split; [apply keeps_refl | now split]].
Qed.

Lemma singleton_indexed hash k : hash 1 = k -> indexed hash [1] {[k := [1]]}.
Proof.
  intros Hk h. unfold bucket. destruct (decide (k = h)) as [<- | Hne].
  - rewrite lookup_singleton_eq. cbn. split; [repeat constructor; set_solver |].
    intros p. rewrite list_elem_of_singleton. naive_solver.
  - rewrite lookup_singleton_ne by done. cbn. split; [constructor |]. intros p. split; [set_solver |].
    intros [Hp ?]. apply list_elem_of_singleton in Hp as ->. congruence.
Qed.

Lemma singleton_counted k : counted {[k := [1]]} {[k := 1]}.
Proof.
  intros h. unfold count_at, bucket. destruct (decide (k = h)) as [<- | Hne].
  - now rewrite !lookup_singleton_eq.
  - now rewrite !lookup_singleton_ne.
Qed.

Lemma sample_inv : peer_inv sample_state.
Proof.
  split; try (apply singleton_counted); try (apply singleton_indexed; vm_compute; reflexivity).
  - apply (bool_decide_unpack _). vm_compute. exact I.
  - intros p Hp. change (p ∈ [1]) in Hp. apply list_elem_of_singleton in Hp as ->. done.
  - reflexivity.
  - intros p Hp. change (p ∈ @nil Z) in Hp. set_solver.
  - intros p Hp. change (p ∈ [1]) in Hp. apply list_elem_of_singleton in Hp as ->.
    split; [vm_compute; split; discriminate | right; vm_compute; split; [reflexivity | discriminate]].
  - intros e. change (endpt_at sample_state e) with (default zero_endpt ((({[1 := sample_endpt]} : gmap Z endpt)) !! e)).
    destruct (decide (e = 1)) as [-> | Hne].
    + rewrite lookup_singleton_eq. cbn. split; [repeat constructor; set_solver |]. split; [done |].
      intros p. split; [| tauto]. intros Hp. split; [done |]. apply list_elem_of_singleton in Hp as ->. done.
    + rewrite lookup_singleton_ne by done. cbn. split; [constructor |]. split; [done |].
      intros p. split; [set_solver |]. intros [Hp Hd]. exfalso. apply list_elem_of_singleton in Hp as ->.
      vm_compute in Hd. congruence.
  - split; [exact sample_store_inv | left; reflexivity].
  - intros p. change (peer_at sample_state p) with (default zero_peer ((({[1 := sample_peer]} : gmap Z peer)) !! p)).
    destruct (decide (p = 1)) as [-> | Hne]; [rewrite lookup_singleton_eq | rewrite lookup_singleton_ne by done]; constructor.
Qed.

Lemma sample_res_ok : res_ok sample_state.
Proof. split; [exact res0_inv |]. split; vm_compute; discriminate. Qed.

(** A symmetric association with 10.0.0.2, and a local clock. *)
Definition sample_args (addr : Z) : new_args :=
  mk_args (v4 addr) None None MODE_ACTIVE 4 6 10 FLAG_CONFIG MDF_UCAST 0 0.

Lemma sample_args_ok addr : 0 <= addr -> args_ok (sample_args addr).
Proof. intros Ha. split; [vm_compute; split; discriminate |]. split; [right; split; [done | exact Ha] | auto]. Qed.

Definition sample_rb : recvbuf :=
  mk_recvbuf (v4 0x0a000001) 1 3 (mk_lfp 0 0) 48 (0x24 :: replicate 47 0).

Lemma peer_table_invariant_witness :
  exists s', @run_peer sample_env (Unpeer 1) sample_state = Some s' /\ peer_inv s'.
Proof.
  apply peer_table_invariant; [exact sample_inv | split; [| exact sample_res_ok]].
  change (1 ∈ [1]). set_solver.
Defined.

Lemma findpeer_correct_witness :
  exists r a s', findpeer sample_rb MODE_SERVER sample_state = Some (r, a, s') /\
    peer_list s' = [1] /\ decided sample_state sample_rb MODE_SERVER r a /\ r = Some 1.
Proof.
  destruct (@findpeer_correct sample_env sample_laws sample_rb MODE_SERVER sample_state sample_inv) as (r & a & s' & E & L & D & _);
    [vm_compute; split; discriminate |].
  exists r, a, s'. split; [exact E |]. split; [exact L |]. split; [exact D |].
  assert (E1 : (fun x => x.1.1) <$> findpeer sample_rb MODE_SERVER sample_state = Some (Some 1)) by (vm_compute; reflexivity).
  rewrite E in E1. now injection E1.
Defined.

Lemma newpeer_unique_witness :
  exists r s', @newpeer sample_env (sample_args 0x0a000002) sample_state = Some (r, s') /\
    mobilized (sample_args 0x0a000002) sample_state r s'.
Proof.
  destruct (@newpeer_unique sample_env _ (sample_args 0x0a000002) sample_state sample_inv sample_res_ok
              (sample_args_ok 0x0a000002 ltac:(lia)) eq_refl) as (r & s' & E & M & _). eauto.
Defined.

(** ** Two flaws *)

(** The sample environment with a reference clock driver that fails. *)
Definition failing_env : Env := {|
  env_digest := @env_digest sample_env;
  findinterface := @findinterface sample_env;
  findbcastinter := @findbcastinter sample_env;
  any_interface := @any_interface sample_env;
  loopback_interface := @loopback_interface sample_env;
  enable_broadcast := @enable_broadcast sample_env;
  enable_multicast_if := @enable_multicast_if sample_env;
  next_random := @next_random sample_env;
  read_clock := @read_clock sample_env;
  unix_time := @unix_time sample_env;
  step_clock := @step_clock sample_env;
  slew_clock := @slew_clock sample_env;
  refclock_conf := [mk_refclock None None None None None; mk_refclock (Some (fun _ _ s => (false, s))) None None None None];
  clock_action := @clock_action sample_env;
  process_private := @process_private sample_env;
  process_control := @process_control sample_env |}.

(** A reference clock that cannot be started is still counted: [newpeer]
    returns no association and links none, but [peer_associations] stays
    incremented, and so does [peer_preempt] for a preemptible one. *)
Theorem newpeer_refclock_leak :
  match @newpeer failing_env (mk_args (v4 0x7f7f0100) None None MODE_CLIENT 4 6 10
                                (FLAG_CONFIG .| FLAG_PREEMPT) MDF_UCAST 0 0) sample_state with
  | Some (None, s') =>
      peer_list s' = peer_list sample_state /\
      peer_associations s' = peer_associations sample_state + 1 /\
      peer_preempt s' = peer_preempt sample_state + 1
  | _ => False
  end.
Proof. vm_compute. auto. Qed.

(** Association identifiers wrap without a check: when the counter comes
    round to the identifier of a live association, [newpeer] gives it out
    again, and from then on a lookup by identifier no longer reaches the
    older association. *)
Theorem newpeer_reuses_associd :
  let s := sample_state <| current_association_ID := 1 |> in
  match @newpeer sample_env (sample_args 0x0a000002) s with
  | Some (Some p, s') =>
      p <> 1 /\ 1 ∈ peer_list s' /\ p_associd (peer_at s' 1) = p_associd (peer_at s' p) /\
      fst (findpeerbyassoc (p_associd (peer_at s' 1)) s') = Some p
  | _ => False
  end.
Proof. vm_compute. split; [discriminate |]. split; [right; left |]. split; reflexivity. Qed.
