(* ===== verification/FreshFacts.v ===== *)
(** * Mobilizing: a new association starts without timestamps *)

From S2P Require Import Prelude FixedPoint Calendar Double Lists NtpTypes AuthKeys AuthFacts Monitor Restrict RestrictFacts State ProtoBase Refclock Peer PeerFacts.
From stdpp Require Import base gmap list.
#[local] Open Scope Z_scope.

(** No packet was sent or received. *)
Definition unstamped (v : peer_vars) : Prop := p_xmt v = lzero /\ p_aorg v = lzero /\ p_flip v = 0.

Section Fresh.
Context `{Env}.

Lemma dst_flags p d s : p_flags (peer_at (set_peerdstadr p d s) p) = p_flags (peer_at s p).
Proof.
  destruct (set_peerdstadr_spec p d s) as [_ HS]. destruct (_ || _); [now rewrite HS |].
  destruct HS as [-> _]. now rewrite decide_True.
Qed.

Lemma flags_upd p f s :
  (forall r, p_flags (f r) = p_flags r) -> p_flags (peer_at (upd_peer p f s) p) = p_flags (peer_at s p).
Proof. intros Hf. rewrite peer_at_upd, decide_True by done. apply Hf. Qed.

Lemma cast_flags p x s : p_flags (peer_at (enable_cast p x s) p) = p_flags (peer_at s p).
Proof. unfold enable_cast. repeat case_match; done. Qed.

Lemma set_flags_of p f fl s : (forall r, p_flags (f r) = fl) -> p_flags (peer_at (upd_peer p f s) p) = fl.
Proof. intros Hf. rewrite peer_at_upd, decide_True by done. apply Hf. Qed.

Lemma fill_flags p a s : p_flags (peer_at (fill_peer p a s) p) = na_flags a.
Proof.
  unfold fill_peer. destruct (clamp_polls _ _) as [mi ma].
  match goal with |- context [setter current_association_ID ?v ?x] => generalize (setter current_association_ID v x) end.
  intros s1. rewrite flags_upd by (intros r; reflexivity). rewrite cast_flags, flags_upd by (intros r; reflexivity).
  rewrite dst_flags. apply set_flags_of. intros r. reflexivity.
Qed.

Lemma unstamped_upd p f s :
  (forall r, unstamped (pv r) -> unstamped (pv (f r))) -> unstamped (pv (peer_at s p)) -> unstamped (pv (peer_at (upd_peer p f s) p)).
Proof. intros Hf F. rewrite peer_at_upd, decide_True by done. auto. Qed.

Lemma clear_fresh p id s :
  has (p_flags (peer_at s p)) FLAG_XLEAVE = false -> unstamped (pv (peer_at (peer_clear p id s) p)).
Proof.
  intros Hx. unfold peer_clear. set (s1 := upd_peer p (fun r => r <| pv := zero_vars |>) s).
  assert (F1 : unstamped (pv (peer_at s1 p)) /\ p_flags (peer_at s1 p) = p_flags (peer_at s p))
    by (unfold s1; now rewrite peer_at_upd, decide_True).
  clearbody s1. set (s2 := upd_peer p _ s1).
  assert (F2 : unstamped (pv (peer_at s2 p)) /\ p_flags (peer_at s2 p) = p_flags (peer_at s p))
    by (unfold s2; rewrite peer_at_upd, decide_True by done; exact F1).
  clearbody s2. assert (F3 : unstamped (pv (peer_at (peer_unfit p s2).2 p)) /\ p_flags (peer_at (peer_unfit p s2).2 p) = p_flags (peer_at s p)).
  { unfold peer_unfit. cbn [snd]. rewrite peer_at_upd, decide_True by done. exact F2. }
  destruct (peer_unfit p s2) as [u s3]. cbn [snd] in F3. set (s4 := upd_peer p _ s3).
  assert (F4 : unstamped (pv (peer_at s4 p)) /\ p_flags (peer_at s4 p) = p_flags (peer_at s p))
    by (unfold s4; rewrite peer_at_upd, decide_True by done; exact F3).
  clearbody s4. destruct F4 as [F4 E4]. rewrite E4, Hx.
  set (s5 := upd_peer p (fun r => r <| p_nextdate := _ |> <| p_update := _ |> <| p_outdate := _ |>) _).
  assert (F5 : unstamped (pv (peer_at s5 p))).
  { unfold s5. apply unstamped_upd; [done |]. case_match; [apply unstamped_upd; [done |] |]; now apply unstamped_upd. }
  clearbody s5. destruct (nonzero _); [now apply unstamped_upd |]. destruct (_ =? _); [now apply unstamped_upd |].
  assert (F6 : unstamped (pv (peer_at (ntp_random s5).2 p))) by (unfold ntp_random; now destruct (next_random _)).
  destruct (ntp_random s5) as [x s6]. now apply unstamped_upd.
Qed.

Lemma fill_srcadr p a s : p_srcadr (peer_at (fill_peer p a s) p) = na_srcadr a.
Proof.
  unfold fill_peer. destruct (clamp_polls _ _) as [mi ma].
  match goal with |- context [setter current_association_ID ?v ?x] => generalize (setter current_association_ID v x) end.
  assert (U : forall f s, (forall r, p_srcadr (f r) = p_srcadr r) -> p_srcadr (peer_at (upd_peer p f s) p) = p_srcadr (peer_at s p))
    by (intros f s0 Hf; rewrite peer_at_upd, decide_True by done; apply Hf).
  assert (C : forall x s, p_srcadr (peer_at (enable_cast p x s) p) = p_srcadr (peer_at s p))
    by (intros; unfold enable_cast; repeat case_match; done).
  intros s1. rewrite U by (intros r; reflexivity). rewrite C, U by (intros r; reflexivity).
  match goal with |- context [set_peerdstadr p ?d ?y] => destruct (set_peerdstadr_seen p d y p) as (-> & _) end.
  rewrite peer_at_upd, decide_True by done. reflexivity.
Qed.

Lemma fill_cf p a s : cf (fill_peer p a s) = cf s.
Proof.
  unfold fill_peer. destruct (clamp_polls _ _) as [mi ma].
  set (s0 := if has FLAG_PREEMPT _ then _ else _). assert (E0 : cf s0 = cf s) by (unfold s0; case_match; done). clearbody s0.
  set (s1 := setter current_association_ID _ _). assert (E1 : cf s1 = cf s) by exact E0. clearbody s1.
  assert (C : forall x y, cf (enable_cast p x y) = cf y) by (intros; unfold enable_cast; repeat case_match; done).
  etransitivity; [apply C |].
  match goal with |- context [set_peerdstadr p ?d ?y] => destruct (set_peerdstadr_spec p d y) as [T _] end.
  etransitivity; [exact (st_cf _ _ T) | exact E1].
Qed.

Lemma cf_upd p f s : cf (upd_peer p f s) = cf s.
Proof. reflexivity. Qed.

Lemma srcadr_upd p f s :
  (forall r, p_srcadr (f r) = p_srcadr r) -> p_srcadr (peer_at (upd_peer p f s) p) = p_srcadr (peer_at s p).
Proof. intros Hf. rewrite peer_at_upd, decide_True by done. apply Hf. Qed.

Lemma cf_unfit p s : cf (peer_unfit p s).2 = cf s.
Proof. unfold peer_unfit. cbn [snd]. apply cf_upd. Qed.

Lemma cf_random s : cf (ntp_random s).2 = cf s.
Proof. unfold ntp_random. now destruct (next_random _). Qed.

Lemma clear_cf p id s : cf (peer_clear p id s) = cf s.
Proof.
  unfold peer_clear. set (s1 := upd_peer p (fun r => r <| pv := zero_vars |>) s).
  assert (E1 : cf s1 = cf s) by apply cf_upd. clearbody s1.
  set (s2 := upd_peer p _ s1). assert (E2 : cf s2 = cf s) by (unfold s2; now rewrite cf_upd). clearbody s2.
  pose proof (cf_unfit p s2) as E3. destruct (peer_unfit p s2) as [u s3]. cbn [snd] in E3. rewrite E2 in E3.
  set (s4 := upd_peer p _ s3). assert (E4 : cf s4 = cf s) by (unfold s4; now rewrite cf_upd). clearbody s4.
  set (s5 := if has _ FLAG_XLEAVE then _ else s4).
  assert (E5 : cf s5 = cf s) by (unfold s5; case_match; rewrite ?cf_upd; exact E4). clearbody s5.
  set (s6 := upd_peer p _ s5). assert (E6 : cf s6 = cf s) by (unfold s6; now rewrite cf_upd). clearbody s6.
  set (s7 := if negb _ then _ else s6). assert (E7 : cf s7 = cf s) by (unfold s7; case_match; rewrite ?cf_upd; exact E6). clearbody s7.
  set (s8 := upd_peer p _ s7). assert (E8 : cf s8 = cf s) by (unfold s8; now rewrite cf_upd). clearbody s8.
  pose proof (cf_random s8) as E9. destruct (ntp_random s8) as [x s9]. cbn [snd] in E9.
  repeat case_match; rewrite ?cf_upd; congruence.
Qed.
End Fresh.

Section NewPeer.
Context `{EnvLaws}.

Lemma clear_srcadr p id s : p_srcadr (peer_at (peer_clear p id s) p) = p_srcadr (peer_at s p).
Proof. exact (proj1 (ident_fields _ _ (k_ident _ _ (keeps_clear p id s s (keeps_refl s)) p))). Qed.

Lemma start_clear p a s s2 : s2 = peer_clear p (clear_ident (na_cast_flags a)) (fill_peer p a s) ->
  has (na_flags a) FLAG_XLEAVE = false ->
  unstamped (pv (peer_at s2 p)) /\ p_srcadr (peer_at s2 p) = na_srcadr a /\ cf s2 = cf s.
Proof.
  intros -> Hx. rewrite clear_srcadr, clear_cf, fill_srcadr, fill_cf. split; [| done]. apply clear_fresh. now rewrite fill_flags.
Qed.

Lemma sv_fresh p v s b :
  unstamped (pv (peer_at s p)) /\ p_srcadr (peer_at s p) = na_srcadr b ->
  unstamped (pv (peer_at (s <| sv := v |>) p)) /\ p_srcadr (peer_at (s <| sv := v |>) p) = na_srcadr b.
Proof. change (peer_at (s <| sv := v |>) p) with (peer_at s p). done. Qed.

Lemma ready_fresh p a s :
  has (na_flags a) FLAG_XLEAVE = false ->
  unstamped (pv (peer_at (ready_peer p a s) p)) /\ p_srcadr (peer_at (ready_peer p a s) p) = na_srcadr a /\ cf (ready_peer p a s) = cf s.
Proof.
  intros Hx. unfold ready_peer. pose proof (start_clear p a s _ eq_refl Hx) as F2.
  set (s2 := peer_clear p _ _) in *. clearbody s2. set (s3 := if nonzero _ then _ else s2).
  destruct F2 as (F2 & S2 & C2).
  assert (F3 : unstamped (pv (peer_at s3 p)) /\ p_srcadr (peer_at s3 p) = na_srcadr a)
    by (unfold s3; destruct (nonzero _); [now apply sv_fresh | done]).
  assert (C3 : cf s3 = cf s) by (unfold s3; destruct (nonzero _); exact C2).
  clearbody s3. rewrite srcadr_upd, cf_upd by (intros r; reflexivity). destruct F3 as [F3 E3]. split; [now apply unstamped_upd | done].
Qed.

Lemma start_fresh p a s :
  ISREFCLOCKADR (na_srcadr a) = false -> has (na_flags a) FLAG_XLEAVE = false ->
  unstamped (pv (peer_at (start_peer p a s).2 p)) /\ cf (start_peer p a s).2 = cf s.
Proof.
  intros Hc Hx. destruct (ready_fresh p a s Hx) as (F & S & C). unfold start_peer.
  set (s1 := ready_peer p a s) in *. clearbody s1. rewrite S, Hc. split; [exact F | exact C].
Qed.

Lemma report_fresh err p s :
  unstamped (pv (peer_at s p)) -> unstamped (pv (peer_at (report_event err (Some p) s) p)) /\ cf (report_event err (Some p) s) = cf s.
Proof.
  intros F. unfold report_event. set (z := if _ =? _ then _ else s).
  assert (Fz : unstamped (pv (peer_at z p)) /\ cf z = cf s) by (unfold z; case_match; [split; [now apply unstamped_upd | done] | done]).
  clearbody z. destruct Fz as [Fz Cz]. case_match; [done |]. split; [| exact Cz].
  unfold emit. change (peer_at (setter out ?v ?x) p) with (peer_at x p). now apply unstamped_upd.
Qed.

Lemma finish_fresh p s r s' :
  finish_peer p s = Some (Some r, s') -> unstamped (pv (peer_at s p)) -> p = r /\ unstamped (pv (peer_at s' p)) /\ cf s' = cf s.
Proof.
  unfold finish_peer. intros E F. apply bind_Some in E as (s3 & Er & E).
  pose proof (f_equal (fun o : option (option Z * state) => match o with Some (Some q, _) => q | _ => p end) E) as X1.
  pose proof (f_equal (fun o : option (option Z * state) => match o with Some (_, y) => y | None => s3 end) E) as X2.
  cbv beta iota in X1, X2. subst r s'. clear E.
  unfold lift_res in Er. destruct (restrict_source _ _ _ _ _) as [rs|]; [| discriminate Er].
  assert (X : unstamped (pv (peer_at s3 p)) /\ cf s3 = cf s).
  { assert (Y : setter restr rs (link_peer p s) = s3) by (apply Some_inj; exact Er). rewrite <- Y. split; [exact F | reflexivity]. }
  clear Er. destruct X as [F3 C3]. destruct (report_fresh PEVNT_MOBIL p s3 F3) as [A B]. split; [done |]. split; [exact A | congruence].
Qed.

Lemma newpeer_fresh a s p s' :
  newpeer a s = Some (Some p, s') -> ISREFCLOCKADR (na_srcadr a) = false -> has (na_flags a) FLAG_XLEAVE = false ->
  unstamped (pv (peer_at s' p)) /\ cf s' = cf s.
Proof.
  intros E Hc Hx. unfold newpeer in E. destruct (_ && _); [discriminate E |].
  apply bind_Some in E as (dup & _ & E). destruct dup as [d|]; [discriminate E |].
  set (s1 := if _ =? 0 then _ else s) in E. assert (E1 : cf s1 = cf s) by (unfold s1; destruct (_ =? 0); reflexivity). clearbody s1.
  destruct (peer_free s1) as [|q free]; [done |]. set (s2 := setter peer_free_count _ _) in E.
  assert (E2 : cf s2 = cf s) by exact E1. clearbody s2.
  destruct (start_fresh q a s2 Hc Hx) as [F3 C3]. destruct (start_peer q a s2) as [ok s3]. cbn [snd] in F3, C3.
  destruct ok; [| discriminate E]. destruct (finish_fresh _ _ _ _ E F3) as (-> & F & C). split; [exact F | congruence].
Qed.
End NewPeer.
