(* ===== verification/Select.v ===== *)
(** * Clock selection: [clock_select], [clock_combine], [clock_update] of
      ntpd/ntp_proto.c

    The procedure is cut at its own section comments: admission of
    candidates, sorting of the interval endpoints, the intersection scan,
    the falseticker cull, the cluster loop, the choice of the system peer
    and the mitigation rules. *)

From S2P Require Import Prelude FixedPoint Calendar Double Lists NtpTypes AuthKeys Monitor Restrict State ProtoBase LoopFilter.
From stdpp Require Import base gmap list.
#[local] Open Scope Z_scope.

(** ** Data *)

(** [struct endpoint]: an end of a correctness interval; type -1 is the
    lower end, 1 the upper. *)
Record endpoint := mk_endpoint { en_type : Z; en_val : double }.

(** [peer_select]: an entry of the survivor list. *)
Record peer_select := mk_select {
  ps_peer : Z; ps_synch : double; ps_error : double; ps_seljit : double }.
#[export] Instance eta_peer_select : Eta peer_select := fun r =>
  mk_select (ps_peer r) (ps_synch r) (ps_error r) (ps_seljit r).

Definition zero_endpoint : endpoint := mk_endpoint 0 dzero.
Definition zero_select : peer_select := mk_select 0 dzero dzero dzero.

(** ** Sorting the endpoints *)

(** [endpoint[indx[i]].val] *)
Definition val_at (ep : list endpoint) (indx : list nat) (i : nat) : double :=
  en_val (nth (nth i indx 0%nat) ep zero_endpoint).

(** The inner loop: position of the least value from [j] on. *)
Fixpoint find_least (ep : list endpoint) (indx : list nat) (fuel j : nat) (e : double) (k : nat) : nat :=
  match fuel with
  | O => k
  | S fuel =>
      if val_at ep indx j <d e then find_least ep indx fuel (S j) (val_at ep indx j) j
      else find_least ep indx fuel (S j) e k
  end.

Definition swap (i k : nat) (l : list nat) : list nat :=
  <[i := nth k l 0%nat]> (<[k := nth i l 0%nat]> l).

Fixpoint select_sort (ep : list endpoint) (fuel i : nat) (indx : list nat) : list nat :=
  match fuel with
  | O => indx
  | S fuel =>
      let k := find_least ep indx fuel (S i) (val_at ep indx i) i in
      let indx := if (k =? i)%nat then indx else swap i k indx in
      select_sort ep fuel (S i) indx
  end.

(** [indx[]] after sorting, and the endpoints in that order. *)
Definition sort_indx (ep : list endpoint) : list nat :=
  select_sort ep (length ep) 0 (seq 0 (length ep)).
Definition sorted_endpoints (ep : list endpoint) : list endpoint :=
  map (fun i => nth i ep zero_endpoint) (sort_indx ep).

(** ** The intersection scan *)

(** Upward scan: stop at the endpoint where [need] intervals are open. *)
Fixpoint scan_low (l : list endpoint) (need n : Z) (low : double) : double :=
  match l with
  | [] => low
  | e :: l => let n := n - en_type e in
              if need <=? n then en_val e else scan_low l need n (en_val e)
  end.

(** Downward scan, over the reversed list. *)
Fixpoint scan_high (l : list endpoint) (need n : Z) (high : double) : double :=
  match l with
  | [] => high
  | e :: l => let n := n + en_type e in
              if need <=? n then en_val e else scan_high l need n (en_val e)
  end.

Definition BIG : double := dofZ (10 ^ 9).
Definition NEGBIG : double := dneg BIG.

(** [for (allow = 0; 2 * allow < nlist; allow++)]; returns [allow], [low]
    and [high] at the exit.  The loop ends within [nlist] rounds. *)
Fixpoint intersect (sorted : list endpoint) (nlist : Z) (fuel : nat) (allow : Z) (low high : double)
    : Z * double * double :=
  match fuel with
  | O => (allow, low, high)
  | S fuel =>
      if 2 * allow <? nlist then
        let low := scan_low sorted (nlist - allow) 0 low in
        let high := scan_high (rev sorted) (nlist - allow) 0 high in
        if low <d high then (allow, low, high)
        else intersect sorted nlist fuel (allow + 1) low high
      else (allow, low, high)
  end.

Definition intersection_interval (ep : list endpoint) (nlist : nat) : Z * double * double :=
  intersect (sorted_endpoints ep) (Z.of_nat nlist) (S nlist) 0 BIG NEGBIG.

(** ** The cluster loop *)

Section Select.
Context `{Env}.

(** One round: select jitter of every survivor, the least peer jitter [d],
    the worst metric [e], its jitter [g] and position [k]. *)
Definition sel_jitter (s : state) (peers : list peer_select) (pi : peer_select) : double :=
  if (1 <? length peers)%nat then
    let f := fold_left (fun f pj => f +d DIFF (p_offset (pv (peer_at s (ps_peer pj))))
                                           (p_offset (pv (peer_at s (ps_peer pi)))))
               peers dzero in
    SQRT (f /d dofZ (Z.of_nat (length peers) - 1))
  else dzero.

Definition with_jitter (s : state) (peers : list peer_select) : list peer_select :=
  map (fun pi => pi <| ps_seljit := sel_jitter s peers pi |>) peers.

Fixpoint worst (l : list peer_select) (i : nat) (d e g : double) (k : nat) : double * double * nat :=
  match l with
  | [] => (d, g, k)
  | p :: l =>
      let d := if ps_error p <d d then ps_error p else d in
      let m := ps_seljit p *d ps_synch p in
      if e <d m then worst l (S i) d m (ps_seljit p) i else worst l (S i) d e g k
  end.

Definition drop_at (k : nat) (l : list peer_select) : list peer_select := take k l ++ drop (S k) l.

(** [while (1)]; every round that does not stop removes one survivor, so
    [length peers + 1] rounds are enough; [None] if they were not. *)
Fixpoint cluster (fuel : nat) (peers : list peer_select) (s : state)
    : option (list peer_select * state) :=
  match fuel with
  | O => None
  | S fuel =>
      let peers := with_jitter s peers in
      let nlist := Z.of_nat (length peers) in
      let '(d, g, k) := worst peers 0 BIG NEGBIG dzero 0 in
      let g := dmax g (LOGTOD (sys_precision (sv s))) in
      let pk := ps_peer (nth k peers zero_select) in
      if (nlist <=? Z.max 1 (sys_minclock (cf s))) || (g <=d d)
         || has (p_flags (peer_at s pk)) (FLAG_TRUE .| FLAG_PREFER)
      then Some (peers, s)
      else
        let s := if sys_maxclock (cf s) <? nlist
                 then upd_peer pk (fun r => r <|| p_new_status := CTL_PST_SEL_EXCESS ||>) s else s in
        cluster fuel (drop_at k peers) s
  end.

(** ** Admission of candidates *)

Record admission := mk_admission {
  ad_peers : list peer_select; ad_ends : list endpoint; ad_orphan : option Z;
  ad_orphmet : double; ad_acts : option Z; ad_local : option Z }.
#[export] Instance eta_admission : Eta admission := fun r =>
  mk_admission (ad_peers r) (ad_ends r) (ad_orphan r) (ad_orphmet r) (ad_acts r) (ad_local r).

Definition set_status (p st : Z) (s : state) : state :=
  upd_peer p (fun r => r <|| p_new_status := st ||>) s.

(** The body of the first loop over [peer_list]. *)
Definition admit_peer (acc : admission * state) (p : Z) : admission * state :=
  let '(a, s) := acc in
  let s := set_status p CTL_PST_SEL_REJECT s in
  let '(unfit, s) := peer_unfit p s in
  if nonzero unfit then (a, s)
  else
    let r := peer_at s p in
    if p_stratum r =? sys_orphan (cf s) then
      let localmet := match p_dstadr r with
                      | Some e => ep_addr_refid (endpt_at s e)
                      | None => 0xffffffff
                      end in
      let peermet := addr2refid (p_srcadr r) in
      if (peermet <? localmet) && (dofZ peermet <d ad_orphmet a)
      then (a <| ad_orphan := Some p |> <| ad_orphmet := dofZ peermet |>, s)
      else (a, s)
    else if sys_orphan (cf s) <? p_stratum r then (a, s)
    else
      let late := orphwait (sv s) <? current_time s in
      if negb (has (p_flags r) FLAG_PREFER) && (p_refclktype r =? REFCLK_LOCALCLOCK) then
        (if late && bool_decide (ad_local a = None) then a <| ad_local := Some p |> else a, s)
      else if negb (has (p_flags r) FLAG_PREFER) && (p_refclktype r =? REFCLK_ACTS) then
        (if late && bool_decide (ad_acts a = None) then a <| ad_acts := Some p |> else a, s)
      else
        let s := set_status p CTL_PST_SEL_SANE s in
        let f := root_distance s p in
        let e := p_offset (pv (peer_at s p)) in
        (a <| ad_peers := ad_peers a ++ [mk_select p f (p_jitter (pv (peer_at s p))) dzero] |>
           <| ad_ends := ad_ends a ++ [mk_endpoint (-1) (e -d f); mk_endpoint 1 (e +d f)] |>, s).

Definition candidates (s : state) : admission * state :=
  fold_left admit_peer (peer_list s)
    (mk_admission [] [] None (dofZ 2 *d dofZ 0xffffffff) None None, s).

(** ** The falseticker cull *)

(** Does the candidate's interval miss the intersection? *)
Definition falseticker (s : state) (low high : double) (c : peer_select) : bool :=
  let r := peer_at s (ps_peer c) in
  ((high <=d low) || (p_offset (pv r) +d ps_synch c <d low)
   || (high <d p_offset (pv r) -d ps_synch c)) && negb (has (p_flags r) FLAG_TRUE).

Fixpoint cull (s : state) (low high : double) (l : list peer_select) (pps : option Z)
    : list peer_select * option Z :=
  match l with
  | [] => ([], pps)
  | c :: l =>
      if falseticker s low high c then cull s low high l pps
      else if has (p_flags (peer_at s (ps_peer c))) FLAG_PPS then
        cull s low high l (match pps with None => Some (ps_peer c) | _ => pps end)
      else let '(l, pps) := cull s low high l pps in (c :: l, pps)
  end.

(** With no survivor, the modem, local or orphan source, in that order. *)
Definition last_resort (s : state) (a : admission) : list peer_select :=
  let only p := [mk_select p (sys_mindisp (cf s)) dzero dzero] in
  match ad_acts a, ad_local a, ad_orphan a with
  | Some p, _, _ => only p
  | None, Some p, _ => only p
  | None, None, Some p => only p
  | None, None, None => []
  end.

(** ** Choosing the system peer *)

(** The loop that marks the survivors: [speer], the prefer peer, the leap vote. *)
Record tally := mk_tally {
  ta_e : double; ta_speer : nat; ta_prefer : option Z; ta_i : nat }.

Definition mark_survivor (nlist : Z) (acc : tally * state) (c : peer_select) : tally * state :=
  let '(t, s) := acc in
  let p := ps_peer c in
  let s := upd_peer p (fun r => r <| p_unreach := 0 |>) s in
  let s := set_status p CTL_PST_SEL_SYNCCAND s in
  let s := s <|sv sys_survivors := sys_survivors (sv s) + 1 |> in
  let r := peer_at s p in
  let s := if p_leap r =? LEAP_ADDSECOND
           then if has (p_flags r) FLAG_REFCLOCK then s <|sv leap_vote := nlist |>
                else s <|sv leap_vote := leap_vote (sv s) + 1 |>
           else s in
  let prefer := if has (p_flags r) FLAG_PREFER then Some p else ta_prefer t in
  let speermet := ps_seljit c *d ps_synch c +d dofZ (p_stratum r) *d sys_mindisp (cf s) in
  if speermet <d ta_e t then (mk_tally speermet (ta_i t) prefer (S (ta_i t)), s)
  else (mk_tally (ta_e t) (ta_speer t) prefer (S (ta_i t)), s).

Definition mark_survivors (peers : list peer_select) (s : state) : tally * state :=
  fold_left (mark_survivor (Z.of_nat (length peers))) peers
    (mk_tally BIG 0 None 0, s <|sv leap_vote := 0 |>).

(** The anti-clockhop rule. *)
Definition clockhop (osys : option Z) (cand : Z) (s : state) : Z * state :=
  let reset := s <|sv sys_clockhop := dzero |> in
  match osys with
  | None => (cand, reset)
  | Some o =>
      if o =? cand then (cand, reset)
      else
        let x := dabs (p_offset (pv (peer_at s cand)) -d p_offset (pv (peer_at s o))) in
        if x <d sys_mindisp (cf s) then
          let hop := if deq (sys_clockhop (sv s)) dzero then sys_mindisp (cf s)
                     else sys_clockhop (sv s) *d dlit 5 1 in
          if dabs x <d hop then (o, s <|sv sys_clockhop := hop |>) else (cand, reset)
        else (cand, reset)
  end.

Definition clock_combine (peers : list peer_select) (npeers : nat) (syspeer : nat) (s : state) : state :=
  let off c := p_offset (pv (peer_at s (ps_peer c))) in
  let sp := nth syspeer peers zero_select in
  let '(y, z, w) :=
    fold_left (fun '(y, z, w) c =>
      let x := dofZ 1 /d ps_synch c in
      (y +d x, z +d x *d off c, w +d x *d DIFF (off c) (off sp)))
      (take npeers peers) (dzero, dzero, dzero) in
  s <|sv sys_offset := z /d y |>
    <|sv sys_jitter := SQRT (w /d y +d SQUARE (ps_seljit sp)) |>.

(** ** The clock update *)

(** [clock_update], up to the discipline. *)
Definition update_vars (p : Z) (s : state) : state :=
  let r := peer_at s p in
  let s := s <|sv sys_peer := Some p |> <|sv sys_epoch := p_epoch (pv r) |> in
  let poll := sys_poll (sv s) in
  let poll := if poll <? p_minpoll r then p_minpoll r else poll in
  let poll := if p_maxpoll r <? poll then p_maxpoll r else poll in
  let s := s <|sv sys_poll := poll |> in
  let s := poll_update p poll s in
  let r := peer_at s p in
  let s := s <|sv sys_stratum := u8 (Z.min (p_stratum r + 1) STRATUM_UNSPEC) |> in
  let s := s <|sv sys_refid :=
             if (p_stratum r =? STRATUM_REFCLOCK) || (p_stratum r =? STRATUM_UNSPEC)
             then p_refid r else addr2refid (p_srcadr r) |> in
  let dtemp := dabs (sys_offset (sv s)) +d p_disp (pv r) +d p_rootdisp r
               +d (p_delay (pv r) +d p_rootdelay r) /d dofZ 2 +d phi_since s (p_update r)
               +d sys_jitter (sv s) in
  let s := s <|sv sys_rootdisp := if sys_mindisp (cf s) <d dtemp then dtemp else sys_mindisp (cf s) |> in
  let s := s <|sv sys_rootdelay := p_delay (pv r) +d p_rootdelay r |> in
  s <|sv sys_reftime := p_dst (pv r) |>.

(** The leap-second bookkeeping of a slew. *)
Definition update_leap (p : Z) (s : state) : state :=
  let s := if sys_leap (sv s) =? LEAP_NOTINSYNC then s <|sv sys_leap := LEAP_NOWARNING |> else s in
  let '(now, s) := get_systime s in
  if 0 <? leap_sec (sv s) then
    if l_ui now <? leap_sec (sv s) then
      let s := s <|sv sys_tai := u32 (leap_tai (sv s) - 1) |> in
      let s := if leapsec (sv s) =? 0 then report_event EVNT_ARMED None s else s in
      s <|sv leapsec := u64 (leap_sec (sv s) - l_ui now) |>
    else s <|sv sys_tai := u32 (leap_tai (sv s)) |>
  else if sys_survivors (sv s) /c 2 <? leap_vote (sv s) then
    let s := s <|sv leap_peers := u64 (l_ui now + leap_month (unix_time (clk s)) (l_ui now)) |> in
    if l_ui now <? leap_peers (sv s) then
      let s := if leapsec (sv s) =? 0 then report_event PEVNT_ARMED (Some p) s else s in
      s <|sv leapsec := u64 (leap_peers (sv s) - l_ui now) |>
    else s
  else if 0 <? leapsec (sv s) then
    (report_event EVNT_DISARMED None s) <|sv leapsec := 0 |> <|sv sys_leap := LEAP_NOWARNING |>
  else s.

Definition clock_update (p : Z) (s : state) : state :=
  let s := update_vars p s in
  let '(rc, s) := local_clock p (sys_offset (sv s)) s in
  if rc =? -1 then emit (Exit (-1)) s
  else if rc =? 2 then
    let s := clear_all s in
    s <|sv sys_leap := LEAP_NOTINSYNC |> <|sv sys_stratum := STRATUM_UNSPEC |>
      <|sv sys_refid := STEP |> <|sv sys_rootdelay := dzero |> <|sv sys_rootdisp := dzero |>
      <|sv sys_reftime := lzero |> <|sv sys_jitter := LOGTOD (sys_precision (sv s)) |>
      <|sv leapsec := 0 |>
  else if rc =? 1 then update_leap p s
  else s.

(** ** The whole procedure *)

(** Copy of the selection status of every peer. *)
Definition commit_status (s : state) : state :=
  fold_left (fun s p => upd_peer p (fun r => r <|| p_status := p_new_status (pv r) ||>) s)
    (peer_list s) s.

(** Candidates, intersection, cull and cluster: the survivors and the PPS peer. *)
Definition survivors (s : state) : option (list peer_select * option Z * state) :=
  let '(a, s) := candidates s in
  let '(_, low, high) := intersection_interval (ad_ends a) (length (ad_peers a)) in
  let '(peers, pps) := cull s low high (ad_peers a) None in
  let peers := match peers with [] => last_resort s a | _ => peers end in
  let s := fold_left (fun s c => set_status (ps_peer c) CTL_PST_SEL_SELCAND s) peers s in
  '(peers, s) ← cluster (S (length peers)) peers s;
  Some (peers, pps, s).

(** System peer by metric, clockhop and prefer rule. *)
Definition choose_system (osys : option Z) (peers : list peer_select) (s : state)
    : option Z * option Z * state :=
  let '(t, s) := mark_survivors peers s in
  let nlist := Z.of_nat (length peers) in
  let '(typesystem, s) :=
    if (0 <? nlist) && (sys_minsane (cf s) <=? nlist) then
      let '(c, s) := clockhop osys (ps_peer (nth (ta_speer t) peers zero_select)) s in (Some c, s)
    else (None, s) in
  match typesystem with
  | None => (None, ta_prefer t, s)
  | Some c =>
      match ta_prefer t with
      | None =>
          let s := set_status c CTL_PST_SEL_SYSPEER s in
          (Some c, None, clock_combine peers (Z.to_nat (sys_survivors (sv s))) (ta_speer t) s)
      | Some pr =>
          let s := s <|sv sys_clockhop := dzero |> in
          let s := set_status pr CTL_PST_SEL_SYSPEER s in
          let r := peer_at s pr in
          (Some pr, Some pr, s <|sv sys_offset := p_offset (pv r) |>
                               <|sv sys_jitter := p_jitter (pv r) |>)
      end
  end.

(** The PPS rule. *)
Definition apply_pps (pps prefer typesystem : option Z) (s : state) : option Z * state :=
  match pps with
  | None => (typesystem, s)
  | Some q =>
      let r := peer_at s q in
      if (dabs (sys_offset (sv s)) <d dlit 4 1) &&
         (negb (p_refclktype r =? REFCLK_ATOM_PPS)
          || ((p_refclktype r =? REFCLK_ATOM_PPS) &&
              (bool_decide (prefer <> None)
               || (bool_decide (typesystem = None) && (sys_minsane (cf s) =? 0)))))
      then
        let s := s <|sv sys_clockhop := dzero |> in
        let s := set_status q CTL_PST_SEL_PPS s in
        let r := peer_at s q in
        (Some q, s <|sv sys_offset := p_offset (pv r) |> <|sv sys_jitter := p_jitter (pv r) |>)
      else (typesystem, s)
  end.

(** [typesystem] at the end of the mitigation rules; [None] only if the
    cluster loop ran out of rounds. *)
Definition elect (s : state) : option (option Z * state) :=
  let osys := sys_peer (sv s) in
  let s := s <|sv sys_survivors := 0 |> in
  '(peers, pps, s) ← survivors s;
  let '(typesystem, prefer, s) := choose_system osys peers s in
  Some (apply_pps pps prefer typesystem s).

Definition clock_select (s : state) : option state :=
  let osys := sys_peer (sv s) in
  '(typesystem, s) ← elect s;
  Some match typesystem with
  | None =>
      let s := if bool_decide (osys <> None) then
                 let s := if 0 <? sys_orphwait (cf s)
                          then s <|sv orphwait := u64 (current_time s + sys_orphwait (cf s)) |> else s in
                 report_event EVNT_NOPEER None s
               else s in
      commit_status (s <|sv sys_peer := None |>)
  | Some c =>
      if p_epoch (pv (peer_at s c)) <=? sys_epoch (sv s) then s
      else
        let s := if bool_decide (osys <> Some c) then report_event PEVNT_NEWPEER (Some c) s else s in
        clock_update c (commit_status s)
  end.

End Select.
