(* ===== verification/SelectFacts.v ===== *)
(** * Clock selection: sorting, Marzullo intersection, cluster loop *)

From S2P Require Import Prelude FixedPoint Calendar Double Lists NtpTypes AuthKeys Monitor Restrict State ProtoBase Refclock Sample Select.
From stdpp Require Import base gmap list sorting.
#[local] Open Scope Z_scope.

(** ** The selection sort *)

Section Sorting.
Context (ep : list endpoint).
Context (Hnum : forall e, e ∈ ep -> is_num (en_val e) = true).
#[local] Abbreviation val := (val_at ep).

Lemma val_num indx i : is_num (val indx i) = true.
Proof.
  unfold val_at. destruct (nth_in_or_default (nth i indx 0%nat) ep zero_endpoint) as [Hin | ->]; [| done].
  apply Hnum. now apply list_elem_of_In.
Qed.

Lemma find_least_spec indx fuel j k :
  let k' := find_least ep indx fuel j (val indx k) k in
  (k' = k \/ (j <= k' < j + fuel)%nat) /\ le_d (val indx k') (val indx k) /\
  forall m, (j <= m < j + fuel)%nat -> le_d (val indx k') (val indx m).
Proof.
  cbv zeta. revert j k. induction fuel as [|fuel IH]; intros j k; cbn [find_least].
  - split; [auto |]. split; [apply dlt_irrefl | lia].
  - destruct (val indx j <d val indx k) eqn:E.
    + destruct (IH (S j) j) as (H1 & H2 & H3). split; [lia |]. split.
      * eapply le_d_trans; [apply val_num | exact H2 | now apply lt_le_d].
      * intros m Hm. destruct (decide (m = j)) as [-> |]; [done | apply H3; lia].
    + destruct (IH (S j) k) as (H1 & H2 & H3). split; [lia |]. split; [done |].
      intros m Hm. destruct (decide (m = j)) as [-> |]; [| apply H3; lia].
      eapply le_d_trans; [apply val_num | exact H2 | exact E].
Qed.

Lemma nth_swap i k l m :
  (i < length l)%nat -> (k < length l)%nat ->
  nth m (swap i k l) 0%nat = if decide (m = i) then nth k l 0%nat
                             else if decide (m = k) then nth i l 0%nat else nth m l 0%nat.
Proof.
  intros Hi Hk. unfold swap. rewrite !nth_lookup.
  destruct (decide (m = i)) as [-> |].
  - rewrite list_lookup_insert_eq by (rewrite length_insert; lia). done.
  - rewrite list_lookup_insert_ne by auto. destruct (decide (m = k)) as [-> |].
    + now rewrite list_lookup_insert_eq.
    + now rewrite list_lookup_insert_ne by auto.
Qed.

Lemma swap_length i k l : length (swap i k l) = length l.
Proof. unfold swap. now rewrite !length_insert. Qed.

Lemma swap_perm i k l :
  (i < length l)%nat -> (k < length l)%nat -> Permutation (swap i k l) l.
Proof.
  intros Hi Hk. apply Permutation_inj. split; [now rewrite swap_length |].
  exists (fun m => if decide (m = i) then k else if decide (m = k) then i else m). split.
  - intros m m' E. repeat case_decide; lia.
  - intros m. unfold swap. destruct (decide (m = i)) as [-> |].
    + rewrite list_lookup_insert_eq by (rewrite length_insert; lia).
      rewrite nth_lookup. now destruct (lookup_lt_is_Some_2 l k Hk) as [y ->].
    + rewrite list_lookup_insert_ne by auto. destruct (decide (m = k)) as [-> |].
      * rewrite list_lookup_insert_eq by done. rewrite nth_lookup.
        now destruct (lookup_lt_is_Some_2 l i Hi) as [y ->].
      * now rewrite list_lookup_insert_ne by auto.
Qed.

(** The part before [i] is in order and below the rest. *)
Definition sorted_to (i : nat) (indx : list nat) : Prop :=
  forall m n, (m < i)%nat -> (m < n < length indx)%nat -> le_d (val indx m) (val indx n).

Lemma val_swap i k indx m :
  (i < length indx)%nat -> (k < length indx)%nat ->
  val (swap i k indx) m = if decide (m = i) then val indx k
                          else if decide (m = k) then val indx i else val indx m.
Proof. intros Hi Hk. unfold val_at. rewrite nth_swap by done. repeat case_decide; done. Qed.

Lemma select_step fuel i indx :
  length indx = (i + S fuel)%nat -> sorted_to i indx ->
  let k := find_least ep indx fuel (S i) (val indx i) i in
  let indx' := if (k =? i)%nat then indx else swap i k indx in
  Permutation indx' indx /\ sorted_to (S i) indx'.
Proof.
  intros Hlen Hs. cbv zeta. destruct (find_least_spec indx fuel (S i) i) as (Hk & Hi & Hm).
  set (k := find_least _ _ _ _ _ _) in *. destruct (Nat.eqb_spec k i) as [E | E].
  - split; [done |]. rewrite E in *. intros m n Hmi Hn.
    destruct (decide (m = i)) as [-> |]; [apply Hm; lia | apply Hs; lia].
  - assert (Hik : (i < length indx)%nat /\ (k < length indx)%nat /\ (i < k)%nat) by lia.
    destruct Hik as (Hi' & Hk' & Hlt). split; [now apply swap_perm |].
    intros m n Hmi Hn. rewrite swap_length in Hn. rewrite !val_swap by done.
    destruct (decide (m = i)) as [-> |].
    + rewrite (decide_False (P := n = i)) by lia. destruct (decide (n = k)); [done | apply Hm; lia].
    + rewrite (decide_False (P := m = k)) by lia. repeat case_decide; apply Hs; lia.
Qed.

Lemma select_sort_spec fuel i indx :
  length indx = (i + fuel)%nat -> sorted_to i indx ->
  Permutation (select_sort ep fuel i indx) indx /\ sorted_to (i + fuel) (select_sort ep fuel i indx).
Proof.
  revert i indx. induction fuel as [|fuel IH]; intros i indx Hlen Hs; cbn [select_sort].
  { rewrite Nat.add_0_r. done. }
  destruct (select_step fuel i indx Hlen Hs) as [Hp Hs'].
  destruct (IH (S i) _ ltac:(rewrite (Permutation_length Hp); lia) Hs') as [Hp' Hs''].
  rewrite Nat.add_succ_r. split; [now rewrite Hp' | exact Hs''].
Qed.

Lemma sort_indx_spec :
  Permutation (sort_indx ep) (seq 0 (length ep)) /\ sorted_to (length ep) (sort_indx ep).
Proof.
  unfold sort_indx. apply (select_sort_spec (length ep) 0); [now rewrite length_seq | intros m n ?; lia].
Qed.

Lemma sorted_perm : Permutation (sorted_endpoints ep) ep.
Proof.
  unfold sorted_endpoints. rewrite (Permutation_map _ (proj1 sort_indx_spec)).
  clear Hnum. induction ep as [|e l IH]; [done |]. cbn [length seq map nth]. f_equiv.
  rewrite <- seq_shift, map_map. exact IH.
Qed.

Lemma sorted_order : StronglySorted (fun a b => le_d (en_val a) (en_val b)) (sorted_endpoints ep).
Proof.
  destruct sort_indx_spec as [Hp Hs]. pose proof (Permutation_length Hp) as Hl. rewrite length_seq in Hl.
  unfold sorted_endpoints. rewrite <- Hl in Hs. clear Hp Hl Hnum.
  assert (H : forall m n, (m < n < length (sort_indx ep))%nat ->
    le_d (en_val (nth (nth m (sort_indx ep) 0%nat) ep zero_endpoint))
         (en_val (nth (nth n (sort_indx ep) 0%nat) ep zero_endpoint))) by (intros; apply Hs; lia).
  clear Hs. induction (sort_indx ep) as [|x l IH]; [constructor |]. cbn [map]. constructor.
  - apply IH. intros m n Hmn. apply (H (S m) (S n)). cbn. lia.
  - rewrite Forall_forall. intros y Hy. apply list_elem_of_In, in_map_iff in Hy as (z & <- & Hz).
    apply In_nth with (d := 0%nat) in Hz as (n & Hn & <-). apply (H 0%nat (S n)). cbn. lia.
Qed.
End Sorting.

(** ** The intersection scan *)

(** How many elements pass a test. *)
Definition tally_of {A} (P : A -> bool) (l : list A) : Z := Z.of_nat (length (List.filter P l)).

Lemma tally_app {A} (P : A -> bool) l1 l2 : tally_of P (l1 ++ l2) = tally_of P l1 + tally_of P l2.
Proof. unfold tally_of. rewrite List.filter_app, length_app. lia. Qed.
Lemma tally_cons {A} (P : A -> bool) x l :
  tally_of P (x :: l) = (if P x then 1 else 0) + tally_of P l.
Proof. unfold tally_of. cbn. destruct (P x); cbn; lia. Qed.
Lemma tally_perm {A} (P : A -> bool) l1 l2 : Permutation l1 l2 -> tally_of P l1 = tally_of P l2.
Proof. induction 1; rewrite ?tally_cons; lia. Qed.
Lemma tally_mono {A} (P Q : A -> bool) l :
  (forall x, x ∈ l -> P x = true -> Q x = true) -> tally_of P l <= tally_of Q l.
Proof.
  induction l as [|x l IH]; intros H; [done |]. rewrite !tally_cons.
  specialize (IH ltac:(set_solver)). specialize (H x ltac:(set_solver)).
  destruct (P x); [rewrite H by done | destruct (Q x)]; lia.
Qed.
Lemma tally_none {A} (P : A -> bool) l : (forall x, x ∈ l -> P x = false) -> tally_of P l = 0.
Proof.
  induction l as [|x l IH]; intros H; [done |]. rewrite tally_cons, H, IH by set_solver. done.
Qed.
Lemma tally_diff {A} (P Q : A -> bool) l :
  tally_of P l - tally_of Q l <= tally_of (fun x => P x && negb (Q x)) l.
Proof. induction l as [|x l IH]; [done |]. rewrite !tally_cons. destruct (P x), (Q x); cbn; lia. Qed.

(** Correctness intervals and their endpoints. *)
Definition interval : Type := double * double.
Definition ends_of (cs : list interval) : list endpoint :=
  flat_map (fun c => [mk_endpoint (-1) c.1; mk_endpoint 1 c.2]) cs.
Definition covers (x : double) (c : interval) : bool := negb (x <d c.1) && negb (c.2 <d x).

Definition is_lower (e : endpoint) : bool := en_type e =? -1.
Definition is_upper (e : endpoint) : bool := en_type e =? 1.

Lemma tally_lower P cs :
  tally_of (fun e => is_lower e && P (en_val e)) (ends_of cs) = tally_of (fun c => P c.1) cs.
Proof. induction cs as [|c cs IH]; [done |]. cbn [ends_of flat_map app]. rewrite !tally_cons. fold (ends_of cs). rewrite IH. cbn. lia. Qed.
Lemma tally_upper P cs :
  tally_of (fun e => is_upper e && P (en_val e)) (ends_of cs) = tally_of (fun c => P c.2) cs.
Proof. induction cs as [|c cs IH]; [done |]. cbn [ends_of flat_map app]. rewrite !tally_cons. fold (ends_of cs). rewrite IH. cbn. lia. Qed.

(** Enough intervals cover [x]: lower ends not above it, less upper ends below it. *)
Lemma covers_count x cs :
  tally_of (fun e => is_lower e && negb (x <d en_val e)) (ends_of cs)
  - tally_of (fun e => is_upper e && (en_val e <d x)) (ends_of cs) <= tally_of (covers x) cs.
Proof.
  rewrite (tally_lower (fun v => negb (x <d v))), (tally_upper (fun v => v <d x)).
  apply (tally_diff (fun c : interval => negb (x <d c.1)) (fun c => c.2 <d x)).
Qed.
Lemma covers_count_high x cs :
  tally_of (fun e => is_upper e && negb (en_val e <d x)) (ends_of cs)
  - tally_of (fun e => is_lower e && (x <d en_val e)) (ends_of cs) <= tally_of (covers x) cs.
Proof.
  rewrite (tally_upper (fun v => negb (v <d x))), (tally_lower (fun v => x <d v)).
  etransitivity; [apply (tally_diff (fun c : interval => negb (c.2 <d x)) (fun c => x <d c.1)) |].
  apply tally_mono. intros c _. unfold covers. now rewrite andb_comm.
Qed.

(** Endpoints are lower or upper ends. *)
Definition typed (l : list endpoint) : Prop := forall e, e ∈ l -> en_type e = -1 \/ en_type e = 1.
Definition balance (l : list endpoint) : Z := tally_of is_lower l - tally_of is_upper l.

Lemma balance_cons e l : typed (e :: l) -> balance (e :: l) = balance l - en_type e.
Proof.
  intros H. unfold balance. rewrite !tally_cons. unfold is_lower, is_upper.
  destruct (H e ltac:(set_solver)) as [-> | ->]; cbn; lia.
Qed.

(** Where the upward scan ends. *)
Lemma scan_low_spec l need n low :
  typed l -> l <> [] ->
  (exists p e q, l = p ++ e :: q /\ scan_low l need n low = en_val e /\ need <= n + balance (p ++ [e])) \/
  (exists p e, l = p ++ [e] /\ scan_low l need n low = en_val e).
Proof.
  revert n low. induction l as [|e l IH]; intros n low Ht Hne; [done |]. cbn [scan_low].
  destruct (Z.leb_spec need (n - en_type e)) as [Hle | Hgt].
  - left. exists [], e, l. split; [done |]. split; [done |]. cbn [app].
    rewrite balance_cons by (intros x Hx; apply Ht; set_solver). change (balance []) with 0. lia.
  - destruct l as [|e' l]; [right; exists [], e; done |].
    assert (Ht' : typed (e' :: l)) by (intros x Hx; apply Ht; set_solver).
    destruct (IH (n - en_type e) (en_val e) Ht' ltac:(done)) as [(p & x & q & E1 & E2 & E3) | (p & x & E1 & E2)].
    + left. exists (e :: p), x, q. rewrite E1. split; [done |]. split; [rewrite <- E1; exact E2 |].
      cbn [app]. rewrite balance_cons; [lia |]. intros y Hy. apply Ht. rewrite E1. set_solver.
    + right. exists (e :: p), x. rewrite E1. split; [done |]. rewrite <- E1. exact E2.
Qed.

(** The downward scan is the upward scan of the opposite types. *)
Definition opposite (e : endpoint) : endpoint := mk_endpoint (- en_type e) (en_val e).
Lemma scan_high_low l need n high : scan_high l need n high = scan_low (map opposite l) need n high.
Proof.
  revert n high. induction l as [|e l IH]; intros n high; [done |]. cbn [scan_high map scan_low opposite en_type en_val].
  replace (n - - en_type e) with (n + en_type e) by lia. case_match; [done | apply IH].
Qed.

Definition ordered (l : list endpoint) : Prop :=
  StronglySorted (fun a b => le_d (en_val a) (en_val b)) l.

Lemma ordered_mid p e q :
  ordered (p ++ e :: q) ->
  (forall x, x ∈ p -> le_d (en_val x) (en_val e)) /\ (forall x, x ∈ q -> le_d (en_val e) (en_val x)).
Proof.
  intros H. split.
  - intros x Hx. induction p as [|y p IH]; [set_solver |]. cbn in H. inversion H as [|? ? Hs Hf]; subst.
    rewrite Forall_forall in Hf. apply elem_of_cons in Hx as [-> | Hx]; [apply Hf; set_solver | auto].
  - apply StronglySorted_app_1_r in H. inversion H as [|? ? Hs Hf]; subst.
    rewrite Forall_forall in Hf. exact Hf.
Qed.

Section Scan.
Context (cs : list interval) (l : list endpoint).
Context (Hperm : Permutation l (ends_of cs)) (Hord : ordered l).

Lemma ends_typed : typed l.
Proof.
  intros e He. rewrite Hperm in He. unfold ends_of in He.
  apply list_elem_of_In, in_flat_map in He as (c & _ & [<- | [<- | []]]); auto.
Qed.

(** A stop of the upward scan. *)
Lemma low_majority p e q :
  l = p ++ e :: q -> balance (p ++ [e]) <= tally_of (covers (en_val e)) cs.
Proof.
  intros E. etransitivity; [| apply covers_count]. rewrite <- !(tally_perm _ _ _ Hperm).
  pose proof Hord as Ho. rewrite E in Ho. destruct (ordered_mid p e q Ho) as [Hp Hq].
  replace l with ((p ++ [e]) ++ q) by (rewrite E, <- app_assoc; done). rewrite !tally_app. unfold balance.
  assert (H1 : forall x, x ∈ p ++ [e] -> le_d (en_val x) (en_val e)).
  { intros x. rewrite elem_of_app, list_elem_of_singleton. intros [Hx | ->]; [auto | apply dlt_irrefl]. }
  assert (tally_of (fun x => is_upper x && (en_val x <d en_val e)) q = 0) as ->.
  { apply tally_none. intros x Hx. rewrite (Hq x Hx). apply andb_false_r. }
  assert (tally_of is_lower (p ++ [e])
          <= tally_of (fun x => is_lower x && negb (en_val e <d en_val x)) (p ++ [e])).
  { apply tally_mono. intros x Hx ->. now rewrite (H1 x Hx). }
  assert (tally_of (fun x => is_upper x && (en_val x <d en_val e)) (p ++ [e])
          <= tally_of is_upper (p ++ [e])).
  { apply tally_mono. intros x _ Hx. now apply andb_true_iff in Hx. }
  rewrite !tally_app in *. unfold tally_of in *. lia.
Qed.

(** A stop of the downward scan. *)
Lemma high_majority p e q :
  l = q ++ e :: p ->
  tally_of is_upper (e :: p) - tally_of is_lower (e :: p) <= tally_of (covers (en_val e)) cs.
Proof.
  intros E. etransitivity; [| apply covers_count_high]. rewrite <- !(tally_perm _ _ _ Hperm).
  pose proof Hord as Ho. rewrite E in Ho. destruct (ordered_mid q e p Ho) as [Hq Hp].
  rewrite E, !(tally_app _ q).
  assert (H1 : forall x, x ∈ e :: p -> le_d (en_val e) (en_val x)).
  { intros x. rewrite elem_of_cons. intros [-> | Hx]; [apply dlt_irrefl | auto]. }
  assert (tally_of (fun x => is_lower x && (en_val e <d en_val x)) q = 0) as ->.
  { apply tally_none. intros x Hx. rewrite (Hq x Hx). apply andb_false_r. }
  assert (tally_of is_upper (e :: p)
          <= tally_of (fun x => is_upper x && negb (en_val x <d en_val e)) (e :: p)).
  { apply tally_mono. intros x Hx ->. now rewrite (H1 x Hx). }
  assert (tally_of (fun x => is_lower x && (en_val e <d en_val x)) (e :: p)
          <= tally_of is_lower (e :: p)).
  { apply tally_mono. intros x _ Hx. now apply andb_true_iff in Hx. }
  unfold tally_of in *. lia.
Qed.

(** Where each scan ends: at a stop, or at the far end of the list. *)
Lemma low_cases need low0 :
  l <> [] -> exists p e q, l = p ++ e :: q /\ scan_low l need 0 low0 = en_val e /\
    (need <= balance (p ++ [e]) \/ q = []).
Proof.
  intros Hne. destruct (scan_low_spec l need 0 low0 ends_typed Hne)
    as [(p & e & q & E1 & E2 & E3) | (p & e & E1 & E2)]; [exists p, e, q | exists p, e, []]; auto.
Qed.

Lemma high_cases need high0 :
  l <> [] -> exists q e p, l = q ++ e :: p /\ scan_high (rev l) need 0 high0 = en_val e /\
    (need <= tally_of is_upper (e :: p) - tally_of is_lower (e :: p) \/ q = []).
Proof.
  intros Hne. rewrite scan_high_low.
  assert (Hopp : typed (map opposite (rev l))).
  { intros x Hx. apply list_elem_of_In, in_map_iff in Hx as (y & <- & Hy).
    apply in_rev, list_elem_of_In in Hy. destruct (ends_typed y Hy) as [E | E]; cbn; rewrite E; auto. }
  assert (Hne' : map opposite (rev l) <> []).
  { intros E. apply (f_equal length) in E. rewrite length_map, length_rev in E. now destruct l. }
  assert (Hsplit : forall p1 e1 q1, map opposite (rev l) = p1 ++ e1 :: q1 ->
    exists q e p, l = q ++ e :: p /\ opposite e = e1 /\ map opposite (rev p) = p1 /\ map opposite (rev q) = q1).
  { intros p1 e1 q1 E. apply map_eq_app in E as (p2 & r & E & <- & Er).
    apply map_eq_cons in Er as (e2 & q2 & -> & <- & <-).
    exists (rev q2), e2, (rev p2). rewrite !rev_involutive. split; [| done].
    rewrite <- (rev_involutive l), E, rev_app_distr. cbn. now rewrite <- app_assoc. }
  destruct (scan_low_spec _ need 0 high0 Hopp Hne') as [(p1 & e1 & q1 & E1 & E2 & E3) | (p1 & e1 & E1 & E2)];
    destruct (Hsplit _ _ _ E1) as (q & e & p & El & <- & Ep & Eq); exists q, e, p;
    (split; [done |]); (split; [exact E2 |]).
  - left. rewrite <- Ep in E3. unfold balance in E3.
    assert (Hf : forall P Q, (forall x, P (opposite x) = Q x) ->
      tally_of P (map opposite (rev p) ++ [opposite e]) = tally_of Q (e :: p)).
    { intros P Q HPQ. change [opposite e] with (map opposite [e]). rewrite <- map_app.
      rewrite (tally_perm Q (e :: p) (rev p ++ [e]))
        by (rewrite <- Permutation_rev; apply Permutation_cons_append).
      induction (rev p ++ [e]) as [|x r IH]; [done |]. cbn [map]. now rewrite !tally_cons, HPQ, IH. }
    rewrite (Hf is_lower is_upper), (Hf is_upper is_lower) in E3; [lia | |];
      intros x; unfold is_lower, is_upper; cbn; lia.
  - right. destruct q as [|x q _] using rev_ind; [done |]. rewrite rev_app_distr in Eq. discriminate.
Qed.

(** One round of the scan, when it ends with [low < high]. *)
Lemma round_majority need low0 high0 :
  l <> [] ->
  let low := scan_low l need 0 low0 in
  let high := scan_high (rev l) need 0 high0 in
  (low <d high) = true ->
  need <= tally_of (covers low) cs /\ need <= tally_of (covers high) cs.
Proof.
  intros Hne. cbv zeta.
  destruct (low_cases need low0 Hne) as (p & e & q & El & -> & Hlow).
  destruct (high_cases need high0 Hne) as (q' & e' & p' & El' & -> & Hhigh). intros Hlt.
  assert (Hin : forall x, x ∈ l -> x = e \/ x ∈ p \/ x ∈ q) by (intros x; rewrite El; set_solver).
  assert (Hin' : forall x, x ∈ l -> x = e' \/ x ∈ q' \/ x ∈ p') by (intros x; rewrite El'; set_solver).
  pose proof Hord as Ho. pose proof Hord as Ho'. rewrite El in Ho. rewrite El' in Ho'.
  destruct (ordered_mid p e q Ho) as [Hp _], (ordered_mid q' e' p' Ho') as [_ Hp'].
  split.
  - destruct Hlow as [Hlow | ->]; [pose proof (low_majority p e q El); lia | exfalso].
    assert (He' : e' ∈ l) by (rewrite El'; set_solver).
    destruct (Hin e' He') as [-> | [H | H]]; [now rewrite dlt_irrefl in Hlt | | set_solver].
    rewrite (Hp e' H) in Hlt. done.
  - destruct Hhigh as [Hhigh | ->]; [pose proof (high_majority p' e' q' El'); lia | exfalso].
    assert (He : e ∈ l) by (rewrite El; set_solver).
    destruct (Hin' e He) as [-> | [H | H]]; [now rewrite dlt_irrefl in Hlt | set_solver |].
    rewrite (Hp' e H) in Hlt. done.
Qed.

Lemma intersect_majority fuel allow low0 high0 allow' low high :
  0 <= allow -> l <> [] ->
  intersect l (Z.of_nat (length cs)) fuel allow low0 high0 = (allow', low, high) ->
  (low0 <d high0) = false -> (low <d high) = true ->
  2 * allow' < Z.of_nat (length cs) /\
  Z.of_nat (length cs) - allow' <= tally_of (covers low) cs /\
  Z.of_nat (length cs) - allow' <= tally_of (covers high) cs.
Proof.
  revert allow low0 high0. induction fuel as [|fuel IH]; intros allow low0 high0 Ha Hne E H0 Hlt; cbn [intersect] in E.
  { injection E as <- <- <-. congruence. }
  destruct (Z.ltb_spec (2 * allow) (Z.of_nat (length cs))); [| injection E as <- <- <-; congruence].
  set (need := Z.of_nat (length cs) - allow) in *.
  destruct (scan_low l need 0 low0 <d scan_high (rev l) need 0 high0) eqn:Er.
  - injection E as <- <- <-. split; [lia |]. now apply round_majority.
  - eapply IH in E; [exact E | lia | done | done | done].
Qed.
End Scan.

Definition interval_num (c : interval) : Prop := is_num c.1 = true /\ is_num c.2 = true.

Lemma ends_num cs : Forall interval_num cs -> forall e, e ∈ ends_of cs -> is_num (en_val e) = true.
Proof.
  intros H e He. apply list_elem_of_In, in_flat_map in He as (c & Hc & He).
  rewrite Forall_forall in H. destruct (H c) as [H1 H2]; [now apply list_elem_of_In |].
  now destruct He as [<- | [<- | []]].
Qed.

(** C3: the intersection algorithm finds a majority.  When the scan ends
    with a non-empty interval [low, high], fewer than half of the
    candidates were allowed to be falsetickers, and each end of the
    interval lies inside the correctness intervals of all candidates but
    those: at least [nlist - allow] of them contain [low], and at least as
    many contain [high]. *)
Theorem intersection_majority (cs : list interval) (allow : Z) (low high : double) :
  Forall interval_num cs ->
  intersection_interval (ends_of cs) (length cs) = (allow, low, high) -> (low <d high) = true ->
  2 * allow < Z.of_nat (length cs) /\
  Z.of_nat (length cs) - allow <= tally_of (covers low) cs /\
  Z.of_nat (length cs) - allow <= tally_of (covers high) cs.
Proof.
  intros Hn E Hlt. pose proof (ends_num cs Hn) as He. destruct cs as [|c cs]; [injection E as <- <- <-; discriminate |].
  eapply (intersect_majority (c :: cs) (sorted_endpoints (ends_of (c :: cs)))); [| | | | exact E | |]; try done.
  - now apply sorted_perm.
  - now apply sorted_order.
  - intros Hnil. pose proof (sorted_perm _ He) as Hp. rewrite Hnil in Hp.
    apply Permutation_nil_l in Hp. done.
Qed.

Lemma intersection_majority_witness :
  let cs := [(dofZ 1, dofZ 5); (dofZ 2, dofZ 6); (dofZ 50, dofZ 60)] in
  intersection_interval (ends_of cs) 3 = (1, dofZ 2, dofZ 5) /\ 2 <= tally_of (covers (dofZ 2)) cs.
Proof.
  cbv zeta. split; [vm_compute; reflexivity |].
  apply (intersection_majority [(dofZ 1, dofZ 5); (dofZ 2, dofZ 6); (dofZ 50, dofZ 60)] 1 (dofZ 2) (dofZ 5));
    [repeat constructor | vm_compute; reflexivity | vm_compute; reflexivity].
Defined.

(** ** What selection may change

    Up to the choice of the system peer the procedure writes only the
    selection status and the test bits of peers. *)

Definition mask_peer (r : peer) : peer := r <|| p_new_status := 0 ||> <|| p_flash := 0 ||>.

Record unseen (s s' : state) : Prop := {
  un_cf : cf s' = cf s; un_sv : sv s' = sv s; un_endpts : endpts s' = endpts s;
  un_time : current_time s' = current_time s; un_list : peer_list s' = peer_list s;
  un_peer : forall q, mask_peer (peer_at s' q) = mask_peer (peer_at s q) }.

Lemma unseen_refl s : unseen s s.
Proof. now split. Qed.
Lemma unseen_trans s1 s2 s3 : unseen s1 s2 -> unseen s2 s3 -> unseen s1 s3.
Proof. intros [] []. split; try congruence. Qed.

(** A field other than the two is seen through the mask. *)
Lemma unseen_field {A} (f : peer -> A) s s' q :
  (forall r, f r = f (mask_peer r)) -> unseen s s' -> f (peer_at s' q) = f (peer_at s q).
Proof. intros Hf Hu. rewrite (Hf (peer_at s' q)), (Hf (peer_at s q)), (un_peer _ _ Hu). done. Qed.

Lemma unseen_upd p f s :
  (forall r, mask_peer (f r) = mask_peer r) -> unseen s (upd_peer p f s).
Proof. intros Hf. split; try done. intros q. rewrite peer_at_upd. case_decide; subst; auto. Qed.

#[export] Hint Resolve unseen_refl unseen_trans unseen_upd : ntp.

Section Fit.
Context `{Env}.

(** Distance and fitness are functions of what the mask leaves. *)
Lemma unseen_fit s s' p :
  unseen s s' -> root_distance s' p = root_distance s p /\ unfit_tests s' p = unfit_tests s p.
Proof.
  intros [Ec _ Ee Et _ Ep]. specialize (Ep p).
  unfold unfit_tests, local_refid, root_distance, phi_since, endpt_at. rewrite Ec, Ee, Et.
  destruct (peer_at s' p), (peer_at s p).
  repeat match goal with v : peer_vars |- _ => destruct v end. injection Ep; intros; subst. done.
Qed.

Lemma set_status_unseen p st s : unseen s (set_status p st s).
Proof. now apply unseen_upd. Qed.
Lemma peer_unfit_unseen p s : unseen s (peer_unfit p s).2.
Proof. now apply unseen_upd. Qed.
Hint Resolve set_status_unseen peer_unfit_unseen : ntp.

(** A peer the admission loop may rely on. *)
Definition fit (s : state) (p : Z) : Prop := p ∈ peer_list s /\ unfit_tests s p = 0.

Lemma fit_ext s s' p :
  cf s' = cf s -> endpts s' = endpts s -> current_time s' = current_time s ->
  peer_list s' = peer_list s -> heap s' = heap s -> fit s' p -> fit s p.
Proof.
  intros E1 E2 E3 E4 E5. unfold fit, unfit_tests, root_distance, local_refid, phi_since, peer_at, endpt_at.
  now rewrite E1, E2, E3, E4, E5.
Qed.

Definition admits (s : state) (a : admission) : Prop :=
  (forall c, c ∈ ad_peers a -> fit s (ps_peer c)) /\
  (forall p, ad_orphan a = Some p \/ ad_acts a = Some p \/ ad_local a = Some p -> fit s p) /\
  ad_ends a = ends_of (map (fun c => (p_offset (pv (peer_at s (ps_peer c))) -d ps_synch c,
                                      p_offset (pv (peer_at s (ps_peer c))) +d ps_synch c)) (ad_peers a)).

Lemma admit_peer_spec s a s1 p :
  p ∈ peer_list s -> unseen s s1 -> admits s a ->
  let '(a', s') := admit_peer (a, s1) p in unseen s s' /\ admits s a'.
Proof.
  intros Hp Hu (A1 & A2 & A3). unfold admit_peer.
  set (s2 := set_status p CTL_PST_SEL_REJECT s1).
  assert (Hu2 : unseen s s2) by (eapply unseen_trans; [exact Hu | apply set_status_unseen]).
  pose proof (peer_unfit_unseen p s2) as Hu3.
  assert (Hfit : (peer_unfit p s2).1 = unfit_tests s p) by (cbn; now apply unseen_fit).
  destruct (peer_unfit p s2) as [unfit s3]. cbn [fst snd] in *.
  assert (Hs3 : unseen s s3) by eauto using unseen_trans.
  unfold nonzero. destruct (Z.eqb_spec unfit 0) as [E | E]; cbn [negb]; [| done].
  assert (Hf : fit s p) by (split; [done | congruence]).
  destruct (p_stratum (peer_at s3 p) =? sys_orphan (cf s3)).
  { destruct (_ && (_ <d _)); (split; [done |]); [| done]. split; [done |]. split; [| done]. cbn. naive_solver. }
  destruct (_ <? p_stratum (peer_at s3 p)); [done |].
  destruct (_ && (p_refclktype (peer_at s3 p) =? REFCLK_LOCALCLOCK)).
  { split; [done |]. destruct (_ && bool_decide _); [| done]. split; [done |]. split; [| done]. cbn. naive_solver. }
  destruct (_ && (p_refclktype (peer_at s3 p) =? REFCLK_ACTS)).
  { split; [done |]. destruct (_ && bool_decide _); [| done]. split; [done |]. split; [| done]. cbn. naive_solver. }
  assert (Hs4 : unseen s (set_status p CTL_PST_SEL_SANE s3))
    by (eapply unseen_trans; [exact Hs3 | apply set_status_unseen]).
  split; [done |]. split; [| split].
  - cbn. intros c. rewrite elem_of_app, list_elem_of_singleton. intros [Hc | ->]; auto.
  - exact A2.
  - cbn. rewrite A3, map_app. unfold ends_of. rewrite flat_map_app. cbn.
    rewrite (unseen_field (fun r => p_offset (pv r)) s _ p) by done. done.
Qed.

Lemma candidates_spec s :
  let '(a, s') := candidates s in unseen s s' /\ admits s a.
Proof.
  unfold candidates.
  assert (Hl : forall p, p ∈ peer_list s -> p ∈ peer_list s) by done. revert Hl.
  generalize (peer_list s) at 1 3 as l.
  assert (H0 : admits s (mk_admission [] [] None (dofZ 2 *d dofZ 0xffffffff) None None)).
  { split; [set_solver |]. split; [cbn; naive_solver | done]. }
  pose proof (unseen_refl s) as Hu. revert Hu H0.
  generalize (mk_admission [] [] None (dofZ 2 *d dofZ 0xffffffff) None None) as a.
  generalize s at 2 5 as s1. intros s1 a Hu H0 l Hl. revert s1 a Hu H0.
  induction l as [|p l IH]; intros s1 a Hu H0; cbn [fold_left]; [done |].
  pose proof (admit_peer_spec s a s1 p (Hl p ltac:(set_solver)) Hu H0) as Hstep.
  destruct (admit_peer (a, s1) p) as [a' s']. destruct Hstep. apply IH; auto. set_solver.
Qed.

(** ** Cull and cluster *)

Lemma cull_sub s low high l pps c :
  c ∈ (cull s low high l pps).1 -> c ∈ l /\ falseticker s low high c = false.
Proof.
  revert pps. induction l as [|x l IH]; intros pps; cbn [cull]; [set_solver |].
  destruct (falseticker s low high x) eqn:E; [intros Hc; apply IH in Hc; set_solver |].
  destruct (has _ _); [intros Hc; apply IH in Hc; set_solver |].
  specialize (IH pps). destruct (cull s low high l pps) as [l' pps']. cbn [fst] in *.
  rewrite !elem_of_cons. intros [-> | Hc]; [auto | naive_solver].
Qed.

Lemma cull_pps s low high l pps q :
  (cull s low high l pps).2 = Some q -> pps = Some q \/ exists c, c ∈ l /\ ps_peer c = q.
Proof.
  revert pps. induction l as [|x l IH]; intros pps; cbn [cull]; [auto |].
  destruct (falseticker s low high x); [intros Hc; apply IH in Hc; set_solver |].
  destruct (has _ _).
  - intros Hc. apply IH in Hc as [Hc | (c & ? & ?)]; [| right; exists c; set_solver].
    destruct pps; [auto |]. right. exists x. split; [set_solver | congruence].
  - specialize (IH pps). destruct (cull s low high l pps) as [l' pps']. cbn [snd] in *.
    intros Hc. destruct (IH Hc) as [? | (c & ? & ?)]; [auto | right; exists c; set_solver].
Qed.

Lemma with_jitter_peers s l : map ps_peer (with_jitter s l) = map ps_peer l.
Proof. unfold with_jitter. rewrite map_map. done. Qed.
Lemma with_jitter_length s l : length (with_jitter s l) = length l.
Proof. apply length_map. Qed.

Lemma worst_range l i d e g k : (worst l i d e g k).2 = k \/ (i <= (worst l i d e g k).2 < i + length l)%nat.
Proof.
  revert i d e g k. induction l as [|x l IH]; intros i d e g k; cbn [worst]; [auto |].
  destruct (_ <d _); cbn [length].
  - destruct (IH (S i) (if ps_error x <d d then ps_error x else d) (ps_seljit x *d ps_synch x) (ps_seljit x) i); lia.
  - destruct (IH (S i) (if ps_error x <d d then ps_error x else d) e g k); lia.
Qed.

Lemma drop_at_sub k l : drop_at k l `sublist_of` l.
Proof.
  unfold drop_at. rewrite <- (take_drop k l) at 3. apply sublist_app; [done |].
  replace (S k) with (k + 1)%nat by lia. rewrite <- drop_drop. apply sublist_drop.
Qed.
Lemma drop_at_length k l : (k < length l)%nat -> S (length (drop_at k l)) = length l.
Proof. intros Hk. unfold drop_at. rewrite length_app, length_take, length_drop. lia. Qed.
Lemma drop_at_keeps k l c : c ∈ l -> c <> nth k l zero_select -> c ∈ drop_at k l.
Proof.
  intros Hc Hne. unfold drop_at. rewrite <- (take_drop k l), elem_of_app in Hc. apply elem_of_app.
  destruct Hc as [Hc | Hc]; [auto | right]. revert Hc Hne. rewrite nth_lookup.
  destruct (l !! k) as [x|] eqn:E.
  - rewrite (drop_S l x k E), elem_of_cons. naive_solver.
  - apply lookup_ge_None in E. rewrite drop_ge by lia. set_solver.
Qed.

(** A survivor with the immunity idol. *)
Definition immune (s : state) (p : Z) : bool := has (p_flags (peer_at s p)) (FLAG_TRUE .| FLAG_PREFER).

Lemma unseen_immune s s' p : unseen s s' -> immune s' p = immune s p.
Proof. intros Hu. unfold immune. now rewrite (unseen_field p_flags s s' p). Qed.

(** The outcome of the cluster loop, by peers. *)
Record clustered (s : state) (peers : list peer_select) (s' : state) (peers' : list peer_select) : Prop := {
  cs_unseen : unseen s s';
  cs_sub : map ps_peer peers' `sublist_of` map ps_peer peers;
  cs_immune : forall p, p ∈ map ps_peer peers -> immune s p = true -> p ∈ map ps_peer peers';
  cs_least : Z.min (Z.of_nat (length peers)) (Z.max 1 (sys_minclock (cf s))) <= Z.of_nat (length peers') }.

Lemma cluster_spec fuel peers s :
  (length peers < fuel)%nat ->
  exists peers' s', cluster fuel peers s = Some (peers', s') /\ clustered s peers s' peers'.
Proof.
  revert peers s. induction fuel as [|fuel IH]; intros peers s Hf; [lia |]. cbn [cluster].
  pose proof (worst_range (with_jitter s peers) 0 BIG NEGBIG dzero 0) as Hk.
  destruct (worst (with_jitter s peers) 0 BIG NEGBIG dzero 0) as [[d g] k]. cbn [snd] in Hk.
  rewrite with_jitter_length in *. set (jp := with_jitter s peers) in *.
  set (pk := ps_peer (nth k jp zero_select)).
  destruct (_ || has _ _) eqn:Estop.
  - exists jp, s. split; [done |]. split; [apply unseen_refl | | |].
    + unfold jp. now rewrite with_jitter_peers.
    + unfold jp. now rewrite with_jitter_peers.
    + unfold jp. rewrite with_jitter_length. lia.
  - rewrite !orb_false_iff in Estop. destruct Estop as [[Hn _] Himm]. apply Z.leb_gt in Hn.
    assert (Hklt : (k < length jp)%nat) by (unfold jp; rewrite with_jitter_length; lia).
    set (s1 := if _ <? _ then upd_peer pk _ s else s).
    assert (Hu : unseen s s1) by (unfold s1; case_match; auto with ntp; now apply unseen_upd).
    pose proof (drop_at_length k jp Hklt) as Hlen.
    assert (Hjl : length jp = length peers) by apply with_jitter_length.
    destruct (IH (drop_at k jp) s1) as (peers' & s' & E & [C1 C2 C3 C4]); [lia |].
    exists peers', s'. split; [exact E |]. split.
    + eapply unseen_trans; eauto.
    + etransitivity; [exact C2 |]. rewrite <- (with_jitter_peers s peers). fold jp.
      apply fmap_sublist. apply drop_at_sub.
    + intros p Hp Hi. apply C3; [| now rewrite (unseen_immune s s1)].
      rewrite <- (with_jitter_peers s peers) in Hp. fold jp in Hp.
      apply list_elem_of_In, in_map_iff in Hp as (c & <- & Hc).
      apply list_elem_of_In, in_map. apply list_elem_of_In, drop_at_keeps; [now apply list_elem_of_In |].
      intros ->. unfold immune in Hi. fold pk in Hi. congruence.
    + rewrite (un_cf _ _ Hu) in C4. lia.
Qed.

Lemma mark_unseen l st s :
  unseen s (fold_left (fun s c => set_status (ps_peer c) st s) l s).
Proof.
  revert s. induction l as [|c l IH]; intros s; cbn [fold_left]; [apply unseen_refl |].
  eapply unseen_trans; [apply set_status_unseen | apply IH].
Qed.

Lemma survivors_spec s :
  exists peers pps s', survivors s = Some (peers, pps, s') /\ unseen s s' /\
    (forall c, c ∈ peers -> fit s (ps_peer c)) /\ (forall q, pps = Some q -> fit s q).
Proof.
  unfold survivors. pose proof (candidates_spec s) as Ha. destruct (candidates s) as [a s1].
  destruct Ha as [Hu1 (A1 & A2 & _)].
  destruct (intersection_interval (ad_ends a) (length (ad_peers a))) as [[allow low] high].
  pose proof (cull_sub s1 low high (ad_peers a) None) as Hc.
  pose proof (cull_pps s1 low high (ad_peers a) None) as Hp.
  destruct (cull s1 low high (ad_peers a) None) as [l0 pps]. cbn [fst snd] in *.
  set (l1 := match l0 with [] => last_resort s1 a | _ => l0 end).
  assert (Hl1 : forall c, c ∈ l1 -> fit s (ps_peer c)).
  { intros c Hin. assert (Hor : c ∈ l0 \/ c ∈ last_resort s1 a) by (unfold l1 in Hin; destruct l0; auto).
    destruct Hor as [Hin' | Hin']; [apply A1, Hc, Hin' |]. apply A2. unfold last_resort in Hin'.
    repeat case_match; rewrite ?list_elem_of_singleton in Hin'; subst; auto; set_solver. }
  pose proof (mark_unseen l1 CTL_PST_SEL_SELCAND s1) as Hu2. set (s2 := fold_left _ l1 s1) in *.
  destruct (cluster_spec (S (length l1)) l1 s2) as (peers & s3 & -> & [C1 C2 _ _]); [lia |].
  exists peers, pps, s3. split; [done |]. split; [eauto using unseen_trans |]. split.
  - intros c Hin. assert (Hm : ps_peer c ∈ map ps_peer l1).
    { eapply elem_of_sublist; [| exact C2]. apply list_elem_of_In, in_map. now apply list_elem_of_In. }
    apply list_elem_of_In, in_map_iff in Hm as (c' & <- & Hc'). apply Hl1. now apply list_elem_of_In.
  - intros q ->. destruct (Hp q eq_refl) as [? | (c & Hin & <-)]; [done | auto].
Qed.

(** ** The system peer *)

(** Offsets and settings through the marking loop. *)
Record same_offsets (s s' : state) : Prop := {
  so_cf : cf s' = cf s;
  so_off : forall q, p_offset (pv (peer_at s' q)) = p_offset (pv (peer_at s q)) }.

Lemma same_offsets_trans s1 s2 s3 : same_offsets s1 s2 -> same_offsets s2 s3 -> same_offsets s1 s3.
Proof. intros [] []. split; congruence. Qed.
Lemma same_offsets_upd p f s :
  (forall r, p_offset (pv (f r)) = p_offset (pv r)) -> same_offsets s (upd_peer p f s).
Proof. intros Hf. split; [done |]. intros q. rewrite peer_at_upd. case_decide; subst; auto. Qed.
Lemma unseen_offsets s s' : unseen s s' -> same_offsets s s'.
Proof. intros Hu. split; [apply Hu |]. intros q. now apply (unseen_field (fun r => p_offset (pv r))). Qed.

Lemma mark_survivor_spec n t s c :
  let '(t', s') := mark_survivor n (t, s) c in
  same_offsets s s' /\ ta_i t' = S (ta_i t) /\
  (ta_speer t' = ta_speer t \/ ta_speer t' = ta_i t) /\
  (ta_prefer t' = ta_prefer t \/ ta_prefer t' = Some (ps_peer c)).
Proof.
  unfold mark_survivor. cbv zeta.
  assert (H1 : same_offsets s (set_status (ps_peer c) CTL_PST_SEL_SYNCCAND
                                 (upd_peer (ps_peer c) (fun r => r <| p_unreach := 0 |>) s))).
  { eapply same_offsets_trans; apply same_offsets_upd; done. }
  destruct H1 as [H1 H2].
  match goal with |- context [if (?x <d ta_e t) then _ else _] => destruct (x <d ta_e t) end;
    (split; [repeat case_match; split; first [exact H1 | exact H2] |]);
    (split; [done |]); (split; [auto |]); cbn [ta_prefer]; repeat case_match; auto.
Qed.

Lemma mark_survivors_spec peers s :
  let '(t, s') := mark_survivors peers s in
  same_offsets s s' /\ (peers <> [] -> (ta_speer t < length peers)%nat) /\
  (forall p, ta_prefer t = Some p -> exists c, c ∈ peers /\ ps_peer c = p).
Proof.
  unfold mark_survivors. generalize (Z.of_nat (length peers)) as n. intros n.
  assert (HI : forall l t s0, same_offsets s s0 ->
    let '(t', s') := fold_left (mark_survivor n) l (t, s0) in
    same_offsets s s' /\
    (ta_speer t' = ta_speer t \/ (ta_i t <= ta_speer t' < ta_i t + length l)%nat) /\
    (forall p, ta_prefer t' = Some p -> ta_prefer t = Some p \/ exists c, c ∈ l /\ ps_peer c = p)).
  { induction l as [|c l IH]; intros t s0 Hs; cbn [fold_left]; [auto |].
    pose proof (mark_survivor_spec n t s0 c) as Hm. destruct (mark_survivor n (t, s0) c) as [t1 s1].
    destruct Hm as (M1 & M2 & M3 & M4). specialize (IH t1 s1 (same_offsets_trans _ _ _ Hs M1)).
    destruct (fold_left (mark_survivor n) l (t1, s1)) as [t2 s2]. destruct IH as (I1 & I2 & I3).
    split; [done |]. cbn [length]. split; [lia |]. intros p Hp.
    destruct (I3 p Hp) as [E | (x & Hx & Ex)]; [| right; exists x; set_solver].
    destruct M4 as [M4 | M4]; [left; congruence | right; exists c; split; [set_solver | congruence]]. }
  specialize (HI peers (mk_tally BIG 0 None 0) (s <|sv leap_vote := 0 |>) ltac:(now split)).
  destruct (fold_left _ peers _) as [t s']. destruct HI as (H1 & H2 & H3). cbn in H2, H3.
  split; [done |]. split.
  - intros Hne. destruct peers; [done |]. cbn [length] in *. lia.
  - intros p Hp. destruct (H3 p Hp) as [? | ?]; [done | auto].
Qed.

(** The clockhop rule keeps the winner or the old system peer near it. *)
Lemma clockhop_spec osys cand s :
  (clockhop osys cand s).1 = cand \/
  exists o, osys = Some o /\ (clockhop osys cand s).1 = o /\
    (dabs (p_offset (pv (peer_at s cand)) -d p_offset (pv (peer_at s o))) <d sys_mindisp (cf s)) = true.
Proof.
  unfold clockhop. destruct osys as [o|]; [| auto]. destruct (o =? cand); [auto |].
  set (x := dabs (_ -d _)). destruct (x <d sys_mindisp (cf s)) eqn:E; [| auto].
  set (hop := if deq _ _ then _ else _). destruct (dabs x <d hop); [| auto].
  right. exists o. auto.
Qed.

(** [clock_select] always returns. *)
Lemma clock_select_total (s : state) : exists s', clock_select s = Some s'.
Proof.
  unfold clock_select, elect.
  destruct (survivors_spec (s <|sv sys_survivors := 0 |>)) as (peers & pps & s1 & -> & _).
  cbn [mbind option_bind]. destruct (choose_system _ peers s1) as [[ts pr] s2].
  cbn [mbind option_bind]. destruct (apply_pps pps pr ts s2) as [ts' s3]. eauto.
Qed.

(** C7: the system peer is fit.  The peer [clock_select] settles on is on the
    peer list and passed every test of [peer_unfit] in this pass (leap and
    stratum, root distance, synchronization loop, reachability), or it is
    the previous system peer kept by the anti-clockhop rule, with an offset
    within [sys_mindisp] of that of a fit survivor. *)
Theorem system_peer_fit (s s' : state) (c : Z) :
  elect s = Some (Some c, s') ->
  fit s c \/
  (sys_peer (sv s) = Some c /\ exists w, fit s w /\
     (dabs (p_offset (pv (peer_at s w)) -d p_offset (pv (peer_at s c))) <d sys_mindisp (cf s)) = true).
Proof.
  unfold elect. set (s0 := s <|sv sys_survivors := 0 |>).
  assert (Hf : forall p, fit s0 p -> fit s p) by (intros p; now apply fit_ext).
  intros E. enough (fit s0 c \/ (sys_peer (sv s) = Some c /\ exists w, fit s0 w /\
     (dabs (p_offset (pv (peer_at s0 w)) -d p_offset (pv (peer_at s0 c))) <d sys_mindisp (cf s0)) = true))
    as [Hc | (Eo & w & Hw & Hd)];
    [left; exact (Hf c Hc) | right; split; [exact Eo |]; exists w; split; [exact (Hf w Hw) | exact Hd] |].
  clear Hf. revert E. generalize (sys_peer (sv s)) as osys.
  clearbody s0. clear s. rename s0 into s. intros osys.
  destruct (survivors_spec s) as (peers & pps & s1 & -> & Hu & Hfit & Hpps). cbn [mbind option_bind].
  destruct (choose_system osys peers s1) as [[ts pr] s2] eqn:E2. intros [= E3]. unfold apply_pps in E3.
  assert (Hts : ts = Some c \/ pps = Some c).
  { destruct pps as [q|]; [| injection E3; auto]. revert E3. cbv zeta.
    match goal with |- context [if ?b then _ else _] => destruct b end; intros [= <-]; auto. }
  clear E3. destruct Hts as [-> | ->]; [| left; auto].
  unfold choose_system in E2. pose proof (mark_survivors_spec peers s1) as Hm.
  destruct (mark_survivors peers s1) as [t s1m]. destruct Hm as (Mo & Mi & Mp).
  destruct (_ && _) eqn:Eg; [| discriminate E2].
  assert (Hne : peers <> []) by (intros ->; discriminate Eg).
  set (w := ps_peer (nth (ta_speer t) peers zero_select)) in *.
  assert (Hw : fit s w).
  { apply Hfit. apply list_elem_of_In, nth_In. auto. }
  pose proof (clockhop_spec osys w s1m) as Hc.
  destruct (clockhop osys w s1m) as [x s1h]. cbn [fst] in Hc.
  destruct (ta_prefer t) as [q|] eqn:Ep.
  - injection E2 as <- _ _. destruct (Mp q eq_refl) as (y & Hy & <-). left. auto.
  - injection E2 as <- _ _. destruct Hc as [-> | (o & Eo & -> & Hd)]; [auto |]. right.
    split; [done |]. exists w. split; [done |].
    pose proof (unseen_offsets _ _ Hu) as [_ Hof]. destruct Mo as [Mc Mo].
    rewrite <- !Hof, <- !Mo, <- (un_cf _ _ Hu), <- Mc. exact Hd.
Qed.

(** C29: the cluster loop prunes safely: from any candidate list it stops
    within one round per candidate, leaves a subsequence of the candidates,
    never removes a peer marked [true] or [prefer], and leaves at least
    [max(1, sys_minclock)] survivors when there were that many. *)
Theorem cluster_survivors (peers : list peer_select) (s : state) :
  exists peers' s', cluster (S (length peers)) peers s = Some (peers', s') /\
    map ps_peer peers' `sublist_of` map ps_peer peers /\
    (forall p, p ∈ map ps_peer peers -> immune s p = true -> p ∈ map ps_peer peers') /\
    Z.min (Z.of_nat (length peers)) (Z.max 1 (sys_minclock (cf s))) <= Z.of_nat (length peers').
Proof.
  destruct (cluster_spec (S (length peers)) peers s ltac:(lia)) as (peers' & s' & E & []). eauto 10.
Qed.
End Fit.

Lemma system_peer_fit_witness :
  exists s', @elect sample_env sample_state = Some (Some 1, s') /\
    (@fit sample_env sample_state 1 \/
     (sys_peer (sv sample_state) = Some 1 /\ exists w, @fit sample_env sample_state w /\
        (dabs (p_offset (pv (peer_at sample_state w)) -d p_offset (pv (peer_at sample_state 1)))
         <d sys_mindisp (cf sample_state)) = true)).
Proof.
  assert (E : (match @elect sample_env sample_state with
               | Some (Some c, _) => c =? 1
               | _ => false
               end) = true) by (vm_compute; reflexivity).
  destruct (@elect sample_env sample_state) as [[[c|] s']|] eqn:Ee; try discriminate E.
  apply Z.eqb_eq in E as ->. exists s'. split; [reflexivity |]. exact (system_peer_fit _ s' 1 Ee).
Defined.
