(* ===== verification/Filter.v ===== *)
(** * Clock filter: [clock_filter] of ntpd/ntp_proto.c

    The shift register of the last eight samples, the distance sort, the
    dispersion and jitter estimates and the popcorn spike suppressor.  The
    arrays [dst] and [ord], whose entries move together, are one list of
    pairs; indices of the registers are natural numbers. *)

From S2P Require Import Prelude FixedPoint Double Lists NtpTypes AuthKeys Monitor Restrict State ProtoBase Select.
From stdpp Require Import base gmap list.
#[local] Open Scope Z_scope.

(** [filter_x[j]] *)
Definition reg (l : list double) (j : nat) : double := nth j l dzero.
Definition ereg (l : list Z) (j : nat) : Z := nth j l 0.
Definition next_index (j : nat) : nat := ((j + 1) mod 8)%nat.

(** The new sample, shifted in over the oldest. *)
Definition shift_in (offset delay disp : double) (now : Z) (r : peer) : peer :=
  let j := Z.to_nat (p_filter_nextpt (pv r)) in
  r <|| p_filter_offset := <[j := offset]> (p_filter_offset (pv r)) ||>
    <|| p_filter_delay := <[j := delay]> (p_filter_delay (pv r)) ||>
    <|| p_filter_disp := <[j := disp]> (p_filter_disp (pv r)) ||>
    <|| p_filter_epoch := <[j := now]> (p_filter_epoch (pv r)) ||>
    <|| p_filter_nextpt := Z.of_nat (next_index j) ||>.

(** The body of the aging loop: the dispersion clamped, and the distance. *)
Definition age_sample (d delay : double) (beyond_allan : bool) : double * double :=
  if MAXDISPERSE <=d d then (MAXDISPERSE, MAXDISPERSE)
  else if beyond_allan then (d, delay +d d)
  else (d, delay).

(** The aging loop, [i] counting down: the dispersions, and the distances
    with their sample indices. *)
Fixpoint age (i j : nat) (dtemp : double) (update allan : Z) (delay : list double) (epoch : list Z)
    (disp : list double) (samples : list (double * nat)) : list double * list (double * nat) :=
  match i with
  | O => (disp, samples)
  | S i =>
      let d := if (i =? 0)%nat then reg disp j else reg disp j +d dtemp in
      let x := age_sample d (reg delay j) (allan <? u64 (update - ereg epoch j)) in
      age i (next_index j) dtemp update allan delay epoch (<[j := fst x]> disp) ((snd x, j) :: samples)
  end.

(** The inner loop of the sort: [x] is entry [i], exchanged with every
    earlier entry of greater distance. *)
Fixpoint exchange (l : list (double * nat)) (x : double * nat) : list (double * nat) * (double * nat) :=
  match l with
  | [] => ([], x)
  | y :: l =>
      let '(y, x) := if fst x <d fst y then (x, y) else (y, x) in
      let '(l, x) := exchange l x in (y :: l, x)
  end.

Fixpoint sort_samples (done_ rest : list (double * nat)) : list (double * nat) :=
  match rest with
  | [] => done_
  | x :: rest => let '(l, x) := exchange done_ x in sort_samples (l ++ [x]) rest
  end.

(** The number of samples kept for the jitter. *)
Definition prune (maxdist : double) (samples : list (double * nat)) : Z :=
  fold_left (fun m x =>
    if (MAXDISPERSE <=d fst x) || ((2 <=? m) && (maxdist <=d fst x)) then m else m + 1) samples 0.

(** The dispersion and jitter sums, from the last sample to the first. *)
Fixpoint sums (r : peer) (m : Z) (k : nat) (i : Z) (samples : list (double * nat)) : double * double :=
  match samples with
  | [] => (dzero, dzero)
  | (_, j) :: rest =>
      let '(disp, jitter) := sums r m k (i + 1) rest in
      (NTP_FWEIGHT *d (disp +d reg (p_filter_disp (pv r)) j),
       if i <? m then jitter +d DIFF (reg (p_filter_offset (pv r)) j) (reg (p_filter_offset (pv r)) k)
       else jitter)
  end.

Section Filter.
Context `{Env}.

(** Shift, age and sort: the samples in order of distance. *)
Definition order_samples (offset delay disp : double) (s : state) (r : peer)
    : peer * list (double * nat) :=
  let now := current_time s in
  let r := shift_in offset delay disp now r in
  let dtemp := phi_since s (p_update r) in
  let r := r <| p_update := now |> in
  let v := pv r in
  let '(fd, samples) := age 8 (Z.to_nat (p_filter_nextpt v)) dtemp (p_update r)
                          (u64 (dtrunc (ULOGTOD (allan_xpt (cf s))))) (p_filter_delay v)
                          (p_filter_epoch v) (p_filter_disp v) [] in
  let r := r <|| p_filter_disp := fd ||> in
  let samples := if freq_cnt (sv s) =? 0 then sort_samples (take 1 samples) (drop 1 samples) else samples in
  (r <|| p_filter_order := map (fun x => Z.of_nat (snd x)) samples ||>, samples).

Definition popcorn (s : state) (r : peer) (k : nat) (etemp : double) : bool :=
  (p_disp (pv r) <d sys_maxdist (cf s)) && (reg (p_filter_disp (pv r)) k <d sys_maxdist (cf s))
  && (CLOCK_SGATE *d p_jitter (pv r) <d etemp)
  && (dofZ (u64 (ereg (p_filter_epoch (pv r)) k - p_epoch (pv r))) <d dofZ 2 *d ULOGTOD (p_hpoll r)).

Definition clock_filter (p : Z) (offset delay disp : double) (s : state) : option state :=
  let '(r, samples) := order_samples offset delay disp s (peer_at s p) in
  let m := prune (sys_maxdist (cf s)) samples in
  let k := match samples with (_, k) :: _ => k | [] => 0%nat end in
  let '(d, jitter) := sums r m k 0 samples in
  let r := r <|| p_disp := d ||> <|| p_jitter := jitter ||> in
  if m =? 0 then clock_select (put_peer p r s)
  else
    let etemp := dabs (p_offset (pv r) -d reg (p_filter_offset (pv r)) k) in
    let r := r <|| p_offset := reg (p_filter_offset (pv r)) k ||>
               <|| p_delay := reg (p_filter_delay (pv r)) k ||> in
    let jitter := if 1 <? m then p_jitter (pv r) /d dofZ (m - 1) else p_jitter (pv r) in
    let r := r <|| p_jitter := dmax (SQRT jitter) (LOGTOD (sys_precision (sv s))) ||> in
    if popcorn s r k etemp then Some (report_event PEVNT_POPCORN (Some p) (put_peer p r s))
    else if ereg (p_filter_epoch (pv r)) k <=? p_epoch (pv r) then Some (put_peer p r s)
    else
      let r := r <|| p_epoch := ereg (p_filter_epoch (pv r)) k ||> in
      let s := put_peer p r s in
      if (p_burst (pv r) =? 0) || (sys_leap (sv s) =? LEAP_NOTINSYNC) then clock_select s
      else Some s.

End Filter.
