(* ===== verification/RefclockPoll.v ===== *)
(** * Reference clocks: polling and control, ntpd/ntp_refclock.c

    [refclock_transmit] polls the driver, [refclock_receive] takes the
    samples collected into the clock filter, [refclock_control] sets and
    reads the fudge factors. *)

From S2P Require Import Prelude FixedPoint Double NtpTypes State ProtoBase LoopFilter Refclock Peer Select Filter.
From stdpp Require Import base gmap list.
#[local] Open Scope Z_scope.

Definition NSTAGE : Z := 5.
Definition FUDGEFAC : double := dlit 1 1.
Definition CLK_HAVETIME1 : Z := 0x1.
Definition CLK_HAVETIME2 : Z := 0x2.
Definition CLK_HAVEVAL1 : Z := 0x4.
Definition CLK_HAVEVAL2 : Z := 0x8.
Definition CLK_FLAGS : list Z := [0x1; 0x2; 0x4; 0x8].

Section Poll.
Context `{Env}.

Definition refclock_transmit (p : Z) (s : state) : option state :=
  let clktype := p_refclktype (peer_at s p) in
  let unit := p_refclkunit (peer_at s p) in
  let s := upd_peer p (fun r => r <| p_sent := u64 (p_sent r + 1) |>) s in
  let '(now, s) := get_systime s in
  let s := upd_peer p (fun r => r <|| p_xmt := now ||>) s in
  s ← (if p_burst (pv (peer_at s p)) =? 0 then
         let oreach := p_reach (pv (peer_at s p)) .& 0xfe in
         let s := upd_peer p (fun r => r <|| p_reach := u8 (Z.shiftl (p_reach (pv r)) 1) ||>) s in
         s ← (if has (p_reach (pv (peer_at s p))) 0x0f then Some s else clock_filter p dzero dzero MAXDISPERSE s);
         let s := upd_peer p (fun r => r <| p_outdate := current_time s |>) s in
         Some (if p_reach (pv (peer_at s p)) =? 0 then
                 if nonzero oreach
                 then upd_peer p (fun r => r <| p_timereachable := current_time s |>)
                        (report_event PEVNT_UNREACH (Some p) s)
                 else s
               else if has (p_flags (peer_at s p)) FLAG_BURST
               then upd_peer p (fun r => r <|| p_burst := NSTAGE ||>) s else s)
       else Some (upd_peer p (fun r => r <|| p_burst := s32 (p_burst (pv r) - 1) ||>) s));
  let s := match driver_of clktype ≫= clock_poll with None => s | Some poll => poll unit p s end in
  Some (poll_update p (p_hpoll (peer_at s p)) s).

(** The calibration against a PPS signal. *)
Definition calibrates (p : Z) (s : state) : bool :=
  nonzero (cal_enable (cf s)) && (dabs (last_offset (lp s)) <d sys_mindisp (cf s)) &&
  match sys_peer (sv s) with
  | None => false
  | Some q => (p_refclktype (peer_at s q) =? REFCLK_ATOM_PPS) && negb (p_refclktype (peer_at s p) =? REFCLK_ATOM_PPS)
  end.

(** [None] is the null dereference of a peer without interface. *)
Definition refclock_receive (p : Z) (s : state) : option state :=
  pp ← p_procptr (peer_at s p);
  let s := upd_peer p (fun r => r <| p_leap := pp_leap pp |>) s in
  if pp_leap pp =? LEAP_NOTINSYNC then Some s
  else
    let s := upd_peer p (fun r => r <| p_received := u64 (p_received r + 1) |>
                                    <| p_timereceived := current_time s |>) s in
    let s := if p_reach (pv (peer_at s p)) =? 0
             then upd_peer p (fun r => r <| p_timereachable := current_time s |>) (report_event PEVNT_REACH (Some p) s)
             else s in
    let s := upd_peer p (fun r => r <|| p_reach := p_reach (pv r) .| 1 ||> <| p_reftime := pp_lastref pp |>
                                    <|| p_aorg := pp_lastrec pp ||> <| p_rootdisp := pp_disp pp |>) s in
    let '(now, s) := get_systime s in
    let s := upd_peer p (fun r => r <|| p_dst := now ||>) s in
    let '(n, pp) := refclock_sample (sys_precision (sv s)) pp in
    let s := upd_proc p (fun _ => pp) s in
    if n =? 0 then Some s
    else
      s ← clock_filter p (pp_offset pp) dzero (pp_jitter pp) s;
      Some (if calibrates p s
            then upd_proc p (fun pp => pp <| pp_fudgetime1 := pp_fudgetime1 pp -d pp_offset pp *d FUDGEFAC |>) s
            else s).

(** ** [refclock_control] *)

Definition given (have : Z) (in_ : refclockstat) : bool := has (rs_haveflags in_) have.

(** The fudge flags; the bit that says a flag is given is four places up. *)
Definition fudge_flags (in_ : refclockstat) (f : Z) : Z :=
  fold_left (fun f b => if given (Z.shiftl b 4) in_ then u8 (clr f b .| (rs_flags in_ .& b)) else f) CLK_FLAGS f.

(** The settings from the configuration. *)
Definition fudge (in_ : refclockstat) (p : Z) (s : state) : state :=
  let s := if given CLK_HAVETIME1 in_ then upd_proc p (fun pp => pp <| pp_fudgetime1 := rs_fudgetime1 in_ |>) s else s in
  let s := if given CLK_HAVETIME2 in_ then upd_proc p (fun pp => pp <| pp_fudgetime2 := rs_fudgetime2 in_ |>) s else s in
  let s := if given CLK_HAVEVAL1 in_
           then upd_peer p (fun r => r <| p_stratum := u8 (rs_fudgeval1 in_) |>)
                  (upd_proc p (fun pp => pp <| pp_stratum := u8 (rs_fudgeval1 in_) |>) s) else s in
  let s := if given CLK_HAVEVAL2 in_
           then upd_peer p (fun r => r <| p_refid := rs_fudgeval2 in_ |>)
                  (upd_proc p (fun pp => pp <| pp_refid := rs_fudgeval2 in_ |>) s) else s in
  upd_proc p (fun pp => pp <| pp_sloppyclockflag := fudge_flags in_ (pp_sloppyclockflag pp) |>) s.

(** The state of the clock for the management protocols. *)
Definition clock_stat (now : Z) (pp : refclockproc) : refclockstat :=
  let flags := u8 (pp_sloppyclockflag pp) in
  let bit (b : bool) (x : Z) := if b then x else 0 in
  let have := CLK_HAVEVAL1 .| CLK_HAVEVAL2
              .| bit (negb (deq dzero (pp_fudgetime1 pp))) CLK_HAVETIME1
              .| bit (negb (deq dzero (pp_fudgetime2 pp))) CLK_HAVETIME2 in
  let have := fold_left (fun h b => h .| bit (has b flags) (Z.shiftl b 4)) CLK_FLAGS have in
  mk_stat flags have (pp_lastcode pp) (u32 (pp_polls pp)) (u32 (pp_noreply pp)) (u32 (pp_badformat pp))
    (u32 (pp_baddata pp)) (u32 (now - pp_timestarted pp)) (pp_fudgetime1 pp) (pp_fudgetime2 pp)
    (pp_stratum pp) (pp_refid pp) (pp_currentstatus pp) (pp_lastevent pp) (pp_type pp).

(** [out] says whether the caller asked for the state; [None] is the failed
    assertion that the peer has an interface. *)
Definition refclock_control (srcadr : sockaddr) (in_ : option refclockstat) (out : bool) (s : state) :
    option (option refclockstat * state) :=
  if negb (ISREFCLOCKADR srcadr) then Some (None, s)
  else
    match findexistingpeer srcadr None None (-1) 0 s with
    | None => Some (None, s)
    | Some p =>
        _ ← p_procptr (peer_at s p);
        let s := match in_ with None => s | Some i => fudge i p s end in
        let o := if out then clock_stat (current_time s) <$> p_procptr (peer_at s p) else None in
        Some (match driver_of (REFCLOCKTYPE srcadr) ≫= clock_control with
              | None => (o, s)
              | Some control => control (REFCLOCKUNIT srcadr) in_ o p s
              end)
    end.

End Poll.
