(* ===== verification/FilterFacts.v ===== *)
(** * The clock filter: register, sort and termination *)

From S2P Require Import Prelude FixedPoint Calendar Double Lists NtpTypes AuthKeys Monitor Restrict State ProtoBase Refclock Sample Select SelectFacts Filter.
From stdpp Require Import base gmap list sorting.
#[local] Open Scope Z_scope.

(** ** The sort *)

Definition le_sample (x y : double * nat) : Prop := le_d (fst x) (fst y).
Definition num_sample (x : double * nat) : Prop := is_num (fst x) = true.

Lemma exchange_perm l x : let '(l', y) := exchange l x in Permutation (l' ++ [y]) (x :: l).
Proof.
  revert x. induction l as [|y l IH]; intros x; cbn; [done |].
  destruct (_ <d _).
  - specialize (IH y). destruct (exchange l y) as [l' z]. cbn. now rewrite IH.
  - specialize (IH x). destruct (exchange l x) as [l' z]. cbn. rewrite IH. apply perm_swap.
Qed.

(** Everything before the carried entry is not above it. *)
Lemma exchange_sorted l x :
  Forall num_sample (x :: l) -> StronglySorted le_sample l ->
  let '(l', y) := exchange l x in
  StronglySorted le_sample (l' ++ [y]).
Proof.
  revert x. induction l as [|y l IH]; intros x Hn Hs; cbn; [repeat constructor |].
  apply Forall_cons in Hn as [Hx Hn]. apply Forall_cons in Hn as [Hy Hn].
  inversion Hs as [|? ? Hs' Hall]; subst.
  destruct (fst x <d fst y) eqn:E.
  - pose proof (exchange_perm l y) as P. specialize (IH y ltac:(now constructor) Hs').
    destruct (exchange l y) as [l' z]. cbn. constructor; [done |]. rewrite P. constructor.
    + now apply lt_le_d.
    + eapply Forall_impl; [exact Hall |]. intros w Hw. eapply le_d_trans; [exact Hy | now apply lt_le_d | exact Hw].
  - pose proof (exchange_perm l x) as P. specialize (IH x ltac:(now constructor) Hs').
    destruct (exchange l x) as [l' z]. cbn. constructor; [done |]. rewrite P. constructor; done.
Qed.

Lemma sort_samples_perm acc rest : Permutation (sort_samples acc rest) (acc ++ rest).
Proof.
  revert acc. induction rest as [|x rest IH]; intros acc; cbn; [now rewrite app_nil_r |].
  pose proof (exchange_perm acc x) as P. destruct (exchange acc x) as [l y].
  rewrite IH, P, <- Permutation_middle. done.
Qed.

Lemma sort_samples_sorted acc rest :
  Forall num_sample (acc ++ rest) -> StronglySorted le_sample acc ->
  StronglySorted le_sample (sort_samples acc rest).
Proof.
  revert acc. induction rest as [|x rest IH]; intros acc Hn Hs; cbn; [done |].
  pose proof (exchange_perm acc x) as P. pose proof (exchange_sorted acc x) as S.
  rewrite <- Permutation_middle in Hn.
  destruct (exchange acc x) as [l y]. apply IH; [now rewrite P | apply S; [| done]].
  apply Forall_cons in Hn as [? Hn]. apply Forall_app in Hn as [? _]. now constructor.
Qed.

(** ** The register *)

(** Eight entries each, and a valid write position. *)
Record filter_wf (v : peer_vars) : Prop := {
  fw_offset : length (p_filter_offset v) = 8%nat; fw_delay : length (p_filter_delay v) = 8%nat;
  fw_disp : length (p_filter_disp v) = 8%nat; fw_epoch : length (p_filter_epoch v) = 8%nat;
  fw_nextpt : 0 <= p_filter_nextpt v < 8 }.

(** The reference: sample [j] aged by [dtemp], unless it is the newest. *)
Definition aged (newest j : nat) (dtemp : double) (update allan : Z) (delay : list double)
    (epoch : list Z) (disp : list double) : double * double :=
  age_sample (if (j =? newest)%nat then reg disp j else reg disp j +d dtemp) (reg delay j)
    (allan <? u64 (update - ereg epoch j)).

(** The register index of the sample of age [i]. *)
Definition by_age (newest i : nat) : nat := ((newest + 8 - i) mod 8)%nat.

Lemma length8 {A} (l : list A) : length l = 8%nat ->
  exists a b c d e f g h, l = [a; b; c; d; e; f; g; h].
Proof.
  intros H. do 8 (destruct l as [|? l]; [discriminate |]). destruct l; [| discriminate]. eauto 10.
Qed.

Lemma age_reference newest dtemp update allan delay epoch disp :
  (newest < 8)%nat -> length delay = 8%nat -> length epoch = 8%nat -> length disp = 8%nat ->
  let A j := aged newest j dtemp update allan delay epoch disp in
  age 8 (next_index newest) dtemp update allan delay epoch disp [] =
    (map (fun j => fst (A j)) (seq 0 8),
     map (fun i => (snd (A (by_age newest i)), by_age newest i)) (seq 0 8)).
Proof.
  intros Hn Hd He Hs.
  destruct (length8 _ Hd) as (? & ? & ? & ? & ? & ? & ? & ? & ->).
  destruct (length8 _ He) as (? & ? & ? & ? & ? & ? & ? & ? & ->).
  destruct (length8 _ Hs) as (? & ? & ? & ? & ? & ? & ? & ? & ->).
  unfold aged. do 8 (destruct newest as [|newest]; [reflexivity |]). lia.
Qed.

Section Register.
Context `{Env}.

(** Distance and dispersion of sample [j] once a new sample is in. *)
Definition sample_at (offset delay disp : double) (s : state) (r : peer) (j : nat) : double * double :=
  let v := pv (shift_in offset delay disp (current_time s) r) in
  aged (Z.to_nat (p_filter_nextpt (pv r))) j (phi_since s (p_update r)) (current_time s)
    (u64 (dtrunc (ULOGTOD (allan_xpt (cf s))))) (p_filter_delay v) (p_filter_epoch v) (p_filter_disp v).

Definition unsorted (offset delay disp : double) (s : state) (r : peer) : list (double * nat) :=
  let newest := Z.to_nat (p_filter_nextpt (pv r)) in
  map (fun i => (snd (sample_at offset delay disp s r (by_age newest i)), by_age newest i)) (seq 0 8).

Lemma order_samples_spec offset delay disp s r :
  filter_wf (pv r) ->
  let samples := if freq_cnt (sv s) =? 0
                 then sort_samples (take 1 (unsorted offset delay disp s r)) (drop 1 (unsorted offset delay disp s r))
                 else unsorted offset delay disp s r in
  order_samples offset delay disp s r =
    ((shift_in offset delay disp (current_time s) r) <| p_update := current_time s |>
       <|| p_filter_disp := map (fun j => fst (sample_at offset delay disp s r j)) (seq 0 8) ||>
       <|| p_filter_order := map (fun x => Z.of_nat (snd x)) samples ||>, samples).
Proof.
  intros W. unfold order_samples. set (r1 := shift_in _ _ _ _ r).
  set (newest := Z.to_nat (p_filter_nextpt (pv r))).
  assert (Hn : (newest < 8)%nat) by (destruct (fw_nextpt _ W); unfold newest; lia).
  unfold unsorted, sample_at. fold r1. fold newest. cbv zeta.
  change (p_filter_nextpt (pv (r1 <| p_update := current_time s |>))) with (Z.of_nat (next_index newest)).
  change (pv (r1 <| p_update := current_time s |>)) with (pv r1).
  change (p_update (r1 <| p_update := current_time s |>)) with (current_time s).
  change (p_update r1) with (p_update r).
  rewrite Nat2Z.id, age_reference; [reflexivity | done | | |]; cbn; rewrite length_insert; apply W.
Qed.

Lemma by_age_perm newest : (newest < 8)%nat -> Permutation (map (by_age newest) (seq 0 8)) (seq 0 8).
Proof.
  intros Hn. apply NoDup_Permutation.
  - do 8 (destruct newest as [|newest]; [apply (bool_decide_unpack _); vm_compute; exact I |]). lia.
  - apply NoDup_seq.
  - intros x. do 8 (destruct newest as [|newest]; [vm_compute; set_solver |]). lia.
Qed.

Lemma samples_perm offset delay disp s r :
  filter_wf (pv r) ->
  Permutation (snd (order_samples offset delay disp s r))
    (map (fun j => (snd (sample_at offset delay disp s r j), j)) (seq 0 8)).
Proof.
  intros W. rewrite order_samples_spec by done. cbn [snd].
  assert (P : Permutation (unsorted offset delay disp s r)
                (map (fun j => (snd (sample_at offset delay disp s r j), j)) (seq 0 8))).
  { rewrite <- (by_age_perm (Z.to_nat (p_filter_nextpt (pv r)))) by (destruct (fw_nextpt _ W); lia).
    now rewrite map_map. }
  destruct (_ =? 0); [| exact P]. rewrite sort_samples_perm, take_drop. exact P.
Qed.

(** The shift register is equivalent to its definition.  A new sample
    replaces the oldest one; each of the eight entries is aged by the
    frequency tolerance times the time since the last update, except the
    newest, and clamped at MAXDISPERSE; its distance is the delay, plus the
    dispersion beyond the Allan intercept; the order kept for display is a
    permutation of the eight indices; and the register stays well formed. *)
Theorem filter_reference (offset delay disp : double) (s : state) (r : peer) :
  filter_wf (pv r) ->
  let (r', samples) := order_samples offset delay disp s r in
  filter_wf (pv r') /\
  p_filter_disp (pv r') = map (fun j => fst (sample_at offset delay disp s r j)) (seq 0 8) /\
  Permutation samples (map (fun j => (snd (sample_at offset delay disp s r j), j)) (seq 0 8)) /\
  Permutation (p_filter_order (pv r')) (map Z.of_nat (seq 0 8)) /\
  nth (Z.to_nat (p_filter_nextpt (pv r))) (p_filter_offset (pv r')) dzero = offset.
Proof.
  intros W. pose proof (samples_perm offset delay disp s r W) as P.
  pose proof (order_samples_spec offset delay disp s r W) as E. cbv zeta in E.
  match type of E with _ = (_, ?x) => generalize dependent x end. intros sm E.
  destruct (order_samples offset delay disp s r) as [r' samples]. cbn [snd] in P.
  pose proof (f_equal fst E) as Er. pose proof (f_equal snd E) as Es. cbn [fst snd] in Er, Es.
  clear E. rewrite Er. clear Er. subst sm. split; [split |].
  - cbn. rewrite length_insert. apply W.
  - cbn. rewrite length_insert. apply W.
  - cbn [pv p_filter_disp]. apply length_map.
  - cbn. rewrite length_insert. apply W.
  - change (0 <= Z.of_nat (next_index (Z.to_nat (p_filter_nextpt (pv r)))) < 8).
    pose proof (Nat.mod_upper_bound (Z.to_nat (p_filter_nextpt (pv r)) + 1) 8 ltac:(lia)).
    unfold next_index. lia.
  - split; [done |]. split; [exact P |]. split.
    + cbn. rewrite P, map_map. done.
    + cbn. rewrite nth_lookup, list_lookup_insert_eq; [done |]. rewrite (fw_offset _ W). destruct (fw_nextpt _ W). lia.
Qed.

(** Once the frequency has settled, the first of the samples in order is
    not farther than any of the eight. *)
Lemma best_first (offset delay disp : double) (s : state) (r : peer) :
  filter_wf (pv r) -> freq_cnt (sv s) = 0 ->
  (forall j, (j < 8)%nat -> is_num (snd (sample_at offset delay disp s r j)) = true) ->
  let samples := snd (order_samples offset delay disp s r) in
  StronglySorted le_sample samples /\
  exists d k rest, samples = (d, k) :: rest /\ (k < 8)%nat /\ d = snd (sample_at offset delay disp s r k) /\
    forall j, (j < 8)%nat -> le_d d (snd (sample_at offset delay disp s r j)).
Proof.
  intros W Hf Hn. pose proof (samples_perm offset delay disp s r W) as P. cbv zeta.
  assert (Hnum : Forall num_sample (snd (order_samples offset delay disp s r))).
  { rewrite P. apply Forall_map, Forall_forall. intros j Hj. apply Hn. apply elem_of_seq in Hj. lia. }
  assert (S : StronglySorted le_sample (snd (order_samples offset delay disp s r))).
  { rewrite (order_samples_spec offset delay disp s r W) in *. cbn [snd] in *. rewrite Hf in *. cbn [Z.eqb] in *.
    apply sort_samples_sorted; [| destruct (unsorted _ _ _ _ _); repeat constructor].
    rewrite take_drop. rewrite sort_samples_perm, take_drop in Hnum. exact Hnum. }
  split; [done |]. destruct (snd (order_samples offset delay disp s r)) as [|[d k] rest].
  { apply Permutation_length in P. discriminate. }
  inversion S as [|? ? _ Hall]; subst. exists d, k, rest. split; [done |].
  assert (Hk : (d, k) ∈ map (fun j => (snd (sample_at offset delay disp s r j), j)) (seq 0 8))
    by (rewrite <- P; left).
  apply list_elem_of_In, in_map_iff in Hk as (k' & [= <- ->] & Hk). apply in_seq in Hk.
  split; [lia |]. split; [done |]. intros j Hj.
  assert (Hin : (snd (sample_at offset delay disp s r j), j)
                ∈ (snd (sample_at offset delay disp s r k), k) :: rest).
  { rewrite P. apply list_elem_of_In, in_map_iff. exists j. split; [done |]. apply in_seq. lia. }
  apply elem_of_cons in Hin as [[= -> ->] | Hin].
  - apply dlt_irrefl.
  - rewrite Forall_forall in Hall. exact (Hall _ Hin).
Qed.

Lemma prune_pos maxdist l m : 0 <= m ->
  0 <= fold_left (fun m x =>
    if (MAXDISPERSE <=d fst x) || ((2 <=? m) && (maxdist <=d fst x)) then m else m + 1) l m /\
  (fold_left (fun m x =>
    if (MAXDISPERSE <=d fst x) || ((2 <=? m) && (maxdist <=d fst x)) then m else m + 1) l m = 0
   <-> m = 0 /\ Forall (fun x : double * nat => (MAXDISPERSE <=d fst x) = true) l).
Proof.
  revert m. induction l as [|x l IH]; intros m Hm; cbn [fold_left].
  { split; [done |]. split; [intros ->; split; [done | constructor] | tauto]. }
  rewrite Forall_cons. destruct (MAXDISPERSE <=d fst x) eqn:E; cbn [orb].
  - destruct (IH m Hm) as [? Hi]. split; [done |]. rewrite Hi. tauto.
  - destruct (_ && _) eqn:E2.
    + apply andb_prop in E2 as [E2 _]. destruct (IH m Hm) as [? Hi]. split; [done |]. rewrite Hi.
      split; [intros [? _] | intros [_ [? _]]]; [lia | congruence].
    + destruct (IH (m + 1)) as [? Hi]; [lia |]. split; [done |]. rewrite Hi.
      split; [intros [? _]; lia | intros [_ [? _]]; congruence].
Qed.

(** No sample is left exactly when the best one is too old. *)
Lemma prune_zero maxdist d k rest :
  is_num d = true -> Forall num_sample rest -> StronglySorted le_sample ((d, k) :: rest) ->
  (prune maxdist ((d, k) :: rest) =? 0) = (MAXDISPERSE <=d d).
Proof.
  intros Hd Hn S. destruct (prune_pos maxdist ((d, k) :: rest) 0 ltac:(lia)) as [_ Hz].
  fold (prune maxdist ((d, k) :: rest)) in Hz. inversion S as [|? ? _ Hall]; subst.
  destruct (MAXDISPERSE <=d d) eqn:E.
  - apply Z.eqb_eq, Hz. split; [done |]. constructor; [exact E |]. rewrite Forall_forall in Hall, Hn.
    apply Forall_forall. intros x Hx. specialize (Hall x Hx). specialize (Hn x Hx). unfold le_sample in Hall.
    rewrite dle_not_gt in E |- * by done. apply negb_true_iff in E. apply negb_true_iff.
    exact (le_d_trans _ d _ Hd E Hall).
  - apply Z.eqb_neq. rewrite Hz. intros [_ F]. inversion F. cbn in *. congruence.
Qed.

(** What [clock_filter] does with the samples in order. *)
Lemma clock_filter_ordered p offset delay disp s r d k rest :
  order_samples offset delay disp s (peer_at s p) = (r, (d, k) :: rest) ->
  exists r', p_epoch (pv r') = p_epoch (pv r) /\
    if prune (sys_maxdist (cf s)) ((d, k) :: rest) =? 0 then
      p_offset (pv r') = p_offset (pv r) /\ p_delay (pv r') = p_delay (pv r) /\
      clock_filter p offset delay disp s = clock_select (put_peer p r' s)
    else
      p_offset (pv r') = reg (p_filter_offset (pv r)) k /\ p_delay (pv r') = reg (p_filter_delay (pv r)) k /\
      clock_filter p offset delay disp s =
        if popcorn s r' k (dabs (p_offset (pv r) -d reg (p_filter_offset (pv r)) k))
        then Some (report_event PEVNT_POPCORN (Some p) (put_peer p r' s))
        else if ereg (p_filter_epoch (pv r)) k <=? p_epoch (pv r) then Some (put_peer p r' s)
        else
          let s' := put_peer p (r' <|| p_epoch := ereg (p_filter_epoch (pv r)) k ||>) s in
          if (p_burst (pv r) =? 0) || (sys_leap (sv s) =? LEAP_NOTINSYNC) then clock_select s' else Some s'.
Proof.
  intros E. unfold clock_filter. rewrite E. destruct (sums _ _ _ _ _) as [dp jitter].
  destruct (_ =? 0); cbv zeta; match goal with |- context [put_peer p ?x s] => exists x end;
    (split; [reflexivity |]); (split; [reflexivity |]); split; reflexivity.
Qed.

(** The fields of the association the ordering leaves alone, and the register it fills. *)
Lemma order_samples_fields offset delay disp s r :
  filter_wf (pv r) ->
  let v' := pv (fst (order_samples offset delay disp s r)) in
  let v := pv (shift_in offset delay disp (current_time s) r) in
  p_offset v' = p_offset (pv r) /\ p_delay v' = p_delay (pv r) /\ p_epoch v' = p_epoch (pv r) /\
  p_burst v' = p_burst (pv r) /\ p_filter_offset v' = p_filter_offset v /\
  p_filter_delay v' = p_filter_delay v /\ p_filter_epoch v' = p_filter_epoch v.
Proof. intros W. rewrite order_samples_spec by done. cbn [fst]. repeat split. Qed.

(** C18: the filter takes the sample of least distance.  Once the frequency
    has settled, [clock_filter] finds a sample [k] of the eight in the
    register, the new one included, that is not farther than any other.
    When even that one is as far as MAXDISPERSE the offset, delay and epoch
    of the association stay as they were and the clocks are selected again;
    otherwise the offset and delay of sample [k] become the association's,
    and then the sample is reported as a popcorn spike, or ignored when it
    is not later than the last one used, or else its epoch is recorded and,
    unless the association is in a burst and the clock is synchronized, the
    clocks are selected. *)
Theorem filter_best_sample (p : Z) (offset delay disp : double) (s : state) :
  let r := peer_at s p in
  let v := pv (shift_in offset delay disp (current_time s) r) in
  let dist j := snd (sample_at offset delay disp s r j) in
  filter_wf (pv r) -> freq_cnt (sv s) = 0 -> (forall j, (j < 8)%nat -> is_num (dist j) = true) ->
  exists k r', (k < 8)%nat /\ (forall j, (j < 8)%nat -> le_d (dist k) (dist j)) /\
    p_epoch (pv r') = p_epoch (pv r) /\
    if MAXDISPERSE <=d dist k then
      p_offset (pv r') = p_offset (pv r) /\ p_delay (pv r') = p_delay (pv r) /\
      clock_filter p offset delay disp s = clock_select (put_peer p r' s)
    else
      p_offset (pv r') = reg (p_filter_offset v) k /\ p_delay (pv r') = reg (p_filter_delay v) k /\
      clock_filter p offset delay disp s =
        if popcorn s r' k (dabs (p_offset (pv r) -d reg (p_filter_offset v) k))
        then Some (report_event PEVNT_POPCORN (Some p) (put_peer p r' s))
        else if ereg (p_filter_epoch v) k <=? p_epoch (pv r) then Some (put_peer p r' s)
        else
          let s' := put_peer p (r' <|| p_epoch := ereg (p_filter_epoch v) k ||>) s in
          if (p_burst (pv r) =? 0) || (sys_leap (sv s) =? LEAP_NOTINSYNC) then clock_select s' else Some s'.
Proof.
  intros r v dist W Hf Hn. destruct (best_first offset delay disp s r W Hf Hn) as [S (d & k & rest & Es & Hk & Ed & Hle)].
  pose proof (samples_perm offset delay disp s r W) as P. rewrite Es in S, P.
  assert (Hnum : Forall num_sample ((d, k) :: rest)).
  { rewrite P. apply Forall_map, Forall_forall. intros j Hj. apply Hn. apply elem_of_seq in Hj. lia. }
  inversion Hnum as [|? ? Hd Hr]; subst.
  destruct (order_samples_fields offset delay disp s r W) as (E1 & E2 & E3 & E4 & E5 & E6 & E7).
  pose proof (clock_filter_ordered p offset delay disp s) as C. fold r in C.
  destruct (order_samples offset delay disp s r) as [r1 samples]. cbn [fst snd] in *. subst samples.
  destruct (C r1 _ k rest eq_refl) as (r' & He & Hc). clear C.
  rewrite prune_zero, ?E1, ?E2, ?E4, ?E5, ?E6, ?E7, ?E3 in Hc by done. rewrite E3 in He.
  exists k, r'. auto.
Qed.

(** A sample always gets through: [clock_filter] returns, with the
    selection, clustering and combining it triggers. *)
Theorem clock_filter_total (p : Z) (offset delay disp : double) (s : state) :
  exists s', clock_filter p offset delay disp s = Some s'.
Proof.
  unfold clock_filter. destruct (order_samples _ _ _ _ _) as [r samples].
  destruct (sums _ _ _ _ _) as [d jitter]. repeat case_match; eauto using clock_select_total.
Qed.
End Register.

(** ** Closed instances *)

(** The register of a new association. *)
Lemma zero_filter_wf : filter_wf zero_vars.
Proof. split; vm_compute; try reflexivity. split; [discriminate | reflexivity]. Qed.

Lemma filter_reference_witness :
  let (r', samples) := order_samples (dlit 1 3) (dlit 1 2) (dlit 1 4) sample_state sample_peer in
  filter_wf (pv r') /\ Permutation (p_filter_order (pv r')) (map Z.of_nat (seq 0 8)).
Proof.
  pose proof (filter_reference (dlit 1 3) (dlit 1 2) (dlit 1 4) sample_state sample_peer) as E.
  destruct (order_samples _ _ _ _ _) as [r' samples].
  destruct E as (E1 & _ & _ & E2 & _); [| auto]. split; vm_compute; try reflexivity. split; [discriminate | reflexivity].
Defined.

(** The register of a cleared association takes a first sample. *)
Definition cleared_state : state :=
  put_peer 1 (sample_peer <|| p_filter_disp := repeat MAXDISPERSE 8 ||>) sample_state.

Lemma filter_best_sample_witness :
  exists r', p_epoch (pv r') = 90 /\ p_offset (pv r') = dlit 1 4 /\ p_delay (pv r') = dlit 1 3.
Proof.
  destruct (@filter_best_sample sample_env 1 (dlit 1 4) (dlit 1 3) (dlit 1 4) cleared_state) as (k & r' & Hk & Hle & He & Hc).
  - split; vm_compute; try reflexivity. split; [discriminate | reflexivity].
  - reflexivity.
  - intros j Hj. do 8 (destruct j as [|j]; [vm_compute; reflexivity |]). lia.
  - exists r'. split; [exact He |]. specialize (Hle 0%nat ltac:(lia)).
    destruct k as [|k]; [exact (conj (proj1 Hc) (proj1 (proj2 Hc))) |].
    exfalso. clear Hc. do 7 (destruct k as [|k]; [vm_compute in Hle; discriminate |]). lia.
Defined.
