(* ===== verification/Transmit.v ===== *)
(** * Sending: [transmit], [peer_xmit], [fast_xmit], [pool_xmit] of
      ntpd/ntp_proto.c

    A packet is built in a buffer of the size of [struct pkt] and handed to
    the socket layer as the event [Sendpkt] with the bytes sent; [sendpkt]
    on a null endpoint is that event without endpoint.  The build is the one without
    Autokey: a packet is authenticated when the association has a key. *)

From S2P Require Import Prelude FixedPoint Double Lists NtpTypes AuthKeys Monitor Restrict State ProtoBase Peer Select Filter.
From stdpp Require Import base gmap list.
#[local] Open Scope Z_scope.

(** [sizeof(struct pkt)]: the header, one word of extension, the MAC. *)
Definition PKT_SIZE : Z := LEN_PKT_NOMAC + 4 + MAX_MAC_LEN.
Definition POOL_SOLICIT_WINDOW : Z := 8.
Definition RES_FLAGS : Z :=
  RES_IGNORE .| RES_DONTSERVE .| RES_DONTTRUST .| RES_VERSION .| RES_NOPEER .| RES_LIMITED.
Definition TIME : Z := 0x54494d45.

(** The buffer of an outgoing packet. *)
Definition xmit_buffer (xpkt : pkt) : list Z := pkt_bytes xpkt ++ replicate 28 0.

Definition sys_ttl_at (s : state) (i : Z) : Z := nth (Z.to_nat i) (sys_ttl (cf s)) 0.

(** A pointer that may be null, as the integer it is. *)
Definition ptr (p : Z) : option Z := if p =? 0 then None else Some p.

Section Transmit.
Context `{Env}.

(** The system variables of an outgoing header. *)
Definition sys_header (s : state) (version mode ppoll : Z) (org rec xmt : l_fp) : pkt :=
  mk_pkt (PKT_LI_VN_MODE (sys_leap (sv s)) version mode) (STRATUM_TO_PKT (sys_stratum (sv s))) ppoll
    (sys_precision (sv s)) (u32 (DTOFP (sys_rootdelay (sv s)))) (DTOUFP (sys_rootdisp (sv s)))
    (sys_refid (sv s)) (sys_reftime (sv s)) org rec xmt.

(** ** [peer_xmit] *)

(** The transmit timestamp: the time now, or in interleaved mode the time
    of the previous transmission. *)
Definition stamp (p : Z) (xmt_tx : l_fp) (xpkt : pkt) (s : state) : pkt * state :=
  let r := peer_at s p in
  let flip := p_flip (pv r) in
  if flip =? 0 then
    (xpkt <| pk_xmt := xmt_tx |>, upd_peer p (fun r => r <|| p_aorg := xmt_tx ||>) s)
  else
    let prev := if 0 <? flip then p_borg (pv r) else p_aorg (pv r) in
    if p_hmode r =? MODE_BROADCAST then (xpkt <| pk_xmt := xmt_tx |> <| pk_org := prev |>, s)
    else (xpkt <| pk_xmt := prev |>, s).

(** From [sendpkt] to the end. *)
Definition sent (p ep sendlen : Z) (bytes : list Z) (xmt_tx : l_fp) (s : state) : state :=
  let s := upd_peer p (fun r => r <|| p_t21_bytes := sendlen ||>) s in
  let r := peer_at s p in
  let s := emit (Sendpkt (p_srcadr r) (Some ep) (sys_ttl_at s (p_ttl r)) (take (Z.to_nat sendlen) bytes)) s in
  let s := upd_peer p (fun r => r <| p_sent := u64 (p_sent r + 1) |>
                                  <| p_throttle := s32 (p_throttle r + (s32 (Z.shiftl 1 (p_minpoll r)) - 2)) |>) s in
  let '(xmt_ty, s) := get_systime s in
  let flip := p_flip (pv (peer_at s p)) in
  let s := if flip =? 0 then s
           else if 0 <? flip then upd_peer p (fun r => r <|| p_aorg := xmt_ty ||> <|| p_flip := s32 (- flip) ||>) s
           else upd_peer p (fun r => r <|| p_borg := xmt_ty ||> <|| p_flip := s32 (- flip) ||>) s in
  upd_peer p (fun r => r <|| p_xleave := LFPTOD (L_SUB xmt_ty xmt_tx) ||>) s.

Definition peer_xmit (p : Z) (s : state) : option state :=
  let r := peer_at s p in
  match p_dstadr r with
  | None => Some s
  | Some ep =>
      let xpkt := sys_header s (p_version r) (p_hmode r) (p_hpoll r) (p_rec (pv r)) (p_dst (pv r)) lzero in
      let '(xmt_tx, s) := get_systime s in
      let '(xpkt, s) := stamp p xmt_tx xpkt s in
      if p_keyid r =? 0 then Some (sent p ep LEN_PKT_NOMAC (xmit_buffer xpkt) xmt_tx s)
      else
        '(authlen, buf, au) ← authencrypt (p_keyid r) (xmit_buffer xpkt) LEN_PKT_NOMAC (auth s);
        let s := s <| auth := au |> in
        if authlen =? 0 then
          let s := report_event PEVNT_AUTH (Some p) s in
          Some (upd_peer p (fun r => r <|| p_flash := s32 (p_flash (pv r) .| TEST5) ||>
                                       <| p_badauth := u64 (p_badauth r + 1) |>) s)
        else
          let sendlen := LEN_PKT_NOMAC + authlen in
          if PKT_SIZE <? sendlen then Some (emit (Exit (-1)) s)
          else Some (sent p ep sendlen buf xmt_tx s)
  end.

(** ** [fast_xmit]: a reply without an association *)

(** The header: a kiss-o'-death that echoes the request, or the system variables. *)
Definition reply_header (rb : recvbuf) (xmode flags : Z) (s : state) : pkt * state :=
  let rpkt := rb_pkt rb in
  let version := PKT_VERSION (pk_li_vn_mode rpkt) in
  let ppoll := u8 (Z.max (pk_ppoll rpkt) (ntp_minpoll (mon s))) in
  if has flags RES_KOD then
    (mk_pkt (PKT_LI_VN_MODE LEAP_NOTINSYNC version xmode) STRATUM_PKT_UNSPEC ppoll (pk_precision rpkt)
       (pk_rootdelay rpkt) (pk_rootdisp rpkt) RATE (pk_reftime rpkt) (pk_xmt rpkt) (pk_xmt rpkt)
       (pk_xmt rpkt), s .++ sys_kodsent)
  else
    let '(xmt_tx, s') := get_systime s in
    (sys_header s version xmode ppoll (pk_xmt rpkt) (rb_time rb) xmt_tx, s').

(** Returns the receive buffer too: its endpoint may be replaced. *)
Definition fast_xmit (rb : recvbuf) (xmode xkeyid flags : Z) (s : state) : option (recvbuf * state) :=
  let rb := if has (ep_flags (endpt_at s (rb_dstadr rb))) INT_MCASTOPEN
            then rb <| rb_dstadr := default 0 (findinterface (endpts s) (rb_srcadr rb)) |> else rb in
  let '(xpkt, s) := reply_header rb xmode flags s in
  let send buf len s := emit (Sendpkt (rb_srcadr rb) (ptr (rb_dstadr rb)) 0 (take (Z.to_nat len) buf)) s in
  if rb_length rb =? LEN_PKT_NOMAC then Some (rb, send (xmit_buffer xpkt) LEN_PKT_NOMAC s)
  else
    let '(xmt_tx, s) := get_systime s in
    '(authlen, buf, au) ← authencrypt xkeyid (xmit_buffer xpkt) LEN_PKT_NOMAC (auth s);
    let s := send buf (LEN_PKT_NOMAC + authlen) (s <| auth := au |>) in
    let '(xmt_ty, s) := get_systime s in
    Some (rb, s <|sv sys_authdelay := L_SUB xmt_ty xmt_tx |>).

(** ** Pools *)

(** The [do ... while] loop over the addresses of a pool: the first address
    with no association, if any, and the addresses left. *)
Fixpoint next_server (ai : list sockaddr) (s : state) : option sockaddr * list sockaddr :=
  match ai with
  | [] => (None, [])
  | a :: ai =>
      match findexistingpeer a None None MODE_CLIENT 0 s with
      | None => (Some a, ai)
      | Some _ => next_server ai s
      end
  end.

Definition pool_xmit (pool : Z) (s : state) : option state :=
  match p_ai (peer_at s pool) with
  | [] => Some (emit (Resolve (p_associd (peer_at s pool))) s)
  | ai =>
      let '(found, ai) := next_server ai s in
      let s := upd_peer pool (fun r => r <| p_ai := ai |>) s in
      match found with
      | None => Some s
      | Some rmtadr =>
          '(mask, rs) ← restrictions (current_time s) rmtadr (restr s);
          let s := s <| restr := rs |> in
          s ← (if has RES_FLAGS mask
               then lift_res (restrict_source (current_time s) rmtadr false
                                (u64 (current_time s + POOL_SOLICIT_WINDOW + 1))) s
               else Some s);
          let lcladr := findinterface (endpts s) rmtadr in
          let r := peer_at s pool in
          let xpkt := sys_header s (p_version r) MODE_CLIENT (p_hpoll r) lzero lzero lzero in
          let '(xmt_tx, s) := get_systime s in
          let s := upd_peer pool (fun r => r <|| p_aorg := xmt_tx ||>) s in
          let s := emit (Sendpkt rmtadr lcladr (sys_ttl_at s (p_ttl (peer_at s pool)))
                           (pkt_bytes (xpkt <| pk_xmt := xmt_tx |>))) s in
          Some (upd_peer pool (fun r => r <| p_sent := u64 (p_sent r + 1) |>
                 <| p_throttle := s32 (p_throttle r + (s32 (Z.shiftl 1 (p_minpoll r)) - 2)) |>) s)
      end
  end.

(** The resolver's callback; [res] is the list of addresses, [rescode] its error. *)
Definition pool_name_resolved (rescode assoc : Z) (res : list sockaddr) (s : state) : option state :=
  if nonzero rescode then Some s
  else
    let '(pool, s) := findpeerbyassoc assoc s in
    match pool with
    | None => Some s
    | Some pool => pool_xmit pool (upd_peer pool (fun r => r <| p_ai := res |>) s)
    end.

(** ** [transmit]: the poll timer of an association *)

(** Demobilization of an unreachable association. *)
Definition timeout (p : Z) (s : state) : option state :=
  let s := report_event PEVNT_RESTART (Some p) s in
  unpeer p (peer_clear p TIME s).

(** A poll that is not part of a burst: the reachability register and the
    poll interval; [inl] when the association was demobilized. *)
Definition poll_reach (p : Z) (s : state) : option (state + Z * state) :=
  let oreach := p_reach (pv (peer_at s p)) in
  let hpoll := p_hpoll (peer_at s p) in
  let s := upd_peer p (fun r => r <| p_outdate := current_time s |> <| p_unreach := s32 (p_unreach r + 1) |>
                                  <|| p_reach := u8 (Z.shiftl (p_reach (pv r)) 1) ||>) s in
  '(hpoll, s) ←
    (if p_reach (pv (peer_at s p)) =? 0 then
       s ← clock_filter p dzero dzero MAXDISPERSE s;
       let s := if nonzero oreach then report_event PEVNT_UNREACH (Some p) (snd (peer_unfit p s)) else s in
       let r := peer_at s p in
       Some (hpoll, if has (p_flags r) FLAG_IBURST && (p_retry (pv r) =? 0)
                    then upd_peer p (fun r => r <|| p_retry := NTP_RETRY ||>) s else s)
     else
       let hpoll := sys_poll (sv s) in
       let s := if has (p_flags (peer_at s p)) FLAG_PREEMPT then s
                else upd_peer p (fun r => r <| p_unreach := 0 |>) s in
       let r := peer_at s p in
       if has (p_flags r) FLAG_BURST && (p_retry (pv r) =? 0) then
         let '(unfit, s) := peer_unfit p s in
         Some (hpoll, if nonzero unfit then s else upd_peer p (fun r => r <|| p_retry := NTP_RETRY ||>) s)
       else Some (hpoll, s));
  let r := peer_at s p in
  if NTP_UNREACH <=? p_unreach r then
    let hpoll := u8 (hpoll + 1) in
    if negb (has (p_flags r) (FLAG_CONFIG .| FLAG_PREEMPT)) then inl <$> timeout p s
    else if has (p_flags r) FLAG_PREEMPT && (sys_maxclock (cf s) <? peer_associations s)
            && nonzero (score_all s p)
    then inl <$> timeout p s
    else Some (inr (hpoll, s))
  else Some (inr (hpoll, s)).

(** A poll inside a burst. *)
Definition poll_burst (p : Z) (s : state) : state :=
  let s := upd_peer p (fun r => r <|| p_burst := s32 (p_burst (pv r) - 1) ||>) s in
  if (p_burst (pv (peer_at s p)) =? 0) && nonzero (mode_ntpdate (cf s)) then
    let s := s <|sv peer_ntpdate := s32 (peer_ntpdate (sv s) - 1) |> in
    if peer_ntpdate (sv s) =? 0 then emit (Exit 0) s else s
  else s.

(** The manycast client: an expanding ring while survivors are missing. *)
Definition manycast_poll (p : Z) (s : state) : option state :=
  let s := upd_peer p (fun r => r <| p_outdate := current_time s |>) s in
  s ← (if sys_beacon (cf s) <? p_unreach (peer_at s p) then
         peer_xmit p (upd_peer p (fun r => r <| p_unreach := 0 |> <| p_ttl := 0 |>) s)
       else if (sys_survivors (sv s) <? sys_minclock (cf s)) || (peer_associations s <? sys_maxclock (cf s)) then
         peer_xmit p (if p_ttl (peer_at s p) <? u32 (sys_ttlmax (cf s))
                      then upd_peer p (fun r => r <| p_ttl := u32 (p_ttl r + 1) |>) s else s)
       else Some s);
  Some (upd_peer p (fun r => r <| p_unreach := s32 (p_unreach r + 1) |>) s).

Definition transmit (p : Z) (s : state) : option state :=
  let r := peer_at s p in
  let hpoll := p_hpoll r in
  let outdate s := upd_peer p (fun r => r <| p_outdate := current_time s |>) s in
  if has (p_cast_flags r) (MDF_BCAST .| MDF_MCAST) then
    let s := outdate s in
    s ← (if sys_leap (sv s) =? LEAP_NOTINSYNC then Some s else peer_xmit p s);
    Some (poll_update p hpoll s)
  else if has (p_cast_flags r) MDF_ACAST then
    s ← manycast_poll p s; Some (poll_update p hpoll s)
  else if has (p_cast_flags r) MDF_POOL then
    let s := outdate s in
    s ← (if (peer_associations s <=? 2 * sys_maxclock (cf s))
            && ((peer_associations s <? sys_maxclock (cf s)) || (sys_survivors (sv s) <? sys_minclock (cf s)))
         then pool_xmit p s else Some s);
    Some (poll_update p hpoll s)
  else
    polled ← (if p_burst (pv r) =? 0 then poll_reach p s else Some (inr (hpoll, poll_burst p s)));
    match polled with
    | inl s => Some s
    | inr (hpoll, s) =>
        let s := if 0 <? p_retry (pv (peer_at s p))
                 then upd_peer p (fun r => r <|| p_retry := s32 (p_retry (pv r) - 1) ||>) s else s in
        s ← (if p_hmode (peer_at s p) =? MODE_BCLIENT then Some s else peer_xmit p s);
        Some (poll_update p hpoll s)
    end.

End Transmit.
