(* ===== verification/Timer.v ===== *)
(** * The event timer: ntpd/ntp_timer.c

    Called once a second: the clock adjustment, the poll timers of the
    associations, orphan mode, the leap second countdown and the slower
    timers.  The walks over the list of peers follow the links as the code
    does: the next structure is read from the current one before the call
    that may free it.  Arming the interval timer of the system is not
    modelled. *)

From S2P Require Import Prelude FixedPoint Double Lists NtpTypes State ProtoBase LoopFilter Refclock Peer Select Filter RefclockPoll Transmit.
From stdpp Require Import base gmap list.
#[local] Open Scope Z_scope.

Definition HOUR : Z := 60 * 60.
Definition DAY : Z := 24 * HOUR.
Definition LOOPBACKADR : Z := 0x7f000001.
Definition LOOP : Z := 0x4c4f4f50.
Definition EVNT_LEAP : Z := 11.
Definition EVNT_LEAPVAL : Z := 15.

(** The counters and timeouts of ntp_timer.c, and the time the leap second
    file expires (ntp_util.c). *)
Record timers := mk_timers {
  interface_interval : Z; interface_timer : Z; adjust_timer : Z; stats_timer : Z;
  huffpuff_timer : Z; worker_idle_timer : Z; leap_expire : Z; alarm_flag : Z;
  alarm_overflow : Z; timer_timereset : Z; timer_overflows : Z; timer_xmtcalls : Z }.
#[export] Instance eta_timers : Eta timers := fun r =>
  mk_timers (interface_interval r) (interface_timer r) (adjust_timer r) (stats_timer r)
    (huffpuff_timer r) (worker_idle_timer r) (leap_expire r) (alarm_flag r)
    (alarm_overflow r) (timer_timereset r) (timer_overflows r) (timer_xmtcalls r).

(** Files and sockets: rescanning the interfaces, writing the statistics,
    reading the leap second file, which sets its expiration time. *)
Class TimerEnv := {
  interface_update : state -> state;
  write_stats : state -> state;
  check_leap_file : state -> Z * state }.

(** ** Signals and settings *)

Definition init_timer (ts : timers * state) : timers * state :=
  let '(tm, s) := ts in
  (tm <| alarm_flag := 0 |> <| alarm_overflow := 0 |> <| adjust_timer := 1 |> <| stats_timer := HOUR |>
      <| huffpuff_timer := 0 |> <| interface_timer := 0 |> <| timer_overflows := 0 |>
      <| timer_xmtcalls := 0 |> <| timer_timereset := 0 |>, s <| current_time := 0 |>).

Definition alarming (initializing : Z) (tm : timers) : timers :=
  if nonzero initializing then tm
  else if nonzero (alarm_flag tm) then tm <| alarm_overflow := u64 (alarm_overflow tm + 1) |>
  else tm <| alarm_flag := s32 (alarm_flag tm + 1) |>.

Definition intres_timeout_req (seconds now : Z) (tm : timers) : timers :=
  if 0 =? seconds then tm <| worker_idle_timer := 0 |> else tm <| worker_idle_timer := u64 (now + seconds) |>.

Definition timer_interfacetimeout (timeout : Z) (tm : timers) : timers := tm <| interface_timer := timeout |>.

Definition timer_clr_stats (now : Z) (tm : timers) : timers :=
  tm <| timer_overflows := 0 |> <| timer_xmtcalls := 0 |> <| timer_timereset := now |>.

(** ** Walking the peers *)

(** [p->p_link]: the structure after [p] on the list; [None] when [p] is not
    on it, that is for a read of a structure that has been freed. *)
Fixpoint p_link (p : Z) (l : list Z) : option (option Z) :=
  match l with
  | [] => None
  | q :: l => if q =? p then Some (head l) else p_link p l
  end.

(** [for (p = peer_list; p != NULL; p = next_peer)]; running out of [fuel]
    is a walk that does not end. *)
Fixpoint walk (fuel : nat) (f : Z -> state -> option state) (p : option Z) (s : state) : option state :=
  match p with
  | None => Some s
  | Some p =>
      match fuel with
      | O => None
      | S fuel => next ← p_link p (peer_list s); s ← f p s; walk fuel f next s
      end
  end.
Definition for_peers (f : Z -> state -> option state) (s : state) : option state :=
  walk (length (peer_list s)) f (head (peer_list s)) s.

Section Timer.
Context `{Env} `{TimerEnv}.

(** The once-a-second work of one reference clock, and the poll timer of one
    association. *)
Definition clock_tick (p : Z) (s : state) : option state :=
  if has FLAG_REFCLOCK (p_flags (peer_at s p)) then refclock_timer p s else Some s.

Definition poll_peer (p : Z) (s : state) : option state :=
  let s := if 0 <? p_throttle (peer_at s p)
           then upd_peer p (fun r => r <| p_throttle := s32 (p_throttle r - 1) |>) s else s in
  if p_nextdate (peer_at s p) <=? current_time s then
    if has FLAG_REFCLOCK (p_flags (peer_at s p)) then refclock_transmit p s else transmit p s
  else Some s.

(** ** The stages of [timer] *)

Definition adjust_stage (tm : timers) (s : state) : option (timers * state) :=
  if adjust_timer tm <=? current_time s then
    s ← for_peers clock_tick (adj_host_clock s);
    Some (tm <| adjust_timer := u64 (adjust_timer tm + 1) |>, s)
  else Some (tm, s).

Definition orphan_mode (s : state) : state :=
  if (sys_orphan (cf s) <? STRATUM_UNSPEC) && bool_decide (sys_peer (sv s) = None) && (orphwait (sv s) <? current_time s) then
    let s := if sys_leap (sv s) =? LEAP_NOTINSYNC then s <|sv sys_leap := LEAP_NOWARNING |> else s in
    let s := s <|sv sys_stratum := u8 (sys_orphan (cf s)) |> in
    let s := s <|sv sys_refid := if 1 <? sys_stratum (sv s) then LOOPBACKADR else LOOP |> in
    s <|sv sys_offset := dzero |> <|sv sys_rootdelay := dzero |> <|sv sys_rootdisp := dzero |>
  else s.

Definition leap_countdown (s : state) : state :=
  if 0 <? leapsec (sv s) then
    let s := s <|sv leapsec := leapsec (sv s) - 1 |> in
    if leapsec (sv s) =? 0 then
      let s := s <|sv sys_leap := LEAP_NOWARNING |> <|sv sys_tai := u32 (leap_tai (sv s)) |> in
      report_event EVNT_LEAP None (step_systime (dneg (dofZ 1)) s)
    else
      let s := if leapsec (sv s) <? DAY then s <|sv sys_leap := LEAP_ADDSECOND |> else s in
      if 0 <? leap_tai (sv s) then s <|sv sys_tai := u32 (leap_tai (sv s) - 1) |> else s
  else s.

Definition huffpuff_stage (tm : timers) (s : state) : timers * state :=
  if huffpuff_timer tm <=? current_time s
  then (tm <| huffpuff_timer := u64 (huffpuff_timer tm + HUFFPUFF) |>, huffpuff s) else (tm, s).

Definition interface_stage (tm : timers) (s : state) : timers * state :=
  if nonzero (interface_interval tm) && (interface_timer tm <=? current_time s)
  then (timer_interfacetimeout (u64 (current_time s + interface_interval tm)) tm, interface_update s) else (tm, s).

(** [worker_idle_timer_fired] (ntp_worker.c) cancels the timeout and asks
    the resolver processes to exit. *)
Definition worker_stage (tm : timers) (s : state) : timers :=
  if nonzero (worker_idle_timer tm) && (worker_idle_timer tm <=? current_time s)
  then intres_timeout_req 0 (current_time s) tm else tm.

Definition stats_stage (tm : timers) (s : state) : timers * state :=
  if stats_timer tm <=? current_time s then
    let tm := tm <| stats_timer := u64 (stats_timer tm + HOUR) |> in
    let s := write_stats s in
    if nonzero (sys_tai (sv s)) then
      let '(now, s) := get_systime s in
      if leap_expire tm <? l_ui now then
        let '(expire, s) := check_leap_file (report_event EVNT_LEAPVAL None s) in
        (tm <| leap_expire := expire |>, s)
      else (tm, s)
    else (tm, s)
  else (tm, s).

Definition timer (tm : timers) (s : state) : option (timers * state) :=
  let s := s <| current_time := u64 (current_time s + 1) |> in
  '(tm, s) ← adjust_stage tm s;
  s ← for_peers poll_peer s;
  let s := leap_countdown (orphan_mode s) in
  let '(tm, s) := huffpuff_stage tm s in
  let '(tm, s) := interface_stage tm s in
  let tm := worker_stage tm s in
  Some (stats_stage tm s).

End Timer.
