(* ===== verification/Receive.v ===== *)
(** * Receiving: [receive] and [process_packet] of ntpd/ntp_proto.c

    The procedure is cut at its own section comments: the early filters, the
    MAC length scan, rate limiting, the authentication check, the dispatch
    on the association table, the on-wire protocol and the packet
    processing.  [None] is a memory error in a routine that is called. *)

From S2P Require Import Prelude FixedPoint Double Lists NtpTypes AuthKeys Monitor Restrict State ProtoBase Peer Select Filter Transmit.
From stdpp Require Import base gmap list.
#[local] Open Scope Z_scope.

Definition AUTH_NONE : Z := 0.
Definition AUTH_OK : Z := 1.
Definition AUTH_ERROR : Z := 2.
Definition AUTH_CRYPTO : Z := 3.

(** [AUTH(x, y)] *)
Definition AUTH (x : Z) (y : Z) : bool :=
  if nonzero x then y =? AUTH_OK else (y =? AUTH_OK) || (y =? AUTH_NONE).

(** Flash bits and flags of a peer. *)
Definition set_flash (p bits : Z) (s : state) : state :=
  upd_peer p (fun r => r <|| p_flash := s32 (p_flash (pv r) .| bits) ||>) s.
Definition set_flags (p bits : Z) (s : state) : state :=
  upd_peer p (fun r => r <| p_flags := u32 (p_flags r .| bits) |>) s.
Definition clr_flags (p bits : Z) (s : state) : state :=
  upd_peer p (fun r => r <| p_flags := u32 (clr (p_flags r) bits) |>) s.

(** ** The MAC length scan *)

(** [authlen], [has_mac] and the key identifier, or [None] for a bad
    length.  Each round consumes at least four octets, so
    [recv_length] rounds are enough. *)
Fixpoint scan_mac (fuel : nat) (rb : recvbuf) (authlen has_mac skeyid : Z) : option (Z * Z * Z) :=
  match fuel with
  | O => None
  | S fuel =>
      if has_mac =? 0 then Some (authlen, has_mac, skeyid)
      else if negb (has_mac %c 4 =? 0) || (has_mac <? MIN_MAC_LEN) then None
      else if has_mac <=? MAX_MAC_LEN then
        Some (authlen, has_mac, word_at (rb_bytes rb) (Z.to_nat authlen))
      else
        let len := word_at (rb_bytes rb) (Z.to_nat authlen) .& 0xffff in
        if negb (len mod 4 =? 0) || (len <? 4) || (rb_length rb <? len + authlen) then None
        else scan_mac fuel rb (authlen + len) (has_mac - len) skeyid
  end.

Definition mac_length (rb : recvbuf) : option (Z * Z * Z) :=
  scan_mac (S (Z.to_nat (rb_length rb))) rb LEN_PKT_NOMAC (s32 (rb_length rb - LEN_PKT_NOMAC)) 0.

(** ** Rate limiting *)

(** Does [ntp_monitor] draw a random number on this packet? *)
Definition mon_draws (rb : recvbuf) (st : mon_state) : bool :=
  negb (mon_enabled st =? MON_OFF)
  && bool_decide (chain_find (fun mon => SOCK_EQ (me_rmtadr (mon_at st mon)) (rb_srcadr rb))
                    (bucket (mon_hash st) (MON_HASH st (rb_srcadr rb))) = None)
  && negb (mru_entries st <? mru_mindepth st)
  && negb (match last (mon_mru_list st) with
           | Some o => mru_maxage st <? interval_since (rb_time rb) (me_last (mon_at st o))
           | None => false
           end)
  && bool_decide (mon_free st = []) && negb (mru_alloc st <? mru_maxdepth st).

Section Receive.
Context `{Env}.

Definition rate_limit (rb : recvbuf) (flags : Z) (s : state) : option (Z * state) :=
  let '(x, s') := ntp_random s in
  let s := if mon_draws rb (mon s) then s' else s in
  '(mask, m) ← ntp_monitor x rb (endpt_at s (rb_dstadr rb)) flags (mon s);
  Some (mask, s <| restr := (restr s) <| monitor := m |> |>).

(** ** Packet processing *)

(** Offset and delay from the timestamps; [inl] when the exchange is
    rejected. *)
Definition measure (p : Z) (pkt : pkt) (s : state) : state + double * double * state :=
  let r := peer_at s p in
  let v := pv r in
  if negb (p_flip v =? 0) then
    let t34 := LFPTOD (L_SUB (pk_xmt pkt) (p_dst v)) in
    let t21 := LFPTOD (L_SUB (pk_rec pkt) (if 0 <? p_flip v then p_borg v else p_aorg v)) in
    let p_del := t21 -d t34 in
    if (p_del <d dzero) || (dofZ 1 <d p_del) then inl (report_event PEVNT_XERR (Some p) s)
    else inr ((t21 +d t34) /d dofZ 2, p_del, s)
  else if p_pmode r =? MODE_BROADCAST then
    let volley (offset : double) (s : state) : state + double * double * state :=
      let s := if has FLAG_BC_VOL (p_flags (peer_at s p)) then
                 let s := clr_flags p FLAG_BC_VOL s in
                 upd_peer p (fun r => r <|| p_delay := dabs (p_offset (pv r) -d offset) *d dofZ 2 ||>) s
               else s in
      let p_del := p_delay (pv (peer_at s p)) in
      inr (offset +d p_del /d dofZ 2, p_del, s) in
    if has (p_flags r) FLAG_XB then
      let t34 := LFPTOD (L_SUB (pk_org pkt) (p_aorg v)) in
      let t21 := LFPTOD (L_SUB (pk_org pkt) (p_borg v)) in
      let s := upd_peer p (fun r => r <|| p_aorg := pk_xmt pkt ||> <|| p_borg := p_dst (pv r) ||>) s in
      if (t34 <d dzero) || (dofZ 1 <d t34) then inl (report_event PEVNT_XERR (Some p) s)
      else volley t21 (upd_peer p (fun r => r <|| p_xleave := t34 ||>) s)
    else volley (LFPTOD (L_SUB (pk_xmt pkt) (p_dst v))) s
  else
    let t34 := LFPTOD (L_SUB (pk_xmt pkt) (p_dst v)) in
    let t21 := LFPTOD (L_SUB (pk_rec pkt) (pk_org pkt)) in
    inr ((t21 +d t34) /d dofZ 2, dabs (t21 -d t34), s).

(** Header variables, burst and poll, up to the packet tests. *)
Definition header_vars (p : Z) (pkt : pkt) (s : state) : state :=
  let s := s .++ sys_processed in
  let s := upd_peer p (fun r => r <| p_processed := u64 (p_processed r + 1) |>
    <| p_leap := PKT_LEAP (pk_li_vn_mode pkt) |>
    <| p_stratum := Z.min (PKT_TO_STRATUM (pk_stratum pkt)) STRATUM_UNSPEC |>
    <| p_pmode := PKT_MODE (pk_li_vn_mode pkt) |> <| p_precision := pk_precision pkt |>
    <| p_rootdelay := FPTOD (pk_rootdelay pkt) |> <| p_rootdisp := FPTOD (pk_rootdisp pkt) |>
    <| p_refid := pk_refid pkt |> <| p_reftime := pk_reftime pkt |>) s in
  let r := peer_at s p in
  let s :=
    if 0 <? p_retry (pv r) then
      let burst := if nonzero (p_reach (pv r))
                   then s32 (Z.min (s32 (Z.shiftl 1 (p_hpoll r - p_minpoll r))) NTP_SHIFT - 1)
                   else NTP_IBURST - 1 in
      let s := upd_peer p (fun r => r <|| p_retry := 0 ||> <|| p_burst := burst ||>) s in
      if 0 <? burst then upd_peer p (fun r => r <| p_nextdate := current_time s |>) s else s
    else s in
  poll_update p (p_hpoll (peer_at s p)) s.

Definition packet_tests (p : Z) (pkt : pkt) (s : state) : state :=
  let leap := PKT_LEAP (pk_li_vn_mode pkt) in
  let stratum := PKT_TO_STRATUM (pk_stratum pkt) in
  let s := if (leap =? LEAP_NOTINSYNC) || (stratum <? sys_floor (cf s)) || (sys_ceiling (cf s) <=? stratum)
           then set_flash p TEST6 s else s in
  if MAXDISPERSE <=d FPTOD (pk_rootdelay pkt) /d dofZ 2 +d FPTOD (pk_rootdisp pkt)
  then set_flash p TEST7 s else s.

Definition process_packet (p : Z) (pkt : pkt) (s : state) : option state :=
  let s := packet_tests p pkt (header_vars p pkt s) in
  if has (p_flash (pv (peer_at s p))) PKT_TEST_MASK then
    Some (upd_peer p (fun r => r <| p_seldisptoolarge := u64 (p_seldisptoolarge r + 1) |>) s)
  else
    let s := if p_reach (pv (peer_at s p)) =? 0
             then upd_peer p (fun r => r <| p_timereachable := current_time s |>)
                    (report_event PEVNT_REACH (Some p) s)
             else s in
    let s := upd_peer p (fun r => r <|| p_reach := u8 (p_reach (pv r) .| 1) ||>) s in
    match measure p pkt s with
    | inl s => Some s
    | inr (offset, del, s) =>
        let del := dmax del (LOGTOD (sys_precision (sv s))) in
        let disp := LOGTOD (sys_precision (sv s)) +d LOGTOD (p_precision (peer_at s p))
                    +d clock_phi (cf s) *d del in
        s ← clock_filter p (offset +d p_bias (pv (peer_at s p))) del disp s;
        let r := peer_at s p in
        if has FLAG_BC_VOL (p_flags r) && (MODE_CLIENT =? p_hmode r) then
          let '(unfit, s) := peer_unfit p s in
          Some (if has TEST11 unfit then s else upd_peer p (fun r => r <| p_hmode := MODE_BCLIENT |>) s)
        else Some s
    end.

(** ** The on-wire protocol *)

(** The duplicate and origin timestamp checks; [true] when the packet is
    dropped here. *)
Definition on_wire (p hismode : Z) (rb : recvbuf) (s : state) : bool * state :=
  let pkt := rb_pkt rb in
  let r := peer_at s p in
  let v := pv r in
  if L_ISZERO (pk_xmt pkt) then (false, set_flash p TEST3 s)
  else if L_ISEQU (p_xmt v) (pk_xmt pkt) then
    (true, upd_peer p (fun r => r <| p_oldpkt := u64 (p_oldpkt r + 1) |>) (set_flash p TEST1 s))
  else if hismode =? MODE_BROADCAST then
    if negb (L_ISZERO (pk_org pkt)) && negb (has (p_flags r) FLAG_XB) then
      let s := set_flags p FLAG_XB s in
      let s := upd_peer p (fun r => r <|| p_aorg := pk_xmt pkt ||> <|| p_borg := rb_time rb ||>) s in
      (true, report_event PEVNT_XLEAVE (Some p) s)
    else (false, s)
  else if p_flip v =? 0 then
    if negb (L_ISEQU (pk_org pkt) (p_aorg v)) then
      let s := set_flash p TEST2 (upd_peer p (fun r => r <| p_bogusorg := u64 (p_bogusorg r + 1) |>) s) in
      if negb (L_ISZERO (p_dst v)) && L_ISEQU (pk_org pkt) (p_dst v)
      then (false, report_event PEVNT_XLEAVE (Some p) (upd_peer p (fun r => r <|| p_flip := 1 ||>) s))
      else (false, s)
    else (false, upd_peer p (fun r => r <|| p_aorg := lzero ||>) s)
  else if L_ISZERO (pk_org pkt) || L_ISZERO (pk_rec pkt) || L_ISZERO (p_dst v) then
    (false, set_flash p TEST3 s)
  else if negb (L_ISZERO (p_dst v)) && negb (L_ISEQU (pk_org pkt) (p_dst v)) then
    (false, set_flash p TEST2
       (set_flags p FLAG_XBOGUS (upd_peer p (fun r => r <| p_bogusorg := u64 (p_bogusorg r + 1) |>) s)))
  else (false, s).

(** A rejected digest or a crypto-NAK. *)
Definition reject_auth (p : Z) (s : state) : state :=
  let s := report_event PEVNT_AUTH (Some p) s in
  upd_peer p (fun r => r <| p_badauth := u64 (p_badauth r + 1) |>) (set_flash p TEST5 s).

Definition drop_preempt (p : Z) (s : state) : option state :=
  if has (p_flags (peer_at s p)) FLAG_PREEMPT then unpeer p s else Some s.

(** A kiss-o'-death from the server. *)
Definition is_rate_kod (hismode : Z) (pkt : pkt) : bool :=
  (hismode =? MODE_SERVER) && (PKT_LEAP (pk_li_vn_mode pkt) =? LEAP_NOTINSYNC)
  && (PKT_TO_STRATUM (pk_stratum pkt) =? STRATUM_UNSPEC) && (pk_refid pkt =? RATE).

Definition slow_down (p : Z) (pkt : pkt) (s : state) : state :=
  let s := upd_peer p (fun r => r <| p_selbroken := u64 (p_selbroken r + 1) |>) s in
  let s := report_event PEVNT_RATE (Some p) s in
  let s := if p_minpoll (peer_at s p) <? pk_ppoll pkt
           then upd_peer p (fun r => r <| p_minpoll := p_ppoll r |>) s else s in
  let s := upd_peer p (fun r => r <|| p_burst := 0 ||> <|| p_retry := 0 ||>
             <| p_throttle := s32 ((NTP_SHIFT + 1) * s32 (Z.shiftl 1 (p_minpoll r))) |>) s in
  poll_update p (pk_ppoll pkt) s.

(** A packet of an association, from the statistics on. *)
Definition peer_packet (p hismode is_authentic has_mac restrict_mask : Z) (rb : recvbuf) (s : state)
    : option state :=
  let pkt := rb_pkt rb in
  let s := upd_peer p (fun r => r <| p_received := u64 (p_received r + 1) |>
                                  <|| p_flash := s32 (clr (p_flash (pv r)) PKT_TEST_MASK) ||>) s in
  let s := if has (p_flags (peer_at s p)) FLAG_XBOGUS
           then set_flash p TEST3 (clr_flags p FLAG_XBOGUS s) else s in
  let '(dropped, s) := on_wire p hismode rb s in
  if dropped then Some s
  else
    let s := if p_flip (pv (peer_at s p)) =? 0 then
               let s := if hismode =? MODE_BROADCAST then s
                        else upd_peer p (fun r => r <|| p_rec := pk_xmt pkt ||>) s in
               upd_peer p (fun r => r <|| p_dst := rb_time rb ||>) s
             else s in
    let s := upd_peer p (fun r => r <|| p_xmt := pk_xmt pkt ||>) s in
    if is_authentic =? AUTH_CRYPTO then drop_preempt p (reject_auth p s)
    else if negb (AUTH (truth (nonzero has_mac || has restrict_mask RES_DONTTRUST)) is_authentic) then
      let s := reject_auth p s in
      s ← (if (hismode =? MODE_ACTIVE) || (hismode =? MODE_PASSIVE)
           then snd <$> fast_xmit rb MODE_ACTIVE 0 restrict_mask s else Some s);
      drop_preempt p s
    else
      let s := upd_peer p (fun r => r <| p_ppoll := u8 (Z.max (p_minpoll r) (pk_ppoll pkt)) |>) s in
      if is_rate_kod hismode pkt then Some (slow_down p pkt s)
      else
        let s := upd_peer p (fun r => r <| p_timereceived := current_time s |>) s in
        let s := if is_authentic =? AUTH_OK then set_flags p FLAG_AUTHENTIC s
                 else clr_flags p FLAG_AUTHENTIC s in
        s ← process_packet p pkt s;
        if p_flip (pv (peer_at s p)) =? 0 then Some s
        else
          let s := upd_peer p (fun r => r <|| p_rec := pk_rec pkt ||> <|| p_dst := rb_time rb ||>) s in
          let r := peer_at s p in
          Some (if u64 (p_nextdate r - current_time s) <? u32 (Z.shiftl 1 (Z.min (p_ppoll r) (p_hpoll r))) / 2
                then upd_peer p (fun r => r <| p_nextdate := u64 (p_nextdate r + 1) |>) s
                else upd_peer p (fun r => r <| p_nextdate := u64 (p_nextdate r - 1) |>) s).

(** ** Dispatch *)

(** [AM_FXMIT]: a client request without association. *)
Definition serve_client (is_authentic skeyid restrict_mask : Z) (rb : recvbuf) (s : state) : option state :=
  let pkt := rb_pkt rb in
  let hisstratum := PKT_TO_STRATUM (pk_stratum pkt) in
  let trusted := AUTH (restrict_mask .& RES_DONTTRUST) is_authentic in
  let ep := endpt_at s (rb_dstadr rb) in
  if negb (has (ep_flags ep) INT_MCASTOPEN) then
    if trusted then snd <$> fast_xmit rb MODE_SERVER skeyid restrict_mask s
    else if is_authentic =? AUTH_ERROR then
      '(_, s) ← fast_xmit rb MODE_SERVER 0 restrict_mask s; Some (s .++ sys_badauth)
    else Some (s .++ sys_restricted)
  else if sys_manycastserver (cf s) =? 0 then Some (s .++ sys_restricted)
  else if (sys_leap (sv s) =? LEAP_NOTINSYNC) || (hisstratum <=? sys_stratum (sv s))
          || ((sys_cohort (cf s) =? 0) && (sys_stratum (sv s) =? hisstratum + 1))
          || (ep_addr_refid ep =? pk_refid pkt)
  then Some (s .++ sys_declined)
  else if trusted then snd <$> fast_xmit rb MODE_SERVER skeyid restrict_mask s
  else Some s.

(** A server out of sync or outside the stratum limits. *)
Definition bad_server (pkt : pkt) (s : state) : bool :=
  let hisstratum := PKT_TO_STRATUM (pk_stratum pkt) in
  (PKT_LEAP (pk_li_vn_mode pkt) =? LEAP_NOTINSYNC) || (hisstratum <? sys_floor (cf s))
  || (sys_ceiling (cf s) <=? hisstratum).

(** [AM_MANYCAST]: a response to a solicitation. *)
Definition manycast_response (is_authentic skeyid restrict_mask : Z) (rb : recvbuf) (s : state) : option state :=
  match findmanycastpeer rb s with
  | None => Some (s .++ sys_restricted)
  | Some p2 =>
      let r2 := peer_at s p2 in
      if negb (AUTH (truth (negb (has (p_cast_flags r2) MDF_POOL) && nonzero (sys_authenticate (cf s)))
                     .| (restrict_mask .& (RES_NOPEER .| RES_DONTTRUST))) is_authentic)
      then Some (s .++ sys_restricted)
      else if bad_server (rb_pkt rb) s then Some (s .++ sys_declined)
      else
        '(peer, s) ← newpeer (mk_args (rb_srcadr rb) None (ptr (rb_dstadr rb)) MODE_CLIENT
                        (PKT_VERSION (pk_li_vn_mode (rb_pkt rb))) (p_minpoll r2) (p_maxpoll r2)
                        (FLAG_PREEMPT .| (FLAG_IBURST .& p_flags r2)) (MDF_UCAST .| MDF_UCLNT) 0 skeyid) s;
        match peer with
        | None => Some (s .++ sys_declined)
        | Some _ =>
            Some (if has (p_cast_flags (peer_at s p2)) MDF_POOL
                  then upd_peer p2 (fun r => r <| p_nextdate := u64 (current_time s + 1) |>) s else s)
        end
  end.

(** [AM_NEWBCL]: a broadcast from an unknown server; [inr] continues with
    the packet. *)
Definition new_bclient (is_authentic skeyid restrict_mask : Z) (rb : recvbuf) (s : state)
    : option (state + Z * state) :=
  let pkt := rb_pkt rb in
  let version := PKT_VERSION (pk_li_vn_mode pkt) in
  if sys_bclient (cf s) =? 0 then Some (inl (s .++ sys_restricted))
  else if negb (AUTH (sys_authenticate (cf s) .| (restrict_mask .& (RES_NOPEER .| RES_DONTTRUST))) is_authentic)
  then Some (inl (s .++ sys_restricted))
  else if bad_server pkt s then Some (inl (s .++ sys_declined))
  else
    let match_ep := if has INT_MCASTOPEN (ep_flags (endpt_at s (rb_dstadr rb))) then None
                    else ptr (rb_dstadr rb) in
    if negb (deq (sys_bdelay (cf s)) dzero) then
      '(peer, s) ← newpeer (mk_args (rb_srcadr rb) None match_ep MODE_BCLIENT version (pk_ppoll pkt)
                      (pk_ppoll pkt) FLAG_PREEMPT MDF_BCLNT 0 skeyid) s;
      match peer with
      | None => Some (inl (s .++ sys_restricted))
      | Some p => Some (inr (p, upd_peer p (fun r => r <|| p_delay := sys_bdelay (cf s) ||>) s))
      end
    else
      '(peer, s) ← newpeer (mk_args (rb_srcadr rb) None match_ep MODE_CLIENT version (pk_ppoll pkt)
                      (pk_ppoll pkt) (FLAG_BC_VOL .| FLAG_IBURST .| FLAG_PREEMPT) MDF_BCLNT 0 skeyid) s;
      match peer with
      | None => Some (inl (s .++ sys_restricted))
      | Some _ => Some (inl s)
      end.

(** [AM_NEWPASS]: symmetric active packet from an unknown peer. *)
Definition new_passive (is_authentic skeyid restrict_mask : Z) (rb : recvbuf) (s : state)
    : option (state + Z * recvbuf * state) :=
  let pkt := rb_pkt rb in
  let mobilize (rb : recvbuf) (s : state) :=
    if negb (PKT_LEAP (pk_li_vn_mode pkt) =? LEAP_NOTINSYNC)
       && ((PKT_TO_STRATUM (pk_stratum pkt) <? sys_floor (cf s))
           || (sys_ceiling (cf s) <=? PKT_TO_STRATUM (pk_stratum pkt)))
    then Some (inl (s .++ sys_declined))
    else
      '(peer, s) ← newpeer (mk_args (rb_srcadr rb) None (ptr (rb_dstadr rb)) MODE_PASSIVE
                      (PKT_VERSION (pk_li_vn_mode pkt)) (pk_ppoll pkt) NTP_MAXDPOLL 0 MDF_UCAST 0 skeyid) s;
      match peer with
      | None => Some (inl (s .++ sys_declined))
      | Some p => Some (inr (p, rb, s))
      end in
  if negb (AUTH (sys_authenticate (cf s) .| (restrict_mask .& (RES_NOPEER .| RES_DONTTRUST))) is_authentic) then
    if AUTH (restrict_mask .& RES_DONTTRUST) is_authentic then
      '(_, s) ← fast_xmit rb MODE_PASSIVE skeyid restrict_mask s; Some (inl s)
    else if is_authentic =? AUTH_ERROR then
      '(rb, s) ← fast_xmit rb MODE_ACTIVE 0 restrict_mask s; mobilize rb (s .++ sys_restricted)
    else mobilize rb s
  else mobilize rb s.

(** The switch on the action of [findpeer]. *)
Definition dispatch (retcode : Z) (peer : option Z) (hismode is_authentic has_mac skeyid restrict_mask : Z)
    (rb : recvbuf) (s : state) : option state :=
  let continue (p : Z) (rb : recvbuf) (s : state) := peer_packet p hismode is_authentic has_mac restrict_mask rb s in
  if retcode =? AM_FXMIT then serve_client is_authentic skeyid restrict_mask rb s
  else if retcode =? AM_MANYCAST then manycast_response is_authentic skeyid restrict_mask rb s
  else if retcode =? AM_NEWBCL then
    next ← new_bclient is_authentic skeyid restrict_mask rb s;
    match next with inl s => Some s | inr (p, s) => continue p rb s end
  else if retcode =? AM_NEWPASS then
    next ← new_passive is_authentic skeyid restrict_mask rb s;
    match next with inl s => Some s | inr (p, rb, s) => continue p rb s end
  else if retcode =? AM_PROCPKT then p ← peer; continue p rb s
  else Some (s .++ sys_declined).

(** ** [receive] *)

(** Authentication, once the packet has an action. *)
Definition authenticate (rb : recvbuf) (authlen has_mac skeyid : Z) (s : state) : option (Z * state) :=
  if has_mac =? 0 then Some (AUTH_NONE, s)
  else if has_mac =? 4 then Some (AUTH_CRYPTO, s)
  else
    '(ok, au) ← authdecrypt skeyid (rb_bytes rb) authlen has_mac (auth s);
    Some (if (ok : bool) then AUTH_OK else AUTH_ERROR, s <| auth := au |>).

(** The early filters: [inl] drops the packet, [inr] is the mode and the
    restriction flags it goes on with. *)
Definition early_filters (rb : recvbuf) (s : state) : option (state + Z * Z * state) :=
  let s := s .++ sys_received in
  if sa_port (rb_srcadr rb) =? 0 then Some (inl (s .++ sys_badlength))
  else
    '(mask, rs) ← restrictions (current_time s) (rb_srcadr rb) (restr s);
    let s := s <| restr := rs |> in
    let lvm := pk_li_vn_mode (rb_pkt rb) in
    let hisversion := PKT_VERSION lvm in
    let hismode := PKT_MODE lvm in
    if has mask RES_IGNORE then Some (inl (s .++ sys_restricted))
    else if hismode =? MODE_PRIVATE then
      Some (inl (if (ntp_mode7 (cf s) =? 0) || has mask RES_NOQUERY then s .++ sys_restricted
                 else process_private rb (truth (mask .& RES_NOMODIFY =? 0)) s))
    else if hismode =? MODE_CONTROL then
      Some (inl (if has mask RES_NOQUERY then s .++ sys_restricted else process_control rb mask s))
    else if has mask RES_DONTSERVE then Some (inl (s .++ sys_restricted))
    else
      let '(flake, s) :=
        if has mask RES_FLAKE
        then let '(x, s) := ntp_random s in (dofZ x /d dofZ 0x7fffffff <d dlit 1 1, s)
        else (false, s) in
      if flake then Some (inl (s .++ sys_restricted))
      else if negb (hisversion =? NTP_VERSION) && (has mask RES_VERSION || (hisversion <? NTP_OLDVERSION))
      then Some (inl (s .++ sys_badlength))
      else
        let s := if hisversion =? NTP_VERSION then s .++ sys_newversion else s .++ sys_oldversion in
        if (hismode =? MODE_UNSPEC) && negb (hisversion =? NTP_OLDVERSION)
        then Some (inl (s .++ sys_badlength))
        else Some (inr (if hismode =? MODE_UNSPEC then MODE_CLIENT else hismode, mask, s)).

Definition receive (rb : recvbuf) (s : state) : option state :=
  filtered ← early_filters rb s;
  match filtered with
  | inl s => Some s
  | inr (hismode, mask, s) =>
      match mac_length rb with
      | None => Some (s .++ sys_badlength)
      | Some (authlen, has_mac, skeyid) =>
          if has mask RES_DONTTRUST && (has_mac =? 0) then Some (s .++ sys_restricted)
          else
            '(mask, s) ← rate_limit rb mask s;
            if has mask RES_LIMITED then
              let s := s .++ sys_limitrejected in
              if negb (has mask RES_KOD) || (MODE_BROADCAST =? hismode) || (MODE_SERVER =? hismode)
              then Some s
              else snd <$> fast_xmit rb (if hismode =? MODE_CLIENT then MODE_SERVER else MODE_ACTIVE)
                             skeyid mask s
            else
              let mask := u16 (clr mask RES_KOD) in
              '(peer, retcode, s) ← findpeer rb hismode s;
              '(is_authentic, s) ← authenticate rb authlen has_mac skeyid s;
              dispatch retcode peer hismode is_authentic has_mac skeyid (u16 (clr mask RES_MSSNTP)) rb s
      end
  end.

End Receive.
