(* ===== verification/EngineFacts.v ===== *)
(** * The peer tables under the protocol engine

    Every procedure of ntp_proto.c that works on the variables of
    associations leaves the tables, the restriction lists and the monitor
    alone ([keeps]): the poll scheduler, the clock filter, the selection and
    the clock update, the on-wire tests and the reply to a client. *)

From S2P Require Import Prelude FixedPoint Double Lists NtpTypes AuthKeys AuthFacts Monitor Restrict State ProtoBase Refclock LoopFilter Peer PeerFacts Select SelectFacts Filter FilterFacts Transmit Receive.
From stdpp Require Import base gmap list.
#[local] Open Scope Z_scope.

Create HintDb keeps.
#[export] Hint Resolve keeps_refl keeps_sv keeps_ct keeps_emit keeps_report keeps_clear : keeps.
#[export] Hint Extern 1 (keeps _ (upd_peer _ _ _)) => apply keeps_upd; [done |] : keeps.

(** Fields outside the tables. *)
Lemma keeps_auth s s1 v :
  (auth_fit (auth s1) -> auth_fit v) -> keeps s s1 -> keeps s (s1 <| auth := v |>).
Proof. intros Hv K. etransitivity; [exact K |]. now split. Qed.
Lemma keeps_put s s1 p r :
  ident r = ident (peer_at s1 p) -> keeps s s1 -> keeps s (put_peer p r s1).
Proof.
  intros E K. etransitivity; [exact K |]. split; try done.
  intros q. destruct (decide (p = q)) as [<- |]; [now rewrite peer_at_put_eq | now rewrite peer_at_put_ne].
Qed.
Lemma keeps_flash s s1 p b : keeps s s1 -> keeps s (set_flash p b s1).
Proof. unfold set_flash. auto with keeps. Qed.
Lemma keeps_set_flags s s1 p b : keeps s s1 -> keeps s (set_flags p b s1).
Proof. unfold set_flags. auto with keeps. Qed.
Lemma keeps_clr_flags s s1 p b : keeps s s1 -> keeps s (clr_flags p b s1).
Proof. unfold clr_flags. auto with keeps. Qed.
Lemma keeps_status s s1 p st : keeps s s1 -> keeps s (set_status p st s1).
Proof. unfold set_status. auto with keeps. Qed.
#[export] Hint Resolve keeps_flash keeps_set_flags keeps_clr_flags keeps_status : keeps.

(** A loop whose body keeps the tables. *)
Lemma keeps_fold {A} (f : state -> A -> state) s l s1 :
  (forall s2 x, keeps s s2 -> keeps s (f s2 x)) -> keeps s s1 -> keeps s (fold_left f l s1).
Proof. intros Hf. revert s1. induction l as [|x l IH]; intros s1 K; cbn; auto. Qed.

Lemma keeps_fold_pair {A B} (f : B * state -> A -> B * state) s l b s1 :
  (forall b s2 x, keeps s s2 -> keeps s (f (b, s2) x).2) -> keeps s s1 -> keeps s (fold_left f l (b, s1)).2.
Proof.
  intros Hf. revert b s1. induction l as [|x l IH]; intros b s1 K; cbn; [done |].
  specialize (Hf b s1 x K). destruct (f (b, s1) x) as [b' s']. now apply IH.
Qed.

Section Helpers.
Context `{Env}.

Lemma keeps_systime s s1 : keeps s s1 -> keeps s (get_systime s1).2.
Proof. intros K. etransitivity; [exact K |]. unfold get_systime. now destruct (read_clock _). Qed.

Lemma keeps_poll s s1 p mpoll : keeps s s1 -> keeps s (poll_update p mpoll s1).
Proof.
  intros K. unfold poll_update. set (s2 := upd_peer p _ s1).
  assert (K2 : keeps s s2) by (unfold s2; auto with keeps). clearbody s2.
  destruct (0 <? _); [repeat case_match; auto with keeps |].
  destruct (has _ FLAG_REFCLOCK); [auto with keeps |].
  pose proof (keeps_random s s2 K2) as K3. destruct (ntp_random s2) as [x s3]. cbn [snd] in K3. auto with keeps.
Qed.

Lemma keeps_clear_all s s1 : keeps s s1 -> keeps s (clear_all s1).
Proof. apply keeps_fold. intros. case_match; auto with keeps. Qed.

Lemma keeps_on_wire s s1 p mode rb : keeps s s1 -> keeps s (on_wire p mode rb s1).2.
Proof. intros K. unfold on_wire. repeat case_match; cbn [snd]; auto 8 with keeps. Qed.

Lemma keeps_reject s s1 p : keeps s s1 -> keeps s (reject_auth p s1).
Proof. intros K. unfold reject_auth. auto with keeps. Qed.

Lemma keeps_slow s s1 p pkt : keeps s s1 -> keeps s (slow_down p pkt s1).
Proof. intros K. unfold slow_down. apply keeps_poll, keeps_upd; [done |]. case_match; auto with keeps. Qed.

Lemma keeps_header s s1 p pkt : keeps s s1 -> keeps s (header_vars p pkt s1).
Proof.
  intros K. unfold header_vars. apply keeps_poll.
  set (s2 := upd_peer p _ (s1 .++ sys_processed)). assert (K2 : keeps s s2) by (unfold s2; auto with keeps).
  clearbody s2. repeat case_match; auto with keeps.
Qed.

Lemma keeps_tests s s1 p pkt : keeps s s1 -> keeps s (packet_tests p pkt s1).
Proof. intros K. unfold packet_tests. repeat case_match; auto with keeps. Qed.

End Helpers.
#[export] Hint Resolve keeps_poll keeps_clear_all keeps_reject keeps_slow keeps_header keeps_tests : keeps.

(** ** Replies *)

Lemma pkt_bytes_length x : length (pkt_bytes x) = 48%nat.
Proof. reflexivity. Qed.

Section Replies.
Context `{Env} `{!DigestLaws}.

Lemma fast_xmit_fit rb mode key flags s :
  auth_fit (auth s) ->
  exists rb' s', fast_xmit rb mode key flags s = Some (rb', s') /\ keeps s s' /\
    rb_srcadr rb' = rb_srcadr rb /\ rb_pkt rb' = rb_pkt rb.
Proof.
  intros A. unfold fast_xmit. match goal with |- context [if ?b then ?t else rb] => set (rb1 := if b then t else rb) end.
  assert (Eb : rb_srcadr rb1 = rb_srcadr rb /\ rb_pkt rb1 = rb_pkt rb) by (unfold rb1; case_match; done).
  clearbody rb1.
  assert (K2 : keeps s (reply_header rb1 mode flags s).2).
  { unfold reply_header. case_match; [cbn [snd]; auto with keeps |].
    pose proof (keeps_systime s s (keeps_refl s)) as Kt. destruct (get_systime s). exact Kt. }
  destruct (reply_header rb1 mode flags s) as [xpkt s3]. cbn [snd] in K2.
  case_match; [eexists _, _; split; [reflexivity |]; split; [auto with keeps | done] |].
  pose proof (keeps_systime s s3 K2) as K4. destruct (get_systime s3) as [tx s4]. cbn [snd] in K4.
  destruct (authencrypt_fit key (xmit_buffer xpkt) LEN_PKT_NOMAC (auth s4)) as (n & buf & au & -> & _ & F).
  { now apply K4. } { done. } { done. }
  { unfold xmit_buffer. rewrite length_app, pkt_bytes_length, length_replicate. done. }
  cbn [mbind option_bind].
  match goal with |- context [get_systime ?x] => set (s5 := x) end.
  assert (K5 : keeps s s5) by (unfold s5; apply keeps_emit; now apply keeps_auth). clearbody s5.
  pose proof (keeps_systime s s5 K5) as K6. destruct (get_systime s5) as [ty s6]. cbn [snd] in K6.
  eexists _, _. split; [reflexivity |]. split; [auto with keeps | done].
Qed.
End Replies.

(** ** Selection, filter and clock update *)

Section Discipline.
Context `{EnvLaws}.

Lemma keeps_candidates s s1 : keeps s s1 -> keeps s (candidates s1).2.
Proof.
  intros K. unfold candidates. apply keeps_fold_pair; [| exact K].
  clear K. intros a s2 p K. unfold admit_peer.
  pose proof (keeps_unfit p s (set_status p CTL_PST_SEL_REJECT s2) (keeps_status _ _ _ _ K)) as K3.
  destruct (peer_unfit p _) as [u s3]. cbn [snd] in K3.
  destruct (nonzero u); [done |]. destruct (_ =? sys_orphan _); [case_match; done |].
  destruct (sys_orphan _ <? _); [done |]. destruct (_ && _); [done |]. destruct (_ && _); [done |].
  cbn [snd]. auto with keeps.
Qed.

Lemma keeps_cluster s fuel peers s1 l s2 :
  keeps s s1 -> cluster fuel peers s1 = Some (l, s2) -> keeps s s2.
Proof.
  revert peers s1. induction fuel as [|fuel IH]; intros peers s1 K; [done |]. cbn [cluster].
  destruct (worst _ _ _ _ _) as [[d g] k]. destruct (_ || _); [intros [= _ <-]; exact K |].
  apply IH. destruct (_ <? _); [now apply keeps_status | exact K].
Qed.

Lemma keeps_survivors s s1 peers pps s2 :
  keeps s s1 -> survivors s1 = Some (peers, pps, s2) -> keeps s s2.
Proof.
  intros K. unfold survivors. pose proof (keeps_candidates s s1 K) as K3.
  destruct (candidates s1) as [a s3]. cbn [snd] in K3. destruct (intersection_interval _ _) as [[? low] high].
  destruct (cull _ _ _ _ _) as [l pp].
  intros E. apply bind_Some in E as ([l' s4] & E & E'). injection E' as _ _ ->.
  eapply keeps_cluster; [| exact E]. apply keeps_fold; [| exact K3]. intros. now apply keeps_status.
Qed.

Lemma keeps_mark s s1 peers : keeps s s1 -> keeps s (mark_survivors peers s1).2.
Proof.
  intros K. unfold mark_survivors. apply keeps_fold_pair; [| now apply keeps_sv].
  clear K. intros t s2 c K. unfold mark_survivor.
  match goal with |- context [if p_leap (peer_at ?x _) =? _ then _ else _] => set (s3 := x) end.
  assert (K3 : keeps s s3) by (unfold s3; auto with keeps). clearbody s3.
  match goal with |- context [if p_leap (peer_at s3 ?p) =? ?l then ?a else s3] =>
    set (s4 := if p_leap (peer_at s3 p) =? l then a else s3) end.
  assert (K4 : keeps s s4) by (unfold s4; repeat case_match; auto with keeps). clearbody s4.
  case_match; exact K4.
Qed.

Lemma keeps_choose s osys peers s1 : keeps s s1 -> keeps s (choose_system osys peers s1).2.
Proof.
  intros K. unfold choose_system. pose proof (keeps_mark s s1 peers K) as K2.
  destruct (mark_survivors peers s1) as [t s2]. cbn [snd] in K2.
  destruct (_ && _); [| exact K2].
  assert (K3 : forall c, keeps s (clockhop osys c s2).2).
  { intros c. unfold clockhop. repeat case_match; cbn [snd]; auto with keeps. }
  specialize (K3 (ps_peer (nth (ta_speer t) peers zero_select))). destruct (clockhop _ _ _) as [c s3]. cbn [snd] in K3.
  destruct (ta_prefer t) as [pr|]; cbn [snd]; [auto with keeps |].
  unfold clock_combine. destruct (fold_left _ _ _) as [[y z] w]. auto with keeps.
Qed.

Lemma keeps_elect s s1 t s2 : keeps s s1 -> elect s1 = Some (t, s2) -> keeps s s2.
Proof.
  intros K. unfold elect. intros E. apply bind_Some in E as ([[peers pps] s3] & E3 & E).
  pose proof (keeps_survivors s _ _ _ _ (keeps_sv _ _ _ K) E3) as K3.
  pose proof (keeps_choose s (sys_peer (sv s1)) peers s3 K3) as K4.
  destruct (choose_system _ peers s3) as [[ty pr] s4]. cbn [snd] in K4.
  assert (E2 : s2 = (apply_pps pps pr ty s4).2) by (injection E as ->; done). rewrite E2. clear E E2.
  unfold apply_pps. destruct pps as [q|]; [| exact K4]. destruct (_ && _); [cbn [snd]; auto with keeps | exact K4].
Qed.

Lemma keeps_commit s s1 : keeps s s1 -> keeps s (commit_status s1).
Proof. apply keeps_fold. auto with keeps. Qed.

Lemma keeps_update_vars s s1 p : keeps s s1 -> keeps s (update_vars p s1).
Proof.
  intros K. unfold update_vars.
  match goal with |- context [poll_update p ?m ?x] => set (s2 := poll_update p m x) end.
  assert (K2 : keeps s s2) by (unfold s2; auto 6 with keeps). clearbody s2. auto 8 with keeps.
Qed.

Lemma keeps_update_leap s s1 p : keeps s s1 -> keeps s (update_leap p s1).
Proof.
  intros K. unfold update_leap.
  match goal with |- context [get_systime ?x] => set (s2 := x) end.
  assert (K2 : keeps s s2) by (unfold s2; case_match; auto with keeps). clearbody s2.
  pose proof (keeps_systime s s2 K2) as K3. destruct (get_systime s2) as [now s3]. cbn [snd] in K3.
  repeat (case_match; auto 6 with keeps).
Qed.

(** The discipline. *)
Lemma keeps_lp s s1 v : keeps s s1 -> keeps s (s1 <| lp := v |>).
Proof. intros K. etransitivity; [exact K |]. now split. Qed.
Lemma keeps_clk s s1 v : keeps s s1 -> keeps s (s1 <| clk := v |>).
Proof. intros K. etransitivity; [exact K |]. now split. Qed.
#[local] Hint Resolve keeps_lp keeps_clk : keeps.

Lemma keeps_rstclock s s1 t o : keeps s s1 -> keeps s (rstclock t o s1).
Proof. intros K. unfold rstclock. case_match; auto 8 with keeps. Qed.
Lemma keeps_set_freq s s1 f : keeps s s1 -> keeps s (set_freq f s1).
Proof. intros K. unfold set_freq. auto with keeps. Qed.
Lemma keeps_step s s1 o : keeps s s1 -> keeps s (step_systime o s1).
Proof. intros K. unfold step_systime. auto with keeps. Qed.
Lemma keeps_adj s s1 o : keeps s s1 -> keeps s (adj_systime o s1).
Proof. intros K. unfold adj_systime. auto with keeps. Qed.
#[local] Hint Resolve keeps_rstclock keeps_set_freq keeps_step keeps_adj : keeps.

(** The state a regime leaves. *)
Definition regime_state (r : Z * state + Z * double * state) : state :=
  match r with inl (_, s) => s | inr (_, _, s) => s end.

Lemma keeps_step_regime s s1 o mu : keeps s s1 -> keeps s (regime_state (step_regime o mu s1)).
Proof.
  intros K. unfold step_regime, do_step, direct_freq, regime_state.
  set (s2 := set_freq _ s1). assert (K2 : keeps s s2) by (unfold s2; auto with keeps). clearbody s2.
  repeat match goal with |- context [if ?b then _ else _] => destruct b end; auto 10 with keeps.
Qed.

Lemma keeps_slew_regime s s1 o mu : keeps s s1 -> keeps s (regime_state (slew_regime o mu s1)).
Proof.
  intros K. unfold slew_regime, do_slew, direct_freq, regime_state. set (s2 := update_jitter o s1).
  assert (K2 : keeps s s2) by (unfold s2, update_jitter; auto with keeps). clearbody s2.
  set (s3 := set_freq _ s2). assert (K3 : keeps s s3) by (unfold s3; auto with keeps). clearbody s3.
  repeat match goal with |- context [if ?b then _ else _] => destruct b end; auto 10 with keeps.
Qed.

Lemma keeps_local_clock s s1 p o : keeps s s1 -> keeps s (local_clock p o s1).2.
Proof.
  intros K. unfold local_clock. destruct (_ =? 0); [done |].
  destruct (panics s1 o); [cbn [snd]; auto with keeps |].
  destruct (nonzero _); [cbn [snd]; case_match; auto with keeps |].
  assert (K2 : keeps s (huffpuff_offset p o s1).2).
  { unfold huffpuff_offset. destruct (sys_huffpuff _); [done |]. cbn [snd]. repeat case_match; auto with keeps. }
  destruct (huffpuff_offset p o s1) as [o2 s2]. cbn [snd] in K2.
  assert (K3 : keeps s (clamp_poll p s2)) by (unfold clamp_poll; repeat case_match; auto with keeps).
  set (s3 := clamp_poll p s2) in *. clearbody s3.
  pose proof (keeps_step_regime s s3 o2 (since_epoch s3) K3) as K4.
  pose proof (keeps_slew_regime s s3 o2 (since_epoch s3) K3) as K5.
  match goal with |- context [match ?r with inl _ => _ | inr _ => _ end] => set (rg := r) end.
  assert (K6 : keeps s (regime_state rg)) by (unfold rg; destruct (steps s3 o2); assumption). clearbody rg. clear K4 K5.
  destruct rg as [[rc s4] | [[rc freq] s4]]; cbn [regime_state snd] in *; [done |].
  assert (K7 : keeps s (update_freq freq s4)) by (unfold update_freq; auto with keeps).
  set (s5 := update_freq freq s4) in *. clearbody s5.
  assert (K8 : keeps s (adjust_poll p s5)) by (unfold adjust_poll; repeat case_match; auto with keeps).
  set (s6 := adjust_poll p s5) in *. clearbody s6. case_match; auto with keeps.
Qed.

Lemma keeps_clock_update s s1 p : keeps s s1 -> keeps s (clock_update p s1).
Proof.
  intros K. unfold clock_update. pose proof (keeps_update_vars s s1 p K) as K2. set (s2 := update_vars p s1) in *.
  clearbody s2. pose proof (keeps_local_clock s s2 p (sys_offset (sv s2)) K2) as K3.
  destruct (local_clock _ _ s2) as [rc s3]. cbn [snd] in K3.
  destruct (rc =? -1); [auto with keeps |]. destruct (rc =? 2); [| destruct (rc =? 1); auto using keeps_update_leap].
  pose proof (keeps_clear_all s s3 K3) as K4. set (s4 := clear_all s3) in *. clearbody s4.
  auto 12 with keeps.
Qed.

Lemma keeps_select s s1 s2 : keeps s s1 -> clock_select s1 = Some s2 -> keeps s s2.
Proof.
  intros K. unfold clock_select. intros E. apply bind_Some in E as ([t s3] & E3 & E).
  pose proof (keeps_elect s s1 t s3 K E3) as K3. clear E3. revert E. some_inj. destruct t as [c|].
  - destruct (_ <=? _); [done |]. apply keeps_clock_update, keeps_commit. case_match; auto with keeps.
  - apply keeps_commit, keeps_sv. repeat (case_match; auto with keeps).
Qed.
End Discipline.

(** Sample bookkeeping does not touch the identity. *)
Section Filtering.
Context `{EnvLaws}.

Lemma order_ident o d e s r : ident (order_samples o d e s r).1 = ident r.
Proof. unfold order_samples. destruct (age _ _ _ _ _ _ _ _ _) as [fd l]. reflexivity. Qed.

Lemma keeps_filter s s1 p o d e s2 : keeps s s1 -> clock_filter p o d e s1 = Some s2 -> keeps s s2.
Proof.
  intros K. unfold clock_filter. pose proof (order_ident o d e s1 (peer_at s1 p)) as E1.
  destruct (order_samples o d e s1 (peer_at s1 p)) as [r samples]. cbn [fst] in E1.
  destruct (sums _ _ _ _ _) as [dd jitter].
  destruct (_ =? 0); [apply keeps_select; now apply keeps_put |].
  destruct (popcorn _ _ _ _).
  { some_inj. now apply keeps_report, keeps_put. }
  destruct (_ <=? _); [some_inj; now apply keeps_put |].
  destruct (_ || _); [apply keeps_select; now apply keeps_put |].
  some_inj. now apply keeps_put.
Qed.
End Filtering.

(** ** Packets of an association *)

(** The tables stay consistent, with the same associations and restrictions. *)
Definition stable (s s' : state) : Prop :=
  (peer_inv s -> peer_inv s') /\ peer_list s' = peer_list s /\ restr s' = restr s.

Lemma keeps_stable s s' : keeps s s' -> stable s s'.
Proof. intros K. split_and!; [exact (keeps_inv [] s s' K) | apply K | apply K]. Qed.

Lemma stable_trans s1 s2 s3 : stable s1 s2 -> stable s2 s3 -> stable s1 s3.
Proof. intros (A & B & C) (D & E & F). split_and!; [auto | congruence | congruence]. Qed.

(** A broadcast client at the end of its volley. *)
Lemma stable_hmode p s : stable s (upd_peer p (fun r => r <| p_hmode := MODE_BCLIENT |>) s).
Proof.
  split_and!; [| done | done]. intros I. split; try from_inv I.
  - eapply indexed_proper; [| | apply I]; [done |]. intros q _. cbn. rewrite peer_at_upd. now case_decide; subst.
  - eapply indexed_proper; [| | apply I]; [done |]. intros q _. cbn. rewrite peer_at_upd. now case_decide; subst.
  - intros q Hq. rewrite peer_at_upd. case_decide; subst; now apply (ti_unbound _ _ I).
  - intros q Hq. rewrite peer_at_upd. case_decide; subst; [| now apply I].
    split; [change (0 <= 6 <= 6); lia | now apply (ti_live _ _ I)].
  - eapply bound_ext; [| | | apply I]; [| | done]; intros q; cbn beta; rewrite peer_at_upd; case_decide; subst; done.
  - intros q. rewrite peer_at_upd. case_decide; subst; apply (ti_pools _ _ I).
Qed.

Section Packets.
Context `{EnvLaws}.

Lemma keeps_measure s s1 p pkt :
  keeps s s1 -> match measure p pkt s1 with inl s2 => keeps s s2 | inr (_, _, s2) => keeps s s2 end.
Proof.
  intros K. unfold measure. destruct (negb _).
  { destruct (_ || _); auto with keeps. }
  destruct (_ =? MODE_BROADCAST); [| done].
  assert (Kv : forall s2, keeps s s2 -> forall t, keeps s
    (if has FLAG_BC_VOL (p_flags (peer_at s2 p))
     then upd_peer p (fun r => r <|| p_delay := dabs (p_offset (pv r) -d t) *d dofZ 2 ||>) (clr_flags p FLAG_BC_VOL s2)
     else s2)) by (intros; case_match; auto with keeps).
  destruct (has _ FLAG_XB); [| apply Kv, K].
  destruct (_ || _); [auto with keeps | apply Kv; auto with keeps].
Qed.

(** Processing a packet returns and does not disturb the tables. *)
Lemma process_packet_stable p pkt s : exists s', process_packet p pkt s = Some s' /\ stable s s'.
Proof.
  unfold process_packet. set (s1 := packet_tests p pkt (header_vars p pkt s)).
  assert (K1 : keeps s s1) by (unfold s1; auto with keeps). clearbody s1.
  destruct (has _ PKT_TEST_MASK); [eexists; split; [reflexivity | apply keeps_stable; auto with keeps] |].
  match goal with |- context [measure p pkt ?x] => set (s2 := x) end.
  assert (K2 : keeps s s2) by (unfold s2; apply keeps_upd; [done |]; case_match; auto with keeps). clearbody s2.
  pose proof (keeps_measure s s2 p pkt K2) as K3. destruct (measure p pkt s2) as [s3 | [[o d] s3]];
    [eexists; split; [reflexivity | now apply keeps_stable] |].
  match goal with |- context [clock_filter p ?o ?d ?e s3] => destruct (clock_filter_total p o d e s3) as [s4 E4] end.
  pose proof (keeps_filter s s3 p _ _ _ s4 K3 E4) as K4. rewrite E4. cbn [mbind option_bind]. clear E4.
  destruct (_ && _); [| eexists; split; [reflexivity | now apply keeps_stable]].
  pose proof (keeps_unfit p s s4 K4) as K5. destruct (peer_unfit p s4) as [u s5]. cbn [snd] in K5.
  eexists. split; [reflexivity |].
  destruct (has TEST11 u); [now apply keeps_stable | apply (stable_trans s s5); [now apply keeps_stable | apply stable_hmode]].
Qed.
End Packets.
