(* ===== verification/RefclockFacts.v ===== *)
(** * Reference clocks: the sample queue, the median filter, the fudge factors *)

From S2P Require Import Prelude FixedPoint Calendar Double NtpTypes ClockTime Restrict RestrictFacts State ProtoBase Refclock Sample Peer PeerFacts Select Filter FilterFacts RefclockPoll EngineFacts.
From stdpp Require Import base gmap list sorting.
#[local] Open Scope Z_scope.

(** ** The ring buffer as a queue *)

(** The buffer has its length and both pointers are inside. *)
Definition ring_ok (pp : refclockproc) : Prop :=
  length (pp_filter pp) = 60%nat /\ 0 <= pp_coderecv pp < 60 /\ 0 <= pp_codeproc pp < 60.

(** The number of samples pending, and the samples, oldest first. *)
Definition pending (pp : refclockproc) : nat := Z.to_nat ((pp_coderecv pp - pp_codeproc pp) mod 60).
Definition slot (pp : refclockproc) (i : Z) : double := nth (Z.to_nat ((pp_codeproc pp + 1 + i) mod 60)) (pp_filter pp) dzero.
Definition queue (pp : refclockproc) : list double := map (fun i => slot pp (Z.of_nat i)) (seq 0 (pending pp)).

(** The last 59 of a list. *)
Definition latest (l : list double) : list double := drop (length l - 59) l.

Lemma queue_length pp : length (queue pp) = pending pp.
Proof. unfold queue. now rewrite length_map, length_seq. Qed.

Lemma queue_lookup pp i : (i < pending pp)%nat -> queue pp !! i = Some (slot pp (Z.of_nat i)).
Proof. intros Hi. unfold queue. rewrite list_lookup_fmap, lookup_seq_lt by done. done. Qed.

Lemma rem60 x : 0 <= x -> x %c MAXSTAGE = x mod 60.
Proof. intros Hx. unfold MAXSTAGE. apply Z.rem_mod_nonneg; lia. Qed.

Lemma pending_bound pp : (pending pp < 60)%nat.
Proof. unfold pending. pose proof (Z.mod_pos_bound (pp_coderecv pp - pp_codeproc pp) 60 ltac:(lia)). lia. Qed.

(** A slot other than the one written. *)
Lemma slot_other l (x : double) j k :
  0 <= k -> 0 <= j -> j <> k -> nth (Z.to_nat k) (<[Z.to_nat j := x]> l) dzero = nth (Z.to_nat k) l dzero.
Proof. intros Hk Hj Hne. rewrite !nth_lookup, list_lookup_insert_ne by lia. done. Qed.

Lemma slot_same l (x : double) j : (Z.to_nat j < length l)%nat -> nth (Z.to_nat j) (<[Z.to_nat j := x]> l) dzero = x.
Proof. intros Hj. rewrite nth_lookup, list_lookup_insert_eq by done. done. Qed.

Lemma same_list (l l' : list double) :
  length l = length l' -> (forall i, (i < length l)%nat -> l !! i = l' !! i) -> l = l'.
Proof.
  intros E Hi. apply list_eq. intros i. destruct (decide (i < length l)%nat) as [H|H]; [auto |].
  rewrite !lookup_ge_None_2 by lia. done.
Qed.

(** A new sample goes to the end of the queue; the 60th pushes out the oldest. *)
Lemma SAMPLE_queue x pp : ring_ok pp -> ring_ok (SAMPLE x pp) /\ queue (SAMPLE x pp) = latest (queue pp ++ [x]).
Proof.
  intros (Hl & Hr & Hc). pose proof (pending_bound pp) as Hb.
  set (r := pp_coderecv pp) in *. set (c := pp_codeproc pp) in *. set (n := pending pp) in *.
  assert (Hn : Z.of_nat n = (r - c) mod 60) by (unfold n, pending; fold r c; pose proof (Z.mod_pos_bound (r - c) 60 ltac:(lia)); lia).
  unfold SAMPLE. cbv zeta. fold r. rewrite rem60 by lia.
  set (pp1 := (pp <| pp_coderecv := (r + 1) mod 60 |>) <| pp_filter := _ |>).
  assert (F : pp_coderecv pp1 = (r + 1) mod 60 /\ pp_codeproc pp1 = c /\
              pp_filter pp1 = <[Z.to_nat ((r + 1) mod 60) := x]> (pp_filter pp)) by done.
  clearbody pp1. destruct F as (F1 & F2 & F3).
  assert (Hl1 : length (pp_filter pp1) = 60%nat) by now rewrite F3, length_insert.
  pose proof (Z.mod_pos_bound (r + 1) 60 ltac:(lia)) as Hr1.
  rewrite F1, F2. destruct (Z.eqb_spec ((r + 1) mod 60) c) as [E | E].
  - rewrite rem60 by lia. set (pp2 := pp1 <| pp_codeproc := _ |>).
    assert (G : pp_coderecv pp2 = c /\ pp_codeproc pp2 = (c + 1) mod 60 /\ pp_filter pp2 = pp_filter pp1) by (split_and!; [exact (eq_trans F1 E) | done | done]).
    clearbody pp2. destruct G as (G1 & G2 & G3). pose proof (Z.mod_pos_bound (c + 1) 60 ltac:(lia)) as Hc1.
    split; [split_and!; [now rewrite G3 | lia.. ] |].
    assert (En : n = 59%nat) by (clear -Hn E Hr Hc; Z.div_mod_to_equations; lia).
    assert (En2 : pending pp2 = 59%nat) by (unfold pending; rewrite G1, G2; clear -Hc; Z.div_mod_to_equations; lia).
    unfold latest. rewrite length_app, queue_length. fold n. rewrite En. cbn [length Nat.add Nat.sub].
    apply same_list; [rewrite queue_length, length_drop, length_app, queue_length; fold n; cbn; lia |].
    intros i Hi. rewrite queue_length, En2 in Hi. rewrite queue_lookup, lookup_drop by lia. unfold slot. rewrite G2, G3, F3.
    destruct (decide (i = 58)%nat) as [-> | Hne].
    + rewrite lookup_app_r by (rewrite queue_length; fold n; lia). rewrite queue_length. fold n. rewrite En. transitivity (Some x); [| reflexivity]. f_equal.
      replace (((c + 1) mod 60 + 1 + Z.of_nat 58) mod 60) with ((r + 1) mod 60) by (rewrite E; clear -Hc; Z.div_mod_to_equations; lia).
      now rewrite slot_same by (rewrite Hl; lia).
    + rewrite lookup_app_l by (rewrite queue_length; fold n; lia). rewrite queue_lookup by (fold n; lia).
      unfold slot. fold c. replace (((c + 1) mod 60 + 1 + Z.of_nat i) mod 60) with ((c + 1 + Z.of_nat (1 + i)) mod 60)
        by (clear -Hc; Z.div_mod_to_equations; lia).
      pose proof (Z.mod_pos_bound (c + 1 + Z.of_nat (1 + i)) 60 ltac:(lia)).
      rewrite slot_other; [done | lia | lia |]. rewrite E. clear -Hc Hi Hne. Z.div_mod_to_equations. lia.
  - split; [split_and!; [done | lia.. ] |].
    assert (En : (n < 59)%nat) by (clear -Hn E Hr Hc; Z.div_mod_to_equations; lia).
    assert (En2 : pending pp1 = S n) by (unfold pending; rewrite F1, F2; clear -Hn E Hr Hc; Z.div_mod_to_equations; lia).
    unfold latest. rewrite length_app, queue_length. fold n. replace (n + length [x] - 59)%nat with 0%nat by (cbn; lia). rewrite drop_0.
    apply same_list; [rewrite queue_length, length_app, queue_length; fold n; cbn; lia |].
    intros i Hi. rewrite queue_length, En2 in Hi. rewrite queue_lookup by lia. unfold slot. rewrite F2, F3.
    destruct (decide (i = n)) as [-> | Hne].
    + rewrite lookup_app_r by (rewrite queue_length; done). rewrite queue_length. fold n. rewrite Nat.sub_diag. transitivity (Some x); [| reflexivity]. f_equal.
      replace ((c + 1 + Z.of_nat n) mod 60) with ((r + 1) mod 60) by (clear -Hn E Hr Hc; Z.div_mod_to_equations; lia).
      now rewrite slot_same by (rewrite Hl; lia).
    + rewrite lookup_app_l by (rewrite queue_length; fold n; lia). rewrite queue_lookup by (fold n; lia). unfold slot. fold c.
      pose proof (Z.mod_pos_bound (c + 1 + Z.of_nat i) 60 ltac:(lia)).
      rewrite slot_other; [done | lia | lia |]. clear -Hn E Hr Hc Hi Hne. Z.div_mod_to_equations. lia.
Qed.

(** Draining takes the whole queue. *)
Lemma drain_queue fuel pp :
  ring_ok pp -> (pending pp < fuel)%nat -> drain fuel pp = (queue pp, pp <| pp_codeproc := pp_coderecv pp |>).
Proof.
  revert pp. induction fuel as [|fuel IH]; intros pp (Hl & Hr & Hc) Hf; [lia |]. cbn [drain].
  destruct (Z.eqb_spec (pp_codeproc pp) (pp_coderecv pp)) as [E | E].
  { unfold queue, pending. rewrite E, Z.sub_diag. f_equal. destruct pp. cbn in *. now subst. }
  rewrite rem60 by lia. set (pp1 := pp <| pp_codeproc := _ |>).
  assert (F : pp_coderecv pp1 = pp_coderecv pp /\ pp_codeproc pp1 = (pp_codeproc pp + 1) mod 60 /\ pp_filter pp1 = pp_filter pp /\
              pp1 <| pp_codeproc := pp_coderecv pp1 |> = pp <| pp_codeproc := pp_coderecv pp |>) by done.
  clearbody pp1. destruct F as (F1 & F2 & F3 & F4).
  pose proof (Z.mod_pos_bound (pp_codeproc pp + 1) 60 ltac:(lia)) as Hb.
  assert (En : pending pp = S (pending pp1)).
  { unfold pending. rewrite F1, F2. clear -E Hr Hc. Z.div_mod_to_equations. lia. }
  rewrite IH; [| split_and!; [now rewrite F3 | lia..] | lia]. rewrite F4. f_equal.
  unfold queue. rewrite En. cbn [seq map]. f_equal; [unfold slot; rewrite F2, F3; f_equal; f_equal; cbn; f_equal; lia |].
  rewrite <- seq_shift, map_map. apply map_ext. intros i. unfold slot. rewrite F2, F3. f_equal. f_equal.
  clear -Hc. Z.div_mod_to_equations. lia.
Qed.

Lemma drained pp : ring_ok pp -> ring_ok (pp <| pp_codeproc := pp_coderecv pp |>) /\ queue (pp <| pp_codeproc := pp_coderecv pp |>) = [].
Proof.
  intros (Hl & Hr & Hc). split; [done |]. unfold queue, pending. cbn [pp_coderecv pp_codeproc setter]. now rewrite Z.sub_diag.
Qed.

Lemma latest_latest (l l' : list double) : latest (latest l ++ l') = latest (l ++ l').
Proof.
  unfold latest. rewrite !length_app, length_drop.
  destruct (decide (length l <= 59)%nat) as [H|H].
  - replace (length l - 59)%nat with 0%nat by lia. rewrite drop_0. do 2 f_equal. lia.
  - replace (length l - (length l - 59) + length l' - 59)%nat with (length l') by lia.
    replace (length l + length l' - 59)%nat with ((length l - 59) + length l')%nat by lia.
    rewrite <- drop_drop. f_equal. rewrite drop_app_le by lia. done.
Qed.

(** ** The median filter *)

Lemma insert_perm x l : Permutation (insert_fp x l) (x :: l).
Proof.
  induction l as [|y l IH]; cbn [insert_fp]; [done |]. destruct (0 <? _); [| done]. rewrite IH. apply Permutation_swap.
Qed.

Lemma qsort_perm l : Permutation (qsort_fp l) l.
Proof. induction l as [|x l IH]; cbn [qsort_fp foldr]; [done |]. rewrite insert_perm. now f_equiv. Qed.

Lemma insert_sorted x l :
  Forall (fun y => is_num y = true) l -> is_num x = true -> StronglySorted le_d l -> StronglySorted le_d (insert_fp x l).
Proof.
  intros Hn Hx Hs. induction Hs as [| y l Hs IH Hy]; cbn [insert_fp]; [repeat constructor |].
  apply Forall_cons in Hn as [Hny Hn]. unfold refclock_cmpl_fp.
  assert (Hle : le_d x y -> Forall (le_d x) (y :: l)).
  { intros Hxy. apply Forall_cons. split; [done |]. eapply Forall_impl; [exact Hy |]. intros z Hz. eauto using le_d_trans. }
  destruct (x <d y) eqn:E1; [apply SSorted_cons; [by constructor | apply Hle; now apply lt_le_d] |].
  destruct (y <d x) eqn:E2; cbn [Z.ltb Z.compare].
  - constructor; [auto |]. rewrite insert_perm. apply Forall_cons. split; [now apply lt_le_d | done].
  - apply SSorted_cons; [by constructor | now apply Hle].
Qed.

Lemma qsort_sorted l : Forall (fun y => is_num y = true) l -> StronglySorted le_d (qsort_fp l).
Proof.
  induction 1 as [| x l Hx Hl IH]; cbn [qsort_fp foldr]; [constructor |].
  apply insert_sorted; [| done | done]. fold (qsort_fp l). now rewrite qsort_perm.
Qed.

(** The window [i, j) of the sorted samples narrows by rejecting, one after
    the other, the end that is not nearer to the median of the window than
    the other end is. *)
Definition nth_sample (l : list double) (k : Z) : double := nth (Z.to_nat k) l dzero.
Inductive narrows (l : list double) : Z * Z -> Z * Z -> Prop :=
| narrow_end i j : narrows l (i, j) (i, j)
| narrow_low i j w :
    let median := nth_sample l ((j + i) / 2) in
    le_d (nth_sample l (j - 1) -d median) (median -d nth_sample l i) ->
    narrows l (i + 1, j) w -> narrows l (i, j) w
| narrow_high i j w :
    let median := nth_sample l ((j + i) / 2) in
    le_d (median -d nth_sample l i) (nth_sample l (j - 1) -d median) ->
    narrows l (i, j - 1) w -> narrows l (i, j) w.

(** The trimming ends with exactly [m] samples. *)
Lemma trim_spec off fuel i j m :
  0 <= m <= j - i -> j - i <= Z.of_nat fuel + m -> 0 <= i ->
  let '(i', j') := trim fuel off i j m in i <= i' /\ j' <= j /\ j' - i' = m /\ narrows off (i, j) (i', j').
Proof.
  revert i j. induction fuel as [|fuel IH]; intros i j Hm Hf Hi; cbn [trim]; [split_and!; [lia .. | apply narrow_end] |].
  destruct (Z.ltb_spec m (j - i)); [| split_and!; [lia .. | apply narrow_end]]. cbv zeta. destruct (_ <d _) eqn:E.
  - specialize (IH (i + 1) j ltac:(lia) ltac:(lia) ltac:(lia)). destruct (trim fuel off (i + 1) j m) as [i' j'].
    destruct IH as (? & ? & ? & N). split_and!; [lia .. |]. apply narrow_low; [now apply lt_le_d | exact N].
  - specialize (IH i (j - 1) ltac:(lia) ltac:(lia) ltac:(lia)). destruct (trim fuel off i (j - 1) m) as [i' j'].
    destruct IH as (? & ? & ? & N). split_and!; [lia .. |]. apply narrow_high; [exact E | exact N].
Qed.

Lemma tally_sum l : fst (tally_samples l) = fold_left dadd l dzero.
Proof.
  unfold tally_samples. generalize dzero at 1 3 as o. generalize dzero at 1 as j. generalize (@None double) as prev.
  induction l as [|x l IH]; intros prev j o; cbn [fold_left]; [done | apply IH].
Qed.

(** ** Claims *)

(** The samples of a reference clock queue up.  From any state of the
    ring buffer, the samples a driver delivers are appended in order, the
    buffer holding the latest 59 of all that are pending; no index leaves
    the buffer, and draining it returns exactly those and leaves none. *)
Theorem samples_queue (pp : refclockproc) (xs : list double) :
  ring_ok pp ->
  let pp' := fold_left (fun pp x => SAMPLE x pp) xs pp in
  ring_ok pp' /\ queue pp' = latest (queue pp ++ xs) /\
  exists pp'', drain (Z.to_nat MAXSTAGE) pp' = (queue pp', pp'') /\ ring_ok pp'' /\ queue pp'' = [].
Proof.
  cbv zeta. intros Hr.
  assert (H1 : ring_ok (fold_left (fun pp x => SAMPLE x pp) xs pp) /\
               queue (fold_left (fun pp x => SAMPLE x pp) xs pp) = latest (queue pp ++ xs)).
  { revert pp Hr. induction xs as [|x xs IH]; intros pp Hr; cbn [fold_left].
    - split; [done |]. rewrite app_nil_r. unfold latest. rewrite queue_length. pose proof (pending_bound pp).
      replace (pending pp - 59)%nat with 0%nat by lia. done.
    - destruct (SAMPLE_queue x pp Hr) as [Hr1 E1]. destruct (IH _ Hr1) as [Hr2 E2]. split; [done |]. rewrite E2, E1.
      replace (queue pp ++ x :: xs) with ((queue pp ++ [x]) ++ xs) by now rewrite <- app_assoc. apply latest_latest. }
  destruct H1 as [Hr' E']. set (pp' := fold_left _ xs pp) in *. clearbody pp'. split; [done |]. split; [done |].
  eexists. split; [apply drain_queue; [done | apply pending_bound] |]. apply drained, Hr'.
Qed.

(** C26: the median filter.  Of [n] pending samples [refclock_sample] keeps
    [m = n - 4n/10], at least six tenths: a run of neighbours in the sorted
    order that contains the median, left by rejecting one sample after the
    other, each time the end of the run that is not nearer than the other
    end to the median of what remains.  It takes the mean of the samples
    kept as the offset, returns [n] and empties the queue. *)
Theorem median_filter (precision : Z) (pp : refclockproc) :
  ring_ok pp -> Forall (fun x => is_num x = true) (queue pp) -> queue pp <> [] ->
  let n := length (queue pp) in
  exists l i m pp',
    Permutation l (queue pp) /\ StronglySorted le_d l /\
    (m = n - n * 4 / 10 /\ 6 * n <= 10 * m /\ i <= n / 2 < i + m /\ i + m <= n)%nat /\
    narrows l (0, Z.of_nat n) (Z.of_nat i, Z.of_nat (i + m)) /\
    refclock_sample precision pp = (Z.of_nat n, pp') /\
    pp_offset pp' = fold_left dadd (take m (drop i l)) dzero /d dofZ (Z.of_nat m) /\
    ring_ok pp' /\ queue pp' = [].
Proof.
  intros Hr Hnum Hne. cbv zeta. unfold refclock_sample.
  rewrite drain_queue by (done || apply pending_bound). destruct (drained pp Hr) as [Hr1 Hq1].
  set (pp1 := pp <| pp_codeproc := _ |>) in *. set (q := queue pp) in *. set (n := length q).
  assert (Hn : (0 < n)%nat) by (unfold n; destruct q; [done | cbn; lia]).
  rewrite (proj2 (Z.eqb_neq _ _)) by lia.
  set (l := if 1 <? Z.of_nat n then qsort_fp q else q).
  assert (Hl : Permutation l q /\ StronglySorted le_d l).
  { unfold l. destruct (Z.ltb_spec 1 (Z.of_nat n)); [split; [apply qsort_perm | now apply qsort_sorted] |].
    split; [done |]. destruct q as [|x [|y q']]; [done | repeat constructor | cbn in n; lia]. }
  destruct Hl as [Hp Hs]. assert (Ll : length l = n) by now rewrite Hp. clearbody l.
  set (m := Z.of_nat n - Z.of_nat n * 4 / 10).
  assert (Hm : 0 <= m <= Z.of_nat n /\ 6 * Z.of_nat n <= 10 * m /\ Z.to_nat m = (n - n * 4 / 10)%nat)
    by (unfold m; change 10 with (Z.of_nat 10); change 4 with (Z.of_nat 4); rewrite <- Nat2Z.inj_mul, <- Nat2Z.inj_div;
        pose proof (Nat.div_mod_eq (n * 4) 10); pose proof (Nat.mod_upper_bound (n * 4) 10 ltac:(lia)); lia). clearbody m.
  pose proof (trim_spec l (length l) 0 (Z.of_nat n) m ltac:(lia) ltac:(lia) ltac:(lia)) as Ht.
  destruct (trim (length l) l 0 (Z.of_nat n) m) as [i j].
  assert (Hk : take (Z.to_nat (j - i)) (drop (Z.to_nat i) l) = take (Z.to_nat m) (drop (Z.to_nat i) l)) by (do 2 f_equal; lia).
  rewrite Hk. pose proof (tally_sum (take (Z.to_nat m) (drop (Z.to_nat i) l))) as Hsum.
  destruct (tally_samples _) as [sum jit]. cbn [fst] in Hsum.
  exists l, (Z.to_nat i), (Z.to_nat m). eexists. split; [done |]. split; [done |]. split; [| split; [| split; [reflexivity |]]].
  - pose proof (Nat.div_mod_eq n 2). pose proof (Nat.mod_upper_bound n 2 ltac:(lia)). lia.
  - destruct Ht as (? & ? & ? & N). replace (Z.of_nat (Z.to_nat i + Z.to_nat m)) with j by lia. rewrite Z2Nat.id by lia. exact N.
  - rewrite Z2Nat.id by lia. split; [now rewrite <- Hsum |]. split; [exact Hr1 | exact Hq1].
Qed.

(** ** The fudge factors *)

(** One flag taken over, if it is given. *)
Lemma flag_bit (b : bool) flags f n k :
  0 <= n < 8 -> 0 <= k < 8 ->
  Z.testbit (if b then u8 (clr f (2 ^ n) .| (flags .& 2 ^ n)) else f) k =
  if b && (k =? n) then Z.testbit flags k else Z.testbit f k.
Proof.
  intros Hn Hk. destruct b; cbn [andb]; [| done]. unfold u8, wrap, clr. rewrite Z.mod_pow2_bits_low by lia.
  rewrite Z.lor_spec, !Z.land_spec, Z.lnot_spec, Z.pow2_bits_eqb by lia. rewrite (Z.eqb_sym n k).
  destruct (k =? n); now destruct (Z.testbit f k), (Z.testbit flags k).
Qed.

Lemma flags_fold in_ ns f k :
  0 <= k < 8 -> Forall (fun n => 0 <= n < 8) ns -> NoDup ns ->
  Z.testbit (fold_left (fun f b => if given (Z.shiftl b 4) in_ then u8 (clr f b .| (rs_flags in_ .& b)) else f) (map (Z.pow 2) ns) f) k =
  if given (Z.shiftl (2 ^ k) 4) in_ && bool_decide (k ∈ ns) then Z.testbit (rs_flags in_) k else Z.testbit f k.
Proof.
  intros Hk. revert f. induction ns as [|n ns IH]; intros f Hr Hn; cbn [map fold_left].
  { rewrite bool_decide_eq_false_2 by set_solver. now rewrite andb_false_r. }
  apply Forall_cons in Hr as [Hr1 Hr2]. apply NoDup_cons in Hn as [Hn1 Hn2]. rewrite IH, flag_bit by done.
  destruct (Z.eqb_spec k n) as [-> | Hne].
  - rewrite (bool_decide_eq_false_2 (n ∈ ns)), (bool_decide_eq_true_2 (n ∈ n :: ns)) by set_solver. now rewrite andb_false_r.
  - rewrite (bool_decide_ext (k ∈ n :: ns) (k ∈ ns)) by set_solver. now rewrite andb_false_r.
Qed.

(** The flag bits that are given are taken over, the others kept. *)
Lemma fudge_flags_spec in_ f n :
  0 <= n < 4 -> has (fudge_flags in_ f) (2 ^ n) =
    if given (2 ^ (n + 4)) in_ then has (rs_flags in_) (2 ^ n) else has f (2 ^ n).
Proof.
  intros Hn. rewrite !has_bit by lia. unfold fudge_flags. change CLK_FLAGS with (map (Z.pow 2) [0; 1; 2; 3]).
  rewrite flags_fold; [| lia | repeat constructor; lia | apply (bool_decide_unpack _); vm_compute; exact I].
  rewrite Z.shiftl_mul_pow2, <- Z.pow_add_r by lia.
  rewrite bool_decide_eq_true_2, andb_true_r; [done |].
  assert (n = 0 \/ n = 1 \/ n = 2 \/ n = 3) as [-> | [-> | [-> | ->]]] by lia; set_solver.
Qed.

Section Fudge.
Context `{EnvLaws}.

Lemma upd_proc_at p f s pp : p_procptr (peer_at s p) = Some pp -> p_procptr (peer_at (upd_proc p f s) p) = Some (f pp).
Proof. intros E. unfold upd_proc. rewrite peer_at_upd, decide_True by done. cbn. now rewrite E. Qed.

(** What the settings make of the interface. *)
Definition fudged (i : refclockstat) (pp : refclockproc) : refclockproc :=
  let pp := if given CLK_HAVETIME1 i then pp <| pp_fudgetime1 := rs_fudgetime1 i |> else pp in
  let pp := if given CLK_HAVETIME2 i then pp <| pp_fudgetime2 := rs_fudgetime2 i |> else pp in
  let pp := if given CLK_HAVEVAL1 i then pp <| pp_stratum := u8 (rs_fudgeval1 i) |> else pp in
  let pp := if given CLK_HAVEVAL2 i then pp <| pp_refid := rs_fudgeval2 i |> else pp in
  pp <| pp_sloppyclockflag := fudge_flags i (pp_sloppyclockflag pp) |>.

Lemma fudge_proc i p s pp :
  p_procptr (peer_at s p) = Some pp -> p_procptr (peer_at (fudge i p s) p) = Some (fudged i pp).
Proof.
  intros E. unfold fudge, fudged. cbv zeta.
  assert (H1 : forall b f x y, p_procptr (peer_at x p) = Some y ->
    p_procptr (peer_at (if b : bool then upd_proc p f x else x) p) = Some (if b then f y else y))
    by (intros [] f x y Ey; [now apply upd_proc_at | done]).
  assert (H2 : forall b f g x y, p_procptr (peer_at x p) = Some y -> (forall r, p_procptr (g r) = p_procptr r) ->
    p_procptr (peer_at (if b : bool then upd_peer p g (upd_proc p f x) else x) p) = Some (if b then f y else y)).
  { intros [] f g x y Ey Hg; [| done]. rewrite peer_at_upd, decide_True by done. rewrite Hg. now apply upd_proc_at. }
  rewrite (upd_proc_at p _ _ (let pp := if given CLK_HAVETIME1 i then pp <| pp_fudgetime1 := rs_fudgetime1 i |> else pp in
    let pp := if given CLK_HAVETIME2 i then pp <| pp_fudgetime2 := rs_fudgetime2 i |> else pp in
    let pp := if given CLK_HAVEVAL1 i then pp <| pp_stratum := u8 (rs_fudgeval1 i) |> else pp in
    if given CLK_HAVEVAL2 i then pp <| pp_refid := rs_fudgeval2 i |> else pp)); [done |]. cbv zeta.
  refine (H2 (given CLK_HAVEVAL2 i) (fun pp => pp <| pp_refid := rs_fudgeval2 i |>) _ _ _ _ _); [| done].
  refine (H2 (given CLK_HAVEVAL1 i) (fun pp => pp <| pp_stratum := u8 (rs_fudgeval1 i) |>) _ _ _ _ _); [| done].
  refine (H1 (given CLK_HAVETIME2 i) (fun pp => pp <| pp_fudgetime2 := rs_fudgetime2 i |>) _ _ _).
  exact (H1 (given CLK_HAVETIME1 i) (fun pp => pp <| pp_fudgetime1 := rs_fudgetime1 i |>) _ _ E).
Qed.

Lemma keeps_proc s s1 p f : keeps s s1 -> keeps s (upd_proc p f s1).
Proof. intros K. unfold upd_proc. now apply keeps_upd. Qed.

Lemma fudge_keeps i p s : keeps s (fudge i p s).
Proof. unfold fudge. apply keeps_proc. repeat case_match; auto 10 using keeps_proc with keeps. Qed.

Lemma u8_has x n : 0 <= n < 8 -> has (u8 x) (2 ^ n) = has x (2 ^ n).
Proof. intros Hn. rewrite !has_bit by lia. unfold u8, wrap. now rewrite Z.mod_pow2_bits_low by lia. Qed.

(** What a clock reports of its fudge factors. *)
Lemma fudged_stat i pp now :
  let o := clock_stat now (fudged i pp) in
  rs_fudgetime1 o = (if given CLK_HAVETIME1 i then rs_fudgetime1 i else pp_fudgetime1 pp) /\
  rs_fudgetime2 o = (if given CLK_HAVETIME2 i then rs_fudgetime2 i else pp_fudgetime2 pp) /\
  rs_fudgeval1 o = (if given CLK_HAVEVAL1 i then u8 (rs_fudgeval1 i) else pp_stratum pp) /\
  rs_fudgeval2 o = (if given CLK_HAVEVAL2 i then rs_fudgeval2 i else pp_refid pp) /\
  rs_flags o = u8 (fudge_flags i (pp_sloppyclockflag pp)).
Proof.
  cbv zeta. unfold fudged.
  destruct (given CLK_HAVETIME1 i), (given CLK_HAVETIME2 i), (given CLK_HAVEVAL1 i), (given CLK_HAVEVAL2 i);
    (split_and!; reflexivity).
Qed.

(** Fudge factors read back.  The times, the stratum, the reference
    identifier and each of the four flags that [refclock_control] is given
    are the ones it then reports; those not given keep their value, and the
    association tables are left alone. *)
Theorem fudge_readback (a : sockaddr) (i : refclockstat) (s : state) (p : Z) (pp : refclockproc) :
  ISREFCLOCKADR a = true -> findexistingpeer a None None (-1) 0 s = Some p ->
  p_procptr (peer_at s p) = Some pp -> driver_of (REFCLOCKTYPE a) ≫= clock_control = None ->
  exists o s', refclock_control a (Some i) true s = Some (Some o, s') /\ keeps s s' /\
    rs_fudgetime1 o = (if given CLK_HAVETIME1 i then rs_fudgetime1 i else pp_fudgetime1 pp) /\
    rs_fudgetime2 o = (if given CLK_HAVETIME2 i then rs_fudgetime2 i else pp_fudgetime2 pp) /\
    rs_fudgeval1 o = (if given CLK_HAVEVAL1 i then u8 (rs_fudgeval1 i) else pp_stratum pp) /\
    rs_fudgeval2 o = (if given CLK_HAVEVAL2 i then rs_fudgeval2 i else pp_refid pp) /\
    forall n, 0 <= n < 4 -> has (rs_flags o) (2 ^ n) =
      if given (2 ^ (n + 4)) i then has (rs_flags i) (2 ^ n) else has (pp_sloppyclockflag pp) (2 ^ n).
Proof.
  intros Ha Hf Hp Hd. unfold refclock_control. rewrite Ha, Hf, Hp, Hd. cbn [negb mbind option_bind].
  rewrite (fudge_proc i p s pp Hp). cbn [fmap option_fmap option_map].
  destruct (fudged_stat i pp (current_time (fudge i p s))) as (F1 & F2 & F3 & F4 & F5).
  eexists _, _. split; [reflexivity |]. split; [apply fudge_keeps |]. split_and!; [exact F1 | exact F2 | exact F3 | exact F4 |].
  intros n Hn. rewrite F5, u8_has by lia. now apply fudge_flags_spec.
Qed.

(** A clock's samples taken into the clock filter. *)
Lemma refclock_receive_keeps p s :
  p_procptr (peer_at s p) <> None -> exists s', refclock_receive p s = Some s' /\ keeps s s'.
Proof.
  intros Hp. unfold refclock_receive. destruct (p_procptr (peer_at s p)) as [pp|]; [| done]. cbn [mbind option_bind].
  set (s1 := upd_peer p _ s). assert (K1 : keeps s s1) by (unfold s1; auto with keeps). clearbody s1.
  destruct (_ =? LEAP_NOTINSYNC); [eauto |].
  match goal with |- context [get_systime ?x] => set (s2 := x) end.
  assert (K2 : keeps s s2) by (unfold s2; repeat case_match; auto 10 with keeps). clearbody s2.
  pose proof (keeps_systime s s2 K2) as K3. destruct (get_systime s2) as [now s3]. cbn [snd] in K3.
  set (s4 := upd_peer p _ s3). assert (K4 : keeps s s4) by (unfold s4; auto with keeps). clearbody s4.
  destruct (refclock_sample _ pp) as [n pp']. set (s5 := upd_proc p _ s4).
  assert (K5 : keeps s s5) by now apply keeps_proc. clearbody s5.
  destruct (n =? 0); [eauto |].
  destruct (clock_filter_total p (pp_offset pp') dzero (pp_jitter pp') s5) as [s6 E6]. rewrite E6. cbn [mbind option_bind].
  pose proof (keeps_filter s s5 p _ _ _ s6 K5 E6) as K6. eexists. split; [reflexivity |].
  destruct (calibrates p s6); [now apply keeps_proc | done].
Qed.
End Fudge.

(** ** Closed instances *)

Lemma samples_queue_witness :
  queue (fold_left (fun pp x => SAMPLE x pp) [dofZ 1; dofZ 2] zero_proc) = [dofZ 1; dofZ 2].
Proof.
  assert (R : ring_ok zero_proc) by (split; [reflexivity |]; cbn; lia).
  exact (proj1 (proj2 (samples_queue zero_proc [dofZ 1; dofZ 2] R))).
Defined.

Lemma median_filter_witness :
  let pp := SAMPLE (dofZ 3) (SAMPLE (dofZ 100) (SAMPLE (dofZ 1) zero_proc)) in
  exists pp', refclock_sample (-18) pp = (3, pp') /\ queue pp' = [].
Proof.
  set (pp := SAMPLE (dofZ 3) (SAMPLE (dofZ 100) (SAMPLE (dofZ 1) zero_proc))).
  assert (R : ring_ok pp) by (unfold pp; repeat apply SAMPLE_queue; split; [reflexivity |]; cbn; lia).
  assert (Q : queue pp = [dofZ 1; dofZ 100; dofZ 3]) by (vm_compute; reflexivity).
  destruct (median_filter (-18) pp R) as (l & i & m & pp' & _ & _ & _ & _ & E & _ & _ & Qe).
  - rewrite Q. repeat constructor.
  - rewrite Q. discriminate.
  - exists pp'. rewrite Q in E. split; [exact E | exact Qe].
Defined.

(** The local clock 127.127.1.0, mobilized. *)
Definition clock_peer : peer :=
  zero_peer <| p_srcadr := v4 0x7f7f0100 |> <| p_flags := FLAG_CONFIG .| FLAG_REFCLOCK |>
            <| p_refclktype := 1 |> <| p_procptr := Some zero_proc |>.
Definition clock_state : state :=
  sample_state <| heap := {[1 := clock_peer]} |>
               <| peer_hash := {[sock_hash (v4 0x7f7f0100) .& NTP_HASH_MASK := [1]]} |>.
Definition sample_fudge : refclockstat := mk_stat 0x1 0x11 [] 0 0 0 0 0 (dlit 5 1) dzero 0 0 0 0 0.

Lemma fudge_readback_witness :
  exists o s', @refclock_control sample_env (v4 0x7f7f0100) (Some sample_fudge) true clock_state = Some (Some o, s') /\
    rs_fudgetime1 o = dlit 5 1 /\ has (rs_flags o) 1 = true.
Proof.
  destruct (@fudge_readback sample_env (v4 0x7f7f0100) sample_fudge clock_state 1 zero_proc) as (o & s' & E & _ & T & _ & _ & _ & F);
    [reflexivity | vm_compute; reflexivity | vm_compute; reflexivity | reflexivity |].
  exists o, s'. split; [exact E |]. split; [exact T | exact (F 0 ltac:(lia))].
Defined.
