(* ===== verification/ReceiveFacts.v ===== *)
(** * Receiving: what a rejected packet can do

    Access control, the packet sanity tests and authentication keep a packet
    from the clock: none of the system variables and no sample of any
    association changes.  The last part evaluates the procedure on packets
    that slip through. *)

From S2P Require Import Prelude FixedPoint Calendar Double Lists NtpTypes AuthKeys AuthFacts Monitor MonitorFacts Restrict RestrictFacts State ProtoBase Refclock Sample Peer PeerFacts FreshFacts Select Filter Transmit Receive EngineFacts.
From stdpp Require Import base gmap list.
#[local] Open Scope Z_scope.

(** ** Nothing synchronizes *)

(** The variables the clock is set from. *)
Definition clock_vars (v : sysvars) :=
  (sys_leap v, sys_stratum v, sys_refid v, sys_reftime v, sys_rootdelay v, sys_rootdisp v,
   sys_peer v, sys_offset v, sys_jitter v, sys_epoch v, sys_poll v).

(** The samples and statistics of an association. *)
Definition sample_vars (r : peer) :=
  (p_offset (pv r), p_delay (pv r), p_disp (pv r), p_jitter (pv r), p_epoch (pv r), p_reach (pv r),
   p_filter_nextpt (pv r), p_filter_delay (pv r), p_filter_offset (pv r), p_filter_disp (pv r),
   p_filter_epoch (pv r)).

(** A step that sets no clock and takes no sample for the associations in [P]. *)
Record quiet (P : Z -> Prop) (s s' : state) : Prop := {
  q_clock : clock_vars (sv s') = clock_vars (sv s);
  q_disc : discipline s' = discipline s;
  q_sample : forall q, P q -> sample_vars (peer_at s' q) = sample_vars (peer_at s q) }.

Lemma quiet_refl P s : quiet P s s.
Proof. now split. Qed.
Lemma quiet_trans P s1 s2 s3 : quiet P s1 s2 -> quiet P s2 s3 -> quiet P s1 s3.
Proof. intros [A E B] [C F D]. split; [congruence | congruence |]. intros q Hq. rewrite D, B; done. Qed.
Lemma quiet_mono (P Q : Z -> Prop) s s' : (forall q, Q q -> P q) -> quiet P s s' -> quiet Q s s'.
Proof. intros HPQ [A E B]. split; auto. Qed.

Lemma quiet_upd P p f s s1 :
  (forall r, sample_vars (f r) = sample_vars r) -> quiet P s s1 -> quiet P s (upd_peer p f s1).
Proof.
  intros Hf A. eapply quiet_trans; [exact A |]. split; [done | done |].
  intros q _. rewrite peer_at_upd. case_decide; subst; auto.
Qed.

(** Fields the relation does not see. *)
Lemma quiet_frame P s s1 s2 :
  sv s2 = sv s1 -> discipline s2 = discipline s1 -> heap s2 = heap s1 -> quiet P s s1 -> quiet P s s2.
Proof.
  intros E1 E3 E2 A. eapply quiet_trans; [exact A |]. split; [now rewrite E1 | exact E3 |].
  intros q _. unfold peer_at. now rewrite E2.
Qed.
Lemma quiet_ct P s s1 v : quiet P s s1 -> quiet P s (s1 <| ct := v |>).
Proof. now apply quiet_frame. Qed.
Lemma quiet_ntpdate P s s1 v : quiet P s s1 -> quiet P s (s1 <|sv peer_ntpdate := v |>).
Proof. intros A. eapply quiet_trans; [exact A |]. now split. Qed.
Lemma discipline_emit o s : clock_output o = false -> discipline (emit o s) = discipline s.
Proof. intros E. unfold discipline, emit. cbn. rewrite List.filter_app. cbn. now rewrite E, app_nil_r. Qed.
Lemma quiet_emit P s s1 o : clock_output o = false -> quiet P s s1 -> quiet P s (emit o s1).
Proof. intros E. apply quiet_frame; [done | now apply discipline_emit | done]. Qed.

Create HintDb quiet.
#[local] Hint Resolve quiet_refl quiet_ct : quiet.
#[local] Hint Extern 1 (quiet _ _ (emit _ _)) => apply quiet_emit; [reflexivity |] : quiet.
#[local] Hint Extern 1 (quiet _ _ (upd_peer _ _ _)) => apply quiet_upd; [done |] : quiet.

Section Quiet.
Context `{Env}.

Lemma quiet_random P s s1 : quiet P s s1 -> quiet P s (ntp_random s1).2.
Proof. apply quiet_frame; unfold ntp_random; now destruct (next_random _). Qed.
Lemma quiet_systime P s s1 : quiet P s s1 -> quiet P s (get_systime s1).2.
Proof. apply quiet_frame; unfold get_systime; now destruct (read_clock _). Qed.

Lemma quiet_report P s s1 err q : quiet P s s1 -> quiet P s (report_event err q s1).
Proof.
  intros A. unfold report_event. destruct q as [p|].
  - set (s2 := if _ =? _ then _ else s1).
    assert (A2 : quiet P s s2) by (unfold s2; case_match; auto with quiet).
    clearbody s2. case_match; auto with quiet.
  - set (s2 := if negb _ then _ else s1).
    assert (A2 : quiet P s s2) by (apply (quiet_frame P s s1); [unfold s2; case_match; done .. | exact A]).
    clearbody s2. case_match; [exact A2 |]. apply quiet_emit; [done |]. now apply (quiet_frame P s s2).
Qed.

Lemma quiet_unfit P s s1 p : quiet P s s1 -> quiet P s (peer_unfit p s1).2.
Proof. intros A. unfold peer_unfit. cbn [snd]. auto with quiet. Qed.

Lemma quiet_poll P s s1 p mpoll : quiet P s s1 -> quiet P s (poll_update p mpoll s1).
Proof.
  intros A. unfold poll_update. set (s2 := upd_peer p _ s1).
  assert (A2 : quiet P s s2) by (unfold s2; auto with quiet). clearbody s2.
  destruct (0 <? _); [repeat case_match; auto with quiet |].
  destruct (has _ FLAG_REFCLOCK); [auto with quiet |].
  pose proof (quiet_random P s s2 A2) as A3. destruct (ntp_random s2) as [x s3]. cbn [snd] in A3. auto with quiet.
Qed.
#[local] Hint Resolve quiet_report quiet_poll : quiet.

Lemma quiet_flash P s s1 p b : quiet P s s1 -> quiet P s (set_flash p b s1).
Proof. unfold set_flash. auto with quiet. Qed.
Lemma quiet_set_flags P s s1 p b : quiet P s s1 -> quiet P s (set_flags p b s1).
Proof. unfold set_flags. auto with quiet. Qed.
Lemma quiet_clr_flags P s s1 p b : quiet P s s1 -> quiet P s (clr_flags p b s1).
Proof. unfold clr_flags. auto with quiet. Qed.
#[local] Hint Resolve quiet_flash quiet_set_flags quiet_clr_flags : quiet.

Lemma quiet_on_wire P s s1 p mode rb : quiet P s s1 -> quiet P s (on_wire p mode rb s1).2.
Proof. intros A. unfold on_wire. repeat case_match; cbn [snd]; auto 8 with quiet. Qed.

Lemma quiet_reject P s s1 p : quiet P s s1 -> quiet P s (reject_auth p s1).
Proof. intros A. unfold reject_auth. auto with quiet. Qed.

Lemma quiet_slow P s s1 p pkt : quiet P s s1 -> quiet P s (slow_down p pkt s1).
Proof. intros A. unfold slow_down. apply quiet_poll, quiet_upd; [done |]. case_match; auto with quiet. Qed.

Lemma quiet_header P s s1 p pkt : quiet P s s1 -> quiet P s (header_vars p pkt s1).
Proof.
  intros A. unfold header_vars. apply quiet_poll.
  set (s2 := upd_peer p _ (s1 .++ sys_processed)). assert (A2 : quiet P s s2) by (unfold s2; auto with quiet).
  clearbody s2. repeat case_match; auto with quiet.
Qed.

Lemma quiet_tests P s s1 p pkt : quiet P s s1 -> quiet P s (packet_tests p pkt s1).
Proof. intros A. unfold packet_tests. repeat case_match; auto with quiet. Qed.

Lemma quiet_fast P s s1 rb mode key flags rb' s2 :
  quiet P s s1 -> fast_xmit rb mode key flags s1 = Some (rb', s2) -> quiet P s s2.
Proof.
  intros A. unfold fast_xmit. match goal with |- context [if ?b then ?t else rb] => set (rb1 := if b then t else rb) end.
  assert (A2 : quiet P s (reply_header rb1 mode flags s1).2).
  { unfold reply_header. case_match; [cbn [snd]; auto with quiet |].
    pose proof (quiet_systime P s s1 A) as At. destruct (get_systime s1). exact At. }
  destruct (reply_header rb1 mode flags s1) as [xpkt s3]. cbn [snd] in A2.
  case_match; [intros [= <- <-]; auto with quiet |].
  pose proof (quiet_systime P s s3 A2) as A4. destruct (get_systime s3) as [tx s4]. cbn [snd] in A4.
  destruct (authencrypt _ _ _ _) as [[[n buf] au]|]; [| done]. cbn [mbind option_bind].
  match goal with |- context [get_systime ?x] => set (s5 := x) end.
  assert (A5 : quiet P s s5) by (unfold s5; apply quiet_emit; [done |]; now apply (quiet_frame P s s4)).
  clearbody s5. pose proof (quiet_systime P s s5 A5) as A6. destruct (get_systime s5) as [ty s6]. cbn [snd] in A6.
  intros [= <- <-]. eapply quiet_trans; [exact A6 |]. now split.
Qed.

Lemma systime_cf s : cf (get_systime s).2 = cf s.
Proof. unfold get_systime. now destruct (read_clock _). Qed.

Lemma fast_cf rb mode key flags s rb' s2 : fast_xmit rb mode key flags s = Some (rb', s2) -> cf s2 = cf s.
Proof.
  unfold fast_xmit. match goal with |- context [if ?b then ?t else rb] => set (rb1 := if b then t else rb) end.
  assert (A2 : cf (reply_header rb1 mode flags s).2 = cf s).
  { unfold reply_header. case_match; [done |]. pose proof (systime_cf s) as At. destruct (get_systime s). exact At. }
  destruct (reply_header rb1 mode flags s) as [xpkt s3]. cbn [snd] in A2.
  case_match; [intros [= <- <-]; exact A2 |].
  pose proof (systime_cf s3) as A4. destruct (get_systime s3) as [tx s4]. cbn [snd] in A4.
  destruct (authencrypt _ _ _ _) as [[[n buf] au]|]; [| done]. cbn [mbind option_bind].
  match goal with |- context [get_systime ?x] => set (s5 := x) end.
  assert (A5 : cf s5 = cf s4) by reflexivity.
  clearbody s5. pose proof (systime_cf s5) as A6. destruct (get_systime s5) as [ty s6]. cbn [snd] in A6.
  intros [= <- <-]. change (cf (setter sv ?v s6)) with (cf s6). congruence.
Qed.
End Quiet.

(** ** Mobilizing and demobilizing *)

Section Peers.
Context `{EnvLaws}.
Variable P : Z -> Prop.
Variable p : Z.
Hypothesis HP : forall q, P q -> q <> p.

Lemma quiet_any s s1 f : quiet P s s1 -> quiet P s (upd_peer p f s1).
Proof.
  intros A. eapply quiet_trans; [exact A |]. split; [done | done |]. intros q Hq.
  rewrite peer_at_upd, decide_False; [done |]. intros E. exact (HP q Hq (eq_sym E)).
Qed.

Lemma quiet_others s s1 s2 : others p s1 s2 -> quiet P s s1 -> quiet P s s2.
Proof.
  intros (E1 & E3 & E2) A. eapply quiet_trans; [exact A |]. split; [now rewrite E1 | exact E3 |].
  intros q Hq. now rewrite E2 by auto.
Qed.

Lemma others_dst d s : others p s (set_peerdstadr p d s).
Proof.
  destruct (set_peerdstadr_spec p d s) as [T HS]. split; [apply T |]. split; [apply T |]. intros q Hq.
  destruct (_ || _); [now rewrite HS |]. destruct HS as [-> _]. rewrite decide_False; [done |]. congruence.
Qed.

Lemma quiet_free s s1 b : quiet P s s1 -> quiet P s (free_peer p b s1).
Proof.
  intros A. unfold free_peer.
  match goal with |- context [put_peer p zero_peer ?x] => set (s2 := x) end.
  assert (A2 : quiet P s s2).
  { unfold s2, unlink_counted. apply (quiet_frame P s s1); [| | | done]; repeat case_match; done. }
  clearbody s2. apply (quiet_frame P s (put_peer p zero_peer s2)); [done | done | done |].
  exact (quiet_any s s2 (fun _ => zero_peer) A2).
Qed.

Lemma quiet_clear s s1 id : quiet P s s1 -> quiet P s (peer_clear p id s1).
Proof.
  intros A. unfold peer_clear.
  set (s2 := upd_peer p (fun r => r <| p_ppoll := _ |> <| p_hpoll := _ |> <|| p_disp := _ ||>) _).
  assert (A2 : quiet P s s2) by (unfold s2; auto using quiet_any). clearbody s2.
  pose proof (quiet_unfit P s s2 p A2) as A3. destruct (peer_unfit p s2) as [u s3]. cbn [snd] in A3.
  set (s4 := upd_peer p (fun r => r <| p_nextdate := _ |> <| p_update := _ |> <| p_outdate := _ |>) _).
  assert (A4 : quiet P s s4) by (unfold s4; repeat case_match; auto 10 using quiet_any). clearbody s4.
  destruct (nonzero _); [auto using quiet_any |]. destruct (MODE_PASSIVE =? _); [auto using quiet_any |].
  pose proof (quiet_random P s s4 A4) as A5. destruct (ntp_random s4). auto using quiet_any.
Qed.

Lemma quiet_res s s1 f s2 : lift_res f s1 = Some s2 -> quiet P s s1 -> quiet P s s2.
Proof.
  unfold lift_res. destruct (f (restr s1)) as [r|]; [| done]. intros [= <-]. now apply quiet_frame.
Qed.

Lemma quiet_unpeer s s1 s2 : unpeer p s1 = Some s2 -> quiet P s s1 -> quiet P s s2.
Proof.
  intros E A. unfold unpeer in E. cbv zeta in E.
  apply bind_Some in E as (s4 & Er & [= <-]).
  apply (quiet_res s) in Er as A3; [| now apply quiet_report].
  apply quiet_free.
  pose proof (quiet_others _ _ _ (others_dst None s4) A3) as A5. set (s5 := set_peerdstadr p None s4) in *.
  match goal with |- context [refclock_unpeer p ?x] => set (s6 := x) end.
  assert (A6 : quiet P s s6) by (apply (quiet_frame P s s5); [unfold s6; case_match; done .. | done]).
  clearbody s6. case_match; [| done]. exact (quiet_others _ _ _ (proj2 (refclock_unpeer_ok p s6)) A6).
Qed.

Lemma quiet_fill s s1 a : quiet P s s1 -> quiet P s (fill_peer p a s1).
Proof.
  intros A. unfold fill_peer. destruct (clamp_polls _ _) as [mi ma]. apply quiet_any.
  assert (Hc : forall x y, quiet P s y -> quiet P s (enable_cast p x y)).
  { intros x y Hy. apply (quiet_frame P s y); [unfold enable_cast; repeat case_match; done .. | done]. }
  apply Hc, quiet_any. eapply quiet_others; [apply others_dst |]. apply quiet_any.
  match goal with |- quiet _ _ (setter current_association_ID ?v ?x) => apply (quiet_frame P s x); [done | done | done |] end.
  apply quiet_any. apply (quiet_frame P s s1); [case_match; done .. | done].
Qed.
End Peers.

Section Receive.
Context `{EnvLaws}.

Lemma quiet_start P p a s s1 :
  (forall q, P q -> q <> p) -> quiet P s s1 -> quiet P s (start_peer p a s1).2.
Proof.
  intros HP Q. unfold start_peer, ready_peer.
  set (s2 := upd_peer p (fun r => r <| p_timereset := _ |> <| p_timereachable := _ |> <| p_timereceived := _ |>) _).
  assert (Q2 : quiet P s s2).
  { apply (quiet_any P p HP).
    pose proof (quiet_clear P p HP s _ (clear_ident (na_cast_flags a)) (quiet_fill P p HP s s1 a Q)) as Q1.
    destruct (nonzero _); [now apply quiet_ntpdate | exact Q1]. }
  clearbody s2. destruct (ISREFCLOCKADR _); [| exact Q2].
  eapply (quiet_others P p HP); [apply refclock_newpeer_ok |].
  destruct (_ =? 0); [now apply (quiet_any P p HP) | done].
Qed.

Lemma quiet_finish P p s s1 r s2 : finish_peer p s1 = Some (r, s2) -> quiet P s s1 -> quiet P s s2.
Proof.
  unfold finish_peer. intros E Q. apply bind_Some in E as (s3 & Er & E).
  assert (s2 = report_event PEVNT_MOBIL (Some p) s3) as -> by congruence.
  apply quiet_report, (quiet_res P s _ _ _ Er). now apply (quiet_frame P s s1).
Qed.

Lemma quiet_newpeer a s r s' :
  peer_inv s -> newpeer a s = Some (r, s') -> quiet (fun q => q ∈ peer_list s) s s'.
Proof.
  intros I E. unfold newpeer in E. destruct (_ && _); [discriminate E |].
  apply bind_Some in E as (dup & _ & E). destruct dup as [d|]; [injection E as <- <-; apply quiet_refl |].
  destruct (acquire_spec s I) as (p & free & Ef & I1 & _ & L1 & _). set (s1 := if _ =? 0 then _ else s) in *.
  assert (Q1 : quiet (fun q => q ∈ peer_list s) s s1).
  { unfold s1. destruct (_ =? 0); [| apply quiet_refl].
    destruct (getmorepeermem_inv [] s I) as (_ & _ & _ & _ & Hp & V & _).
    split; [now rewrite V | done |]. intros q Hq. now rewrite Hp. }
  rewrite Ef in E. set (s2 := setter peer_free_count _ _) in E.
  assert (HP : forall q, q ∈ peer_list s -> q <> p).
  { intros q Hq ->. apply (own_not_free [] s1 p I1); [cbn; now rewrite L1 | rewrite Ef; left]. }
  assert (Q2 : quiet (fun q => q ∈ peer_list s) s s2) by now apply (quiet_frame _ s s1).
  pose proof (quiet_start _ p a s s2 HP Q2) as Q3. destruct (start_peer p a s2) as [ok s3]. cbn [snd] in Q3.
  destruct ok; [exact (quiet_finish _ p s s3 r s' E Q3) |]. injection E as <- <-.
  apply (quiet_free _ p HP). eapply (quiet_others _ p HP); [apply others_dst | done].
Qed.
End Receive.

(** ** The packet tests *)

Lemma has_lor x y m : has (x .| y) m = has x m || has y m.
Proof.
  unfold has, nonzero. rewrite Z.land_lor_distr_l. destruct (Z.eqb_spec (x .& m) 0) as [-> |]; [done |].
  destruct (Z.eqb_spec (x .& m .| y .& m) 0) as [E |]; [| done]. now apply Z.lor_eq_0_iff in E as [E _].
Qed.

Lemma has_clr x m : has (clr x m) m = false.
Proof.
  unfold has, clr, nonzero. replace (x .& Z.lnot m .& m) with 0; [done |].
  rewrite <- Z.land_assoc, (Z.land_comm (Z.lnot m)), Z.land_lnot_diag. now rewrite Z.land_0_r.
Qed.

(** The packet test bits survive the conversion to [int]. *)
Lemma has_s32 x : has (s32 x) PKT_TEST_MASK = has x PKT_TEST_MASK.
Proof.
  unfold has. f_equal. change PKT_TEST_MASK with (Z.ones 9). rewrite !Z.land_ones by lia.
  change (2 ^ 9) with 512. unfold_widths. divlia.
Qed.

(** A packet test of the association has failed. *)
Definition failed (p : Z) (s : state) : bool := has (p_flash (pv (peer_at s p))) PKT_TEST_MASK.

Lemma failed_upd p q f s :
  (forall r, p_flash (pv (f r)) = p_flash (pv r)) -> failed p (upd_peer q f s) = failed p s.
Proof. intros Hf. unfold failed. rewrite peer_at_upd. case_decide; subst; [now rewrite Hf | done]. Qed.

Lemma failed_flash p b s : failed p (set_flash p b s) = failed p s || has b PKT_TEST_MASK.
Proof. unfold failed, set_flash. rewrite peer_at_upd, decide_True by done. cbn. now rewrite has_s32, has_lor. Qed.

Lemma failed_report p err q s : failed p (report_event err q s) = failed p s.
Proof.
  unfold report_event. destruct q as [q|]; [| repeat case_match; done].
  set (s2 := if _ =? _ then _ else s). assert (E : failed p s2 = failed p s).
  { unfold s2. case_match; [now apply failed_upd | done]. }
  clearbody s2. rewrite <- E. case_match; [done |]. unfold emit. now apply failed_upd.
Qed.

Lemma cf_report err q s : cf (report_event err q s) = cf s.
Proof. unfold report_event. repeat case_match; done. Qed.

Section Tests.
Context `{Env}.

Lemma failed_random p s : failed p (ntp_random s).2 = failed p s.
Proof. unfold ntp_random. now destruct (next_random _). Qed.

Lemma poll_frame p mpoll s :
  failed p (poll_update p mpoll s) = failed p s /\ cf (poll_update p mpoll s) = cf s.
Proof.
  unfold poll_update. set (s2 := upd_peer p _ s).
  assert (E : failed p s2 = failed p s /\ cf s2 = cf s) by (split; [now apply failed_upd | done]).
  clearbody s2. destruct E as [<- <-].
  destruct (0 <? _); [repeat case_match; (split; [now rewrite ?failed_upd | done]) |].
  destruct (has _ FLAG_REFCLOCK); [split; [now apply failed_upd | done] |].
  pose proof (failed_random p s2) as E3. unfold ntp_random in *. destruct (next_random _) as [x g]. cbn [snd] in E3.
  split; [now rewrite failed_upd | done].
Qed.

Lemma header_frame p pkt s :
  failed p (header_vars p pkt s) = failed p s /\ cf (header_vars p pkt s) = cf s.
Proof.
  unfold header_vars.
  set (s2 := upd_peer p _ (s .++ sys_processed)).
  assert (E : failed p s2 = failed p s /\ cf s2 = cf s).
  { unfold s2. rewrite failed_upd by done. done. }
  clearbody s2. destruct E as [<- <-].
  match goal with |- context [poll_update p _ ?x] => set (s3 := x) end.
  destruct (poll_frame p (p_hpoll (peer_at s3 p)) s3) as [-> ->].
  unfold s3. repeat case_match; (split; [now rewrite ?failed_upd | done]).
Qed.

(** The header: synchronized, of an acceptable stratum and root distance. *)
Definition header_ok (c : config) (pk : pkt) : bool :=
  negb (PKT_LEAP (pk_li_vn_mode pk) =? LEAP_NOTINSYNC)
  && (sys_floor c <=? PKT_TO_STRATUM (pk_stratum pk)) && (PKT_TO_STRATUM (pk_stratum pk) <? sys_ceiling c)
  && negb (MAXDISPERSE <=d FPTOD (pk_rootdelay pk) /d dofZ 2 +d FPTOD (pk_rootdisp pk)).

Lemma failed_tests p pk s :
  failed p (packet_tests p pk s) = failed p s || negb (header_ok (cf s) pk).
Proof.
  unfold packet_tests, header_ok. rewrite (Z.ltb_antisym (sys_floor _)), (Z.ltb_antisym (sys_ceiling _)).
  destruct (PKT_LEAP _ =? _), (sys_floor _ <=? _), (sys_ceiling _ <=? _), (MAXDISPERSE <=d _); cbn [negb andb orb];
    rewrite ?failed_flash; cbn; now rewrite ?orb_true_r, ?orb_false_r.
Qed.

(** The timestamps: the packet is new and answers the last one sent (in
    interleaved mode, the one before). *)
Definition timely (mode : Z) (pk : pkt) (v : peer_vars) : bool :=
  negb (L_ISZERO (pk_xmt pk)) && negb (L_ISEQU (p_xmt v) (pk_xmt pk))
  && ((mode =? MODE_BROADCAST)
      || (if p_flip v =? 0 then L_ISEQU (pk_org pk) (p_aorg v)
          else negb (L_ISZERO (pk_org pk)) && negb (L_ISZERO (pk_rec pk)) && negb (L_ISZERO (p_dst v))
               && L_ISEQU (pk_org pk) (p_dst v))).

Lemma on_wire_failed p mode rb s s' :
  on_wire p mode rb s = (false, s') ->
  failed p s' = failed p s || negb (timely mode (rb_pkt rb) (pv (peer_at s p))) /\ cf s' = cf s.
Proof.
  unfold on_wire, timely.
  destruct (L_ISZERO (pk_xmt _)); [intros [= <-]; split; [now rewrite failed_flash | done] |].
  destruct (L_ISEQU (p_xmt _) _); [done |]. cbn [negb andb].
  destruct (mode =? MODE_BROADCAST); [case_match; [done |]; intros [= <-]; now rewrite orb_false_r |]. cbn [orb].
  destruct (p_flip _ =? 0).
  - destruct (L_ISEQU (pk_org _) (p_aorg _)); cbn [negb].
    + intros [= <-]. now rewrite orb_false_r, failed_upd.
    + destruct (_ && _); intros E; apply (f_equal snd) in E; cbn [snd] in E; subst s';
        [rewrite failed_report, cf_report, failed_upd by done |];
        rewrite failed_flash, failed_upd by done; done.
  - destruct (L_ISZERO (pk_org _)); [intros [= <-]; now rewrite failed_flash |].
    destruct (L_ISZERO (pk_rec _)); [intros [= <-]; now rewrite failed_flash |].
    destruct (L_ISZERO (p_dst _)); [intros [= <-]; now rewrite failed_flash |]. cbn [orb andb negb].
    destruct (L_ISEQU (pk_org _) (p_dst _)); intros [= <-]; [now rewrite orb_false_r |].
    rewrite failed_flash. unfold set_flags. now rewrite !failed_upd.
Qed.
End Tests.

(** ** Gating *)

(** What a packet must satisfy before it may touch the clock of its
    association or of the system: timestamps, authentication and header. *)
Definition accepted (p mode auth mac : Z) (pk : pkt) (s : state) : bool :=
  let r := peer_at s p in
  negb (has (p_flags r) FLAG_XBOGUS) && timely mode pk (pv r)
  && negb (auth =? AUTH_CRYPTO) && AUTH (truth (nonzero mac)) auth && header_ok (cf s) pk.

(** What a packet must satisfy that has mobilized its association, in which
    no timestamp is set: outside of a broadcast it opens the exchange. *)
Definition accepted_new (mode auth mac : Z) (pk : pkt) (c : config) : bool :=
  negb (L_ISZERO (pk_xmt pk)) && ((mode =? MODE_BROADCAST) || L_ISZERO (pk_org pk))
  && negb (auth =? AUTH_CRYPTO) && AUTH (truth (nonzero mac)) auth && header_ok c pk.

Lemma isequ_zero x : L_ISEQU x lzero = true -> L_ISZERO x = true.
Proof.
  unfold L_ISEQU, M_ISEQU, L_ISZERO. cbn. intros [E1 E2]%andb_true_iff. apply Z.eqb_eq in E1, E2. now rewrite E1, E2.
Qed.

Lemma accepted_fresh p mode a mac pk s :
  unstamped (pv (peer_at s p)) -> accepted p mode a mac pk s = true -> accepted_new mode a mac pk (cf s) = true.
Proof.
  intros (E1 & E2 & E3). unfold accepted, accepted_new, timely. rewrite E1, E2, E3. change (0 =? 0) with true. cbv iota.
  rewrite !andb_true_iff. intros ((((_ & (A & _) & B) & C) & D) & F). split_and!; try done.
  apply orb_true_iff in B as [-> | B]; [done |]. now rewrite (isequ_zero _ B), orb_true_r.
Qed.

Lemma AUTH_weaken b c a : AUTH (truth (b || c)) a = true -> AUTH (truth b) a = true.
Proof. unfold AUTH. destruct b, c; cbn; try done. now intros ->. Qed.

(** A prefix of the packet's way: tables and clock untouched, [bad] if a
    packet test has failed. *)
Record prefix (p : Z) (s : state) (bad : bool) (s' : state) : Prop := {
  px_keeps : keeps s s'; px_quiet : quiet (fun _ => True) s s';
  px_cf : cf s' = cf s; px_bad : failed p s' = bad }.

Lemma prefix_upd p s b s' f :
  (forall r, ident (f r) = ident r) -> (forall r, sample_vars (f r) = sample_vars r) ->
  (forall r, p_flash (pv (f r)) = p_flash (pv r)) ->
  prefix p s b s' -> prefix p s b (upd_peer p f s').
Proof.
  intros H1 H2 H3 [K Q C B]. split; [now apply keeps_upd | now apply quiet_upd | done |]. now rewrite failed_upd.
Qed.
#[local] Hint Extern 1 (prefix _ _ _ (upd_peer _ _ _)) => apply prefix_upd; [done | done | done |] : quiet.

Lemma prefix_flash p s b t s' :
  prefix p s b s' -> prefix p s (b || has t PKT_TEST_MASK) (set_flash p t s').
Proof.
  intros [K Q C B]. split; [now apply keeps_flash | unfold set_flash; now apply quiet_upd | done |].
  now rewrite failed_flash, B.
Qed.

Lemma prefix_report p s b s' err q : prefix p s b s' -> prefix p s b (report_event err q s').
Proof.
  intros [K Q C B]. split; [now apply keeps_report | now apply quiet_report | now rewrite cf_report | now rewrite failed_report].
Qed.
#[local] Hint Resolve prefix_report : quiet.

(** The bookkeeping before the on-wire tests. *)
Definition arrival (p : Z) (s : state) : state :=
  let s := upd_peer p (fun r => r <| p_received := u64 (p_received r + 1) |>
                                  <|| p_flash := s32 (clr (p_flash (pv r)) PKT_TEST_MASK) ||>) s in
  if has (p_flags (peer_at s p)) FLAG_XBOGUS then set_flash p TEST3 (clr_flags p FLAG_XBOGUS s) else s.

Lemma arrival_prefix p s : prefix p s (has (p_flags (peer_at s p)) FLAG_XBOGUS) (arrival p s) /\
  (has (p_flags (peer_at s p)) FLAG_XBOGUS = false ->
   forall mode pk, timely mode pk (pv (peer_at (arrival p s) p)) = timely mode pk (pv (peer_at s p))).
Proof.
  unfold arrival. set (s1 := upd_peer p _ s).
  assert (P1 : prefix p s false s1).
  { unfold s1. split; [apply keeps_upd; [done | apply keeps_refl] | apply quiet_upd; [done | apply quiet_refl] | done |].
    unfold failed. rewrite peer_at_upd, decide_True by done. cbn. now rewrite has_s32, has_clr. }
  assert (E1 : peer_at s1 p = (fun r => r <| p_received := u64 (p_received r + 1) |>
    <|| p_flash := s32 (clr (p_flash (pv r)) PKT_TEST_MASK) ||>) (peer_at s p))
    by (unfold s1; now rewrite peer_at_upd, decide_True).
  assert (E2 : p_flags (peer_at s1 p) = p_flags (peer_at s p)) by now rewrite E1.
  clearbody s1. rewrite E2. destruct (has (p_flags (peer_at s p)) FLAG_XBOGUS).
  - split; [| done]. apply (prefix_flash p s false TEST3). unfold clr_flags. auto with quiet.
  - split; [exact P1 |]. intros _ mode pk. now rewrite E1.
Qed.

Section Gating.
Context `{EnvLaws} `{!DigestLaws}.

(** A failed test keeps the packet from the clock filter. *)
Lemma process_failed p pk s :
  failed p s || negb (header_ok (cf s) pk) = true ->
  forall s', process_packet p pk s = Some s' -> quiet (fun _ => True) s s'.
Proof.
  intros F s' E. unfold process_packet in E. destruct (header_frame p pk s) as [Fh Ch].
  pose proof (failed_tests p pk (header_vars p pk s)) as Ft. rewrite Fh, Ch, F in Ft.
  unfold failed in Ft. rewrite Ft in E. revert E. some_inj.
  apply quiet_upd; [done |]. apply quiet_tests, quiet_header, quiet_refl.
Qed.

(** Demobilizing a preemptable association. *)
Lemma drop_spec p s s1 :
  peer_inv s -> res_ok s -> p ∈ peer_list s -> keeps s s1 -> quiet (fun _ => True) s s1 ->
  exists s', drop_preempt p s1 = Some s' /\ peer_inv s' /\ quiet (fun q => q ∈ peer_list s') s s'.
Proof.
  intros I R Hp K Q. pose proof (keeps_inv _ _ _ K I) as I1. unfold drop_preempt.
  assert (Qa : forall P, quiet P s s1) by (intros P; exact (quiet_mono _ P s s1 (fun _ _ => Logic.I) Q)).
  destruct (has _ FLAG_PREEMPT); [| exists s1; auto].
  destruct (unpeer_inv p s1 I1) as (s' & E & I' & L & _);
    [unfold res_ok; rewrite (k_restr _ _ K); exact R | now rewrite (k_list _ _ K) |].
  exists s'. split; [done |]. split; [done |]. apply (quiet_unpeer _ p) with (s1 := s1); [| done | auto].
  intros q Hq. rewrite L in Hq. apply UNLINK_elem in Hq; [tauto |].
  pose proof (ti_nodup _ _ I1) as Hn. cbn [app] in Hn. now apply NoDup_app in Hn as (Hn & _).
Qed.

(** The timestamps of an accepted or rejected packet are recorded. *)
Definition record_times (p mode : Z) (rb : recvbuf) (s : state) : state :=
  let s := if p_flip (pv (peer_at s p)) =? 0 then
             let s := if mode =? MODE_BROADCAST then s
                      else upd_peer p (fun r => r <|| p_rec := pk_xmt (rb_pkt rb) ||>) s in
             upd_peer p (fun r => r <|| p_dst := rb_time rb ||>) s
           else s in
  upd_peer p (fun r => r <|| p_xmt := pk_xmt (rb_pkt rb) ||>) s.

Lemma record_prefix p s b s' mode rb : prefix p s b s' -> prefix p s b (record_times p mode rb s').
Proof. intros P. unfold record_times. apply prefix_upd; [done | done | done |]. repeat case_match; auto with quiet. Qed.

(** From the poll interval of the peer on. *)
Lemma good_auth_spec p mode a rb s b s1 :
  peer_inv s -> prefix p s b s1 ->
  exists s', (let s := upd_peer p (fun r => r <| p_ppoll := u8 (Z.max (p_minpoll r) (pk_ppoll (rb_pkt rb))) |>) s1 in
      if is_rate_kod mode (rb_pkt rb) then Some (slow_down p (rb_pkt rb) s)
      else
        let s := upd_peer p (fun r => r <| p_timereceived := current_time s |>) s in
        let s := if a =? AUTH_OK then set_flags p FLAG_AUTHENTIC s else clr_flags p FLAG_AUTHENTIC s in
        s ← process_packet p (rb_pkt rb) s;
        if p_flip (pv (peer_at s p)) =? 0 then Some s
        else
          let s := upd_peer p (fun r => r <|| p_rec := pk_rec (rb_pkt rb) ||> <|| p_dst := rb_time rb ||>) s in
          let r := peer_at s p in
          Some (if u64 (p_nextdate r - current_time s) <? u32 (Z.shiftl 1 (Z.min (p_ppoll r) (p_hpoll r))) / 2
                then upd_peer p (fun r => r <| p_nextdate := u64 (p_nextdate r + 1) |>) s
                else upd_peer p (fun r => r <| p_nextdate := u64 (p_nextdate r - 1) |>) s)) = Some s' /\
    peer_inv s' /\ (b || negb (header_ok (cf s) (rb_pkt rb)) = true -> quiet (fun _ => True) s s').
Proof.
  intros I P. cbv zeta. set (s2 := upd_peer p _ s1).
  assert (P2 : prefix p s b s2) by (unfold s2; auto with quiet). clearbody s2.
  destruct (is_rate_kod mode (rb_pkt rb)).
  { eexists. split; [reflexivity |]. split; [apply (keeps_inv _ s); [| done] | intros _; apply quiet_slow, P2].
    apply keeps_slow, P2. }
  match goal with |- context [process_packet p _ ?x] => set (s3 := x) end.
  assert (P3 : prefix p s b s3) by (unfold s3, set_flags, clr_flags; destruct (a =? AUTH_OK); auto with quiet).
  clearbody s3. clear P2. destruct (process_packet_stable p (rb_pkt rb) s3) as (s4 & E4 & S4 & _).
  pose proof (process_failed p (rb_pkt rb) s3) as F4. rewrite (px_bad _ _ _ _ P3), (px_cf _ _ _ _ P3) in F4.
  rewrite E4. cbn [mbind option_bind]. specialize (S4 (keeps_inv _ _ _ (px_keeps _ _ _ _ P3) I)).
  assert (Q4 : b || negb (header_ok (cf s) (rb_pkt rb)) = true -> quiet (fun _ => True) s s4).
  { intros Hb. eapply quiet_trans; [apply P3 | exact (F4 Hb s4 E4)]. }
  clear E4 F4. destruct (_ =? 0); [eauto |]. eexists. split; [reflexivity |].
  match goal with |- context [if u64 (p_nextdate (peer_at ?x p) - _) <? _ then _ else _] => set (s5 := x) end.
  assert (K5 : keeps s4 s5) by (unfold s5; auto with keeps).
  assert (Q5 : quiet (fun _ => True) s4 s5) by (unfold s5; auto with quiet). clearbody s5.
  split.
  - apply (keeps_inv _ s4); [| done]. case_match; auto with keeps.
  - intros Hb. apply (quiet_trans _ s s4); [auto |]. case_match; auto with quiet.
Qed.

Lemma peer_packet_spec p mode a mac mask rb s :
  peer_inv s -> res_ok s -> p ∈ peer_list s ->
  exists s', peer_packet p mode a mac mask rb s = Some s' /\ peer_inv s' /\
    (accepted p mode a mac (rb_pkt rb) s = false -> quiet (fun q => q ∈ peer_list s') s s').
Proof.
  intros I R Hp. unfold peer_packet. fold (arrival p s). unfold accepted.
  destruct (arrival_prefix p s) as [P1 F1]. set (s1 := arrival p s) in *. clearbody s1.
  set (xb := has (p_flags (peer_at s p)) FLAG_XBOGUS) in *.
  assert (K2 : keeps s (on_wire p mode rb s1).2) by (apply keeps_on_wire, P1).
  assert (Q2 : quiet (fun _ => True) s (on_wire p mode rb s1).2) by (apply quiet_on_wire, P1).
  destruct (on_wire p mode rb s1) as [dropped s2] eqn:E2. cbn [snd] in K2, Q2.
  destruct dropped.
  { exists s2. split; [done |]. split; [exact (keeps_inv _ _ _ K2 I) |].
    intros _. exact (quiet_mono _ _ s s2 (fun _ _ => Logic.I) Q2). }
  destruct (on_wire_failed p mode rb s1 s2 E2) as [B2 C2].
  assert (P2 : prefix p s (xb || negb (timely mode (rb_pkt rb) (pv (peer_at s p)))) s2).
  { split; [done | done | now rewrite C2, (px_cf _ _ _ _ P1) |]. rewrite B2, (px_bad _ _ _ _ P1).
    destruct xb; [done |]. cbn [orb]. now rewrite F1. }
  clear E2 B2 C2 K2 Q2.
  match goal with |- context [upd_peer p (fun r => r <|| p_xmt := _ ||>) ?x] =>
    change (upd_peer p (fun r => r <|| p_xmt := pk_xmt (rb_pkt rb) ||>) x) with (record_times p mode rb s2) end.
  pose proof (record_prefix p s _ s2 mode rb P2) as P3. set (s3 := record_times p mode rb s2) in *. clearbody s3.
  destruct (a =? AUTH_CRYPTO).
  { destruct (drop_spec p s (reject_auth p s3) I R Hp) as (s' & E & I' & Q'); [apply keeps_reject, P3 | apply quiet_reject, P3 |].
    exists s'. split; [exact E |]. split; [exact I' |]. intros _. exact Q'. }
  destruct (negb (AUTH _ a)) eqn:Ea.
  - pose proof (keeps_reject s s3 p (px_keeps _ _ _ _ P3)) as K4.
    pose proof (quiet_reject _ s s3 p (px_quiet _ _ _ _ P3)) as Q4. set (s4 := reject_auth p s3) in *. clearbody s4.
    destruct ((mode =? MODE_ACTIVE) || (mode =? MODE_PASSIVE)).
    + destruct (fast_xmit_fit rb MODE_ACTIVE 0 mask s4) as (rb' & s5 & E5 & K5 & _);
        [apply (k_auth _ _ K4), I |].
      pose proof (quiet_fast _ s s4 _ _ _ _ _ _ Q4 E5) as Q5. rewrite E5. cbn [fmap option_fmap option_map mbind option_bind snd].
      destruct (drop_spec p s s5 I R Hp) as (s' & E & I' & Q'); [etransitivity; [exact K4 | exact K5] | done |].
      exists s'. split; [exact E |]. split; [exact I' |]. intros _. exact Q'.
    + cbn [mbind option_bind]. destruct (drop_spec p s s4 I R Hp K4 Q4) as (s' & E & I' & Q').
      exists s'. split; [exact E |]. split; [exact I' |]. intros _. exact Q'.
  - apply negb_false_iff in Ea. apply AUTH_weaken in Ea. rewrite Ea.
    destruct (good_auth_spec p mode a rb s _ s3 I P3) as (s' & E & I' & Q'). exists s'. split; [exact E |]. split; [done |].
    intros Hacc. apply (quiet_mono (fun _ => True)); [done |]. apply Q'. revert Hacc.
    destruct xb, (timely mode (rb_pkt rb) (pv (peer_at s p))), (header_ok (cf s) (rb_pkt rb)); done.
Qed.
End Gating.

(** ** The MAC length scan *)

Lemma scan_mac_sound fuel rb authlen mac key0 al ml key :
  authlen mod 4 = 0 -> LEN_PKT_NOMAC <= authlen -> authlen + mac = rb_length rb ->
  scan_mac fuel rb authlen mac key0 = Some (al, ml, key) ->
  al mod 4 = 0 /\ LEN_PKT_NOMAC <= al /\ al + ml = rb_length rb /\
  (ml = 0 \/ MIN_MAC_LEN <= ml <= MAX_MAC_LEN).
Proof.
  revert authlen mac. induction fuel as [|fuel IH]; intros authlen mac H4 Hl Hs; [done |]. cbn [scan_mac].
  destruct (Z.eqb_spec mac 0); [intros [= <- <- <-]; split_and!; auto |].
  destruct (_ || (mac <? MIN_MAC_LEN)) eqn:E1; [done |]. apply orb_false_iff in E1 as [_ E1]. apply Z.ltb_ge in E1.
  destruct (Z.leb_spec mac MAX_MAC_LEN); [intros [= <- <- <-]; split_and!; auto |].
  set (len := _ .& 0xffff). destruct (_ || (rb_length rb <? len + authlen)) eqn:E2; [done |].
  rewrite !orb_false_iff, negb_false_iff, Z.eqb_eq, !Z.ltb_ge in E2. destruct E2 as [[E2 E3] E5].
  apply IH; [rewrite Z.add_mod, H4, E2 by done; done | lia | lia].
Qed.

(** Enough fuel: more does not change the answer. *)
Lemma scan_mac_fuel fuel more rb authlen mac key :
  (Z.to_nat mac < fuel)%nat -> scan_mac (fuel + more) rb authlen mac key = scan_mac fuel rb authlen mac key.
Proof.
  revert authlen mac. induction fuel as [|fuel IH]; intros authlen mac Hf; [lia |]. cbn [scan_mac Nat.add].
  destruct (mac =? 0); [done |]. destruct (_ || (mac <? MIN_MAC_LEN)) eqn:E1; [done |].
  destruct (Z.leb_spec mac MAX_MAC_LEN); [done |].
  set (len := _ .& 0xffff). destruct (_ || (rb_length rb <? len + authlen)) eqn:E2; [done |].
  rewrite !orb_false_iff, negb_false_iff, Z.eqb_eq, !Z.ltb_ge in E2. destruct E2 as [[E2 E3] E5].
  apply IH. unfold MAX_MAC_LEN in *. lia.
Qed.

Definition rb_ok (rb : recvbuf) : Prop :=
  0 <= rb_length rb <= Z.of_nat (length (rb_bytes rb)) /\ rb_length rb < 2 ^ 31 /\
  inet (rb_srcadr rb) = true /\ 0 <= sa_addr (rb_srcadr rb).

Lemma mac_length_sound rb al ml key :
  rb_ok rb -> mac_length rb = Some (al, ml, key) ->
  al mod 4 = 0 /\ LEN_PKT_NOMAC <= al /\ al + ml = rb_length rb /\
  (ml = 0 \/ MIN_MAC_LEN <= ml <= MAX_MAC_LEN).
Proof.
  intros (H1 & H2 & _) E. unfold mac_length in E. rewrite s32_small in E by (unfold_ranges; change LEN_PKT_NOMAC with 48; lia).
  eapply scan_mac_sound; [| | | exact E]; [done | done | lia].
Qed.

(** ** Up to the dispatch *)

(** No variable the packet tests or the clock depend on has changed. *)
Record same_vars (s s' : state) : Prop := {
  sm_sv : sv s' = sv s; sm_cf : cf s' = cf s; sm_disc : discipline s' = discipline s;
  sm_peer : forall q, pv (peer_at s' q) = pv (peer_at s q) /\ p_flags (peer_at s' q) = p_flags (peer_at s q) /\
                      p_srcadr (peer_at s' q) = p_srcadr (peer_at s q) }.

Lemma same_vars_trans s1 s2 s3 : same_vars s1 s2 -> same_vars s2 s3 -> same_vars s1 s3.
Proof.
  intros [A B C D] [A' B' C' D']. split; [congruence .. |]. intros q. destruct (D' q) as (-> & -> & ->). apply D.
Qed.

Lemma same_vars_heap s s' :
  sv s' = sv s -> cf s' = cf s -> discipline s' = discipline s -> heap s' = heap s -> same_vars s s'.
Proof. intros A B C E. split; try done. intros q. unfold peer_at. now rewrite E. Qed.

Lemma same_vars_quiet P s s' : same_vars s s' -> quiet P s s'.
Proof.
  intros S. split; [now rewrite (sm_sv _ _ S) | apply S |]. intros q _. unfold sample_vars. now destruct (sm_peer _ _ S q) as [-> _].
Qed.

Lemma same_vars_accepted s s' p mode a mac pk :
  same_vars s s' -> accepted p mode a mac pk s' = accepted p mode a mac pk s.
Proof. intros S. unfold accepted. destruct (sm_peer _ _ S p) as (-> & -> & _). now rewrite (sm_cf _ _ S). Qed.

Section Entry.
Context `{Env}.

Lemma same_vars_dst s p d : same_vars s (set_peerdstadr p d s).
Proof.
  destruct (set_peerdstadr_spec p d s) as [T HS]. split; try apply T. intros q.
  destruct (_ || _); [now rewrite HS |]. destruct HS as [-> _]. now case_decide; subst.
Qed.

Lemma findpeer_frame rb mode s r a s' :
  findpeer rb mode s = Some (r, a, s') -> same_vars s s' /\ restr s' = restr s /\ auth s' = auth s.
Proof.
  unfold findpeer. generalize findpeer_rounds as n. intros n. revert s.
  induction n as [|n IH]; intros s; [done |]. cbn [findpeer_go]. set (s1 := s .++ findpeer_calls).
  assert (S1 : same_vars s s1 /\ restr s1 = restr s /\ auth s1 = auth s)
    by (split; [now apply same_vars_heap | done]).
  clearbody s1.
  intros E. apply bind_Some in E as ([[p|] [b|]] & _ & E).
  - case_bool_decide; [| injection E as <- <- <-; done].
    pose proof (same_vars_dst s1 p (Some (rb_dstadr rb))) as S2.
    destruct (set_peerdstadr_spec p (Some (rb_dstadr rb)) s1) as [T _].
    pose proof (st_restr _ _ T) as R2. pose proof (st_auth _ _ T) as A2. clear T.
    set (s2 := set_peerdstadr p (Some (rb_dstadr rb)) s1) in *. clearbody s2.
    assert (S12 : same_vars s s2 /\ restr s2 = restr s /\ auth s2 = auth s).
    { rewrite R2, A2. split; [eapply same_vars_trans; [apply S1 | done] | apply S1]. }
    case_bool_decide; [| injection E as <- <- <-; done]. apply IH in E as (S3 & R3 & A3).
    rewrite R3, A3. split; [eapply same_vars_trans; [apply S12 | done] | apply S12].
  - apply bind_Some in E as (b & _ & E). injection E as <- <- <-. done.
  - injection E as <- <- <-. done.
  - apply bind_Some in E as (b & _ & E). injection E as <- <- <-. done.
Qed.
End Entry.

(** Restriction structures for [n] more operations. *)
Definition res_budget (n : Z) (s : state) : Prop :=
  res_inv (restr s) /\ next_res (restr s) + 31 * n <= 2 ^ 31 /\ 0 <= restrict_source_mflags (restr s).

Lemma budget_ok n s : 1 <= n -> res_budget n s -> res_ok s.
Proof. intros Hn (A & B & C). unfold res_ok, res_room. split_and!; [done | lia | done]. Qed.

Lemma budget_next n s s' : res_budget (n + 1) s -> res_next s s' -> res_budget n s'.
Proof. intros (A & B & C) (A' & B' & C'). split_and!; [done | lia | lia]. Qed.

Lemma budget_same n s s' : restr s' = restr s -> res_budget n s -> res_budget n s'.
Proof. unfold res_budget. intros ->. done. Qed.

(** The packet so far has only been counted and looked up. *)
Record entered (n : Z) (s s' : state) : Prop := {
  en_vars : same_vars s s'; en_inv : peer_inv s'; en_list : peer_list s' = peer_list s;
  en_budget : res_budget n s' }.

Lemma entered_step n s s1 s2 :
  entered n s s1 -> same_vars s1 s2 -> keeps s1 s2 -> entered n s s2.
Proof.
  intros [V I L B] V' K. split; [eapply same_vars_trans; [exact V | exact V'] | now apply (keeps_inv _ s1) | rewrite (k_list _ _ K); done |].
  apply (budget_same n s1); [apply K | done].
Qed.

Lemma entered_ct n s s1 v : entered n s s1 -> entered n s (s1 <| ct := v |>).
Proof. intros E. apply (entered_step n s s1); [done | now apply same_vars_heap | now split]. Qed.
#[local] Hint Resolve entered_ct : quiet.

Section Filters.
Context `{EnvLaws}.

Lemma entered_random n s s1 : entered n s s1 -> entered n s (ntp_random s1).2.
Proof.
  intros E. apply (entered_step n s s1); [done | | apply keeps_random, keeps_refl].
  unfold ntp_random. destruct (next_random _). now apply same_vars_heap.
Qed.

(** The mode the packet is handled as; requests of the management protocols apart. *)
Definition pkt_mode (rb : recvbuf) : Z :=
  let m := PKT_MODE (pk_li_vn_mode (rb_pkt rb)) in if m =? MODE_UNSPEC then MODE_CLIENT else m.

Definition managed (rb : recvbuf) : bool :=
  let m := PKT_MODE (pk_li_vn_mode (rb_pkt rb)) in (m =? MODE_PRIVATE) || (m =? MODE_CONTROL).

Lemma pkt_mode_range rb : managed rb = false -> 0 <= pkt_mode rb <= 6.
Proof.
  unfold managed, pkt_mode, PKT_MODE. intros Hm. apply orb_false_iff in Hm as [H1 H2].
  apply Z.eqb_neq in H1, H2. unfold MODE_PRIVATE, MODE_CONTROL, MODE_UNSPEC, MODE_CLIENT in *.
  set (m := u8 _) in *. assert (0 <= m < 8).
  { unfold m. change 7 with (2 ^ 3 - 1). rewrite land_ones_mod by lia.
    pose proof (Z.mod_pos_bound (pk_li_vn_mode (rb_pkt rb)) (2 ^ 3) ltac:(lia)) as Hb. rewrite u8_small; [exact Hb |].
    unfold_ranges. change (2 ^ 3) with 8 in *. lia. }
  destruct (Z.eqb_spec m 0); lia.
Qed.

Lemma early_spec n rb s :
  peer_inv s -> res_budget n s -> mon_fit (restr s) -> managed rb = false ->
  exists out, early_filters rb s = Some out /\
    match out with
    | inl s' => entered n s s'
    | inr (mode, mask, s1) => mode = pkt_mode rb /\ entered n s s1 /\ mon_fit (restr s1) /\ auth s1 = auth s /\
        exists rs, restrictions (current_time s) (rb_srcadr rb) (restr s) = Some (mask, rs)
    end.
Proof.
  intros I B M Hm. unfold early_filters. set (s0 := s .++ sys_received).
  assert (E0 : entered n s s0).
  { split; [now apply same_vars_heap | now apply (keeps_inv _ s); [split |] | done | exact B]. }
  destruct (sa_port _ =? 0); [eexists; split; [reflexivity | now apply entered_ct] |].
  change (current_time s0) with (current_time s). change (restr s0) with (restr s).
  destruct (lookup_inv (current_time s) (rb_srcadr rb) (restr s)) as (mask & rs & El & Hrs); [apply B |].
  rewrite El. cbn [mbind option_bind]. destruct (lookup_fit _ _ _ _ _ (proj1 B) M El) as (M1 & N1 & F1).
  set (s1 := s0 <| restr := rs |>). assert (E1 : entered n s s1).
  { split; [now apply same_vars_heap | apply table_restr, E0 | done |].
    destruct B as (_ & B2 & B3). split_and!; [exact Hrs | |]; change (restr s1) with rs; lia. }
  assert (M1' : mon_fit (restr s1)) by exact M1. assert (A1 : auth s1 = auth s) by done. clearbody s1. clearbody s0.
  destruct (has mask RES_IGNORE); [eexists; split; [reflexivity | now apply entered_ct] |].
  unfold managed in Hm. apply orb_false_iff in Hm as [Hm1 Hm2]. rewrite Hm1, Hm2.
  destruct (has mask RES_DONTSERVE); [eexists; split; [reflexivity | now apply entered_ct] |].
  match goal with |- context [let '(_, _) := ?b in _] => set (fl := b) end.
  assert (E2 : entered n s fl.2 /\ restr fl.2 = restr s1 /\ auth fl.2 = auth s1).
  { unfold fl. destruct (has mask RES_FLAKE); [| done]. pose proof (entered_random n s s1 E1) as E2.
    unfold ntp_random in *. destruct (next_random _). done. }
  destruct fl as [flake s2]. cbn [snd] in E2. destruct E2 as (E2 & R2 & A2).
  destruct flake; [eexists; split; [reflexivity | now apply entered_ct] |].
  destruct (_ && _); [eexists; split; [reflexivity | now apply entered_ct] |].
  match goal with |- context [if ?b then s2 .++ sys_newversion else ?y] => set (s3 := if b then s2 .++ sys_newversion else y) end.
  assert (E3 : entered n s s3 /\ restr s3 = restr s2 /\ auth s3 = auth s2)
    by (unfold s3; case_match; split; auto with quiet).
  clearbody s3. destruct E3 as (E3 & R3 & A3). destruct (_ && _); [eexists; split; [reflexivity | now apply entered_ct] |].
  eexists. split; [reflexivity |]. split; [done |]. split; [exact E3 |]. split; [rewrite R3, R2; exact M1' |].
  split; [congruence | eauto].
Qed.
End Filters.

(** ** Rate limit, key check *)

Section Checks.
Context `{EnvLaws} `{!DigestLaws}.

Lemma rate_limit_spec n rb flags s s1 :
  entered n s s1 -> mon_fit (restr s1) ->
  exists mask s2, rate_limit rb flags s1 = Some (mask, s2) /\ entered n s s2 /\ auth s2 = auth s1.
Proof.
  intros E [Mi Mr]. unfold rate_limit. pose proof (entered_random n s s1 E) as Er.
  assert (Rr : restr (ntp_random s1).2 = restr s1 /\ auth (ntp_random s1).2 = auth s1)
    by (unfold ntp_random; now destruct (next_random _)).
  destruct (ntp_random s1) as [x s1']. cbn [snd] in *.
  set (s2 := if mon_draws rb (mon s1) then s1' else s1).
  assert (E2 : entered n s s2 /\ restr s2 = restr s1 /\ auth s2 = auth s1) by (unfold s2; case_match; done).
  clearbody s2. destruct E2 as ([V I L B] & R2 & A2).
  destruct (ntp_monitor_spec x rb (endpt_at s2 (rb_dstadr rb)) flags (mon s2)) as (f & m & -> & _);
    [unfold mon; now rewrite R2 .. |].
  cbn [mbind option_bind]. eexists _, _. split; [reflexivity |]. split; [| exact A2].
  destruct B as (B1 & B2 & B3).
  split; [| now apply table_restr | done | split_and!; [now apply (res_inv_ext (restr s2)) | done | done]].
  destruct V as [V1 V2 V3 V4]. now split.
Qed.

Lemma authenticate_spec n rb al ml key s s1 :
  rb_ok rb -> mac_length rb = Some (al, ml, key) -> entered n s s1 ->
  exists a s2, authenticate rb al ml key s1 = Some (a, s2) /\ entered n s s2 /\
    heap s2 = heap s1 /\ peer_list s2 = peer_list s1 /\
    (a = AUTH_OK -> exists au, authdecrypt key (rb_bytes rb) al ml (auth s1) = Some (true, au)).
Proof.
  intros Hrb Hml E. destruct (mac_length_sound rb al ml key Hrb Hml) as (_ & H2 & H3 & H4).
  destruct Hrb as (H5 & _). unfold LEN_PKT_NOMAC, MIN_MAC_LEN, MAX_MAC_LEN in *.
  unfold authenticate. destruct (Z.eqb_spec ml 0); [exists AUTH_NONE, s1; done |].
  destruct (ml =? 4); [exists AUTH_CRYPTO, s1; done |].
  destruct (authdecrypt_fit key (rb_bytes rb) al ml (auth s1)) as (ok & au & Ed & F);
    [apply E | lia | lia | lia |].
  rewrite Ed. cbn [mbind option_bind]. eexists _, _. split; [reflexivity |]. split; [| split; [done | split; [done |]]].
  - apply (entered_step n s s1); [done | now apply same_vars_heap | apply keeps_auth; [done | apply keeps_refl]].
  - destruct ok; [eauto | done].
Qed.
End Checks.

(** ** Dispatch *)

Section Dispatch.
Context `{EnvLaws} `{!DigestLaws}.

Lemma serve_spec a key mask rb s :
  peer_inv s ->
  exists s', serve_client a key mask rb s = Some s' /\ keeps s s' /\ quiet (fun _ => True) s s'.
Proof.
  intros I. unfold serve_client.
  assert (Hf : forall k, exists rb' s1, fast_xmit rb MODE_SERVER k mask s = Some (rb', s1) /\ keeps s s1 /\
    quiet (fun _ => True) s s1).
  { intros k. destruct (fast_xmit_fit rb MODE_SERVER k mask s (ti_auth _ _ I)) as (rb' & s1 & E & K & _).
    exists rb', s1. split; [done |]. split; [done |]. exact (quiet_fast _ s s _ _ _ _ _ _ (quiet_refl _ s) E). }
  destruct (Hf key) as (rb1 & s1 & E1 & K1 & Q1). destruct (Hf 0) as (rb0 & s0 & E0 & K0 & Q0).
  rewrite E1, E0. cbn [fmap option_fmap option_map mbind option_bind snd].
  repeat case_match; eexists; (split; [reflexivity |]); auto with quiet keeps.
Qed.

(** Mobilizing for a packet leaves the other associations alone. *)
Lemma newpeer_quiet a s :
  peer_inv s -> res_ok s -> args_ok a ->
  exists r s', newpeer a s = Some (r, s') /\ peer_inv s' /\ mobilized a s r s' /\ res_next s s' /\
    quiet (fun q => q ∈ peer_list s) s s' /\
    (forall p, r = Some p -> ISREFCLOCKADR (na_srcadr a) = false -> has (na_flags a) FLAG_XLEAVE = false ->
       unstamped (pv (peer_at s' p)) /\ cf s' = cf s).
Proof.
  intros I R A. destruct (newpeer_inv a s I R A) as (r & s' & E & I' & M & N).
  exists r, s'. split_and!; eauto using quiet_newpeer. intros p ->. now apply newpeer_fresh.
Qed.
(** The packets that mobilize an association and go on with it. *)
Definition mobilizes (mode : Z) (c : config) : bool :=
  ((mode =? MODE_BROADCAST) && nonzero (sys_bclient c)) || (mode =? MODE_ACTIVE).

(** The clock is reached only through a packet that passes the tests of its
    association, or of the one it has just mobilized. *)
Definition gated (rb : recvbuf) (mode a mac : Z) (s s' : state) : Prop :=
  quiet (fun q => q ∈ peer_list s /\ q ∈ peer_list s') s s' \/
  (exists p, p ∈ peer_list s /\ ADDR_PORT_EQ (rb_srcadr rb) (p_srcadr (peer_at s p)) = true /\
     accepted p mode a mac (rb_pkt rb) s = true) \/
  (mobilizes mode (cf s) = true /\
   (ISREFCLOCKADR (rb_srcadr rb) = false -> accepted_new mode a mac (rb_pkt rb) (cf s) = true)).

Lemma gated_quiet rb mode a mac s s' : quiet (fun q => q ∈ peer_list s) s s' -> gated rb mode a mac s s'.
Proof. intros Q. left. revert Q. apply quiet_mono. tauto. Qed.

Lemma args_from_packet rb ep mode version minpoll maxpoll flags cast ttl key :
  rb_ok rb -> 0 <= mode <= 6 ->
  args_ok (mk_args (rb_srcadr rb) None ep mode version minpoll maxpoll flags cast ttl key).
Proof. intros (_ & _ & Hi & Ha) Hm. split; [exact Hm |]. split; [right; done | left; done]. Qed.

Lemma manycast_spec a key mask rb s :
  peer_inv s -> res_ok s -> rb_ok rb ->
  exists s', manycast_response a key mask rb s = Some s' /\ peer_inv s' /\ quiet (fun q => q ∈ peer_list s) s s'.
Proof.
  intros I R Hrb. unfold manycast_response.
  assert (Hc : forall v, exists s', Some (s <| ct := v |>) = Some s' /\ peer_inv s' /\ quiet (fun q => q ∈ peer_list s) s s').
  { intros v. eexists. split; [reflexivity |]. split; [apply (keeps_inv _ s); [now split | done] | auto with quiet]. }
  destruct (findmanycastpeer rb s) as [p2|]; [| apply Hc]. destruct (negb _); [apply Hc |].
  destruct (bad_server _ _); [apply Hc |].
  match goal with |- context [newpeer ?x s] => destruct (newpeer_quiet x s I R) as (r & s1 & -> & I1 & _ & _ & Q1 & _) end.
  { apply args_from_packet; [done | change MODE_CLIENT with 3; lia]. }
  cbn [mbind option_bind]. destruct r; eexists; (split; [reflexivity |]).
  - case_match; [| done]. split; [apply (keeps_inv _ s1); auto with keeps | auto with quiet].
  - split; [apply (keeps_inv _ s1); auto with keeps | auto with quiet].
Qed.

(** A packet handed on to an association just mobilized. *)
Lemma fresh_peer_spec p mode a mac mask rb rb' s s1 s2 :
  peer_inv s1 -> res_budget 1 s1 -> peer_list s1 = p :: peer_list s -> mobilizes mode (cf s) = true ->
  (ISREFCLOCKADR (rb_srcadr rb) = false -> unstamped (pv (peer_at s2 p)) /\ cf s2 = cf s) ->
  rb_pkt rb' = rb_pkt rb -> quiet (fun q => q ∈ peer_list s) s s1 ->
  keeps s1 s2 -> (forall q, q ∈ peer_list s -> peer_at s2 q = peer_at s1 q) -> sv s2 = sv s1 -> discipline s2 = discipline s1 ->
  exists s', peer_packet p mode a mac mask rb' s2 = Some s' /\ peer_inv s' /\ gated rb mode a mac s s'.
Proof.
  intros I B L Hm Fr Hb Q K Hq Hs Hd.
  pose proof (keeps_inv _ _ _ K I) as I2.
  destruct (peer_packet_spec p mode a mac mask rb' s2 I2) as (s' & E & I' & G).
  { apply (budget_ok 1); [lia |]. apply (budget_same 1 s1); [apply K | done]. }
  { rewrite (k_list _ _ K), L. left. }
  exists s'. split; [done |]. split; [done |]. rewrite Hb in G.
  destruct (accepted p mode a mac (rb_pkt rb) s2) eqn:Ea.
  - right. right. split; [done |]. intros Hc. destruct (Fr Hc) as [F C]. rewrite <- C. exact (accepted_fresh _ _ _ _ _ _ F Ea).
  - left. specialize (G eq_refl). apply (quiet_trans _ s s1); [revert Q; apply quiet_mono; tauto |].
    apply (quiet_trans _ s1 s2); [| revert G; apply quiet_mono; tauto].
    split; [now rewrite Hs | exact Hd |]. intros q [Hl _]. now rewrite Hq.
Qed.

Lemma bclient_spec mode a mac key mask rb s :
  peer_inv s -> res_budget 2 s -> rb_ok rb -> mode = MODE_BROADCAST ->
  exists s', (next ← new_bclient a key mask rb s;
              match next with inl s => Some s | inr (p, s) => peer_packet p mode a mac mask rb s end) = Some s' /\
    peer_inv s' /\ gated rb mode a mac s s'.
Proof.
  intros I B Hrb Hmode. unfold new_bclient.
  assert (Hc : forall s1 v, peer_inv s1 -> quiet (fun q => q ∈ peer_list s) s s1 ->
    exists s', Some (s1 <| ct := v |>) = Some s' /\ peer_inv s' /\ gated rb mode a mac s s').
  { intros s1 v I1 Q. eexists. split; [reflexivity |].
    split; [apply (keeps_inv _ s1); [now split | done] | apply gated_quiet; auto with quiet]. }
  destruct (_ =? 0) eqn:Hbc; [now apply Hc, quiet_refl |]. destruct (negb (AUTH _ _)); [now apply Hc, quiet_refl |].
  destruct (bad_server _ _); [now apply Hc, quiet_refl |].
  assert (R : res_ok s) by (apply (budget_ok 2); [lia | done]).
  destruct (negb (deq _ _)).
  - match goal with |- context [newpeer ?x s] =>
      destruct (newpeer_quiet x s I R) as (r & s1 & -> & I1 & M1 & N1 & Q1 & U1) end.
    { apply args_from_packet; [done | change MODE_BCLIENT with 6; lia]. }
    cbn [mbind option_bind]. destruct r as [p|]; cbn [mbind option_bind]; [| now apply Hc].
    destruct M1 as (L1 & Hn & Es & _).
    apply (fresh_peer_spec p _ _ _ _ rb rb s s1); [done | now apply (budget_next 1 s) | done | | | done | done | | | done | done].
    + unfold mobilizes, nonzero. subst mode. now rewrite Hbc.
    + intros Hr. destruct (U1 p eq_refl Hr eq_refl) as [F C]. split; [now apply unstamped_upd | exact C].
    + apply keeps_upd; [done | apply keeps_refl].
    + intros q Hq. rewrite peer_at_upd, decide_False; [done |]. intros <-. done.
  - match goal with |- context [newpeer ?x s] =>
      destruct (newpeer_quiet x s I R) as (r & s1 & -> & I1 & M1 & N1 & Q1 & U1) end.
    { apply args_from_packet; [done | change MODE_CLIENT with 3; lia]. }
    cbn [mbind option_bind]. destruct r as [p|]; cbn [mbind option_bind]; [| now apply Hc].
    exists s1. split; [done |]. split; [done | now apply gated_quiet].
Qed.

Lemma mobilize_spec mode a mac key mask rb rb' s s0 :
  peer_inv s -> res_budget 2 s -> rb_ok rb -> mode = MODE_ACTIVE -> rb_srcadr rb' = rb_srcadr rb -> rb_pkt rb' = rb_pkt rb ->
  keeps s s0 -> quiet (fun _ => True) s s0 -> cf s0 = cf s ->
  exists s', (next ← (if negb (PKT_LEAP (pk_li_vn_mode (rb_pkt rb)) =? LEAP_NOTINSYNC)
       && ((PKT_TO_STRATUM (pk_stratum (rb_pkt rb)) <? sys_floor (cf s0))
           || (sys_ceiling (cf s0) <=? PKT_TO_STRATUM (pk_stratum (rb_pkt rb))))
    then Some (inl (s0 .++ sys_declined))
    else
      '(peer, s) ← newpeer (mk_args (rb_srcadr rb') None (ptr (rb_dstadr rb')) MODE_PASSIVE
                      (PKT_VERSION (pk_li_vn_mode (rb_pkt rb))) (pk_ppoll (rb_pkt rb)) NTP_MAXDPOLL 0 MDF_UCAST 0 key) s0;
      match peer with
      | None => Some (inl (s .++ sys_declined))
      | Some p => Some (inr (p, rb', s))
      end);
      match next with inl s => Some s | inr (p, rb, s) => peer_packet p mode a mac mask rb s end) = Some s' /\
    peer_inv s' /\ gated rb mode a mac s s'.
Proof.
  intros I B Hrb Hmode Hsrc Hpk K Q Hcf. pose proof (keeps_inv _ _ _ K I) as I0.
  assert (Q0 : quiet (fun q => q ∈ peer_list s) s s0) by (revert Q; now apply quiet_mono).
  assert (Hc : forall s1 v, peer_inv s1 -> quiet (fun q => q ∈ peer_list s) s s1 ->
    exists s', Some (s1 <| ct := v |>) = Some s' /\ peer_inv s' /\ gated rb mode a mac s s').
  { intros s1 v I1 Q1. eexists. split; [reflexivity |].
    split; [apply (keeps_inv _ s1); [now split | done] | apply gated_quiet; auto with quiet]. }
  destruct (_ && _); [now apply Hc |].
  pose proof (budget_same 2 s s0 (k_restr _ _ K) B) as B0.
  match goal with |- context [newpeer ?x s0] =>
    destruct (newpeer_quiet x s0 I0) as (r & s1 & -> & I1 & M1 & N1 & Q1 & U1) end.
  { apply (budget_ok 2); [lia | done]. }
  { rewrite Hsrc. apply args_from_packet; [done | change MODE_PASSIVE with 2; lia]. }
  rewrite (k_list _ _ K) in Q1. pose proof (quiet_trans _ _ _ _ Q0 Q1) as Q01.
  cbn [mbind option_bind]. destruct r as [p|]; cbn [mbind option_bind]; [| now apply Hc].
  destruct M1 as (L1 & Hn & Es & _). rewrite (k_list _ _ K) in L1, Hn.
  apply (fresh_peer_spec p _ _ _ _ rb rb' s s1 s1);
    [done | now apply (budget_next 1 s0) | done | | | done | done | apply keeps_refl | done | done | done].
  - unfold mobilizes. subst mode. apply orb_true_r.
  - intros Hr. rewrite <- Hsrc in Hr. destruct (U1 p eq_refl Hr eq_refl) as [F C]. split; [exact F | congruence].
Qed.

Lemma passive_spec mode a mac key mask rb s :
  peer_inv s -> res_budget 2 s -> rb_ok rb -> mode = MODE_ACTIVE ->
  exists s', (next ← new_passive a key mask rb s;
              match next with inl s => Some s | inr (p, rb, s) => peer_packet p mode a mac mask rb s end) = Some s' /\
    peer_inv s' /\ gated rb mode a mac s s'.
Proof.
  intros I B Hrb Hmode. unfold new_passive. pose proof (ti_auth _ _ I) as A.
  assert (Hf : forall m k, exists rb' s1, fast_xmit rb m k mask s = Some (rb', s1) /\ keeps s s1 /\
    quiet (fun _ => True) s s1 /\ rb_srcadr rb' = rb_srcadr rb /\ rb_pkt rb' = rb_pkt rb /\ cf s1 = cf s).
  { intros m k. destruct (fast_xmit_fit rb m k mask s A) as (rb' & s1 & E & K & Hb).
    exists rb', s1. split; [done |]. split; [done |]. split; [exact (quiet_fast _ s s _ _ _ _ _ _ (quiet_refl _ s) E) |].
    destruct Hb as [Hb1 Hb2]. split; [done |]. split; [done |]. exact (fast_cf _ _ _ _ _ _ _ E). }
  destruct (negb (AUTH _ a)); [| apply mobilize_spec; auto using keeps_refl, quiet_refl].
  destruct (AUTH _ a).
  - destruct (Hf MODE_PASSIVE key) as (rb' & s1 & -> & K & Q & _). cbn [mbind option_bind].
    exists s1. split; [done |]. split; [exact (keeps_inv _ _ _ K I) |]. apply gated_quiet. revert Q. now apply quiet_mono.
  - destruct (a =? AUTH_ERROR); [| apply mobilize_spec; auto using keeps_refl, quiet_refl].
    destruct (Hf MODE_ACTIVE 0) as (rb' & s1 & -> & K & Q & Hs & Hpk & Hcf). cbn [mbind option_bind].
    apply mobilize_spec; auto with keeps quiet.
Qed.

Lemma procpkt_found mode a : 0 <= mode <= 6 -> MATCH_ASSOC NO_PEER mode = Some a -> a <> AM_PROCPKT.
Proof.
  intros Hm E ->.
  pose proof (forall_range (fun y => negb (bool_decide (MATCH_ASSOC NO_PEER y = Some AM_PROCPKT))) 0 7 eq_refl mode ltac:(lia)) as Hr.
  cbn beta in Hr. now rewrite E in Hr.
Qed.

(** The actions that mobilize belong to one mode each. *)
Lemma match_column act m :
  forallb (fun row => (length row <=? 7)%nat && forallb (fun i => negb (bool_decide (row !! i = Some act)) || (i =? m)%nat) (seq 0 7)) AM = true ->
  forall x y, MATCH_ASSOC x y = Some act -> y = Z.of_nat m.
Proof.
  intros T x y. unfold MATCH_ASSOC. destruct (_ || _) eqn:E; [done |]. apply orb_false_iff in E as [E1 E2]. apply Z.ltb_ge in E1, E2.
  destruct (AM !! Z.to_nat x) as [row|] eqn:Er; [| done]. cbn [mbind option_bind]. intros Hy.
  rewrite forallb_forall in T. specialize (T row (proj1 (list_elem_of_In _ _) (list_elem_of_lookup_2 _ _ _ Er))).
  apply andb_true_iff in T as [T1 T2]. apply Nat.leb_le in T1. rewrite forallb_forall in T2. pose proof (lookup_lt_Some _ _ _ Hy) as Hl.
  specialize (T2 (Z.to_nat y)). rewrite in_seq in T2. specialize (T2 ltac:(lia)). rewrite bool_decide_eq_true_2 in T2 by done.
  cbn [negb orb] in T2. apply Nat.eqb_eq in T2. lia.
Qed.

Lemma found_match s rb mode r act : found s rb mode r act -> act <> AM_ERR -> exists x, MATCH_ASSOC x mode = Some act.
Proof. destruct r as [p|]; cbn [found]; [intros (_ & _ & E & _) _; eauto | intros [-> | [E _]] Hne; [done | eauto]]. Qed.

Lemma dispatch_spec act r mode a mac key mask rb s :
  peer_inv s -> res_budget 2 s -> rb_ok rb -> 0 <= mode <= 6 -> found s rb mode r act ->
  exists s', dispatch act r mode a mac key mask rb s = Some s' /\ peer_inv s' /\ gated rb mode a mac s s'.
Proof.
  intros I B Hrb Hm F. unfold dispatch. assert (R : res_ok s) by (apply (budget_ok 2); [lia | done]).
  destruct (Z.eqb_spec act AM_FXMIT).
  { destruct (serve_spec a key mask rb s I) as (s' & E & K & Q). exists s'. split; [done |].
    split; [exact (keeps_inv _ _ _ K I) | apply gated_quiet; revert Q; now apply quiet_mono]. }
  destruct (Z.eqb_spec act AM_MANYCAST).
  { destruct (manycast_spec a key mask rb s I R Hrb) as (s' & E & I' & Q). exists s'. auto using gated_quiet. }
  destruct (Z.eqb_spec act AM_NEWBCL) as [-> |].
  { apply bclient_spec; auto. destruct (found_match _ _ _ _ _ F) as [x E]; [done |]. exact (match_column AM_NEWBCL 5 eq_refl x mode E). }
  destruct (Z.eqb_spec act AM_NEWPASS) as [-> |].
  { apply passive_spec; auto. destruct (found_match _ _ _ _ _ F) as [x E]; [done |]. exact (match_column AM_NEWPASS 1 eq_refl x mode E). }
  destruct (Z.eqb_spec act AM_PROCPKT) as [-> |].
  - destruct r as [p|]; [| destruct F as [F | [F _]]; [done | now apply procpkt_found in F]].
    destruct F as (Hp & Ha & _). cbn [mbind option_bind].
    destruct (peer_packet_spec p mode a mac mask rb s I R Hp) as (s' & E & I' & G). exists s'. split; [done |]. split; [done |].
    destruct (accepted p mode a mac (rb_pkt rb) s) eqn:Ea; [right; left; eauto |].
    left. specialize (G eq_refl). revert G. apply quiet_mono. tauto.
  - eexists. split; [reflexivity |]. split; [apply (keeps_inv _ s); auto with keeps | apply gated_quiet; auto with quiet].
Qed.
End Dispatch.

Lemma found_heap s s' rb mode r act :
  heap s' = heap s -> peer_list s' = peer_list s -> found s rb mode r act -> found s' rb mode r act.
Proof. intros E1 E2. unfold found, peer_at. now rewrite E1, E2. Qed.

(** ** The theorems *)

(** A state of the daemon that can take one more packet. *)
Definition engine_ok (s : state) : Prop := peer_inv s /\ res_budget 2 s /\ mon_fit (restr s).

Section Theorems.
Context `{EnvLaws} `{!DigestLaws}.

Lemma gated_entered rb mode a mac n s s1 s' :
  entered n s s1 -> gated rb mode a mac s1 s' -> gated rb mode a mac s s'.
Proof.
  intros [V _ L _] [Q | [(p & Hp & Hs & Ha) | [Hm Ha]]].
  - left. rewrite L in Q. apply (quiet_trans _ s s1); [now apply same_vars_quiet | done].
  - right. left. exists p. rewrite L in Hp. destruct (sm_peer _ _ V p) as (_ & _ & E). rewrite E in Hs.
    rewrite (same_vars_accepted _ _ _ _ _ _ _ V) in Ha. done.
  - right. right. now rewrite (sm_cf _ _ V) in Hm, Ha.
Qed.


(** The restriction flags that turn a packet away at the door. *)
Definition denied (mask : Z) (rb : recvbuf) : bool :=
  has mask RES_IGNORE
  || (if managed rb then has mask RES_NOQUERY
      else has mask RES_DONTSERVE
           || (has mask RES_DONTTRUST &&
               match mac_length rb with Some (_, mac, _) => mac =? 0 | None => true end)).

(** Counters, the random number generator and the restriction entry's hit
    count apart, nothing has changed and nothing was sent. *)
Record untouched (s s' : state) : Prop := {
  un_sv : sv s' = sv s; un_cf : cf s' = cf s; un_auth : auth s' = auth s; un_heap : heap s' = heap s;
  un_list : peer_list s' = peer_list s; un_free : peer_free s' = peer_free s;
  un_hash : peer_hash s' = peer_hash s; un_assoc : assoc_hash s' = assoc_hash s;
  un_endpts : endpts s' = endpts s; un_out : out s' = out s }.

Lemma untouched_ct s s1 v : untouched s s1 -> untouched s (s1 <| ct := v |>).
Proof. now intros []. Qed.

(** C27: access control.  A datagram whose source is ignored, is not served,
    may not query (management requests), or must authenticate and carries
    no MAC, is counted and dropped: no association, key, endpoint or system
    variable changes, no packet is sent, and the rate limiter does not see
    it. *)
Theorem denied_packet_dropped (rb : recvbuf) (s : state) (mask : Z) (rs : res_state) :
  restrictions (current_time s) (rb_srcadr rb) (restr s) = Some (mask, rs) -> denied mask rb = true ->
  exists s', receive rb s = Some s' /\ untouched s s' /\ (restr s' = rs \/ restr s' = restr s).
Proof.
  intros Er Hd. unfold receive, early_filters. set (s0 := s .++ sys_received).
  assert (U0 : untouched s s0) by now split.
  destruct (sa_port _ =? 0); [eexists; split; [reflexivity |]; split; [now apply untouched_ct | now right] |].
  change (current_time s0) with (current_time s). change (restr s0) with (restr s). rewrite Er. cbn [mbind option_bind].
  set (s1 := s0 <| restr := rs |>). assert (U1 : untouched s s1) by now split.
  assert (Hend : forall v, exists s', Some (s1 <| ct := v |>) = Some s' /\ untouched s s' /\ (restr s' = rs \/ restr s' = restr s)).
  { intros v. eexists. split; [reflexivity |]. split; [now apply untouched_ct | now left]. }
  clear Er. unfold denied in Hd. destruct (has mask RES_IGNORE); [apply Hend |]. cbn [orb] in Hd.
  unfold managed in Hd. destruct (_ =? MODE_PRIVATE); cbn [orb] in Hd; [rewrite Hd, orb_true_r; apply Hend |].
  destruct (_ =? MODE_CONTROL); [rewrite Hd; apply Hend |].
  destruct (has mask RES_DONTSERVE); [apply Hend |]. cbn [orb] in Hd. apply andb_true_iff in Hd as [Ht Hm].
  match goal with |- context [let '(_, _) := ?b in _] => set (fl := b) end.
  assert (U2 : untouched s fl.2 /\ restr fl.2 = rs).
  { unfold fl. destruct (has mask RES_FLAKE); [| done]. unfold ntp_random. now destruct (next_random _). }
  destruct fl as [flake s2]. cbn [snd] in U2. destruct U2 as [U2 R2]. clear U1 Hend. clearbody s1 s0.
  assert (Hend : forall v, exists s', Some (s2 <| ct := v |>) = Some s' /\ untouched s s' /\ (restr s' = rs \/ restr s' = restr s)).
  { intros v. eexists. split; [reflexivity |]. split; [now apply untouched_ct | left; exact R2]. }
  destruct flake; [apply Hend |]. destruct (_ && _); [apply Hend |].
  match goal with |- context [if ?b then s2 .++ sys_newversion else ?y] => set (s3 := if b then s2 .++ sys_newversion else y) end.
  assert (U3 : untouched s s3 /\ restr s3 = rs) 
    by (unfold s3; destruct (_ =? NTP_VERSION); (split; [now apply untouched_ct | exact R2])).
  clearbody s3.
  destruct U3 as [U3 R3]. destruct (_ && _); cbn [mbind option_bind];
    [eexists; split; [reflexivity |]; split; [now apply untouched_ct | left; exact R3] |].
  destruct (mac_length rb) as [[[al mac] key]|]; [rewrite Ht, Hm; cbn [andb] |];
    (eexists; split; [reflexivity |]; split; [now apply untouched_ct | left; exact R3]).
Qed.

(** The scan for the MAC.  Whatever the length of a datagram and whatever
    its extension fields claim, a packet that is not rejected has a header
    and extension fields of a length divisible by four, followed by nothing
    or by a MAC of 4 to 24 octets that ends with the datagram; and the loop
    over the extension fields ends within one round per octet. *)
Theorem mac_scan_bounds (rb : recvbuf) :
  rb_ok rb ->
  (forall al mac key, mac_length rb = Some (al, mac, key) ->
     al mod 4 = 0 /\ LEN_PKT_NOMAC <= al /\ al + mac = rb_length rb /\
     (mac = 0 \/ MIN_MAC_LEN <= mac <= MAX_MAC_LEN)) /\
  forall more, scan_mac (S (Z.to_nat (rb_length rb)) + more) rb LEN_PKT_NOMAC (s32 (rb_length rb - LEN_PKT_NOMAC)) 0
               = mac_length rb.
Proof.
  intros Hrb. split; [intros al mac key; exact (mac_length_sound rb al mac key Hrb) |]. intros more. unfold mac_length.
  apply scan_mac_fuel. destruct Hrb as (Ha & Hb & _).
  rewrite s32_small by (unfold_ranges; change LEN_PKT_NOMAC with 48; lia). change LEN_PKT_NOMAC with 48. lia.
Qed.
End Theorems.

(** ** Closed instances *)

#[export] Instance sample_digest_laws : @DigestLaws (@env_digest sample_env).
Proof. intros m. apply length_replicate. Qed.

Lemma mon0_fit : mon_fit res0.
Proof.
  split; [| vm_compute; repeat split; discriminate]. split; try (vm_compute; discriminate); try done.
  - constructor.
  - intros p Hp. cbn in Hp. set_solver.
  - intros h. cbn. split; [constructor | intros p; set_solver].
  - intros p q Hp. cbn in Hp. set_solver.
Qed.

Lemma sample_engine_ok : engine_ok sample_state.
Proof.
  split; [exact sample_inv |]. split; [| exact mon0_fit].
  split; [exact res0_inv | split; vm_compute; discriminate].
Qed.

Lemma sample_rb_ok : rb_ok sample_rb.
Proof. split_and!; vm_compute; congruence. Qed.


(** Restrictions that ignore every IPv4 source. *)
Definition ignoring : res_state :=
  default res0 (hack_restrict RESTRICT_FLAGS (Some (v4 0)) (Some (v4 0)) 0 RES_IGNORE 0 res0).

Lemma ignoring_mask : fst <$> restrictions 100 (v4 0x0a000001) ignoring = Some RES_IGNORE.
Proof. vm_compute. reflexivity. Qed.

Lemma denied_packet_dropped_witness :
  exists s', @receive sample_env sample_rb (sample_state <| restr := ignoring |>) = Some s' /\
    untouched (sample_state <| restr := ignoring |>) s'.
Proof.
  pose proof ignoring_mask as Hm.
  destruct (restrictions 100 (v4 0x0a000001) ignoring) as [[mask rs]|] eqn:E; [| discriminate Hm].
  injection Hm as ->. set (s := sample_state <| restr := ignoring |>).
  assert (E1 : restrictions (current_time s) (rb_srcadr sample_rb) (restr s) = Some (RES_IGNORE, rs))
    by (change (current_time s) with 100; change (restr s) with ignoring; exact E).
  destruct (@denied_packet_dropped sample_env sample_rb s RES_IGNORE rs E1 eq_refl) as (s' & E' & U & _). eauto.
Defined.

Lemma mac_scan_bounds_witness :
  rb_ok sample_rb /\ forall more, scan_mac (49 + more) sample_rb 48 0 0 = mac_length sample_rb.
Proof. split; [exact sample_rb_ok |]. exact (proj2 (mac_scan_bounds sample_rb sample_rb_ok)). Defined.
