(* ===== verification/WireFacts.v ===== *)
(** * What goes on the wire: facts about Transmit.v

    The packets of the three senders of Transmit.v: how many, and of what
    length, depends on the key, and all of them are lists of octets. *)

From S2P Require Import Prelude FixedPoint Double Lists NtpTypes AuthKeys AuthFacts Monitor Restrict RestrictFacts State ProtoBase Sample Peer PeerFacts Select Filter Transmit EngineFacts ReceiveFacts TransmitFacts.
From stdpp Require Import base gmap list.
#[local] Open Scope Z_scope.

(** ** Octets *)

Definition octets (bs : list Z) : Prop := Forall is_u8 bs.

Lemma be_bytes_octets n x : octets (be_bytes n x).
Proof.
  induction n as [|n IH]; cbn; constructor; [| exact IH].
  change 255 with (2 ^ 8 - 1). rewrite land_ones_mod by lia. unfold is_u8. apply Z.mod_pos_bound. lia.
Qed.
Lemma octets_app a b : octets a -> octets b -> octets (a ++ b).
Proof. apply Forall_app_2. Qed.
Lemma octets_take n a : octets a -> octets (take n a).
Proof. apply Forall_take. Qed.
Lemma octets_drop n a : octets a -> octets (drop n a).
Proof. apply Forall_drop. Qed.
Create HintDb wire discriminated.
#[export] Hint Resolve be_bytes_octets octets_app octets_take octets_drop : wire.

Lemma pkt_bytes_octets x : octets (pkt_bytes x).
Proof.
  unfold pkt_bytes, lfp_bytes, be32. repeat apply octets_app; auto with wire.
  repeat constructor; apply u8_range.
Qed.
Lemma xmit_buffer_octets x : octets (xmit_buffer x).
Proof. apply octets_app; [apply pkt_bytes_octets |]. now repeat constructor. Qed.
Lemma poke_octets off bs buf buf' : poke off bs buf = Some buf' -> octets bs -> octets buf -> octets buf' /\ length buf' = length buf.
Proof.
  unfold poke. intros E Hb Hf. case_match eqn:C; [| done]. injection E as <-. split; [auto with wire |].
  rewrite !length_app, length_take, length_drop. lia.
Qed.
#[export] Hint Resolve pkt_bytes_octets xmit_buffer_octets : wire.

(** ** Datagrams *)

Definition octet_event (x : output) : Prop := match x with Sendpkt _ _ _ bs => octets bs | _ => True end.
Definition sent_length (x : output) : option nat := match x with Sendpkt _ _ _ bs => Some (length bs) | _ => None end.

(** The events added from one state to another: datagrams of octets with
    the lengths [ns], in this order, and events that are no datagrams. *)
Definition sends (ns : list nat) (s s' : state) : Prop :=
  exists l, out s' = out s ++ l /\ Forall octet_event l /\ omap sent_length l = ns.

Lemma sends_same s s' : out s' = out s -> sends [] s s'.
Proof. intros E. exists []. rewrite E, app_nil_r. split; [done |]. split; [constructor | done]. Qed.
Lemma sends_one s s' d e t bs : out s' = out s ++ [Sendpkt d e t bs] -> octets bs -> sends [length bs] s s'.
Proof. intros E T. eexists. split; [exact E |]. split; [now constructor | done]. Qed.
Lemma sends_none s s' x : out s' = out s ++ [x] -> sent_length x = None -> sends [] s s'.
Proof. intros E T. exists [x]. split; [exact E |]. split; [now destruct x; repeat constructor |]. cbn. now rewrite T. Qed.
Lemma sends_trans l1 l2 s1 s2 s3 : sends l1 s1 s2 -> sends l2 s2 s3 -> sends (l1 ++ l2) s1 s3.
Proof.
  intros (k1 & E1 & F1 & <-) (k2 & E2 & F2 & <-). exists (k1 ++ k2). rewrite E2, E1, app_assoc. split; [done |].
  split; [now apply Forall_app_2 | apply omap_app].
Qed.

(** The store has a key, of a type and trusted, for the identifier. *)
Definition has_key (st : auth_state) (id : Z) : bool := match abs_key st id with Some k => usable k | None => false end.
(** What [authencrypt] appends: the identifier 0 alone, a key identifier and
    a digest, or nothing. *)
Definition mac_length (st : auth_state) (id : Z) : nat := if id =? 0 then 4 else if has_key st id then 20 else 0.

Section Wire.
Context `{Env} `{!DigestLaws} (md5_octets : forall m, octets (md5 m)).

Lemma systime_out s : out (get_systime s).2 = out s.
Proof. unfold get_systime. now destruct (read_clock _). Qed.
Lemma stamp_out p t x s : out (stamp p t x s).2 = out s.
Proof. unfold stamp. repeat case_match; reflexivity. Qed.
Lemma systime_auth s : auth (get_systime s).2 = auth s.
Proof. unfold get_systime. now destruct (read_clock _). Qed.
Lemma stamp_auth p t x s : auth (stamp p t x s).2 = auth s.
Proof. unfold stamp. repeat case_match; reflexivity. Qed.
Lemma report_sends e p s : sends [] s (report_event e p s).
Proof.
  unfold report_event. destruct p as [p|].
  - match goal with |- context [if ?b then ?y else s] => set (s1 := if b then y else s) end.
    assert (E : out s1 = out s) by (unfold s1; case_match; done). clearbody s1.
    case_match; [now apply sends_same |]. eapply sends_none; [cbn; now rewrite E | done].
  - match goal with |- context [if ?b then ?y else s] => set (s1 := if b then y else s) end.
    assert (E : out s1 = out s) by (unfold s1; case_match; done). clearbody s1.
    case_match; [now apply sends_same |]. eapply sends_none; [cbn; now rewrite E | done].
Qed.

(** What [authencrypt] makes of a header is a datagram. *)
Lemma authencrypt_datagram id x st :
  auth_fit st ->
  exists buf st', authencrypt id (xmit_buffer x) LEN_PKT_NOMAC st = Some (Z.of_nat (mac_length st id), buf, st') /\
    octets buf /\ length buf = 76%nat.
Proof.
  intros F. assert (L : length (xmit_buffer x) = 76%nat) by (unfold xmit_buffer; now rewrite length_app, pkt_bytes_length).
  destruct (authencrypt_fit id (xmit_buffer x) LEN_PKT_NOMAC st F) as (n & buf & st' & E & _); [done | done | now rewrite L |].
  cut (n = Z.of_nat (mac_length st id) /\ octets buf /\ length buf = 76%nat); [intros [-> ?]; eauto |]. revert E. unfold authencrypt.
  destruct (poke _ (be32 id) _) as [b1|] eqn:P1; [| done]. cbn [mbind option_bind].
  destruct (poke_octets _ _ _ _ P1 (be_bytes_octets 4 id) (xmit_buffer_octets x)) as [O1 L1]. rewrite L in L1.
  unfold mac_length. rewrite (Z.eqb_sym id). destruct (Z.eqb_spec 0 id) as [<- | Hid]; [intros [= <- <- _]; done |].
  set (st0 := st <| authencryptions := _ |>).
  assert (F0 : auth_inv st0 /\ forall i, abs_key st0 i = abs_key st i) by (apply (auth_same st); try done; apply F).
  destruct (havekey_spec st0 id (proj1 F0) (proj2 F) (not_eq_sym Hid)) as [Hh _]. rewrite (proj2 F0) in Hh.
  assert (Ha : (authhavekey id st0).1 = has_key st id) by (unfold has_key; destruct (abs_key st id); [apply Hh | exact Hh]).
  destruct (authhavekey id st0) as [have st1]. cbn [fst] in Ha. rewrite <- Ha.
  destruct have; cbn [negb]; [| intros [= <- <- _]; done]. unfold MD5authencrypt.
  destruct (read_cached_secret st1) as [key|]; [| done]. cbn [mbind option_bind].
  destruct (peek 0 LEN_PKT_NOMAC b1) as [body|]; [| done]. cbn [mbind option_bind].
  destruct (poke _ (md5 _) b1) as [b2|] eqn:P2; [| done]. cbn [mbind option_bind]. rewrite md5_length. intros [= <- <- _].
  destruct (poke_octets _ _ _ _ P2 (md5_octets _) O1) as [O2 L2]. split; [done |]. split; [done | lia].
Qed.

Lemma header_length x : length (take (Z.to_nat LEN_PKT_NOMAC) (xmit_buffer x)) = 48%nat /\ octets (take (Z.to_nat LEN_PKT_NOMAC) (xmit_buffer x)).
Proof. rewrite xmit_sent. split; [apply pkt_bytes_length | auto with wire]. Qed.

Lemma mac_take (buf : list Z) k : length buf = 76%nat -> (k <= 20)%nat -> length (take (Z.to_nat (LEN_PKT_NOMAC + Z.of_nat k)) buf) = (48 + k)%nat.
Proof. intros L K. rewrite length_take, L. unfold LEN_PKT_NOMAC. lia. Qed.

Lemma mac_length_le st id : (mac_length st id <= 20)%nat.
Proof. unfold mac_length. repeat case_match; lia. Qed.

(** The packets of an association: one, unless it has no endpoint or its key is not usable. *)
Definition peer_lengths (s : state) (p : Z) : list nat :=
  let r := peer_at s p in
  match p_dstadr r with
  | None => []
  | Some _ => if p_keyid r =? 0 then [48%nat] else if has_key (auth s) (p_keyid r) then [68%nat] else []
  end.

Lemma peer_xmit_sends p s : auth_fit (auth s) -> exists s', peer_xmit p s = Some s' /\ sends (peer_lengths s p) s s'.
Proof.
  intros A. unfold peer_xmit, peer_lengths. destruct (p_dstadr _) as [ep|]; [| exists s; split; [done | now apply sends_same]].
  pose proof (systime_out s) as K1. pose proof (systime_auth s) as Q1. destruct (get_systime s) as [tx s1]. cbn [snd] in K1, Q1.
  match goal with |- context [stamp p tx ?x s1] => pose proof (stamp_out p tx x s1) as K2; pose proof (stamp_auth p tx x s1) as Q2;
    destruct (stamp p tx x s1) as [xp s2] end. cbn [snd] in K2, Q2. rewrite K1 in K2. rewrite Q1 in Q2.
  destruct (Z.eqb_spec (p_keyid (peer_at s p)) 0) as [Ek | Ek].
  { eexists. split; [reflexivity |]. destruct (sent_out p ep LEN_PKT_NOMAC (xmit_buffer xp) tx s2) as (d & t & E).
    rewrite K2 in E. destruct (header_length xp) as [L O]. rewrite <- L. eapply sends_one; [exact E | exact O]. }
  destruct (authencrypt_datagram (p_keyid (peer_at s p)) xp (auth s2)) as (buf & au & -> & O & L); [now rewrite Q2 |].
  rewrite Q2. cbn [mbind option_bind]. set (s3 := s2 <| auth := au |>). assert (K3 : out s3 = out s) by done. clearbody s3.
  pose proof (mac_take buf (mac_length (auth s) (p_keyid (peer_at s p))) L (mac_length_le _ _)) as Lt. revert Lt. unfold mac_length.
  rewrite (proj2 (Z.eqb_neq _ _) Ek). destruct (has_key _ _); cbn [Z.of_nat Z.eqb]; intros Lt.
  - change (PKT_SIZE <? LEN_PKT_NOMAC + Z.of_nat 20) with false. eexists. split; [reflexivity |].
    destruct (sent_out p ep (LEN_PKT_NOMAC + Z.of_nat 20) buf tx s3) as (d & t & E). rewrite K3 in E.
    change 68%nat with (48 + 20)%nat. rewrite <- Lt. eapply sends_one; [exact E | now apply octets_take].
  - eexists. split; [reflexivity |]. change (@nil nat) with (@nil nat ++ [] ++ []).
    eapply sends_trans; [now apply sends_same; exact K3 |]. eapply sends_trans; [apply report_sends | now apply sends_same].
Qed.

(** The reply to a request: a header when the request was one, else with
    what [authencrypt] appends. *)
Definition reply_length (s : state) (rb : recvbuf) (key : Z) : nat :=
  if rb_length rb =? LEN_PKT_NOMAC then 48%nat else (48 + mac_length (auth s) key)%nat.

Lemma fast_xmit_sends rb mode key flags s :
  auth_fit (auth s) -> exists rb' s', fast_xmit rb mode key flags s = Some (rb', s') /\ sends [reply_length s rb key] s s'.
Proof.
  intros A. unfold fast_xmit, reply_length. match goal with |- context [if ?b then ?t else rb] => set (rb1 := if b then t else rb) end.
  assert (Lr : rb_length rb1 = rb_length rb) by (unfold rb1; case_match; done). clearbody rb1.
  assert (K2 : out (reply_header rb1 mode flags s).2 = out s /\ auth (reply_header rb1 mode flags s).2 = auth s).
  { unfold reply_header. case_match; [done |].
    pose proof (systime_auth s) as Kt. pose proof (systime_out s) as Ko. destruct (get_systime s). done. }
  destruct (reply_header rb1 mode flags s) as [xpkt s3]. cbn [snd] in K2. destruct K2 as [K2 Q2]. rewrite Lr.
  destruct (_ =? _).
  { destruct (header_length xpkt) as [L O]. do 2 eexists. split; [reflexivity |]. rewrite <- L. eapply sends_one; [cbn; now rewrite K2 | exact O]. }
  pose proof (systime_out s3) as K4. pose proof (systime_auth s3) as Q4. destruct (get_systime s3) as [tx s4]. cbn [snd] in K4, Q4.
  rewrite Q2 in Q4.
  destruct (authencrypt_datagram key xpkt (auth s4)) as (buf & au & -> & O & L); [now rewrite Q4 |]. rewrite Q4.
  cbn [mbind option_bind]. match goal with |- context [get_systime ?x] => set (s5 := x) end.
  rewrite <- (mac_take buf (mac_length (auth s) key) L (mac_length_le _ _)).
  assert (K5 : exists d e, out s5 = out s ++ [Sendpkt d e 0 (take (Z.to_nat (LEN_PKT_NOMAC + Z.of_nat (mac_length (auth s) key))) buf)])
    by (unfold s5; cbn; do 2 eexists; rewrite K4, K2; reflexivity). clearbody s5.
  destruct K5 as (d & e & K5). pose proof (systime_out s5) as K6. destruct (get_systime s5) as [ty s6]. cbn [snd] in K6.
  do 2 eexists. split; [reflexivity |]. eapply sends_one; [cbn; rewrite K6; exact K5 | now apply octets_take].
Qed.

(** The solicitation of a pool: a header to the next server, if there is one. *)
Definition pool_lengths (s : state) (p : Z) : list nat :=
  match p_ai (peer_at s p) with
  | [] => []
  | ai => match (next_server ai s).1 with Some _ => [48%nat] | None => [] end
  end.

Lemma pool_xmit_sends p s s' : pool_xmit p s = Some s' -> sends (pool_lengths s p) s s'.
Proof.
  unfold pool_xmit, pool_lengths. destruct (p_ai (peer_at s p)) as [|a0 ai0].
  { intros E. injection E as <-. eapply sends_none; [reflexivity | done]. }
  destruct (next_server _ s) as [found ai]. cbn [fst]. set (s1 := upd_peer p _ s).
  assert (K1 : out s1 = out s) by done. clearbody s1. destruct found as [rmtadr|]; [| intros E; injection E as <-; now apply sends_same].
  destruct (restrictions _ _ _) as [[mask rs]|]; [| done]. cbn [mbind option_bind].
  set (s2 := s1 <| restr := rs |>). assert (K2 : out s2 = out s) by done. clearbody s2.
  match goal with |- context [if ?b then ?t else Some s2] => set (r := if b then t else Some s2) end.
  assert (K3 : forall s3, r = Some s3 -> out s3 = out s).
  { intros s3. unfold r. case_match; [| now intros [= <-]]. unfold lift_res. destruct (restrict_source _ _ _ _ _); [| done].
    intros E. injection E as <-. exact K2. }
  clearbody r. destruct r as [s3|]; [| done]. cbn [mbind option_bind]. specialize (K3 s3 eq_refl).
  match goal with |- context [pkt_bytes (?x <| pk_xmt := _ |>)] => set (xp := x) end. clearbody xp.
  pose proof (systime_out s3) as K4. destruct (get_systime s3) as [tx s4]. cbn [snd] in K4. rewrite K3 in K4.
  intros E. apply (inj Some) in E as <-. rewrite <- (pkt_bytes_length (xp <| pk_xmt := tx |>)).
  eapply sends_one; [cbn; now rewrite K4 | auto with wire].
Qed.

(** C36: the three senders of the protocol engine put datagrams of octets on
    the wire, and the key decides how many and how long.  The packet of an
    association is one header of 48 octets without a key, a header with key
    identifier and digest, 68 octets, with a key the store has, and none at
    all when the key is not usable or the association has no endpoint.  The
    reply to a request is one datagram: the header alone for a request
    without a MAC, otherwise the header with an identifier of zero (52
    octets) for key 0, with key identifier and digest (68) for a usable key,
    and alone for any other.  A pool sends one header to its next server, if
    it has one.  All of them return as long as the key store, for a pool
    also the tables, are consistent. *)
Theorem datagrams_typed p rb mode key flags s :
  auth_fit (auth s) ->
  (exists s', peer_xmit p s = Some s' /\ sends (peer_lengths s p) s s') /\
  (exists rb' s', fast_xmit rb mode key flags s = Some (rb', s') /\ sends [reply_length s rb key] s s') /\
  (peer_inv s -> res_budget 1 s -> exists s', pool_xmit p s = Some s' /\ sends (pool_lengths s p) s s').
Proof.
  intros A. split; [now apply peer_xmit_sends |]. split; [now apply fast_xmit_sends |].
  intros I B. destruct (pool_xmit_spec p s I B) as (s' & E & _). eauto using pool_xmit_sends.
Qed.
End Wire.

(** The sample association has no key, and key 5 signs a reply. *)
Lemma datagrams_typed_witness :
  auth_fit (auth sample_state) /\ (forall m, octets (@md5 (@env_digest sample_env) m)) /\
  (exists s', @peer_xmit sample_env 1 sample_state = Some s' /\ sends [48%nat] sample_state s') /\
  (exists rb' s', @fast_xmit sample_env (mk_recvbuf (mk_sockaddr AF_INET 1 0 123) 1 3 L_CLR 68 []) MODE_SERVER 5 0 sample_state = Some (rb', s') /\
     sends [68%nat] sample_state s').
Proof.
  assert (A : auth_fit (auth sample_state)) by exact (ti_auth _ _ sample_inv).
  assert (O : forall m, octets (@md5 (@env_digest sample_env) m)).
  { intros m. apply Forall_replicate. unfold is_u8. pose proof (Z.mod_pos_bound (fold_right Z.add 0 m) 256). lia. }
  split; [exact A |]. split; [exact O |].
  destruct (@datagrams_typed sample_env sample_digest_laws O 1 (mk_recvbuf (mk_sockaddr AF_INET 1 0 123) 1 3 L_CLR 68 []) MODE_SERVER 5 0
              sample_state A) as (K1 & K2 & _). split; [exact K1 | exact K2].
Defined.
