(* ===== verification/TimerFacts.v ===== *)
(** * The event timer: the walks over the peers are safe and complete *)

From S2P Require Import Prelude FixedPoint Double Lists NtpTypes AuthKeys Monitor Restrict RestrictFacts State ProtoBase LoopFilter Refclock Sample Peer LoopFacts PeerFacts Select Filter FilterFacts RefclockPoll Transmit Timer Receive EngineFacts ReceiveFacts TransmitFacts.
From stdpp Require Import base gmap list.
#[local] Open Scope Z_scope.

(** ** Following the links *)

Lemma p_link_app pre p rest : p ∉ pre -> p_link p (pre ++ p :: rest) = Some (head rest).
Proof.
  induction pre as [|q pre IH]; intros Hn; cbn [app p_link]; [now rewrite Z.eqb_refl |].
  apply not_elem_of_cons in Hn as [Hq Hn]. rewrite (proj2 (Z.eqb_neq _ _)) by congruence. auto.
Qed.

Lemma UNLINK_app pre p rest : p ∉ pre -> UNLINK p (pre ++ p :: rest) = pre ++ rest.
Proof.
  induction pre as [|q pre IH]; intros Hn; cbn [app UNLINK]; [now rewrite Z.eqb_refl |].
  apply not_elem_of_cons in Hn as [Hq Hn]. rewrite (proj2 (Z.eqb_neq _ _)) by congruence. f_equal. auto.
Qed.

(** Each peer of a list in turn. *)
Fixpoint visit_all (f : Z -> state -> option state) (l : list Z) (s : state) : option state :=
  match l with
  | [] => Some s
  | p :: l => s ← f p s; visit_all f l s
  end.

(** A step on one peer that can be taken [n] more times: it returns, and
    takes at most that peer off the list. *)
Definition steady (Q : nat -> state -> Prop) (f : Z -> state -> option state) : Prop :=
  forall n p s, Q (S n) s -> p ∈ peer_list s ->
  exists s', f p s = Some s' /\ Q n s' /\ (peer_list s' = peer_list s \/ peer_list s' = UNLINK p (peer_list s)).

Lemma walk_visits Q f rest pre s :
  steady Q f -> peer_list s = pre ++ rest -> NoDup (pre ++ rest) -> Q (length rest) s ->
  exists s', walk (length rest) f (head rest) s = Some s' /\ visit_all f rest s = Some s' /\
    Q O s' /\ forall p, p ∈ peer_list s' -> p ∈ pre ++ rest.
Proof.
  intros Hf. revert pre s. induction rest as [|p rest IH]; intros pre s El Hn HQ; cbn [length head walk visit_all].
  { exists s. split_and!; try done. now rewrite El. }
  assert (Hp : p ∉ pre) by (intros Hin; apply NoDup_app in Hn as (_ & Hn & _); apply (Hn p); set_solver).
  destruct (Hf _ p s HQ) as (s1 & E1 & Q1 & L1); [rewrite El; set_solver |].
  rewrite El, p_link_app by done. cbn [mbind option_bind]. rewrite E1. cbn [mbind option_bind].
  rewrite El, UNLINK_app in L1 by done.
  assert (Hn' : NoDup (pre ++ rest)).
  { apply NoDup_app in Hn as (Ha & Hb & Hc). apply NoDup_cons in Hc as [_ Hc]. apply NoDup_app. split_and!; set_solver. }
  destruct L1 as [L1 | L1].
  - destruct (IH (pre ++ [p]) s1) as (s' & W & V & Q' & S'); [now rewrite L1, <- app_assoc | now rewrite <- app_assoc | done |].
    exists s'. split_and!; try done. intros q Hq. apply S' in Hq. set_solver.
  - destruct (IH pre s1) as (s' & W & V & Q' & S'); [done | done | done |].
    exists s'. split_and!; try done. intros q Hq. apply S' in Hq. set_solver.
Qed.

Lemma for_peers_visits Q f s :
  steady Q f -> NoDup (peer_list s) -> Q (length (peer_list s)) s ->
  exists s', for_peers f s = Some s' /\ visit_all f (peer_list s) s = Some s' /\
    Q O s' /\ forall p, p ∈ peer_list s' -> p ∈ peer_list s.
Proof. intros Hf Hn HQ. exact (walk_visits Q f (peer_list s) [] s Hf eq_refl Hn HQ). Qed.

Lemma peers_nodup s : peer_inv s -> NoDup (peer_list s).
Proof. intros I. pose proof (ti_nodup _ _ I) as Hn. cbn [app] in Hn. now apply NoDup_app in Hn as (? & _). Qed.

#[local] Hint Resolve keeps_lp keeps_clk keeps_step keeps_adj : keeps.

(** ** One peer *)

(** What the timer asks of the files and sockets it touches. *)
Class TimerLaws `{Env} `{!TimerEnv} : Prop := {
  law_interface s : peer_inv s -> peer_inv (interface_update s) /\ peer_list (interface_update s) = peer_list s;
  law_stats s : keeps s (write_stats s);
  law_leap_file s : keeps s (check_leap_file s).2 }.

(** Every reference clock has its interface. *)
Definition clocks_ok (s : state) : Prop :=
  forall p, p ∈ peer_list s -> is_clock (peer_at s p) = true -> p_procptr (peer_at s p) <> None.

Section Timer.
Context `{EnvLaws} `{!DigestLaws} `{!TimerEnv} `{!TimerLaws}.

Lemma refclock_timer_keeps p s :
  p_procptr (peer_at s p) <> None -> exists s', refclock_timer p s = Some s' /\ keeps s s' /\ same_clocks s s'.
Proof.
  intros Hpp. unfold refclock_timer. destruct (p_procptr (peer_at s p)) as [pp|]; [| done].
  eexists. split; [reflexivity |]. set (s1 := match _ ≫= _ with None => s | Some _ => _ end).
  assert (F : keeps s s1 /\ same_clocks s s1).
  { unfold s1. destruct (_ ≫= _) as [f|] eqn:E; [| split; [apply keeps_refl | done]].
    destruct (driver_laws _ _ _ E) as (d & Ed & L). now apply (timer_keeps _ L). }
  clearbody s1. destruct (p_procptr (peer_at s1 p)) as [pp'|]; [| done].
  destruct (pp_action pp') as [act|]; [| done]. destruct (_ <=? _); [| done].
  destruct F as [K C], (law_action act p s1) as [K' C']. split; [etransitivity; [exact K | exact K'] |].
  intros q. destruct (C q) as [A B], (C' q) as [A' B']. split; [congruence | auto].
Qed.

(** The reference clocks of the first walk. *)
Definition ticking (n : nat) (s : state) : Prop := peer_inv s /\ clocks_ok s /\ res_budget (Z.of_nat (length (peer_list s))) s.

Lemma clock_tick_steady : steady ticking clock_tick.
Proof.
  intros n p s (I & C & B) Hp. unfold clock_tick.
  destruct (has FLAG_REFCLOCK (p_flags (peer_at s p))) eqn:Ef; [| exists s; split_and!; [done | by split_and! | by left]].
  destruct (refclock_timer_keeps p s (C p Hp Ef)) as (s' & -> & K & S). exists s'. split; [done |].
  pose proof (k_list _ _ K) as L. split; [| now left]. split_and!.
  - exact (keeps_inv _ _ _ K I).
  - intros q Hq Hc Hz. rewrite L in Hq. destruct (S q) as [E1 E2]. rewrite E1 in Hc. exact (C q Hq Hc (E2 Hz)).
  - rewrite L. apply (budget_same _ s); [apply K | done].
Qed.

Lemma refclock_transmit_keeps p s : exists s', refclock_transmit p s = Some s' /\ keeps s s'.
Proof.
  unfold refclock_transmit. set (s1 := upd_peer p _ s). assert (K1 : keeps s s1) by (unfold s1; auto with keeps). clearbody s1.
  pose proof (keeps_systime s s1 K1) as K2. destruct (get_systime s1) as [now s2]. cbn [snd] in K2.
  set (s3 := upd_peer p _ s2). assert (K3 : keeps s s3) by (unfold s3; auto with keeps). clearbody s3.
  match goal with |- context [mbind _ ?m] => set (step := m) end.
  assert (Hs : exists s4, step = Some s4 /\ keeps s s4).
  { unfold step; clear step. destruct (_ =? 0); [| eexists; split; [reflexivity | auto with keeps]].
    set (s4 := upd_peer p _ s3). assert (K4 : keeps s s4) by (unfold s4; auto with keeps).
    set (oreach := _ .& _). clearbody oreach s4.
    assert (Hf : exists s5, (if has (p_reach (pv (peer_at s4 p))) 15 then Some s4
        else clock_filter p dzero dzero MAXDISPERSE s4) = Some s5 /\ keeps s s5).
    { destruct (has _ 15); [eauto |]. destruct (clock_filter_total p dzero dzero MAXDISPERSE s4) as [s5 E5].
      exists s5. split; [done | exact (keeps_filter s s4 p _ _ _ s5 K4 E5)]. }
    destruct Hf as (s5 & -> & K5). cbn [mbind option_bind]. eexists. split; [reflexivity |].
    set (s6 := upd_peer p _ s5). assert (K6 : keeps s s6) by (unfold s6; auto with keeps). clearbody s6.
    repeat case_match; auto with keeps. }
  destruct Hs as (s4 & -> & K4). cbn [mbind option_bind]. eexists. split; [reflexivity |]. apply keeps_poll.
  destruct (_ ≫= _) as [f|] eqn:E; [| done]. destruct (driver_laws _ _ _ E) as (d & Ed & L).
  etransitivity; [exact K4 | now apply (poll_keeps _ L)].
Qed.

(** The associations of the second walk: every poll may cost one operation
    on the restriction lists. *)
Definition polling (n : nat) (s : state) : Prop := peer_inv s /\ res_budget (Z.of_nat n) s.

Lemma poll_peer_steady : steady polling poll_peer.
Proof.
  intros n p s (I & B) Hp. unfold poll_peer.
  set (s1 := if 0 <? _ then _ else s). assert (K1 : keeps s s1) by (unfold s1; case_match; auto with keeps). clearbody s1.
  assert (Hk : forall s', keeps s s' -> polling n s' /\ (peer_list s' = peer_list s \/ peer_list s' = UNLINK p (peer_list s))).
  { intros s' K. split; [| left; apply K]. split; [exact (keeps_inv _ _ _ K I) |].
    apply (budget_same _ s); [apply K | apply (budget_less (Z.of_nat (S n))); [lia | done]]. }
  destruct (_ <=? _); [| exists s1; split; [done | now apply Hk]].
  destruct (has FLAG_REFCLOCK _).
  { destruct (refclock_transmit_keeps p s1) as (s2 & -> & K2). exists s2. split; [done |].
    apply Hk. etransitivity; [exact K1 | exact K2]. }
  destruct (transmit_spec p s1) as (s2 & -> & I2 & L2 & B2).
  { exact (keeps_inv _ _ _ K1 I). }
  { apply (budget_same _ s); [apply K1 | apply (budget_less (Z.of_nat (S n))); [lia | done]]. }
  { now rewrite (k_list _ _ K1). }
  exists s2. split; [done |]. rewrite (k_list _ _ K1) in L2. split; [| exact L2]. split; [done |].
  apply B2; [lia |]. apply (budget_same _ s); [apply K1 | now replace (Z.of_nat n + 1) with (Z.of_nat (S n)) by lia].
Qed.

(** ** The stages *)

Lemma adj_host_clock_keeps s : keeps s (adj_host_clock s).
Proof.
  unfold adj_host_clock. set (s1 := s <|sv sys_rootdisp := _ |>).
  assert (K1 : keeps s s1) by (unfold s1; auto with keeps). clearbody s1.
  destruct (_ || _); [done |]. destruct (negb _); [auto with keeps |]. destruct (0 <? _); auto 6 with keeps.
Qed.

Lemma adj_host_clock_heap s : heap (adj_host_clock s) = heap s.
Proof.
  unfold adj_host_clock. set (s1 := s <|sv sys_rootdisp := _ |>).
  assert (E : heap s1 = heap s) by done. clearbody s1. rewrite <- E.
  destruct (_ || _); [done |]. destruct (negb _); [done |]. destruct (0 <? _); done.
Qed.

Lemma orphan_keeps s s1 : keeps s s1 -> keeps s (orphan_mode s1).
Proof. intros K. unfold orphan_mode. repeat case_match; auto 8 with keeps. Qed.

Lemma leap_keeps s s1 : keeps s s1 -> keeps s (leap_countdown s1).
Proof. intros K. unfold leap_countdown. repeat case_match; auto 8 with keeps. Qed.

Lemma huffpuff_keeps s s1 tm : keeps s s1 -> keeps s (huffpuff_stage tm s1).2.
Proof.
  intros K. unfold huffpuff_stage. destruct (_ <=? _); cbn [snd]; [| done].
  unfold huffpuff. destruct (sys_huffpuff (lp s1)); [done | auto 6 with keeps].
Qed.

Lemma stats_keeps s s1 tm : keeps s s1 -> keeps s (stats_stage tm s1).2.
Proof.
  intros K. unfold stats_stage. destruct (_ <=? _); cbn [snd]; [| done].
  set (s2 := write_stats s1). assert (K2 : keeps s s2) by (etransitivity; [exact K | apply law_stats]). clearbody s2.
  destruct (nonzero _); [| done]. pose proof (keeps_systime s s2 K2) as K3. destruct (get_systime s2) as [now s3]. cbn [snd] in K3.
  destruct (_ <? _); [| done]. set (s4 := report_event EVNT_LEAPVAL None s3).
  assert (K4 : keeps s s4) by (unfold s4; auto with keeps). clearbody s4.
  pose proof (law_leap_file s4) as K5. destruct (check_leap_file s4) as [e s5]. cbn [snd] in *. etransitivity; [exact K4 | exact K5].
Qed.

Lemma interface_inv s tm : peer_inv s -> peer_inv (interface_stage tm s).2 /\ peer_list (interface_stage tm s).2 = peer_list s.
Proof. intros I. unfold interface_stage. destruct (_ && _); [now apply law_interface | done]. Qed.

(** The first walk, over the reference clocks. *)
Lemma adjust_stage_spec tm s :
  peer_inv s -> clocks_ok s -> res_budget (Z.of_nat (length (peer_list s))) s ->
  exists tm' s', adjust_stage tm s = Some (tm', s') /\ peer_inv s' /\
    res_budget (Z.of_nat (length (peer_list s'))) s' /\ forall p, p ∈ peer_list s' -> p ∈ peer_list s.
Proof.
  intros I C B. unfold adjust_stage. destruct (_ <=? _); [| exists tm, s; done].
  pose proof (adj_host_clock_keeps s) as K. pose proof (adj_host_clock_heap s) as Hh.
  set (s1 := adj_host_clock s) in *. clearbody s1. pose proof (keeps_inv _ _ _ K I) as I1. pose proof (k_list _ _ K) as L1.
  destruct (for_peers_visits ticking clock_tick s1 clock_tick_steady (peers_nodup s1 I1)) as (s2 & -> & _ & (I2 & _ & B2) & S2).
  { split_and!; [done | |].
    - intros p Hp. rewrite L1 in Hp. specialize (C p Hp). unfold peer_at in *. now rewrite Hh.
    - rewrite L1. apply (budget_same _ s); [apply K | done]. }
  cbn [mbind option_bind]. eexists _, s2. split_and!; [reflexivity | done | done |].
  intros p Hp. apply S2 in Hp. now rewrite <- L1.
Qed.

(** C4: once a second.  The timer returns, whatever is due: both walks over
    the associations end, follow only links of structures that are still on
    the list, although polling an association may free it, and poll each
    association that was on the list exactly once, in its order; the tables
    stay consistent and no association is added. *)
Theorem timer_total (tm : timers) (s : state) :
  peer_inv s -> clocks_ok s -> res_budget (Z.of_nat (length (peer_list s))) s ->
  exists tm' s', timer tm s = Some (tm', s') /\ peer_inv s' /\
    (forall p, p ∈ peer_list s' -> p ∈ peer_list s) /\
    exists tm1 s1, adjust_stage tm (s <| current_time := u64 (current_time s + 1) |>) = Some (tm1, s1) /\
      for_peers poll_peer s1 = visit_all poll_peer (peer_list s1) s1.
Proof.
  intros I C B. unfold timer. set (s0 := s <| current_time := _ |>).
  assert (K0 : keeps s s0) by now split.
  destruct (adjust_stage_spec tm s0) as (tm1 & s1 & E1 & I1 & B1 & S1); [exact (keeps_inv _ _ _ K0 I) | exact C | exact B |].
  rewrite E1. cbn [mbind option_bind].
  destruct (for_peers_visits polling poll_peer s1 poll_peer_steady (peers_nodup s1 I1)) as (s2 & E2 & V2 & (I2 & B2) & S2); [done |].
  rewrite E2. cbn [mbind option_bind].
  pose proof (leap_keeps s2 _ (orphan_keeps s2 s2 (keeps_refl s2))) as K3.
  set (s3 := leap_countdown (orphan_mode s2)) in *. clearbody s3.
  pose proof (huffpuff_keeps s2 s3 tm1 K3) as K4. destruct (huffpuff_stage tm1 s3) as [tm4 s4]. cbn [snd] in K4.
  destruct (interface_inv s4 tm4 (keeps_inv _ _ _ K4 I2)) as [I5 L5]. destruct (interface_stage tm4 s4) as [tm5 s5]. cbn [snd] in *.
  set (tm6 := worker_stage tm5 s5). clearbody tm6.
  pose proof (stats_keeps s5 s5 tm6 (keeps_refl s5)) as K7. destruct (stats_stage tm6 s5) as [tm7 s7]. cbn [snd] in K7.
  exists tm7, s7. split; [done |]. split; [exact (keeps_inv _ _ _ K7 I5) |]. split.
  - intros p Hp. rewrite (k_list _ _ K7), L5, (k_list _ _ K4) in Hp. apply S2, S1 in Hp. exact Hp.
  - exists tm1, s1. split; [done |]. congruence.
Qed.
End Timer.

(** ** The leap second *)

Section Leap.
Context `{Env}.

(** A second before the leap. *)
Lemma leap_waits s :
  1 < leapsec (sv s) ->
  let s' := leap_countdown s in
  leapsec (sv s') = leapsec (sv s) - 1 /\ leap_tai (sv s') = leap_tai (sv s) /\ out s' = out s /\
  (leapsec (sv s') < DAY -> sys_leap (sv s') = LEAP_ADDSECOND).
Proof.
  intros Hl. cbv zeta. unfold leap_countdown. rewrite (proj2 (Z.ltb_lt _ _)) by lia.
  set (s1 := s <|sv leapsec := _ |>).
  assert (F : leapsec (sv s1) = leapsec (sv s) - 1 /\ leap_tai (sv s1) = leap_tai (sv s) /\ out s1 = out s) by done.
  clearbody s1. destruct F as (F1 & F2 & F3). rewrite (proj2 (Z.eqb_neq _ _)) by lia. cbv zeta.
  destruct (Z.ltb_spec (leapsec (sv s1)) DAY) as [Hd | Hd].
  - destruct (0 <? _); cbn; rewrite ?F1, ?F2, ?F3; done.
  - destruct (0 <? _); cbn; rewrite ?F1, ?F2, ?F3; (split_and!; [done | done | done |]); intros; lia.
Qed.

(** The leap itself. *)
Lemma leap_strikes s :
  leapsec (sv s) = 1 ->
  let s' := leap_countdown s in
  leapsec (sv s') = 0 /\ sys_leap (sv s') = LEAP_NOWARNING /\ sys_tai (sv s') = u32 (leap_tai (sv s)) /\
  sent_steps s s' [dneg (dofZ 1)].
Proof.
  intros Hl. cbv zeta. unfold leap_countdown. rewrite Hl. cbn [Z.ltb Z.compare Z.sub Z.add Z.opp Z.pos_sub].
  match goal with |- context [if leapsec (sv ?x) =? 0 then _ else _] => set (s1 := x) end.
  assert (F : leapsec (sv s1) = 0 /\ leap_tai (sv s1) = leap_tai (sv s) /\ out s1 = out s) by done.
  clearbody s1. destruct F as (F1 & F2 & F3). rewrite F1. cbn [Z.eqb]. cbv zeta.
  set (s2 := step_systime _ _).
  assert (G : leapsec (sv s2) = 0 /\ sys_leap (sv s2) = LEAP_NOWARNING /\ sys_tai (sv s2) = u32 (leap_tai (sv s)) /\
              out s2 = out s ++ [StepTime (dneg (dofZ 1))]).
  { rewrite <- F1, <- F2, <- F3. done. }
  clearbody s2. destruct G as (G1 & G2 & G3 & G4). destruct (report_frame EVNT_LEAP s2) as [(_ & V & _) (o & O & So)].
  rewrite V. split_and!; [done | done | done |]. exists ([StepTime (dneg (dofZ 1))] ++ o). split.
  - now rewrite O, G4, app_assoc.
  - unfold steps_of in *. rewrite omap_app, So. done.
Qed.

(** C21: a leap second is inserted once.  With the leap [n] seconds away, the
    clock is left alone until then, with the leap bits set during the last
    day; at the leap it is stepped back by one second, once, the TAI offset
    is brought up to date and the bits are cleared, and from then on the
    countdown is over. *)
Theorem leap_second_once (n : nat) (s : state) :
  leapsec (sv s) = Z.of_nat (S n) ->
  (forall k, (0 < k <= n)%nat -> let s' := Nat.iter k leap_countdown s in
     out s' = out s /\ (leapsec (sv s') < DAY -> sys_leap (sv s') = LEAP_ADDSECOND)) /\
  let s' := Nat.iter (S n) leap_countdown s in
  leapsec (sv s') = 0 /\ sys_leap (sv s') = LEAP_NOWARNING /\ sys_tai (sv s') = u32 (leap_tai (sv s)) /\
  sent_steps s s' [dneg (dofZ 1)] /\ leap_countdown s' = s'.
Proof.
  intros Hn.
  assert (Hw : forall k, (k <= n)%nat -> let s' := Nat.iter k leap_countdown s in
    leapsec (sv s') = Z.of_nat (S n) - Z.of_nat k /\ leap_tai (sv s') = leap_tai (sv s) /\ out s' = out s /\
    ((0 < k)%nat -> leapsec (sv s') < DAY -> sys_leap (sv s') = LEAP_ADDSECOND)).
  { induction k as [|k IH]; intros Hk; cbv zeta.
    - cbn [Nat.iter nat_rect]. split_and!; [lia | done | done | lia].
    - destruct IH as (A & B & C & _); [lia |]. change (Nat.iter (S k) leap_countdown s) with (leap_countdown (Nat.iter k leap_countdown s)).
      set (sk := Nat.iter k leap_countdown s) in *. clearbody sk.
      destruct (leap_waits sk) as (W1 & W2 & W3 & W4); [lia |]. split_and!; [lia | congruence | congruence | auto]. }
  split; [intros k Hk; destruct (Hw k) as (_ & _ & C & D); [lia |]; split; [exact C | apply D; lia] |].
  cbv zeta. destruct (Hw n ltac:(lia)) as (A & B & C & _).
  change (Nat.iter (S n) leap_countdown s) with (leap_countdown (Nat.iter n leap_countdown s)).
  set (sn := Nat.iter n leap_countdown s) in *. clearbody sn.
  destruct (leap_strikes sn) as (S1 & S2 & S3 & S4); [lia |].
  set (s' := leap_countdown sn) in *. clearbody s'. split_and!; [done | done | now rewrite S3, B | |].
  - destruct S4 as (o & O & So). exists o. split; [now rewrite O, C | done].
  - unfold leap_countdown. now rewrite S1.
Qed.
End Leap.

(** ** Closed instances *)

Definition sample_timer_env : TimerEnv := {|
  interface_update := fun s => s; write_stats := fun s => s; check_leap_file := fun s => (0, s) |}.

Definition sample_timers : timers := mk_timers 300 300 1 3600 0 0 0 0 0 0 0 0.

Lemma sample_timer_laws : @TimerLaws sample_env sample_timer_env.
Proof. split; intros s; [done | apply keeps_refl | apply keeps_refl]. Qed.

Lemma timer_total_witness :
  exists tm' s', @timer sample_env sample_timer_env sample_timers sample_state = Some (tm', s') /\ peer_inv s'.
Proof.
  destruct sample_engine_ok as (I & B & _).
  destruct (@timer_total sample_env _ _ sample_timer_env sample_timer_laws sample_timers sample_state I) as (tm' & s' & E & I' & _).
  - intros p Hp Hc. change (p ∈ [1]) in Hp. apply list_elem_of_singleton in Hp as ->. discriminate Hc.
  - exact (budget_less 2 1 sample_state ltac:(lia) B).
  - exists tm', s'. split; [exact E | exact I'].
Defined.

Lemma leap_second_once_witness :
  let s := sample_state <|sv leapsec := 3 |> in
  sent_steps s (Nat.iter 3 (@leap_countdown sample_env) s) [dneg (dofZ 1)].
Proof.
  set (s := sample_state <|sv leapsec := 3 |>).
  exact (proj1 (proj2 (proj2 (proj2 (proj2 (@leap_second_once sample_env 2 s eq_refl)))))).
Defined.
