(* ===== verification/LeapTimer.v ===== *)
(** * The leap second file under the event timer

    [TimerEnv] leaves the leap second file to its instance; here it is the
    reader of Stats.v, which discharges the law the timer asks of it, so that
    the theorems on the timer hold for it. *)

From S2P Require Import Prelude FixedPoint Double Lists NtpTypes AuthKeys Monitor Restrict State ProtoBase LoopFilter Refclock Peer PeerFacts Select Filter RefclockPoll Transmit Timer EngineFacts TimerFacts Stats StatsFacts.
From stdpp Require Import base gmap list.
#[local] Open Scope Z_scope.

Section LeapTimer.
Context `{Env} (base : TimerEnv).
(** The file as the timer finds it, and the times and expiration known. *)
Context (fp : option (option file_times * list Z)) (named : bool) (sb1 : file_times) (expire : Z).

Definition known_leaps (s : state) : leap_vars := mk_leap_vars named sb1 (mk_leap (leap_tai (sv s)) (leap_sec (sv s)) expire).
Definition read_leaps (s : state) : leap_table := leap_data (Stats.check_leap_file fp (known_leaps s)).

#[local] Instance leap_env : TimerEnv := {|
  interface_update := @interface_update base;
  write_stats := @write_stats base;
  Timer.check_leap_file := fun s =>
    let t := read_leaps s in
    (lt_expire t, (s <|sv leap_tai := lt_tai t |>) <|sv leap_sec := lt_sec t |>) |}.

Lemma leap_env_laws : @TimerLaws _ base -> @TimerLaws _ leap_env.
Proof.
  intros [L1 L2 L3]. split; [exact L1 | exact L2 |]. intros s. cbn. apply keeps_sv, keeps_sv, keeps_refl.
Qed.

(** The hourly stage, when the table has expired. *)
Lemma stats_stage_reads tm s now s1 :
  stats_timer tm <= current_time s -> sys_tai (sv (@write_stats base s)) <> 0 -> get_systime (@write_stats base s) = (now, s1) ->
  leap_expire tm < l_ui now ->
  let s2 := report_event EVNT_LEAPVAL None s1 in
  exists tm' s', @stats_stage _ leap_env tm s = (tm', s') /\
    leap_expire tm' = lt_expire (read_leaps s2) /\ leap_tai (sv s') = lt_tai (read_leaps s2) /\ leap_sec (sv s') = lt_sec (read_leaps s2).
Proof.
  intros Ht Hs Hg He s2. unfold stats_stage. rewrite (proj2 (Z.leb_le _ _) Ht). cbn [write_stats leap_env].
  assert (nonzero (sys_tai (sv (@write_stats base s))) = true) as -> by (unfold nonzero; apply negb_true_iff, Z.eqb_neq; exact Hs).
  rewrite Hg.
  match goal with |- context [leap_expire ?t <? l_ui now] => change (leap_expire t) with (leap_expire tm) end.
  rewrite (proj2 (Z.ltb_lt _ _) He).
  eexists _, _. split; [reflexivity |]. done.
Qed.
End LeapTimer.

(** The timer takes over a new leap second file: when the table has expired
    and a changed file with a table in sequence is there, the hourly stage
    sets the last leap, its offset and the new expiration. *)
Theorem leap_file_taken `{Env} (base : TimerEnv) l sb1 sb2 expire tm s now s1 :
  Forall item_ok l -> in_sequence 10 (omap leap_offset l) -> omap leap_offset l <> [] -> sb1 <> sb2 ->
  stats_timer tm <= current_time s -> sys_tai (sv (@write_stats base s)) <> 0 -> get_systime (@write_stats base s) = (now, s1) ->
  leap_expire tm < l_ui now ->
  exists tm' s', @stats_stage _ (leap_env base (Some (Some sb2, leap_text l)) true sb1 expire) tm s = (tm', s') /\
    leap_expire tm' = default 0 (last (omap expiration l)) /\ leap_tai (sv s') = 9 + Z.of_nat (length (omap leap_offset l)) /\
    leap_sec (sv s') = default 0 (last (omap leap_second l)).
Proof.
  intros F S Ne Hb Ht Hs Hg He.
  destruct (stats_stage_reads base (Some (Some sb2, leap_text l)) true sb1 expire tm s now s1 Ht Hs Hg He) as (tm' & s' & E & E1 & E2 & E3).
  exists tm', s'. split; [exact E |]. rewrite E1, E2, E3. unfold read_leaps. rewrite check_leap_changed, leap_file_text by done. cbv zeta.
  now rewrite decide_True by done.
Qed.
