(* ===== verification/Control.v ===== *)
(** * The mode 6 server: messages (ntpd/ntp_control.c, include/ntp_control.h)

    The state of the server with its one response packet, the assembly and
    fragmentation of a response ([ctl_putdata], [ctl_flushpkt]), the error
    response, the formatters of one variable and the parser of a request
    ([ctl_getitem]).  [None] is a failed assertion or a write outside a
    buffer.  The rest of the daemon is the engine state [eng]. *)

From Stdlib Require Import Ascii String.
From S2P Require Import Prelude FixedPoint Double Lists NtpTypes Text AuthKeys Monitor Restrict State ProtoBase.
From stdpp Require Import base gmap list.
#[local] Open Scope Z_scope.

Definition CTL_HEADER_LEN : Z := 12.
Definition CTL_MAX_DATA_LEN : Z := 468.
Definition CTL_DATA_SIZE : Z := 480 + MAX_MAC_LEN.
Definition CTL_MAXTRAPS : Z := 3.
Definition CTL_TRAPTIME : Z := 3600.
Definition CTL_RESPONSE : Z := 0x80.
Definition CTL_ERROR : Z := 0x40.
Definition CTL_MORE : Z := 0x20.
Definition CTL_OP_MASK : Z := 0x1f.
Definition MAXDATALINELEN : Z := 72.

Definition CERR_UNSPEC : Z := 0.
Definition CERR_PERMISSION : Z := 1.
Definition CERR_BADFMT : Z := 2.
Definition CERR_BADOP : Z := 3.
Definition CERR_BADASSOC : Z := 4.
Definition CERR_UNKNOWNVAR : Z := 5.
Definition CERR_BADVALUE : Z := 6.
Definition CERR_NORESOURCE : Z := CERR_PERMISSION.

Definition TRAP_INUSE : Z := 0x1.
Definition TRAP_NONPRIO : Z := 0x2.
Definition TRAP_CONFIGURED : Z := 0x4.

(** ** State *)

Record ctl_trap := mk_trap {
  tr_addr : sockaddr; tr_localaddr : option Z; tr_settime : Z; tr_count : Z; tr_origtime : Z;
  tr_resets : Z; tr_sequence : Z; tr_flags : Z; tr_version : Z }.
#[export] Instance eta_trap : Eta ctl_trap := fun r =>
  mk_trap (tr_addr r) (tr_localaddr r) (tr_settime r) (tr_count r) (tr_origtime r)
    (tr_resets r) (tr_sequence r) (tr_flags r) (tr_version r).
Definition zero_trap : ctl_trap := mk_trap (mk_sockaddr 0 0 0 0) None 0 0 0 0 0 0 0.

(** [struct ctl_var]; the entry that ends a list ([EOV]) is the list's end. *)
Record ctl_var := mk_var { v_code : Z; v_flags : Z; v_text : list Z }.
Definition CAN_READ : Z := 0x01.
Definition CAN_WRITE : Z := 0x02.
Definition DEF : Z := 0x20.
Definition PADDING : Z := 0x40.
Definition RO : Z := CAN_READ.
Definition RW : Z := CAN_READ .| CAN_WRITE.

Record ctl_stats := mk_stats {
  ctltimereset : Z; numctlreq : Z; numctlbadpkts : Z; numctlresponses : Z; numctlfrags : Z;
  numctlerrors : Z; numctltooshort : Z; numctlinputresp : Z; numctlinputfrag : Z; numctlinputerr : Z;
  numctlbadoffset : Z; numctlbadversion : Z; numctldatatooshort : Z; numctlbadop : Z; numasyncmsgs : Z }.
#[export] Instance eta_stats : Eta ctl_stats := fun r =>
  mk_stats (ctltimereset r) (numctlreq r) (numctlbadpkts r) (numctlresponses r) (numctlfrags r)
    (numctlerrors r) (numctltooshort r) (numctlinputresp r) (numctlinputfrag r) (numctlinputerr r)
    (numctlbadoffset r) (numctlbadversion r) (numctldatatooshort r) (numctlbadop r) (numasyncmsgs r).

(** [rpkt]: the fields in host order; [rp_data] is [rpkt.u.data]. *)
Record rpkt := mk_rpkt {
  rp_li_vn_mode : Z; rp_r_m_e_op : Z; rp_sequence : Z; rp_status : Z; rp_associd : Z;
  rp_offset : Z; rp_count : Z; rp_data : list Z }.
#[export] Instance eta_rpkt : Eta rpkt := fun r =>
  mk_rpkt (rp_li_vn_mode r) (rp_r_m_e_op r) (rp_sequence r) (rp_status r) (rp_associd r)
    (rp_offset r) (rp_count r) (rp_data r).

(** The statics of ntp_control.c.  [datapt] is an index into [rp_data], [req]
    the text from [reqpt] to [reqend]; an empty [ext_sys_var] is a list
    without entries or the null pointer. *)
Record ctl := mk_ctl {
  eng : state; cs : ctl_stats; rp : rpkt;
  res_version : Z; res_opcode : Z; res_associd : Z; res_frags : Z; res_offset : Z; datapt : Z;
  datalinelen : Z; datanotbinflag : bool; rmt_addr : sockaddr; lcl_inter : option Z;
  res_authenticate : bool; res_authokay : bool; res_keyid : Z; res_async : bool; req : list Z;
  ctl_auth_keyid : Z; ctl_traps : list ctl_trap; num_ctl_traps : Z; ext_sys_var : list ctl_var;
  salt : Z; conf_file_sum : Z; c_rand : Z }.
#[export] Instance eta_ctl : Eta ctl := fun r =>
  mk_ctl (eng r) (cs r) (rp r) (res_version r) (res_opcode r) (res_associd r) (res_frags r)
    (res_offset r) (datapt r) (datalinelen r) (datanotbinflag r) (rmt_addr r) (lcl_inter r)
    (res_authenticate r) (res_authokay r) (res_keyid r) (res_async r) (req r) (ctl_auth_keyid r)
    (ctl_traps r) (num_ctl_traps r) (ext_sys_var r) (salt r) (conf_file_sum r) (c_rand r).

Notation "c <|rp f := v |>" := (setter rp (setter f v (rp c)) c) (at level 1, left associativity).
(** [counter++] *)
Notation "c .+ f" := (setter cs (setter f (u64 (f (cs c) + 1)) (cs c)) c) (at level 1, left associativity, f at level 0).

Definition be16 : Z -> list Z := be_bytes 2.

(** The packet as it is sent. *)
Definition rpkt_bytes (r : rpkt) : list Z :=
  [rp_li_vn_mode r; rp_r_m_e_op r] ++ be16 (rp_sequence r) ++ be16 (rp_status r) ++ be16 (rp_associd r)
  ++ be16 (rp_offset r) ++ be16 (rp_count r) ++ rp_data r.

(** ** Sending *)

Definition ctl_sendpkt (dest : sockaddr) (ep : option Z) (ttl len : Z) (bytes : list Z) (c : ctl) : ctl :=
  c <| eng := emit (Sendpkt dest ep ttl (take (Z.to_nat len) bytes)) (eng c) |>.

(** [*datapt++ = ...], [memcpy(datapt, ...); datapt += ...] *)
Definition put (bs : list Z) (c : ctl) : option ctl :=
  d ← poke (datapt c) bs (rp_data (rp c));
  Some (c <|rp rp_data := d |> <| datapt := datapt c + Z.of_nat (length bs) |>).

(** The zeros up to the next multiple of [m]. *)
Definition padding (len m : Z) : list Z := replicate (Z.to_nat ((- len) mod m)) 0.

Section Ctl.
Context `{Env}.

(** [authencrypt] on the packet: the response with its MAC, and its length. *)
Definition sign_rpkt (len : Z) (c : ctl) : option (Z * list Z * ctl) :=
  '(maclen, bytes, a) ← authencrypt (res_keyid c) (rpkt_bytes (rp c)) len (auth (eng c));
  Some (maclen, bytes, c <| eng := (eng c) <| auth := a |> |> <|rp rp_data := drop (Z.to_nat CTL_HEADER_LEN) bytes |>).

Definition ctl_error (errcode : Z) (c : ctl) : option ctl :=
  let c := c .+ numctlerrors in
  let c := c <|rp rp_r_m_e_op := CTL_RESPONSE .| CTL_ERROR .| (res_opcode c .& CTL_OP_MASK) |>
             <|rp rp_status := Z.shiftl errcode 8 .& 0xff00 |> <|rp rp_count := 0 |> in
  if res_authenticate c && nonzero (sys_authenticate (cf (eng c))) then
    '(maclen, bytes, c) ← sign_rpkt CTL_HEADER_LEN c;
    Some (ctl_sendpkt (rmt_addr c) (lcl_inter c) (-2) (CTL_HEADER_LEN + maclen) bytes c)
  else Some (ctl_sendpkt (rmt_addr c) (lcl_inter c) (-3) CTL_HEADER_LEN (rpkt_bytes (rp c)) c).

(** One trap message of [ctl_flushpkt]. *)
Definition flush_trap (more sendlen : Z) (c : ctl) (i : nat) : ctl :=
  match ctl_traps c !! i with
  | Some t =>
      if has TRAP_INUSE (tr_flags t) then
        let c := c <|rp rp_li_vn_mode := PKT_LI_VN_MODE (sys_leap (sv (eng c))) (tr_version t) MODE_CONTROL |>
                   <|rp rp_sequence := tr_sequence t |> in
        let c := ctl_sendpkt (tr_addr t) (tr_localaddr t) (-4) sendlen (rpkt_bytes (rp c)) c in
        let c := if more =? 0
                 then c <| ctl_traps := <[i := t <| tr_sequence := u16 (tr_sequence t + 1) |>]> (ctl_traps c) |>
                 else c in
        c .+ numasyncmsgs
      else c
  | None => c
  end.

(** The packet handed to the socket layer. *)
Definition flush_send (more sendlen : Z) (c : ctl) : option ctl :=
  if res_async c then Some (fold_left (flush_trap more sendlen) (seq 0 (length (ctl_traps c))) c)
  else
    c ← (if res_authenticate c && nonzero (sys_authenticate (cf (eng c))) then
           let pad := padding sendlen 8 in
           let totlen := sendlen + Z.of_nat (length pad) in
           c ← put pad c;
           c ← (d ← poke (datapt c) (be32 (res_keyid c)) (rp_data (rp c)); Some (c <|rp rp_data := d |>));
           '(maclen, bytes, c) ← sign_rpkt totlen c;
           Some (ctl_sendpkt (rmt_addr c) (lcl_inter c) (-5) (totlen + maclen) bytes c)
         else Some (ctl_sendpkt (rmt_addr c) (lcl_inter c) (-6) sendlen (rpkt_bytes (rp c)) c));
    Some (if more =? 0 then c .+ numctlresponses else c .+ numctlfrags).

Definition ctl_flushpkt (more : Z) (c : ctl) : option ctl :=
  let dlen := datapt c in
  '(dlen, c) ← (if (more =? 0) && datanotbinflag c && (dlen + 2 <? CTL_MAX_DATA_LEN)
                then c ← put [13; 10] c; Some (dlen + 2, c) else Some (dlen, c));
  let sendlen := dlen + CTL_HEADER_LEN in
  let pad := padding sendlen 4 in
  c ← put pad c;
  let sendlen := sendlen + Z.of_nat (length pad) in
  let c := c <|rp rp_r_m_e_op := CTL_RESPONSE .| more .| (res_opcode c .& CTL_OP_MASK) |>
             <|rp rp_count := u16 dlen |> <|rp rp_offset := u16 (res_offset c) |> in
  c ← flush_send more sendlen c;
  Some (c <| res_frags := u16 (res_frags c + 1) |> <| res_offset := s32 (res_offset c + dlen) |> <| datapt := 0 |>).

(** The separator before a text item. *)
Definition put_separator (dlen : Z) (c : ctl) : option ctl :=
  let c := c <| datanotbinflag := true |> in
  if datapt c =? 0 then Some c
  else
    c ← put [44] c;
    let c := c <| datalinelen := s32 (datalinelen c + 1) |> in
    if MAXDATALINELEN <=? u32 (dlen + datalinelen c + 1)
    then c ← put [13; 10] c; Some (c <| datalinelen := 0 |>)
    else c ← put [32] c; Some (c <| datalinelen := s32 (datalinelen c + 1) |>).

Definition ctl_putdata (dp : list Z) (bin : bool) (c : ctl) : option ctl :=
  let dlen := Z.of_nat (length dp) in
  let overhead := if bin then 0 else 3 in
  c ← (if bin then Some c else put_separator dlen c);
  c ← (if CTL_MAX_DATA_LEN <? dlen + overhead + datapt c then ctl_flushpkt CTL_MORE c else Some c);
  c ← put dp c;
  Some (c <| datalinelen := s32 (datalinelen c + dlen) |>).

(** ** One variable *)

(** Buffers of 512 and 200 characters. *)
Definition ctl_putstr (tag data : list Z) (c : ctl) : option ctl :=
  if 0 <? Z.of_nat (length data) then
    if Z.of_nat (length tag) + 3 + Z.of_nat (length data) <=? 512
    then ctl_putdata (tag ++ 61 :: 34 :: data ++ [34]) false c else None
  else ctl_putdata tag false c.
Definition ctl_putunqstr (tag data : list Z) (c : ctl) : option ctl :=
  if 0 <? Z.of_nat (length data) then
    if Z.of_nat (length tag) + 1 + Z.of_nat (length data) <=? 512
    then ctl_putdata (tag ++ 61 :: data) false c else None
  else ctl_putdata tag false c.

(** [tag=value] in a buffer of 200 characters; [snprintf] cuts the value. *)
Definition put_tagged (tag value : list Z) (c : ctl) : option ctl :=
  let room := 200 - Z.of_nat (length tag) - 1 in
  if 0 <? room then ctl_putdata (tag ++ 61 :: take (Z.to_nat (room - 1)) value) false c else None.
Definition ctl_putdblf (tag : list Z) (prec : nat) (d : double) : ctl -> option ctl := put_tagged tag (fmt_f prec d).
Definition ctl_putdbl (tag : list Z) (d : double) : ctl -> option ctl := ctl_putdblf tag 3 d.
Definition ctl_putdbl6 (tag : list Z) (d : double) : ctl -> option ctl := ctl_putdblf tag 6 d.
Definition ctl_putuint (tag : list Z) (uval : Z) : ctl -> option ctl := put_tagged tag (fmt_u uval).
Definition ctl_puthex (tag : list Z) (uval : Z) : ctl -> option ctl := put_tagged tag (txt "0x" ++ fmt_x uval).
Definition ctl_putint (tag : list Z) (ival : Z) : ctl -> option ctl := put_tagged tag (fmt_d ival).
Definition ctl_putts (tag : list Z) (ts : l_fp) : ctl -> option ctl :=
  put_tagged tag (txt "0x" ++ pad0 8 (fmt_x (l_ui ts)) ++ 46 :: pad0 8 (fmt_x (l_uf ts))).
Definition ctl_putadr `{NetText} (tag : list Z) (addr32 : Z) (addr : option sockaddr) : ctl -> option ctl :=
  put_tagged tag (match addr with None => numtoa addr32 | Some a => socktoa (Some a) end).

(** In a buffer of 16 characters; the identifier ends at a NUL. *)
Definition ctl_putrefid (tag : list Z) (refid : Z) (c : ctl) : option ctl :=
  if Z.of_nat (length tag) + 1 <? 16 then
    let text := map (fun ch => if isprint ch then ch else 46) (span (fun ch => nonzero ch) (be_bytes 4 refid)) in
    ctl_putdata (tag ++ 61 :: take (16 - length tag - 1) text) false c
  else Some c.

(** The eight values from the newest back, each rounded after scaling. *)
Definition shift_order (start : Z) : list Z := map (fun i => (start - 1 - i) mod NTP_SHIFT) (zrange 0 8).
Definition ctl_putarray (tag : list Z) (arr : list double) (start : Z) : ctl -> option ctl :=
  put_tagged tag (concat (map (fun i => 32 :: fmt_f 2 (nth (Z.to_nat i) arr dzero *d dofZ 1000)) (shift_order start))).

(** ** The next item of a request *)

Inductive item := NoItem | EndOfVars | Item (v : ctl_var) (value : list Z).

(** The name of the variable against the request; the rest of the request. *)
Fixpoint match_tag (text cp : list Z) : option (list Z) :=
  match text with
  | [] => Some cp
  | p :: text =>
      if p =? 61 then Some cp
      else match cp with
           | [] => None
           | ch :: cp => if ch =? p then match_tag text cp else None
           end
  end.

(** The characters of a C string, and a string without trailing white space. *)
Definition cstr (l : list Z) : list Z := span (fun ch => nonzero ch) l.
Definition trim_right (l : list Z) : list Z := rev (skip isspace (rev l)).

(** What follows a name that matches: [inl] is the value that does not fit the
    buffer of 128 characters, [inr None] no match. *)
Definition match_value (cp : list Z) : unit + option (list Z * list Z) :=
  match skip isspace cp with
  | [] => inr (Some ([], []))
  | ch :: cp =>
      if ch =? 44 then inr (Some ([], cp))
      else if ch =? 61 then
        let cp := skip isspace cp in
        let value := span (fun ch => negb (ch =? 44)) cp in
        if 128 <=? Z.of_nat (length value) then inl tt
        else inr (Some (cstr (trim_right value), drop (S (length value)) cp))
      else inr None
  end.

Fixpoint scan_vars (vars : list ctl_var) (reqpt : list Z) : unit + option (ctl_var * list Z * list Z) :=
  match vars with
  | [] => inr None
  | v :: vars =>
      if negb (has PADDING (v_flags v)) && (hd 0 reqpt =? hd 0 (v_text v)) then
        match match_tag (v_text v) reqpt with
        | None => scan_vars vars reqpt
        | Some cp =>
            match match_value cp with
            | inl tt => inl tt
            | inr (Some (value, rest)) => inr (Some (v, value, rest))
            | inr None => scan_vars vars reqpt
            end
        end
      else scan_vars vars reqpt
  end.

Definition ctl_getitem (vars : list ctl_var) (c : ctl) : option (item * ctl) :=
  let c := c <| req := skip (fun ch => (ch =? 44) || isspace ch) (req c) |> in
  match req c with
  | [] => Some (NoItem, c)
  | _ =>
      match scan_vars vars (req c) with
      | inl tt => c ← ctl_error CERR_BADFMT c; Some (NoItem, c .+ numctlbadpkts)
      | inr None => Some (EndOfVars, c)
      | inr (Some (v, value, rest)) => Some (Item v value, c <| req := rest |>)
      end
  end.
End Ctl.
