(* ===== verification/ControlVars.v ===== *)
(** * The mode 6 server: the variables (ntpd/ntp_control.c)

    The tables of system, peer and clock variables, and the routines that put
    one variable into the response.  The build has no AUTOKEY and no
    KERNEL_PLL, so the variables of the kernel read as zero, and no ASSYM,
    so the data rates of a peer are zero. *)

From Stdlib Require Import Ascii String.
From S2P Require Import Prelude FixedPoint Calendar Double Lists NtpTypes Text AuthKeys Monitor Restrict State ProtoBase Peer Refclock Filter RefclockPoll Control.
From stdpp Require Import base gmap list.
#[local] Open Scope Z_scope.

(** ** Tables *)

Fixpoint number_vars (code : Z) (flags : Z) (names : list string) : list ctl_var :=
  match names with
  | [] => []
  | n :: names => mk_var code flags (chars n) :: number_vars (code + 1) flags names
  end.
Definition padding_var : ctl_var := mk_var 0 PADDING [].

Definition sys_var : list ctl_var :=
  padding_var :: mk_var 1 RW (txt "leap") :: number_vars 2 RO
    ["stratum"; "precision"; "rootdelay"; "rootdisp"; "refid"; "reftime"; "tc"; "peer"; "offset";
     "frequency"; "sys_jitter"; "clk_jitter"; "clock"; "processor"; "system"; "version"; "clk_wander";
     "sys_var_list"; "tai"; "leapsec"; "expire"; "mintc"; "mru_enabled"; "mru_depth"; "mru_deepest";
     "mru_mindepth"; "mru_maxage"; "mru_maxdepth"; "mru_mem"; "mru_maxmem"; "ss_uptime"; "ss_reset";
     "ss_received"; "ss_thisver"; "ss_oldver"; "ss_badformat"; "ss_badauth"; "ss_declined";
     "ss_restricted"; "ss_limited"; "ss_kodsent"; "ss_processed"; "peeradr"; "peermode"; "bcastdelay";
     "authdelay"; "authkeys"; "authfreek"; "authklookups"; "authknotfound"; "authkuncached";
     "authkexpired"; "authencrypts"; "authdecrypts"; "authreset"; "koffset"; "kfreq"; "kmaxerr";
     "kesterr"; "kstflags"; "ktimeconst"; "kprecis"; "kfreqtol"; "kppsfreq"; "kppsstab"; "kppsjitter";
     "kppscalibdur"; "kppscalibs"; "kppscaliberrs"; "kppsjitexc"; "kppsstbexc"; "iostats_reset";
     "total_rbuf"; "free_rbuf"; "used_rbuf"; "rbuf_lowater"; "io_dropped"; "io_ignored"; "io_received";
     "io_sent"; "io_sendfailed"; "io_wakeups"; "io_goodwakeups"; "timerstats_reset"; "timer_overruns";
     "timer_xmts"; "fuzz"]%string.
Definition CS_VARLIST : Z := 19.
Definition CS_MAXCODE : Z := 88.

(** version, processor, system, leap, stratum, precision, rootdelay,
    rootdisp, refid, reftime, clock, peer, tc, mintc, offset, frequency,
    sys_jitter, clk_jitter, clk_wander, tai, leapsec, expire *)
Definition def_sys_var : list Z :=
  [17; 15; 16; 1; 2; 3; 4; 5; 6; 7; 14; 9; 8; 23; 10; 11; 12; 13; 18; 20; 21; 22].

Definition peer_var : list ctl_var :=
  padding_var :: number_vars 1 RO
    ["config"; "authenable"; "authentic"; "srcadr"; "srcport"; "dstadr"; "dstport"; "leap"; "hmode";
     "stratum"; "ppoll"; "hpoll"; "precision"; "rootdelay"; "rootdisp"; "refid"; "reftime"; "org"; "rec";
     "xleave"; "reach"; "unreach"; "timer"; "delay"; "offset"; "jitter"; "dispersion"; "keyid";
     "filtdelay"; "filtoffset"; "pmode"; "received"; "sent"; "filtdisp"; "flash"; "ttl"; "peer_var_list";
     "in"; "out"; "headway"; "bias"; "srchost"; "timerec"; "timereach"; "badauth"; "bogusorg"; "oldpkt";
     "seldisp"; "selbroken"; "candidate"]%string.
Definition CP_MAXCODE : Z := 50.

(** srcadr, srcport, srchost, dstadr, dstport, out, in, leap, stratum,
    precision, rootdelay, rootdisp, refid, reftime, rec, reach, unreach,
    hmode, pmode, hpoll, ppoll, headway, flash, keyid, ttl, offset, delay,
    dispersion, jitter, xleave, bias, filtdelay, filtoffset, filtdisp *)
Definition def_peer_var : list Z :=
  [4; 5; 42; 6; 7; 39; 38; 8; 10; 13; 14; 15; 16; 17; 19; 21; 22; 9; 31; 12; 11; 40; 35; 28; 36; 25; 24;
   27; 26; 20; 41; 29; 30; 34].

Definition clock_var : list ctl_var :=
  padding_var :: number_vars 1 RO
    ["type"; "timecode"; "poll"; "noreply"; "badformat"; "baddata"; "fudgetime1"; "fudgetime2"; "stratum";
     "refid"; "flags"; "device"; "clock_var_list"]%string.
Definition CC_MAXCODE : Z := 13.

(** device, type, timecode, poll, noreply, badformat, baddata, fudgetime1,
    fudgetime2, stratum, refid, flags *)
Definition def_clock_var : list Z := [12; 1; 2; 3; 4; 5; 6; 7; 8; 9; 10; 11].

Definition text_of (vars : list ctl_var) (id : Z) : list Z := v_text (nth (Z.to_nat id) vars padding_var).

(** ** Status words *)

Definition CTL_PST_CONFIG : Z := 0x80.
Definition CTL_PST_AUTHENABLE : Z := 0x40.
Definition CTL_PST_AUTHENTIC : Z := 0x20.
Definition CTL_PST_REACH : Z := 0x10.
Definition CTL_PST_BCAST : Z := 0x08.

Definition CTL_PEER_STATUS (status nevnt evnt : Z) : Z :=
  (Z.shiftl status 8 .& 0xff00) .| (Z.shiftl nevnt 4 .& 0x00f0) .| (evnt .& 0x000f).
Definition CTL_SYS_STATUS (li source nevnt evnt : Z) : Z :=
  (Z.shiftl (u16 li) 14 .& 0xc000) .| (Z.shiftl source 8 .& 0x3f00) .| (Z.shiftl nevnt 4 .& 0x00f0) .| (evnt .& 0x000f).

Definition ctlpeerstatus (r : peer) : Z :=
  let bit (b : bool) (x : Z) := if b then x else 0 in
  let status := p_status (pv r)
    .| bit (has FLAG_CONFIG (p_flags r)) CTL_PST_CONFIG
    .| bit (nonzero (p_keyid r)) CTL_PST_AUTHENABLE
    .| bit (has FLAG_AUTHENTIC (p_flags r)) CTL_PST_AUTHENTIC
    .| bit (nonzero (p_reach (pv r))) CTL_PST_REACH
    .| bit (has MDF_TXONLY_MASK (p_cast_flags r)) CTL_PST_BCAST in
  u16 (CTL_PEER_STATUS (u16 status) (p_num_events r) (p_last_event r)).

Definition ctlclkstatus (pcs : refclockstat) : Z :=
  u16 (CTL_PEER_STATUS 0 (rs_lastevent pcs) (rs_currentstatus pcs)).

(** Reference clock types to time sources. *)
Definition clocktypes : list Z :=
  [6; 5; 4; 3; 2; 4; 4; 3; 2; 2; 4; 4; 4; 1; 2; 6; 4; 4; 9; 3; 4; 4; 1; 6; 6; 6; 4; 2; 4; 4; 4; 4; 2; 2; 2; 2;
   3; 2; 4; 4; 2; 4; 4; 4; 4; 4].

(** ** What the server reads elsewhere

    The identification of the host, the counters of the I/O, timer and
    buffer code, and what a driver publishes of its clock. *)
Class CtlEnv := {
  ctl_text :: NetText;
  uts_machine : list Z; uts_sysname : list Z; uts_release : list Z; Version : list Z;
  sizeof_mon_entry : Z; leap_expire : Z; sys_stattime : Z; auth_timereset : Z; io_timereset : Z;
  total_recvbuffs : Z; free_recvbuffs : Z; full_recvbuffs : Z; lowater_additions : Z;
  packets_dropped : Z; packets_ignored : Z; packets_received : Z; packets_sent : Z; packets_notsent : Z;
  handler_calls : Z; handler_pkts : Z; timer_timereset : Z; alarm_overflow : Z; timer_xmtcalls : Z;
  sys_fuzz : double;
  (** [peer->sstclktype], [pp->clockdesc] and the [kv_list] of the driver *)
  sstclktype : Z -> state -> Z;
  clockdesc : refclockstat -> list Z;
  kv_list : refclockstat -> list ctl_var;
  (** [rand]; [getaddrinfo] on a numeric host; [getinterface] *)
  next_rand : Z -> Z * Z;
  getaddrinfo : list Z -> option sockaddr;
  getinterface : sockaddr -> Z -> state -> option Z;
  (** [config_remotely]: the number of errors with their message, if any *)
  config_remotely : sockaddr -> list Z -> state -> option (Z * list Z) * state;
  (** the local addresses by number, with the values [send_ifstats_entry]
      puts, in the order of its cases *)
  sys_ifnum : state -> Z;
  if_list : state -> list (Z * list (list Z)) }.

Section Vars.
Context `{Env, CtlEnv}.

Definition ctlsysstatus (s : state) : Z :=
  let this_clock :=
    match sys_peer (sv s) with
    | None => 0
    | Some p =>
        if nonzero (sstclktype p s) then sstclktype p s
        else match clocktypes !! Z.to_nat (p_refclktype (peer_at s p)) with Some t => t | None => 0 end
    end in
  u16 (CTL_SYS_STATUS (sys_leap (sv s)) this_clock (ctl_sys_num_events s) (ctl_sys_last_event s)).

(** ** Lists of names *)

(** Names up to the end of the buffer of [CTL_MAX_DATA_LEN] characters; [first]
    says whether a name gets no comma. *)
Fixpoint join_names (room : Z) (first : bool) (names : list (list Z)) : list Z * bool :=
  match names with
  | [] => ([], first)
  | n :: names =>
      if room <=? Z.of_nat (length n) + 1 then ([], first)
      else
        let item := if first then n else 44 :: n in
        let '(rest, first) := join_names (room - Z.of_nat (length item)) false names in
        (item ++ rest, first)
  end.

(** The names of extension variables as the system list puts them: a comma
    only before a name that is the first of all. *)
Fixpoint join_ext (room : Z) (first : bool) (names : list (list Z)) : list Z :=
  match names with
  | [] => []
  | n :: names =>
      if room <=? Z.of_nat (length n) + 1 then []
      else
        let item := if first then 44 :: n else n in
        item ++ join_ext (room - Z.of_nat (length item)) false names
  end.

Definition var_names (vars : list ctl_var) : list (list Z) :=
  map v_text (filter (fun v => negb (has PADDING (v_flags v)) = true) vars).
(** The name is the text up to the equals sign. *)
Definition ext_names (vars : list ctl_var) : list (list Z) :=
  map (span (fun ch => negb (ch =? 61))) (var_names vars).

(** [name="..."], when the closing quote still fits. *)
Definition put_list (head body : list Z) (c : ctl) : option ctl :=
  if CTL_MAX_DATA_LEN <=? Z.of_nat (length head + length body) + 2 then Some c
  else ctl_putdata (head ++ body ++ [34]) false c.

(** [ctl_putfs]: a date and time of day from the NTP seconds. *)
Definition ctl_putfs (tag : list Z) (uval : Z) (c : ctl) : option ctl :=
  let fstamp := u32 (uval - JAN_1970) in
  let '(jd, _) := ntpcal_time_to_date (mk_calendar 0 0 0 0 0 0 0 0) (of_q_s fstamp) in
  put_tagged tag (pad0 4 (fmt_u (jd_year jd)) ++ pad0 2 (fmt_u (jd_month jd)) ++ pad0 2 (fmt_u (jd_monthday jd))
                  ++ pad0 2 (fmt_u (jd_hour jd)) ++ pad0 2 (fmt_u (jd_minute jd))) c.

(** The size of [n] monitor entries in kilobytes, rounded. *)
Definition mru_kb (n : Z) : Z :=
  let kb := dofZ n *d (dofZ sizeof_mon_entry /d dofZ 1024) in
  let u := u32 (dtrunc kb) in
  if dlit 5 1 <=d (kb -d dofZ u) then u32 (u + 1) else u.

(** ** System variables *)

Definition ctl_putsys (varid : Z) (c : ctl) : option ctl :=
  let t := text_of sys_var varid in
  let s := eng c in
  let v := sv s in
  let n := ct s in
  let m := mon s in
  let a := auth s in
  let since (x : Z) := u64 (current_time s - x) in
  match varid with
  | 1 => ctl_putuint t (sys_leap v) c
  | 2 => ctl_putuint t (sys_stratum v) c
  | 3 => ctl_putint t (sys_precision v) c
  | 4 => ctl_putdbl t (sys_rootdelay v *d dofZ 1000) c
  | 5 => ctl_putdbl t (sys_rootdisp v *d dofZ 1000) c
  | 6 => if (1 <? sys_stratum v) && (sys_stratum v <? STRATUM_UNSPEC)
         then ctl_putadr t (sys_refid v) None c else ctl_putrefid t (sys_refid v) c
  | 7 => ctl_putts t (sys_reftime v) c
  | 8 => ctl_putuint t (sys_poll v) c
  | 9 => ctl_putuint t (match sys_peer v with None => 0 | Some p => p_associd (peer_at s p) end) c
  | 10 => ctl_putdbl6 t (last_offset (lp s) *d dofZ 1000) c
  | 11 => ctl_putdbl t (drift_comp (lp s) *d dofZ 1000000) c
  | 12 => ctl_putdbl6 t (sys_jitter v *d dofZ 1000) c
  | 13 => ctl_putdbl t (clock_jitter (lp s) *d dofZ 1000) c
  | 14 => let '(tmp, s) := get_systime s in ctl_putts t tmp (c <| eng := s |>)
  | 15 => ctl_putstr t uts_machine c
  | 16 => ctl_putstr t (take 255 (uts_sysname ++ 47 :: uts_release)) c
  | 17 => ctl_putstr t Version c
  | 18 => ctl_putdbl t (clock_stability (lp s) *d dofZ 1000000) c
  | 19 => let head := t ++ [61; 34] in
          let room := CTL_MAX_DATA_LEN - Z.of_nat (length head) in
          let '(names, first) := join_names room true (var_names sys_var) in
          put_list head (names ++ join_ext (room - Z.of_nat (length names)) first (ext_names (ext_sys_var c))) c
  | 20 => if 0 <? sys_tai v then ctl_putuint t (sys_tai v) c else Some c
  | 21 => if 0 <? leap_sec v then ctl_putfs t (leap_sec v) c else Some c
  | 22 => if 0 <? leap_expire then ctl_putfs t leap_expire c else Some c
  | 23 => ctl_putuint t (ntp_minpoll m) c
  | 24 => ctl_puthex t (mon_enabled m) c
  | 25 => ctl_putuint t (mru_entries m) c
  | 26 => ctl_putuint t (mru_peakentries m) c
  | 27 => ctl_putuint t (mru_mindepth m) c
  | 28 => ctl_putint t (mru_maxage m) c
  | 29 => ctl_putuint t (mru_maxdepth m) c
  | 30 => ctl_putuint t (mru_kb (mru_entries m)) c
  | 31 => ctl_putuint t (mru_kb (mru_maxdepth m)) c
  | 32 => ctl_putuint t (current_time s) c
  | 33 => ctl_putuint t (since sys_stattime) c
  | 34 => ctl_putuint t (sys_received n) c
  | 35 => ctl_putuint t (sys_newversion n) c
  | 36 => ctl_putuint t (sys_oldversion n) c
  | 37 => ctl_putuint t (sys_badlength n) c
  | 38 => ctl_putuint t (sys_badauth n) c
  | 39 => ctl_putuint t (sys_declined n) c
  | 40 => ctl_putuint t (sys_restricted n) c
  | 41 => ctl_putuint t (sys_limitrejected n) c
  | 42 => ctl_putuint t (sys_kodsent n) c
  | 43 => ctl_putuint t (sys_processed n) c
  | 44 => ctl_putunqstr t (match sys_peer v with
                           | Some p => match p_dstadr (peer_at s p) with
                                       | Some _ => sockporttoa (p_srcadr (peer_at s p))
                                       | None => txt "0.0.0.0:0" end
                           | None => txt "0.0.0.0:0" end) c
  | 45 => ctl_putuint t (match sys_peer v with Some p => p_hmode (peer_at s p) | None => 0 end) c
  | 46 => ctl_putdbl t (sys_bdelay (cf s) *d dofZ 1000) c
  | 47 => ctl_putdbl t (LFPTOD (sys_authdelay v) *d dofZ 1000) c
  | 48 => ctl_putuint t (authnumkeys a) c
  | 49 => ctl_putuint t (authnumfreekeys a) c
  | 50 => ctl_putuint t (authkeylookups a) c
  | 51 => ctl_putuint t (authkeynotfound a) c
  | 52 => ctl_putuint t (authkeyuncached a) c
  | 53 => ctl_putuint t (authkeyexpired a) c
  | 54 => ctl_putuint t (authencryptions a) c
  | 55 => ctl_putuint t (authdecryptions a) c
  | 56 => ctl_putuint t (since auth_timereset) c
  | 61 => ctl_putstr t [] c
  | 73 => ctl_putuint t (since io_timereset) c
  | 74 => ctl_putuint t total_recvbuffs c
  | 75 => ctl_putuint t free_recvbuffs c
  | 76 => ctl_putuint t full_recvbuffs c
  | 77 => ctl_putuint t lowater_additions c
  | 78 => ctl_putuint t packets_dropped c
  | 79 => ctl_putuint t packets_ignored c
  | 80 => ctl_putuint t packets_received c
  | 81 => ctl_putuint t packets_sent c
  | 82 => ctl_putuint t packets_notsent c
  | 83 => ctl_putuint t handler_calls c
  | 84 => ctl_putuint t handler_pkts c
  | 85 => ctl_putuint t (since timer_timereset) c
  | 86 => ctl_putuint t alarm_overflow c
  | 87 => ctl_putuint t timer_xmtcalls c
  | 88 => ctl_putdbl t (sys_fuzz *d dofZ 1000) c
  | _ => if (57 <=? varid) && (varid <=? 72) then ctl_putint t 0 c else Some c
  end.

(** ** Peer variables *)

Definition put_peer_list (id : Z) (c : ctl) : option ctl :=
  let head := text_of peer_var id ++ [61; 34] in
  put_list head (join_names (CTL_MAX_DATA_LEN - Z.of_nat (length head)) true (var_names peer_var)).1 c.

Definition ctl_putpeer (id : Z) (p : Z) (c : ctl) : option ctl :=
  let t := text_of peer_var id in
  let s := eng c in
  let r := peer_at s p in
  let v := pv r in
  let ms (d : double) := d *d dofZ 1000 in
  match id with
  | 1 => ctl_putuint t (truth (negb (has FLAG_PREEMPT (p_flags r)))) c
  | 2 => ctl_putuint t (truth (p_keyid r =? 0)) c
  | 3 => ctl_putuint t (truth (has FLAG_AUTHENTIC (p_flags r))) c
  | 4 => ctl_putadr t 0 (Some (p_srcadr r)) c
  | 5 => ctl_putuint t (sa_port (p_srcadr r)) c
  | 6 => ctl_putadr t 0 ((fun e => ep_sin (endpt_at s e)) <$> p_dstadr r) c
  | 7 => ctl_putuint t (match p_dstadr r with Some e => sa_port (ep_sin (endpt_at s e)) | None => 0 end) c
  | 8 => ctl_putuint t (p_leap r) c
  | 9 => ctl_putuint t (p_hmode r) c
  | 10 => ctl_putuint t (p_stratum r) c
  | 11 => ctl_putuint t (p_ppoll r) c
  | 12 => ctl_putuint t (p_hpoll r) c
  | 13 => ctl_putint t (p_precision r) c
  | 14 => ctl_putdbl t (ms (p_rootdelay r)) c
  | 15 => ctl_putdbl t (ms (p_rootdisp r)) c
  | 16 => if has (p_flags r) FLAG_REFCLOCK then ctl_putrefid t (p_refid r) c
          else if (1 <? p_stratum r) && (p_stratum r <? STRATUM_UNSPEC) then ctl_putadr t (p_refid r) None c
          else ctl_putrefid t (p_refid r) c
  | 17 => ctl_putts t (p_reftime r) c
  | 18 => ctl_putts t (p_aorg v) c
  | 19 => ctl_putts t (p_dst v) c
  | 20 => if deq (p_xleave v) dzero then Some c else ctl_putdbl t (ms (p_xleave v)) c
  | 21 => ctl_puthex t (p_reach v) c
  | 22 => ctl_putuint t (p_unreach r) c
  | 23 => ctl_putuint t (u64 (p_nextdate r - current_time s)) c
  | 24 => ctl_putdbl t (ms (p_delay v)) c
  | 25 => ctl_putdbl t (ms (p_offset v)) c
  | 26 => ctl_putdbl t (ms (p_jitter v)) c
  | 27 => ctl_putdbl t (ms (p_disp v)) c
  | 28 => if NTP_MAXKEY <? p_keyid r then ctl_puthex t (p_keyid r) c else ctl_putuint t (p_keyid r) c
  | 29 => ctl_putarray t (p_filter_delay v) (p_filter_nextpt v) c
  | 30 => ctl_putarray t (p_filter_offset v) (p_filter_nextpt v) c
  | 31 => ctl_putuint t (p_pmode r) c
  | 32 => ctl_putuint t (p_received r) c
  | 33 => ctl_putuint t (p_sent r) c
  | 34 => ctl_putarray t (p_filter_disp v) (p_filter_nextpt v) c
  | 35 => ctl_puthex t (u64 (p_flash v)) c
  | 36 => if has (p_flags r) FLAG_REFCLOCK then ctl_putuint t (p_ttl r) c
          else if (0 <? p_ttl r) && (p_ttl r <? 8) then ctl_putint t (nth (Z.to_nat (p_ttl r)) (sys_ttl (cf s)) 0) c
          else Some c
  | 37 => put_peer_list id c
  | 40 => ctl_putuint t (u64 (p_throttle r)) c
  | 41 => if deq (p_bias v) dzero then Some c else ctl_putdbl t (ms (p_bias v)) c
  | 42 => match p_hostname r with Some h => ctl_putstr t h c | None => Some c end
  | 43 => ctl_putuint t (u64 (current_time s - p_timereceived r)) c
  | 44 => ctl_putuint t (u64 (current_time s - p_timereachable r)) c
  | 45 => ctl_putuint t (p_badauth r) c
  | 46 => ctl_putuint t (p_bogusorg r) c
  | 47 => ctl_putuint t (p_oldpkt r) c
  | 48 => ctl_putuint t (p_seldisptoolarge r) c
  | 49 => ctl_putuint t (p_selbroken r) c
  | 50 => ctl_putuint t (p_status v) c
  | _ => Some c
  end.

(** ** Clock variables *)

Definition CLK_HAVE (f : Z) (pcs : refclockstat) : bool := has (rs_haveflags pcs) f.

Definition put_clock_list (id : Z) (pcs : refclockstat) (c : ctl) : option ctl :=
  let head := text_of clock_var id ++ [61; 34] in
  let room := CTL_MAX_DATA_LEN - Z.of_nat (length head) in
  let '(names, first) := join_names room true (var_names clock_var) in
  put_list head (names ++ (join_names (room - Z.of_nat (length names)) first (ext_names (kv_list pcs))).1) c.

Definition ctl_putclock (id : Z) (pcs : refclockstat) (mustput : bool) (c : ctl) : option ctl :=
  let t := text_of clock_var id in
  match id with
  | 1 => if mustput || Nat.eqb (length (clockdesc pcs)) 0 then ctl_putuint t (rs_type pcs) c else Some c
  | 2 => ctl_putstr t (rs_lastcode pcs) c
  | 3 => ctl_putuint t (rs_polls pcs) c
  | 4 => ctl_putuint t (rs_noresponse pcs) c
  | 5 => ctl_putuint t (rs_badformat pcs) c
  | 6 => ctl_putuint t (rs_baddata pcs) c
  | 7 => if mustput || CLK_HAVE CLK_HAVETIME1 pcs then ctl_putdbl t (rs_fudgetime1 pcs *d dofZ 1000) c else Some c
  | 8 => if mustput || CLK_HAVE CLK_HAVETIME2 pcs then ctl_putdbl t (rs_fudgetime2 pcs *d dofZ 1000) c else Some c
  | 9 => if mustput || CLK_HAVE CLK_HAVEVAL1 pcs then ctl_putint t (rs_fudgeval1 pcs) c else Some c
  | 10 => if mustput || CLK_HAVE CLK_HAVEVAL2 pcs
          then (if 1 <? rs_fudgeval1 pcs then ctl_putadr t (rs_fudgeval2 pcs) None c
                else ctl_putrefid t (rs_fudgeval2 pcs) c) else Some c
  | 11 => ctl_putuint t (rs_flags pcs) c
  | 12 => if Nat.eqb (length (clockdesc pcs)) 0 then (if mustput then ctl_putstr t [] c else Some c)
          else ctl_putstr t (clockdesc pcs) c
  | 13 => put_clock_list id pcs c
  | _ => Some c
  end.
End Vars.
