(* ===== verification/ControlOps.v ===== *)
(** * The mode 6 server: requests (ntpd/ntp_control.c)

    The variables of the user, the traps, the nonces, and the handlers that
    read and write variables; the lists and the dispatch are in ControlMain.
    The build has no SAVECONFIG. *)

From Stdlib Require Import Ascii String.
From S2P Require Import Prelude FixedPoint Calendar Double Lists NtpTypes Text AuthKeys Monitor Restrict State ProtoBase Peer Refclock Filter RefclockPoll Control ControlVars.
From stdpp Require Import base gmap list.
#[local] Open Scope Z_scope.

Definition RES_NOTRAP : Z := 0x0100.
Definition RES_LPTRAP : Z := 0x0200.
Definition RES_NOMRULIST : Z := 0x2000.
Definition RESM_SOURCE : Z := 0x4000.
Definition MRU_ROW_LIMIT : Z := 256.
Definition MRU_FRAGS_LIMIT : Z := 128.
Definition TRAP_TYPE_CONFIG : Z := 0.
Definition TRAP_TYPE_PRIO : Z := 1.
Definition TRAP_TYPE_NONPRIO : Z := 2.

(** ** Statistics and variables of the user *)

Definition ctl_clr_stats (c : ctl) : ctl :=
  c <| cs := mk_stats (current_time (eng c)) 0 0 0 0 0 0 0 0 0 0 0 0 0 0 |>.

Definition init_control (c : ctl) : ctl :=
  let c := ctl_clr_stats c in
  c <| ctl_auth_keyid := 0 |>
    <| eng := (eng c) <| ctl_sys_last_event := 0 |> <| ctl_sys_num_events := 0 |> |>
    <| num_ctl_traps := 0 |> <| ctl_traps := map (fun t => t <| tr_flags := 0 |>) (ctl_traps c) |>.

(** Do the names before the equals sign agree?  [None]: both strings end
    without one and the comparison runs past their ends. *)
Fixpoint same_name (s t : list Z) : option bool :=
  match t with
  | [] => match s with [] => None | _ => Some false end
  | x :: t =>
      if x =? 61 then Some (hd 0 s =? 61)
      else match s with
           | [] => Some false
           | y :: s => if y =? x then same_name s t else Some false
           end
  end.

Fixpoint set_in (kv : list ctl_var) (data : list Z) (def : Z) : option (option (list ctl_var)) :=
  match kv with
  | [] => Some None
  | k :: kv =>
      same ← same_name data (v_text k);
      if (same : bool) then Some (Some (mk_var (v_code k) def data :: kv))
      else r ← set_in kv data def; Some (option_map (cons k) r)
  end.
Definition add_var (kv : list ctl_var) (data : list Z) (def : Z) : list ctl_var :=
  kv ++ [mk_var (Z.of_nat (length kv)) def data].
Definition set_var (kv : list ctl_var) (data : list Z) (def : Z) : option (list ctl_var) :=
  r ← set_in kv data def;
  Some (match r with Some kv => kv | None => add_var kv data def end).
Definition set_sys_var (data : list Z) (def : Z) (c : ctl) : option ctl :=
  kv ← set_var (ext_sys_var c) data def; Some (c <| ext_sys_var := kv |>).

(** The value, or nothing; [None] outside is the null list. *)
Definition get_ext_sys_var (tag : list Z) (kv : list ctl_var) : option (option (list Z)) :=
  match kv with
  | [] => None
  | _ =>
      Some (v ← List.find (fun v => bool_decide (take (length tag) (v_text v) = tag)
                                   && ((hd 0 (drop (length tag) (v_text v)) =? 61)
                                       || bool_decide (drop (length tag) (v_text v) = []))) kv;
            Some (tail (drop (length tag) (v_text v))))
  end.

(** ** Traps *)

Definition trap_is (raddr : sockaddr) (linter : option Z) (t : ctl_trap) : bool :=
  has (tr_flags t) TRAP_INUSE && ADDR_PORT_EQ raddr (tr_addr t) && bool_decide (linter = tr_localaddr t).

Fixpoint find_trap (raddr : sockaddr) (linter : option Z) (ts : list ctl_trap) (i : nat) : option nat :=
  match ts with
  | [] => None
  | t :: ts => if trap_is raddr linter t then Some i else find_trap raddr linter ts (S i)
  end.
Definition ctlfindtrap (raddr : sockaddr) (linter : option Z) (c : ctl) : option nat :=
  find_trap raddr linter (ctl_traps c) 0.
Definition trap_at (c : ctl) (i : nat) : ctl_trap := nth i (ctl_traps c) zero_trap.
Definition upd_trap (i : nat) (f : ctl_trap -> ctl_trap) (c : ctl) : ctl :=
  c <| ctl_traps := <[i := f (trap_at c i)]> (ctl_traps c) |>.

(** One round of the search for a slot. *)
Definition trap_candidate (traptype : Z) (best : option nat) (i : nat) (c : ctl) : option nat :=
  let t := trap_at c i in
  let nonprio (t : ctl_trap) := has TRAP_NONPRIO (tr_flags t) in
  if negb (has TRAP_INUSE (tr_flags t)) then Some i
  else if has TRAP_CONFIGURED (tr_flags t) then best
  else if traptype =? TRAP_TYPE_CONFIG then
    match best with
    | None => Some i
    | Some b =>
        let u := trap_at c b in
        if nonprio u && negb (nonprio t) then best
        else if negb (nonprio u) && nonprio t then Some i
        else if tr_origtime u <? tr_origtime t then Some i else best
    end
  else if traptype =? TRAP_TYPE_PRIO then
    if nonprio t then
      match best with
      | None => Some i
      | Some b =>
          let u := trap_at c b in
          if has TRAP_INUSE (tr_flags u) && (tr_origtime u <? tr_origtime t) then Some i else best
      end
    else best
  else best.
Definition trap_round (traptype : Z) (a : option nat * ctl) (i : nat) : option nat * ctl :=
  let '(best, c) := a in
  let t := trap_at c i in
  let c := if has TRAP_INUSE (tr_flags t) && negb (has TRAP_CONFIGURED (tr_flags t))
              && (current_time (eng c) <? u64 (tr_settime t + CTL_TRAPTIME))
           then (upd_trap i (fun t => t <| tr_flags := 0 |>) c) <| num_ctl_traps := s32 (num_ctl_traps c - 1) |>
           else c in
  (trap_candidate traptype best i c, c).

Definition ctlsettrap (raddr : sockaddr) (linter : option Z) (traptype version : Z) (c : ctl) : bool * ctl :=
  match ctlfindtrap raddr linter c with
  | Some i =>
      if negb (traptype =? TRAP_TYPE_CONFIG) && has (tr_flags (trap_at c i)) TRAP_CONFIGURED then (true, c)
      else
        let flags := TRAP_INUSE .| (if traptype =? TRAP_TYPE_CONFIG then TRAP_CONFIGURED
                                    else if traptype =? TRAP_TYPE_NONPRIO then TRAP_NONPRIO else 0) in
        (true, upd_trap i (fun t => t <| tr_flags := flags |> <| tr_settime := current_time (eng c) |>
                                       <| tr_resets := u64 (tr_resets t + 1) |>) c)
  | None =>
      let '(best, c) := fold_left (trap_round traptype) (seq 0 (length (ctl_traps c))) (None, c) in
      match best with
      | None => (false, c)
      | Some i =>
          let now := current_time (eng c) in
          let flags := TRAP_INUSE .| (if traptype =? TRAP_TYPE_CONFIG then TRAP_CONFIGURED
                                      else if traptype =? TRAP_TYPE_NONPRIO then TRAP_NONPRIO else 0) in
          (true, (upd_trap i (fun _ => mk_trap raddr linter now 0 now 0 1 flags (u8 version)) c)
                   <| num_ctl_traps := s32 (num_ctl_traps c + 1) |>)
      end
  end.

Definition ctlclrtrap (raddr : sockaddr) (linter : option Z) (traptype : Z) (c : ctl) : bool * ctl :=
  match ctlfindtrap raddr linter c with
  | None => (false, c)
  | Some i =>
      if has (tr_flags (trap_at c i)) TRAP_CONFIGURED && negb (traptype =? TRAP_TYPE_CONFIG) then (false, c)
      else (true, (upd_trap i (fun t => t <| tr_flags := 0 |>) c) <| num_ctl_traps := s32 (num_ctl_traps c - 1) |>)
  end.

(** ** [sscanf] *)

(** The value of digits, and a conversion of at most [w] characters:
    [sign digits], with the prefix 0x allowed in base 16. *)
Definition is_digit (base : Z) (ch : Z) : bool := if base =? 16 then isxdigit ch else isdigit ch.
Definition digits_val (base : Z) (l : list Z) : Z := fold_left (fun a ch => a * base + xdigit_val ch) l 0.
Definition strip_0x (base : Z) (l : list Z) : list Z :=
  match l with
  | z :: x :: r => if (base =? 16) && (z =? 48) && ((x =? 120) || (x =? 88)) then r else l
  | _ => l
  end.
Definition scan_num (base : Z) (w : nat) (l : list Z) : option (Z * list Z) :=
  let l := skip isspace l in
  let '(neg, l', w) := match l with
                       | ch :: r => if ch =? 45 then (true, r, (w - 1)%nat)
                                    else if ch =? 43 then (false, r, (w - 1)%nat) else (false, l, w)
                       | [] => (false, l, w) end in
  let body := strip_0x base (take w l') in
  let prefix := (length (take w l') - length body)%nat in
  let ds := span (is_digit base) body in
  match ds with
  | [] => None
  | _ => let v := digits_val base ds in Some (if neg then - v else v, drop (prefix + length ds) l')
  end.
(** The conversions [strtoul] and [strtol] make of the number. *)
Definition to_ulong (v : Z) : Z := if 2 ^ 64 <=? Z.abs v then 2 ^ 64 - 1 else u64 v.
Definition to_long (v : Z) : Z := Z.max (- 2 ^ 63) (Z.min v (2 ^ 63 - 1)).
(** Characters of the format that must appear as they are. *)
Fixpoint literal (f l : list Z) : option (list Z) :=
  match f with
  | [] => Some l
  | x :: f => match l with y :: l => if x =? y then literal f l else None | [] => None end
  end.
Definition NOWIDTH : nat := 1000.

Section Ops.
Context `{Env, CtlEnv}.

(** ** [decodenetnum] (libntp/decodenetnum.c) *)

Definition has_char (ch : Z) (l : list Z) : bool := existsb (Z.eqb ch) l.
Definition decodenetnum (num : list Z) : option (option sockaddr) :=
  if 80 <=? Z.of_nat (length num) then None
  else
    let not_ch (x ch : Z) := negb (ch =? x) in
    let '(name, port_str) :=
      if negb (hd 0 num =? 91) then
        let pp := drop (length (span (not_ch 58) num)) num in
        if (negb (has_char 58 num)) || has_char 58 (tail pp) then (num, None)
        else (span (not_ch 58) num, Some (tail pp))
      else
        let name := span (not_ch 93) (tail num) in
        let cp := drop (length name) (tail num) in
        (name, if (hd 0 cp =? 93) && (hd 0 (tail cp) =? 58) && negb (bool_decide (drop 2 cp = []))
               then Some (drop 2 cp) else None) in
    Some (a ← getaddrinfo name;
          let port := match port_str ≫= scan_num 10 NOWIDTH with Some (v, _) => u16 (to_ulong v) | None => NTP_PORT end in
          Some (mk_sockaddr (sa_family a) (sa_addr a) (sa_scope a) port)).

(** ** Nonces *)

Definition le32 (x : Z) : list Z := rev (be32 x).

(** [while (!salt[0]) salt[0] = ntp_random();] *)
Fixpoint draw_salt (fuel : nat) (c : ctl) : option ctl :=
  if nonzero (salt c) then Some c
  else match fuel with
       | O => None
       | S fuel => let '(r, s) := ntp_random (eng c) in draw_salt fuel (c <| eng := s |> <| salt := u32 r |>)
       end.
Definition nonce_digest (sum salt0 : Z) (addr : sockaddr) (ts_i ts_f : Z) : Z :=
  let salts := le32 salt0 ++ le32 sum in
  let host := if IS_IPV4 addr then be32 (sa_addr addr) else be_bytes 16 (sa_addr addr) in
  u32 (be_val (rev (take 4 (md5 (salts ++ le32 ts_i ++ le32 ts_f ++ host ++ be16 (sa_port addr) ++ salts))))).
Definition derive_nonce (addr : sockaddr) (ts_i ts_f : Z) (c : ctl) : option (Z * ctl) :=
  c ← draw_salt 64 c;
  Some (nonce_digest (conf_file_sum c) (salt c) addr ts_i ts_f, c).

Definition generate_nonce (rb : recvbuf) (c : ctl) : option (list Z * ctl) :=
  let t := rb_time rb in
  '(derived, c) ← derive_nonce (rb_srcadr rb) (l_ui t) (l_uf t) c;
  Some (pad0 8 (fmt_x (l_ui t)) ++ pad0 8 (fmt_x (l_uf t)) ++ pad0 8 (fmt_x derived), c).

Definition scan_nonce (pnonce : list Z) : option (Z * Z * Z) :=
  '(i, l) ← scan_num 16 8 pnonce;
  '(f, l) ← scan_num 16 8 l;
  '(d, _) ← scan_num 16 8 l;
  Some (u32 (to_ulong i), u32 (to_ulong f), u32 (to_ulong d)).
Definition validate_nonce (pnonce : list Z) (rb : recvbuf) (c : ctl) : option (bool * ctl) :=
  match scan_nonce pnonce with
  | None => Some (false, c)
  | Some (ts_i, ts_f, supposed) =>
      '(derived, c) ← derive_nonce (rb_srcadr rb) ts_i ts_f c;
      let '(now, s) := get_systime (eng c) in
      let now_delta := L_SUB now (mk_lfp ts_i ts_f) in
      Some ((supposed =? derived) && (l_ui now_delta <? 16), c <| eng := s |>)
  end.

Definition req_nonce (rb : recvbuf) (c : ctl) : option ctl :=
  '(nonce, c) ← generate_nonce rb c;
  c ← ctl_putunqstr (txt "nonce") nonce c;
  ctl_flushpkt 0 c.

(** ** Status and variables *)

Definition put_status (status : Z) (c : ctl) : ctl := c <|rp rp_status := status |>.
Definition find_assoc (c : ctl) : option Z * ctl :=
  let '(p, s) := findpeerbyassoc (res_associd c) (eng c) in (p, c <| eng := s |>).

Definition control_unspec (c : ctl) : option ctl :=
  if nonzero (res_associd c) then
    let '(p, c) := find_assoc c in
    match p with
    | None => ctl_error CERR_BADASSOC c
    | Some p => ctl_flushpkt 0 (put_status (ctlpeerstatus (peer_at (eng c) p)) c)
    end
  else ctl_flushpkt 0 (put_status (ctlsysstatus (eng c)) c).

(** Put a list of variables. *)
Fixpoint put_all (f : Z -> ctl -> option ctl) (ids : list Z) (c : ctl) : option ctl :=
  match ids with
  | [] => Some c
  | id :: ids => c ← f id c; put_all f ids c
  end.

(** Status of a peer that is asked for. *)
Definition peer_asked (p : Z) (c : ctl) : ctl :=
  let c := put_status (ctlpeerstatus (peer_at (eng c) p)) c in
  if res_authokay c then c <| eng := upd_peer p (fun r => r <| p_num_events := 0 |>) (eng c) |> else c.

(** The associations in records of 117 pairs. *)
Fixpoint put_assocs (peers : list Z) (a_st : list Z) (c : ctl) : option ctl :=
  match peers with
  | [] => if Nat.eqb (length a_st) 0 then Some c else ctl_putdata a_st true c
  | p :: peers =>
      let r := peer_at (eng c) p in
      let a_st := a_st ++ be16 (p_associd r) ++ be16 (ctlpeerstatus r) in
      if CTL_MAX_DATA_LEN / 2 <=? Z.of_nat (length a_st) / 2 + 1
      then c ← ctl_putdata a_st true c; put_assocs peers [] c
      else put_assocs peers a_st c
  end.

Definition read_status (c : ctl) : option ctl :=
  if nonzero (res_associd c) then
    let '(p, c) := find_assoc c in
    match p with
    | None => ctl_error CERR_BADASSOC c
    | Some p =>
        c ← put_all (fun id => ctl_putpeer id p) def_peer_var (peer_asked p c);
        ctl_flushpkt 0 c
    end
  else
    let c := put_status (ctlsysstatus (eng c)) c in
    c ← put_assocs (peer_list (eng c)) [] c;
    ctl_flushpkt 0 c.

(** The codes asked for, those of a second list after [base]; [inr]: an
    unknown name was answered with an error. *)
Fixpoint get_wants (fuel : nat) (vars : list ctl_var) (more : option (list ctl_var * Z)) (wants : list Z) (c : ctl) :
    option (list Z * ctl + ctl) :=
  match fuel with
  | O => None
  | S fuel =>
      '(i, c) ← ctl_getitem vars c;
      match i with
      | NoItem => Some (inl (wants, c))
      | Item v _ => get_wants fuel vars more (v_code v :: wants) c
      | EndOfVars =>
          match more with
          | None => c ← ctl_error CERR_UNKNOWNVAR c; Some (inr c)
          | Some (ext, base) =>
              '(i, c) ← ctl_getitem ext c;
              match i with
              | NoItem => None
              | Item v _ => get_wants fuel vars more (v_code v + base :: wants) c
              | EndOfVars => c ← ctl_error CERR_UNKNOWNVAR c; Some (inr c)
              end
          end
      end
  end.
(** The codes from [a] to [b] that are wanted, in order. *)
Definition wanted (a b : Z) (wants : list Z) : list Z :=
  filter (fun i => existsb (Z.eqb i) wants = true) (zrange a (Z.to_nat (b + 1 - a))).

Definition read_peervars (c : ctl) : option ctl :=
  let '(p, c) := find_assoc c in
  match p with
  | None => ctl_error CERR_BADASSOC c
  | Some p =>
      let c := peer_asked p c in
      r ← get_wants (S (length (req c))) peer_var None [] c;
      match r with
      | inr c => Some c
      | inl (wants, c) =>
          c ← put_all (fun id => ctl_putpeer id p)
                (match wants with [] => def_peer_var | _ => wanted 1 CP_MAXCODE wants end) c;
          ctl_flushpkt 0 c
      end
  end.

(** The text of a variable of the user or of a driver. *)
Definition put_ext (kv : list ctl_var) (n : Z) (c : ctl) : option ctl :=
  ctl_putdata (cstr (v_text (nth (Z.to_nat n) kv padding_var))) false c.
Definition def_ext (kv : list ctl_var) : list Z :=
  filter (fun n => has DEF (v_flags (nth (Z.to_nat n) kv padding_var)) = true) (zrange 0 (length kv)).

Definition read_sysvars (c : ctl) : option ctl :=
  let c := put_status (ctlsysstatus (eng c)) c in
  let c := if res_authokay c then c <| eng := (eng c) <| ctl_sys_num_events := 0 |> |> else c in
  let base := CS_MAXCODE + 1 in
  r ← get_wants (S (length (req c))) sys_var (Some (ext_sys_var c, base)) [] c;
  match r with
  | inr c => Some c
  | inl ([], c) =>
      c ← put_all ctl_putsys def_sys_var c;
      c ← put_all (put_ext (ext_sys_var c)) (def_ext (ext_sys_var c)) c;
      ctl_flushpkt 0 c
  | inl (wants, c) =>
      c ← put_all ctl_putsys (wanted 1 CS_MAXCODE wants) c;
      c ← put_all (fun n => put_ext (ext_sys_var c) (n - base))
            (wanted base (base + Z.of_nat (length (ext_sys_var c)) - 1) wants) c;
      ctl_flushpkt 0 c
  end.

Definition read_variables (c : ctl) : option ctl :=
  if nonzero (res_associd c) then read_peervars c else read_sysvars c.

(** One assignment; [inr]: answered with an error. *)
Definition write_item (v : ctl_var) (value : list Z) (ext : bool) (c : ctl) : option (ctl + ctl) :=
  let fail (err : Z) := c ← ctl_error err c; Some (inr c) in
  if negb (has (v_flags v) CAN_WRITE) then fail CERR_PERMISSION
  else if ext then
    let name := span (fun ch => negb (ch =? 61)) (cstr (v_text v)) in
    c ← set_sys_var (name ++ 61 :: value) (v_flags v) c; Some (inl c)
  else
    match value with
    | [] => fail CERR_BADFMT
    | _ => match atoint value with
           | None => fail CERR_BADFMT
           | Some val => if nonzero (Z.land val (Z.lnot LEAP_NOTINSYNC)) then fail CERR_BADVALUE else fail CERR_UNSPEC
           end
    end.
Fixpoint write_items (fuel : nat) (c : ctl) : option (ctl + ctl) :=
  match fuel with
  | O => None
  | S fuel =>
      '(i, c) ← ctl_getitem sys_var c;
      match i with
      | NoItem => Some (inl c)
      | Item v value => r ← write_item v value false c;
                        match r with inl c => write_items fuel c | inr c => Some (inr c) end
      | EndOfVars =>
          '(i, c) ← ctl_getitem (ext_sys_var c) c;
          match i with
          | NoItem => Some (inl c)
          | EndOfVars => c ← ctl_error CERR_UNKNOWNVAR c; Some (inr c)
          | Item v value => r ← write_item v value true c;
                            match r with inl c => write_items fuel c | inr c => Some (inr c) end
          end
      end
  end.
Definition write_variables (c : ctl) : option ctl :=
  if nonzero (res_associd c) then ctl_error CERR_PERMISSION c
  else
    let c := put_status (ctlsysstatus (eng c)) c in
    r ← write_items (S (length (req c))) c;
    match r with inr c => Some c | inl c => ctl_flushpkt 0 c end.

(** ** Configuration *)

Definition reply (text : list Z) (c : ctl) : option ctl := c ← ctl_putdata text false c; ctl_flushpkt 0 c.
Definition count_restricted (c : ctl) : ctl := c <| eng := (eng c) .++ sys_restricted |>.

Definition configure (rb : recvbuf) (mask : Z) (c : ctl) : option ctl :=
  if nonzero (res_associd c) then ctl_error CERR_BADVALUE c
  else if has RES_NOMODIFY mask then
    c ← reply (txt "runtime configuration prohibited by restrict ... nomodify") c; Some (count_restricted c)
  else
    let text := req c in
    let text := match rev text with [] => [] | ch :: _ => if ch =? 10 then text else text ++ [10] end in
    let '(r, s) := config_remotely (rb_srcadr rb) text (eng c) in
    reply (match r with None => txt "Config Succeeded" | Some (_, msg) => msg end) (c <| eng := s |>).

Definition save_config (mask : Z) (c : ctl) : option ctl :=
  if has RES_NOMODIFY mask then
    c ← reply (txt "saveconfig prohibited by restrict ... nomodify") c; Some (count_restricted c)
  else reply (txt "saveconfig unavailable, configured with --disable-saveconfig") c.

(** ** Traps *)

Definition set_trap (rb : recvbuf) (mask : Z) (c : ctl) : option ctl :=
  if has mask RES_NOTRAP then ctl_error CERR_PERMISSION c
  else
    let traptype := if has mask RES_LPTRAP then TRAP_TYPE_NONPRIO else TRAP_TYPE_PRIO in
    let '(ok, c) := ctlsettrap (rb_srcadr rb) (Some (rb_dstadr rb)) traptype (res_version c) c in
    c ← (if ok then Some c else ctl_error CERR_NORESOURCE c);
    ctl_flushpkt 0 c.
Definition unset_trap (rb : recvbuf) (mask : Z) (c : ctl) : option ctl :=
  let traptype := if has mask RES_LPTRAP then TRAP_TYPE_NONPRIO else TRAP_TYPE_PRIO in
  let '(ok, c) := ctlclrtrap (rb_srcadr rb) (Some (rb_dstadr rb)) traptype c in
  c ← (if ok then Some c else ctl_error CERR_BADASSOC c);
  ctl_flushpkt 0 c.

(** ** Clocks *)

Definition some_clock (s : state) : option Z :=
  match sys_peer (sv s) with
  | Some p => if has FLAG_REFCLOCK (p_flags (peer_at s p)) then Some p
              else chain_find (fun p => has FLAG_REFCLOCK (p_flags (peer_at s p))) (peer_list s)
  | None => chain_find (fun p => has FLAG_REFCLOCK (p_flags (peer_at s p))) (peer_list s)
  end.

(** [refclock_control] fills the status in, or a part that it does not is
    indeterminate: [None]. *)
Definition read_clockstatus (c : ctl) : option ctl :=
  let '(p, c) := if nonzero (res_associd c) then find_assoc c else (some_clock (eng c), c) in
  match p with
  | None => ctl_error CERR_BADASSOC c
  | Some p =>
      if negb (has FLAG_REFCLOCK (p_flags (peer_at (eng c) p))) then ctl_error CERR_BADASSOC c
      else
        '(o, s) ← refclock_control (p_srcadr (peer_at (eng c) p)) None true (eng c);
        stat ← o;
        let kv := kv_list stat in
        let c := put_status (ctlclkstatus stat) (c <| eng := s |>) in
        let base := CC_MAXCODE + 1 in
        r ← get_wants (S (length (req c))) clock_var (Some (kv, base)) [] c;
        match r with
        | inr c => Some c
        | inl ([], c) =>
            c ← put_all (fun id => ctl_putclock id stat false) def_clock_var c;
            c ← put_all (put_ext kv) (def_ext kv) c;
            ctl_flushpkt 0 c
        | inl (wants, c) =>
            c ← put_all (fun id => ctl_putclock id stat true) (wanted 1 CC_MAXCODE wants) c;
            c ← put_all (fun n => put_ext kv (n - base)) (wanted base (base + Z.of_nat (length kv) - 1) wants) c;
            ctl_flushpkt 0 c
        end
  end.
End Ops.
