(* ===== verification/ControlMain.v ===== *)
(** * The mode 6 server: lists and dispatch (ntpd/ntp_control.c)

    The lists of recent clients, local addresses and restrictions, whose rows
    have their fields in random order, the dispatch of a request
    ([process_control]) and the trap messages of an event. *)

From Stdlib Require Import Ascii String.
From S2P Require Import Prelude FixedPoint Calendar Double Lists NtpTypes Text AuthKeys Monitor Restrict State ProtoBase Peer Refclock Filter RefclockPoll Control ControlVars ControlOps.
From stdpp Require Import base gmap list.
#[local] Open Scope Z_scope.

(** [decode_bitflags] (libntp/statestr.c), in a buffer of 128 characters. *)
Fixpoint bit_names (sep sep2 : list Z) (bits : Z) (tab : list (Z * string)) : list Z :=
  match tab with
  | [] => []
  | (code, name) :: tab =>
      if has code bits then sep ++ chars name ++ bit_names sep2 sep2 bits tab else bit_names sep sep2 bits tab
  end.
Definition decode_bitflags (bits : Z) (sep2 : list Z) (tab : list (Z * string)) : list Z :=
  let text := bit_names [] sep2 bits tab in
  if Z.of_nat (length text) <? 128 then text
  else take 127 (txt "decode_bitflags() can't decode 0x" ++ fmt_x (u32 bits) ++ txt " in 128 bytes").
Definition res_match_flags (mf : Z) : list Z :=
  decode_bitflags mf [32] [(RESM_NTPONLY, "ntpport"); (RESM_INTERFACE, "interface"); (RESM_SOURCE, "source")]%string.
Definition res_access_flags (af : Z) : list Z :=
  decode_bitflags af [32]
    [(RES_IGNORE, "ignore"); (RES_DONTSERVE, "noserve"); (RES_DONTTRUST, "notrust"); (RES_NOQUERY, "noquery");
     (RES_NOMODIFY, "nomodify"); (RES_NOPEER, "nopeer"); (RES_NOTRAP, "notrap"); (RES_LPTRAP, "lptrap");
     (RES_LIMITED, "limited"); (RES_VERSION, "version"); (RES_KOD, "kod"); (RES_FLAKE, "flake")]%string.

(** ** Random order of the fields of a row *)

(** [while (sent[which]) which = (which + 1) % size;] *)
Fixpoint unsent (fuel : nat) (size which : Z) (sent : list Z) : Z :=
  match fuel with
  | O => which
  | S fuel => if existsb (Z.eqb which) sent then unsent fuel size ((which + 1) mod size) sent else which
  end.

Section Lists.
Context `{Env, CtlEnv}.

Definition rand (c : ctl) : Z * ctl := let '(r, g) := next_rand (c_rand c) in (r, c <| c_rand := g |>).
(** [rand() ^ (rand() << 16)] *)
Definition noise_word (c : ctl) : Z * ctl :=
  let '(a, c) := rand c in let '(b, c) := rand c in (Z.lxor a (s32 (Z.shiftl b 16)), c).

(** The fields in the order drawn.  A field takes [bits] bits of the noise,
    which is drawn anew when [avail] bits are too few. *)
Fixpoint field_order (n : nat) (bits size noise avail : Z) (sent : list Z) (c : ctl) : list Z * ctl :=
  match n with
  | O => ([], c)
  | S n =>
      let '(noise, avail, c) :=
        if avail <? bits then let '(w, c) := noise_word c in (u32 w, 31, c) else (noise, avail, c) in
      let which := unsent (Z.to_nat size) size ((noise .& (2 ^ bits - 1)) mod size) sent in
      let '(rest, c) := field_order n bits size (Z.shiftr noise bits) (avail - bits) (which :: sent) c in
      (which :: rest, c)
  end.

(** [tag.index] *)
Definition indexed_tag (tag : string) (i : Z) : list Z := chars tag ++ 46 :: fmt_d i.

Definition send_random_tag_value (indx : Z) (c : ctl) : option ctl :=
  let '(noise, c) := noise_word c in
  let ch (n : Z) := s8 (97 + n %c 26) in
  let n1 := Z.shiftr noise 5 in
  let n2 := Z.shiftr n1 5 in
  ctl_putuint (map u8 [ch noise; ch n1; ch n2] ++ 46 :: fmt_d indx) (u64 (Z.shiftr n2 5)) c.

(** ** Recent clients *)

Definition mru_field (m : mon_entry) (count which : Z) : ctl -> option ctl :=
  match which with
  | 0 => ctl_putunqstr (indexed_tag "addr" count) (sockporttoa (me_rmtadr m))
  | 1 => ctl_putts (indexed_tag "last" count) (me_last m)
  | 2 => ctl_putts (indexed_tag "first" count) (me_first m)
  | 3 => ctl_putint (indexed_tag "ct" count) (me_count m)
  | 4 => ctl_putuint (indexed_tag "mv" count) (me_vn_mode m)
  | _ => ctl_puthex (indexed_tag "rs" count) (me_flags m)
  end.
Definition send_mru_entry (m : mon_entry) (count : Z) (c : ctl) : option ctl :=
  let '(w, c) := noise_word c in
  let '(order, c) := field_order 6 3 6 (u32 w) 1000 [] c in
  put_all (mru_field m count) order c.

(** The parameters of a request. *)
Record mru_parms := mk_parms {
  mp_nonce : option (list Z); mp_frags : Z; mp_limit : Z; mp_mincount : Z; mp_resall : Z; mp_resany : Z;
  mp_maxlstint : Z; mp_lcladr : option Z; mp_last : list l_fp; mp_addr : list sockaddr; mp_priors : Z }.
#[export] Instance eta_parms : Eta mru_parms := fun r =>
  mk_parms (mp_nonce r) (mp_frags r) (mp_limit r) (mp_mincount r) (mp_resall r) (mp_resany r)
    (mp_maxlstint r) (mp_lcladr r) (mp_last r) (mp_addr r) (mp_priors r).
Definition zero_sock : sockaddr := mk_sockaddr 0 0 0 0.
Definition zero_parms : mru_parms :=
  mk_parms None 0 0 0 0 0 0 None (replicate 16 lzero) (replicate 16 zero_sock) 0.

Definition in_parms : list ctl_var :=
  number_vars 0 0 ["nonce"; "frags"; "limit"; "mincount"; "resall"; "resany"; "maxlstint"; "laddr"]%string
  ++ concat (map (fun i => [mk_var (8 + 2 * i) 0 (indexed_tag "last" i); mk_var (9 + 2 * i) 0 (indexed_tag "addr" i)])
                 (zrange 0 16)).

Definition scan_dec (old : Z) (conv : Z -> Z) (val : list Z) : Z :=
  match scan_num 10 NOWIDTH val with Some (v, _) => conv v | None => old end.
Definition scan_0x (old : Z) (val : list Z) : Z :=
  match literal (txt "0x") val ≫= scan_num 16 NOWIDTH with Some (v, _) => u16 (to_ulong v) | None => old end.
Definition scan_lfp (val : list Z) : option l_fp :=
  l ← literal (txt "0x") val;
  '(i, l) ← scan_num 16 8 l;
  l ← literal [46] l;
  '(f, _) ← scan_num 16 8 l;
  Some (mk_lfp (u32 (to_ulong i)) (u32 (to_ulong f))).

(** One parameter; [None] is the failed assertion of [decodenetnum]. *)
Definition mru_parm (code : Z) (val : list Z) (s : state) (r : mru_parms) : option mru_parms :=
  match code with
  | 0 => Some (r <| mp_nonce := Some val |>)
  | 1 => Some (r <| mp_frags := scan_dec (mp_frags r) (fun v => u16 (to_ulong v)) val |>)
  | 2 => Some (r <| mp_limit := scan_dec (mp_limit r) (fun v => u32 (to_ulong v)) val |>)
  | 3 => Some (r <| mp_mincount := Z.max 0 (scan_dec 0 (fun v => s32 (to_long v)) val) |>)
  | 4 => Some (r <| mp_resall := scan_0x (mp_resall r) val |>)
  | 5 => Some (r <| mp_resany := scan_0x (mp_resany r) val |>)
  | 6 => Some (r <| mp_maxlstint := scan_dec (mp_maxlstint r) (fun v => u32 (to_ulong v)) val |>)
  | 7 => a ← decodenetnum val;
         Some (match a with Some a => r <| mp_lcladr := getinterface a 0 s |> | None => r end)
  | _ =>
      let i := (code - 8) / 2 in
      let n := Z.to_nat i in
      let next (cond : bool) (r : mru_parms) :=
        if cond && (i =? mp_priors r) then r <| mp_priors := mp_priors r + 1 |> else r in
      if Z.even code then
        Some (match scan_lfp val with
              | None => r
              | Some ts => next (negb (sa_family (nth n (mp_addr r) zero_sock) =? 0))
                             (r <| mp_last := <[n := ts]> (mp_last r) |>)
              end)
      else
        a ← decodenetnum val;
        Some (match a with
              | None => r
              | Some a => let l := nth n (mp_last r) lzero in
                          next (nonzero (l_ui l) && nonzero (l_uf l)) (r <| mp_addr := <[n := a]> (mp_addr r) |>)
              end)
  end.
Fixpoint get_parms (fuel : nat) (r : mru_parms) (c : ctl) : option (mru_parms * ctl) :=
  match fuel with
  | O => None
  | S fuel =>
      '(i, c) ← ctl_getitem in_parms c;
      match i with
      | Item v val => r ← mru_parm (v_code v) val (eng c) r; get_parms fuel r c
      | _ => Some (r, c)
      end
  end.

(** The entry a client has seen last, unchanged. *)
Fixpoint find_prior (m : mon_state) (priors : list (sockaddr * l_fp)) : option Z :=
  match priors with
  | [] => None
  | (a, last) :: priors =>
      match chain_find (fun e => ADDR_PORT_EQ (me_rmtadr (mon_at m e)) a) (bucket (mon_hash m) (MON_HASH m a)) with
      | Some e => if L_ISEQU (me_last (mon_at m e)) last then Some e else find_prior m priors
      | None => find_prior m priors
      end
  end.
(** The list from an entry on, towards the newer ones. *)
Fixpoint from_entry (e : Z) (l : list Z) : list Z :=
  match l with
  | [] => []
  | x :: l' => if x =? e then l else from_entry e l'
  end.

Definition mru_skip (r : mru_parms) (now : l_fp) (m : mon_entry) : bool :=
  (me_count m <? mp_mincount r)
  || (nonzero (mp_resall r) && negb (mp_resall r =? (mp_resall r .& me_flags m)))
  || (nonzero (mp_resany r) && negb (has (mp_resany r) (me_flags m)))
  || ((0 <? mp_maxlstint r) && (mp_maxlstint r <? u32 (l_ui now - l_ui (me_last m))))
  || match mp_lcladr r with Some e => negb (me_lcladr m =? e) | None => false end.

(** The rows; the last result is the last entry sent, and whether the list
    was exhausted. *)
Fixpoint mru_rows (r : mru_parms) (frags limit : Z) (now : l_fp) (l : list Z) (count : Z) (prior : option mon_entry) (c : ctl) :
    option (Z * option mon_entry * bool * ctl) :=
  match l with
  | [] => Some (count, prior, true, c)
  | e :: l =>
      if (res_frags c <? frags) && (count <? limit) then
        let m := mon_at (mon (eng c)) e in
        if mru_skip r now m then mru_rows r frags limit now l count prior c
        else
          c ← send_mru_entry m count c;
          c ← (if count =? 0 then send_random_tag_value 0 c else Some c);
          mru_rows r frags limit now l (u32 (count + 1)) (Some m) c
      else Some (count, prior, false, c)
  end.

(** From the starting point to the end of the response. *)
Definition mru_send (rb : recvbuf) (r : mru_parms) (frags limit : Z) (l : list Z) (c : ctl) : option ctl :=
  let '(now, s) := get_systime (eng c) in
  '(nonce, c) ← generate_nonce rb (c <| eng := s |>);
  c ← ctl_putunqstr (txt "nonce") nonce c;
  '(count, prior, done, c) ← mru_rows r frags limit now l 0 None c;
  c ← (if done : bool then
         c ← (if 1 <? count then send_random_tag_value (s32 (count - 1)) c else Some c);
         c ← ctl_putts (txt "now") now c;
         match prior with Some m => ctl_putts (txt "last.newest") (me_last m) c | None => Some c end
       else Some c);
  ctl_flushpkt 0 c.

Definition read_mru_list (rb : recvbuf) (mask : Z) (c : ctl) : option ctl :=
  if has RES_NOMRULIST mask then c ← ctl_error CERR_PERMISSION c; Some (count_restricted c)
  else
    '(r, c) ← get_parms (S (length (req c))) zero_parms c;
    match mp_nonce r with
    | None => Some c
    | Some pnonce =>
        '(valid, c) ← validate_nonce pnonce rb c;
        if negb valid then Some c
        else
          let frags := mp_frags r in
          let limit := mp_limit r in
          if ((frags =? 0) && negb ((0 <? limit) && (limit <=? MRU_ROW_LIMIT))) || (MRU_FRAGS_LIMIT <? frags)
          then ctl_error CERR_BADVALUE c
          else
            let limit' := if nonzero frags && (limit =? 0) then 2 ^ 32 - 1 else limit in
            let frags' := if nonzero frags then frags else MRU_FRAGS_LIMIT in
            let m := mon (eng c) in
            let oldest := rev (mon_mru_list m) in
            if mp_priors r =? 0 then mru_send rb r frags' limit' oldest c
            else
              match find_prior m (take (Z.to_nat (mp_priors r)) (zip (mp_addr r) (mp_last r))) with
              | None => ctl_error CERR_UNKNOWNVAR c
              | Some e =>
                  c ← ctl_putts (txt "last.older") (me_last (mon_at m e)) c;
                  c ← ctl_putunqstr (txt "addr.older") (sockporttoa (me_rmtadr (mon_at m e))) c;
                  let l := from_entry e oldest in
                  mru_send rb r frags' limit' (if 1 <? limit' then tail l else l) c
              end
    end.

(** ** Local addresses and restrictions *)

Definition if_tags : list string :=
  ["addr"; "bcast"; "en"; "name"; "flags"; "tl"; "mc"; "rx"; "tx"; "txerr"; "pc"; "up"]%string.
Definition if_field (ifnum : Z) (values : list (list Z)) (which : Z) : ctl -> option ctl :=
  let n := Z.to_nat which in
  let tag := chars (nth n if_tags ""%string) ++ 46 :: fmt_u ifnum in
  let value := nth n values [] in
  match which with
  | 0 | 1 => ctl_putunqstr tag value
  | 3 => ctl_putstr tag value
  | _ => put_tagged tag value
  end.
Definition send_ifstats_entry (ifnum : Z) (values : list (list Z)) (c : ctl) : option ctl :=
  let '(order, c) := field_order 12 4 12 0 0 [] c in
  c ← put_all (if_field ifnum values) order c;
  send_random_tag_value (s32 ifnum) c.

(** Rows in the order of the numbers, whatever the order of the list. *)
Fixpoint send_ifstats (rows : list (Z * list (list Z))) (idxs : list Z) (c : ctl) : option ctl :=
  match idxs with
  | [] => Some c
  | i :: idxs =>
      c ← (match List.find (fun r => fst r =? i) rows with
           | Some (_, values) => send_ifstats_entry i values c
           | None => Some c
           end);
      send_ifstats rows idxs c
  end.
Definition read_ifstats (c : ctl) : option ctl :=
  c ← send_ifstats (if_list (eng c)) (zrange 0 (Z.to_nat (sys_ifnum (eng c)))) c;
  ctl_flushpkt 0 c.

Definition restrict_field (r : restrict_u) (ipv6 : bool) (idx which : Z) : ctl -> option ctl :=
  let fam := if ipv6 then AF_INET6 else AF_INET in
  let tag (t : string) := chars t ++ 46 :: fmt_u idx in
  match which with
  | 0 => ctl_putunqstr (tag "addr"%string) (socktoa (Some (mk_sockaddr fam (ru_addr r) 0 0)))
  | 1 => ctl_putunqstr (tag "mask"%string) (socktoa (Some (mk_sockaddr fam (ru_mask r) 0 0)))
  | 2 => ctl_putuint (tag "hits"%string) (ru_count r)
  | _ =>
      let match_str := res_match_flags (ru_mflags r) in
      let access_str := res_access_flags (ru_flags r) in
      ctl_putunqstr (tag "flags"%string)
        (match match_str with [] => access_str | _ => take 127 (match_str ++ 32 :: access_str) end)
  end.
Definition send_restrict_entry (r : restrict_u) (ipv6 : bool) (idx : Z) (c : ctl) : option ctl :=
  let '(order, c) := field_order 4 2 4 0 0 [] c in
  c ← put_all (restrict_field r ipv6 idx) order c;
  send_random_tag_value (s32 idx) c.
Fixpoint send_restrict_list (l : list Z) (ipv6 : bool) (idx : Z) (c : ctl) : option (Z * ctl) :=
  match l with
  | [] => Some (idx, c)
  | p :: l =>
      c ← send_restrict_entry (res_at (restr (eng c)) p) ipv6 idx c;
      send_restrict_list l ipv6 (u32 (idx + 1)) c
  end.
Definition read_addr_restrictions (c : ctl) : option ctl :=
  '(idx, c) ← send_restrict_list (restrictlist4 (restr (eng c))) false 0 c;
  '(_, c) ← send_restrict_list (restrictlist6 (restr (eng c))) true idx c;
  ctl_flushpkt 0 c.

Definition read_ordlist (rb : recvbuf) (c : ctl) : option ctl :=
  let octets := be_val (take 2 (drop 10 (rb_bytes rb))) in
  let data := drop 12 (rb_bytes rb) in
  let asks (t : list Z) := (octets =? Z.of_nat (length t)) && bool_decide (take (length t) data = t) in
  if (octets =? 0) || asks (txt "ifstats") then read_ifstats c
  else if asks (txt "addr_restrictions") then read_addr_restrictions c
  else ctl_error CERR_UNKNOWNVAR c.

(** ** Dispatch *)

Inductive handler :=
| H_unspec | H_readstat | H_readvar | H_writevar | H_readclock | H_writeclock | H_settrap | H_configure
| H_saveconfig | H_read_mru | H_read_ordlist | H_req_nonce | H_unsettrap.

(** [control_codes]: opcode, whether authentication is required, handler. *)
Definition control_codes : list (Z * bool * handler) :=
  [(0, false, H_unspec); (1, false, H_readstat); (2, false, H_readvar); (3, true, H_writevar);
   (4, false, H_readclock); (5, false, H_writeclock); (6, false, H_settrap); (8, true, H_configure);
   (9, true, H_saveconfig); (10, false, H_read_mru); (11, true, H_read_ordlist); (12, false, H_req_nonce);
   (31, false, H_unsettrap)].

Definition run_handler (h : handler) (rb : recvbuf) (mask : Z) (c : ctl) : option ctl :=
  match h with
  | H_unspec => control_unspec c
  | H_readstat => read_status c
  | H_readvar => read_variables c
  | H_writevar => write_variables c
  | H_readclock => read_clockstatus c
  | H_writeclock => ctl_error CERR_PERMISSION c
  | H_settrap => set_trap rb mask c
  | H_configure => configure rb mask c
  | H_saveconfig => save_config mask c
  | H_read_mru => read_mru_list rb mask c
  | H_read_ordlist => read_ordlist rb c
  | H_req_nonce => req_nonce rb c
  | H_unsettrap => unset_trap rb mask c
  end.

Definition field16 (rb : recvbuf) (off : nat) : Z := be_val (take 2 (drop off (rb_bytes rb))).

(** What a packet without a proper header counts as. *)
Definition count_bad (rb : recvbuf) (c : ctl) : ctl :=
  let op := byte_at (rb_bytes rb) 1 in
  let c := if rb_length rb <? CTL_HEADER_LEN then c .+ numctltooshort else c in
  let c := if has CTL_RESPONSE op then c .+ numctlinputresp else c in
  let c := if has CTL_MORE op then c .+ numctlinputfrag else c in
  let c := if has CTL_ERROR op then c .+ numctlinputerr else c in
  if nonzero (field16 rb 8) then c .+ numctlbadoffset else c.

(** The response set up from the request. *)
Definition start_response (rb : recvbuf) (version : Z) (c : ctl) : ctl :=
  c <|rp rp_li_vn_mode := PKT_LI_VN_MODE (sys_leap (sv (eng c))) version MODE_CONTROL |>
    <| res_opcode := byte_at (rb_bytes rb) 1 |>
    <|rp rp_sequence := field16 rb 2 |> <|rp rp_associd := field16 rb 6 |> <|rp rp_status := 0 |>
    <| res_frags := 1 |> <| res_offset := 0 |> <| res_associd := field16 rb 6 |> <| res_async := false |>
    <| res_authenticate := false |> <| res_keyid := 0 |> <| res_authokay := false |>
    <| datanotbinflag := false |> <| datalinelen := 0 |> <| datapt := 0 |>.

(** The MAC, when the length leaves room for one. *)
Definition check_mac (rb : recvbuf) (req_count : Z) (c : ctl) : option ctl :=
  let properlen := Z.land (req_count + CTL_HEADER_LEN + 7) (Z.lnot 7) in
  let maclen := rb_length rb - properlen in
  if (Z.land (rb_length rb) 3 =? 0) && (MIN_MAC_LEN <=? maclen) && (maclen <=? MAX_MAC_LEN)
     && nonzero (sys_authenticate (cf (eng c))) then
    let keyid := word_at (rb_bytes rb) (Z.to_nat properlen) in
    let c := c <| res_authenticate := true |> <| res_keyid := keyid |> in
    let '(trusted, a) := authistrusted keyid (auth (eng c)) in
    let c := c <| eng := (eng c) <| auth := a |> |> in
    if negb trusted then Some c
    else
      '(ok, a) ← authdecrypt keyid (rb_bytes rb) (rb_length rb - maclen) maclen (auth (eng c));
      let c := c <| eng := (eng c) <| auth := a |> |> in
      Some (if ok : bool then c <| res_authokay := true |> else c <| res_keyid := 0 |>)
  else Some c.

Definition dispatch_request (rb : recvbuf) (mask : Z) (c : ctl) : option ctl :=
  match List.find (fun e => fst (fst e) =? res_opcode c) control_codes with
  | Some (_, need, h) =>
      if need && (negb (res_authokay c) || negb (res_keyid c =? ctl_auth_keyid c))
      then ctl_error CERR_PERMISSION c
      else run_handler h rb mask c
  | None => ctl_error CERR_BADOP (c .+ numctlbadop)
  end.

Definition process_control (rb : recvbuf) (mask : Z) (c : ctl) : option ctl :=
  let c := (c .+ numctlreq) <| rmt_addr := rb_srcadr rb |> <| lcl_inter := Some (rb_dstadr rb) |> in
  if (rb_length rb <? CTL_HEADER_LEN) || has (CTL_RESPONSE .| CTL_MORE .| CTL_ERROR) (byte_at (rb_bytes rb) 1)
     || nonzero (field16 rb 8)
  then Some (count_bad rb c)
  else
    let version := PKT_VERSION (byte_at (rb_bytes rb) 0) in
    let c := c <| res_version := version |> in
    if (NTP_VERSION <? version) || (version <? NTP_OLDVERSION) then Some (c .+ numctlbadversion)
    else
      let c := start_response rb version c in
      let req_count := field16 rb 10 in
      if (rb_length rb - CTL_HEADER_LEN <? req_count) || nonzero (Z.land (rb_length rb) 3)
      then c ← ctl_error CERR_BADFMT c; Some (c .+ numctldatatooshort)
      else
        c ← check_mac rb req_count c;
        dispatch_request rb mask (c <| req := take (Z.to_nat req_count) (drop 12 (rb_bytes rb)) |>).

(** ** Traps: the message of an event ([report_event], after the log) *)

Definition trap_event (err : Z) (peer : option Z) (c : ctl) : option ctl :=
  if num_ctl_traps c <=? 0 then Some c
  else
    let c := c <| res_opcode := 7 |> <| res_offset := 0 |> <| res_async := true |>
               <| res_authenticate := false |> <| datapt := 0 |> in
    c ← (if negb (has err PEER_EVENT) then
           let c := put_status (ctlsysstatus (eng c)) (c <|rp rp_associd := 0 |>) in
           put_all ctl_putsys (zrange 1 (Z.to_nat CS_VARLIST)) c
         else
           p ← peer;
           let r := peer_at (eng c) p in
           let c := put_status (ctlpeerstatus r) (c <|rp rp_associd := p_associd r |>) in
           c ← put_all (fun id => ctl_putpeer id p) (zrange 1 (Z.to_nat CP_MAXCODE)) c;
           if err =? PEVNT_CLOCK then
             '(o, s) ← refclock_control (p_srcadr r) None true (eng c);
             stat ← o;
             c ← ctl_puthex (txt "refclockstatus") (ctlclkstatus stat) (c <| eng := s |>);
             c ← put_all (fun id => ctl_putclock id stat false) (zrange 1 (Z.to_nat CC_MAXCODE)) c;
             put_all (put_ext (kv_list stat)) (def_ext (kv_list stat)) c
           else Some c);
    ctl_flushpkt 0 c.
End Lists.
