(* ===== verification/ControlSample.v ===== *)
(** * A concrete mode 6 server

    The instance the closed statements on the server evaluate on: the daemon
    of Sample with the variable every daemon installs, and requests as a
    client sends them. *)

From Stdlib Require Import Ascii String.
From S2P Require Import Prelude FixedPoint Calendar Double Lists NtpTypes Text AuthKeys Monitor Restrict RestrictFacts State ProtoBase Peer Refclock Filter RefclockPoll Sample Control ControlVars ControlOps ControlMain.
From stdpp Require Import base gmap list.
#[local] Open Scope Z_scope.

Definition sample_ctlenv : CtlEnv := {|
  ctl_text := fun a => fmt_x a;
  uts_machine := txt "amd64"; uts_sysname := txt "Unix"; uts_release := txt "1"; Version := txt "ntpd 4.2.7";
  sizeof_mon_entry := 96; leap_expire := 0; sys_stattime := 0; auth_timereset := 0; io_timereset := 0;
  total_recvbuffs := 10; free_recvbuffs := 9; full_recvbuffs := 0; lowater_additions := 0;
  packets_dropped := 0; packets_ignored := 0; packets_received := 0; packets_sent := 0; packets_notsent := 0;
  handler_calls := 0; handler_pkts := 0; timer_timereset := 0; alarm_overflow := 0; timer_xmtcalls := 0;
  sys_fuzz := dzero; sstclktype := fun _ _ => 0; clockdesc := fun _ => []; kv_list := fun _ => [];
  next_rand := fun g => ((g * 1103515245 + 12345) mod 2 ^ 31, (g * 1103515245 + 12345) mod 2 ^ 31);
  getaddrinfo := fun _ => None; getinterface := fun _ _ _ => None;
  config_remotely := fun _ _ s => (None, s); sys_ifnum := fun _ => 0; if_list := fun _ => [] |}.

(** The variable with the version is installed at start ([getconfig]). *)
Definition sample_ctl : ctl :=
  mk_ctl sample_state (mk_stats 0 0 0 0 0 0 0 0 0 0 0 0 0 0 0) (mk_rpkt 0 0 0 0 0 0 0 (replicate 504 0))
    0 0 0 0 0 0 0 false zero_sock None false false 0 false [] 0 (replicate 3 zero_trap) 0
    [mk_var 0 RO (txt "daemon_version=1")] 0 7 1.

(** A request from 10.0.0.9 in version 4. *)
Definition request (op assoc : Z) (text : list Z) : recvbuf :=
  let n := Z.of_nat (length text) in
  let bytes := [0x26; op] ++ be16 1 ++ be16 0 ++ be16 assoc ++ be16 0 ++ be16 n ++ text ++ padding (n + 12) 4 in
  mk_recvbuf (v4 0x0a000009) 1 3 (mk_lfp 2999999999 5) (Z.of_nat (length bytes)) bytes.

(** The payloads of the packets sent. *)
Definition payloads (o : option ctl) : option (list (list Z)) :=
  c ← o; Some (map (fun x => match x with Sendpkt _ _ _ b => drop 12 b | _ => [] end) (out (eng c))).
