(* ===== verification/ControlFacts.v ===== *)
(** * The mode 6 server: a response reassembles

    A client collects the fragments of a response by their offsets until one
    comes without the "more" bit.  The file specifies that client, and the
    text a list of items makes, and proves that what the server sends for
    the items is what the client reads, with every write inside the response
    buffer. *)

From S2P Require Import Prelude FixedPoint Double Lists NtpTypes Text AuthKeys AuthFacts Monitor Restrict State ProtoBase Control.
From stdpp Require Import base gmap list.
#[local] Open Scope Z_scope.

(** ** The client *)

Definition frag_offset (b : list Z) : Z := be_val (take 2 (drop 8 b)).
Definition frag_count (b : list Z) : Z := be_val (take 2 (drop 10 b)).
Definition frag_data (b : list Z) : list Z := take (Z.to_nat (frag_count b)) (drop 12 b).

(** The data from offset [o] on: every fragment but the last has more. *)
Fixpoint reassemble (o : Z) (l : list (list Z)) : option (list Z) :=
  match l with
  | [] => None
  | b :: l =>
      if has (byte_at b 1) CTL_RESPONSE && (frag_offset b =? o) && (frag_count b <=? Z.of_nat (length b) - 12) then
        if has (byte_at b 1) CTL_MORE then (frag_data b ++.) <$> reassemble (o + frag_count b) l
        else match l with [] => Some (frag_data b) | _ => None end
      else None
  end.

(** ** The text of a list of items *)

(** Items after the first: a comma and a space, or a line break when the
    line would reach [MAXDATALINELEN]. *)
Fixpoint layout_rest (line : Z) (items : list (list Z)) : list Z :=
  match items with
  | [] => []
  | x :: items =>
      let n := Z.of_nat (length x) in
      if MAXDATALINELEN <=? n + line + 2 then [44; 13; 10] ++ x ++ layout_rest n items
      else [44; 32] ++ x ++ layout_rest (line + 2 + n) items
  end.
Definition layout (items : list (list Z)) : list Z :=
  match items with [] => [] | x :: items => x ++ layout_rest (Z.of_nat (length x)) items end.

(** An item of a response: not empty, and small enough for a packet. *)
Definition item_ok (x : list Z) : Prop := 0 < Z.of_nat (length x) <= CTL_MAX_DATA_LEN - 3.

Fixpoint put_items `{Env} (items : list (list Z)) (c : ctl) : option ctl :=
  match items with
  | [] => Some c
  | x :: items => c ← ctl_putdata x false c; put_items items c
  end.

(** ** Bytes *)

Lemma length_be_bytes n x : length (be_bytes n x) = n.
Proof. revert x. induction n as [|n IH]; intros x; cbn; [done |]. now rewrite IH. Qed.

Lemma be_val_be16 x : is_u16 x -> be_val (be16 x) = x.
Proof.
  intros H. unfold be_val, be16, be_bytes. cbn [fold_left Z.of_nat Z.mul Pos.of_succ_nat Pos.succ].
  change 255 with (2 ^ 8 - 1). rewrite !land_ones_mod, !Z.shiftr_div_pow2 by lia.
  unfold_ranges. cbn. divlia.
Qed.

Lemma rpkt_bytes_split r :
  exists h, length h = 12%nat /\ rpkt_bytes r = h ++ rp_data r /\ byte_at h 1 = rp_r_m_e_op r /\
    take 2 (drop 8 h) = be16 (rp_offset r) /\ drop 10 h = be16 (rp_count r) /\
    byte_at h 0 = rp_li_vn_mode r /\ take 2 (drop 2 h) = be16 (rp_sequence r).
Proof.
  eexists ([rp_li_vn_mode r; rp_r_m_e_op r] ++ be16 (rp_sequence r) ++ be16 (rp_status r) ++ be16 (rp_associd r)
           ++ be16 (rp_offset r) ++ be16 (rp_count r)).
  unfold be16, be_bytes. cbn. auto 7.
Qed.

(** What a client reads of a packet with [n] bytes of data sent. *)
Lemma rpkt_fields r n :
  is_u16 (rp_offset r) -> is_u16 (rp_count r) -> rp_count r <= Z.of_nat n <= Z.of_nat (length (rp_data r)) ->
  let b := take (12 + n) (rpkt_bytes r) in
  byte_at b 1 = rp_r_m_e_op r /\ frag_offset b = rp_offset r /\ frag_count b = rp_count r /\
  frag_data b = take (Z.to_nat (rp_count r)) (rp_data r) /\ length b = (12 + n)%nat.
Proof.
  intros Ho Hc Hn b. destruct (rpkt_bytes_split r) as (h & Hl & E & H1 & H2 & H3 & _).
  assert (Eb : b = h ++ take n (rp_data r)).
  { unfold b. rewrite E, take_app_ge by lia. f_equal. f_equal. lia. }
  clearbody b. subst b. unfold frag_offset, frag_data, frag_count, byte_at in *.
  assert (D8 : drop 8 (h ++ take n (rp_data r)) = drop 8 h ++ take n (rp_data r)) by (rewrite drop_app_le by lia; done).
  assert (D10 : drop 10 (h ++ take n (rp_data r)) = drop 10 h ++ take n (rp_data r)) by (rewrite drop_app_le by lia; done).
  assert (C : be_val (take 2 (drop 10 (h ++ take n (rp_data r)))) = rp_count r).
  { rewrite D10, take_app_le by (rewrite length_drop; lia). rewrite H3. now apply be_val_be16. }
  rewrite C. split; [rewrite app_nth1 by lia; exact H1 |]. split.
  { rewrite D8, take_app_le by (rewrite length_drop; lia). rewrite H2. now apply be_val_be16. }
  split; [done |]. split.
  { replace 12%nat with (length h) at 1 by lia. rewrite drop_app_length, take_take. f_equal. lia. }
  rewrite length_app, length_take. lia.
Qed.

(** What a packet has in common with all packets of a response. *)
Definition envelope (r : rpkt) (b : list Z) : Prop :=
  byte_at b 0 = rp_li_vn_mode r /\ take 2 (drop 2 b) = be16 (rp_sequence r) /\ Z.of_nat (length b) mod 4 = 0.

Lemma rpkt_envelope r n :
  (n <= length (rp_data r))%nat -> (12 + Z.of_nat n) mod 4 = 0 -> envelope r (take (12 + n) (rpkt_bytes r)).
Proof.
  intros Hn H4. destruct (rpkt_bytes_split r) as (h & Hl & E & _ & _ & _ & H0 & H2).
  rewrite E, take_app_ge by lia. unfold envelope, byte_at in *. rewrite app_nth1 by lia.
  rewrite drop_app_le, take_app_le by (try rewrite length_drop; lia). rewrite length_app, length_take, Hl.
  split; [exact H0 |]. split; [exact H2 |]. rewrite <- H4. f_equal. lia.
Qed.

(** ** Writes into the response buffer *)

Definition pending (c : ctl) : list Z := take (Z.to_nat (datapt c)) (rp_data (rp c)).

Definition in_buffer (c : ctl) : Prop :=
  0 <= datapt c <= CTL_DATA_SIZE /\ Z.of_nat (length (rp_data (rp c))) = CTL_DATA_SIZE.

(** The plain response: not to the traps, and without a MAC. *)
Definition plain (c : ctl) : Prop :=
  res_async c = false /\ res_authenticate c && nonzero (sys_authenticate (cf (eng c))) = false.

(** The parts of the state a write leaves alone, besides the engine. *)
Record same_response (c c' : ctl) : Prop := {
  sr_offset : res_offset c' = res_offset c; sr_opcode : res_opcode c' = res_opcode c;
  sr_rmt : rmt_addr c' = rmt_addr c; sr_lcl : lcl_inter c' = lcl_inter c;
  sr_async : res_async c' = res_async c; sr_auth : res_authenticate c' = res_authenticate c;
  sr_flag : datanotbinflag c' = datanotbinflag c; sr_line : datalinelen c' = datalinelen c;
  sr_li : rp_li_vn_mode (rp c') = rp_li_vn_mode (rp c); sr_seq : rp_sequence (rp c') = rp_sequence (rp c) }.

Lemma same_trans c1 c2 c3 : same_response c1 c2 -> same_response c2 c3 -> same_response c1 c3.
Proof. intros [] []. split; congruence. Qed.

Lemma put_spec bs c :
  in_buffer c -> datapt c + Z.of_nat (length bs) <= CTL_DATA_SIZE ->
  exists c', put bs c = Some c' /\ in_buffer c' /\ same_response c c' /\ eng c' = eng c /\
    datapt c' = datapt c + Z.of_nat (length bs) /\ pending c' = pending c ++ bs.
Proof.
  intros [B1 B2] Hn. unfold put, in_buffer, pending. rewrite poke_Some by lia. cbn [mbind option_bind].
  eexists. split; [reflexivity |]. cbn -[CTL_DATA_SIZE take drop].
  assert (L : length (take (Z.to_nat (datapt c)) (rp_data (rp c))) = Z.to_nat (datapt c)) by (rewrite length_take; lia).
  split; [split; [lia |]; rewrite !length_app, length_drop, L; lia |]. split; [now split |]. split; [done |]. split; [done |].
  rewrite app_assoc, take_app_le by (rewrite length_app; lia). rewrite take_ge by (rewrite length_app; lia). done.
Qed.

Lemma pending_length c : in_buffer c -> Z.of_nat (length (pending c)) = datapt c.
Proof. intros [? ?]. unfold pending. rewrite length_take. lia. Qed.

Lemma length_padding len m : 0 < m -> Z.of_nat (length (padding len m)) = (- len) mod m.
Proof. intros Hm. unfold padding. rewrite length_replicate, Z2Nat.id; [done |]. apply Z.mod_pos_bound. lia. Qed.

Lemma pending_app c n : in_buffer c -> n <= datapt c -> take (Z.to_nat n) (rp_data (rp c)) = take (Z.to_nat n) (pending c).
Proof. intros [? ?] Hn. unfold pending. rewrite take_take. f_equal. lia. Qed.

(** ** Flushing *)

Section Flush.
Context `{Env}.

(** A packet with payload [data] of the response [c]. *)
Definition fragment (c : ctl) (more : Z) (data b : list Z) : Prop :=
  byte_at b 1 = CTL_RESPONSE .| more .| (res_opcode c .& CTL_OP_MASK) /\ frag_offset b = u16 (res_offset c) /\
  frag_count b = Z.of_nat (length data) /\ frag_data b = data /\ (12 + length data <= length b <= 15 + length data)%nat.

(** The trailing line break. *)
Definition trailer (more : Z) (c : ctl) : list Z :=
  if (more =? 0) && datanotbinflag c && (datapt c + 2 <? CTL_MAX_DATA_LEN) then [13; 10] else [].

Lemma flush_send_plain more n c :
  plain c ->
  exists c', flush_send more n c = Some c' /\ same_response c c' /\ rp c' = rp c /\ datapt c' = datapt c /\
    eng c' = emit (Sendpkt (rmt_addr c) (lcl_inter c) (-6) (take (Z.to_nat n) (rpkt_bytes (rp c)))) (eng c).
Proof.
  intros [P1 P2]. unfold flush_send. rewrite P1, P2. cbn [mbind option_bind]. eexists. split; [reflexivity |].
  destruct (more =? 0); repeat split.
Qed.

(** The header of the packet. *)
Lemma header_fields more c2 n data :
  in_buffer c2 -> Z.of_nat (length data) < 2 ^ 16 -> Z.of_nat (length data) <= n -> n <= datapt c2 ->
  n <= Z.of_nat (length data) + 3 -> take (length data) (pending c2) = data ->
  fragment c2 more data
    (take (Z.to_nat (n + CTL_HEADER_LEN))
       (rpkt_bytes ((rp c2) <| rp_r_m_e_op := CTL_RESPONSE .| more .| (res_opcode c2 .& CTL_OP_MASK) |>
          <| rp_count := u16 (Z.of_nat (length data)) |> <| rp_offset := u16 (res_offset c2) |>))).
Proof.
  intros B Hd H1 H2 H3 Hp. set (r := setter rp_offset _ _).
  assert (C : rp_count r = Z.of_nat (length data)) by (cbn; apply Z.mod_small; lia).
  assert (O : is_u16 (rp_offset r)) by (apply Z.mod_pos_bound; lia).
  destruct B as [B1 B2]. replace (Z.to_nat (n + CTL_HEADER_LEN)) with (12 + Z.to_nat n)%nat by (unfold CTL_HEADER_LEN; lia).
  destruct (rpkt_fields r (Z.to_nat n)) as (G1 & G2 & G3 & G4 & G5);
    [exact O | rewrite C; split; lia | rewrite C; change (rp_data r) with (rp_data (rp c2)); lia |].
  unfold fragment. rewrite G1, G2, G3, G4, G5, C, Nat2Z.id. repeat split; try lia.
  change (rp_data r) with (rp_data (rp c2)). rewrite <- Hp at 2. unfold pending. rewrite take_take. f_equal. lia.
Qed.

Lemma trailer_spec more c :
  in_buffer c -> datapt c <= 480 ->
  exists c1, (if (more =? 0) && datanotbinflag c && (datapt c + 2 <? CTL_MAX_DATA_LEN)
              then c0 ← put [13; 10] c; Some (datapt c + 2, c0) else Some (datapt c, c)) = Some (datapt c1, c1) /\
    in_buffer c1 /\ same_response c c1 /\ eng c1 = eng c /\ pending c1 = pending c ++ trailer more c /\ datapt c1 <= 480.
Proof.
  intros B Hd. unfold trailer. destruct ((more =? 0) && _ && _) eqn:E.
  - destruct (put_spec [13; 10] c B) as (c1 & E1 & B1 & S1 & G1 & D1 & Q1); [unfold CTL_DATA_SIZE, MAX_MAC_LEN; cbn; lia |].
    exists c1. rewrite E1. cbn [mbind option_bind length] in *. apply andb_prop in E as [_ E]. apply Z.ltb_lt in E.
    unfold CTL_MAX_DATA_LEN in E. split; [f_equal; f_equal; lia |]. repeat (split; [done |]). lia.
  - exists c. rewrite app_nil_r. split; [done |]. split; [exact B |]. split; [now split |]. done.
Qed.

(** One packet with what is pending goes out, and the buffer is empty. *)
Lemma flush_spec more c :
  in_buffer c -> plain c -> datapt c <= 480 ->
  exists c' b,
    ctl_flushpkt more c = Some c' /\ fragment c more (pending c ++ trailer more c) b /\
    in_buffer c' /\ plain c' /\ datapt c' = 0 /\
    eng c' = emit (Sendpkt (rmt_addr c) (lcl_inter c) (-6) b) (eng c) /\
    res_offset c' = s32 (res_offset c + Z.of_nat (length (pending c ++ trailer more c))) /\
    res_opcode c' = res_opcode c /\ rmt_addr c' = rmt_addr c /\ lcl_inter c' = lcl_inter c /\
    datalinelen c' = datalinelen c /\ datanotbinflag c' = datanotbinflag c /\
    envelope (rp c) b /\ rp_li_vn_mode (rp c') = rp_li_vn_mode (rp c) /\ rp_sequence (rp c') = rp_sequence (rp c).
Proof.
  intros B [P1 P2] Hd. unfold ctl_flushpkt.
  destruct (trailer_spec more c B Hd) as (c1 & -> & B1 & S1 & G1 & Q1 & D1). cbn [mbind option_bind].
  pose proof (length_padding (datapt c1 + CTL_HEADER_LEN) 4 ltac:(lia)) as Lp.
  set (pad := padding _ 4) in *. pose proof (Z.mod_pos_bound (- (datapt c1 + CTL_HEADER_LEN)) 4 ltac:(lia)) as Hm.
  destruct (put_spec pad c1 B1) as (c2 & E2 & B2 & S2 & G2 & D2 & Q2); [unfold CTL_DATA_SIZE, MAX_MAC_LEN; lia |].
  rewrite E2. cbn [mbind option_bind]. pose proof (same_trans _ _ _ S1 S2) as S. pose proof (pending_length c1 B1) as PL.
  set (data := pending c ++ trailer more c) in *. rewrite Q1 in PL. rewrite <- PL.
  assert (F : fragment c more data (take (Z.to_nat (datapt c2 + CTL_HEADER_LEN)) (rpkt_bytes
       ((rp c2) <| rp_r_m_e_op := CTL_RESPONSE .| more .| (res_opcode c2 .& CTL_OP_MASK) |>
          <| rp_count := u16 (Z.of_nat (length data)) |> <| rp_offset := u16 (res_offset c2) |>)))).
  { pose proof (header_fields more c2 (datapt c2) data B2) as F. unfold fragment in *.
    rewrite (sr_opcode _ _ S), (sr_offset _ _ S) in *. apply F; try lia. rewrite Q2, Q1. now rewrite take_app_length. }
  assert (V : envelope (rp c) (take (Z.to_nat (datapt c2 + CTL_HEADER_LEN)) (rpkt_bytes
       ((rp c2) <| rp_r_m_e_op := CTL_RESPONSE .| more .| (res_opcode c2 .& CTL_OP_MASK) |>
          <| rp_count := u16 (Z.of_nat (length data)) |> <| rp_offset := u16 (res_offset c2) |>)))).
  { replace (Z.to_nat (datapt c2 + CTL_HEADER_LEN)) with (12 + Z.to_nat (datapt c2))%nat by (destruct B2; unfold CTL_HEADER_LEN; lia).
    match goal with |- envelope _ (take _ (rpkt_bytes ?x)) => pose proof (rpkt_envelope x (Z.to_nat (datapt c2))) as V end.
    unfold envelope in *. rewrite <- (sr_li _ _ S), <- (sr_seq _ _ S). apply V; [cbn; destruct B2; lia |].
    destruct B2 as [B2 _]. rewrite Z2Nat.id, D2, Lp by lia. unfold CTL_HEADER_LEN. divlia. }
  match goal with |- context [flush_send _ _ ?x] => set (c3 := x) end.
  destruct (flush_send_plain more (Z.of_nat (length data) + CTL_HEADER_LEN + Z.of_nat (length pad)) c3) as (c4 & E4 & S4 & R4 & D4 & G4).
  { split; [cbn; rewrite (sr_async _ _ S); exact P1 | cbn; rewrite (sr_auth _ _ S), G2, G1; exact P2]. }
  rewrite E4. cbn [mbind option_bind]. assert (S34 : same_response c c4) by (apply (same_trans _ _ _ S); destruct S4; now split).
  replace (Z.of_nat (length data) + CTL_HEADER_LEN + Z.of_nat (length pad)) with (datapt c2 + CTL_HEADER_LEN) in G4 by lia.
  assert (G : eng c3 = eng c) by (change (eng c3) with (eng c2); congruence).
  eexists. eexists. split; [reflexivity |]. split; [exact F |]. destruct S34.
  split; [split; [cbn; unfold CTL_DATA_SIZE, MAX_MAC_LEN; lia | cbn; rewrite R4; apply B2] |].
  split; [split; [cbn; congruence | cbn; rewrite sr_auth0, G4, G; exact P2] |]. split; [done |].
  split; [cbn; rewrite G4, G; f_equal; f_equal; [apply S | apply S] |].
  cbn. split; [congruence |]. repeat (split; [done |]). done.
Qed.

(** ** A response under construction *)

(** The bits of the operation byte a client looks at. *)
Lemma op_bits op more :
  (more = 0 \/ more = CTL_MORE) ->
  has (CTL_RESPONSE .| more .| (op .& CTL_OP_MASK)) CTL_RESPONSE = true /\
  has (CTL_RESPONSE .| more .| (op .& CTL_OP_MASK)) CTL_MORE = nonzero more /\
  has (CTL_RESPONSE .| more .| (op .& CTL_OP_MASK)) CTL_ERROR = false /\
  CTL_OP_MASK .& (CTL_RESPONSE .| more .| (op .& CTL_OP_MASK)) = CTL_OP_MASK .& op.
Proof.
  intros Hm. change CTL_RESPONSE with (2 ^ 7). change CTL_MORE with (2 ^ 5) in *. change CTL_ERROR with (2 ^ 6).
  rewrite !has_bit by lia. rewrite !Z.lor_spec, !Z.land_spec. change (Z.testbit CTL_OP_MASK 7) with false.
  change (Z.testbit CTL_OP_MASK 5) with false. change (Z.testbit CTL_OP_MASK 6) with false. rewrite !andb_false_r.
  split; [destruct Hm as [-> | ->]; reflexivity |]. split; [destruct Hm as [-> | ->]; reflexivity |].
  split; [destruct Hm as [-> | ->]; reflexivity |]. rewrite !Z.land_lor_distr_r.
  replace (CTL_OP_MASK .& 2 ^ 7) with 0 by reflexivity. replace (CTL_OP_MASK .& more) with 0 by (destruct Hm as [-> | ->]; reflexivity).
  rewrite !Z.lor_0_l, (Z.land_comm op), Z.land_assoc. reflexivity.
Qed.

(** A packet of the response [c]. *)
Definition of_response (c : ctl) (b : list Z) : Prop :=
  12 <= Z.of_nat (length b) <= 483 /\ 0 <= frag_count b /\ envelope (rp c) b /\ has (byte_at b 1) CTL_ERROR = false /\
  CTL_OP_MASK .& byte_at b 1 = CTL_OP_MASK .& res_opcode c.

Lemma of_response_frag c more data b :
  (more = 0 \/ more = CTL_MORE) -> fragment c more data b -> envelope (rp c) b -> Z.of_nat (length b) <= 483 -> of_response c b.
Proof.
  intros M (F & _ & F3 & _ & F5) V L. destruct (op_bits (res_opcode c) more M) as (_ & _ & O3 & O4). unfold of_response.
  rewrite F, F3. repeat split; try apply V; first [done | lia].
Qed.

(** The packets [pkts] went out since [c0], and carry [sent]. *)
Record assembling (c0 c : ctl) (pkts : list (list Z)) (sent : list Z) : Prop := {
  as_buf : in_buffer c; as_plain : plain c;
  as_opcode : res_opcode c = res_opcode c0; as_rmt : rmt_addr c = rmt_addr c0; as_lcl : lcl_inter c = lcl_inter c0;
  as_eng : eng c = fold_left (fun s b => emit (Sendpkt (rmt_addr c0) (lcl_inter c0) (-6) b) s) pkts (eng c0);
  as_off : res_offset c = Z.of_nat (length sent);
  as_li : rp_li_vn_mode (rp c) = rp_li_vn_mode (rp c0); as_seq : rp_sequence (rp c) = rp_sequence (rp c0);
  as_size : Forall (of_response c0) pkts;
  as_client : forall l, reassemble 0 (pkts ++ l) = (sent ++.) <$> reassemble (res_offset c) l }.

(** A fragment a client accepts. *)
Lemma reassemble_more c data b l :
  fragment c CTL_MORE data b -> res_offset c < 2 ^ 16 -> 0 <= res_offset c ->
  reassemble (res_offset c) (b :: l) = (data ++.) <$> reassemble (res_offset c + Z.of_nat (length data)) l.
Proof.
  intros (F1 & F2 & F3 & F4 & F5) H1 H2. destruct (op_bits (res_opcode c) CTL_MORE) as (O1 & O2 & _); [now right |].
  cbn [reassemble]. rewrite F1, F2, F3, F4, O1, O2. unfold u16, wrap. rewrite Z.mod_small, Z.eqb_refl by lia.
  rewrite (proj2 (Z.leb_le _ _)) by lia. done.
Qed.

Lemma reassemble_last c data b :
  fragment c 0 data b -> res_offset c < 2 ^ 16 -> 0 <= res_offset c -> reassemble (res_offset c) [b] = Some data.
Proof.
  intros (F1 & F2 & F3 & F4 & F5) H1 H2. destruct (op_bits (res_opcode c) 0) as (O1 & O2 & _); [now left |].
  cbn [reassemble]. rewrite F1, F2, F3, F4, O1, O2. unfold u16, wrap. rewrite Z.mod_small, Z.eqb_refl by lia.
  rewrite (proj2 (Z.leb_le _ _)) by lia. done.
Qed.

Lemma flush_more c0 c pkts sent :
  assembling c0 c pkts sent -> datapt c <= CTL_MAX_DATA_LEN -> Z.of_nat (length (sent ++ pending c)) < 2 ^ 16 ->
  exists c' b, ctl_flushpkt CTL_MORE c = Some c' /\ assembling c0 c' (pkts ++ [b]) (sent ++ pending c) /\
    datapt c' = 0 /\ datalinelen c' = datalinelen c /\ datanotbinflag c' = datanotbinflag c.
Proof.
  intros A Hd Hl. destruct A. destruct (flush_spec CTL_MORE c as_buf0 as_plain0) as (c' & b & E & F & B & P & D & G & O & X1 & X2 & X3 & X4 & X5 & V & X6 & X7);
    [unfold CTL_MAX_DATA_LEN in *; lia |].
  unfold trailer in *. cbn [Z.eqb CTL_MORE andb] in *. rewrite app_nil_r in *. rewrite length_app in Hl.
  assert (O' : res_offset c' = res_offset c + Z.of_nat (length (pending c))) by (rewrite O, s32_small; [done | unfold_ranges; lia]).
  exists c', b. split; [exact E |]. split; [| done]. split; try congruence; try assumption.
  - rewrite fold_left_app. cbn. congruence.
  - rewrite O', as_off0, length_app. lia.
  - apply Forall_app. split; [done |]. apply Forall_singleton.
    assert (W : of_response c b).
    { apply (of_response_frag c CTL_MORE (pending c)); [now right | exact F | exact V |]. destruct F as (_ & _ & _ & _ & F).
      pose proof (pending_length c as_buf0). unfold CTL_MAX_DATA_LEN in *. lia. }
    unfold of_response, envelope in *. rewrite as_opcode0, as_li0, as_seq0 in W. exact W.
  - intros l. rewrite <- app_assoc, as_client0. cbn [app]. rewrite (reassemble_more c _ _ l F) by lia.
    rewrite <- option_fmap_compose, O'. destruct (reassemble _ l); cbn; [now rewrite app_assoc | done].
Qed.

(** A write keeps the packets. *)
Lemma assembling_put c0 c pkts sent bs :
  assembling c0 c pkts sent -> datapt c + Z.of_nat (length bs) <= CTL_DATA_SIZE ->
  exists c', put bs c = Some c' /\ assembling c0 c' pkts sent /\ datapt c' = datapt c + Z.of_nat (length bs) /\
    pending c' = pending c ++ bs /\ datalinelen c' = datalinelen c /\ datanotbinflag c' = datanotbinflag c.
Proof.
  intros A Hb. destruct A. destruct (put_spec bs c as_buf0 Hb) as (c' & E & B & [] & G & D & Q).
  exists c'. split; [exact E |]. split; [| done]. destruct as_plain0 as [P1 P2].
  split; try congruence; try assumption. split; congruence.
Qed.

Lemma assembling_line c0 c pkts sent n : assembling c0 c pkts sent -> assembling c0 (c <| datalinelen := n |>) pkts sent.
Proof. intros []. now split. Qed.
Lemma assembling_text c0 c pkts sent : assembling c0 c pkts sent -> assembling c0 (c <| datanotbinflag := true |>) pkts sent.
Proof. intros []. now split. Qed.

(** The separator, and the line after it. *)
Lemma separator_spec c0 c pkts sent x :
  assembling c0 c pkts sent -> 0 < datapt c <= 465 -> item_ok x -> 0 <= datalinelen c <= 465 ->
  let n := Z.of_nat (length x) in
  exists c' sep, put_separator n c = Some c' /\ assembling c0 c' pkts sent /\ pending c' = pending c ++ sep /\
    datapt c' <= datapt c + 3 /\ 0 <= datalinelen c' <= 465 - n /\ datanotbinflag c' = true /\
    forall rest, sep ++ x ++ layout_rest (datalinelen c' + n) rest = layout_rest (datalinelen c) (x :: rest).
Proof.
  intros A Hp Hx Hl n. unfold item_ok, CTL_MAX_DATA_LEN in Hx. unfold put_separator. cbn [datapt setter].
  change (datapt (setter datanotbinflag true c)) with (datapt c). rewrite (proj2 (Z.eqb_neq (datapt c) 0)) by lia.
  destruct (assembling_put _ _ _ _ [44] (assembling_text _ _ _ _ A)) as (c1 & E1 & A1 & D1 & Q1 & L1 & F1);
    [cbn; unfold CTL_DATA_SIZE, MAX_MAC_LEN; lia |].
  rewrite E1. cbn [mbind option_bind]. cbn in D1, L1, F1. rewrite s32_small by (unfold_ranges; lia).
  pose proof (assembling_line _ _ _ _ (datalinelen c1 + 1) A1) as A1'.
  change (pending (c <| datanotbinflag := true |>)) with (pending c) in Q1.
  assert (U : u32 (n + (datalinelen c1 + 1) + 1) = n + datalinelen c + 2) by (rewrite u32_small; unfold_ranges; lia).
  cbn [datalinelen setter]. change (datalinelen (setter datalinelen ?v ?k)) with v.
  change (datalinelen c1 <| datalinelen := datalinelen c1 + 1 |>) with (datalinelen c1 + 1). rewrite U.
  cbn [layout_rest]. fold n. destruct (MAXDATALINELEN <=? n + datalinelen c + 2) eqn:M.
  - destruct (assembling_put _ _ _ _ [13; 10] A1') as (c2 & E2 & A2 & D2 & Q2 & L2 & F2);
      [cbn; unfold CTL_DATA_SIZE, MAX_MAC_LEN; lia |].
    rewrite E2. cbn [mbind option_bind]. eexists. exists [44; 13; 10]. split; [reflexivity |].
    split; [now apply assembling_line |]. cbn in D2, F2. cbn. split; [| split; [lia | split; [lia | split; [congruence | done]]]].
    change (pending (c2 <| datalinelen := 0 |>)) with (pending c2). rewrite Q2.
    change (pending (c1 <| datalinelen := datalinelen c1 + 1 |>)) with (pending c1). rewrite Q1, <- app_assoc. done.
  - destruct (assembling_put _ _ _ _ [32] A1') as (c2 & E2 & A2 & D2 & Q2 & L2 & F2);
      [cbn; unfold CTL_DATA_SIZE, MAX_MAC_LEN; lia |].
    rewrite E2. cbn [mbind option_bind]. apply Z.leb_gt in M. unfold MAXDATALINELEN in M. cbn in D2, L2, F2. rewrite L2, L1.
    rewrite s32_small by (unfold_ranges; lia).
    eexists. exists [44; 32]. split; [reflexivity |]. split; [now apply assembling_line |].
    cbn. split; [| split; [lia | split; [lia | split; [congruence |]]]].
    + change (pending (c2 <| datalinelen := datalinelen c + 1 + 1 |>)) with (pending c2). rewrite Q2.
      change (pending (c1 <| datalinelen := datalinelen c1 + 1 |>)) with (pending c1). rewrite Q1, <- app_assoc. done.
    + intros rest. do 4 f_equal. lia.
Qed.

(** The rest of [ctl_putdata], after the separator. *)
Lemma put_item c0 c pkts sent x :
  assembling c0 c pkts sent -> datapt c <= 468 -> item_ok x -> 0 <= datalinelen c <= 465 ->
  Z.of_nat (length (sent ++ pending c)) < 2 ^ 16 ->
  exists c' pkts' sent',
    (c1 ← (if CTL_MAX_DATA_LEN <? Z.of_nat (length x) + 3 + datapt c then ctl_flushpkt CTL_MORE c else Some c);
     c2 ← put x c1;
     Some (c2 <| datalinelen := s32 (datalinelen c2 + Z.of_nat (length x)) |>)) = Some c' /\
    assembling c0 c' pkts' sent' /\ 0 < datapt c' <= 465 /\
    datalinelen c' = datalinelen c + Z.of_nat (length x) /\ datanotbinflag c' = datanotbinflag c /\
    sent' ++ pending c' = (sent ++ pending c) ++ x.
Proof.
  intros A Hd Hx Hl Hn. unfold item_ok, CTL_MAX_DATA_LEN in *.
  assert (G : exists c1 pkts1 sent1,
    (if 468 <? Z.of_nat (length x) + 3 + datapt c then ctl_flushpkt CTL_MORE c else Some c) = Some c1 /\
    assembling c0 c1 pkts1 sent1 /\ Z.of_nat (length x) + 3 + datapt c1 <= 468 /\ datalinelen c1 = datalinelen c /\
    datanotbinflag c1 = datanotbinflag c /\ sent1 ++ pending c1 = sent ++ pending c).
  { destruct (Z.ltb_spec 468 (Z.of_nat (length x) + 3 + datapt c)); [| exists c, pkts, sent; done].
    destruct (flush_more _ _ _ _ A) as (c1 & b & E & A1 & D1 & L1 & F1); [unfold CTL_MAX_DATA_LEN; lia | done |].
    exists c1, (pkts ++ [b]), (sent ++ pending c). repeat (split; [first [done | lia] |]).
    unfold pending at 2. rewrite D1. cbn. now rewrite app_nil_r. }
  destruct G as (c1 & pkts1 & sent1 & -> & A1 & D1 & L1 & F1 & Q1). cbn [mbind option_bind].
  pose proof (as_buf _ _ _ _ A1) as [B1 _].
  destruct (assembling_put _ _ _ _ x A1) as (c2 & E2 & A2 & D2 & Q2 & L2 & F2); [unfold CTL_DATA_SIZE, MAX_MAC_LEN; lia |].
  rewrite E2. cbn [mbind option_bind]. eexists. exists pkts1, sent1. split; [reflexivity |].
  split; [now apply assembling_line |]. cbn. rewrite s32_small by (unfold_ranges; lia).
  split; [lia |]. split; [lia |]. split; [congruence |].
  change (pending (setter datalinelen _ c2)) with (pending c2). now rewrite Q2, app_assoc, Q1.
Qed.

Lemma putdata_first c0 c pkts sent x :
  assembling c0 c pkts sent -> datapt c = 0 -> item_ok x -> datalinelen c = 0 -> Z.of_nat (length sent) < 2 ^ 16 ->
  exists c' pkts' sent', ctl_putdata x false c = Some c' /\ assembling c0 c' pkts' sent' /\ 0 < datapt c' <= 465 /\
    datalinelen c' = Z.of_nat (length x) /\ datanotbinflag c' = true /\ sent' ++ pending c' = sent ++ x.
Proof.
  intros A Hd Hx Hl Hn. unfold ctl_putdata, put_separator. cbn [negb].
  change (datapt (setter datanotbinflag true c)) with (datapt c). rewrite Hd. cbn [Z.eqb mbind option_bind].
  assert (P : pending c = []) by (unfold pending; now rewrite Hd).
  destruct (put_item _ _ _ _ x (assembling_text _ _ _ _ A)) as (c' & pkts' & sent' & E & A' & D' & L' & F' & Q');
    [cbn; lia | done | cbn; lia | change (pending (setter datanotbinflag true c)) with (pending c); rewrite P, app_nil_r; done |].
  exists c', pkts', sent'. change (pending (setter datanotbinflag true c)) with (pending c) in Q'. rewrite P, app_nil_r in Q'.
  cbn in L', F'. rewrite Hl in L'. split; [exact E |]. done.
Qed.

Lemma putdata_next c0 c pkts sent x :
  assembling c0 c pkts sent -> 0 < datapt c <= 465 -> item_ok x -> 0 <= datalinelen c <= 465 ->
  Z.of_nat (length (sent ++ pending c)) + 3 < 2 ^ 16 ->
  exists c' pkts' sent' sep, ctl_putdata x false c = Some c' /\ assembling c0 c' pkts' sent' /\ 0 < datapt c' <= 465 /\
    0 <= datalinelen c' <= 465 /\ datanotbinflag c' = true /\
    sent' ++ pending c' = (sent ++ pending c) ++ sep ++ x /\
    (forall rest, sep ++ x ++ layout_rest (datalinelen c') rest = layout_rest (datalinelen c) (x :: rest)).
Proof.
  intros A Hd Hx Hl Hn. unfold ctl_putdata.
  destruct (separator_spec _ _ _ _ x A Hd Hx Hl) as (c1 & sep & E1 & A1 & Q1 & D1 & L1 & F1 & R1). rewrite E1. cbn [mbind option_bind].
  pose proof (pending_length c1 (as_buf _ _ _ _ A1)) as P1. pose proof (pending_length c (as_buf _ _ _ _ A)) as P0.
  rewrite Q1, length_app in P1.
  assert (Hn' : 0 < Z.of_nat (length x)) by apply Hx.
  destruct (put_item _ _ _ _ x A1 ltac:(lia) Hx ltac:(lia)) as (c' & pkts' & sent' & E & A' & D' & L' & F' & Q').
  { rewrite Q1. rewrite length_app in Hn. rewrite !length_app. lia. }
  exists c', pkts', sent', sep. rewrite Q1 in Q'.
  rewrite L' in *. split; [exact E |]. split; [done |]. split; [done |]. split; [lia |]. split; [congruence |].
  split; [rewrite Q', <- !app_assoc; done | exact R1].
Qed.

Lemma put_items_next c0 items c pkts sent :
  assembling c0 c pkts sent -> 0 < datapt c <= 465 -> Forall item_ok items -> 0 <= datalinelen c <= 465 ->
  datanotbinflag c = true ->
  Z.of_nat (length (sent ++ pending c ++ layout_rest (datalinelen c) items)) + 3 < 2 ^ 16 ->
  exists c' pkts' sent', put_items items c = Some c' /\ assembling c0 c' pkts' sent' /\ 0 < datapt c' <= 465 /\
    datanotbinflag c' = true /\ sent' ++ pending c' = sent ++ pending c ++ layout_rest (datalinelen c) items.
Proof.
  revert c pkts sent. induction items as [|x items IH]; intros c pkts sent A Hd Hi Hl Hf Hn; cbn [put_items].
  { exists c, pkts, sent. cbn [layout_rest]. now rewrite app_nil_r. }
  apply Forall_cons in Hi as [Hx Hi].
  destruct (putdata_next _ _ _ _ x A Hd Hx Hl) as (c1 & pkts1 & sent1 & sep & E1 & A1 & D1 & L1 & F1 & Q1 & R1).
  { rewrite app_assoc, length_app in Hn. lia. }
  rewrite E1. cbn [mbind option_bind]. rewrite <- R1 in Hn |- *.
  destruct (IH c1 pkts1 sent1 A1 D1 Hi L1 F1) as (c' & pkts' & sent' & E' & A' & D' & F' & Q').
  { rewrite app_assoc, Q1, <- !app_assoc. exact Hn. }
  exists c', pkts', sent'. repeat (split; [done |]). rewrite Q', app_assoc, Q1, <- !app_assoc. done.
Qed.

(** The state in which [process_control] leaves a response without MAC. *)
Definition fresh_response (c : ctl) : Prop :=
  in_buffer c /\ plain c /\ datapt c = 0 /\ res_offset c = 0 /\ datalinelen c = 0.

Lemma fresh_assembling c : fresh_response c -> assembling c c [] [].
Proof.
  intros (B & P & D & O & L). split; try done. intros l. rewrite O. cbn. destruct (reassemble 0 l); done.
Qed.

Lemma flush_last c0 c pkts sent :
  assembling c0 c pkts sent -> datapt c <= 465 -> Z.of_nat (length (sent ++ pending c)) < 2 ^ 16 ->
  exists c' b, ctl_flushpkt 0 c = Some c' /\
    eng c' = fold_left (fun s b => emit (Sendpkt (rmt_addr c0) (lcl_inter c0) (-6) b) s) (pkts ++ [b]) (eng c0) /\
    of_response c0 b /\ reassemble 0 (pkts ++ [b]) = Some (sent ++ pending c ++ trailer 0 c).
Proof.
  intros A Hd Hn. destruct A.
  destruct (flush_spec 0 c as_buf0 as_plain0) as (c' & b & E & F & B & P & D & G & O & X1 & X2 & X3 & _ & _ & V & _); [lia |].
  exists c', b. split; [exact E |]. split; [rewrite fold_left_app; cbn; congruence |]. rewrite length_app in Hn. split.
  - assert (W : of_response c b).
    { apply (of_response_frag c 0 (pending c ++ trailer 0 c)); [now left | exact F | exact V |]. destruct F as (_ & _ & _ & _ & F).
      pose proof (pending_length c as_buf0) as PL. rewrite length_app in F.
      assert (length (trailer 0 c) <= 2)%nat by (unfold trailer; destruct (_ && _); cbn; lia). lia. }
    unfold of_response, envelope in *. rewrite as_opcode0, as_li0, as_seq0 in W. exact W.
  - rewrite as_client0, (reassemble_last c _ _ F) by lia. done.
Qed.

Lemma emit_all a l pkts s :
  out (fold_left (fun s b => emit (Sendpkt a l (-6) b) s) pkts s) = out s ++ map (Sendpkt a l (-6)) pkts.
Proof.
  revert s. induction pkts as [|b pkts IH]; intros s; cbn; [now rewrite app_nil_r |].
  rewrite IH. cbn. now rewrite <- app_assoc.
Qed.
End Flush.

(** Whatever items a handler puts into a response (none empty, none larger
    than a packet takes, less than 64 KB in all), the server does not write
    outside its buffer, and the packets reassemble to the items in order,
    separated by commas, with lines broken at 72 columns and a final line
    break where it fits. *)
Lemma response_packets `{Env} (items : list (list Z)) (c : ctl) :
  fresh_response c -> items <> [] -> Forall item_ok items -> Z.of_nat (length (layout items)) + 3 < 2 ^ 16 ->
  exists c' pkts fin,
    (put_items items c ≫= ctl_flushpkt 0) = Some c' /\
    out (eng c') = out (eng c) ++ map (Sendpkt (rmt_addr c) (lcl_inter c) (-6)) pkts /\
    Forall (of_response c) pkts /\
    reassemble 0 pkts = Some (layout items ++ fin) /\ (fin = [13; 10] \/ fin = []).
Proof.
  intros Fr Hne Hi Hn. destruct items as [|x items]; [done |]. apply Forall_cons in Hi as [Hx Hi]. cbn [put_items layout] in *.
  pose proof (fresh_assembling c Fr) as A0. destruct Fr as (_ & _ & D0 & O0 & L0).
  destruct (putdata_first _ _ _ _ x A0 D0 Hx L0) as (c1 & pkts1 & sent1 & E1 & A1 & D1 & L1 & F1 & Q1); [cbn; lia |].
  rewrite E1. cbn [mbind option_bind app] in *.
  destruct (put_items_next c items c1 pkts1 sent1 A1 D1 Hi) as (c2 & pkts2 & sent2 & E2 & A2 & D2 & F2 & Q2);
    [rewrite L1; unfold item_ok, CTL_MAX_DATA_LEN in Hx; lia | done | rewrite app_assoc, Q1, L1; exact Hn |].
  rewrite app_assoc, Q1, L1 in Q2. rewrite E2. cbn [mbind option_bind].
  destruct (flush_last _ _ _ _ A2) as (c3 & b & E3 & G3 & S3 & R3); [lia | rewrite Q2; lia |].
  exists c3, (pkts2 ++ [b]), (trailer 0 c2). split; [exact E3 |]. split; [rewrite G3; apply emit_all |].
  split; [apply Forall_app; split; [exact (as_size _ _ _ _ A2) | now apply Forall_singleton] |].
  split; [rewrite R3, app_assoc, Q2; done |]. unfold trailer. destruct (_ && _); auto.
Qed.
