(* ===== verification/ControlSafety.v ===== *)
(** * The mode 6 server: who may do what

    Writing needs the control key, the list of clients needs a nonce, a trap
    that was configured cannot be taken away by a request, and a request is
    parsed in as many steps as it has characters. *)

From Stdlib Require Import Ascii String.
From S2P Require Import Prelude FixedPoint Calendar Double Lists NtpTypes Text TextFacts AuthKeys AuthFacts Monitor Restrict RestrictFacts State ProtoBase Peer Refclock Filter RefclockPoll Sample Control ControlVars ControlOps ControlMain ControlSample ControlFacts.
From stdpp Require Import base gmap list.
#[local] Open Scope Z_scope.

(** ** Messages only *)

(** The key store has been asked: the keys, their secrets and their tables
    are the same, and only the cached key and the counters may differ. *)
Record asked_keys (a a' : auth_state) : Prop := {
  ak_symkeys : symkeys a' = symkeys a; ak_list : key_list a' = key_list a; ak_hash : key_hash a' = key_hash a;
  ak_buckets : authhashbuckets a' = authhashbuckets a; ak_mask : authhashmask a' = authhashmask a;
  ak_free : authfreekeys a' = authfreekeys a; ak_nfree : authnumfreekeys a' = authnumfreekeys a;
  ak_next : next_symkey a' = next_symkey a; ak_secrets : secrets a' = secrets a;
  ak_nsecret : next_secret a' = next_secret a; ak_num : authnumkeys a' = authnumkeys a;
  ak_expired : authkeyexpired a' = authkeyexpired a }.

#[export] Instance asked_keys_preorder : PreOrder asked_keys.
Proof. split; [now split | intros x y z [] []; split; congruence]. Qed.

Lemma authistrusted_asks id a : asked_keys a (authistrusted id a).2.
Proof. unfold authistrusted. repeat case_match; now split. Qed.

Lemma authhavekey_asks id a : asked_keys a (authhavekey id a).2.
Proof. unfold authhavekey. repeat case_match; now split. Qed.

Lemma authencrypt_asks `{Digest} id bs len a n bs' a' : authencrypt id bs len a = Some (n, bs', a') -> asked_keys a a'.
Proof.
  unfold authencrypt. set (a1 := setter authencryptions _ a). assert (A : asked_keys a a1) by now split. clearbody a1.
  destruct (poke _ _ _); [| done]. cbn [mbind option_bind]. destruct (0 =? id); [intros E; injection E as _ _ <-; exact A |].
  pose proof (authhavekey_asks id a1) as A1. destruct (authhavekey id a1) as [have a2]. cbn [snd] in A1.
  destruct have; cbn [negb]; [| intros E; injection E as _ _ <-; etransitivity; [exact A | exact A1]]. destruct (MD5authencrypt _ _ _) as [[m b]|]; [| done].
  intros E. cbn [mbind option_bind] in E. injection E as _ _ <-. etransitivity; [exact A | exact A1].
Qed.

Lemma authdecrypt_asks `{Digest} id bs len size a ok a' : authdecrypt id bs len size a = Some (ok, a') -> asked_keys a a'.
Proof.
  unfold authdecrypt. set (a1 := setter authdecryptions _ a). assert (A : asked_keys a a1) by now split. clearbody a1.
  destruct (0 =? id); [intros E; injection E as _ <-; exact A |].
  pose proof (authhavekey_asks id a1) as A1. destruct (authhavekey id a1) as [have a2]. cbn [snd] in A1.
  destruct (_ || _); [intros E; injection E as _ <-; etransitivity; [exact A | exact A1] |]. destruct (MD5authdecrypt _ _ _ _); [| done].
  intros E. cbn [mbind option_bind] in E. injection E as _ <-. etransitivity; [exact A | exact A1].
Qed.

(** The engine with other packets sent and the key store asked. *)
Definition mail (s : state) (a : auth_state) (o : list output) : state := s <| auth := a |> <| out := o |>.

Lemma mail_id s : s = mail s (auth s) (out s).
Proof. now destruct s. Qed.

Lemma emit_mail s x : emit x s = mail s (auth s) (out s ++ [x]).
Proof. now destruct s. Qed.

Definition packet_to (dest : sockaddr) (x : output) : Prop := exists ep ttl bytes, x = Sendpkt dest ep ttl bytes.

(** What a reply to [dest] leaves alone: all of the engine but the counters
    and the cache of the key store, with nothing done but packets sent to
    [dest]; the variables, the traps, the control key and the state of the
    nonces. *)
Record mailed (dest : sockaddr) (c c' : ctl) : Prop := {
  m_eng : exists a l, eng c' = mail (eng c) a (out (eng c) ++ l) /\ asked_keys (auth (eng c)) a /\ Forall (packet_to dest) l;
  m_ext : ext_sys_var c' = ext_sys_var c;
  m_traps : ctl_traps c' = ctl_traps c; m_num : num_ctl_traps c' = num_ctl_traps c;
  m_key : ctl_auth_keyid c' = ctl_auth_keyid c; m_salt : salt c' = salt c;
  m_sum : conf_file_sum c' = conf_file_sum c; m_rand : c_rand c' = c_rand c }.

(** A change of the response only. *)
Lemma mailed_same d c c' :
  eng c' = eng c -> ext_sys_var c' = ext_sys_var c -> ctl_traps c' = ctl_traps c -> num_ctl_traps c' = num_ctl_traps c ->
  ctl_auth_keyid c' = ctl_auth_keyid c -> salt c' = salt c -> conf_file_sum c' = conf_file_sum c -> c_rand c' = c_rand c ->
  mailed d c c'.
Proof.
  intros E. split; try done. exists (auth (eng c)), []. rewrite E, app_nil_r. split; [apply mail_id |]. split; [reflexivity | constructor].
Qed.

Lemma mailed_refl d c : mailed d c c.
Proof. now apply mailed_same. Qed.

Lemma mailed_trans d c1 c2 c3 : mailed d c1 c2 -> mailed d c2 c3 -> mailed d c1 c3.
Proof.
  intros [(a & o & E & K & F) A2 A3 A4 A5 A6 A7 A8] [(a' & o' & E' & K' & F') B2 B3 B4 B5 B6 B7 B8]. split; try congruence.
  exists a', (o ++ o'). rewrite E in E', K'. split; [rewrite E'; cbn; now rewrite app_assoc |].
  split; [etransitivity; [exact K | exact K'] | now apply Forall_app].
Qed.
#[export] Instance mailed_preorder d : PreOrder (mailed d).
Proof. split; [exact (mailed_refl d) | exact (mailed_trans d)]. Qed.

Section Safety.
Context `{Env, CtlEnv}.

Lemma error_mailed e c c' : ctl_error e c = Some c' -> mailed (rmt_addr c) c c'.
Proof.
  unfold ctl_error. set (c1 := setter rp _ _).
  assert (M : mailed (rmt_addr c) c c1) by now apply mailed_same. assert (R : rmt_addr c1 = rmt_addr c) by done.
  clearbody c1. intros E. etransitivity; [exact M |]. clear M. rewrite <- R. destruct (res_authenticate c1 && _).
  - unfold sign_rpkt in E. destruct (authencrypt _ _ _ _) as [[[n bs] a]|] eqn:Ea; [| done]. cbn [mbind option_bind] in E.
    apply (inj Some) in E as <-. split; try done. eexists a, [_]. split; [reflexivity |].
    split; [exact (authencrypt_asks _ _ _ _ _ _ _ Ea) | apply Forall_singleton; do 3 eexists; reflexivity].
  - apply (inj Some) in E as <-. split; try done. eexists (auth (eng c1)), [_]. split; [apply emit_mail |].
    split; [reflexivity | apply Forall_singleton; do 3 eexists; reflexivity].
Qed.

(** ** Writing needs the control key *)

(** The operations that write variables or the configuration, and the
    ordered lists: write variables, write clock variables, configure, save
    the configuration, read an ordered list. *)
Definition write_opcode (op : Z) : Prop := op = 3 \/ op = 5 \/ op = 8 \/ op = 9 \/ op = 11.

(** The request carries a MAC of the control key that verifies. *)
Definition authenticated (rb : recvbuf) (c : ctl) : Prop :=
  let properlen := Z.land (field16 rb 10 + CTL_HEADER_LEN + 7) (Z.lnot 7) in
  let maclen := rb_length rb - properlen in
  let keyid := word_at (rb_bytes rb) (Z.to_nat properlen) in
  let '(trusted, a) := authistrusted keyid (auth (eng c)) in
  keyid = ctl_auth_keyid c /\ trusted = true /\ MIN_MAC_LEN <= maclen <= MAX_MAC_LEN /\
  exists a', authdecrypt keyid (rb_bytes rb) (rb_length rb - maclen) maclen a = Some (true, a').

Lemma check_mac_spec rb c c' :
  check_mac rb (field16 rb 10) c = Some c' -> res_authokay c = false ->
  mailed (rmt_addr c) c c' /\ rmt_addr c' = rmt_addr c /\ res_opcode c' = res_opcode c /\
  (res_authokay c' = true -> res_keyid c' = ctl_auth_keyid c' -> authenticated rb c).
Proof.
  unfold check_mac, authenticated. set (properlen := Z.land _ _). set (maclen := rb_length rb - properlen).
  set (keyid := word_at _ _). intros E Hk.
  destruct (_ && _) eqn:G; [| apply (inj Some) in E as <-; split; [apply mailed_refl | split; [done | split; [done | congruence]]]].
  apply andb_prop in G as [G _]. apply andb_prop in G as [G G3]. apply andb_prop in G as [_ G2].
  apply Z.leb_le in G2, G3. change (auth (eng (setter res_keyid keyid _))) with (auth (eng c)) in E.
  pose proof (authistrusted_asks keyid (auth (eng c))) as A1.
  destruct (authistrusted keyid (auth (eng c))) as [trusted a] eqn:T. cbn [snd] in A1.
  assert (Out : forall x, x = mail (eng c) (auth x) (out (eng c)) -> asked_keys (auth (eng c)) (auth x) ->
    exists a l, x = mail (eng c) a (out (eng c) ++ l) /\ asked_keys (auth (eng c)) a /\ Forall (packet_to (rmt_addr c)) l).
  { intros x E1 E2. exists (auth x), []. rewrite app_nil_r. split; [exact E1 |]. split; [exact E2 | constructor]. }
  destruct (negb trusted) eqn:Tr.
  { apply (inj Some) in E as <-. split; [split; try done; now apply Out |]. split; [done |]. split; [done |].
    cbn. congruence. }
  apply negb_false_iff in Tr. change (auth _) with a in E.
  destruct (authdecrypt _ _ _ _ _) as [[ok a']|] eqn:D; [| done]. cbn [mbind option_bind] in E. apply (inj Some) in E as <-.
  assert (A2 : asked_keys (auth (eng c)) a') by (etransitivity; [exact A1 | exact (authdecrypt_asks _ _ _ _ _ _ _ D)]).
  split; [| split; [now destruct ok | split; [now destruct ok |]]].
  - destruct ok; split; try done; now apply Out.
  - destruct ok; cbn; [| congruence]. intros _ Ek. repeat split; try done. now exists a'.
Qed.

(** Key 0 authenticates nothing. *)
Lemma no_key_no_mac rb c : ctl_auth_keyid c = 0 -> ~ authenticated rb c.
Proof.
  unfold authenticated. set (keyid := word_at _ _). intros Hk. destruct (authistrusted keyid _) as [t a].
  intros (E & _ & _ & a' & D). rewrite E, Hk in D. cbn in D. congruence.
Qed.

Lemma write_needs op entry : List.find (fun e => fst (fst e) =? op) control_codes = Some entry -> write_opcode op ->
  snd (fst entry) = true \/ snd entry = H_writeclock.
Proof. intros F [-> | [-> | [-> | [-> | ->]]]]; vm_compute in F; apply (inj Some) in F as <-; [left | right | left ..]; reflexivity. Qed.

Lemma dispatch_denied rb mask c c' :
  dispatch_request rb mask c = Some c' -> write_opcode (res_opcode c) ->
  ~ (res_authokay c = true /\ res_keyid c = ctl_auth_keyid c) -> mailed (rmt_addr c) c c'.
Proof.
  unfold dispatch_request. intros E W N. destruct (List.find _ _) as [[[op need] h]|] eqn:F.
  - destruct (need && _) eqn:G; [now apply error_mailed in E |].
    destruct (write_needs _ _ F W) as [Hn | Hn]; cbn in Hn; subst; [| now apply error_mailed in E].
    exfalso. apply N. cbn [andb] in G.
    apply orb_false_iff in G as [G1 G2]. apply negb_false_iff in G1, G2. apply Z.eqb_eq in G2. done.
  - set (c1 := _ .+ numctlbadop) in E. change (rmt_addr c) with (rmt_addr c1).
    etransitivity; [| eapply error_mailed; exact E]. now apply mailed_same.
Qed.
End Safety.

(** C23: a request to write variables or clock variables, to configure, to
    save the configuration or to read the ordered lists leaves the daemon as
    it was, unless it carries a MAC of the control key that verifies under a
    trusted key: the engine is the same but for the counters and the cache
    of the key store, whose keys are untouched; nothing is done but packets
    sent to the sender of the request; and the variables, the traps, the
    control key and the nonces are the same.  As long as no control key is
    configured no request can carry such a MAC.  Setting and clearing a trap
    are not among these operations: they need no key. *)
Theorem write_needs_control_key `{Env, CtlEnv} rb mask c c' :
  process_control rb mask c = Some c' -> write_opcode (byte_at (rb_bytes rb) 1) ->
  ctl_auth_keyid c = 0 \/ ~ authenticated rb c -> mailed (rb_srcadr rb) c c'.
Proof.
  intros E W N0. assert (N : ~ authenticated rb c) by (destruct N0; auto using no_key_no_mac). clear N0. revert E W N.
  unfold process_control. set (c1 := setter lcl_inter _ _). assert (M1 : mailed (rb_srcadr rb) c c1) by now apply mailed_same.
  assert (R1 : rmt_addr c1 = rb_srcadr rb) by done.
  assert (A1 : authenticated rb c1 <-> authenticated rb c) by reflexivity. clearbody c1.
  intros E W N. rewrite <- A1 in N. etransitivity; [exact M1 |]. clear M1 A1 c. rename c1 into c.
  destruct (_ || _); [apply (inj Some) in E as <-; unfold count_bad; repeat case_match; now apply mailed_same |].
  set (v := PKT_VERSION _) in *. set (c2 := setter res_version v c) in *.
  destruct (_ || _); [apply (inj Some) in E as <-; now apply mailed_same |].
  assert (M3 : mailed (rb_srcadr rb) c (start_response rb v c2)) by now apply mailed_same.
  assert (R3 : rmt_addr (start_response rb v c2) = rb_srcadr rb) by exact R1.
  assert (N3 : ~ authenticated rb (start_response rb v c2)) by exact N.
  assert (W3 : write_opcode (res_opcode (start_response rb v c2))) by exact W.
  assert (K3 : res_authokay (start_response rb v c2) = false) by reflexivity.
  set (c3 := start_response rb v c2) in *. clearbody c3. clear c2 N. etransitivity; [exact M3 |]. rewrite <- R3.
  destruct (_ || _).
  - destruct (ctl_error CERR_BADFMT c3) as [c4|] eqn:E4; [| done]. cbn [mbind option_bind] in E. apply (inj Some) in E as <-.
    apply error_mailed in E4. etransitivity; [exact E4 |]. now apply mailed_same.
  - destruct (check_mac rb _ c3) as [c4|] eqn:E4; [| done]. cbn [mbind option_bind] in E.
    destruct (check_mac_spec rb c3 c4 E4 K3) as (M4 & R4 & O4 & A4). etransitivity; [exact M4 |]. rewrite <- R4.
    set (c5 := setter req _ c4) in *. assert (M5 : mailed (rmt_addr c4) c4 c5) by now apply mailed_same.
    etransitivity; [exact M5 |]. change (rmt_addr c4) with (rmt_addr c5).
    apply (dispatch_denied rb mask c5 c' E); [change (res_opcode c5) with (res_opcode c4); congruence |].
    intros [G1 G2]. apply N3, A4; [exact G1 | exact G2].
Qed.

Lemma write_needs_control_key_witness :
  let rb := request 3 0 (txt "leap=1") in
  (write_opcode (byte_at (rb_bytes rb) 1) /\ ctl_auth_keyid sample_ctl = 0) /\
  exists c', @process_control sample_env sample_ctlenv rb 0 sample_ctl = Some c' /\ mailed (rb_srcadr rb) sample_ctl c' /\
    numctlerrors (cs c') = 1.
Proof.
  intros rb. assert (W : write_opcode (byte_at (rb_bytes rb) 1)) by (left; reflexivity).
  assert (K : ctl_auth_keyid sample_ctl = 0) by reflexivity. split; [split; [exact W | exact K] |].
  eexists. split; [vm_compute; reflexivity |]. split; [| vm_compute; reflexivity].
  refine (@write_needs_control_key sample_env sample_ctlenv rb 0 sample_ctl _ _ W (or_introl K)). vm_compute. reflexivity.
Defined.

(** ** The parser ends *)

Lemma skip_length f l : (length (skip f l) <= length l)%nat.
Proof. induction l as [|x l IH]; cbn; [lia |]. destruct (f x); cbn; lia. Qed.

Lemma match_tag_length text cp r : match_tag text cp = Some r -> (length r <= length cp)%nat.
Proof.
  revert cp. induction text as [|p text IH]; intros cp; cbn [match_tag].
  { intros [= ->]. lia. }
  destruct (p =? 61); [intros [= ->]; lia |]. destruct cp as [|ch cp]; [done |]. destruct (ch =? p); [| done].
  intros E. apply IH in E. cbn. lia.
Qed.

Lemma match_value_length cp v r : match_value cp = inr (Some (v, r)) -> r = [] \/ (length r < length cp)%nat.
Proof.
  unfold match_value. pose proof (skip_length isspace cp) as L. destruct (skip isspace cp) as [|ch l]; [intros [= <- <-]; now left |].
  cbn [length] in L. destruct (ch =? 44); [intros [= <- <-]; right; lia |]. destruct (ch =? 61); [| done].
  set (value := span _ _). destruct (128 <=? _); [done |]. intros [= <- <-]. right.
  rewrite length_drop. pose proof (skip_length isspace l). lia.
Qed.

Lemma scan_vars_length vars reqpt v val rest :
  reqpt <> [] -> scan_vars vars reqpt = inr (Some (v, val, rest)) -> (length rest < length reqpt)%nat.
Proof.
  intros Hne. induction vars as [|w vars IH]; cbn [scan_vars]; [done |]. destruct (negb _ && _); [| exact IH].
  destruct (match_tag _ _) as [cp|] eqn:M; [| exact IH]. destruct (match_value cp) as [[]|[[val' rest']|]] eqn:V; [done | | exact IH].
  intros [= -> -> ->]. apply match_tag_length in M. apply match_value_length in V as [-> | ?]; [| lia].
  destruct reqpt; [done | cbn; lia].
Qed.

Section Parser.
Context `{Env, CtlEnv}.

(** An item uses up a part of the request; the end of the table uses none. *)
Lemma getitem_length vars c i c' :
  ctl_getitem vars c = Some (i, c') ->
  match i with Item _ _ => (length (req c') < length (req c))%nat | EndOfVars => (length (req c') <= length (req c))%nat
             | NoItem => True end.
Proof.
  unfold ctl_getitem. set (c1 := setter req _ c). pose proof (skip_length (fun ch => (ch =? 44) || isspace ch) (req c)) as L.
  change (skip _ (req c)) with (req c1) in L. destruct (req c1) as [|x l] eqn:R; [intros [= <- <-]; done |].
  destruct (scan_vars vars _) as [[]|[[[v val] rest]|]] eqn:S.
  - destruct (ctl_error _ _) as [c2|]; [| done]. now intros [= <- <-].
  - intros E. apply (inj Some), pair_eq in E as [<- <-]. apply scan_vars_length in S; [| done]. cbn in *. lia.
  - intros E. apply (inj Some), pair_eq in E as [<- <-]. rewrite R. done.
Qed.

Lemma get_wants_fuel n m vars more w c :
  (length (req c) < n)%nat -> (length (req c) < m)%nat -> get_wants n vars more w c = get_wants m vars more w c.
Proof.
  revert m w c. induction n as [|n IH]; intros m w c Hn Hm; [lia |]. destruct m as [|m]; [lia |]. cbn [get_wants].
  destruct (ctl_getitem vars c) as [[i c1]|] eqn:E; [| done]. cbn [mbind option_bind]. apply getitem_length in E.
  destruct i as [| |v val]; [done | | apply IH; lia]. destruct more as [[ext base]|]; [| done].
  destruct (ctl_getitem ext c1) as [[i c2]|] eqn:E2; [| done]. cbn [mbind option_bind]. apply getitem_length in E2.
  destruct i as [| |v val]; [done | done | apply IH; lia].
Qed.

Lemma write_item_req v val ext c r :
  write_item v val ext c = Some (inl r) -> req r = req c.
Proof.
  unfold write_item. destruct (negb _); [destruct (ctl_error _ _); [| done]; now intros [=] |]. destruct ext.
  - unfold set_sys_var. destruct (set_var _ _ _); [| done]. now intros [= <-].
  - destruct val; [destruct (ctl_error _ _); [| done]; now intros [=] |]. destruct (atoint _) as [x|].
    + destruct (nonzero _); (destruct (ctl_error _ _); [| done]; now intros [=]).
    + destruct (ctl_error _ _); [| done]; now intros [=].
Qed.

Lemma write_items_fuel n m c :
  (length (req c) < n)%nat -> (length (req c) < m)%nat -> write_items n c = write_items m c.
Proof.
  revert m c. induction n as [|n IH]; intros m c Hn Hm; [lia |]. destruct m as [|m]; [lia |]. cbn [write_items].
  destruct (ctl_getitem sys_var c) as [[i c1]|] eqn:E; [| done]. cbn [mbind option_bind]. apply getitem_length in E.
  destruct i as [| |v val]; [done | |].
  - destruct (ctl_getitem _ c1) as [[i c2]|] eqn:E2; [| done]. cbn [mbind option_bind]. apply getitem_length in E2.
    destruct i as [| |v val]; [done | done |]. destruct (write_item _ _ _ _) as [[c3|c3]|] eqn:W; [| done | done]. cbn [mbind option_bind].
    apply write_item_req in W. apply IH; rewrite W; lia.
  - destruct (write_item _ _ _ _) as [[c3|c3]|] eqn:W; [| done | done]. cbn [mbind option_bind].
    apply write_item_req in W. apply IH; rewrite W; lia.
Qed.

Lemma get_parms_fuel n m r c :
  (length (req c) < n)%nat -> (length (req c) < m)%nat -> get_parms n r c = get_parms m r c.
Proof.
  revert m r c. induction n as [|n IH]; intros m r c Hn Hm; [lia |]. destruct m as [|m]; [lia |]. cbn [get_parms].
  destruct (ctl_getitem in_parms c) as [[i c1]|] eqn:E; [| done]. cbn [mbind option_bind]. apply getitem_length in E.
  destruct i as [| |v val]; [done | done |]. destruct (mru_parm _ _ _ _); [| done]. cbn [mbind option_bind]. apply IH; lia.
Qed.
End Parser.

(** The loops over the items of a request end after at most one round for
    each character: with more rounds than that allowed, reading names
    (of system, peer or clock variables, with or without a second table),
    writing variables and reading the parameters of a list of clients give
    the same result as with exactly one more than the length. *)
Theorem request_loops_end `{Env, CtlEnv} (n : nat) vars more w r c :
  (length (req c) < n)%nat ->
  get_wants n vars more w c = get_wants (S (length (req c))) vars more w c /\
  write_items n c = write_items (S (length (req c))) c /\
  get_parms n r c = get_parms (S (length (req c))) r c.
Proof.
  intros Hn. split; [apply get_wants_fuel; lia |]. split; [apply write_items_fuel; lia | apply get_parms_fuel; lia].
Qed.

Lemma request_loops_end_witness :
  let c := sample_ctl <| req := txt "leap, stratum" |> in
  (length (req c) < 1000)%nat /\
  exists c', @get_wants sample_env 1000 sys_var None [] c = Some (inl ([2; 1], c')).
Proof.
  intros c. assert (Hn : (length (req c) < 1000)%nat) by (vm_compute; lia). split; [exact Hn |].
  rewrite (proj1 (@request_loops_end sample_env sample_ctlenv 1000 sys_var None [] zero_parms c Hn)).
  eexists. vm_compute. reflexivity.
Defined.

(** ** Nonces *)

Lemma span_all f l : Forall (fun ch => f ch = true) l -> span f l = l.
Proof. induction 1 as [|ch l Hc _ IH]; cbn; [done |]. now rewrite Hc, IH. Qed.

Lemma hex_not_special ch : digit_of 16 ch -> isspace ch = false /\ ch <> 45 /\ ch <> 43 /\ (ch =? 120) || (ch =? 88) = false.
Proof.
  intros D. destruct (digit_char_range 16 ch ltac:(lia) D) as [? | [? _]]; unfold isspace; repeat split; lia.
Qed.

(** Eight hexadecimal digits read back, whatever follows. *)
Lemma scan_hex8 n l : is_u32 n -> scan_num 16 8 (pad0 8 (fmt_x n) ++ l) = Some (n, l).
Proof.
  intros Hn. unfold is_u32 in Hn. destruct (fmt_base_spec 16 n) as (F & V & L & K); [lia | lia |].
  destruct (pad0_spec 16 8 (fmt_x n)) as (F8 & V8 & L8); [lia | exact F | specialize (K 8 ltac:(lia)); change (16 ^ 8) with (2 ^ 32) in K; unfold fmt_x; lia |].
  unfold fmt_x in *. rewrite V in V8. set (p := pad0 8 (fmt_base 16 n)) in *. clearbody p. clear F V L K.
  unfold scan_num. destruct p as [|a [|b p]]; [cbn in L8; lia.. |].
  assert (Fa : digit_of 16 a) by now inversion F8. assert (Fb : digit_of 16 b) by (inversion F8; now inversion H2).
  destruct (hex_not_special a Fa) as (A1 & A2 & A3 & _). destruct (hex_not_special b Fb) as (_ & _ & _ & B).
  cbn [app skip]. rewrite A1. rewrite (proj2 (Z.eqb_neq a 45)), (proj2 (Z.eqb_neq a 43)) by done.
  change (a :: b :: p ++ l) with ((a :: b :: p) ++ l). rewrite take_app_le by lia. rewrite take_ge by lia.
  assert (S : strip_0x 16 (a :: b :: p) = a :: b :: p) by (cbn [strip_0x]; now rewrite B, andb_false_r).
  rewrite S. replace (length (a :: b :: p) - length (a :: b :: p))%nat with O by lia.
  assert (Sp : span (is_digit 16) (a :: b :: p) = a :: b :: p).
  { apply span_all. eapply Forall_impl; [exact F8 |]. intros ch D. exact (digit_isxdigit ch D). }
  rewrite Sp. cbn [Nat.add]. rewrite drop_app_length. unfold digits_val. fold (number 16 0 (a :: b :: p)). now rewrite V8.
Qed.

Lemma to_ulong_u32 n : is_u32 n -> u32 (to_ulong n) = n.
Proof.
  intros Hn. unfold to_ulong, is_u32 in *. rewrite (proj2 (Z.leb_gt (2 ^ 64) (Z.abs n))) by lia.
  unfold u64, wrap. rewrite Z.mod_small by lia. apply u32_small. unfold_ranges. lia.
Qed.

Lemma scan_nonce_text i f d :
  is_u32 i -> is_u32 f -> is_u32 d ->
  scan_nonce (pad0 8 (fmt_x i) ++ pad0 8 (fmt_x f) ++ pad0 8 (fmt_x d)) = Some (i, f, d).
Proof.
  intros Hi Hf Hd. unfold scan_nonce. rewrite scan_hex8 by done. cbn [mbind option_bind]. rewrite scan_hex8 by done.
  cbn [mbind option_bind]. rewrite <- (app_nil_r (pad0 8 (fmt_x d))), scan_hex8 by done. cbn [mbind option_bind].
  now rewrite !to_ulong_u32.
Qed.

Section Nonce.
Context `{Env, CtlEnv}.

Lemma draw_salt_nonzero n c c' : draw_salt n c = Some c' -> salt c' <> 0 /\ conf_file_sum c' = conf_file_sum c.
Proof.
  revert c. induction n as [|n IH]; intros c; cbn [draw_salt].
  - destruct (nonzero (salt c)) eqn:E; [| done]. intros [= <-]. unfold nonzero in E. split; [lia | done].
  - destruct (nonzero (salt c)) eqn:E; [intros [= <-]; unfold nonzero in E; split; [lia | done] |].
    destruct (ntp_random (eng c)) as [r s]. intros E'. apply IH in E' as [A B]. split; [done |]. now rewrite B.
Qed.

Lemma draw_salt_set n c : salt c <> 0 -> draw_salt n c = Some c.
Proof. intros Hs. destruct n; cbn [draw_salt]; unfold nonzero; rewrite (proj2 (Z.eqb_neq _ _) Hs); done. Qed.

(** An accepted nonce is the digest for the client's own address and a time
    less than 16 seconds ago. *)
Lemma validate_sound p rb c c' :
  validate_nonce p rb c = Some (true, c') ->
  exists i f, scan_nonce p = Some (i, f, nonce_digest (conf_file_sum c') (salt c') (rb_srcadr rb) i f).
Proof.
  unfold validate_nonce. destruct (scan_nonce p) as [[[i f] d]|]; [| done]. unfold derive_nonce.
  destruct (draw_salt 64 c) as [c1|]; [| done]. cbn [mbind option_bind]. destruct (get_systime (eng c1)) as [now s].
  intros E. apply (inj Some), pair_eq in E as [E <-]. apply andb_prop in E as [E _]. apply Z.eqb_eq in E.
  exists i, f. now rewrite E.
Qed.
End Nonce.

(** A nonce works for the client it was given to and no other: the text
    the server generates is accepted from the same address and port while
    the clock is less than 16 seconds past the time it was made, and any
    text that is accepted carries the digest of the requesting client's
    address, the time in it and the server's secret. *)
Theorem nonce_roundtrip `{Env, CtlEnv} rb rb' text c c1 c2 :
  generate_nonce rb c = Some (text, c1) -> lfp_wf (rb_time rb) ->
  rb_srcadr rb' = rb_srcadr rb -> salt c2 = salt c1 -> conf_file_sum c2 = conf_file_sum c1 ->
  l_ui (L_SUB (fst (get_systime (eng c2))) (rb_time rb)) < 16 ->
  (exists c3, validate_nonce text rb' c2 = Some (true, c3)) /\
  (forall p rb3 c3 c4, validate_nonce p rb3 c3 = Some (true, c4) ->
     exists i f, scan_nonce p = Some (i, f, nonce_digest (conf_file_sum c4) (salt c4) (rb_srcadr rb3) i f)).
Proof.
  intros G Wf Ha Hs Hc Ht. split; [| intros *; apply validate_sound]. unfold generate_nonce, derive_nonce in G.
  destruct (draw_salt 64 c) as [c0|] eqn:D; [| done]. cbn [mbind option_bind] in G. apply (inj Some), pair_eq in G as [<- <-].
  destruct (draw_salt_nonzero 64 c c0 D) as [Hn _]. destruct Wf as [W1 W2].
  unfold validate_nonce. rewrite scan_nonce_text by (done || apply Z.mod_pos_bound; lia). unfold derive_nonce.
  rewrite (draw_salt_set 64 c2) by congruence. cbn [mbind option_bind]. rewrite Ha, Hs, Hc, Z.eqb_refl. cbn [andb].
  destruct (get_systime (eng c2)) as [now s]. cbn [fst] in Ht.
  replace (mk_lfp (l_ui (rb_time rb)) (l_uf (rb_time rb))) with (rb_time rb) by now destruct (rb_time rb).
  rewrite (proj2 (Z.ltb_lt _ _) Ht). eexists. reflexivity.
Qed.

Lemma nonce_roundtrip_witness :
  let rb := request 12 0 [] in
  lfp_wf (rb_time rb) /\
  exists text c1, @generate_nonce sample_env rb sample_ctl = Some (text, c1) /\
    exists c3, @validate_nonce sample_env text rb c1 = Some (true, c3).
Proof.
  intros rb. assert (Wf : lfp_wf (rb_time rb)) by (split; cbn; unfold_ranges; lia). split; [exact Wf |].
  eexists. eexists. assert (G : @generate_nonce sample_env rb sample_ctl = Some (_, _)) by (vm_compute; reflexivity).
  split; [exact G |].
  refine (proj1 (@nonce_roundtrip sample_env sample_ctlenv rb rb _ sample_ctl _ _ G Wf eq_refl eq_refl eq_refl _)).
  vm_compute. reflexivity.
Defined.

(** ** The list of clients needs a nonce *)

(** At most one packet. *)
Definition one_packet (c c' : ctl) : Prop :=
  exists pk, out (eng c') = out (eng c) ++ pk /\ (length pk <= 1)%nat.
Definition no_packet (c c' : ctl) : Prop := out (eng c') = out (eng c).

Section Mru.
Context `{Env, CtlEnv}.

Lemma error_one e c c' : ctl_error e c = Some c' -> one_packet c c'.
Proof.
  unfold ctl_error. set (c1 := setter rp _ _). assert (O : out (eng c1) = out (eng c)) by reflexivity. clearbody c1.
  destruct (res_authenticate c1 && _).
  - unfold sign_rpkt. destruct (authencrypt _ _ _ _) as [[[n bs] a]|]; [| done]. cbn [mbind option_bind].
    intros E. apply (inj Some) in E as <-. unfold one_packet. rewrite <- O. eexists. split; [reflexivity | cbn; lia].
  - intros E. apply (inj Some) in E as <-. unfold one_packet. rewrite <- O. eexists. split; [reflexivity | cbn; lia].
Qed.

Lemma getitem_packets vars c i c' :
  ctl_getitem vars c = Some (i, c') -> match i with NoItem => one_packet c c' | _ => no_packet c c' end.
Proof.
  unfold ctl_getitem. set (c1 := setter req _ c). assert (O : out (eng c1) = out (eng c)) by reflexivity.
  destruct (req c1) as [|x l]; [intros E; apply (inj Some), pair_eq in E as [<- <-]; exists []; rewrite app_nil_r; split; [done | cbn; lia] |].
  destruct (scan_vars vars _) as [[]|[[[v val] rest]|]].
  - destruct (ctl_error _ _) as [c2|] eqn:E2; [| done]. cbn [mbind option_bind]. intros E. apply (inj Some), pair_eq in E as [<- <-].
    apply error_one in E2. exact E2.
  - intros E. now apply (inj Some), pair_eq in E as [<- <-].
  - intros E. now apply (inj Some), pair_eq in E as [<- <-].
Qed.

Lemma get_parms_packets n r c r' c' : get_parms n r c = Some (r', c') -> one_packet c c'.
Proof.
  revert r c. induction n as [|n IH]; intros r c; cbn [get_parms]; [done |].
  destruct (ctl_getitem in_parms c) as [[i c1]|] eqn:E; [| done]. cbn [mbind option_bind]. apply getitem_packets in E.
  destruct i as [| |v val].
  - intros G. now apply (inj Some), pair_eq in G as [_ <-].
  - intros G. apply (inj Some), pair_eq in G as [_ <-]. exists []. rewrite app_nil_r. split; [done | cbn; lia].
  - destruct (mru_parm _ _ _ _) as [r1|]; [| done]. cbn [mbind option_bind]. intros G. apply IH in G as (pk & G & L).
    exists pk. split; [| done]. unfold no_packet in E. congruence.
Qed.

Lemma draw_salt_out n c c' : draw_salt n c = Some c' -> no_packet c c'.
Proof.
  revert c. induction n as [|n IH]; intros c; cbn [draw_salt]; destruct (nonzero (salt c)); [now intros [= <-] | done | now intros [= <-] |].
  unfold ntp_random. destruct (next_random _) as [x g]. intros E. apply IH in E. exact E.
Qed.

Lemma validate_out p rb c b c' : validate_nonce p rb c = Some (b, c') -> no_packet c c'.
Proof.
  unfold validate_nonce. destruct (scan_nonce p) as [[[i f] d]|]; [| intros E; now apply (inj Some), pair_eq in E as [_ <-]].
  unfold derive_nonce. destruct (draw_salt 64 c) as [c1|] eqn:D; [| done]. apply draw_salt_out in D. cbn [mbind option_bind].
  unfold get_systime. destruct (read_clock _) as [t k]. intros E. apply (inj Some), pair_eq in E as [_ <-]. exact D.
Qed.
End Mru.

(** The server is no amplifier: a request for the list of clients that
    has no nonce, or one the server does not accept for that client, is
    answered by at most one packet (the error for an overlong parameter)
    and sends no row of the list. *)
Theorem mru_list_needs_nonce `{Env, CtlEnv} rb mask c c' r c1 :
  read_mru_list rb mask c = Some c' -> has RES_NOMRULIST mask = false ->
  get_parms (S (length (req c))) zero_parms c = Some (r, c1) ->
  match mp_nonce r with None => True | Some p => exists c2, validate_nonce p rb c1 = Some (false, c2) end ->
  one_packet c c'.
Proof.
  intros E M G V. unfold read_mru_list in E. rewrite M, G in E. cbn [mbind option_bind] in E.
  apply get_parms_packets in G as (pk & G & L). destruct (mp_nonce r) as [p|].
  - destruct V as [c2 V]. rewrite V in E. cbn in E. apply (inj Some) in E as <-. apply validate_out in V. exists pk.
    unfold no_packet in V. split; [congruence | done].
  - apply (inj Some) in E as <-. now exists pk.
Qed.

Lemma mru_list_needs_nonce_witness :
  let rb := request 10 0 (txt "nonce=b2d05dff0000000500000000, frags=32") in
  let c := sample_ctl <| req := txt "nonce=b2d05dff0000000500000000, frags=32" |> in
  exists c' r c1, (@read_mru_list sample_env sample_ctlenv rb 0 c = Some c' /\ has RES_NOMRULIST 0 = false /\
    @get_parms sample_env sample_ctlenv (S (length (req c))) zero_parms c = Some (r, c1)) /\ one_packet c c'.
Proof.
  intros rb c. eexists. eexists. eexists.
  assert (E : @read_mru_list sample_env sample_ctlenv rb 0 c = Some _) by (vm_compute; reflexivity).
  assert (G : @get_parms sample_env sample_ctlenv (S (length (req c))) zero_parms c = Some (_, _)) by (vm_compute; reflexivity).
  split; [split; [exact E | split; [reflexivity | exact G]] |].
  refine (@mru_list_needs_nonce sample_env sample_ctlenv rb 0 c _ _ _ E eq_refl G _).
  eexists. vm_compute. reflexivity.
Defined.

(** ** Traps *)

(** A trap set by the configuration. *)
Definition configured (t : ctl_trap) : Prop := has TRAP_INUSE (tr_flags t) = true /\ has TRAP_CONFIGURED (tr_flags t) = true.
Definition traps_kept (c c' : ctl) : Prop :=
  forall i t, ctl_traps c !! i = Some t -> configured t -> ctl_traps c' !! i = Some t.

Lemma has_comm x y : has x y = has y x.
Proof. unfold has. now rewrite Z.land_comm. Qed.

Lemma trap_at_lookup c i t : ctl_traps c !! i = Some t -> trap_at c i = t.
Proof. intros E. unfold trap_at. now apply nth_lookup_Some. Qed.

Lemma upd_trap_lookup i j f c t :
  ctl_traps c !! j = Some t -> ctl_traps (upd_trap i f c) !! j = Some (if decide (i = j) then f t else t).
Proof.
  intros E. unfold upd_trap. cbn. case_decide as D; [subst j |].
  - rewrite (trap_at_lookup _ _ _ E). apply list_lookup_insert_eq. eapply lookup_lt_Some; eassumption.
  - now rewrite list_lookup_insert_ne.
Qed.

(** A slot the search may hand out. *)
Definition not_configured_at (c : ctl) (b : option nat) : Prop :=
  match b with None => True | Some i => exists t, ctl_traps c !! i = Some t /\ ~ configured t end.

Lemma candidate_free traptype best i c t :
  ctl_traps c !! i = Some t -> not_configured_at c best -> not_configured_at c (trap_candidate traptype best i c).
Proof.
  intros E B. unfold trap_candidate. rewrite (trap_at_lookup _ _ _ E).
  destruct (negb (has TRAP_INUSE (tr_flags t))) eqn:U; [exists t; split; [done |]; unfold configured; rewrite (negb_true_iff _) in U; rewrite U; intros [? _]; done |].
  destruct (has TRAP_CONFIGURED (tr_flags t)) eqn:C; [done |].
  assert (N : not_configured_at c (Some i)) by (exists t; split; [done |]; unfold configured; rewrite C; intros [_ ?]; done).
  repeat case_match; done.
Qed.

Lemma trap_round_kept traptype best c i best' c' :
  (i < length (ctl_traps c))%nat -> trap_round traptype (best, c) i = (best', c') -> not_configured_at c best ->
  traps_kept c c' /\ not_configured_at c' best' /\ length (ctl_traps c') = length (ctl_traps c) /\ eng c' = eng c.
Proof.
  intros Hi E B. unfold trap_round in E. destruct (lookup_lt_is_Some_2 _ _ Hi) as [t Ht].
  rewrite (trap_at_lookup _ _ _ Ht) in E.
  destruct (has TRAP_INUSE (tr_flags t) && negb (has TRAP_CONFIGURED (tr_flags t)) && _) eqn:X.
  2: { apply pair_eq in E as [<- <-]. split; [now intros j u |]. split; [now apply (candidate_free _ _ _ _ t) | done]. }
  apply pair_eq in E as [<- <-]. apply andb_prop in X as [X _]. apply andb_prop in X as [_ X]. apply negb_true_iff in X.
  set (c1 := setter num_ctl_traps _ _).
  assert (L : forall j u, ctl_traps c !! j = Some u -> ctl_traps c1 !! j = Some (if decide (i = j) then u <| tr_flags := 0 |> else u))
    by (intros j u Hu; exact (upd_trap_lookup i j _ c u Hu)).
  split; [| split; [| split; [exact (length_insert _ _ _) | done]]].
  - intros j u Hu [Hu1 Hu2]. rewrite (L j u Hu). case_decide as D; [| done]. subst j. rewrite Ht in Hu. injection Hu as <-. congruence.
  - apply (candidate_free _ _ _ _ (if decide (i = i) then t <| tr_flags := 0 |> else t)); [now apply L |].
    destruct best as [b|]; [| done]. destruct B as (u & Hu & Nu). exists (if decide (i = b) then u <| tr_flags := 0 |> else u).
    split; [now apply L |]. case_decide; [| done]. intros [? _]. done.
Qed.

Lemma trap_rounds_kept traptype l best c best' c' :
  Forall (fun i => (i < length (ctl_traps c))%nat) l ->
  fold_left (trap_round traptype) l (best, c) = (best', c') -> not_configured_at c best ->
  traps_kept c c' /\ not_configured_at c' best' /\ eng c' = eng c.
Proof.
  revert best c. induction l as [|i l IH]; intros best c Hl E B; cbn [fold_left] in E.
  { apply pair_eq in E as [<- <-]. split; [now intros j u | done]. }
  apply Forall_cons in Hl as [Hi Hl]. destruct (trap_round traptype (best, c) i) as [b1 c1] eqn:R.
  destruct (trap_round_kept _ _ _ _ _ _ Hi R B) as (K1 & N1 & L1 & G1).
  destruct (IH b1 c1) as (K2 & N2 & G2); [now rewrite L1 | done | done |]. split; [| split; [done | congruence]].
  intros j u Hu Cu. apply K2; [| done]. now apply K1.
Qed.

(** A trap that the configuration set stays as it is: no request to set or
    to clear a trap, of whatever priority and from whatever address, changes
    or removes it. *)
Theorem configured_traps_stay raddr linter traptype version c :
  traptype <> TRAP_TYPE_CONFIG ->
  traps_kept c (snd (ctlsettrap raddr linter traptype version c)) /\ traps_kept c (snd (ctlclrtrap raddr linter traptype c)).
Proof.
  intros Ht. assert (T : (traptype =? TRAP_TYPE_CONFIG) = false) by now apply Z.eqb_neq.
  assert (F : forall i j t f, ctl_traps c !! j = Some t -> configured t -> has (tr_flags (trap_at c i)) TRAP_CONFIGURED = false ->
            ctl_traps (upd_trap i f c) !! j = Some t).
  { intros i j t f E C N. rewrite (upd_trap_lookup i j f c t E). case_decide; [| done]. subst j. rewrite (trap_at_lookup _ _ _ E), has_comm in N.
    destruct C as [_ C]. congruence. }
  unfold ctlsettrap, ctlclrtrap. rewrite T. cbn [negb andb]. destruct (ctlfindtrap raddr linter c) as [i|].
  - rewrite andb_true_r. destruct (has (tr_flags (trap_at c i)) TRAP_CONFIGURED) eqn:C; [split; now intros j t |].
    split; intros j t E Ct; cbn [snd]; [now apply F | now apply (F i j t _ E Ct C)].
  - split; [| now intros j t]. destruct (fold_left _ _ _) as [best c1] eqn:R.
    destruct (trap_rounds_kept traptype (seq 0 (length (ctl_traps c))) None c best c1) as (K & N & _); [| done | done |].
    { apply Forall_forall. intros x Hx%elem_of_seq. lia. }
    destruct best as [b|]; [| exact K]. intros j t E C. pose proof (K j t E C) as E1. destruct N as (u & Eu & Nu).
    cbn [snd]. change (ctl_traps (setter num_ctl_traps _ ?k)) with (ctl_traps k). rewrite (upd_trap_lookup b j _ c1 t E1).
    case_decide; [| done]. subst j. rewrite Eu in E1. injection E1 as ->. done.
Qed.

Lemma configured_traps_stay_witness :
  let t := mk_trap (v4 0x0a000007) (Some 1) 50 0 50 0 1 (TRAP_INUSE .| TRAP_CONFIGURED) 3 in
  let c := sample_ctl <| ctl_traps := [t; zero_trap; zero_trap] |> in
  TRAP_TYPE_PRIO <> TRAP_TYPE_CONFIG /\
  ctl_traps (snd (ctlsettrap (v4 0x0a000009) (Some 1) TRAP_TYPE_PRIO 3 c)) !! 0%nat = Some t.
Proof.
  intros t c. assert (N : TRAP_TYPE_PRIO <> TRAP_TYPE_CONFIG) by done. split; [exact N |].
  refine (proj1 (configured_traps_stay (v4 0x0a000009) (Some 1) TRAP_TYPE_PRIO 3 c N) 0%nat t eq_refl _).
  split; reflexivity.
Defined.
