(* ===== verification/Query.v ===== *)
(** * The query client (ntpq/ntpq.c)

    The client side of the mode 6 protocol: a request as [sendrequest] forms
    it, the collection of the fragments of a response by [getresponse], the
    retry of [doquery] and the parser of a list of variables, [nextvar].
    What the system hands to the client, packets in any order, time-outs and
    failures, is a list of events; [None] is a write outside a buffer or, at
    the end of the events, a client that still waits. *)

From S2P Require Import Prelude FixedPoint Double Lists NtpTypes Text AuthKeys Monitor Restrict State ProtoBase Control.
From stdpp Require Import base gmap list.
#[local] Open Scope Z_scope.

Definition MAXFRAGS : Z := 32.
Definition DATASIZE : Z := MAXFRAGS * 480.
Definition ERR_UNSPEC : Z := 256.
Definition ERR_INCOMPLETE : Z := 257.
Definition ERR_TIMEOUT : Z := 258.
Definition ERR_TOOMUCH : Z := 259.
Definition MAXVARLEN : Z := 256.
Definition MAXVALLEN : Z := 2048.

(** What [select] and [recv] return. *)
Inductive recv_event := SelectFails | TimedOut | RecvFails | Received (bytes : list Z).
#[export] Instance recv_event_eq : EqDecision recv_event.
Proof. solve_decision. Defined.

(** The globals of ntpq.c, and the packets handed to [send]. *)
Record client := mk_client {
  sequence : Z; pktversion : Z; always_auth : bool; havehost : bool; q_auth : auth_state;
  info_auth_keyid : Z; info_auth_keytype : Z; info_auth_hashlen : Z; pktdata : list Z; q_sent : list (list Z) }.
#[export] Instance eta_client : Eta client := fun r =>
  mk_client (sequence r) (pktversion r) (always_auth r) (havehost r) (q_auth r) (info_auth_keyid r)
    (info_auth_keytype r) (info_auth_hashlen r) (pktdata r) (q_sent r).

(** What [getresponse] keeps while it collects: offset and count of each
    fragment in the order of their offsets. *)
Record collect := mk_collect { frags : list (Z * Z); seenlastfrag : bool; rstatus : Z; cdata : list Z }.
#[export] Instance eta_collect : Eta collect := fun r => mk_collect (frags r) (seenlastfrag r) (rstatus r) (cdata r).

(** ** Collecting a response *)

(** The bytes of one packet into a state: [inl] loops again, [inr] returns. *)
Definition frag_end (fr : Z * Z) : Z := fst fr + snd fr.
Fixpoint no_holes (l : list (Z * Z)) : bool :=
  match l with
  | x :: (y :: _) as l => (frag_end x =? fst y) && no_holes l
  | _ => true
  end.
Definition last_end (l : list (Z * Z)) : Z := frag_end (List.last l (0, 0)).

(** The fragments before an offset. *)
Fixpoint before (offset : Z) (l : list (Z * Z)) : list (Z * Z) :=
  match l with
  | x :: l => if fst x <? offset then x :: before offset l else []
  | [] => []
  end.

(** From the test of the fragment count on: find the place, refuse overlaps,
    copy the data and look for holes. *)
Definition record_frag (bytes : list Z) (st : collect) : option (collect + Z * collect) :=
  let op := byte_at bytes 1 in
  let offset := be_val (take 2 (drop 8 bytes)) in
  let count := be_val (take 2 (drop 10 bytes)) in
  let numfrags := Z.of_nat (length (frags st)) in
  if MAXFRAGS - 1 <? numfrags then Some (inr (ERR_TOOMUCH, st))
  else
    let f := length (before offset (frags st)) in
    let prior := take f (frags st) in
    let later := drop f (frags st) in
    let overlaps := match later with x :: _ => (offset =? fst x) || (fst x <? offset + count) | [] => false end in
    if overlaps || match prior with [] => false | _ => offset <? last_end prior end then Some (inl st)
    else
      let st := st <| frags := prior ++ (offset, count) :: later |> in
      let st := if negb (has CTL_MORE op)
                then st <| seenlastfrag := true |> <| rstatus := be_val (take 2 (drop 4 bytes)) |> else st in
      d ← poke offset (take (Z.to_nat count) (drop 12 bytes)) (cdata st);
      let st := st <| cdata := d |> in
      Some (if seenlastfrag st && (fst (hd (0, 0) (frags st)) =? 0) && no_holes (frags st)
            then inr (0, st) else inl st).

(** The tests of a packet before that. *)
Definition take_packet (seqno opcode : Z) (bytes : list Z) (st : collect) : option (collect + Z * collect) :=
  let n := Z.of_nat (length bytes) in
  let li_vn_mode := byte_at bytes 0 in
  let op := byte_at bytes 1 in
  let word (off : nat) := be_val (take 2 (drop off bytes)) in
  let version := PKT_VERSION li_vn_mode in
  if n <? CTL_HEADER_LEN then Some (inl st)
  else if (NTP_VERSION <? version) || (version <? NTP_OLDVERSION) then Some (inl st)
  else if negb (PKT_MODE li_vn_mode =? MODE_CONTROL) then Some (inl st)
  else if negb (has CTL_RESPONSE op) then Some (inl st)
  else if negb (word 2%nat =? seqno) then Some (inl st)
  else if negb (CTL_OP_MASK .& op =? opcode) then Some (inl st)
  else if has CTL_ERROR op then
    let errcode := Z.shiftr (word 4%nat) 8 .& 0xff in
    Some (inr (if errcode =? CERR_UNSPEC then ERR_UNSPEC else errcode, st))
  else
    let offset := word 8%nat in
    let count := word 10%nat in
    if nonzero (Z.land n 3) then Some (inl st)
    else if n <? Z.land (CTL_HEADER_LEN + count + 3) (Z.lnot 3) then Some (inr (ERR_INCOMPLETE, st))
    else if n - CTL_HEADER_LEN <? count then Some (inl st)
    else if (count =? 0) && has CTL_MORE op then Some (inl st)
    else if DATASIZE <? offset + count then Some (inr (ERR_TOOMUCH, st))
    else if seenlastfrag st && negb (has CTL_MORE op) then Some (inl st)
    else record_frag bytes st.

(** [recv] cuts a packet at the size of [struct ntp_control]. *)
Definition CTL_PKT_SIZE : Z := CTL_HEADER_LEN + CTL_DATA_SIZE.

Fixpoint get_packets (seqno opcode : Z) (evs : list recv_event) (st : collect) : option (Z * collect * list recv_event) :=
  match evs with
  | [] => None
  | SelectFails :: evs | RecvFails :: evs => Some (-1, st, evs)
  | TimedOut :: evs => Some (match frags st with [] => ERR_TIMEOUT | _ => ERR_INCOMPLETE end, st, evs)
  | Received bytes :: evs =>
      r ← take_packet seqno opcode (take (Z.to_nat CTL_PKT_SIZE) bytes) st;
      match r with
      | inl st => get_packets seqno opcode evs st
      | inr (code, st) => Some (code, st, evs)
      end
  end.

(** The result: return code, [*rstatus] and the data, [*rsize] octets of
    [pktdata]. *)
Record response := mk_response { r_code : Z; r_status : Z; r_data : list Z }.

Definition getresponse (opcode : Z) (evs : list recv_event) (q : client) : option (response * client * list recv_event) :=
  '(code, st, evs) ← get_packets (sequence q) opcode evs (mk_collect [] false 0 (pktdata q));
  let rsize := if code =? 0 then last_end (frags st) else 0 in
  Some (mk_response code (rstatus st) (take (Z.to_nat rsize) (cdata st)), q <| pktdata := cdata st |>, evs).

(** ** Sending a request *)

(** What the user is asked for: a key identifier and a password. *)
Class Prompt := { getkeyid : Z; getpass_keytype : Z -> list Z }.

Section Client.
Context `{Digest, Prompt}.

Definition authusekey (keyno keytype : Z) (str : list Z) (a : auth_state) : option (bool * auth_state) :=
  match str with
  | [] => Some (false, a)
  | _ => a ← MD5auth_setkey keyno keytype str (Z.of_nat (length str)) a; Some (true, a)
  end.

(** The header, the data and the padding to a multiple of four. *)
Definition request_bytes (seqno version opcode associd : Z) (qdata : list Z) : list Z :=
  [PKT_LI_VN_MODE 0 version MODE_CONTROL; opcode .& CTL_OP_MASK] ++ be16 seqno ++ be16 0 ++ be16 (u16 associd)
  ++ be16 0 ++ be16 (u16 (Z.of_nat (length qdata))) ++ qdata ++ padding (Z.of_nat (length qdata)) 4.

(** The key: asked for when there is none. *)
Definition query_key (q : client) : option (client + client) :=
  match (if info_auth_keyid q =? 0
         then if (getkeyid =? 0) || (NTP_MAXKEY <? getkeyid) then None else Some (q <| info_auth_keyid := getkeyid |>)
         else Some q) with
  | None => Some (inr q)
  | Some q =>
      let '(trusted, a) := authistrusted (info_auth_keyid q) (q_auth q) in
      let q := q <| q_auth := a |> in
      if (trusted : bool) then Some (inl q)
      else
        let pass := getpass_keytype (info_auth_keytype q) in
        match pass with
        | [] => Some (inr q)
        | _ =>
            '(_, a) ← authusekey (info_auth_keyid q) (info_auth_keytype q) pass (q_auth q);
            a ← authtrust 0 (info_auth_keyid q) 1 a;
            Some (inl (q <| q_auth := a |>))
        end
  end.

(** The bytes of [qpkt] that are not set are not sent. *)
Definition sendrequest (opcode associd : Z) (auth : bool) (qdata : list Z) (q : client) : option (Z * client) :=
  if CTL_MAX_DATA_LEN <? Z.of_nat (length qdata) then Some (1, q)
  else
    let pkt := request_bytes (sequence q) (pktversion q) opcode associd qdata in
    if negb auth && negb (always_auth q) then Some (0, q <| q_sent := q_sent q ++ [pkt] |>)
    else
      let pkt := pkt ++ padding (Z.of_nat (length pkt)) 8 in
      let pktsize := Z.of_nat (length pkt) in
      r ← query_key q;
      match r with
      | inr q => Some (1, q)
      | inl q =>
          '(maclen, buf, a) ← authencrypt (info_auth_keyid q) (pkt ++ replicate (Z.to_nat (CTL_PKT_SIZE - pktsize)) 0) pktsize (q_auth q);
          let q := q <| q_auth := a |> in
          if maclen =? 0 then Some (1, q)
          else if negb (maclen =? info_auth_hashlen q + 4) then Some (1, q)
          else Some (0, q <| q_sent := q_sent q ++ [take (Z.to_nat (pktsize + maclen)) buf] |>)
      end.

(** ** A query with one retry *)

Definition query_once (opcode associd : Z) (auth : bool) (qdata : list Z) (evs : list recv_event) (q : client) :
    option (response * client * list recv_event) :=
  '(res, q) ← sendrequest opcode associd auth qdata q;
  if nonzero res then Some (mk_response res 0 [], q, evs) else getresponse opcode evs q.

Definition doquery (opcode associd : Z) (auth : bool) (qdata : list Z) (evs : list recv_event) (q : client) :
    option (response * client * list recv_event) :=
  if negb (havehost q) then Some (mk_response (-1) 0 [], q, evs)
  else
    let q := q <| sequence := u16 (sequence q + 1) |> in
    '(r, q, evs) ← query_once opcode associd auth qdata evs q;
    if (r_code r =? ERR_TIMEOUT) || (r_code r =? ERR_INCOMPLETE) then
      let q := if r_code r =? ERR_INCOMPLETE then q <| sequence := u16 (sequence q + 1) |> else q in
      query_once opcode associd auth qdata evs q
    else Some (r, q, evs).
End Client.

(** ** The next variable of a response *)

Definition one_of (l : list Z) (ch : Z) : bool := existsb (Z.eqb ch) l.
(** A text without its trailing white space. *)
Definition trim_end (l : list Z) : list Z := rev (skip isspace (rev l)).

(** The value: a quoted text, or up to a comma or carriage return. *)
Definition value_text (cp : list Z) : list Z :=
  match cp with
  | ch :: r =>
      if ch =? 34 then
        let body := span (fun x => negb (x =? 34)) r in
        34 :: body ++ take 1 (drop (length body) r)
      else span (fun x => negb (one_of [44; 13] x)) cp
  | [] => []
  end.

Inductive var_result := NoVar | Var (name : list Z) (value : option (list Z)) (rest : list Z).

(** What follows the equals sign; [behind] is the octet behind the data, which
    is looked at when the equals sign ends it. *)
Definition take_value (name r : list Z) (behind : Z) : var_result :=
  let cp := skip (fun x => isspace x && negb (one_of [13; 10] x)) r in
  let value := value_text cp in
  let np := drop (length value) cp in
  if match cp with [] => behind =? 34 | _ => false end || (MAXVALLEN <=? Z.of_nat (length value))
     || match np with x :: _ => negb (one_of [44; 13] x) | [] => false end
  then NoVar
  else Var name (Some (trim_end value)) (match np with x :: r => if x =? 44 then r else np | [] => [] end).

(** [None]: the name overruns its buffer, which is not checked. *)
Definition nextvar (data : list Z) (behind : Z) : option var_result :=
  let cp := skip (fun ch => (ch =? 44) || isspace ch) data in
  match cp with
  | [] => Some NoVar
  | _ =>
      let src := span (fun ch => negb (one_of [0; 44; 61; 13; 10] ch)) cp in
      let name := trim_end src in
      if MAXVARLEN <=? Z.of_nat (length name) then None
      else
        match drop (length src) cp with
        | [] => Some (Var name None [])
        | ch :: r => Some (if one_of [44; 13; 10] ch then Var name None r else take_value name r behind)
        end
  end.
