(* ===== verification/QueryFacts.v ===== *)
(** * The query client and the server together

    [getresponse] joins the fragments of a response in whatever order and
    however often they arrive; with the server's side this gives the whole
    way of an answer, and [nextvar] takes it apart again. *)

From S2P Require Import Prelude FixedPoint Double Lists NtpTypes Text AuthKeys AuthFacts Monitor Restrict State ProtoBase Control ControlFacts Query.
From stdpp Require Import base gmap list.
#[local] Open Scope Z_scope.

(** ** The fragments of a complete response *)

Definition piece (b : list Z) : Z * Z := (frag_offset b, frag_count b).
Definition more (b : list Z) : bool := has (byte_at b 1) CTL_MORE.
(** An empty fragment that is not the last one is passed over. *)
Definition kept (b : list Z) : bool := negb ((frag_count b =? 0) && more b).
Definition pieces (pkts : list (list Z)) : list (Z * Z) := map piece (filter (fun b => kept b = true) pkts).

(** Pieces from [o] to [e] without holes; only the last may be empty. *)
Fixpoint contiguous (o : Z) (l : list (Z * Z)) (e : Z) : Prop :=
  match l with
  | [] => o = e
  | x :: l => fst x = o /\ 0 <= snd x /\ (snd x = 0 -> l = []) /\ contiguous (o + snd x) l e
  end.

(** What is known of each packet of a response with text [data]. *)
Record fits (o : Z) (pkts : list (list Z)) (data : list Z) (b : list Z) : Prop := {
  ft_response : has CTL_RESPONSE (byte_at b 1) = true;
  ft_room : frag_count b <= Z.of_nat (length b) - 12;
  ft_range : o <= frag_offset b /\ frag_offset b + frag_count b <= o + Z.of_nat (length data);
  ft_data : forall j, (j < Z.to_nat (frag_count b))%nat -> frag_data b !! j = data !! (Z.to_nat (frag_offset b - o) + j)%nat;
  ft_in : kept b = true -> piece b ∈ pieces pkts;
  ft_last : if more b then 0 < frag_count b -> frag_offset b < fst (List.last (pieces pkts) (0, 0))
            else piece b = List.last (pieces pkts) (0, 0);
  ft_final : more b = false -> b = List.last pkts [] }.

Lemma has_sym x y : has x y = has y x.
Proof. unfold has. now rewrite Z.land_comm. Qed.

Lemma reassemble_cons o b l data :
  reassemble o (b :: l) = Some data ->
  has CTL_RESPONSE (byte_at b 1) = true /\ frag_offset b = o /\ frag_count b <= Z.of_nat (length b) - 12 /\
  (if more b then exists rest, reassemble (o + frag_count b) l = Some rest /\ data = frag_data b ++ rest
   else l = [] /\ data = frag_data b).
Proof.
  cbn [reassemble]. fold (more b). destruct (has (byte_at b 1) CTL_RESPONSE) eqn:R; [| done]. cbn [andb].
  destruct (Z.eqb_spec (frag_offset b) o); [| done]. destruct (Z.leb_spec (frag_count b) (Z.of_nat (length b) - 12)); [| done].
  cbn [andb]. rewrite has_sym. intros E. repeat (split; [done |]). destruct (more b).
  - destruct (reassemble _ l) as [rest|]; [| done]. cbn in E. injection E as <-. now exists rest.
  - destruct l; [| done]. injection E as <-. done.
Qed.

Lemma length_frag_data b : 0 <= frag_count b <= Z.of_nat (length b) - 12 -> Z.of_nat (length (frag_data b)) = frag_count b.
Proof. intros H. unfold frag_data. rewrite length_take, length_drop. lia. Qed.

(** The pieces of a response. *)
Lemma pieces_contiguous pkts : forall o data,
  reassemble o pkts = Some data -> Forall (fun b => 0 <= frag_count b) pkts ->
  contiguous o (pieces pkts) (o + Z.of_nat (length data)) /\ pieces pkts <> [].
Proof.
  induction pkts as [|b l IH]; intros o data E Hc; [done |]. apply Forall_cons in Hc as [H0 Hc].
  apply reassemble_cons in E as (_ & Ho & Hr & E). pose proof (length_frag_data b ltac:(lia)) as L.
  unfold pieces, kept. destruct (more b) eqn:M.
  - destruct E as (rest & E & ->). destruct (IH _ _ E Hc) as [C N]. rewrite length_app.
    destruct (Z.eqb_spec (frag_count b) 0) as [Z0|Z0].
    + rewrite filter_cons_False by (unfold kept; rewrite Z0, M; done). split; [| exact N].
      replace (o + Z.of_nat (length (frag_data b) + length rest)) with (o + frag_count b + Z.of_nat (length rest)) by lia.
      rewrite Z0, Z.add_0_r in *. exact C.
    + rewrite filter_cons_True by (unfold kept; rewrite (proj2 (Z.eqb_neq _ _) Z0); done). cbn [map contiguous fst snd piece].
      split; [| done]. split; [done |]. split; [done |]. split; [lia |].
      replace (o + Z.of_nat (length (frag_data b) + length rest)) with (o + frag_count b + Z.of_nat (length rest)) by lia. exact C.
  - destruct E as [-> ->]. rewrite filter_cons_True by (unfold kept; rewrite M, andb_false_r; done).
    cbn. split; [| done]. repeat split; try done. lia.
Qed.

Lemma contiguous_le l : forall o e, contiguous o l e -> o <= e.
Proof. induction l as [|x l IH]; cbn; intros o e H; [lia |]. destruct H as (_ & ? & _ & H). apply IH in H. lia. Qed.

Lemma contiguous_app l1 l2 : forall o e,
  contiguous o (l1 ++ l2) e <-> exists m, contiguous o l1 m /\ contiguous m l2 e /\ (l2 <> [] -> Forall (fun x => 0 < snd x) l1).
Proof.
  induction l1 as [|x l1 IH]; intros o e; cbn.
  - split; [intros H; exists o; split; [done | now split] | now intros (m & -> & H & _)].
  - rewrite IH. split.
    + intros (H1 & H2 & H3 & m & H4 & H5 & H6). exists m. split; [| split; [done |]].
      * repeat split; try done. intros Z0. destruct l1; [done |]. now specialize (H3 Z0).
      * intros N. constructor; [| now apply H6]. destruct (Z.eq_dec (snd x) 0) as [Z0|]; [| lia].
        specialize (H3 Z0). destruct l1; [| done]. now destruct l2.
    + intros (m & (H1 & H2 & H3 & H4) & H5 & H6). repeat split; try done.
      * intros Z0. destruct l2; [now rewrite app_nil_r; apply H3 |]. assert (N : p :: l2 <> []) by done.
        apply H6 in N. apply Forall_cons in N as [N _]. lia.
      * exists m. split; [done |]. split; [done |]. intros N. apply H6 in N. now apply Forall_cons in N as [_ N].
Qed.

(** A piece in the middle: those before it end before it, those behind it
    start behind it. *)
Lemma contiguous_split o A x B e :
  contiguous o (A ++ x :: B) e ->
  Forall (fun y => o <= fst y /\ 0 < snd y /\ frag_end y <= fst x) A /\
  Forall (fun y => fst x < fst y /\ frag_end x <= fst y) B /\ (snd x = 0 -> B = []) /\ o <= fst x /\ 0 <= snd x /\ frag_end x <= e.
Proof.
  intros H. apply contiguous_app in H as (m & HA & (H1 & H2 & H3 & HB) & HP). specialize (HP ltac:(done)).
  assert (EA : forall l a m, contiguous a l m -> Forall (fun x => 0 < snd x) l -> Forall (fun y => a <= fst y /\ 0 < snd y /\ frag_end y <= m) l).
  { clear. induction l as [|y l IH]; intros a m H P; [done |]. destruct H as (H1 & H2 & _ & H). apply Forall_cons in P as [P1 P2].
    pose proof (contiguous_le _ _ _ H) as Le. constructor; [unfold frag_end; lia |].
    eapply Forall_impl; [exact (IH _ _ H P2) |]. cbn. intros z. lia. }
  assert (EB : forall l a e, contiguous a l e -> Forall (fun y => a <= fst y) l).
  { clear. induction l as [|y l IH]; intros a e H; [done |]. destruct H as (H1 & H2 & _ & H). constructor; [lia |].
    eapply Forall_impl; [exact (IH _ _ H) |]. cbn. intros z. lia. }
  subst m. pose proof (contiguous_le _ _ _ HA). pose proof (contiguous_le _ _ _ HB).
  split; [now apply EA |]. split; [| unfold frag_end; repeat split; try done; lia].
  destruct (Z.eq_dec (snd x) 0) as [Z0|]; [now rewrite (H3 Z0) |].
  eapply Forall_impl; [exact (EB _ _ _ HB) |]. cbn. unfold frag_end. intros z. lia.
Qed.

(** Every position belongs to a piece. *)
Lemma contiguous_cover l : forall o e i, contiguous o l e -> o <= i < e -> exists x, x ∈ l /\ fst x <= i < frag_end x.
Proof.
  induction l as [|x l IH]; intros o e i H Hi; cbn in H; [lia |]. destruct H as (H1 & H2 & H3 & H).
  destruct (Z.ltb_spec i (o + snd x)).
  - exists x. split; [now left |]. unfold frag_end. lia.
  - destruct (IH _ _ i H ltac:(lia)) as (y & Hy & Hr). exists y. split; [now right | done].
Qed.

Lemma last_cons_ne {A} (x : A) l d : l <> [] -> List.last (x :: l) d = List.last l d.
Proof. now destruct l. Qed.

Lemma contiguous_last l : forall o e, contiguous o l e -> l <> [] -> frag_end (List.last l (0, 0)) = e /\ o <= fst (List.last l (0, 0)).
Proof.
  induction l as [|x l IH]; intros o e H N; [done |]. destruct H as (H1 & H2 & H3 & H). destruct l as [|y l].
  - cbn in *. unfold frag_end. lia.
  - rewrite last_cons_ne by done. destruct (IH _ _ H) as [? ?]; [done |]. lia.
Qed.

Lemma contiguous_hd l o e : contiguous o l e -> l <> [] -> fst (hd (0, 0) l) = o.
Proof. destruct l; [done |]. now intros [H _] _. Qed.

Lemma packet_fits pkts : forall o data b,
  reassemble o pkts = Some data -> Forall (fun b => 0 <= frag_count b) pkts -> b ∈ pkts -> fits o pkts data b.
Proof.
  induction pkts as [|p l IH]; intros o data b E Hc Hb; [now apply elem_of_nil in Hb |].
  pose proof (pieces_contiguous _ _ _ E Hc) as [C N]. apply Forall_cons in Hc as [H0 Hc].
  apply reassemble_cons in E as (R & Ho & Hr & E). pose proof (length_frag_data p ltac:(lia)) as L.
  apply elem_of_cons in Hb as [-> | Hb].
  - assert (I : kept p = true -> piece p ∈ pieces (p :: l)).
    { intros K. unfold pieces. rewrite filter_cons_True by done. now left. }
    destruct (more p) eqn:M.
    + destruct E as (rest & E & ->). rewrite length_app in *. pose proof (pieces_contiguous _ _ _ E Hc) as [C' N'].
      split; try done; [rewrite length_app; lia | | | congruence].
      * intros j Hj. rewrite Ho, Z.sub_diag. cbn. rewrite lookup_app_l by lia. done.
      * rewrite M. intros P. unfold pieces in *. rewrite filter_cons_True by (unfold kept; rewrite (proj2 (Z.eqb_neq _ 0)) by lia; done).
        cbn [map]. rewrite last_cons_ne by done. apply (contiguous_last _ _ _ C') in N' as [_ N']. lia.
    + destruct E as [-> ->]. split; try done; [lia | |].
      * intros j Hj. rewrite Ho, Z.sub_diag. done.
      * rewrite M. unfold pieces. rewrite filter_cons_True by (unfold kept; rewrite M, andb_false_r; done). done.
  - destruct (more p) eqn:M; [| destruct E as [-> _]; now apply elem_of_nil in Hb].
    destruct E as (rest & E & ->). destruct (IH _ _ _ E Hc Hb) as [F1 F2 F3 F4 F5 F6 F7].
    pose proof (pieces_contiguous _ _ _ E Hc) as [_ N'].
    assert (P : pieces (p :: l) = pieces l \/ pieces (p :: l) = piece p :: pieces l).
    { unfold pieces. rewrite filter_cons. case_decide; auto. }
    assert (PL : List.last (pieces (p :: l)) (0, 0) = List.last (pieces l) (0, 0)).
    { destruct P as [-> | ->]; [done | now apply last_cons_ne]. }
    split; try done; [rewrite ?length_app; lia | | | |].
    + intros j Hj. rewrite F4 by done. rewrite lookup_app_r by lia. f_equal. lia.
    + intros K. specialize (F5 K). destruct P as [-> | ->]; [done | now right].
    + now rewrite PL.
    + intros M'. rewrite last_cons_ne; [now apply F7 |]. intros ->. now apply elem_of_nil in Hb.
Qed.

(** ** The fragments the client has *)

Lemma before_app offset l1 l2 :
  Forall (fun y => fst y < offset) l1 -> match l2 with [] => True | y :: _ => offset <= fst y end ->
  before offset (l1 ++ l2) = l1.
Proof.
  intros H1 H2. induction l1 as [|x l1 IH]; cbn.
  - destruct l2 as [|y l2]; [done |]. cbn. now rewrite (proj2 (Z.ltb_ge _ _)).
  - apply Forall_cons in H1 as [H0 H1]. rewrite (proj2 (Z.ltb_lt _ _)) by done. now rewrite (IH H1).
Qed.

Lemma last_in {A} (l : list A) d : l <> [] -> List.last l d ∈ l.
Proof. intros (l' & x & ->)%exists_last. rewrite last_last. apply elem_of_app. right. now left. Qed.

Lemma last_filter (R l : list (Z * Z)) : l <> [] -> List.last l (0, 0) ∈ R -> filter (fun x => x ∈ R) l <> [].
Proof.
  intros N H E. assert (Hx : List.last l (0, 0) ∈ filter (fun x => x ∈ R) l); [| rewrite E in Hx; now apply elem_of_nil in Hx].
  apply list_elem_of_filter. split; [done | now apply last_in].
Qed.

Section Collect.
(** All pieces, of a response that ends at [e]. *)
Context (F : list (Z * Z)) (e : Z) (HF : contiguous 0 F e) (NF : F <> []).

(** Those that have arrived. *)
Definition got (R : list (Z * Z)) : list (Z * Z) := filter (fun x => x ∈ R) F.

Lemma filter_Forall {A} (P : A -> Prop) `{forall x, Decision (P x)} (Q : A -> Prop) (l : list A) : Forall Q l -> Forall Q (filter P l).
Proof. rewrite !Forall_forall. intros H1 x [_ Hx]%list_elem_of_filter. now apply H1. Qed.

Lemma filter_ext_in {A} (P Q : A -> Prop) `{forall x, Decision (P x)} `{forall x, Decision (Q x)} (l : list A) :
  (forall x, x ∈ l -> P x <-> Q x) -> filter P l = filter Q l.
Proof.
  induction l as [|x l IH]; intros H1; [done |]. rewrite !filter_cons.
  assert (E : filter P l = filter Q l) by (apply IH; intros y Hy; apply H1; now right).
  specialize (H1 x ltac:(now left)). do 2 case_decide; try tauto; now rewrite E.
Qed.

(** The place of a piece among those that have arrived. *)
Lemma got_split x R :
  x ∈ F -> exists A B,
    got R = A ++ (if decide (x ∈ R) then [x] else []) ++ B /\ got (x :: R) = A ++ x :: B /\
    length (before (fst x) (got R)) = length A /\
    (forall y B', B = y :: B' -> (fst x =? fst y) = false /\ (fst y <? fst x + snd x) = false) /\
    (A <> [] -> (fst x <? last_end A) = false) /\
    (forall y, y ∈ A ++ B -> y ∈ F /\ (frag_end y <= fst x \/ frag_end x <= fst y)).
Proof.
  intros (A & B & E)%list_elem_of_split. pose proof HF as C. rewrite E in C. apply contiguous_split in C as (CA & CB & CZ & _ & C0 & _).
  assert (NA : x ∉ A) by (intros Hx; rewrite Forall_forall in CA; apply CA in Hx; unfold frag_end in Hx; lia).
  assert (NB : x ∉ B) by (intros Hx; rewrite Forall_forall in CB; apply CB in Hx; lia).
  exists (filter (fun y => y ∈ R) A), (filter (fun y => y ∈ R) B).
  assert (G : got R = filter (fun y => y ∈ R) A ++ (if decide (x ∈ R) then [x] else []) ++ filter (fun y => y ∈ R) B).
  { unfold got. rewrite E, filter_app, filter_cons. destruct (decide (x ∈ R)); done. }
  assert (FA : Forall (fun y => 0 <= fst y /\ 0 < snd y /\ frag_end y <= fst x) (filter (fun y => y ∈ R) A)) by now apply filter_Forall.
  assert (FB : Forall (fun y => fst x < fst y /\ frag_end x <= fst y) (filter (fun y => y ∈ R) B)) by now apply filter_Forall.
  split; [exact G |]. split; [| split; [| split; [| split]]].
  - unfold got. rewrite E, filter_app, filter_cons_True by now left. f_equal; [| f_equal].
    + apply filter_ext_in. intros y Hy. rewrite elem_of_cons. split; [intros [-> | ?]; done | now right].
    + apply filter_ext_in. intros y Hy. rewrite elem_of_cons. split; [intros [-> | ?]; done | now right].
  - rewrite G, before_app; [done | |].
    + eapply Forall_impl; [exact FA |]. unfold frag_end. cbn. intros y. lia.
    + destruct (decide (x ∈ R)); [cbn; lia |]. cbn [app]. destruct (filter _ B) as [|y l] eqn:EB; [done |].
      apply Forall_cons in FB as [FB _]. lia.
  - intros y B' EB. rewrite EB in FB. apply Forall_cons in FB as [FB _]. unfold frag_end in FB. split; [apply Z.eqb_neq | apply Z.ltb_ge]; lia.
  - intros N. apply exists_last in N as (A' & y & EA). rewrite EA in *. unfold last_end. rewrite last_last.
    apply Forall_app in FA as [_ FA]. apply Forall_cons in FA as [FA _]. apply Z.ltb_ge. lia.
  - intros y [Hy|Hy]%elem_of_app; rewrite Forall_forall in FA, FB.
    + split; [| left; now apply FA]. rewrite E. apply elem_of_app. left. now apply list_elem_of_filter in Hy as [_ ?].
    + split; [| right; now apply FB]. rewrite E. apply elem_of_app. right. right. now apply list_elem_of_filter in Hy as [_ ?].
Qed.

Lemma got_nil : got [] = [].
Proof. unfold got. clear HF NF. induction F as [|x l IH]; [done |]. rewrite filter_cons_False by apply not_elem_of_nil. exact IH. Qed.

Lemma no_holes_contiguous l : forall o m, contiguous o l m -> no_holes l = true.
Proof.
  induction l as [|x l IH]; intros o m H; [done |]. destruct H as (H1 & H2 & H3 & H). destruct l as [|y l]; [done |].
  cbn [no_holes]. pose proof (IH _ _ H) as E. cbn [no_holes] in E. rewrite E. destruct H as (H & _). unfold frag_end. rewrite H1, H, Z.eqb_refl. done.
Qed.

(** With the last piece, the first at zero and no holes, all have arrived. *)
Lemma complete_all l : forall o m (R : list (Z * Z)),
  contiguous o l m -> l <> [] -> List.last l (0, 0) ∈ R -> fst (hd (0, 0) (filter (fun x => x ∈ R) l)) = o ->
  no_holes (filter (fun x => x ∈ R) l) = true -> filter (fun x => x ∈ R) l = l.
Proof.
  induction l as [|y l IH]; intros o m R C N HL Hh Hn; [done |]. pose proof C as C0. destruct C as (C1 & C2 & C3 & C).
  destruct l as [|z l].
  - cbn in HL. rewrite filter_cons_True by done. done.
  - rewrite last_cons_ne in HL by done. destruct (decide (y ∈ R)) as [Y|Y].
    + rewrite filter_cons_True in Hn |- * by done. f_equal.
      pose proof (last_filter R (z :: l) ltac:(done) HL) as NE.
      destruct (filter (fun x => x ∈ R) (z :: l)) as [|w k] eqn:E; [done |]. cbn [no_holes] in Hn.
      apply andb_prop in Hn as [Hw Hn]. rewrite <- E. apply (IH (o + snd y) m); [done | done | done | |].
      * rewrite E. cbn. unfold frag_end in Hw. lia.
      * rewrite E. exact Hn.
    + exfalso. rewrite filter_cons_False in Hh, Hn by done. assert (P : 0 < snd y) by (destruct (Z.eq_dec (snd y) 0); [now specialize (C3 e0) | lia]).
      assert (Q : Forall (fun w => o < fst w) (z :: l)).
      { apply (contiguous_split o [] y (z :: l)) in C0 as (_ & CB & _). eapply Forall_impl; [exact CB |]. cbn. intros w. lia. }
      destruct (filter (fun x => x ∈ R) (z :: l)) as [|w k] eqn:E.
      * now apply last_filter in E.
      * assert (W : w ∈ filter (fun x => x ∈ R) (z :: l)) by (rewrite E; now left). apply list_elem_of_filter in W as [_ W].
        rewrite Forall_forall in Q. apply Q in W. cbn in Hh. lia.
Qed.
End Collect.

Lemma poke_lookup off bs buf d (i : nat) :
  poke off bs buf = Some d ->
  length d = length buf /\ d !! i = if (off <=? Z.of_nat i) && (Z.of_nat i <? off + Z.of_nat (length bs)) then bs !! (i - Z.to_nat off)%nat else buf !! i.
Proof.
  unfold poke. destruct ((0 <=? off) && _) eqn:E; [| done]. apply andb_prop in E as [E1 E2]. intros [= <-].
  apply Z.leb_le in E1, E2. assert (L : length (take (Z.to_nat off) buf) = Z.to_nat off) by (rewrite length_take; lia).
  split; [rewrite !length_app, length_drop, L; lia |].
  destruct (Z.leb_spec off (Z.of_nat i)); cbn [andb].
  - rewrite lookup_app_r, L by lia. destruct (Z.ltb_spec (Z.of_nat i) (off + Z.of_nat (length bs))).
    + rewrite lookup_app_l by lia. f_equal.
    + rewrite lookup_app_r, lookup_drop by lia. f_equal. lia.
  - rewrite lookup_app_l by lia. apply lookup_take_lt. lia.
Qed.

(** ** A packet of the response asked for *)

(** What the client asks of a packet besides its place. *)
Record packet_for (seqno opcode : Z) (b : list Z) : Prop := {
  pf_size : 12 <= Z.of_nat (length b) <= CTL_PKT_SIZE /\ Z.of_nat (length b) mod 4 = 0;
  pf_count : 0 <= frag_count b;
  pf_version : NTP_OLDVERSION <= PKT_VERSION (byte_at b 0) <= NTP_VERSION;
  pf_mode : PKT_MODE (byte_at b 0) = MODE_CONTROL;
  pf_seq : be_val (take 2 (drop 2 b)) = seqno;
  pf_op : CTL_OP_MASK .& byte_at b 1 = opcode;
  pf_err : has CTL_ERROR (byte_at b 1) = false }.

(** Packets of no interest: too short, or the answer to another request. *)
Definition stray (seqno : Z) (b : list Z) : Prop :=
  Z.of_nat (length b) < CTL_HEADER_LEN \/ be_val (take 2 (drop 2 (take (Z.to_nat CTL_PKT_SIZE) b))) <> seqno.

Lemma land3_mod n : Z.land n 3 = n mod 4.
Proof. change 3 with (2 ^ 2 - 1). now rewrite land_ones_mod by lia. Qed.

(** Rounding down to a multiple of a power of two. *)
Lemma land_lnot_ones k n : 0 <= k -> Z.land n (Z.lnot (2 ^ k - 1)) = n - n mod 2 ^ k.
Proof.
  intros Hk. rewrite <- land_ones_mod by done. rewrite (Z.sub_nocarry_ldiff n).
  - apply Z.bits_inj. intros i. rewrite Z.ldiff_spec, !Z.land_spec. destruct (Z.ltb_spec i 0); [now rewrite !Z.testbit_neg_r by lia |].
    rewrite Z.lnot_spec by lia. now destruct (Z.testbit n i), (Z.testbit (2 ^ k - 1) i).
  - apply Z.bits_inj. intros i. rewrite Z.ldiff_spec, Z.bits_0, Z.land_spec. now destruct (Z.testbit n i), (Z.testbit (2 ^ k - 1) i).
Qed.

Lemma take_packet_stray seqno opcode b st :
  stray seqno b -> take_packet seqno opcode (take (Z.to_nat CTL_PKT_SIZE) b) st = Some (inl st).
Proof.
  intros S. unfold take_packet. destruct (Z.ltb_spec (Z.of_nat (length (take (Z.to_nat CTL_PKT_SIZE) b))) CTL_HEADER_LEN); [done |].
  destruct (_ || _); [done |]. destruct (negb _); [done |]. destruct (negb _); [done |].
  destruct S as [S | S].
  - rewrite length_take in H. unfold CTL_HEADER_LEN, CTL_PKT_SIZE, CTL_DATA_SIZE, MAX_MAC_LEN, CTL_HEADER_LEN in *. lia.
  - now rewrite (proj2 (Z.eqb_neq _ _) S).
Qed.

Lemma take_packet_for seqno opcode o pkts data b st :
  packet_for seqno opcode b -> fits o pkts data b -> frag_offset b + frag_count b <= DATASIZE ->
  take_packet seqno opcode (take (Z.to_nat CTL_PKT_SIZE) b) st =
  if negb (kept b) || (seenlastfrag st && negb (more b)) then Some (inl st) else record_frag b st.
Proof.
  intros [[P1 P2] P3 P4 P5 P6 P7 P8] [T1 T2 _ _ _ _ _] HD. rewrite take_ge by lia. unfold take_packet. cbv zeta.
  fold (frag_offset b) (frag_count b). rewrite P6, P7, P8, P5, T1, !Z.eqb_refl.
  rewrite (proj2 (Z.ltb_ge _ CTL_HEADER_LEN)) by (unfold CTL_HEADER_LEN; lia).
  rewrite (proj2 (Z.ltb_ge NTP_VERSION _)), (proj2 (Z.ltb_ge _ NTP_OLDVERSION)) by lia. cbn [orb negb].
  rewrite land3_mod, P2. change (nonzero 0) with false. cbv iota.
  rewrite (proj2 (Z.ltb_ge (Z.of_nat (length b)) _)).
  2: { change 3 with (2 ^ 2 - 1) at 2. rewrite land_lnot_ones by lia. unfold CTL_HEADER_LEN. divlia. }
  rewrite (proj2 (Z.ltb_ge (Z.of_nat (length b) - _) _)) by (unfold CTL_HEADER_LEN; lia).
  rewrite (proj2 (Z.ltb_ge DATASIZE _)) by lia. unfold kept, more. rewrite negb_involutive, (has_sym (byte_at b 1)).
  destruct ((frag_count b =? 0) && _); cbn [orb]; [done |]. reflexivity.
Qed.

(** ** Collecting *)

Section Gather.
Context (seqno opcode : Z) (pkts : list (list Z)) (data : list Z).
Context (HR : reassemble 0 pkts = Some data) (HP : Forall (packet_for seqno opcode) pkts).
Context (HS : Z.of_nat (length data) <= DATASIZE) (HN : Z.of_nat (length pkts) <= MAXFRAGS).

Let F := pieces pkts.
Let top := List.last F (0, 0).

(** The pieces in [R] have arrived, and their data is in place. *)
Record gathered (R : list (Z * Z)) (st : collect) : Prop := {
  ga_frags : frags st = got F R;
  ga_seen : seenlastfrag st = bool_decide (top ∈ R);
  ga_status : seenlastfrag st = true -> rstatus st = be_val (take 2 (drop 4 (List.last pkts [])));
  ga_room : Z.of_nat (length (cdata st)) = DATASIZE;
  ga_data : forall y (i : nat), y ∈ frags st -> fst y <= Z.of_nat i < frag_end y -> cdata st !! i = data !! i }.

Lemma counts : Forall (fun b => 0 <= frag_count b) pkts.
Proof. eapply Forall_impl; [exact HP |]. intros b P. apply P. Qed.
Lemma F_contiguous : contiguous 0 F (Z.of_nat (length data)) /\ F <> [].
Proof. exact (pieces_contiguous _ _ _ HR counts). Qed.
Lemma fit b : b ∈ pkts -> fits 0 pkts data b.
Proof. apply (packet_fits _ _ _ _ HR counts). Qed.

Lemma few_frags R : (length (got F R) <= length pkts)%nat.
Proof.
  unfold got. etransitivity; [apply length_filter |]. unfold F, pieces. rewrite length_map. apply length_filter.
Qed.

Lemma got_all R : (forall y, y ∈ F -> y ∈ R) <-> got F R = F.
Proof.
  unfold got. split.
  - intros H. induction F as [|x l IH]; [done |]. rewrite filter_cons_True by (apply H; now left).
    f_equal. apply IH. intros y Hy. apply H. now right.
  - intros E y Hy. rewrite <- E in Hy. now apply list_elem_of_filter in Hy as [? _].
Qed.

Lemma got_missing R y : y ∈ F -> y ∉ R -> (length (got F R) < length pkts)%nat.
Proof.
  intros Hy N. unfold got. apply Nat.lt_le_trans with (length F).
  - apply list_elem_of_split in Hy as (A & B & E). rewrite E, filter_app, filter_cons_False, !length_app by done. cbn.
    pose proof (length_filter (fun x => x ∈ R) A). pose proof (length_filter (fun x => x ∈ R) B). lia.
  - unfold F, pieces. rewrite length_map. apply length_filter.
Qed.

(** A piece that has arrived before is passed over. *)
Lemma record_again b R st : b ∈ pkts -> gathered R st -> (exists y, y ∈ F /\ y ∉ R) -> kept b = true -> piece b ∈ R ->
  record_frag b st = Some (inl st).
Proof.
  intros Hb [G1 _ _ _ _] (y & Hy & Ny) K HI. destruct F_contiguous as [C _]. pose proof (ft_in _ _ _ _ (fit b Hb) K) as I.
  destruct (got_split F _ C (piece b) R I) as (A & B & E & _ & L & _ & _ & _). unfold record_frag. cbv zeta.
  fold (frag_offset b) (frag_count b). pose proof (got_missing R y Hy Ny). rewrite G1.
  rewrite (proj2 (Z.ltb_ge _ _)) by lia. change (fst (piece b)) with (frag_offset b) in L. rewrite L, E.
  rewrite decide_True by done. rewrite drop_app_length. cbn [app fst piece]. rewrite Z.eqb_refl. done.
Qed.

(** A new piece. *)
Definition with_piece (b : list Z) (R : list (Z * Z)) (st : collect) (d : list Z) : collect :=
  let st := st <| frags := got F (piece b :: R) |> in
  (if negb (has CTL_MORE (byte_at b 1)) then st <| seenlastfrag := true |> <| rstatus := be_val (take 2 (drop 4 b)) |> else st) <| cdata := d |>.

Lemma record_new b R st : b ∈ pkts -> gathered R st -> kept b = true -> piece b ∉ R ->
  exists d, gathered (piece b :: R) (with_piece b R st d) /\
    record_frag b st = Some (if seenlastfrag (with_piece b R st d) && (fst (hd (0, 0) (got F (piece b :: R))) =? 0)
                                && no_holes (got F (piece b :: R)) then inr (0, with_piece b R st d) else inl (with_piece b R st d)).
Proof.
  intros Hb [G1 G2 G5 G3 G4] K HI. destruct F_contiguous as [C NF]. pose proof (fit b Hb) as T. pose proof (ft_in _ _ _ _ T K) as I.
  destruct (got_split F _ C (piece b) R I) as (A & B & E & E' & L & HB & HA & HD). rewrite decide_False in E by done. cbn [app] in E.
  destruct T as [_ T2 [T3 T3'] T4 _ T6 T7]. rewrite Forall_forall in HP. pose proof (pf_count _ _ _ (HP b Hb)) as Hc.
  assert (DL : Z.of_nat (length (take (Z.to_nat (frag_count b)) (drop 12 b))) = frag_count b) by (rewrite length_take, length_drop; lia).
  destruct (poke (frag_offset b) (take (Z.to_nat (frag_count b)) (drop 12 b)) (cdata st)) as [d|] eqn:P;
    [| rewrite poke_Some in P by lia; done].
  pose proof (poke_lookup _ _ _ _ 0 P) as [LD _]. exists d. split.
  - split.
    + unfold with_piece. destruct (negb _); done.
    + transitivity (bool_decide (top ∈ piece b :: R)); [| done]. unfold with_piece. fold top in T6.
      rewrite (has_sym CTL_MORE). fold (more b). destruct (more b) eqn:M; cbn [negb].
      * cbn. rewrite G2. apply bool_decide_ext. rewrite elem_of_cons. split; [now right | intros [E0 | ?]; [| done]].
        exfalso. fold F top in T6. unfold kept in K. rewrite M, andb_true_r in K. apply negb_true_iff, Z.eqb_neq in K.
        rewrite E0 in T6. specialize (T6 ltac:(lia)). cbn in T6. lia.
      * cbn. symmetry. apply bool_decide_eq_true. rewrite T6. now left.
    + unfold with_piece. rewrite (has_sym CTL_MORE). fold (more b). destruct (more b) eqn:M; cbn [negb]; [exact G5 |].
      intros _. cbn. now rewrite <- T7.
    + unfold with_piece. destruct (negb _); cbn; rewrite LD; exact G3.
    + assert (EF : frags (with_piece b R st d) = A ++ piece b :: B) by (unfold with_piece; destruct (negb _); exact E').
      assert (ED : cdata (with_piece b R st d) = d) by (unfold with_piece; destruct (negb _); reflexivity).
      rewrite EF, ED. intros y i Hy Hi. pose proof (poke_lookup _ _ _ _ i P) as [_ ->]. rewrite DL.
      destruct (Z.leb_spec (frag_offset b) (Z.of_nat i)) as [H1|H1], (Z.ltb_spec (Z.of_nat i) (frag_offset b + frag_count b)) as [H2|H2]; cbn [andb].
      1: { fold (frag_data b). rewrite T4 by lia. f_equal. lia. }
      all: apply (G4 y); [| done]; rewrite G1, E; apply elem_of_app; apply elem_of_app in Hy as [Hy | Hy]; [now left |].
      all: apply elem_of_cons in Hy as [-> | Hy]; [cbn in Hi; unfold frag_end in Hi; cbn in Hi; lia | now right].
  - unfold record_frag. cbv zeta. fold (frag_offset b) (frag_count b). rewrite G1.
    rewrite (proj2 (Z.ltb_ge _ _)) by (pose proof (got_missing R _ I HI); lia).
    change (fst (piece b)) with (frag_offset b) in *. rewrite L, E, take_app_length, drop_app_length.
    assert (O1 : match B with x :: _ => (frag_offset b =? fst x) || (fst x <? frag_offset b + frag_count b) | [] => false end = false).
    { destruct B as [|y B']; [done |]. destruct (HB y B' eq_refl) as [-> H2]. exact H2. }
    assert (O2 : match A with [] => false | _ :: _ => frag_offset b <? last_end A end = false) by (destruct A; [done | now apply HA]).
    rewrite O1, O2. cbn [orb]. change (frag_offset b, frag_count b) with (piece b). rewrite <- E'. unfold with_piece.
    destruct (negb (has CTL_MORE (byte_at b 1))); cbn [cdata setter eta_collect frags seenlastfrag rstatus]; cbn in P |- *; rewrite P; done.
Qed.

Lemma piece_of y : y ∈ F -> exists b, b ∈ pkts /\ kept b = true /\ y = piece b.
Proof. intros (b & -> & Hb)%list_elem_of_fmap. apply list_elem_of_filter in Hb as [K Hb]. now exists b. Qed.

(** Complete: the text is there. *)
Lemma gathered_text R st :
  gathered R st -> got F R = F -> last_end (frags st) = Z.of_nat (length data) /\ take (length data) (cdata st) = data.
Proof.
  intros [G1 _ _ G3 G4] A. destruct F_contiguous as [C NF]. rewrite G1, A in *. unfold last_end.
  destruct (contiguous_last _ _ _ C NF) as [-> _]. split; [done |]. apply list_eq. intros i.
  destruct (decide (i < length data)%nat) as [Hi|Hi].
  - rewrite lookup_take_lt by done. destruct (contiguous_cover _ _ _ (Z.of_nat i) C ltac:(lia)) as (y & Hy & Hr). now apply (G4 y).
  - rewrite (lookup_ge_None_2 data) by lia. apply lookup_ge_None_2. rewrite length_take. lia.
Qed.

(** The events are the packets of the response, in any order and number,
    among strays. *)
Definition delivered (evs : list recv_event) : Prop :=
  Forall (fun ev => match ev with Received b => b ∈ pkts \/ stray seqno b | _ => False end) evs.

Lemma completes R st b :
  gathered (piece b :: R) st -> frags st = got F (piece b :: R) ->
  seenlastfrag st && (fst (hd (0, 0) (got F (piece b :: R))) =? 0) && no_holes (got F (piece b :: R)) =
  bool_decide (got F (piece b :: R) = F).
Proof.
  intros G _. destruct F_contiguous as [C NF]. symmetry. case_bool_decide as A.
  - rewrite A, (ga_seen _ _ G), (no_holes_contiguous _ _ _ C). rewrite bool_decide_true by (apply got_all; [exact A | now apply last_in]).
    now rewrite (contiguous_hd _ _ _ C NF).
  - destruct (_ && _) eqn:E; [| done]. exfalso. apply A. apply andb_prop in E as [E E3]. apply andb_prop in E as [E1 E2].
    rewrite (ga_seen _ _ G) in E1. apply bool_decide_eq_true in E1. apply Z.eqb_eq in E2. exact (complete_all F 0 _ _ C NF E1 E2 E3).
Qed.

(** The client has the answer. *)
Definition answered (st : collect) : Prop :=
  last_end (frags st) = Z.of_nat (length data) /\ take (length data) (cdata st) = data /\
  rstatus st = be_val (take 2 (drop 4 (List.last pkts []))).
Definition awaited (R : list (Z * Z)) : Prop := exists y, y ∈ F /\ y ∉ R.

(** One packet: the collection goes on, or it is complete. *)
Lemma gather_step R st b :
  gathered R st -> awaited R -> b ∈ pkts \/ stray seqno b ->
  let r := take_packet seqno opcode (take (Z.to_nat CTL_PKT_SIZE) b) st in
  (exists R' st', r = Some (inl st') /\ gathered R' st' /\ awaited R' /\ R ⊆ R' /\ (b ∈ pkts -> kept b = true -> piece b ∈ R')) \/
  (exists st', r = Some (inr (0, st')) /\ answered st').
Proof.
  intros G Op De r. subst r. destruct (decide (b ∈ pkts)) as [Hb | Hb].
  2: { left. exists R, st. destruct De as [? | S]; [done |]. rewrite (take_packet_stray _ _ _ _ S). done. }
  pose proof (fit b Hb) as T. pose proof (proj1 (Forall_forall _ _) HP b Hb) as P. destruct (ft_range _ _ _ _ T) as [T3 T3'].
  rewrite (take_packet_for seqno opcode 0 pkts data b st P T) by lia.
  destruct (kept b) eqn:K; cbn [negb orb]; [| left; now exists R, st].
  destruct (decide (piece b ∈ R)) as [I | I].
  { left. exists R, st. split; [| done]. destruct (_ && _); [done |]. now apply (record_again b R st). }
  assert (S0 : seenlastfrag st && negb (more b) = false).
  { destruct (more b) eqn:M; [apply andb_false_r |]. rewrite andb_true_r, (ga_seen _ _ G). apply bool_decide_eq_false. intros Ht. apply I.
    pose proof (ft_last _ _ _ _ T) as L. rewrite M in L. fold F top in L. now rewrite L. }
  rewrite S0. destruct (record_new b R st Hb G K I) as (d & G' & E). rewrite E, (completes _ _ _ G') by (apply G').
  case_bool_decide as A; [right | left].
  - destruct (gathered_text _ _ G' A) as [X1 X2]. eexists. split; [reflexivity |]. split; [exact X1 |]. split; [exact X2 |].
    apply (ga_status _ _ G'). rewrite (ga_seen _ _ G'). apply bool_decide_true. apply got_all; [exact A |]. apply last_in, F_contiguous.
  - exists (piece b :: R), (with_piece b R st d). split; [done |]. split; [exact G' |]. split; [| split; [set_solver | now left]].
    destruct (decide (Forall (fun y => y ∈ piece b :: R) F)) as [H|H].
    + exfalso. apply A, got_all. now apply Forall_forall.
    + apply not_Forall_Exists in H; [| intros y; apply _]. apply Exists_exists in H as (y & Hy & Ny). now exists y.
Qed.

(** Every fragment arrives. *)
Lemma gather_all evs : forall R st,
  gathered R st -> awaited R -> delivered evs ->
  (forall b, b ∈ pkts -> kept b = true -> piece b ∈ R \/ Received b ∈ evs) ->
  exists st' evs', get_packets seqno opcode evs st = Some (0, st', evs') /\ answered st'.
Proof.
  induction evs as [|ev evs IH]; intros R st G Op D Al.
  { destruct Op as (y & (b & Hb & K & ->)%piece_of & Ny). destruct (Al b Hb K) as [? | Hx]; [done | now apply elem_of_nil in Hx]. }
  apply Forall_cons in D as [De D]. destruct ev as [| | |b]; try done. cbn [get_packets].
  destruct (gather_step R st b G Op De) as [(R' & st' & E & G' & Op' & Sub & Hb) | (st' & E & A)]; rewrite E; cbn [mbind option_bind].
  - apply (IH R'); [done | done | done |]. intros x Hx Kx. destruct (Al x Hx Kx) as [? | Hin]; [left; now apply Sub |].
    apply elem_of_cons in Hin as [Ex | ?]; [injection Ex as ->; left; now apply Hb | now right].
  - now exists st', evs.
Qed.

(** Whatever arrives, success means the whole answer. *)
Definition network (evs : list recv_event) : Prop :=
  Forall (fun ev => match ev with Received b => b ∈ pkts \/ stray seqno b | _ => True end) evs.

Lemma gather_sound evs : forall R st st' evs',
  gathered R st -> awaited R -> network evs -> get_packets seqno opcode evs st = Some (0, st', evs') -> answered st'.
Proof.
  induction evs as [|ev evs IH]; intros R st st' evs' G Op D; [done |]. apply Forall_cons in D as [De D].
  destruct ev as [| | |b]; cbn [get_packets]; try done; [destruct (frags st); done |].
  destruct (gather_step R st b G Op De) as [(R1 & st1 & E & G1 & Op1 & _) | (st1 & E & A)]; rewrite E; cbn [mbind option_bind].
  - now apply (IH R1).
  - intros X. apply (inj Some), pair_eq in X as [X _]. apply pair_eq in X as [_ <-]. exact A.
Qed.

Lemma gathered_start buf : Z.of_nat (length buf) = DATASIZE -> gathered [] (mk_collect [] false 0 buf) /\ awaited [].
Proof.
  intros HD. split.
  - split; [symmetry; apply got_nil | symmetry; apply bool_decide_eq_false, not_elem_of_nil | done | exact HD |].
    intros y i Hy. now apply elem_of_nil in Hy.
  - destruct F_contiguous as [_ N]. exists top. split; [now apply last_in | apply not_elem_of_nil].
Qed.
End Gather.

(** The client puts a response together whatever the network does to the
    order and number of its datagrams: for any response of at most 32
    fragments and 15360 octets, and any sequence of receptions in which every
    fragment turns up at least once, among repetitions, short packets and
    answers to other requests, [getresponse] returns success with the status
    of the last fragment and the text that joining the fragments in order
    gives; and whatever else happens, time-outs and lost fragments included,
    it never returns success with another text. *)
Theorem getresponse_any_order (opcode : Z) (pkts : list (list Z)) (data : list Z) (evs : list recv_event) (q : client) :
  reassemble 0 pkts = Some data -> Forall (packet_for (sequence q) opcode) pkts ->
  Z.of_nat (length data) <= DATASIZE -> Z.of_nat (length pkts) <= MAXFRAGS -> Z.of_nat (length (pktdata q)) = DATASIZE ->
  let answer := mk_response 0 (be_val (take 2 (drop 4 (List.last pkts [])))) data in
  (delivered (sequence q) pkts evs -> (forall b, b ∈ pkts -> Received b ∈ evs) ->
   exists q' evs', getresponse opcode evs q = Some (answer, q', evs')) /\
  (network (sequence q) pkts evs -> forall r q' evs', getresponse opcode evs q = Some (r, q', evs') -> r_code r = 0 -> r = answer).
Proof.
  intros HR HP HS HN HD answer. destruct (gathered_start _ _ _ _ HR HP (pktdata q) HD) as [G Op]. unfold getresponse. split.
  - intros De Al. destruct (gather_all _ _ _ _ HR HP HS HN evs [] _ G Op De) as (st & evs' & E & L & T & S); [intros b Hb _; right; now apply Al |].
    rewrite E. cbn [mbind option_bind Z.eqb]. rewrite L, Nat2Z.id, T, S. eexists _, _. reflexivity.
  - intros De r q' evs'. destruct (get_packets _ _ _ _) as [[[code st] evs1]|] eqn:E; [| done]. cbn [mbind option_bind]. intros X C.
    apply (inj Some), pair_eq in X as [X _]. apply pair_eq in X as [<- _]. cbn [r_code] in C. subst code.
    destruct (gather_sound _ _ _ _ HR HP HS HN evs [] _ _ _ G Op De E) as (L & T & S). cbn [Z.eqb]. now rewrite L, Nat2Z.id, T, S.
Qed.
