(* ===== verification/QueryServer.v ===== *)
(** * A query from the client to the server and back

    The request that [sendrequest] forms is the one [process_control]
    dispatches, and what the server answers is what [getresponse] returns and
    [nextvar] takes apart. *)

From Stdlib Require Import Ascii String.
From S2P Require Import Prelude FixedPoint Calendar Double Lists NtpTypes Text AuthKeys AuthFacts Monitor Restrict RestrictFacts State ProtoBase Peer Refclock Filter RefclockPoll Sample Control ControlVars ControlOps ControlMain ControlSample ControlFacts Query QueryFacts TextFacts.
From stdpp Require Import base gmap list.
#[local] Open Scope Z_scope.

(** ** The first octet *)

Lemma li_vn_mode_fields l v m :
  0 <= v < 8 -> 0 <= m < 8 -> PKT_VERSION (PKT_LI_VN_MODE l v m) = v /\ PKT_MODE (PKT_LI_VN_MODE l v m) = m.
Proof.
  intros Hv Hm. unfold PKT_LI_VN_MODE. change 3 with (2 ^ 2 - 1). rewrite land_ones_mod by lia.
  pose proof (Z.mod_pos_bound l (2 ^ 2) ltac:(lia)) as Hk. generalize dependent (l mod 2 ^ 2). intros k Hk.
  assert (E : forallb (fun k => forallb (fun v => forallb (fun m =>
    (PKT_VERSION (Z.shiftl k 6 .| VN_MODE v m) =? v) && (PKT_MODE (Z.shiftl k 6 .| VN_MODE v m) =? m))
    (zrange 0 8)) (zrange 0 8)) (zrange 0 4) = true) by reflexivity.
  pose proof (forall_range _ _ _ E k ltac:(lia)) as E1. pose proof (forall_range _ _ _ E1 v ltac:(lia)) as E2.
  pose proof (forall_range _ _ _ E2 m ltac:(lia)) as E3. clear E E1 E2. rename E3 into E.
  apply andb_prop in E as [E1 E2]. split; now apply Z.eqb_eq.
Qed.

(** ** The request *)

(** The fields of a request. *)
Lemma request_fields seqno version opcode associd qdata :
  is_u16 seqno -> is_u16 associd -> 0 <= opcode < 32 -> Z.of_nat (length qdata) <= CTL_MAX_DATA_LEN ->
  let b := request_bytes seqno version opcode associd qdata in
  byte_at b 0 = PKT_LI_VN_MODE 0 version MODE_CONTROL /\ byte_at b 1 = opcode /\
  be_val (take 2 (drop 2 b)) = seqno /\ be_val (take 2 (drop 6 b)) = associd /\ be_val (take 2 (drop 8 b)) = 0 /\
  be_val (take 2 (drop 10 b)) = Z.of_nat (length qdata) /\ take (length qdata) (drop 12 b) = qdata /\
  Z.of_nat (length b) = 12 + Z.of_nat (length qdata) + (- Z.of_nat (length qdata)) mod 4.
Proof.
  intros Hs Ha Ho Hl b. unfold CTL_MAX_DATA_LEN in Hl.
  assert (E : b = ([PKT_LI_VN_MODE 0 version MODE_CONTROL; opcode .& CTL_OP_MASK] ++ be16 seqno ++ be16 0 ++ be16 (u16 associd)
    ++ be16 0 ++ be16 (u16 (Z.of_nat (length qdata)))) ++ qdata ++ padding (Z.of_nat (length qdata)) 4)
    by (unfold b, request_bytes; now rewrite <- !app_assoc).
  clearbody b. rewrite (u16_small associd), (u16_small (Z.of_nat (length qdata))) in E by (unfold_ranges; lia).
  assert (O : opcode .& CTL_OP_MASK = opcode) by (change CTL_OP_MASK with (2 ^ 5 - 1); rewrite land_ones_mod, Z.mod_small by lia; done).
  rewrite O in E. set (rest := qdata ++ padding _ 4) in E.
  pose proof (be_val_be16 seqno Hs) as B1. pose proof (be_val_be16 associd Ha) as B2.
  pose proof (be_val_be16 (Z.of_nat (length qdata)) ltac:(unfold_ranges; lia)) as B3.
  assert (D : drop 12 b = rest) by (rewrite E; reflexivity).
  split; [rewrite E; reflexivity |]. split; [rewrite E; reflexivity |]. split; [rewrite E; exact B1 |]. split; [rewrite E; exact B2 |].
  split; [rewrite E; reflexivity |]. split; [rewrite E; exact B3 |]. split; [rewrite D; unfold rest; apply take_app_length |].
  rewrite E. unfold rest, be16. rewrite !length_app, !length_be_bytes. cbn [length].
  pose proof (length_padding (Z.of_nat (length qdata)) 4 ltac:(lia)). lia.
Qed.

(** The server gets the request that the client meant: a request without
    authentication, of any opcode, association and text of up to 468 octets,
    reaches the dispatch of [process_control] with these very values, with a
    fresh response that carries the sequence number and version of the
    client, not authenticated, and nothing else of the daemon changed. *)
Theorem request_understood `{Env, CtlEnv, Prompt} (opcode associd : Z) (qdata : list Z) (q : client) (rb : recvbuf) (mask : Z) (c : ctl) :
  always_auth q = false -> is_u16 associd -> 0 <= opcode < 32 -> is_u16 (sequence q) ->
  NTP_OLDVERSION <= pktversion q <= NTP_VERSION -> Z.of_nat (length qdata) <= CTL_MAX_DATA_LEN ->
  Z.of_nat (length (rp_data (rp c))) = CTL_DATA_SIZE ->
  exists q' pkt, sendrequest opcode associd false qdata q = Some (0, q') /\ q_sent q' = q_sent q ++ [pkt] /\ sequence q' = sequence q /\
    (rb_bytes rb = pkt -> rb_length rb = Z.of_nat (length pkt) ->
     exists c1, process_control rb mask c = dispatch_request rb mask c1 /\
       res_opcode c1 = opcode /\ res_associd c1 = associd /\ req c1 = qdata /\ fresh_response c1 /\
       rp_sequence (rp c1) = sequence q /\ PKT_VERSION (rp_li_vn_mode (rp c1)) = pktversion q /\
       PKT_MODE (rp_li_vn_mode (rp c1)) = MODE_CONTROL /\ res_authokay c1 = false /\ rmt_addr c1 = rb_srcadr rb /\ eng c1 = eng c).
Proof.
  intros Hauth Ha Ho Hs Hv Hl Hd. unfold NTP_OLDVERSION, NTP_VERSION in Hv.
  destruct (request_fields (sequence q) (pktversion q) opcode associd qdata Hs Ha Ho Hl) as (F0 & F1 & F2 & F3 & F4 & F5 & F6 & F7).
  unfold sendrequest. rewrite Hauth, (proj2 (Z.ltb_ge _ _) Hl). cbn [negb andb]. eexists _, _. split; [reflexivity |].
  split; [reflexivity |]. split; [reflexivity |]. intros Eb El. set (b := request_bytes _ _ _ _ _) in *. rewrite <- Eb in *.
  set (n := Z.of_nat (length qdata)) in *. unfold CTL_MAX_DATA_LEN in Hl.
  pose proof (Z.mod_pos_bound (- n) 4 ltac:(lia)) as Hm. rewrite F7 in El.
  assert (N0 : 0 <= n) by (unfold n; lia).
  assert (M4 : Z.land (rb_length rb) 3 = 0) by (rewrite land3_mod, El; divlia).
  destruct (li_vn_mode_fields 0 (pktversion q) MODE_CONTROL) as [V1 V2]; [lia | unfold MODE_CONTROL; lia |].
  destruct (li_vn_mode_fields (sys_leap (sv (eng c))) (pktversion q) MODE_CONTROL) as [W1 W2]; [lia | unfold MODE_CONTROL; lia |].
  unfold process_control. unfold field16. rewrite F1, F4, F5, F0, V1, M4.
  rewrite (proj2 (Z.ltb_ge (rb_length rb) _)) by (unfold CTL_HEADER_LEN; lia). cbn [orb].
  assert (R : has (CTL_RESPONSE .| CTL_MORE .| CTL_ERROR) opcode = false).
  { refine (negb_true_iff _ _) || apply negb_true_iff. exact (forall_range (fun o => negb (has (CTL_RESPONSE .| CTL_MORE .| CTL_ERROR) o)) 0 32 eq_refl opcode ltac:(lia)). }
  rewrite R. change (nonzero 0) with false. cbn [orb]. unfold NTP_VERSION, NTP_OLDVERSION.
  rewrite (proj2 (Z.ltb_ge 4 _)), (proj2 (Z.ltb_ge _ 1)) by lia. cbn [orb].
  rewrite (proj2 (Z.ltb_ge (rb_length rb - _) _)) by (unfold CTL_HEADER_LEN; lia). cbn [orb].
  unfold check_mac. rewrite M4. change (0 =? 0) with true. cbn [andb].
  assert (P : (MIN_MAC_LEN <=? rb_length rb - Z.land (n + CTL_HEADER_LEN + 7) (Z.lnot 7)) = false).
  { apply Z.leb_gt. change 7 with (2 ^ 3 - 1) at 2. rewrite land_lnot_ones by lia. unfold CTL_HEADER_LEN, MIN_MAC_LEN. divlia. }
  rewrite P. cbn [andb mbind option_bind]. eexists. split; [reflexivity |]. unfold start_response, field16.
  rewrite F1, F2, F3. cbn -[PKT_LI_VN_MODE CTL_DATA_SIZE n]. unfold n. rewrite Nat2Z.id, F6, W1, W2.
  repeat (split; [done |]). done.
Qed.

(** ** The answer *)

(** The packets of a response are the ones the client asked for. *)
Lemma response_for c q opcode pkts :
  Forall (of_response c) pkts -> rp_sequence (rp c) = sequence q -> is_u16 (sequence q) ->
  NTP_OLDVERSION <= PKT_VERSION (rp_li_vn_mode (rp c)) <= NTP_VERSION -> PKT_MODE (rp_li_vn_mode (rp c)) = MODE_CONTROL ->
  res_opcode c = opcode -> 0 <= opcode < 32 -> Forall (packet_for (sequence q) opcode) pkts.
Proof.
  intros H S U V M O HO. eapply Forall_impl; [exact H |]. intros b (L & Hc & (B0 & B2 & B4) & Er & Op).
  split; try done.
  - unfold CTL_PKT_SIZE, CTL_DATA_SIZE, CTL_HEADER_LEN, MAX_MAC_LEN. split; [lia | done].
  - now rewrite B0.
  - now rewrite B0.
  - rewrite B2, S. now apply be_val_be16.
  - rewrite Op, O. change CTL_OP_MASK with (2 ^ 5 - 1). rewrite Z.land_comm, land_ones_mod, Z.mod_small by lia. done.
  - now rewrite has_sym.
Qed.

(** C5: the client reads what the server answers: for a request dispatched
    with a fresh response, whatever items the handler puts into it (none
    empty, none larger than a packet takes, at most 15357 octets in all), the
    server stays inside its packet buffer and sends datagrams of at most 483
    octets; and if they are at most 32 and the network delivers them in any
    order, any number of times and among strays, [getresponse] of the client
    that asked returns success with the items in order, separated by commas
    and line breaks. *)
Theorem answer_understood `{Env} (items : list (list Z)) (c : ctl) (q : client) (opcode : Z) :
  fresh_response c -> rp_sequence (rp c) = sequence q -> is_u16 (sequence q) ->
  NTP_OLDVERSION <= PKT_VERSION (rp_li_vn_mode (rp c)) <= NTP_VERSION -> PKT_MODE (rp_li_vn_mode (rp c)) = MODE_CONTROL ->
  res_opcode c = opcode -> 0 <= opcode < 32 -> Z.of_nat (length (pktdata q)) = DATASIZE ->
  items <> [] -> Forall item_ok items -> Z.of_nat (length (layout items)) + 2 <= DATASIZE ->
  exists c' pkts fin,
    (put_items items c ≫= ctl_flushpkt 0) = Some c' /\
    out (eng c') = out (eng c) ++ map (Sendpkt (rmt_addr c) (lcl_inter c) (-6)) pkts /\
    Forall (fun b => Z.of_nat (length b) <= 483) pkts /\ (fin = [13; 10] \/ fin = []) /\
    forall evs, Z.of_nat (length pkts) <= MAXFRAGS -> delivered (sequence q) pkts evs -> (forall b, b ∈ pkts -> Received b ∈ evs) ->
      exists status q' evs', getresponse opcode evs q = Some (mk_response 0 status (layout items ++ fin), q', evs').
Proof.
  intros Fr S U V M O HO D N I L. unfold DATASIZE, MAXFRAGS in *.
  destruct (response_packets items c Fr N I ltac:(lia)) as (c' & pkts & fin & E & Ou & Of & Re & Fi).
  exists c', pkts, fin. split; [exact E |]. split; [exact Ou |]. split; [eapply Forall_impl; [exact Of |]; now intros b [[_ ?] _] |].
  split; [exact Fi |]. intros evs HN De Al.
  assert (PF : Forall (packet_for (sequence q) opcode) pkts) by now apply (response_for c).
  assert (LD : Z.of_nat (length (layout items ++ fin)) <= DATASIZE) by (rewrite length_app; unfold DATASIZE, MAXFRAGS; destruct Fi as [-> | ->]; cbn; lia).
  destruct (gathered_start _ _ _ _ Re PF (pktdata q) D) as [G Op].
  destruct (gather_all _ _ _ _ Re PF LD HN evs [] _ G Op De) as (st & evs' & E1 & G1 & G2 & _); [intros b Hb _; right; now apply Al |].
  unfold getresponse. rewrite E1. cbn [mbind option_bind Z.eqb]. rewrite G1, Nat2Z.id, G2. eexists _, _, _. reflexivity.
Qed.

(** ** Taking an answer apart *)

(** A variable of an answer, as the server prints it and as the client reads
    it: without a value, with a plain one, or with a quoted text. *)
Inductive var_value := NoValue | Plain (v : list Z) | Quoted (v : list Z).
Definition var_text (x : list Z * var_value) : list Z :=
  match snd x with
  | NoValue => fst x
  | Plain v => fst x ++ 61 :: v
  | Quoted v => fst x ++ 61 :: 34 :: v ++ [34]
  end.
Definition var_read (x : list Z * var_value) : list Z * option (list Z) :=
  (fst x, match snd x with NoValue => None | Plain v => Some v | Quoted v => Some (34 :: v ++ [34]) end).

Definition no_space (ch : Z) : Prop := isspace ch = false.
Definition name_ok (n : list Z) : Prop :=
  n <> [] /\ Forall (fun ch => one_of [0; 44; 61; 13; 10] ch = false /\ no_space ch) n /\ Z.of_nat (length n) < MAXVARLEN.
Definition value_ok (v : var_value) : Prop :=
  match v with
  | NoValue => True
  | Plain v => Forall (fun ch => one_of [44; 13] ch = false) v /\ Z.of_nat (length v) < MAXVALLEN /\
               match v with [] => False | ch :: _ => no_space ch /\ ch <> 34 end /\ no_space (List.last v 0)
  | Quoted v => Forall (fun ch => ch <> 34) v /\ Z.of_nat (length v) + 2 < MAXVALLEN
  end.
Definition var_ok (x : list Z * var_value) : Prop := name_ok (fst x) /\ value_ok (snd x).

(** The loop of the client: [while (nextvar(...))]. *)
Fixpoint vars_of (fuel : nat) (data : list Z) (behind : Z) : option (list (list Z * option (list Z))) :=
  match fuel with
  | O => None
  | S fuel =>
      r ← nextvar data behind;
      match r with
      | NoVar => Some []
      | Var n v rest => l ← vars_of fuel rest behind; Some ((n, v) :: l)
      end
  end.

Lemma trim_end_id l d : l <> [] -> no_space (List.last l d) -> trim_end l = l.
Proof.
  intros (l' & x & ->)%exists_last H. rewrite last_last in H. unfold trim_end. rewrite rev_app_distr. cbn [rev app].
  cbn [skip]. rewrite H. cbn [rev]. now rewrite rev_involutive.
Qed.

(** What follows a variable in an answer. *)
Definition follows (suf : list Z) : Prop := suf = [] \/ exists r, suf = 44 :: r \/ suf = 13 :: r.
(** What is left of it. *)
Definition left_of (suf rest : list Z) : Prop := rest = suf \/ exists ch, suf = ch :: rest.

Definition separator (ch : Z) : bool := (ch =? 44) || isspace ch.

(** The name. *)
Lemma nextvar_name pre n tl behind :
  Forall (fun ch => separator ch = true) pre -> name_ok n -> stops (fun ch => negb (one_of [0; 44; 61; 13; 10] ch)) tl ->
  nextvar (pre ++ n ++ tl) behind =
  match tl with
  | [] => Some (Var n None [])
  | ch :: r => Some (if one_of [44; 13; 10] ch then Var n None r else take_value n r behind)
  end.
Proof.
  intros Hp (N1 & N2 & N3) ST. unfold nextvar.
  assert (SN : stops (fun ch => (ch =? 44) || isspace ch) (n ++ tl)).
  { destruct n as [|ch n]; [done |]. apply Forall_cons in N2 as [[N2 N2'] _]. cbn. rewrite N2'. cbn in N2.
    destruct (ch =? 44) eqn:Q; [| done]. rewrite !orb_false_iff in N2. tauto. }
  rewrite (skip_stop (fun ch => (ch =? 44) || isspace ch) pre (n ++ tl) Hp SN).
  rewrite (span_stop _ n tl); [| eapply Forall_impl; [exact N2 |]; intros ch [-> _]; done | exact ST].
  assert (TN : trim_end n = n).
  { apply (trim_end_id n 0 N1). rewrite Forall_forall in N2. apply N2. now apply last_in. }
  rewrite TN, (proj2 (Z.leb_gt _ _) N3), drop_app_length. destruct n; done.
Qed.

(** A value whose text is [v]. *)
Lemma take_value_text n v suf behind :
  value_text (v ++ suf) = v -> v <> [] -> match v with ch :: _ => no_space ch | [] => True end -> no_space (List.last v 0) ->
  Z.of_nat (length v) < MAXVALLEN -> follows suf ->
  exists rest, take_value n (v ++ suf) behind = Var n (Some v) rest /\ left_of suf rest.
Proof.
  intros VT VN V3 V4 V2 Hs. unfold take_value.
  assert (SK : skip (fun x => isspace x && negb (one_of [13; 10] x)) (v ++ suf) = v ++ suf).
  { apply (skip_stop _ []); [done |]. destruct v as [|ch v]; [done |]. cbn. now rewrite V3. }
  rewrite SK, VT, drop_app_length, (trim_end_id v 0 VN V4), (proj2 (Z.leb_gt _ _) V2).
  destruct (v ++ suf) as [|z zs] eqn:EV; [now destruct v |]. cbn [orb]. clear SK VT EV.
  destruct Hs as [-> | (r & [-> | ->])]; cbn.
  - exists []. split; [done | now left].
  - exists r. split; [done | right; now exists 44].
  - exists (13 :: r). split; [done | now left].
Qed.

Lemma nextvar_step pre x suf behind :
  Forall (fun ch => separator ch = true) pre -> var_ok x -> follows suf ->
  exists rest, nextvar (pre ++ var_text x ++ suf) behind = Some (Var (fst x) (snd (var_read x)) rest) /\ left_of suf rest.
Proof.
  intros Hp [HN V] Hs. destruct x as [n v]. cbn [fst snd] in *. unfold var_text, var_read. cbn [fst snd]. destruct v as [|v|v].
  - rewrite nextvar_name; [| done | done | destruct Hs as [-> | (r & [-> | ->])]; done].
    destruct Hs as [-> | (r & [-> | ->])]; cbn; eexists; (split; [done |]); [now left | right | right]; eexists; reflexivity.
  - destruct V as (V1 & V2 & V3 & V4). rewrite <- app_assoc. cbn [app]. rewrite nextvar_name by done.
    change (one_of [44; 13; 10] 61) with false. cbv iota.
    destruct (take_value_text n v suf behind) as (rest & -> & L); try done; [| now destruct v | destruct v; [done | apply V3] | now exists rest].
    unfold value_text. destruct v as [|ch v']; [done |]. cbn [app]. destruct V3 as [_ V3]. rewrite (proj2 (Z.eqb_neq _ _) V3).
    apply (span_stop _ (ch :: v') suf); [eapply Forall_impl; [exact V1 |]; now intros y -> |].
    destruct Hs as [-> | (r & [-> | ->])]; done.
  - destruct V as [V1 V2]. rewrite <- app_assoc. cbn [app]. rewrite nextvar_name by done.
    change (one_of [44; 13; 10] 61) with false. cbv iota. change (34 :: (v ++ [34]) ++ suf) with ((34 :: v ++ [34]) ++ suf).
    destruct (take_value_text n (34 :: v ++ [34]) suf behind) as (rest & -> & L); try done; [| | | now exists rest].
    + cbn [app]. unfold value_text. cbn [Z.eqb Pos.eqb]. rewrite <- app_assoc, (span_stop _ v ([34] ++ suf)); [now rewrite drop_app_length | | done].
      eapply Forall_impl; [exact V1 |]. intros y Hy. now rewrite (proj2 (Z.eqb_neq _ _) Hy).
    + change (34 :: v ++ [34]) with ((34 :: v) ++ [34]). now rewrite last_last.
    + cbn [length]. rewrite length_app. cbn. lia.
Qed.

Lemma rest_follows xs line fin : fin = [13; 10] \/ fin = [] -> follows (layout_rest line (map var_text xs) ++ fin).
Proof.
  intros Fi. destruct xs as [|z zs]; [cbn; destruct Fi as [-> | ->]; [right; now exists [10]; right | now left] |].
  right. cbn [map layout_rest]. destruct (MAXDATALINELEN <=? _); eexists; left; reflexivity.
Qed.

(** The rest of an answer. *)
Lemma vars_rest xs : forall line fin behind rest,
  Forall var_ok xs -> fin = [13; 10] \/ fin = [] -> left_of (layout_rest line (map var_text xs) ++ fin) rest ->
  vars_of (S (length xs)) rest behind = Some (map var_read xs).
Proof.
  induction xs as [|y xs IH]; intros line fin behind rest V Fi L.
  - cbn in L. destruct Fi as [-> | ->], L as [-> | (ch & E)]; try done; now injection E as _ <-.
  - apply Forall_cons in V as [Vy V].
    assert (G : exists pre line', Forall (fun ch => separator ch = true) pre /\
                rest = pre ++ var_text y ++ layout_rest line' (map var_text xs) ++ fin).
    { cbn [map layout_rest] in L. destruct (MAXDATALINELEN <=? _); rewrite <- !app_assoc in L; cbn [app] in L.
      - destruct L as [-> | (ch & E)]; [exists [44; 13; 10] | injection E as _ <-; exists [13; 10]]; eexists; (split; [repeat constructor | reflexivity]).
      - destruct L as [-> | (ch & E)]; [exists [44; 32] | injection E as _ <-; exists [32]]; eexists; (split; [repeat constructor | reflexivity]). }
    destruct G as (pre & line' & Hp & ->). cbn [length]. change (vars_of (S (S (length xs))) ?d behind) with
      (r ← nextvar d behind; match r with NoVar => Some [] | Var n v rest => l ← vars_of (S (length xs)) rest behind; Some ((n, v) :: l) end).
    destruct (nextvar_step pre y (layout_rest line' (map var_text xs) ++ fin) behind Hp Vy) as (rest & -> & L').
    { now apply rest_follows. }
    cbn [mbind option_bind]. rewrite (IH line' fin behind rest V Fi L'). cbn [mbind option_bind map]. unfold var_read. now destruct y.
Qed.

(** The client takes an answer apart into the variables it was made of:
    printed by the server as items with commas and line breaks, any list of
    variables without a value, with plain values or with quoted texts comes
    out of [nextvar] name by name and value by value, and nothing else. *)
Theorem variables_roundtrip (x : list Z * var_value) (xs : list (list Z * var_value)) (fin : list Z) (behind : Z) :
  Forall var_ok (x :: xs) -> fin = [13; 10] \/ fin = [] ->
  vars_of (S (S (length xs))) (layout (map var_text (x :: xs)) ++ fin) behind = Some (map var_read (x :: xs)).
Proof.
  intros V Fi. apply Forall_cons in V as [Vx V]. cbn [map layout]. set (line := Z.of_nat _).
  change (vars_of (S (S (length xs))) ?d behind) with
    (r ← nextvar d behind; match r with NoVar => Some [] | Var n v rest => l ← vars_of (S (length xs)) rest behind; Some ((n, v) :: l) end).
  rewrite <- app_assoc. destruct (nextvar_step [] x (layout_rest line (map var_text xs) ++ fin) behind) as (rest & E & L); [done | done | |].
  - apply (rest_follows xs line fin Fi).
  - cbn [app] in E. rewrite E. cbn [mbind option_bind]. rewrite (vars_rest xs line fin behind rest V Fi L). cbn [mbind option_bind]. now destruct x.
Qed.

(** ** A concrete query *)

Definition sample_client : client :=
  mk_client 1 4 false true (auth sample_state) 0 4 16 (replicate (Z.to_nat DATASIZE) 0) [].
Definition sample_items : list (list Z) := [replicate 200 65; replicate 200 66; replicate 200 67].
(** A dispatched request, and the packets of the answer. *)
Definition sample_asked : ctl :=
  start_response (request 2 0 []) 4 sample_ctl.
Definition sent_bytes (o : option ctl) : list (list Z) :=
  match o with Some c => map (fun x => match x with Sendpkt _ _ _ b => b | _ => [] end) (out (eng c)) | None => [] end.
Definition sample_frags : list (list Z) :=
  Eval vm_compute in sent_bytes (@put_items sample_env sample_items sample_asked ≫= @ctl_flushpkt sample_env 0).
(** The last fragment first, a stray, and one twice. *)
Definition sample_events : list recv_event :=
  map Received (reverse sample_frags ++ [[]] ++ sample_frags).

Lemma sample_delivered : delivered (sequence sample_client) sample_frags sample_events /\ forall b, b ∈ sample_frags -> Received b ∈ sample_events.
Proof.
  split.
  - apply Forall_forall. intros ev Hev. unfold sample_events in Hev. apply list_elem_of_fmap in Hev as (b & -> & Hb).
    apply elem_of_app in Hb as [Hb | Hb]; [left; now apply elem_of_reverse in Hb |]. apply elem_of_app in Hb as [Hb | Hb]; [| now left].
    apply list_elem_of_singleton in Hb as ->. right. left. reflexivity.
  - intros b Hb. unfold sample_events. apply list_elem_of_fmap. exists b. split; [done |]. rewrite !elem_of_app. now right; right.
Qed.

(** The facts about the concrete query that the theorems ask for. *)
Lemma sample_fresh : fresh_response sample_asked.
Proof. repeat split; try done; vm_compute; congruence. Qed.
Lemma sample_room : Z.of_nat (length (pktdata sample_client)) = DATASIZE.
Proof. cbn [sample_client pktdata]. rewrite length_replicate. now apply Z2Nat.id. Qed.

Ltac evaluated := vm_compute; repeat match goal with |- _ /\ _ => split end; first [reflexivity | discriminate].
Lemma sample_answers : Forall (packet_for (sequence sample_client) 2) sample_frags.
Proof. unfold sample_frags. apply Forall_cons. split; [split; evaluated |]. apply Forall_cons. split; [split; evaluated | constructor]. Qed.

Lemma getresponse_any_order_witness :
  (exists data, reassemble 0 sample_frags = Some data /\ Z.of_nat (length data) <= DATASIZE /\
   exists q' evs', getresponse 2 sample_events sample_client =
     Some (mk_response 0 (be_val (take 2 (drop 4 (List.last sample_frags [])))) data, q', evs')) /\
  Z.of_nat (length sample_frags) = 2.
Proof.
  split; [| reflexivity]. eexists.
  assert (E : reassemble 0 sample_frags = Some _) by (vm_compute; reflexivity). split; [exact E |].
  split; [vm_compute; congruence |].
  refine (proj1 (getresponse_any_order 2 sample_frags _ sample_events sample_client E sample_answers _ _ sample_room)
            (proj1 sample_delivered) (proj2 sample_delivered)); vm_compute; congruence.
Defined.

#[local] Instance sample_prompt : Prompt := {| getkeyid := 1; getpass_keytype := fun _ => [] |}.

Lemma answer_understood_witness :
  exists c' pkts fin, (@put_items sample_env sample_items sample_asked ≫= @ctl_flushpkt sample_env 0) = Some c' /\
    Z.of_nat (length pkts) <= MAXFRAGS /\
    exists status q' evs', getresponse 2 (map Received (reverse pkts)) sample_client =
      Some (mk_response 0 status (layout sample_items ++ fin), q', evs').
Proof.
  assert (I : Forall item_ok sample_items) by (repeat constructor; evaluated).
  assert (L0 : Z.of_nat (length (layout sample_items)) + 2 <= DATASIZE) by evaluated.
  assert (V : NTP_OLDVERSION <= PKT_VERSION (rp_li_vn_mode (rp sample_asked)) <= NTP_VERSION) by evaluated.
  destruct (@answer_understood sample_env sample_items sample_asked sample_client 2 sample_fresh eq_refl
    ltac:(split; reflexivity || discriminate) V eq_refl eq_refl ltac:(split; reflexivity || discriminate) sample_room ltac:(discriminate) I L0)
    as (c' & pkts & fin & E & Ou & _ & _ & G).
  assert (P : pkts = sample_frags).
  { assert (X : sent_bytes (@put_items sample_env sample_items sample_asked ≫= @ctl_flushpkt sample_env 0) = pkts).
    { rewrite E. unfold sent_bytes. rewrite Ou. change (out (eng sample_asked)) with (@nil output). cbn [app].
      rewrite map_map. apply map_id. }
    rewrite <- X. vm_compute. reflexivity. }
  exists c', pkts, fin. split; [exact E |]. assert (L : Z.of_nat (length pkts) <= MAXFRAGS) by (rewrite P; evaluated). split; [exact L |].
  apply (G _ L).
  - apply Forall_forall. intros ev (b & -> & Hb)%list_elem_of_fmap. left. now apply elem_of_reverse.
  - intros b Hb. apply list_elem_of_fmap. exists b. split; [done |]. now apply elem_of_reverse.
Defined.

Lemma request_understood_witness :
  let rb := request 2 0 (txt "leap,stratum") in
  exists q' c1, @sendrequest (@env_digest sample_env) sample_prompt 2 0 false (txt "leap,stratum") sample_client = Some (0, q') /\
    q_sent q' = [rb_bytes rb] /\
    @process_control sample_env sample_ctlenv rb 0 sample_ctl = @dispatch_request sample_env sample_ctlenv rb 0 c1 /\
    req c1 = txt "leap,stratum".
Proof.
  intros rb.
  assert (V : NTP_OLDVERSION <= pktversion sample_client <= NTP_VERSION) by (split; discriminate).
  destruct (@request_understood sample_env sample_ctlenv sample_prompt 2 0 (txt "leap,stratum") sample_client rb 0 sample_ctl eq_refl
    ltac:(split; reflexivity || discriminate) ltac:(split; reflexivity || discriminate) ltac:(split; reflexivity || discriminate) V
    ltac:(discriminate) ltac:(reflexivity)) as (q' & pkt & E & S & _ & R).
  assert (P : pkt = rb_bytes rb).
  { apply (inj Some), pair_eq in E as [_ <-]. cbn [q_sent setter] in S. apply app_inj_tail in S as [_ <-]. vm_compute. reflexivity. }
  subst pkt. destruct (R eq_refl) as (c1 & Ec & _ & _ & Hq & _); [vm_compute; reflexivity |].
  exists q', c1. split; [exact E |]. split; [exact S |]. split; [exact Ec | exact Hq].
Defined.

Lemma variables_roundtrip_witness :
  let x := (txt "version", Quoted (txt "ntpd 4.2.7, patched")) in
  let y := (txt "stratum", Plain (txt "16")) in
  Forall var_ok [x; y] /\
  vars_of 3 (layout (map var_text [x; y]) ++ [13; 10]) 0 = Some [(txt "version", Some (34 :: txt "ntpd 4.2.7, patched" ++ [34])); (txt "stratum", Some (txt "16"))].
Proof.
  intros x y. assert (V : Forall var_ok [x; y]) by (repeat constructor; evaluated).
  split; [exact V |]. exact (variables_roundtrip x [y] [13; 10] 0 V (or_introl eq_refl)).
Defined.
