(* ===== verification/Request.v ===== *)
(** * The mode 7 server (ntpd/ntp_request.c, include/ntp_request.h)

    [process_private] with its checks, the assembly of a response of equal
    items ([prepare_pkt], [more_pkt], [flush_pkt]) and the handlers that
    change the daemon or list its tables.  A request is the receive buffer;
    [None] is a failed assertion or an access outside a buffer.  Structures
    have the layout of a 64-bit little-endian machine, and fields that the
    code does not convert are read in that order. *)

From S2P Require Import Prelude FixedPoint Calendar Double Lists NtpTypes Text AuthKeys Monitor Restrict State ProtoBase Peer Refclock Filter RefclockPoll Transmit Timer Control ControlVars ControlOps.
From stdpp Require Import base gmap list.
#[local] Open Scope Z_scope.

Definition REQ_LEN_HDR : Z := 8.
Definition MODE7_PAYLOAD_LIM : Z := 176.
Definition REQ_LEN_NOMAC : Z := REQ_LEN_HDR + MODE7_PAYLOAD_LIM + 8.
Definition REQ_TAIL_MIN : Z := 8 + MAX_MAC_LEN - (MAX_MAC_LEN - 20).
Definition RESP_HEADER_SIZE : Z := 8.
Definition RESP_DATA_SIZE : Z := 500.
Definition MAXSEQ : Z := 127.
Definition INFO_OKAY : Z := 0.
Definition INFO_ERR_IMPL : Z := 1.
Definition INFO_ERR_REQ : Z := 2.
Definition INFO_ERR_FMT : Z := 3.
Definition INFO_ERR_NODATA : Z := 4.
Definition INFO_ERR_AUTH : Z := 7.
Definition RESP_BIT : Z := 0x80.
Definition MORE_BIT : Z := 0x40.
Definition IMPL_UNIV : Z := 0.
Definition IMPL_XNTPD_OLD : Z := 2.
Definition IMPL_XNTPD : Z := 3.
Definition INFO_TS_MAXSKEW : double := dofZ 10.
Definition REQ_CONFIG : Z := 10.

(** ** The fields of a message *)

Definition ISRESPONSE (m : Z) : bool := has m RESP_BIT.
Definition ISMORE (m : Z) : bool := has m MORE_BIT.
Definition INFO_VERSION (m : Z) : Z := Z.shiftr m 3 .& 0x7.
Definition INFO_MODE (m : Z) : Z := m .& 0x7.
Definition RM_VN_MODE (resp more : bool) (version : Z) : Z :=
  u8 ((if resp then RESP_BIT else 0) .| (if more then MORE_BIT else 0)
      .| Z.shiftl (if nonzero version then version else NTP_OLDVERSION + 1) 3 .| MODE_PRIVATE).
Definition INFO_IS_AUTH (a : Z) : bool := has a 0x80.
Definition INFO_SEQ (a : Z) : Z := a .& 0x7f.
Definition AUTH_SEQ (auth : bool) (seq : Z) : Z := u8 ((if auth then 0x80 else 0) .| (seq .& 0x7f)).
Definition INFO_ERR (x : Z) : Z := Z.shiftr x 12 .& 0xf.
Definition INFO_NITEMS (x : Z) : Z := x .& 0xfff.
Definition ERR_NITEMS (err nitems : Z) : Z := u16 ((Z.shiftl (u16 err) 12 .& 0xf000) .| (u16 nitems .& 0xfff)).
Definition INFO_MBZ (x : Z) : Z := Z.shiftr x 12 .& 0xf.
Definition INFO_ITEMSIZE (x : Z) : Z := x .& 0xfff.

(** The request, and [struct req_pkt]'s fields in it. *)
Definition short_at (bs : list Z) (off : nat) : Z := be_val (take 2 (drop off bs)).
Definition rq_rm_vn_mode (b : list Z) : Z := byte_at b 0.
Definition rq_auth_seq (b : list Z) : Z := byte_at b 1.
Definition rq_implementation (b : list Z) : Z := byte_at b 2.
Definition rq_request (b : list Z) : Z := byte_at b 3.
Definition rq_err_nitems (b : list Z) : Z := short_at b 4.
Definition rq_mbz_itemsize (b : list Z) : Z := short_at b 6.
Definition rq_nitems (b : list Z) : Z := INFO_NITEMS (rq_err_nitems b).
Definition rq_itemsize (b : list Z) : Z := INFO_ITEMSIZE (rq_mbz_itemsize b).

Definition le_val (bs : list Z) : Z := be_val (rev bs).
Definition in6_at (bs : list Z) (off : nat) : Z := be_val (take 16 (drop off bs)).

(** ** State *)

(** The counters of ntp_io.c that [io_clr_stats] resets. *)
Record io_counts := mk_counts {
  n_dropped : Z; n_ignored : Z; n_received : Z; n_sent : Z; n_notsent : Z; n_calls : Z; n_pkts : Z; io_reset : Z }.

(** The statics of ntp_request.c with the parts of the daemon the handlers
    reach.  [rdata] is [rpkt.u.data]. *)
Record priv := mk_priv {
  pc : ctl; p_timers : timers; p_io : io_counts; stattime : Z; auth_reset : Z;
  info_auth_keyid : Z; numresppkts : Z; errorcounter : gmap Z Z; client_v6_capable : bool;
  rq_rm : Z; rq_seq : Z; rq_impl : Z; rq_req : Z; rq_err : Z; rq_mbz : Z; rdata : list Z;
  reqver : Z; seqno : Z; nitems : Z; itemsize : Z; databytes : Z; exbuf : list Z; usingexbuf : bool;
  toaddr : sockaddr; frominter : option Z }.
#[export] Instance eta_priv : Eta priv := fun r =>
  mk_priv (pc r) (p_timers r) (p_io r) (stattime r) (auth_reset r) (info_auth_keyid r) (numresppkts r)
    (errorcounter r) (client_v6_capable r) (rq_rm r) (rq_seq r) (rq_impl r) (rq_req r) (rq_err r) (rq_mbz r)
    (rdata r) (reqver r) (seqno r) (nitems r) (itemsize r) (databytes r) (exbuf r) (usingexbuf r)
    (toaddr r) (frominter r).

Definition daemon (p : priv) : state := eng (pc p).
Definition set_daemon (s : state) (p : priv) : priv := p <| pc := (pc p) <| eng := s |> |>.

Definition resp_bytes (p : priv) : list Z :=
  [rq_rm p; rq_seq p; rq_impl p; rq_req p] ++ be16 (rq_err p) ++ be16 (rq_mbz p) ++ rdata p.
Definition resp_send (dest : sockaddr) (ep : option Z) (len : Z) (p : priv) : priv :=
  set_daemon (emit (Sendpkt dest ep (-1) (take (Z.to_nat len) (resp_bytes p))) (daemon p)) p.

(** ** Responses *)

Definition req_ack (srcadr : sockaddr) (inter : option Z) (impl priv_request errcode : Z) (p : priv) : priv :=
  let p := p <| rq_rm := RM_VN_MODE true false (reqver p) |> <| rq_seq := AUTH_SEQ false 0 |>
             <| rq_impl := impl |> <| rq_req := priv_request |> <| rq_err := ERR_NITEMS errcode 0 |> <| rq_mbz := 0 |> in
  let p := resp_send srcadr inter RESP_HEADER_SIZE p in
  p <| errorcounter := <[errcode := u64 (default 0 (errorcounter p !! errcode) + 1)]> (errorcounter p) |>.

(** Where the next item goes: an offset in the packet, or the extra buffer. *)
Inductive place := InPkt (off : Z) | InExbuf.
#[export] Instance place_eq_dec : EqDecision place.
Proof. solve_decision. Defined.

Definition prepare_pkt (srcadr : sockaddr) (inter : option Z) (impl priv_request structsize : Z) (p : priv) : place * priv :=
  (InPkt 0,
   p <| rq_impl := impl |> <| rq_req := priv_request |> <| rq_mbz := u16 structsize |>
     <| toaddr := srcadr |> <| frominter := inter |> <| seqno := 0 |> <| nitems := 0 |>
     <| itemsize := structsize |> <| databytes := 0 |> <| usingexbuf := false |>).

(** The packet under construction goes out. *)
Definition send_items (more : bool) (p : priv) : priv :=
  let p := p <| rq_rm := RM_VN_MODE true more (reqver p) |> <| rq_seq := AUTH_SEQ false (seqno p) |>
             <| rq_err := u16 (nitems p) |> in
  (resp_send (toaddr p) (frominter p) (RESP_HEADER_SIZE + databytes p) p) <| numresppkts := u64 (numresppkts p + 1) |>.

Definition more_pkt (p : priv) : option (option place * priv) :=
  p ← (if usingexbuf p then
         let p := send_items true p in
         d ← poke 0 (take (Z.to_nat (itemsize p)) (exbuf p)) (rdata p);
         Some (p <| rdata := d |> <| seqno := seqno p + 1 |> <| databytes := 0 |> <| nitems := 0 |> <| usingexbuf := false |>)
       else Some p);
  let p := p <| databytes := databytes p + itemsize p |> <| nitems := nitems p + 1 |> in
  if databytes p + itemsize p <=? RESP_DATA_SIZE then Some (Some (InPkt (databytes p)), p)
  else if seqno p =? MAXSEQ then Some (None, p)
  else Some (Some InExbuf, p <| usingexbuf := true |>).

Definition flush_pkt (p : priv) : priv :=
  if (seqno p =? 0) && (nitems p =? 0) then req_ack (toaddr p) (frominter p) (rq_impl p) (rq_req p) INFO_ERR_NODATA p
  else send_items false p.

(** A store to a field of the item at [pl]. *)
Definition put_field (pl : place) (p : priv) (f : Z * list Z) : option priv :=
  let '(off, bs) := f in
  match pl with
  | InPkt o => d ← poke (o + off) bs (rdata p); Some (p <| rdata := d |>)
  | InExbuf => d ← poke off bs (exbuf p); Some (p <| exbuf := d |>)
  end.
Fixpoint put_fields (pl : place) (fs : list (Z * list Z)) (p : priv) : option priv :=
  match fs with [] => Some p | f :: fs => p ← put_field pl p f; put_fields pl fs p end.

(** The loop of a listing: one item after the other while there is a place. *)
Fixpoint pack_items (pl : option place) (items : list (list (Z * list Z))) (p : priv) : option (option place * priv) :=
  match pl, items with
  | Some pl, fs :: items => p ← put_fields pl fs p; '(pl, p) ← more_pkt p; pack_items pl items p
  | _, _ => Some (pl, p)
  end.

(** ** Items of a request *)

(** The [n]-th item of a request, as [memcpy] reads it from [inpkt->u.data]
    into a cleared structure of [sz] octets. *)
Definition item_at (b : list Z) (n : Z) : option (list Z) := peek (REQ_LEN_HDR + n * rq_itemsize b) (rq_itemsize b) b.
Definition over (old new : list Z) : list Z := new ++ drop (length new) old.
Definition cleared (sz : Z) (item : list Z) : list Z := over (replicate (Z.to_nat sz) 0) item.

(** A peer's address in an item: [off4] and [off6] are where the addresses
    are, [off_flag] the [v6_flag]. *)
Definition item_addr (p : priv) (off4 off_flag off6 : nat) (x : list Z) (port : Z) : sockaddr :=
  if client_v6_capable p && nonzero (le_val (take 4 (drop off_flag x)))
  then mk_sockaddr AF_INET6 (in6_at x off6) 0 port
  else mk_sockaddr AF_INET (word_at x off4) 0 port.

Definition RES_ALLFLAGS : Z := 0x3fff.
Definition CONF_PEER_SIZE : Z := 168.
Definition CONF_UNPEER_SIZE : Z := 24.
Definition CONF_RESTRICT_SIZE : Z := 48.
Definition GONE : Z := 0x474f4e45.

(** [while (items-- > 0 && !stop)] for a [u_short]; the body gets the number
    of the turn.  The result has the value of [items] after the loop. *)
Fixpoint while_items {A} (fuel : nat) (stop : A -> bool) (body : Z -> A -> option A) (items n : Z) (a : A) : option (Z * A) :=
  let next := u16 (items - 1) in
  if (0 <? items) && negb (stop a)
  then match fuel with O => None | S fuel => a ← body n a; while_items fuel stop body next (n + 1) a end
  else Some (next, a).
(** Enough for any [u_short]. *)
Definition ITEMS_FUEL : nat := Z.to_nat 65536.

Section Handlers.
Context `{Env, CtlEnv}.

(** A request as a handler gets it. *)
Record priv_request := mk_request { rq_src : sockaddr; rq_inter : option Z; rq_bytes : list Z }.
Definition ack (r : priv_request) (errcode : Z) (p : priv) : priv :=
  req_ack (rq_src r) (rq_inter r) (rq_implementation (rq_bytes r)) (rq_request (rq_bytes r)) errcode p.

(** ** Lists *)

Definition v6sizeof (full v4 : Z) (p : priv) : Z := if client_v6_capable p then full else v4.

Definition INFO_FLAG_CONFIG : Z := 0x1.
Definition INFO_FLAG_SYSPEER : Z := 0x2.
Definition INFO_FLAG_SEL_CANDIDATE : Z := 0x40.
Definition INFO_FLAG_SHORTLIST : Z := 0x80.

(** The stores of [list_peers] for one peer; [None] ends the loop. *)
Definition peer_fields (p : priv) (pp : Z) : option (list (Z * list Z)) :=
  let s := daemon p in
  let r := peer_at s pp in
  let fl := (if has (p_flags r) FLAG_CONFIG then INFO_FLAG_CONFIG else 0)
            .| (if bool_decide (sys_peer (sv s) = Some pp) then INFO_FLAG_SYSPEER else 0)
            .| (if p_status (pv r) =? CTL_PST_SEL_SYNCCAND then INFO_FLAG_SEL_CANDIDATE else 0)
            .| (if CTL_PST_SEL_SYSPEER <=? p_status (pv r) then INFO_FLAG_SHORTLIST else 0) in
  let rest := [(4, be16 (sa_port (p_srcadr r))); (6, [u8 (p_hmode r)]); (7, [fl])] in
  if IS_IPV6 (p_srcadr r) then
    if client_v6_capable p then Some ((16, be_bytes 16 (sa_addr (p_srcadr r))) :: (8, [1; 0; 0; 0]) :: rest) else None
  else Some ((0, be32 (sa_addr (p_srcadr r))) :: (if client_v6_capable p then [(8, [0; 0; 0; 0])] else []) ++ rest).
Fixpoint listed (p : priv) (l : list Z) : list (list (Z * list Z)) :=
  match l with
  | [] => []
  | pp :: l => match peer_fields p pp with None => [] | Some fs => fs :: listed p l end
  end.

Definition list_peers (r : priv_request) (p : priv) : option priv :=
  let b := rq_bytes r in
  let '(pl, p) := prepare_pkt (rq_src r) (rq_inter r) (rq_implementation b) (rq_request b) (v6sizeof 32 8 p) p in
  '(_, p) ← pack_items (Some pl) (listed p (peer_list (daemon p))) p;
  Some (flush_pkt p).

(** [list_restrict4] and [list_restrict6] store through the pointer of the
    last [more_pkt] without a test. *)
Definition restrict_fields (v6 : bool) (p : priv) (res : Z) : list (Z * list Z) :=
  let x := res_at (restr (daemon p)) res in
  let rest := [(8, be32 (ru_count x)); (12, be16 (ru_flags x)); (14, be16 (ru_mflags x))] in
  if v6 then (24, be_bytes 16 (ru_addr x)) :: (40, be_bytes 16 (ru_mask x)) :: (16, [1; 0; 0; 0]) :: rest
  else (0, be32 (ru_addr x)) :: (if client_v6_capable p then [(16, [0; 0; 0; 0])] else []) ++ (4, be32 (ru_mask x)) :: rest.
Fixpoint put_restricts (v6 : bool) (l : list Z) (a : option place * priv) : option (option place * priv) :=
  match l with
  | [] => Some a
  | res :: l =>
      '(pl, p) ← put_restricts v6 l a;
      pl ← pl; p ← put_fields pl (restrict_fields v6 p res) p; more_pkt p
  end.
Definition dump_restricts (v6 : bool) (p : priv) (a : option place * priv) : option (option place * priv) :=
  match reslist v6 (restr (daemon p)) with [] => None | l => put_restricts v6 l a end.
Definition list_restrict (r : priv_request) (p : priv) : option priv :=
  let b := rq_bytes r in
  let '(pl, p) := prepare_pkt (rq_src r) (rq_inter r) (rq_implementation b) (rq_request b) (v6sizeof 56 16 p) p in
  a ← dump_restricts false p (Some pl, p);
  '(_, p) ← (if client_v6_capable p then dump_restricts true p a else Some a);
  Some (flush_pkt p).

(** The reports of one item. *)
Definition one_item (size : Z) (fs : list (Z * list Z)) (r : priv_request) (p : priv) : option priv :=
  let b := rq_bytes r in
  let '(pl, p) := prepare_pkt (rq_src r) (rq_inter r) (rq_implementation b) (rq_request b) size p in
  p ← put_fields pl fs p; '(_, p) ← more_pkt p; Some (flush_pkt p).
Definition words (l : list (Z * Z)) : list (Z * list Z) := map (fun x => (fst x, be32 (u32 (snd x)))) l.

Definition get_auth_info (r : priv_request) (p : priv) : option priv :=
  let a := auth (daemon p) in
  one_item 36 (words [(4, authnumkeys a); (8, authnumfreekeys a); (12, authkeylookups a); (16, authkeynotfound a);
                      (20, authencryptions a); (24, authdecryptions a); (32, authkeyuncached a); (28, authkeyexpired a);
                      (0, current_time (daemon p) - auth_reset p)]) r p.
Definition get_ctl_stats (r : priv_request) (p : priv) : option priv :=
  let c := cs (pc p) in
  one_item 60 (words [(0, current_time (daemon p) - ctltimereset c); (4, numctlreq c); (8, numctlbadpkts c); (12, numctlresponses c);
                      (16, numctlfrags c); (20, numctlerrors c); (24, numctltooshort c); (28, numctlinputresp c);
                      (32, numctlinputfrag c); (36, numctlinputerr c); (40, numctlbadoffset c); (44, numctlbadversion c);
                      (48, numctldatatooshort c); (52, numctlbadop c); (56, numasyncmsgs c)]) r p.
Definition mon_getlist (r : priv_request) (p : priv) : option priv := Some (ack r INFO_ERR_NODATA p).

(** ** Changes to the daemon *)

Definition CONF_FLAG_PREFER : Z := 0x02.
Definition CONF_FLAG_BURST : Z := 0x04.
Definition CONF_FLAG_IBURST : Z := 0x08.

(** One turn of [do_conf]: [inr] is the error it answers with. *)
Definition conf_item (b : list Z) (n : Z) (a : priv + Z * priv) : option (priv + Z * priv) :=
  match a with
  | inr _ => Some a
  | inl p =>
      x ← item_at b n;
      let x := cleared CONF_PEER_SIZE x in
      let flags := byte_at x 8 in
      let fl := (if has flags CONF_FLAG_PREFER then FLAG_PREFER else 0) .| (if has flags CONF_FLAG_BURST then FLAG_BURST else 0)
                .| (if has flags CONF_FLAG_IBURST then FLAG_IBURST else 0) in
      let addr := item_addr p 0 144 152 x NTP_PORT in
      if IS_IPV4 addr && negb (ISREFCLOCKADR addr) && ISBADADR addr then Some (inr (INFO_ERR_FMT, p))
      else
        '(q, s) ← peer_config addr None None (byte_at x 4) (byte_at x 5) (byte_at x 6) (byte_at x 7) fl (byte_at x 9)
                    (le_val (take 4 (drop 12 x))) (daemon p);
        let p := set_daemon s p in
        Some (match q with None => inr (INFO_ERR_NODATA, p) | Some _ => inl p end)
  end.
Definition do_conf (r : priv_request) (p : priv) : option priv :=
  let b := rq_bytes r in
  if CONF_PEER_SIZE <? rq_itemsize b then Some (ack r INFO_ERR_FMT p)
  else
    '(_, a) ← while_items ITEMS_FUEL (fun a => match a with inl _ => false | inr _ => true end) (conf_item b) (rq_nitems b) 0 (inl p);
    Some (match a with inl p => ack r INFO_OKAY p | inr (e, p) => ack r e p end).

(** The search for a configured association of an address. *)
Fixpoint find_configured (fuel : nat) (addr : sockaddr) (start : option Z) (s : state) : option (option Z) :=
  match findexistingpeer addr None start (-1) 0 s with
  | None => Some None
  | Some q => if has FLAG_CONFIG (p_flags (peer_at s q)) then Some (Some q)
              else match fuel with O => None | S fuel => find_configured fuel addr (Some q) s end
  end.
Definition configured_peer (p : priv) (x : list Z) : option (option Z) :=
  find_configured (length (peer_list (daemon p))) (item_addr p 0 4 8 (cleared CONF_UNPEER_SIZE x) NTP_PORT) None (daemon p).

Definition unconf_check (b : list Z) (p : priv) (n : Z) (bad : bool) : option bool :=
  x ← item_at b n; q ← configured_peer p x; Some (bool_decide (q = None)).
Definition unconf_item (b : list Z) (n : Z) (p : priv) : option priv :=
  x ← item_at b n; q ← configured_peer p x; q ← q;
  s ← unpeer q (peer_clear q GONE (daemon p));
  Some (set_daemon s p).
Definition do_unconf (r : priv_request) (p : priv) : option priv :=
  let b := rq_bytes r in
  if CONF_UNPEER_SIZE <? rq_itemsize b then Some (ack r INFO_ERR_FMT p)
  else
    '(items, bad) ← while_items ITEMS_FUEL id (unconf_check b p) (rq_nitems b) 0 false;
    if (bad : bool) then Some (ack r INFO_ERR_NODATA p)
    else
      '(_, p) ← while_items ITEMS_FUEL (fun _ => false) (unconf_item b) items 0 p;
      Some (ack r INFO_OKAY p).

(** [reset_peer]: the port is set in the second loop only. *)
Definition reset_check (b : list Z) (p : priv) (n : Z) (bad : bool) : option bool :=
  x ← item_at b n;
  Some (bool_decide (findexistingpeer (item_addr p 0 4 8 (cleared CONF_UNPEER_SIZE x) 0) None None (-1) 0 (daemon p) = None)).
Fixpoint reset_all (fuel : nat) (addr : sockaddr) (q : option Z) (s : state) : option state :=
  match q with
  | None => Some s
  | Some q =>
      let s := peer_reset (Some q) s in
      match fuel with O => None | S fuel => reset_all fuel addr (findexistingpeer addr None (Some q) (-1) 0 s) s end
  end.
Definition reset_item (b : list Z) (n : Z) (p : priv) : option priv :=
  x ← item_at b n;
  let addr := item_addr p 0 4 8 (cleared CONF_UNPEER_SIZE x) 123 in
  s ← reset_all (length (peer_list (daemon p))) addr (findexistingpeer addr None None (-1) 0 (daemon p)) (daemon p);
  Some (set_daemon s p).
Definition reset_peer (r : priv_request) (p : priv) : option priv :=
  let b := rq_bytes r in
  if CONF_UNPEER_SIZE <? rq_itemsize b then Some (ack r INFO_ERR_FMT p)
  else
    '(items, bad) ← while_items ITEMS_FUEL id (reset_check b p) (rq_nitems b) 0 false;
    if (bad : bool) then Some (ack r INFO_ERR_NODATA p)
    else
      '(_, p) ← while_items ITEMS_FUEL (fun _ => false) (reset_item b) items 0 p;
      Some (ack r INFO_OKAY p).

(** [do_restrict]; [junk] is what the stack holds of [cr] before the first
    item is copied over it. *)
Definition restrict_bad (p : priv) (cr : list Z) : bool :=
  let v6 := client_v6_capable p && nonzero (le_val (take 4 (drop 12 cr))) in
  has (short_at cr 10) (Z.lnot RESM_NTPONLY) || has (short_at cr 8) (Z.lnot RES_ALLFLAGS)
  || (nonzero (word_at cr 4) && (if v6 then in6_at cr 16 =? 0 else word_at cr 0 =? 0)).
Definition restrict_check (b : list Z) (p : priv) (n : Z) (a : bool * list Z) : option (bool * list Z) :=
  x ← item_at b n; let cr := over (snd a) x in Some (restrict_bad p cr, cr).
Definition restrict_item (b : list Z) (op : Z) (n : Z) (a : priv * list Z) : option (priv * list Z) :=
  let '(p, cr) := a in
  x ← item_at b n;
  let cr := over cr x in
  let v6 := client_v6_capable p && nonzero (le_val (take 4 (drop 12 cr))) in
  let addr := if v6 then mk_sockaddr AF_INET6 (in6_at cr 16) 0 0 else mk_sockaddr AF_INET (word_at cr 0) 0 0 in
  let mask := if v6 then mk_sockaddr AF_INET6 (in6_at cr 32) 0 0 else mk_sockaddr AF_INET (word_at cr 4) 0 0 in
  s ← lift_res (hack_restrict op (Some addr) (Some mask) (short_at cr 10) (short_at cr 8) 0) (daemon p);
  Some (set_daemon s p, cr).
Definition do_restrict (junk : list Z) (op : Z) (r : priv_request) (p : priv) : option priv :=
  let b := rq_bytes r in
  if CONF_RESTRICT_SIZE <? rq_itemsize b then Some (ack r INFO_ERR_FMT p)
  else
    '(items, (bad, cr)) ← while_items ITEMS_FUEL fst (restrict_check b p) (rq_nitems b) 0 (false, junk);
    if (bad : bool) then Some (ack r INFO_ERR_FMT p)
    else
      '(_, (p, _)) ← while_items ITEMS_FUEL (fun _ => false) (restrict_item b op) items 0 (p, cr);
      Some (ack r INFO_OKAY p).

(** Keys. *)
Fixpoint trust_keys (b : list Z) (trust : Z) (items : nat) (n : Z) (p : priv) : option priv :=
  match items with
  | O => Some p
  | S items =>
      x ← peek (REQ_LEN_HDR + 8 * n) 8 b;
      a ← authtrust (current_time (daemon p)) (u32 (le_val x)) trust (auth (daemon p));
      trust_keys b trust items (n + 1) (set_daemon ((daemon p) <| auth := a |>) p)
  end.
Definition do_trustkey (trust : Z) (r : priv_request) (p : priv) : option priv :=
  p ← trust_keys (rq_bytes r) trust (Z.to_nat (rq_nitems (rq_bytes r))) 0 p;
  Some (ack r INFO_OKAY p).
Definition trust_key : priv_request -> priv -> option priv := do_trustkey 1.
Definition untrust_key : priv_request -> priv -> option priv := do_trustkey 0.

Definition set_request_keyid (r : priv_request) (p : priv) : option priv :=
  if 1 <? rq_nitems (rq_bytes r) then Some (ack r INFO_ERR_FMT p)
  else Some (ack r INFO_OKAY (p <| info_auth_keyid := word_at (rq_bytes r) 8 |>)).
Definition set_control_keyid (r : priv_request) (p : priv) : option priv :=
  if 1 <? rq_nitems (rq_bytes r) then Some (ack r INFO_ERR_FMT p)
  else Some (ack r INFO_OKAY (p <| pc := (pc p) <| ctl_auth_keyid := word_at (rq_bytes r) 8 |> |>)).

(** Traps of the configuration. *)
Definition TRAPPORT : Z := 18447.
Definition do_setclr_trap (set : bool) (r : priv_request) (p : priv) : option priv :=
  let b := rq_bytes r in
  let ct := drop 8 b in
  let fam := sa_family (rq_src r) in
  let addr off4 off6 := if fam =? AF_INET then word_at ct off4 else in6_at ct off6 in
  if 1 <? rq_nitems b then Some (ack r INFO_ERR_FMT p)
  else
    match (if word_at ct 0 =? 0 then Some (any_interface AF_INET)
           else match findinterface (endpts (daemon p)) (mk_sockaddr fam (addr 0%nat 16%nat) 0 NTP_PORT) with
                | None => None
                | Some e => Some (Some e)
                end) with
    | None => Some (ack r INFO_ERR_NODATA p)
    | Some linter =>
        let laddr := mk_sockaddr fam (addr 4%nat 32%nat) 0 (if nonzero (short_at ct 8) then short_at ct 8 else TRAPPORT) in
        let '(res, c) := if set then ctlsettrap laddr linter 0 (INFO_VERSION (rq_rm_vn_mode b)) (pc p)
                         else ctlclrtrap laddr linter 0 (pc p) in
        let p := p <| pc := c |> in
        Some (if (res : bool) then ack r INFO_OKAY p else ack r INFO_ERR_NODATA p)
    end.
Definition req_set_trap : priv_request -> priv -> option priv := do_setclr_trap true.
Definition req_clr_trap : priv_request -> priv -> option priv := do_setclr_trap false.

(** Statistics. *)
Definition RESET_ALLFLAGS : Z := 0x7f.
Definition io_clr_stats (p : priv) : priv := p <| p_io := mk_counts 0 0 0 0 0 0 0 (current_time (daemon p)) |>.
Definition proto_clr_stats (p : priv) : priv :=
  let s := daemon p in
  (set_daemon (s <|ct sys_received := 0 |> <|ct sys_processed := 0 |> <|ct sys_newversion := 0 |> <|ct sys_oldversion := 0 |>
                 <|ct sys_declined := 0 |> <|ct sys_restricted := 0 |> <|ct sys_badlength := 0 |> <|ct sys_badauth := 0 |>
                 <|ct sys_limitrejected := 0 |> <|ct sys_kodsent := 0 |>) p) <| stattime := current_time s |>.
Definition reset_auth_stats (p : priv) : priv :=
  let s := daemon p in
  (set_daemon (s <| auth := (auth s) <| authkeylookups := 0 |> <| authkeynotfound := 0 |> <| authencryptions := 0 |>
                              <| authdecryptions := 0 |> <| authkeyuncached := 0 |> |>) p) <| auth_reset := current_time s |>.
Definition reset_entries : list (Z * (priv -> priv)) :=
  [(0x01, fun p => set_daemon (peer_all_reset (daemon p)) p); (0x02, io_clr_stats); (0x04, proto_clr_stats);
   (0x08, fun p => set_daemon (peer_clr_stats (daemon p)) p);
   (0x10, fun p => p <| p_timers := timer_clr_stats (current_time (daemon p)) (p_timers p) |>);
   (0x20, reset_auth_stats); (0x40, fun p => p <| pc := ctl_clr_stats (pc p) |>)].
Definition reset_stats (r : priv_request) (p : priv) : option priv :=
  let b := rq_bytes r in
  let flags := word_at b 8 in
  if 1 <? rq_nitems b then Some (ack r INFO_ERR_FMT p)
  else if nonzero (clr flags RESET_ALLFLAGS) then Some (ack r INFO_ERR_FMT p)
  else Some (ack r INFO_OKAY (fold_left (fun p e => if has flags (fst e) then (snd e) p else p) reset_entries p)).

(** Fudge factors: every turn reads the first item. *)
Definition zero_stat : refclockstat := mk_stat 0 0 [] 0 0 0 0 0 dzero dzero 0 0 0 0 0.
Definition fudge_stat (cf : list Z) (st : refclockstat) : option refclockstat :=
  let t := LFPTOD (lfp_at cf 8) in
  let v := word_at cf 16 in
  let '(mk_stat fl _ lc po nr bf bd tr t1 t2 v1 v2 cs le ty) := st in
  match word_at cf 4 with
  | 1 => Some (mk_stat fl CLK_HAVETIME1 lc po nr bf bd tr t t2 v1 v2 cs le ty)
  | 2 => Some (mk_stat fl CLK_HAVETIME2 lc po nr bf bd tr t1 t v1 v2 cs le ty)
  | 3 => Some (mk_stat fl CLK_HAVEVAL1 lc po nr bf bd tr t1 t2 (s32 v) v2 cs le ty)
  | 4 => Some (mk_stat fl CLK_HAVEVAL2 lc po nr bf bd tr t1 t2 v1 v cs le ty)
  | 5 => Some (mk_stat (u8 (v .& 0xf)) (fold_left (fun a f => a .| Z.shiftl f 4) CLK_FLAGS 0) lc po nr bf bd tr t1 t2 v1 v2 cs le ty)
  | _ => None
  end.
Fixpoint fudge_items (items : nat) (r : priv_request) (st : refclockstat) (p : priv) : option priv :=
  match items with
  | O => Some (ack r INFO_OKAY p)
  | S items =>
      let cf := drop 8 (rq_bytes r) in
      let addr := mk_sockaddr AF_INET (word_at cf 0) 0 NTP_PORT in
      if negb (ISREFCLOCKADR addr) || bool_decide (findexistingpeer addr None None (-1) 0 (daemon p) = None)
      then Some (ack r INFO_ERR_NODATA p)
      else match fudge_stat cf st with
           | None => Some (ack r INFO_ERR_FMT p)
           | Some st => '(_, s) ← refclock_control addr (Some st) false (daemon p); fudge_items items r st (set_daemon s p)
           end
  end.
Definition set_clock_fudge (r : priv_request) (p : priv) : option priv :=
  fudge_items (Z.to_nat (rq_nitems (rq_bytes r))) r zero_stat p.

(** ** [process_private] *)

Record req_proc := mk_proc {
  request_code : Z; needs_auth : bool; sizeofitem : Z; v6_sizeofitem : Z; proc_handler : priv_request -> priv -> option priv }.

(** The entries of [ntp_codes] whose handlers are modelled. *)
Definition ntp_codes (junk : list Z) : list req_proc :=
  [mk_proc 0 false 0 0 list_peers;
   mk_proc REQ_CONFIG true 144 CONF_PEER_SIZE do_conf; mk_proc 11 true 4 CONF_UNPEER_SIZE do_unconf;
   mk_proc 16 false 0 0 list_restrict;
   mk_proc 17 true 12 CONF_RESTRICT_SIZE (do_restrict junk RESTRICT_FLAGS);
   mk_proc 18 true 12 CONF_RESTRICT_SIZE (do_restrict junk RESTRICT_UNFLAG);
   mk_proc 19 true 12 CONF_RESTRICT_SIZE (do_restrict junk RESTRICT_REMOVE);
   mk_proc 20 false 0 0 mon_getlist; mk_proc 42 false 0 0 mon_getlist;
   mk_proc 21 true 4 0 reset_stats; mk_proc 22 true 4 CONF_UNPEER_SIZE reset_peer;
   mk_proc 26 true 8 8 trust_key; mk_proc 27 true 8 8 untrust_key;
   mk_proc 28 false 0 0 get_auth_info;
   mk_proc 30 true 12 48 req_set_trap; mk_proc 31 true 12 48 req_clr_trap;
   mk_proc 32 true 8 8 set_request_keyid; mk_proc 33 true 8 8 set_control_keyid;
   mk_proc 34 false 0 0 get_ctl_stats; mk_proc 37 true 20 20 set_clock_fudge].

(** The tests on the header that end in silence. *)
Definition header_bad (len : Z) (b : list Z) : bool :=
  ISRESPONSE (rq_rm_vn_mode b) || ISMORE (rq_rm_vn_mode b) || (NTP_VERSION <? INFO_VERSION (rq_rm_vn_mode b))
  || (INFO_VERSION (rq_rm_vn_mode b) <? NTP_OLDVERSION) || nonzero (INFO_SEQ (rq_auth_seq b))
  || nonzero (INFO_ERR (rq_err_nitems b)) || nonzero (INFO_MBZ (rq_mbz_itemsize b)) || (len <? REQ_LEN_HDR).

Definition size_bad (proc : req_proc) (len : Z) (b : list Z) : bool :=
  let temp := rq_itemsize b in
  (negb (temp =? sizeofitem proc) && negb (temp =? v6_sizeofitem proc)
   && negb ((rq_implementation b =? IMPL_XNTPD) && (rq_request b =? REQ_CONFIG) && (temp =? 16)))
  || (nonzero (sizeofitem proc) && (len - REQ_LEN_HDR <? temp * rq_nitems b)).

(** The length of the MAC, from the size of the packet. *)
Definition tail_mac_len (len : Z) (b : list Z) : Z :=
  let noslop := clr (REQ_LEN_HDR + rq_itemsize b * rq_nitems b + 8 + 3) 3 in
  if noslop + MAX_MAC_LEN <? len then 20 else len - noslop.

(** The authentication: [None] lets the request pass, [Some e] is the answer. *)
Definition check_request (rb : recvbuf) (mod_okay : bool) (p : priv) : option (option Z * priv) :=
  let b := rb_bytes rb in
  let len := rb_length rb in
  if len <? REQ_LEN_HDR + rq_itemsize b * rq_nitems b + REQ_TAIL_MIN then Some (Some INFO_ERR_FMT, p)
  else
    let mac_len := tail_mac_len len b in
    let tail := drop (Z.to_nat (len - (mac_len + 8))) b in
    if negb (INFO_IS_AUTH (rq_auth_seq b)) || (info_auth_keyid p =? 0) || negb (word_at tail 8 =? info_auth_keyid p)
    then Some (Some INFO_ERR_AUTH, p)
    else if REQ_LEN_NOMAC + MAX_MAC_LEN <? len then Some (Some INFO_ERR_FMT, p)
    else
      let '(have, a) := if mod_okay then authhavekey (info_auth_keyid p) (auth (daemon p)) else (false, auth (daemon p)) in
      let p := set_daemon ((daemon p) <| auth := a |>) p in
      if negb have then Some (Some INFO_ERR_AUTH, if mod_okay then p else set_daemon ((daemon p) .++ sys_restricted) p)
      else if INFO_TS_MAXSKEW <d dabs (LFPTOD (L_SUB (lfp_at tail 0) (rb_time rb))) then Some (Some INFO_ERR_AUTH, p)
      else
        '(ok, a) ← authdecrypt (info_auth_keyid p) b (len - mac_len) mac_len (auth (daemon p));
        Some (if (ok : bool) then None else Some INFO_ERR_AUTH, set_daemon ((daemon p) <| auth := a |>) p).

Definition process_private (codes : list req_proc) (rb : recvbuf) (mod_okay : bool) (p : priv) : option priv :=
  let b := rb_bytes rb in
  let r := mk_request (rb_srcadr rb) (ptr (rb_dstadr rb)) b in
  if header_bad (rb_length rb) b then Some p
  else
    let p := p <| reqver := INFO_VERSION (rq_rm_vn_mode b) |> in
    let impl := rq_implementation b in
    if negb ((impl =? IMPL_UNIV) || (impl =? IMPL_XNTPD) || (impl =? IMPL_XNTPD_OLD)) then Some (ack r INFO_ERR_IMPL p)
    else
      match list_find (fun c => request_code c = rq_request b) (if impl =? IMPL_UNIV then [] else codes) with
      | None => Some (ack r INFO_ERR_REQ p)
      | Some (_, proc) =>
          if size_bad proc (rb_length rb) b then Some (ack r INFO_ERR_FMT p)
          else
            let p := p <| client_v6_capable := impl =? IMPL_XNTPD |> in
            '(e, p) ← (if needs_auth proc && nonzero (sys_authenticate (cf (daemon p))) then check_request rb mod_okay p
                       else Some (None, p));
            match e with
            | Some e => Some (ack r e p)
            | None => proc_handler proc r p
            end
      end.
End Handlers.
