(* ===== verification/RequestFacts.v ===== *)
(** * The mode 7 server: facts about Request.v

    The items of a listing fill the packets of the response in order; a
    request that changes the daemon needs the request key; and the requests
    that check their items before they use them fail on every request that
    passes the check. *)

From S2P Require Import Prelude FixedPoint Calendar Double Lists NtpTypes Text AuthKeys AuthFacts Monitor Restrict RestrictFacts State ProtoBase Peer PeerFacts Refclock Filter RefclockPoll Transmit Timer Sample ReceiveFacts Control ControlVars ControlOps ControlMain ControlSample Request.
From stdpp Require Import base gmap list.
#[local] Open Scope Z_scope.

(** ** Loops over the items of a request *)

Section Loops.
Context {A : Type} (stop : A -> bool) (body : Z -> A -> option A).

(** A loop that is not stopped leaves the counter at the end of its range. *)
Lemma while_items_end fuel : forall items n a i a',
  0 <= items < 65536 -> while_items fuel stop body items n a = Some (i, a') -> stop a' = false -> i = 65535.
Proof.
  induction fuel as [|fuel IH]; intros items n a i a' Hi; cbn [while_items];
    destruct (Z.ltb_spec 0 items) as [H | H]; destruct (stop a) eqn:St; cbn [andb negb]; try done;
    try (intros [= <- <-]; try congruence; intros _; replace items with 0 by lia; reflexivity).
  destruct (body n a) as [a1|]; [| done]. cbn [mbind option_bind]. apply IH. unfold u16, wrap. rewrite Z.mod_small; lia.
Qed.

(** A loop over more items than there are fails. *)
Lemma while_items_fail (lim : Z) fuel : forall items n a,
  (forall a, stop a = false) -> (forall m a, lim <= m -> body m a = None) ->
  0 <= items < 65536 -> lim < n + items -> while_items fuel stop body items n a = None \/ items = 0.
Proof.
  induction fuel as [|fuel IH]; intros items n a Hs Hb Hi Hl; cbn [while_items];
    destruct (Z.ltb_spec 0 items) as [H | H]; rewrite Hs; cbn [andb negb]; try (right; lia); [now left |].
  destruct (Z.le_gt_cases lim n) as [Hn | Hn]; [rewrite (Hb n a Hn); now left |].
  destruct (body n a) as [a1|]; [| now left]. cbn [mbind option_bind].
  assert (E : u16 (items - 1) = items - 1) by (unfold u16, wrap; rewrite Z.mod_small; lia). rewrite E.
  destruct (IH (items - 1) (n + 1) a1 Hs Hb) as [K | K]; [lia | lia | now left |]. lia.
Qed.
End Loops.

Lemma item_at_out b n : 0 < rq_itemsize b -> Z.of_nat (length b) <= n -> item_at b n = None.
Proof.
  intros Hz Hn. unfold item_at, peek, REQ_LEN_HDR. rewrite andb_false_intro2; [done |]. apply Z.leb_gt. nia.
Qed.

Lemma rq_nitems_range b : 0 <= rq_nitems b < 65536.
Proof. unfold rq_nitems, INFO_NITEMS. change 0xfff with (2 ^ 12 - 1). rewrite land_ones_mod by lia. pose proof (Z.mod_pos_bound (rq_err_nitems b) (2 ^ 12)). lia. Qed.

(** The second pass over the items, with the counter the first one leaves. *)
Lemma second_pass_fails {A} b (body : Z -> A -> option A) a :
  0 < rq_itemsize b -> Z.of_nat (length b) < 65535 -> (forall n a, item_at b n = None -> body n a = None) ->
  while_items ITEMS_FUEL (fun _ => false) body 65535 0 a = None.
Proof.
  intros Hz Hl Hb. destruct (while_items_fail (fun _ => false) body (Z.of_nat (length b)) ITEMS_FUEL 65535 0 a) as [K | K];
    [done | | lia | lia | exact K | discriminate]. intros m a0 Hm. now apply Hb, item_at_out.
Qed.

Section Findings7.
Context `{Env, CtlEnv}.

(** C11: [do_unconf], [do_restrict] and [reset_peer] check their items in a
    loop that leaves [items] at 65535 instead of zero, and use it as it is in
    the loop that does the work.  Whatever the daemon's state, no such request
    is ever answered with success: it is refused, or the second loop hits a
    failed assertion or reads past the receive buffer. *)
Theorem two_pass_requests_fail (r : priv_request) (junk : list Z) (op : Z) (p : priv) :
  0 < rq_itemsize (rq_bytes r) -> Z.of_nat (length (rq_bytes r)) = 1000 ->
  (do_unconf r p = None \/ do_unconf r p = Some (ack r INFO_ERR_FMT p) \/ do_unconf r p = Some (ack r INFO_ERR_NODATA p)) /\
  (do_restrict junk op r p = None \/ do_restrict junk op r p = Some (ack r INFO_ERR_FMT p)) /\
  (reset_peer r p = None \/ reset_peer r p = Some (ack r INFO_ERR_FMT p) \/ reset_peer r p = Some (ack r INFO_ERR_NODATA p)).
Proof.
  intros Hz Hl. set (b := rq_bytes r) in *.
  assert (P : forall A (body : Z -> A -> option A) a, (forall n a, item_at b n = None -> body n a = None) ->
              while_items ITEMS_FUEL (fun _ => false) body 65535 0 a = None) by (intros; apply (second_pass_fails b); auto; lia).
  pose proof (rq_nitems_range b) as Hn. split; [| split].
  - unfold do_unconf. fold b. case_match; [tauto |].
    destruct (while_items ITEMS_FUEL id _ _ _ _) as [[items bad]|] eqn:E; [| now left]. cbn [mbind option_bind].
    destruct bad; [tauto |]. apply while_items_end in E as ->; [| done | done].
    rewrite P; [now left |]. intros n a E. unfold unconf_item. now rewrite E.
  - unfold do_restrict. fold b. case_match; [tauto |].
    destruct (while_items ITEMS_FUEL fst _ _ _ _) as [[items [bad cr]]|] eqn:E; [| now left]. cbn [mbind option_bind].
    destruct bad; [tauto |]. apply while_items_end in E as ->; [| done | done].
    rewrite P; [now left |]. intros n [q c] E. unfold restrict_item. now rewrite E.
  - unfold reset_peer. fold b. case_match; [tauto |].
    destruct (while_items ITEMS_FUEL id _ _ _ _) as [[items bad]|] eqn:E; [| now left]. cbn [mbind option_bind].
    destruct bad; [tauto |]. apply while_items_end in E as ->; [| done | done].
    rewrite P; [now left |]. intros n a E. unfold reset_item. now rewrite E.
Qed.
End Findings7.

(** ** Authentication *)

Section Authentic.
Context `{Env, CtlEnv} `{!DigestLaws}.

Lemma havekey_keys id st :
  auth_fit st -> id <> 0 -> auth_fit (authhavekey id st).2 /\ forall i, abs_key (authhavekey id st).2 i = abs_key st i.
Proof.
  intros F Hid. split; [now apply havekey_fit |]. destruct F as [Hi _]. destruct (havekey_refines id st Hi) as (st' & E & _ & Ha).
  injection E as <-. exact Ha.
Qed.

(** A MAC that verifies is the digest of a usable key of the store. *)
Lemma authdecrypt_keys id pkt len size st ok st' :
  auth_fit st -> id <> 0 -> authdecrypt id pkt len size st = Some (ok, st') ->
  (forall i, abs_key st' i = abs_key st i) /\
  (ok = true -> exists k, abs_key st id = Some k /\ usable k = true /\
     peek (len + 4) 16 pkt = Some (md5 (ak_secret k ++ take (Z.to_nat len) pkt))).
Proof.
  intros F Hid. unfold authdecrypt. set (st0 := st <| authdecryptions := _ |>).
  destruct (auth_same st st0) as [Hi0 Ha0]; try done; [apply F |].
  assert (F0 : auth_fit st0) by (split; [done | apply F]). rewrite (proj2 (Z.eqb_neq 0 id)) by auto.
  destruct (havekey_keys id st0 F0 Hid) as [F1 A1].
  destruct (havekey_spec st0 id Hi0 (proj2 F0) Hid) as [Hk _].
  destruct (authhavekey id st0) as [have st1]. cbn [fst snd] in *. assert (A : forall i, abs_key st1 i = abs_key st i) by (intros; now rewrite A1, Ha0).
  destruct have; cbn [negb orb]; [| intros [= <- <-]; done]. destruct (size <? 4); [intros [= <- <-]; done |].
  rewrite Ha0 in Hk. destruct (abs_key st id) as [k|]; [| done]. destruct Hk as [Hu Hr]. symmetry in Hu. specialize (Hr Hu).
  unfold MD5authdecrypt. rewrite Hr. cbn [mbind option_bind]. destruct (peek 0 len pkt) as [body|] eqn:Eb; [| done].
  assert (body = take (Z.to_nat len) pkt) as -> by (unfold peek in Eb; rewrite drop_0 in Eb; destruct (_ && _); congruence).
  cbn [mbind option_bind]. rewrite md5_length. change (Z.of_nat 16) with 16. destruct (negb _); [intros [= <- <-]; done |].
  destruct (peek (len + 4) 16 pkt) as [mac|] eqn:Em; [| done]. cbn [mbind option_bind]. intros [= <- <-]. split; [done |].
  intros D. apply bool_decide_eq_true in D as <-. exists k. done.
Qed.

(** A request authenticated with the request key, sent within ten seconds. *)
Definition authentic (rb : recvbuf) (p : priv) : Prop :=
  let b := rb_bytes rb in
  let mac_len := tail_mac_len (rb_length rb) b in
  let tail := drop (Z.to_nat (rb_length rb - (mac_len + 8))) b in
  INFO_IS_AUTH (rq_auth_seq b) = true /\ info_auth_keyid p <> 0 /\ word_at tail 8 = info_auth_keyid p /\
  (INFO_TS_MAXSKEW <d dabs (LFPTOD (L_SUB (lfp_at tail 0) (rb_time rb)))) = false /\
  exists k, abs_key (auth (daemon p)) (info_auth_keyid p) = Some k /\ usable k = true /\
    peek (rb_length rb - mac_len + 4) 16 b = Some (md5 (ak_secret k ++ take (Z.to_nat (rb_length rb - mac_len)) b)).

(** The daemon is as before, but for the counters and the key cache. *)
Definition left_alone (p p' : priv) : Prop :=
  (exists a c, daemon p' = (daemon p) <| auth := a |> <| ct := c |> /\ forall i, abs_key a i = abs_key (auth (daemon p)) i) /\
  pc p' = (pc p) <| eng := daemon p' |> /\ info_auth_keyid p' = info_auth_keyid p /\ p_timers p' = p_timers p /\ p_io p' = p_io p.
(** One packet without data has been sent. *)
Definition refused (p p' : priv) : Prop :=
  exists q x, left_alone p q /\ daemon p' = emit x (daemon q) /\ pc p' = (pc q) <| eng := daemon p' |> /\
    info_auth_keyid p' = info_auth_keyid q /\ p_timers p' = p_timers q /\ p_io p' = p_io q.

Lemma kept_same p p' :
  pc p' = pc p -> info_auth_keyid p' = info_auth_keyid p -> p_timers p' = p_timers p -> p_io p' = p_io p -> left_alone p p'.
Proof.
  intros E1 E2 E3 E4. unfold left_alone, daemon. rewrite E1. split.
  - exists (auth (eng (pc p))), (ct (eng (pc p))). split; [now destruct (eng (pc p)) | done].
  - split; [now destruct (pc p) | done].
Qed.
Lemma ack_refused p q r e : left_alone p q -> refused p (ack r e q).
Proof.
  intros K. exists q. eexists. split; [exact K |]. unfold ack, req_ack, resp_send, set_daemon, daemon.
  cbn [pc eng setter info_auth_keyid p_timers p_io]. split; [reflexivity |]. split; [reflexivity |]. split; [reflexivity |].
  split; reflexivity.
Qed.

Lemma kept_store p q a c :
  left_alone p q -> (forall i, abs_key a i = abs_key (auth (daemon q)) i) -> left_alone p (set_daemon ((daemon q) <| auth := a |> <| ct := c |>) q).
Proof.
  intros ((a0 & c0 & E0 & A0) & E1 & E2 & E3 & E4) Ha. split.
  - exists a, c. unfold set_daemon, daemon. cbn [pc eng setter]. fold (daemon q). rewrite E0. split; [done |].
    intros i. rewrite Ha, E0. apply A0.
  - split; [| done]. unfold set_daemon, daemon. cbn. rewrite E1. done.
Qed.

Lemma kept_count p q c : left_alone p q -> left_alone p (set_daemon ((daemon q) <| ct := c |>) q).
Proof.
  intros ((a0 & c0 & E0 & A0) & E1 & E2 & E3 & E4). split.
  - exists a0, c. unfold set_daemon, daemon. cbn [pc eng setter]. fold (daemon q). rewrite E0. done.
  - split; [| done]. unfold set_daemon, daemon. cbn. rewrite E1. done.
Qed.

Lemma check_request_spec rb mod_okay p q e p' :
  left_alone p q -> auth_fit (auth (daemon q)) -> check_request rb mod_okay q = Some (e, p') ->
  left_alone p p' /\ (e = None -> mod_okay = true /\ authentic rb q).
Proof.
  intros K F. unfold check_request. set (b := rb_bytes rb). set (ml := tail_mac_len (rb_length rb) b). cbv zeta.
  set (tl := drop _ b). case_match; [intros [= <- <-]; done |].
  destruct (negb (INFO_IS_AUTH (rq_auth_seq b)) || _ || _) eqn:B; [intros [= <- <-]; done |].
  apply orb_false_iff in B as [B B3]. apply orb_false_iff in B as [B1 B2].
  apply negb_false_iff in B1, B3. apply Z.eqb_neq in B2. apply Z.eqb_eq in B3.
  case_match; [intros [= <- <-]; done |].
  set (h := if mod_okay then authhavekey _ _ else (false, _)).
  assert (Hh : auth_fit h.2 /\ forall i, abs_key h.2 i = abs_key (auth (daemon q)) i).
  { unfold h. destruct mod_okay; [now apply havekey_keys | done]. }
  assert (Hm : h.1 = true -> mod_okay = true) by (unfold h; now destruct mod_okay).
  destruct h as [have a]. cbn [fst snd] in Hh, Hm. destruct Hh as [F1 A1].
  assert (K1 : left_alone p (set_daemon ((daemon q) <| auth := a |>) q)) by exact (kept_store p q a (ct (daemon q)) K A1).
  set (q1 := set_daemon _ q) in *. assert (D1 : auth (daemon q1) = a) by done. assert (I1 : info_auth_keyid q1 = info_auth_keyid q) by done.
  destruct have; cbn [negb]; [specialize (Hm eq_refl) as -> |].
  2: { intros [= <- <-]. split; [| done]. destruct mod_okay; [done |].
       exact (kept_count p q1 _ K1). }
  clearbody q1. case_match eqn:T; [intros [= <- <-]; done |]. rewrite D1, I1.
  destruct (authdecrypt _ b _ ml a) as [[ok a2]|] eqn:Ed; [| done]. cbn [mbind option_bind]. intros E.
  apply (inj Some) in E. injection E as <- <-. destruct (authdecrypt_keys _ _ _ _ _ _ _ F1 B2 Ed) as [A2 S2].
  split; [apply (kept_store p q1 a2 (ct (daemon q1)) K1); now rewrite D1 |]. destruct ok; [| done]. intros _. split; [done |].
  destruct (S2 eq_refl) as (k & K1' & K2 & K3). rewrite A1 in K1'. repeat (split; [done |]). exists k. done.
Qed.

(** C15: with authentication in force, a request for an operation that needs it
    changes nothing but counters, unless its sender may modify the daemon and
    it carries, with a fresh time stamp, the MAC of the request key: it is
    dropped, or answered by one packet without data.  While no request key is
    set there is no such request. *)
Theorem private_needs_key codes rb mod_okay p p' :
  auth_fit (auth (daemon p)) -> nonzero (sys_authenticate (cf (daemon p))) = true ->
  Forall (fun c => request_code c = rq_request (rb_bytes rb) -> needs_auth c = true) codes ->
  process_private codes rb mod_okay p = Some p' ->
  info_auth_keyid p = 0 \/ mod_okay = false \/ ~ authentic rb p -> p' = p \/ refused p p'.
Proof.
  intros F Hs Hc E N. revert E. unfold process_private. set (b := rb_bytes rb). set (r := mk_request _ _ b). cbv zeta.
  destruct (header_bad _ b); [intros [= <-]; now left |]. set (p1 := p <| reqver := _ |>).
  assert (K1 : left_alone p p1) by now apply kept_same. destruct (negb _); [intros [= <-]; right; now apply ack_refused |].
  destruct (list_find _ _) as [[i proc]|] eqn:L; [| intros [= <-]; right; now apply ack_refused].
  apply list_find_Some in L as (L & Er & _). destruct (size_bad _ _ _); [intros [= <-]; right; now apply ack_refused |].
  assert (Na : needs_auth proc = true).
  { destruct (_ =? IMPL_UNIV); [done |]. rewrite Forall_forall in Hc. apply (Hc proc); [now apply list_elem_of_lookup_2 in L | done]. }
  set (p2 := p1 <| client_v6_capable := _ |>). assert (K2 : left_alone p p2) by now apply kept_same.
  rewrite Na. change (cf (daemon p2)) with (cf (daemon p)). rewrite Hs. cbn [andb].
  destruct (check_request rb mod_okay p2) as [[e p3]|] eqn:Ea; [| done]. cbn [mbind option_bind].
  destruct (check_request_spec rb mod_okay p p2 e p3 K2 F Ea) as [K3 S3].
  destruct e as [e|]; [intros [= <-]; right; now apply ack_refused |]. exfalso. destruct (S3 eq_refl) as [M A].
  change (authentic rb p) in A. destruct N as [N | [N | N]]; [now apply A | congruence | done].
Qed.

(** Without authentication the right to modify is not looked at. *)
Lemma nomodify_needs_auth codes rb p :
  nonzero (sys_authenticate (cf (daemon p))) = false -> process_private codes rb false p = process_private codes rb true p.
Proof.
  intros Hs. unfold process_private. cbv zeta. destruct (header_bad _ _); [done |]. destruct (negb _); [done |].
  destruct (list_find _ _) as [[i proc]|]; [| done]. destruct (size_bad _ _ _); [done |].
  match goal with |- context [cf (daemon ?q)] => change (cf (daemon q)) with (cf (daemon p)) end. rewrite Hs. now rewrite andb_false_r.
Qed.
End Authentic.

(** ** Responses of equal items *)

(** The fields of an item in the order of their places, without gaps. *)
Fixpoint consecutive (o : Z) (fs : list (Z * list Z)) : Prop :=
  match fs with [] => True | (off, bs) :: fs => off = o /\ consecutive (o + Z.of_nat (length bs)) fs end.
Definition item_bytes (fs : list (Z * list Z)) : list Z := concat (map snd fs).

Fixpoint pokes (base : Z) (fs : list (Z * list Z)) (buf : list Z) : option (list Z) :=
  match fs with [] => Some buf | (off, bs) :: fs => buf ← poke (base + off) bs buf; pokes base fs buf end.

Lemma put_fields_pkt o fs : forall p, put_fields (InPkt o) fs p = (d ← pokes o fs (rdata p); Some (p <| rdata := d |>)).
Proof.
  induction fs as [|[off bs] fs IH]; intros p; cbn [put_fields pokes]; [now destruct p |]. cbn [put_field].
  destruct (poke (o + off) bs (rdata p)); [| done]. cbn [mbind option_bind]. now rewrite IH.
Qed.
Lemma put_fields_exbuf fs : forall p, put_fields InExbuf fs p = (d ← pokes 0 fs (exbuf p); Some (p <| exbuf := d |>)).
Proof.
  induction fs as [|[off bs] fs IH]; intros p; cbn [put_fields pokes]; [now destruct p |]. cbn [put_field].
  rewrite Z.add_0_l. destruct (poke off bs (exbuf p)); [| done]. cbn [mbind option_bind]. now rewrite IH.
Qed.

Lemma poke_inside off bs buf : 0 <= off -> off + Z.of_nat (length bs) <= Z.of_nat (length buf) ->
  poke off bs buf = Some (take (Z.to_nat off) buf ++ bs ++ drop (Z.to_nat off + length bs) buf).
Proof. intros H1 H2. unfold poke. now rewrite (proj2 (Z.leb_le _ _) H1), (proj2 (Z.leb_le _ _) H2). Qed.

Lemma poke_front bs buf : (length bs <= length buf)%nat -> poke 0 bs buf = Some (bs ++ drop (length bs) buf).
Proof. intros Hl. now rewrite poke_inside by lia. Qed.

(** Storing the fields stores the item. *)
Lemma pokes_item base fs : forall o buf,
  consecutive o fs -> 0 <= base + o -> base + o + Z.of_nat (length (item_bytes fs)) <= Z.of_nat (length buf) ->
  pokes base fs buf = poke (base + o) (item_bytes fs) buf.
Proof.
  induction fs as [|[off bs] fs IH]; intros o buf C Ho Hl; cbn [consecutive pokes] in *.
  - unfold item_bytes in *. cbn in *. rewrite poke_inside by (cbn; lia). cbn. rewrite Nat.add_0_r, take_drop. done.
  - destruct C as [-> C]. change (item_bytes ((o, bs) :: fs)) with (bs ++ item_bytes fs) in *. rewrite length_app in Hl.
    rewrite poke_inside by lia. cbn [mbind option_bind]. set (n := Z.to_nat (base + o)).
    assert (Ln : length (take n buf) = n) by (rewrite length_take; lia).
    set (b1 := take n buf ++ bs ++ drop (n + length bs) buf).
    assert (T : take (n + length bs) b1 = take n buf ++ bs).
    { unfold b1. rewrite app_assoc. apply take_app_length'. rewrite length_app. lia. }
    assert (D : forall m, drop (n + length bs + m) b1 = drop (n + length bs + m) buf).
    { intros m. unfold b1. rewrite app_assoc, drop_app_ge by (rewrite length_app; lia).
      rewrite length_app, Ln, drop_drop. f_equal. lia. }
    assert (L1 : length b1 = length buf) by (unfold b1; rewrite !length_app, length_drop, Ln; lia).
    clearbody b1. rewrite (IH (o + Z.of_nat (length bs))); [| done | lia | rewrite L1; lia].
    rewrite !poke_inside; rewrite ?length_app, ?L1; try lia. fold n. f_equal.
    replace (Z.to_nat (base + (o + Z.of_nat (length bs)))) with (n + length bs)%nat by lia.
    rewrite T, D, <- !app_assoc. do 4 f_equal. lia.
Qed.

Section Packing.
Context (k : Z) (Hk : 0 < k <= RESP_DATA_SIZE).
Definition per : nat := Z.to_nat (RESP_DATA_SIZE / k).

Lemma per_pos : (0 < per)%nat.
Proof. unfold per. pose proof (Z.div_le_lower_bound RESP_DATA_SIZE k 1). lia. Qed.
(** There is room for another item exactly while fewer than [per] are in. *)
Lemma room n : (k * Z.of_nat n + k <=? RESP_DATA_SIZE) = (n <? per)%nat.
Proof.
  assert (E : (n < per)%nat <-> k * Z.of_nat n + k <= RESP_DATA_SIZE).
  { unfold per. pose proof (Z.div_pos RESP_DATA_SIZE k). pose proof (Z.mul_div_le RESP_DATA_SIZE k).
    pose proof (Z.mod_pos_bound RESP_DATA_SIZE k). pose proof (Z.div_mod RESP_DATA_SIZE k). split; intros; [nia |].
    assert (Z.of_nat n + 1 <= RESP_DATA_SIZE / k) by (apply Z.div_le_lower_bound; nia). lia. }
  destruct (Z.leb_spec (k * Z.of_nat n + k) RESP_DATA_SIZE), (Nat.ltb_spec n per); lia.
Qed.

(** The packet with the items [l]. *)
Definition item_packet (ver impl req : Z) (seq : Z) (more : bool) (l : list (list Z)) : list Z :=
  [RM_VN_MODE true more ver; AUTH_SEQ false seq; impl; req] ++ be16 (u16 (Z.of_nat (length l))) ++ be16 (u16 k) ++ concat l.

Context (dest : sockaddr) (ep : option Z) (impl req : Z) (p0 : priv).
Definition sent_packet (more : bool) (i : nat) (l : list (list Z)) : output :=
  Sendpkt dest ep (-1) (item_packet (reqver p0) impl req (Z.of_nat i) more l).

(** What stays the same from item to item. *)
Definition frame (p : priv) := (itemsize p, toaddr p, frominter p, rq_impl p, rq_req p, rq_mbz p, reqver p).

(** What is in the packets sent, and in the one under construction. *)
Record loaded (p : priv) (sent : list (list (list Z))) (cur : list (list Z)) : Prop := {
  ld_full : Forall (fun c => length c = per) sent;
  ld_cur : (length cur <= per)%nat;
  ld_seq : seqno p = Z.of_nat (length sent);
  ld_max : Z.of_nat (length sent) <= MAXSEQ;
  ld_nitems : nitems p = Z.of_nat (length cur);
  ld_bytes : databytes p = k * Z.of_nat (length cur);
  ld_data : take (Z.to_nat (k * Z.of_nat (length cur))) (rdata p) = concat cur;
  ld_rlen : Z.of_nat (length (rdata p)) = RESP_DATA_SIZE;
  ld_xlen : Z.of_nat (length (exbuf p)) = RESP_DATA_SIZE;
  ld_frame : frame p = (k, dest, ep, impl, req, u16 k, reqver p0);
  ld_daemon : daemon p = (daemon p0) <| out := out (daemon p0) ++ imap (sent_packet true) sent |> }.

(** ... and where the next item goes. *)
Definition next_place (p : priv) (cur : list (list Z)) : option place :=
  if (length cur <? per)%nat then Some (InPkt (k * Z.of_nat (length cur))) else if seqno p =? MAXSEQ then None else Some InExbuf.
Definition packing (p : priv) (sent : list (list (list Z))) (cur : list (list Z)) (pl : option place) : Prop :=
  loaded p sent cur /\ pl = next_place p cur /\ usingexbuf p = bool_decide (pl = Some InExbuf).

(** The packet under construction is the one with the current items. *)
Lemma loaded_bytes p sent cur more :
  loaded p sent cur -> daemon (send_items more p) = emit (sent_packet more (length sent) cur) (daemon p).
Proof.
  intros P. pose proof (ld_frame _ _ _ P) as F. injection F as F1 F2 F3 F4 F5 F6 F7.
  unfold send_items, resp_send, set_daemon, daemon. cbn [pc eng setter]. f_equal.
  unfold sent_packet. cbn [toaddr frominter reqver seqno nitems databytes setter]. rewrite F2, F3. f_equal.
  unfold resp_bytes, item_packet. cbn [rq_rm rq_seq rq_impl rq_req rq_err rq_mbz rdata setter].
  rewrite F4, F5, F6, F7, (ld_seq _ _ _ P), (ld_nitems _ _ _ P), (ld_bytes _ _ _ P), <- (ld_data _ _ _ P).
  replace (Z.to_nat (RESP_HEADER_SIZE + k * Z.of_nat (length cur))) with (8 + Z.to_nat (k * Z.of_nat (length cur)))%nat
    by (unfold RESP_HEADER_SIZE; lia).
  reflexivity.
Qed.

(** The end of [more_pkt]. *)
Lemma place_next p sent cur :
  loaded p sent cur -> usingexbuf p = false ->
  exists p' pl', (if databytes p + itemsize p <=? RESP_DATA_SIZE then Some (Some (InPkt (databytes p)), p)
                  else if seqno p =? MAXSEQ then Some (None, p) else Some (Some InExbuf, p <| usingexbuf := true |>)) = Some (pl', p') /\
    packing p' sent cur pl'.
Proof.
  intros P U. pose proof (ld_frame _ _ _ P) as F. injection F as F1 _. rewrite F1, (ld_bytes _ _ _ P), room.
  unfold packing, next_place. destruct (length cur <? per)%nat eqn:R; [| destruct (seqno p =? MAXSEQ) eqn:M].
  - exists p, (Some (InPkt (k * Z.of_nat (length cur)))). done.
  - exists p, None. rewrite M. done.
  - exists (p <| usingexbuf := true |>), (Some InExbuf). change (seqno (p <| usingexbuf := true |>)) with (seqno p). rewrite M.
    split; [done |]. split; [destruct P; now constructor | done].
Qed.

(** An item in the packet. *)
Lemma step_in_packet p sent cur fs :
  loaded p sent cur -> usingexbuf p = false -> (length cur < per)%nat -> consecutive 0 fs -> Z.of_nat (length (item_bytes fs)) = k ->
  exists p' pl', (p ← put_fields (InPkt (k * Z.of_nat (length cur))) fs p; more_pkt p) = Some (pl', p') /\
    packing p' sent (cur ++ [item_bytes fs]) pl'.
Proof.
  intros P U Hc C L. set (x := item_bytes fs) in *. set (n := Z.to_nat (k * Z.of_nat (length cur))).
  pose proof (room (length cur)) as Rm. rewrite (proj2 (Nat.ltb_lt _ _) Hc) in Rm. apply Z.leb_le in Rm.
  pose proof (ld_rlen _ _ _ P) as Lr. rewrite put_fields_pkt, (pokes_item _ fs 0), Z.add_0_r by (fold x; try done; lia). fold x.
  rewrite poke_inside by lia. fold n. cbn [mbind option_bind]. set (d := take n _ ++ _).
  assert (Ln : length (take n (rdata p)) = n) by (rewrite length_take; lia).
  assert (Td : take (n + length x) d = concat cur ++ x).
  { unfold d. rewrite app_assoc, take_app_length' by (rewrite length_app; lia). f_equal. apply (ld_data _ _ _ P). }
  assert (Ld : length d = length (rdata p)) by (unfold d; rewrite !length_app, length_drop, Ln; lia). clearbody d.
  unfold more_pkt. change (usingexbuf (p <| rdata := d |>)) with (usingexbuf p). rewrite U. cbn [mbind option_bind].
  apply place_next; [| exact U]. pose proof (ld_frame _ _ _ P) as F. injection F as F1 _.
  destruct P as [P1 P2 P3 P4 P5 P6 P7 P8 P9 P10 P11]. constructor; try done; rewrite ?length_app; cbn [length].
  - lia.
  - cbn [nitems setter]. lia.
  - cbn [databytes itemsize setter]. lia.
  - change (rdata _) with d. replace (Z.to_nat (k * Z.of_nat (length cur + 1))) with (n + length x)%nat by lia.
    rewrite Td, concat_app. cbn. now rewrite app_nil_r.
  - change (rdata _) with d. lia.
Qed.

(** An item that starts the next packet. *)
Lemma step_in_exbuf p sent cur fs :
  loaded p sent cur -> usingexbuf p = true -> length cur = per -> seqno p <> MAXSEQ -> consecutive 0 fs ->
  Z.of_nat (length (item_bytes fs)) = k ->
  exists p' pl', (p ← put_fields InExbuf fs p; more_pkt p) = Some (pl', p') /\ packing p' (sent ++ [cur]) [item_bytes fs] pl'.
Proof.
  intros P U Hc Hm C L. set (x := item_bytes fs) in *. pose proof (ld_xlen _ _ _ P) as Lx. pose proof (ld_rlen _ _ _ P) as Lr.
  rewrite put_fields_exbuf, (pokes_item _ fs 0), Z.add_0_r by (fold x; try done; lia). fold x.
  rewrite poke_front by lia. cbn [mbind option_bind]. set (e := x ++ _).
  assert (Te : take (Z.to_nat k) e = x) by (apply take_app_length'; lia).
  assert (Le : length e = length (exbuf p)) by (unfold e; rewrite length_app, length_drop; lia). clearbody e.
  set (p1 := p <| exbuf := e |>). assert (P1 : loaded p1 sent cur) by (destruct P; constructor; try done; change (exbuf p1) with e; lia).
  assert (U1 : usingexbuf p1 = true) by exact U. pose proof (loaded_bytes p1 sent cur true P1) as D1.
  unfold more_pkt. rewrite U1. set (p2 := send_items true p1) in *.
  assert (R2 : rdata p2 = rdata p) by done. assert (X2 : exbuf p2 = e) by done. assert (S2 : seqno p2 = seqno p) by done.
  assert (F2 : frame p2 = (k, dest, ep, impl, req, u16 k, reqver p0)) by exact (ld_frame _ _ _ P).
  clearbody p2. pose proof F2 as F. injection F as F1 _. rewrite F1, X2, Te, R2.
  rewrite poke_front by lia. cbn [mbind option_bind]. set (d := x ++ _).
  assert (Td : take (Z.to_nat k) d = x) by (apply take_app_length'; lia).
  assert (Ld : length d = length (rdata p)) by (unfold d; rewrite length_app, length_drop; lia). clearbody d.
  apply place_next; [| reflexivity]. pose proof (ld_seq _ _ _ P) as Sq. pose proof per_pos. pose proof (ld_max _ _ _ P).
  constructor; rewrite ?length_app; cbn [length]; try done.
  - apply Forall_app_2; [apply (ld_full _ _ _ P) |]. now repeat constructor.
  - cbn [seqno setter]. lia.
  - lia.
  - cbn [databytes itemsize setter]. lia.
  - change (rdata _) with d. replace (Z.to_nat (k * Z.of_nat 1)) with (Z.to_nat k) by lia. rewrite Td. cbn. now rewrite app_nil_r.
  - change (rdata _) with d. lia.
  - change (exbuf _) with (exbuf p2). rewrite X2. lia.
  - transitivity (daemon p2); [reflexivity |]. rewrite D1. unfold emit. change (daemon p1) with (daemon p). rewrite (ld_daemon _ _ _ P).
    cbn [out setter]. rewrite imap_app. cbn [imap]. rewrite Nat.add_0_r, app_assoc. reflexivity.
Qed.

(** A listing: the items go to the packets in order until the packets run out. *)
Lemma pack_items_spec items : forall p sent cur pl,
  packing p sent cur pl -> Forall (fun fs => consecutive 0 fs /\ Z.of_nat (length (item_bytes fs)) = k) items ->
  exists p' pl' sent' cur' rest, pack_items pl items p = Some (pl', p') /\ packing p' sent' cur' pl' /\
    concat sent ++ cur ++ map item_bytes items = concat sent' ++ cur' ++ rest /\
    (rest = [] \/ Z.of_nat (length sent') = MAXSEQ /\ length cur' = per) /\ (cur <> [] \/ items <> [] -> cur' <> []).
Proof.
  induction items as [|fs items IH]; intros p sent cur pl P F.
  { exists p, pl, sent, cur, []. split; [now destruct pl |]. split; [done |]. split; [done |]. split; [now left | tauto]. }
  apply Forall_cons in F as [[C L] F]. destruct P as (P & Ep & Eu). unfold next_place in Ep.
  destruct (length cur <? per)%nat eqn:R; [| destruct (seqno p =? MAXSEQ) eqn:M].
  - apply Nat.ltb_lt in R. rewrite Ep in Eu. cbn [pack_items]. subst pl.
    destruct (step_in_packet p sent cur fs P Eu R C L) as (p1 & pl1 & E & P1).
    destruct (put_fields _ fs p) as [p'|]; [| done]. cbn [mbind option_bind] in E |- *. rewrite E. cbn [mbind option_bind].
    destruct (IH p1 sent (cur ++ [item_bytes fs]) pl1 P1 F) as (p2 & pl2 & s2 & c2 & rest & -> & P2 & Ec & Er & Ne).
    exists p2, pl2, s2, c2, rest. split; [done |]. split; [done |]. rewrite <- app_assoc in Ec. split; [exact Ec |]. split; [done |].
    intros _. apply Ne. left. now destruct cur.
  - subst pl. exists p, None, sent, cur, (map item_bytes (fs :: items)). split; [done |].
    split; [split; [exact P |]; unfold next_place; now rewrite R, M |]. split; [done |].
    apply Nat.ltb_ge in R. apply Z.eqb_eq in M. pose proof (ld_cur _ _ _ P). pose proof per_pos. pose proof (ld_seq _ _ _ P).
    split; [right; split; [congruence | lia] |]. intros _ ->. cbn in R. lia.
  - apply Nat.ltb_ge in R. apply Z.eqb_neq in M. rewrite Ep in Eu. cbn [pack_items]. subst pl.
    destruct (step_in_exbuf p sent cur fs P Eu) as (p1 & pl1 & E & P1); [pose proof (ld_cur _ _ _ P); lia | done | done | done |].
    destruct (put_fields _ fs p) as [p'|]; [| done]. cbn [mbind option_bind] in E |- *. rewrite E. cbn [mbind option_bind].
    destruct (IH p1 (sent ++ [cur]) [item_bytes fs] pl1 P1 F) as (p2 & pl2 & s2 & c2 & rest & -> & P2 & Ec & Er & Ne).
    exists p2, pl2, s2, c2, rest. split; [done |]. split; [done |]. rewrite concat_app, <- app_assoc in Ec. cbn in Ec.
    rewrite app_nil_r in Ec. split; [exact Ec |]. split; [done |]. intros _. apply Ne. now left.
Qed.
End Packing.

(** What a listing handler does with its items. *)
Definition send_list (dest : sockaddr) (ep : option Z) (impl req k : Z) (items : list (list (Z * list Z))) (p : priv) : option priv :=
  let '(pl, p) := prepare_pkt dest ep impl req k p in
  '(_, p) ← pack_items (Some pl) items p; Some (flush_pkt p).

(** The response to a listing.  With items of [k] octets, as many as fit in
    500 octets go to a packet, in order; the packets are numbered from zero,
    each says how many items it has and, but for the last one, that more
    follow.  All items are sent unless they need more than 128 packets; then
    128 full packets are. *)
Theorem items_packed (dest : sockaddr) (ep : option Z) (impl req k : Z) (items : list (list (Z * list Z))) (p : priv) :
  0 < k <= RESP_DATA_SIZE -> Z.of_nat (length (rdata p)) = RESP_DATA_SIZE -> Z.of_nat (length (exbuf p)) = RESP_DATA_SIZE ->
  items <> [] -> Forall (fun fs => consecutive 0 fs /\ Z.of_nat (length (item_bytes fs)) = k) items ->
  exists p' sent last rest, send_list dest ep impl req k items p = Some p' /\
    map item_bytes items = concat sent ++ last ++ rest /\
    Forall (fun c => length c = per k) sent /\ (1 <= length last <= per k)%nat /\ Z.of_nat (length sent) <= MAXSEQ /\
    (rest = [] \/ Z.of_nat (length sent) = MAXSEQ /\ length last = per k) /\
    out (daemon p') = out (daemon p) ++ imap (sent_packet k dest ep impl req p true) sent
                        ++ [sent_packet k dest ep impl req p false (length sent) last].
Proof.
  intros Hk Lr Lx Ne F. unfold send_list. cbn [prepare_pkt]. set (p1 := setter usingexbuf _ _).
  assert (P : packing k dest ep impl req p p1 [] [] (Some (InPkt 0))).
  { split; [| split; [| done]].
    - constructor; try done; cbn [length]; rewrite ?Z.mul_0_r; try done; try lia.
      cbn. rewrite app_nil_r. unfold p1, daemon. cbn. now destruct (eng (pc p)).
    - unfold next_place. cbn [length]. rewrite (proj2 (Nat.ltb_lt _ _) (per_pos k Hk)). now rewrite Z.mul_0_r. }
  destruct (pack_items_spec k Hk dest ep impl req p items p1 [] [] _ P F) as (p2 & pl2 & sent & last & rest & -> & (P2 & _) & E & R & N).
  cbn [mbind option_bind concat app] in E |- *. assert (Hl : last <> []) by (apply N; now right).
  assert (Hn : nitems p2 <> 0) by (rewrite (ld_nitems _ _ _ _ _ _ _ _ _ P2); destruct last; [done | cbn; lia]).
  exists (flush_pkt p2), sent, last, rest. unfold flush_pkt. rewrite (proj2 (Z.eqb_neq (nitems p2) 0) Hn), andb_false_r.
  split; [done |]. split; [exact E |]. split; [apply P2 |]. split; [pose proof (ld_cur _ _ _ _ _ _ _ _ _ P2); destruct last; [done | cbn in *; lia] |].
  split; [apply P2 |]. split; [exact R |]. rewrite (loaded_bytes k Hk dest ep impl req p p2 sent last false P2).
  unfold emit. cbn [out setter]. rewrite (ld_daemon _ _ _ _ _ _ _ _ _ P2). cbn [out setter]. now rewrite app_assoc.
Qed.

(** A client that takes IPv4 addresses only gets a record of eight octets for
    each association up to the first one that is not IPv4. *)
Lemma listed_items `{Env} p l :
  client_v6_capable p = false ->
  Forall (fun fs => consecutive 0 fs /\ Z.of_nat (length (item_bytes fs)) = 8) (listed p l).
Proof.
  intros C. induction l as [|q l IH]; cbn; [constructor |]. unfold peer_fields. rewrite C.
  destruct (IS_IPV6 _); [constructor |]. constructor; [| exact IH]. split; [repeat split |]. reflexivity.
Qed.
Lemma list_peers_list `{Env} r p :
  client_v6_capable p = false ->
  list_peers r p = send_list (rq_src r) (rq_inter r) (rq_implementation (rq_bytes r)) (rq_request (rq_bytes r)) 8
                     (listed p (peer_list (daemon p))) p.
Proof.
  intros C. unfold list_peers, send_list, v6sizeof. rewrite C. cbn [prepare_pkt]. set (p1 := setter usingexbuf _ _).
  assert (E1 : daemon p1 = daemon p) by reflexivity. assert (E2 : client_v6_capable p1 = client_v6_capable p) by reflexivity. clearbody p1.
  assert (E : forall l, listed p1 l = listed p l).
  { induction l as [|q l IH]; cbn; [done |]. unfold peer_fields. rewrite E1, E2, IH. done. }
  now rewrite E1, E.
Qed.

(** ** A concrete server *)

Definition sample_priv : priv :=
  mk_priv sample_ctl (mk_timers 0 0 0 0 0 0 0 0 0 0 0 0) (mk_counts 0 0 0 0 0 0 0 0) 0 0 5 0 ∅ true 0 0 0 0 0 0 (replicate 500 0)
    4 0 0 0 0 (replicate 500 0) false zero_sock None.

(** A request without MAC: its code, the number and the size of its items,
    and the items, in a receive buffer. *)
Definition request7 (code n size : Z) (data : list Z) : recvbuf :=
  let b := [0x27; 0; IMPL_XNTPD; code] ++ be16 n ++ be16 size ++ data in
  mk_recvbuf (v4 0x0a000009) 1 3 (mk_lfp 2999999999 5) (Z.of_nat (length b)) (b ++ replicate (1000 - length b) 0).
Definition as_request (rb : recvbuf) : priv_request := mk_request (rb_srcadr rb) (ptr (rb_dstadr rb)) (rb_bytes rb).

(** A request to remove the association, which exists and is configured, is
    among those that fail. *)
Lemma two_pass_requests_fail_witness :
  let r := as_request (request7 11 1 4 (be32 0x0a000001)) in
  (0 < rq_itemsize (rq_bytes r) /\ Z.of_nat (length (rq_bytes r)) = 1000) /\ @do_unconf sample_env r sample_priv = None.
Proof.
  intros r. assert (A : 0 < rq_itemsize (rq_bytes r)) by reflexivity. assert (B : Z.of_nat (length (rq_bytes r)) = 1000) by reflexivity.
  split; [split; assumption |].
  destruct (@two_pass_requests_fail sample_env r [] RESTRICT_FLAGS sample_priv A B) as [[E | [E | E]] _];
    [exact E | exfalso; vm_compute in E; discriminate | exfalso; vm_compute in E; discriminate].
Defined.

(** The same request without a MAC is refused. *)
Lemma private_needs_key_witness :
  let rb := request7 11 1 4 (be32 0x0a000001) in
  (auth_fit (auth (daemon sample_priv)) /\ nonzero (sys_authenticate (cf (daemon sample_priv))) = true /\
   Forall (fun c => request_code c = rq_request (rb_bytes rb) -> needs_auth c = true) (@ntp_codes sample_env []) /\
   ~ @authentic sample_env rb sample_priv) /\
  exists p', @process_private sample_env (@ntp_codes sample_env []) rb true sample_priv = Some p' /\ refused sample_priv p'.
Proof.
  intros rb. assert (A : auth_fit (auth (daemon sample_priv))) by exact (ti_auth _ _ sample_inv).
  assert (S : nonzero (sys_authenticate (cf (daemon sample_priv))) = true) by reflexivity.
  assert (C : Forall (fun c => request_code c = rq_request (rb_bytes rb) -> needs_auth c = true) (@ntp_codes sample_env []))
    by (repeat constructor; intros X; first [reflexivity | vm_compute in X; discriminate X]).
  assert (N : ~ @authentic sample_env rb sample_priv) by (intros (X & _); vm_compute in X; discriminate X).
  split; [repeat (split; [assumption |]); assumption |].
  destruct (@process_private sample_env (@ntp_codes sample_env []) rb true sample_priv) as [p'|] eqn:E; [| vm_compute in E; discriminate E].
  exists p'. split; [reflexivity |].
  destruct (@private_needs_key sample_env sample_digest_laws _ _ _ _ _ A S C E (or_intror (or_intror N))) as [X | X]; [| exact X].
  exfalso. assert (Y : length (out (daemon p')) = 0%nat) by now rewrite X. revert Y.
  assert (Z1 : p' = default sample_priv (@process_private sample_env (@ntp_codes sample_env []) rb true sample_priv)) by now rewrite E.
  rewrite Z1. vm_compute. discriminate.
Defined.

Lemma items_packed_witness :
  let item b := [(0, replicate 200 b); (200, replicate 40 b)] in
  exists p' sent (last rest : list (list Z)), send_list zero_sock None 3 0 240 [item 1; item 2; item 3] sample_priv = Some p' /\
    map (@length (list Z)) sent = [2%nat] /\ last = [item_bytes (item 3)] /\ rest = [] /\ length (out (daemon p')) = 2%nat.
Proof.
  intros item.
  assert (F : Forall (fun fs => consecutive 0 fs /\ Z.of_nat (length (item_bytes fs)) = 240) [item 1; item 2; item 3])
    by (repeat constructor).
  destruct (items_packed zero_sock None 3 0 240 [item 1; item 2; item 3] sample_priv ltac:(unfold RESP_DATA_SIZE; lia) eq_refl eq_refl
              ltac:(discriminate) F) as (p' & sent & last & rest & E & C & Fs & L & M & R & O).
  assert (Hp : length (out (daemon p')) = 2%nat).
  { assert (X : p' = default sample_priv (send_list zero_sock None 3 0 240 [item 1; item 2; item 3] sample_priv)) by now rewrite E.
    rewrite X. vm_compute. reflexivity. }
  pose proof Hp as Hl. rewrite O, !length_app, length_imap in Hl. change (length (out (daemon sample_priv))) with 0%nat in Hl.
  cbn [length plus] in Hl. destruct sent as [|c [|? ?]]; cbn [length] in Hl; try lia.
  apply Forall_cons in Fs as [Lc _]. change (per 240) with 2%nat in *.
  destruct c as [|x [|y [|? ?]]]; cbn [length] in Lc; try lia. cbn [map concat app] in C. injection C as C1 C2 C3.
  destruct R as [-> | [M' _]]; [| vm_compute in M'; discriminate M'].
  exists p', [[x; y]], last, []. split; [exact E |]. split; [reflexivity |]. rewrite app_nil_r in C3. split; [now rewrite <- C3 |].
  split; [reflexivity | exact Hp].
Defined.
