(* ===== verification/ControlFindings.v ===== *)
(** * Defects of the mode 6 server, as facts about the model

    What the proofs on ntpd/ntp_control.c had to work around: assertions that
    a request reaches, a trap search that gives up the wrong traps, responses
    in two versions, and flags that are turned round. *)

From Stdlib Require Import Ascii String.
From S2P Require Import Prelude FixedPoint Calendar Double Lists NtpTypes Text AuthKeys Monitor Restrict RestrictFacts State ProtoBase Peer Refclock Filter RefclockPoll Sample Control ControlVars ControlOps ControlMain ControlSample ControlFacts.
From stdpp Require Import base gmap list.
#[local] Open Scope Z_scope.

(** ** Requests that stop the daemon *)

(** Requests without any authentication run into an assertion of the
    server: a read of a variable that the daemon installs itself with a value
    of 128 characters (the second search of [read_sysvars] insists on a
    result), and a request for the list of clients with an address of 80
    characters ([decodenetnum] requires fewer), although it carries no
    nonce. *)
Theorem requests_that_abort :
  @process_control sample_env sample_ctlenv (request 2 0 (txt "daemon_version=" ++ replicate 128 65)) 0 sample_ctl = None /\
  @process_control sample_env sample_ctlenv (request 10 0 (txt "laddr=" ++ replicate 80 49)) 0 sample_ctl = None /\
  is_Some (@process_control sample_env sample_ctlenv (request 2 0 (txt "daemon_version=" ++ replicate 127 65)) 0 sample_ctl) /\
  is_Some (@process_control sample_env sample_ctlenv (request 10 0 (txt "laddr=" ++ replicate 79 49)) 0 sample_ctl).
Proof.
  split; [vm_compute; reflexivity |]. split; [vm_compute; reflexivity |].
  split; eexists; vm_compute; reflexivity.
Qed.

(** ** Traps *)

Definition trap_of (addr settime : Z) : ctl_trap := mk_trap (v4 addr) (Some 1) settime 0 settime 0 1 TRAP_INUSE 3.

(** The search for a trap gives up the traps that have not expired and
    keeps those that have: a new trap request clears the trap that was set a
    hundred seconds ago, and fails when all slots have traps that expired
    long ago. *)
Theorem trap_expiry_inverted :
  let now := 100000 in
  let c := sample_ctl <| eng := (eng sample_ctl) <| current_time := now |> |> <| num_ctl_traps := 3 |> in
  let old (a : Z) := trap_of a (now - 2 * CTL_TRAPTIME) in
  let set (traps : list ctl_trap) := ctlsettrap (v4 0x0a000009) (Some 1) TRAP_TYPE_PRIO 3 (c <| ctl_traps := traps |>) in
  (exists c', set [trap_of 0x0a000001 (now - 100); zero_trap; zero_trap] = (true, c') /\
     ctlfindtrap (v4 0x0a000001) (Some 1) c' = None) /\
  fst (set [old 0x0a000001; old 0x0a000002; old 0x0a000003]) = false.
Proof. split; [eexists; split; vm_compute; reflexivity | vm_compute; reflexivity]. Qed.

(** ** Responses *)

(** A request for a trap that cannot be had is answered twice, by an error
    and by an empty success: the handler goes on after [ctl_error]. *)
Theorem trap_answered_twice :
  let c := sample_ctl <| ctl_traps := [] |> in
  exists c' a b, @process_control sample_env sample_ctlenv (request 6 0 []) 0 c = Some c' /\
    out (eng c') = out (eng c) ++ [a; b] /\
    match a, b with
    | Sendpkt _ _ _ x, Sendpkt _ _ _ y => has (byte_at x 1) CTL_ERROR = true /\ has (byte_at y 1) CTL_ERROR = false
    | _, _ => False
    end.
Proof. eexists _, _, _. split; [vm_compute; reflexivity |]. split; [reflexivity | split; reflexivity]. Qed.

(** A text of more than 504 octets does not go into fragments: the first
    text of a response is written behind the end of the packet buffer.  The
    text a configuration error is reported with has up to 1023 octets. *)
Theorem long_text_overruns `{Env} (text : list Z) (c : ctl) :
  fresh_response c -> CTL_DATA_SIZE < Z.of_nat (length text) -> reply text c = None.
Proof.
  intros (B & P & D & _ & _) L. unfold reply, ctl_putdata, put_separator.
  set (c1 := setter datanotbinflag true c). change (datapt c1) with (datapt c). rewrite D. cbn [Z.eqb mbind option_bind]. cbv iota.
  change (datapt c1) with (datapt c). rewrite D.
  unfold CTL_DATA_SIZE, MAX_MAC_LEN in L. rewrite (proj2 (Z.ltb_lt _ _)) by (unfold CTL_MAX_DATA_LEN; lia).
  destruct (flush_spec CTL_MORE c1) as (c2 & b & -> & _ & [_ B2] & _ & D2 & _); [exact B | exact P | cbn; lia |].
  cbn [mbind option_bind]. unfold put, poke. rewrite D2, B2. rewrite (proj2 (Z.leb_gt (0 + _) _)); [done | unfold CTL_DATA_SIZE, MAX_MAC_LEN; lia].
Qed.

Lemma long_text_overruns_witness :
  fresh_response sample_ctl /\ CTL_DATA_SIZE < Z.of_nat (length (replicate 505 65)) /\
  @reply sample_env (replicate 505 65) sample_ctl = None.
Proof.
  assert (A : fresh_response sample_ctl) by (repeat split; try done; vm_compute; congruence).
  assert (L : CTL_DATA_SIZE < Z.of_nat (length (replicate 505 65))) by reflexivity.
  split; [exact A |]. split; [exact L |]. exact (@long_text_overruns sample_env (replicate 505 65) sample_ctl A L).
Defined.

(** ** Variables of the user *)

(** Setting a variable whose text has no equals sign a second time runs
    past the end of both texts. *)
Theorem same_name_overruns (data : list Z) (def : Z) (kv : list ctl_var) :
  has_char 61 data = false -> set_var (mk_var 0 def data :: kv) data def = None.
Proof.
  intros N. unfold set_var, set_in. cbn [v_text].
  assert (E : same_name data data = None); [| now rewrite E].
  revert N. induction data as [|x l IH]; cbn [same_name has_char existsb]; [done |]. intros [N1 N2]%orb_false_iff.
  rewrite Z.eqb_refl, (Z.eqb_sym x), N1. now apply IH.
Qed.

Lemma same_name_overruns_witness :
  has_char 61 (txt "note") = false /\ set_var [mk_var 0 RO (txt "note")] (txt "note") RO = None.
Proof. split; [reflexivity |]. apply (same_name_overruns (txt "note") RO []). reflexivity. Defined.
