(* ===== verification/Findings.v ===== *)
(** * Defects of the packet protocol, as evaluated facts

    Closed runs of the model on the sample daemon, one per defect of
    ntpd/ntp_proto.c, ntp_peer.c and ntp_control.c that the proofs of the
    other files had to work around. *)

From S2P Require Import Prelude FixedPoint Calendar Double Lists NtpTypes AuthKeys AuthFacts Monitor Restrict RestrictFacts State ProtoBase Refclock Sample Peer Select Filter Transmit Receive.
From stdpp Require Import base gmap list.
#[local] Open Scope Z_scope.

(** A datagram of [addr] with a header and [mac] octets after it. *)
Definition datagram (addr : Z) (pk : pkt) (mac : list Z) : recvbuf :=
  mk_recvbuf (v4 addr) 1 3 (mk_lfp 3000000000 0) (48 + Z.of_nat (length mac)) (pkt_bytes pk ++ mac).

Definition header (leap mode stratum ppoll refid : Z) (org xmt : l_fp) : pkt :=
  mk_pkt (PKT_LI_VN_MODE leap 4 mode) stratum ppoll (-20) 0 0 refid lzero org (mk_lfp 3000000001 0) xmt.

(** ** Packets that slip through *)

(** A crypto-NAK in symmetric active mode from an address the daemon does not know. *)
Definition crypto_nak : recvbuf :=
  datagram 0x0a000009 (header 0 MODE_ACTIVE 2 6 0x0b000001 lzero (mk_lfp 3000000000 1)) [0; 0; 0; 0].

(** An unauthenticated symmetric active packet mobilizes an association
    although the daemon is configured to require authentication: the branch
    for packets that fail the check falls through to [newpeer] unless the
    packet may be answered without a key.  Here a packet whose MAC is a bare
    key identifier (a crypto-NAK) from an unknown address leaves a passive
    association with that address at the head of the list. *)
Theorem crypto_nak_mobilizes :
  nonzero (sys_authenticate (cf sample_state)) = true /\
  mac_length crypto_nak = Some (48, 4, 0) /\
  exists s' p, @receive sample_env crypto_nak sample_state = Some s' /\
    peer_list s' = [p; 1] /\ p_hmode (peer_at s' p) = MODE_PASSIVE /\
    p_srcadr (peer_at s' p) = rb_srcadr crypto_nak.
Proof.
  split; [reflexivity |]. split; [reflexivity |]. eexists _, _. split; [vm_compute; reflexivity |].
  split; [reflexivity |]. split; reflexivity.
Qed.

(** A kiss-o'-death whose origin timestamp answers nothing, without MAC. *)
Definition forged_kod : recvbuf :=
  datagram 0x0a000001 (header 3 MODE_SERVER 0 17 RATE (mk_lfp 12345 0) (mk_lfp 3000000000 1)) [].

(** A kiss-o'-death is obeyed although its origin timestamp answers no
    packet of ours: the packet fails the bogus test, yet the minimum poll
    interval of the association rises to the one in the packet, beyond the
    maximum poll interval that was configured. *)
Theorem forged_kod_obeyed :
  L_ISEQU (pk_org (rb_pkt forged_kod)) (p_aorg (pv (peer_at sample_state 1))) = false /\
  exists s', @receive sample_env forged_kod sample_state = Some s' /\
    has (p_flash (pv (peer_at s' 1))) TEST2 = true /\
    p_maxpoll (peer_at s' 1) = 10 /\ p_minpoll (peer_at s' 1) = 17.
Proof. split; [reflexivity |]. eexists. split; [vm_compute; reflexivity |]. split; [reflexivity | split; reflexivity]. Qed.

(** A server packet with a zero origin timestamp. *)
Definition zero_origin : recvbuf :=
  datagram 0x0a000001 (header 0 MODE_SERVER 2 6 0x0b000001 lzero (mk_lfp 3000000001 1)) [].

(** A packet with a zero origin timestamp is taken for an answer when no
    request is outstanding: the expected origin was cleared by the previous
    answer and compares equal.  Its sample enters the filter and becomes the
    offset of the association. *)
Theorem zero_origin_accepted :
  p_aorg (pv (peer_at sample_state 1)) = lzero /\
  exists s', @receive sample_env zero_origin sample_state = Some s' /\
    has (p_flash (pv (peer_at s' 1))) PKT_TEST_MASK = false /\
    p_filter_nextpt (pv (peer_at s' 1)) = 1 /\
    deq (p_offset (pv (peer_at sample_state 1))) (p_offset (pv (peer_at s' 1))) = false.
Proof. split; [reflexivity |]. eexists. split; [vm_compute; reflexivity |]. split; [reflexivity | split; reflexivity]. Qed.

(** ** The system peer after demobilization *)

(** A second server, with an offset within the clockhop threshold. *)
Definition two_peers : option state :=
  '(p, s) ← @newpeer sample_env (mk_args (v4 0x0a000002) None (Some 1) MODE_CLIENT 4 6 10 FLAG_CONFIG MDF_UCAST 0 0)
              sample_state;
  p ← p;
  Some ((upd_peer p (fun r => r <| p_leap := 0 |> <| p_stratum := 2 |> <| p_refid := 0x0b000001 |> <| p_update := 99 |>
      <|| p_reach := 1 ||> <|| p_epoch := 99 ||> <|| p_offset := dlit 5 4 ||>
      <|| p_delay := dlit 1 2 ||> <|| p_jitter := dlit 1 3 ||> <|| p_disp := dlit 1 2 ||>) s)
        <|sv sys_peer := Some 1 |>).

(** Demobilizing the system peer leaves [sys_peer] pointing at the freed
    structure, and the next selection can elect it: with the zeroed offset
    of the freed structure within the clockhop threshold of the survivor's,
    the anti-clockhop rule keeps the old system peer, which is on the free
    list and no longer among the associations. *)
Theorem freed_system_peer_elected :
  exists s s1 s2, two_peers = Some s /\ sys_peer (sv s) = Some 1 /\
    @unpeer sample_env 1 s = Some s1 /\ peer_list s1 = [2] /\ head (peer_free s1) = Some 1 /\
    @elect sample_env s1 = Some (Some 1, s2) /\ peer_free s2 = peer_free s1.
Proof.
  eexists _, _, _. split; [vm_compute; reflexivity |]. split; [reflexivity |].
  split; [vm_compute; reflexivity |]. split; [reflexivity |]. split; [reflexivity |].
  split; [vm_compute; reflexivity | reflexivity].
Qed.

(** ** Peer events *)

(** The events reported for an association by a step. *)
Definition reported (err p : Z) (s s' : state) : Prop := out s' = out s ++ [Report err (Some p)].

(** The limit on repeated peer events is inverted.  A report of the same
    type as the last one resets the count and is always sent, however often
    it comes; once the count is at its maximum it is a report of another
    type that is discarded, and the count and the last type stay as they
    are, so every later report of another type is discarded too. *)
Theorem peer_event_limit_inverted (err p : Z) (s : state) :
  let r := peer_at s p in
  (p_last_event r = u8 (clr (u8 err) PEER_EVENT) -> reported err p s (report_event err (Some p) s)) /\
  (p_last_event r <> u8 (clr (u8 err) PEER_EVENT) -> CTL_PEER_MAXEVENTS <= p_num_events r ->
   report_event err (Some p) s = s).
Proof.
  cbv zeta. unfold reported, report_event. split.
  - intros E. rewrite (proj2 (Z.eqb_eq _ _) E), peer_at_upd, decide_True by done. reflexivity.
  - intros E H. rewrite (proj2 (Z.eqb_neq _ _) E), (proj2 (Z.leb_le _ _) H). done.
Qed.

Lemma peer_event_limit_inverted_witness :
  let s := upd_peer 1 (fun r => r <| p_last_event := 5 |> <| p_num_events := 200 |>) sample_state in
  reported PEVNT_RESTART 1 s (report_event PEVNT_RESTART (Some 1) s) /\ report_event PEVNT_AUTH (Some 1) s = s.
Proof.
  cbv zeta. split.
  - apply (peer_event_limit_inverted PEVNT_RESTART 1). vm_compute. reflexivity.
  - apply (peer_event_limit_inverted PEVNT_AUTH 1); vm_compute; discriminate.
Defined.
